(* ===== verification/_CoqProject ===== *)
-Q . S2P
Prelude.v
Time.v
LoginTypes.v
ActionTypes.v
Escape.v
Parse.v
EnvFile.v
Words.v
LoginState.v
LoginEnv.v
Bus.v
Objects.v
SessionDevice.v
Seat.v
Device.v
User.v
Session.v
Lifecycle.v
SessionBus.v
ManagerBus.v
Inhibit.v
WordsFacts.v
Wall.v
Power.v
Schedule.v
Buttons.v
Startup.v
Events.v
SdLogin.v
Sleep.v
SleepFacts.v
Moves.v
Cols.v
Links.v
LinksObjects.v
LinksDevice.v
LinksSeat.v
LinksPositions.v
LinksAttach.v
LinksHotplug.v
LinksTake.v
LinksUser.v
LinksSession.v
LinksLeader.v
LinksStart.v
LinksLoad.v
LinksStop.v
LinksFree.v
LinksGc.v
LinksBus.v
LinksCreate.v
LinksManager.v
LinksPower.v
LinksSchedule.v
LinksKeys.v
LinksRun.v
LinksEnumerate.v
LinksBoot.v
Partial.v
Sample.v
Safety.v
Access.v
DeviceControl.v
SwitchOrder.v
SessionFacts.v
UserFacts.v
SeatFacts.v
Identity.v
CreateFacts.v
EnvFileFacts.v
SdLoginFacts.v
SdSessionFacts.v
SdUserFacts.v
LoadFacts.v
Queries.v
InhibitFacts.v
PowerFacts.v
ScheduleFacts.v
ButtonFacts.v
