(* ===== verification/Prelude.v ===== *)
(** * elogind, the login daemon: a verification development

    elogind tracks users, their login sessions, and the seats (a screen, a
    keyboard, the devices around them) that sessions run on.  It hands the
    devices of a seat to the session in its foreground, tells D-Bus clients
    what changes, and shuts the machine down or suspends it when a key, a timer
    or a client asks for it and no inhibitor forbids it.  This development models
    that daemon, [src/src/login/] with the helpers of [src/src/basic/] and
    [src/src/shared/] that it computes with, and proves what makes it correct.

    ** How the model reads

    One record, [manager] of LoginState.v, is the state: the hash maps of
    [struct Manager] are finite maps from keys to records, a pointer is the key
    of what it points to, and looking up a key that is not there is following a
    dangling pointer.  A C function is a computation [MM A := manager ->
    option (A * manager)]: [None] is a failed assertion, a dangling pointer or a
    loop without end; an error is the negative errno it returns.  Names are those
    of the C code; a loop or a long handler is cut into named pieces, each next
    to the function it is part of.

    What the kernel, udev, polkit, the bus and the event loop answer is the
    class [Env] of LoginEnv.v: a theorem holds for every environment, and each
    handler of a run may see another one; [EnvOk] collects the few documented
    properties of these answers that the code relies on.  What others can see (signals,
    state files, ioctls, wall messages, forks) is appended to [m_trace].

    ** The parts

    - Data and text: Time.v (saturating times, clocks), LoginTypes.v and
      ActionTypes.v (enumerations, string tables, the table of actions),
      Escape.v (cescape, cunescape), Parse.v (integers, paths, terminal names),
      EnvFile.v (KEY=value files, UTF-8), Words.v (splitting into words).
    - State: LoginState.v, LoginEnv.v; Objects.v for the predicates, signals
      and state files that the objects share.
    - Objects: SessionDevice.v, Seat.v, Device.v, User.v, Session.v, and
      Lifecycle.v for stopping, freeing and the garbage collector
      ([logind-session-device.c], [logind-seat.c], [logind-device.c],
      [logind-user.c], [logind-session.c], [manager_gc] of [logind.c]).
    - D-Bus: Bus.v (messages, outcomes, who is meant), SessionBus.v, ManagerBus.v ([logind-session-dbus.c],
      [logind-seat-dbus.c], [logind-user-dbus.c], [logind-dbus.c]); Queries.v for
      what changes nothing: object paths ([bus-label.c]), the Get and List methods,
      the properties that are computed, and that the answers agree.
    - Power: Inhibit.v ([logind-inhibit.c]), Wall.v ([logind-wall.c]), Power.v
      ([logind-action.c], the SIGCHLD handler of [elogind.c]), Schedule.v
      (shutdown, sleep and schedules of [logind-dbus.c]), Buttons.v
      ([logind-button.c], the lid and displays of [logind-core.c], the idle action
      of [logind.c]).
    - Sleeping: Sleep.v, what the child does that the daemon forks for it
      ([src/src/sleep/], [sleep-config.c], [hibernate-util.c]): the choice of a
      swap, the batteries, hooks, and suspend-then-hibernate.  It has a state and
      an environment of its own, the class [Host], whose answers may differ each
      time it is asked.
    - Clients: SdLogin.v, the part of the client library [sd-login.c] that reads
      the daemon's state files.
    - The start: Startup.v, the default settings, what is read back of users and sessions
      ([user_load], [session_load]), the enumerations of [logind.c], the
      descriptors that are passed on, and [manager_startup].
    - The loop: Events.v, whose [handle] is what one event does, whose
      [manager_run_once] is one round of [manager_run], and whose [reachable]
      are the states the daemon can get to from a start, whatever was saved.
      Its events are all D-Bus methods that change something, the event sources
      of sessions, users, seats, buttons, inhibitors and timers, udev, SIGCHLD
      and the reload of the settings.

    ** The proofs

    Cols.v abstracts the manager to the columns of its links, one map per
    pointer field, and gives rules of total correctness on it; Links.v states the
    invariant on the links, the power actions in progress, the settings and the
    buttons, with that of a long press that is timed; LinksObjects.v to LinksManager.v show, file by file
    in the order of the calls, that every operation ends and keeps it, and so do
    LinksPower.v (inhibitors, executing and delaying), LinksSchedule.v (shutdown,
    sleep, schedules) and LinksKeys.v (keys, lid, idle timer) for the power actions;
    LinksRun.v carries it through a round of the loop.  While the daemon starts,
    a weaker invariant holds (the flag [booting] of Links.v: a session whose file
    turns out bad has no user yet); LinksLoad.v, LinksEnumerate.v and LinksBoot.v
    show that loading keeps it and that the collector and the start make it whole,
    so that it holds in every reachable state.  Safety.v reads
    the results off the manager's own tables: the start succeeds and the main loop never fails, the
    pointers and the power actions agree, active devices are those of the session
    in the foreground, the collector empties its queues, a freed session leaves
    nothing behind.
    Moves.v and Partial.v are the rules for what an operation cannot change;
    Sample.v is a concrete machine on which the theorems are tried.

    On top of that: SwitchOrder.v (devices are withdrawn before they are
    granted), Access.v (strangers change nothing), DeviceControl.v (taking
    devices is all or nothing), SessionFacts.v, UserFacts.v, SeatFacts.v (what
    the operations on one object compute, the display election and the
    switching between positions against declarative specifications),
    Identity.v and CreateFacts.v (CreateSession creates what was asked for, its ids are
    free, its limit holds), InhibitFacts.v, PowerFacts.v, ScheduleFacts.v and ButtonFacts.v
    (blocks hold, delays delay, the default settings, schedules survive a restart, keys and idleness),
    SleepFacts.v (the machine sleeps only in order and between the hooks, the child
    ends, questions of support are answered), WordsFacts.v (splitting makes progress),
    EnvFileFacts.v and the beginning of LoadFacts.v (what is written is read back).  SdLoginFacts.v,
    SdSessionFacts.v and SdUserFacts.v compose the daemon with its clients: the
    file that a save leaves on disk is read by the client library as the state
    of the seat, session or user it was saved from, and SdSessionFacts.v shows
    what a controller can write into that file.  LoadFacts.v composes the daemon
    with its successor: the file of a session, saved in any reachable state, meets
    what the start takes for granted and gives the session back; that of a user, the user.

    What the start takes for granted is [saved_ok] of Startup.v, of the files: no
    directory lists a file twice, a session's positions and terminals are read as
    numbers and its devices are distinct, the scheduled action is one that can be
    carried out, and no descriptors are passed on (elogind has no service manager
    to keep them).  Each of these that is not so makes the code fail, as the comments there
    and at [parse_fdname] say.
    What the main loop takes for granted is [sane], of the settings (the limit on
    sessions leaves room for a position, and nothing is set to factory-reset),
    and [event_ok], of the events: the kernel reports no key of code 0, and a
    button does not go - by being unplugged, losing its tag or failing to open
    again - while a long press of one of its keys is timed.  That the button of a
    long press is there when the time is up is then an invariant.  For an action
    set to factory-reset, and for a button that goes, ButtonFacts.v shows how the
    daemon comes down.
    What SleepFacts.v takes for granted is [HostErrors] and [HostOk], of the
    system (errors are negative, the clock does not go back, a timer does not go off
    early, a swap partition is on a device), and, written out as premises where
    they are needed because the code fails without them, [swap_on_a_device] and
    [sessions_readable].

    ** Bounds and fuel

    Integers are [Z] with the width written out where the code can leave it
    ([u32], [u64], the checks of the parsers).  Fuel is used for three kinds of
    loops, and is shown to be enough for each: the collector's fuel is computed
    from the tables ([gc_rounds]; the theorem that every round of the loop ends
    needs no hypothesis on it), the search for a free session or inhibitor id has
    as many rounds as there are ids to be in the way, and the loops over strings have the
    length of the string.  The turns of suspend-then-hibernate, which the code does
    not bound, are counted by an argument of [do_sleep]: its result None says that
    it goes on after them, the theorem on the order of its deeds holds after any
    number of turns, and [sleep_ends] says when how many are enough.

    ** Not modelled

    - What [manager_startup] does before it adds seat0: connecting to the console,
      udev, the bus and utmp, whose later events are those of the loop.
    - The shutdown helper and the hook scripts themselves, what the drivers do with
      what is written to them, the parser of configuration files, the extents of a
      swap file and the EFI variables.
    - polkit, the bus, the event loop, udev, /proc, control groups, terminals
      and files themselves: the environment answers for them.
    - Property getters that only copy a field or a setting, boot loader and
      firmware settings, Varlink, utmp, the brightness helper, the PAM module and
      the command line tools, which are clients of the D-Bus API; of the client
      library what it asks the kernel (control groups, inotify).
    - Failing allocations of small objects: the code returns -ENOMEM and does
      nothing else. *)
From stdpp Require Export base gmap strings list fin_maps fin_sets.
From Stdlib Require Export ZArith Lia.

(** * Functional record update *)

(** [upd p f r] is [r] with [f] applied to its field [p].  The instance for a
    projection is computed from the eta-expansion of its record type. *)
Class Eta (R : Type) := eta : R → R.
Class Upd {R T : Type} (p : R → T) := upd : (T → T) → R → R.
Arguments upd {R T} p {_} _ _ /.

Ltac solve_upd :=
  lazymatch goal with
  | |- @Upd ?R ?T ?p =>
      let g := eval hnf in (@eta R _) in
      exact (fun (f : T → T) (r : R) =>
        ltac:(let b := eval cbv beta in (g r) in
              let k := eval pattern (p r) in b in
              lazymatch k with
              | ?h _ => let t := eval cbv beta in (h (f (p r))) in exact t
              end))
  end.
#[export] Hint Extern 0 (Upd _) => solve_upd : typeclass_instances.

Declare Scope login_scope.
Delimit Scope login_scope with login.
Notation "r <| p := v |>" := (upd p (fun _ => v) r)
  (at level 1, left associativity, p at level 9) : login_scope.
#[global] Open Scope login_scope.
#[global] Open Scope Z_scope.

(** * Return codes: the negative errno values the code returns *)

Definition EPERM : Z := 1.
Definition ENOENT : Z := 2.
Definition ESRCH : Z := 3.
Definition EIO : Z := 5.
Definition ENXIO : Z := 6.
Definition EAGAIN : Z := 11.
Definition EADDRNOTAVAIL : Z := 99.
Definition EBADF : Z := 9.
Definition ENOMEM : Z := 12.
Definition EACCES : Z := 13.
Definition EBUSY : Z := 16.
Definition EEXIST : Z := 17.
Definition ENODEV : Z := 19.
Definition EOWNERDEAD : Z := 130.
Definition EINVAL : Z := 22.
Definition ENOTTY : Z := 25.
Definition ERANGE : Z := 34.
Definition ENODATA : Z := 61.
Definition EOVERFLOW : Z := 75.
Definition EOPNOTSUPP : Z := 95.
Definition EALREADY : Z := 114.
Definition ESTALE : Z := 116.
Definition EUCLEAN : Z := 117.
Definition ENOMEDIUM : Z := 123.
Definition ENOSPC : Z := 28.
Definition ENOMSG : Z := 42.
Definition EPROTO : Z := 71.
Definition ECANCELED : Z := 125.
Definition ENOTRECOVERABLE : Z := 131.

(** * A state monad with failure

    A computation reads and writes a state; [None] is an [assert] that fails,
    or a pointer that is NULL or dangling and dereferenced. *)

Definition M (S A : Type) : Type := S → option (A * S).

Section Monad.
  Context {S : Type}.

Definition ret {A} (a : A) : M S A := λ s, Some (a, s).
Definition bind {A B} (c : M S A) (k : A → M S B) : M S B :=
    λ s, match c s with Some (a, s') => k a s' | None => None end.
Definition crash {A} : M S A := λ _, None.
Definition gets {A} (f : S → A) : M S A := λ s, Some (f s, s).
Definition modify (f : S → S) : M S unit := λ s, Some (tt, f s).

  (** [assert(b)]. *)
Definition assert_se (b : bool) : M S unit := if b then ret tt else crash.
  (** Dereferencing a pointer that may be NULL or dangling. *)
Definition deref {A} (o : option A) : M S A :=
    match o with Some a => ret a | None => crash end.
Definition when (b : bool) (c : M S unit) : M S unit := if b then c else ret tt.
Definition ignore {A} (c : M S A) : M S unit := bind c (λ _, ret tt).

  (** The body [f] run on every element of a list, in order. *)
Fixpoint for_each {X} (f : X → M S unit) (l : list X) : M S unit :=
    match l with
    | [] => ret tt
    | x :: l' => bind (f x) (λ _, for_each f l')
    end.

  (** The same with an accumulator. *)
Fixpoint fold_m {X A} (f : A → X → M S A) (a : A) (l : list X) : M S A :=
    match l with
    | [] => ret a
    | x :: l' => bind (f a x) (λ a', fold_m f a' l')
    end.
End Monad.

#[global] Hint Mode Eta ! : typeclass_instances.

Notation "x <- c ;; k" := (bind c (fun x => k))
  (at level 100, c at next level, right associativity) : login_scope.
Notation "c ;;; k" := (bind c (fun _ => k))
  (at level 100, right associativity) : login_scope.

(** ** Total correctness

    [wp c Q s]: [c] does not fail from [s] and ends in a state and a result
    that satisfy [Q]. *)

Definition wp {S A} (c : M S A) (Q : A → S → Prop) (s : S) : Prop :=
  match c s with Some (a, s') => Q a s' | None => False end.

(** [moves R c]: whenever [c] ends, [R] relates the state before and after. *)
Definition moves {S A} (R : relation S) (c : M S A) : Prop :=
  ∀ s a s', c s = Some (a, s') → R s s'.

Section MonadLemmas.
  Context {S : Type}.
  Implicit Types s : S.

Lemma wp_ret {A} (a : A) (Q : A → S → Prop) s : Q a s → wp (ret a) Q s.
  Proof. done. Qed.
Lemma wp_bind {A B} (c : M S A) (k : A → M S B) (Q : B → S → Prop) s :
    wp c (λ a, wp (k a) Q) s → wp (bind c k) Q s.
  Proof. unfold wp, bind. destruct (c s) as [[a s']|]; done. Qed.
Lemma wp_bind_inv {A B} (c : M S A) (k : A → M S B) (Q : B → S → Prop) s :
    wp (bind c k) Q s → wp c (λ a, wp (k a) Q) s.
  Proof. unfold wp, bind. destruct (c s) as [[a s']|]; done. Qed.
Lemma wp_gets {A} (f : S → A) (Q : A → S → Prop) s : Q (f s) s → wp (gets f) Q s.
  Proof. done. Qed.
Lemma wp_modify (f : S → S) (Q : unit → S → Prop) s : Q tt (f s) → wp (modify f) Q s.
  Proof. done. Qed.
Lemma wp_assert (b : bool) (Q : unit → S → Prop) s :
    b = true → Q tt s → wp (assert_se b) Q s.
  Proof. by intros ->. Qed.
Lemma wp_deref {A} (o : option A) a (Q : A → S → Prop) s :
    o = Some a → Q a s → wp (deref o) Q s.
  Proof. by intros ->. Qed.
Lemma wp_when (b : bool) c (Q : unit → S → Prop) s :
    (b = true → wp c Q s) → (b = false → Q tt s) → wp (when b c) Q s.
  Proof. destruct b; intros H1 H2; [by apply H1 | by apply H2]. Qed.
Lemma wp_ignore {A} (c : M S A) (Q : unit → S → Prop) s :
    wp c (λ _, Q tt) s → wp (ignore c) Q s.
  Proof. intros H. by apply wp_bind. Qed.

Lemma wp_mono {A} (c : M S A) (P Q : A → S → Prop) s :
    wp c P s → (∀ a s', P a s' → Q a s') → wp c Q s.
  Proof. unfold wp. destruct (c s) as [[a s']|]; eauto. Qed.
Lemma wp_and {A} (c : M S A) (P Q : A → S → Prop) s :
    wp c P s → wp c Q s → wp c (λ a s', P a s' ∧ Q a s') s.
  Proof. unfold wp. destruct (c s) as [[a s']|]; auto. Qed.
Lemma wp_moves {A} (R : relation S) (c : M S A) (Q : A → S → Prop) s :
    moves R c → wp c Q s → wp c (λ a s', Q a s' ∧ R s s') s.
  Proof.
    unfold wp, moves. intros K. specialize (K s).
    destruct (c s) as [[a s']|]; eauto.
  Qed.
Lemma wp_run {A} (c : M S A) (Q : A → S → Prop) s :
    wp c Q s → ∃ a s', c s = Some (a, s') ∧ Q a s'.
  Proof. unfold wp. destruct (c s) as [[a s']|]; [eauto | done]. Qed.
Lemma bind_Some {A B} (c : M S A) (k : A → M S B) s b s' :
    bind c k s = Some (b, s') → ∃ a s1, c s = Some (a, s1) ∧ k a s1 = Some (b, s').
  Proof. unfold bind. destruct (c s) as [[a s1]|]; [eauto | done]. Qed.
Lemma wp_intro {A} (c : M S A) (Q : A → S → Prop) s a s' :
    c s = Some (a, s') → Q a s' → wp c Q s.
  Proof. unfold wp. by intros ->. Qed.

  (** An invariant over what is left of the list. *)
Lemma wp_for_each {X} (f : X → M S unit) (I : list X → S → Prop) l s :
    I l s →
    (∀ x l' s', I (x :: l') s' → wp (f x) (λ _, I l') s') →
    wp (for_each f l) (λ _, I []) s.
  Proof.
    intros HI Hf. revert s HI. induction l as [|x l IH]; intros s HI; [done|].
    simpl. apply wp_bind. eapply wp_mono; [by apply Hf|]. eauto.
  Qed.
Lemma wp_fold_m {X A} (f : A → X → M S A) (I : A → list X → S → Prop) a l s :
    I a l s →
    (∀ a' x l' s', I a' (x :: l') s' → wp (f a' x) (λ a'', I a'' l') s') →
    wp (fold_m f a l) (λ a', I a' []) s.
  Proof.
    intros HI Hf. revert a s HI. induction l as [|x l IH]; intros a s HI; [done|].
    simpl. apply wp_bind. eapply wp_mono; [by apply Hf|]. eauto.
  Qed.

  Section Moves.
    Context (R : relation S) `{!PreOrder R}.
Lemma moves_ret {A} (a : A) : moves R (ret a).
    Proof. intros s a' s' [= <- <-]. reflexivity. Qed.
Lemma moves_crash {A} : moves R (@crash S A).
    Proof. intros s a' s' [=]. Qed.
Lemma moves_gets {A} (f : S → A) : moves R (gets f).
    Proof. intros s a' s' [= <- <-]. reflexivity. Qed.
Lemma moves_modify f : (∀ s, R s (f s)) → moves R (modify f).
    Proof. intros H s a' s' [= <- <-]. apply H. Qed.
Lemma moves_assert b : moves R (assert_se b).
    Proof. destruct b; [apply moves_ret | apply moves_crash]. Qed.
Lemma moves_deref {A} (o : option A) : moves R (deref o).
    Proof. destruct o; [apply moves_ret | apply moves_crash]. Qed.
Lemma moves_bind {A B} (c : M S A) (k : A → M S B) :
      moves R c → (∀ a, moves R (k a)) → moves R (bind c k).
    Proof.
      unfold moves, bind. intros Hc Hk s b s'. destruct (c s) as [[a s1]|] eqn:E; [|done].
      intros H. transitivity s1; [by eapply Hc | by eapply Hk].
    Qed.
Lemma moves_when b c : moves R c → moves R (when b c).
    Proof. destruct b; [done | intros; apply moves_ret]. Qed.
Lemma moves_ignore {A} (c : M S A) : moves R c → moves R (ignore c).
    Proof. intros. apply moves_bind; [done | intros; apply moves_ret]. Qed.
Lemma moves_for_each {X} (f : X → M S unit) l :
      (∀ x, moves R (f x)) → moves R (for_each f l).
    Proof.
      intros H. induction l; simpl; [apply moves_ret|].
      apply moves_bind; [done | by intros].
    Qed.
Lemma moves_fold_m {X A} (f : A → X → M S A) a l :
      (∀ a x, moves R (f a x)) → moves R (fold_m f a l).
    Proof.
      intros H. revert a. induction l; intros; simpl; [apply moves_ret|].
      apply moves_bind; [done | by intros].
    Qed.
  End Moves.
End MonadLemmas.

(** The lemmas that a computation moves along a relation, applied by
    [solve_moves]. *)
Create HintDb moves discriminated.
#[export] Hint Resolve moves_ret moves_crash moves_gets moves_assert moves_deref : moves.

Ltac moves_step :=
  match goal with
  | |- moves _ (bind _ _) => apply moves_bind; [try apply _| |intros ?]
  | |- moves _ (when _ _) => apply moves_when; [try apply _|]
  | |- moves _ (ignore _) => apply moves_ignore; [try apply _|]
  | |- moves _ (for_each _ _) => apply moves_for_each; [try apply _|intros ?]
  | |- moves _ (fold_m _ _ _) => apply moves_fold_m; [try apply _|intros ? ?]
  | |- moves _ (if ?b then _ else _) => destruct b
  | |- moves _ (match ?x with _ => _ end) => destruct x
  | |- moves _ (let '_ := ?x in _) => destruct x
  | |- moves _ _ => solve [eauto with moves typeclass_instances]
  end.
Ltac solve_moves := cbv zeta; repeat moves_step.

(** One step of a [wp] proof on the monad's own constructors. *)
Ltac wp_step :=
  match goal with
  | |- wp (bind _ _) _ _ => apply wp_bind
  | |- wp (ret _) _ _ => apply wp_ret
  | |- wp (gets _) _ _ => apply wp_gets
  | |- wp (modify _) _ _ => apply wp_modify
  | |- wp (ignore _) _ _ => apply wp_ignore
  | |- wp (when _ _) _ _ => apply wp_when; intros ?
  | |- wp (assert_se _) _ _ => apply wp_assert
  end.
Ltac wp_steps := repeat wp_step.

(** * Lists, options, machine integers *)

(** [LIST_REMOVE] on a list of distinct elements. *)
Definition list_remove_all {A} `{EqDecision A} (x : A) (l : list A) : list A :=
  filter (λ y, y ≠ x) l.

(** The first element that passes a test, as [LIST_FOREACH ... break] finds it. *)
Fixpoint find_first {A} (p : A → bool) (l : list A) : option A :=
  match l with
  | [] => None
  | x :: l' => if p x then Some x else find_first p l'
  end.

Definition is_some {A} (o : option A) : bool :=
  match o with Some _ => true | None => false end.

(** Unsigned 64-bit and 32-bit arithmetic. *)
Definition UINT64_MAX : Z := 2 ^ 64 - 1.
Definition UINT_MAX : Z := 2 ^ 32 - 1.
Definition u64 (z : Z) : Z := z mod 2 ^ 64.
Definition u32 (z : Z) : Z := z mod 2 ^ 32.

Section Lists.
  Context {A : Type} `{EqDecision A}.
  Implicit Types (x y : A) (l : list A).

Lemma elem_of_list_remove_all x y l : y ∈ list_remove_all x l ↔ y ∈ l ∧ y ≠ x.
  Proof. unfold list_remove_all. rewrite list_elem_of_filter. tauto. Qed.
Lemma NoDup_list_remove_all x l : NoDup l → NoDup (list_remove_all x l).
  Proof. apply NoDup_filter. Qed.
Lemma list_remove_all_id x l : x ∉ l → list_remove_all x l = l.
  Proof.
    intros H. unfold list_remove_all. induction l as [|y l IH]; [done|].
    rewrite filter_cons_True by (intros ->; apply H; left).
    f_equal. apply IH. intros ?. apply H. by right.
  Qed.
Lemma list_remove_all_cons x l : x ∉ l → list_remove_all x (x :: l) = l.
  Proof.
    intros H. unfold list_remove_all. rewrite filter_cons_False by tauto.
    by apply list_remove_all_id.
  Qed.
Lemma length_list_remove_all x l : (length (list_remove_all x l) ≤ length l)%nat.
  Proof. apply length_filter. Qed.

Lemma find_first_Some p l x :
    find_first p l = Some x → x ∈ l ∧ p x = true.
  Proof.
    induction l as [|y l IH]; simpl; [done|].
    destruct (p y) eqn:E; intros H.
    - simplify_eq. split; [left | done].
    - destruct (IH H). split; [by right | done].
  Qed.
Lemma find_first_None p l :
    find_first p l = None ↔ ∀ x, x ∈ l → p x = false.
  Proof.
    induction l as [|y l IH]; simpl.
    - split; [|done]. intros _ x H. by apply elem_of_nil in H.
    - destruct (p y) eqn:E.
      + split; [done|]. intros H. rewrite H in E; [done | left].
      + rewrite IH. split; intros H x; [|intros; apply H; by right].
        rewrite elem_of_cons. intros [->|]; auto.
  Qed.
End Lists.
