(* ===== verification/Time.v ===== *)
(** Time values ([src/src/basic/time-util.[ch]]): [usec_t] is an unsigned
    64-bit count of microseconds kept as a [Z] in [0, 2^64); USEC_INFINITY is
    the largest one. *)
From S2P Require Import Prelude.

Definition USEC_INFINITY : Z := UINT64_MAX.
Definition USEC_PER_SEC : Z := 1000000.
Definition USEC_PER_MINUTE : Z := 60 * USEC_PER_SEC.

(** The values of the C type. *)
Definition usec_range (t : Z) : Prop := 0 ≤ t ≤ USEC_INFINITY.

Record dual_timestamp := mkDualTimestamp { realtime : Z; monotonic : Z }.
#[export] Instance eta_dual_timestamp : Eta dual_timestamp :=
  fun t => mkDualTimestamp (realtime t) (monotonic t).
#[export] Instance dual_timestamp_eq_dec : EqDecision dual_timestamp.
Proof. solve_decision. Defined.

Definition DUAL_TIMESTAMP_NULL : dual_timestamp := mkDualTimestamp 0 0.

(** [saturate_add] (macro.h): the wrap-around of the C subtraction is not
    reached, because the first test has excluded [x > limit]. *)
Definition saturate_add (x y limit : Z) : Z :=
  if (limit <? x) || (limit - x <=? y) then limit else x + y.

Definition usec_add (a b : Z) : Z := saturate_add a b USEC_INFINITY.

Definition usec_sub_unsigned (timestamp delta : Z) : Z :=
  if timestamp =? USEC_INFINITY then USEC_INFINITY
  else if timestamp <? delta then 0 else timestamp - delta.

Definition timestamp_is_set (t : Z) : bool := (0 <? t) && negb (t =? USEC_INFINITY).
Definition dual_timestamp_is_set (ts : dual_timestamp) : bool :=
  timestamp_is_set (realtime ts) || timestamp_is_set (monotonic ts).

(** Every C operation is written with its unsigned wrap-around [u64]; the
    theorem below shows that none of them wraps. *)
Definition map_clock_usec_raw (from from_base to_base : Z) : Z :=
  if from_base <=? from then
    let delta := u64 (from - from_base) in
    if u64 (USEC_INFINITY - delta) <=? to_base then USEC_INFINITY
    else u64 (to_base + delta)
  else
    let delta := u64 (from_base - from) in
    if to_base <=? delta then 0 else u64 (to_base - delta).

(** CLOCK_REALTIME and CLOCK_MONOTONIC are different clocks, so the first test
    of [map_clock_usec] fails for the one pair the code uses. *)
Definition map_clock_usec (from now_from now_to : Z) : Z :=
  if from =? USEC_INFINITY then from else map_clock_usec_raw from now_from now_to.

Definition dual_timestamp_from_realtime (u now_realtime now_monotonic : Z) : dual_timestamp :=
  if negb (timestamp_is_set u) then mkDualTimestamp u u
  else mkDualTimestamp u (map_clock_usec u now_realtime now_monotonic).

(** ** Lemmas *)

Lemma u64_small z : 0 ≤ z < 2 ^ 64 → u64 z = z.
Proof. apply Z.mod_small. Qed.

Lemma usec_add_spec a b : usec_range a → usec_range b →
  usec_add a b = Z.min (a + b) USEC_INFINITY.
Proof.
  unfold usec_range, usec_add, saturate_add. intros.
  destruct (USEC_INFINITY <? a) eqn:E1, (USEC_INFINITY - a <=? b) eqn:E2; simpl; lia.
Qed.

Lemma usec_add_range a b : usec_range a → usec_range b → usec_range (usec_add a b).
Proof. intros Ha Hb. rewrite usec_add_spec by done. unfold usec_range in *. lia. Qed.

(** Mapping a time from one clock to another never overflows: on values of
    the C type the result is the exact shift by the two reference points,
    clamped to 0 below and to USEC_INFINITY above. *)
Theorem map_clock_usec_raw_exact (from from_base to_base : Z) :
  usec_range from → usec_range from_base → usec_range to_base →
  map_clock_usec_raw from from_base to_base
  = Z.max 0 (Z.min (from - from_base + to_base) USEC_INFINITY).
Proof.
  unfold usec_range, map_clock_usec_raw, USEC_INFINITY, UINT64_MAX. intros.
  destruct (from_base <=? from) eqn:E1.
  - rewrite (u64_small (from - from_base)) by lia. rewrite u64_small by lia.
    destruct (_ <=? to_base) eqn:E2; [lia|]. rewrite u64_small by lia. lia.
  - rewrite (u64_small (from_base - from)) by lia.
    destruct (to_base <=? _) eqn:E2; [lia|]. rewrite u64_small by lia. lia.
Qed.

Lemma map_clock_usec_raw_exact_witness :
  map_clock_usec_raw 10 50 1000 = Z.max 0 (Z.min (10 - 50 + 1000) USEC_INFINITY).
Proof.
  apply (map_clock_usec_raw_exact 10 50 1000); vm_compute; split; discriminate.
Defined.
