(* ===== verification/LoginTypes.v ===== *)
(** The enumerations of the login daemon, their string tables and the class
    predicates ([src/src/login/logind-session.h], [logind-user.h],
    [logind-session-device.h]), and the string-table lookup they share
    ([src/src/basic/string-table.[ch]]). *)
From Stdlib Require Import Ascii.
From S2P Require Import Prelude Time.

(** * String tables *)

(** A table indexed by an enumeration: its members in the order of the C enum,
    and the string in each slot ([None] is a NULL slot). *)
Class StringTable (A : Type) `{EqDecision A} := {
  members : list A;
  name_of : A → option string;
}.

Section StringTable.
  Context {A : Type} `{StringTable A}.

  (** DEFINE_STRING_TABLE_LOOKUP_TO_STRING: an index outside the table is not a
      value of the enumeration. *)
Definition to_string (i : A) : option string := name_of i.

  (** [string_table_lookup]: the first slot that equals the key; [None] is
      -EINVAL. *)
Definition string_table_lookup (key : option string) : option A :=
    match key with
    | None => None
    | Some k => find_first (λ i, bool_decide (name_of i = Some k)) members
    end.
Definition from_string (s : option string) : option A := string_table_lookup s.

  (** A table is sound when every member has a string and no two share one. *)
Definition table_ok : bool :=
    forallb (λ i, is_some (name_of i)) members
    && bool_decide (NoDup (name_of <$> members)).

Lemma string_table_lookup_sound k i :
    string_table_lookup (Some k) = Some i → i ∈ members ∧ to_string i = Some k.
  Proof.
    intros Hf. apply find_first_Some in Hf as [? Hb].
    by apply bool_decide_eq_true in Hb.
  Qed.

Lemma string_table_roundtrip i :
    table_ok = true → i ∈ members → from_string (to_string i) = Some i.
  Proof.
    unfold table_ok, from_string, string_table_lookup, to_string.
    intros [Hall Hnd%bool_decide_eq_true]%andb_prop Hi.
    rewrite forallb_forall in Hall.
    specialize (Hall i (proj1 (list_elem_of_In _ _) Hi)).
    destruct (name_of i) as [k|] eqn:Ek; [|done].
    destruct (find_first _ members) as [j|] eqn:Ej.
    - apply find_first_Some in Ej as [Hj Hk%bool_decide_eq_true]. f_equal.
      clear -Hnd Hi Hj Hk Ek. revert Hnd Hi Hj.
      induction members as [|x l IH]; intros Hnd Hi Hj; [by apply elem_of_nil in Hi|].
      cbn in Hnd. apply NoDup_cons in Hnd as [Hx Hnd].
      assert (Hin : ∀ y, name_of y = Some k → y ∈ l → Some k ∈ name_of <$> l)
        by (intros y <- ?; by apply list_elem_of_fmap_2).
      apply elem_of_cons in Hi as [->|Hi], Hj as [->|Hj]; eauto.
      + destruct Hx. rewrite Ek. eauto.
      + destruct Hx. rewrite Hk. eauto.
    - rewrite find_first_None in Ej. specialize (Ej i Hi).
      by rewrite bool_decide_true in Ej.
  Qed.
End StringTable.

(** * Sessions *)

Inductive SessionState :=
  SESSION_OPENING | SESSION_ONLINE | SESSION_ACTIVE | SESSION_CLOSING.
Inductive SessionClass :=
  SESSION_USER | SESSION_USER_EARLY | SESSION_USER_INCOMPLETE | SESSION_GREETER
| SESSION_LOCK_SCREEN | SESSION_BACKGROUND | SESSION_BACKGROUND_LIGHT
| SESSION_MANAGER | SESSION_MANAGER_EARLY.
Inductive SessionType :=
  SESSION_UNSPECIFIED | SESSION_TTY | SESSION_X11 | SESSION_WAYLAND | SESSION_MIR
| SESSION_WEB.
Inductive KillWhom := KILL_LEADER | KILL_ALL.
Inductive TTYValidity := TTY_FROM_PAM | TTY_FROM_UTMP | TTY_UTMP_INCONSISTENT.

#[export] Instance SessionState_eq_dec : EqDecision SessionState.
Proof. solve_decision. Defined.
#[export] Instance SessionClass_eq_dec : EqDecision SessionClass.
Proof. solve_decision. Defined.
#[export] Instance SessionType_eq_dec : EqDecision SessionType.
Proof. solve_decision. Defined.
#[export] Instance KillWhom_eq_dec : EqDecision KillWhom.
Proof. solve_decision. Defined.
#[export] Instance TTYValidity_eq_dec : EqDecision TTYValidity.
Proof. solve_decision. Defined.

#[export] Instance session_state_table : StringTable SessionState := {
  members := [SESSION_OPENING; SESSION_ONLINE; SESSION_ACTIVE; SESSION_CLOSING];
  name_of s := Some match s with
    | SESSION_OPENING => "opening"
    | SESSION_ONLINE => "online"
    | SESSION_ACTIVE => "active"
    | SESSION_CLOSING => "closing"
    end%string }.

#[export] Instance session_type_table : StringTable SessionType := {
  members := [SESSION_UNSPECIFIED; SESSION_TTY; SESSION_X11; SESSION_WAYLAND;
              SESSION_MIR; SESSION_WEB];
  name_of s := Some match s with
    | SESSION_UNSPECIFIED => "unspecified"
    | SESSION_TTY => "tty"
    | SESSION_X11 => "x11"
    | SESSION_WAYLAND => "wayland"
    | SESSION_MIR => "mir"
    | SESSION_WEB => "web"
    end%string }.

#[export] Instance session_class_table : StringTable SessionClass := {
  members := [SESSION_USER; SESSION_USER_EARLY; SESSION_USER_INCOMPLETE;
              SESSION_GREETER; SESSION_LOCK_SCREEN; SESSION_BACKGROUND;
              SESSION_BACKGROUND_LIGHT; SESSION_MANAGER; SESSION_MANAGER_EARLY];
  name_of c := Some match c with
    | SESSION_USER => "user"
    | SESSION_USER_EARLY => "user-early"
    | SESSION_USER_INCOMPLETE => "user-incomplete"
    | SESSION_GREETER => "greeter"
    | SESSION_LOCK_SCREEN => "lock-screen"
    | SESSION_BACKGROUND => "background"
    | SESSION_BACKGROUND_LIGHT => "background-light"
    | SESSION_MANAGER => "manager"
    | SESSION_MANAGER_EARLY => "manager-early"
    end%string }.

#[export] Instance kill_whom_table : StringTable KillWhom := {
  members := [KILL_LEADER; KILL_ALL];
  name_of k := Some match k with
    | KILL_LEADER => "leader"
    | KILL_ALL => "all"
    end%string }.

#[export] Instance tty_validity_table : StringTable TTYValidity := {
  members := [TTY_FROM_PAM; TTY_FROM_UTMP; TTY_UTMP_INCONSISTENT];
  name_of v := Some match v with
    | TTY_FROM_PAM => "from-pam"
    | TTY_FROM_UTMP => "from-utmp"
    | TTY_UTMP_INCONSISTENT => "utmp-inconsistent"
    end%string }.

(** ** The class and type predicates of logind-session.h *)

Definition in_set {A} `{EqDecision A} (x : A) (l : list A) : bool := bool_decide (x ∈ l).

Definition SESSION_CLASS_WANTS_SCOPE (c : SessionClass) : bool :=
  in_set c [SESSION_USER; SESSION_USER_EARLY; SESSION_USER_INCOMPLETE; SESSION_GREETER;
            SESSION_LOCK_SCREEN; SESSION_BACKGROUND; SESSION_BACKGROUND_LIGHT].
Definition SESSION_CLASS_WANTS_SERVICE_MANAGER (c : SessionClass) : bool :=
  in_set c [SESSION_USER; SESSION_USER_EARLY; SESSION_GREETER; SESSION_LOCK_SCREEN;
            SESSION_BACKGROUND].
Definition SESSION_CLASS_PIN_USER (c : SessionClass) : bool :=
  negb (in_set c [SESSION_MANAGER; SESSION_MANAGER_EARLY]).
Definition SESSION_CLASS_CAN_IDLE (c : SessionClass) : bool :=
  in_set c [SESSION_USER; SESSION_USER_EARLY; SESSION_GREETER].
Definition SESSION_CLASS_CAN_LOCK (c : SessionClass) : bool :=
  in_set c [SESSION_USER; SESSION_USER_EARLY].
Definition SESSION_CLASS_CAN_DISPLAY (c : SessionClass) : bool :=
  in_set c [SESSION_USER; SESSION_USER_EARLY; SESSION_GREETER].
Definition SESSION_CLASS_CAN_STOP_ON_IDLE (c : SessionClass) : bool :=
  in_set c [SESSION_USER; SESSION_USER_EARLY].
Definition SESSION_CLASS_CAN_TAKE_DEVICE (c : SessionClass) : bool :=
  in_set c [SESSION_USER; SESSION_USER_EARLY; SESSION_GREETER; SESSION_LOCK_SCREEN].
Definition SESSION_CLASS_CAN_CHANGE_TYPE (c : SessionClass) : bool :=
  in_set c [SESSION_USER; SESSION_USER_EARLY; SESSION_GREETER; SESSION_LOCK_SCREEN].
Definition SESSION_TYPE_IS_GRAPHICAL (t : SessionType) : bool :=
  in_set t [SESSION_X11; SESSION_WAYLAND; SESSION_MIR].

(** * Users *)

Inductive UserState :=
  USER_OFFLINE | USER_OPENING | USER_LINGERING | USER_ONLINE | USER_ACTIVE | USER_CLOSING.
Inductive UserGCMode := USER_GC_BY_ANY | USER_GC_BY_PIN.

#[export] Instance UserState_eq_dec : EqDecision UserState.
Proof. solve_decision. Defined.
#[export] Instance UserGCMode_eq_dec : EqDecision UserGCMode.
Proof. solve_decision. Defined.

#[export] Instance user_state_table : StringTable UserState := {
  members := [USER_OFFLINE; USER_OPENING; USER_LINGERING; USER_ONLINE; USER_ACTIVE;
              USER_CLOSING];
  name_of s := Some match s with
    | USER_OFFLINE => "offline"
    | USER_OPENING => "opening"
    | USER_LINGERING => "lingering"
    | USER_ONLINE => "online"
    | USER_ACTIVE => "active"
    | USER_CLOSING => "closing"
    end%string }.
#[export] Instance user_gc_mode_table : StringTable UserGCMode := {
  members := [USER_GC_BY_ANY; USER_GC_BY_PIN];
  name_of m := Some match m with
    | USER_GC_BY_PIN => "pin"
    | USER_GC_BY_ANY => "any"
    end%string }.

(** * Devices *)

Inductive DeviceType :=
  DEVICE_TYPE_UNKNOWN | DEVICE_TYPE_DRM | DEVICE_TYPE_EVDEV | DEVICE_TYPE_HIDRAW.
#[export] Instance DeviceType_eq_dec : EqDecision DeviceType.
Proof. solve_decision. Defined.

(** [enum SessionDeviceNotifications]. *)
Inductive SessionDeviceNotification :=
  SESSION_DEVICE_RESUME | SESSION_DEVICE_TRY_PAUSE | SESSION_DEVICE_PAUSE
| SESSION_DEVICE_RELEASE.
#[export] Instance SessionDeviceNotification_eq_dec : EqDecision SessionDeviceNotification.
Proof. solve_decision. Defined.

(** * Names *)

Definition ascii_in (lo hi c : ascii) : bool :=
  (nat_of_ascii lo <=? nat_of_ascii c)%nat && (nat_of_ascii c <=? nat_of_ascii hi)%nat.
Definition ascii_isalpha (c : ascii) : bool :=
  ascii_in "a" "z" c || ascii_in "A" "Z" c.
Definition ascii_isdigit (c : ascii) : bool := ascii_in "0" "9" c.

Fixpoint string_forallb (p : ascii → bool) (s : string) : bool :=
  match s with
  | EmptyString => true
  | String c s' => p c && string_forallb p s'
  end.

(** [startswith]: the rest of the string after the prefix, or NULL. *)
Fixpoint startswith (s prefix : string) : option string :=
  match prefix, s with
  | EmptyString, _ => Some s
  | String p prefix', String c s' =>
      if ascii_dec p c then startswith s' prefix' else None
  | String _ _, EmptyString => None
  end.

(** [session_id_valid] (login-util.c): LETTERS and DIGITS only, not empty. *)
Definition session_id_valid (id : string) : bool :=
  match id with
  | EmptyString => false
  | _ => string_forallb (λ c, ascii_isalpha c || ascii_isdigit c) id
  end.

Definition seat_name_valid_char (c : ascii) : bool :=
  ascii_isalpha c || ascii_isdigit c || in_set c ["-"%char; "_"%char].

Definition seat_name_is_valid (name : string) : bool :=
  match startswith name "seat" with
  | None => false
  | Some EmptyString => false
  | Some _ =>
      string_forallb seat_name_valid_char name
      && (String.length name <=? 255)%nat
  end.

(** [uid_is_valid] (user-util.c): neither the 32-bit nor the 16-bit -1. *)
Definition uid_is_valid (uid : Z) : bool :=
  negb (uid =? 0xFFFFFFFF) && negb (uid =? 0xFFFF).
Definition UID_INVALID : Z := 0xFFFFFFFF.
