(* ===== verification/ActionTypes.v ===== *)
(** The power actions and the inhibitor masks as data
    ([src/src/login/logind-action.[ch]], [logind-inhibit.h],
    [src/src/shared/sleep-config.[ch]]). *)
From S2P Require Import Prelude LoginTypes.

(** * HandleAction, in the order of the C enum *)

Inductive HandleAction :=
| HANDLE_IGNORE
| HANDLE_POWEROFF | HANDLE_REBOOT | HANDLE_HALT | HANDLE_KEXEC
| HANDLE_SUSPEND | HANDLE_HIBERNATE | HANDLE_HYBRID_SLEEP
| HANDLE_SUSPEND_THEN_HIBERNATE | HANDLE_SLEEP
| HANDLE_SECURE_ATTENTION_KEY | HANDLE_LOCK | HANDLE_FACTORY_RESET.
#[export] Instance HandleAction_eq_dec : EqDecision HandleAction.
Proof. solve_decision. Defined.

(** The numeric value of an enumerator: masks are [1U << action]. *)
Definition handle_action_index (a : HandleAction) : Z :=
  match a with
  | HANDLE_IGNORE => 0 | HANDLE_POWEROFF => 1 | HANDLE_REBOOT => 2 | HANDLE_HALT => 3
  | HANDLE_KEXEC => 4 | HANDLE_SUSPEND => 5 | HANDLE_HIBERNATE => 6
  | HANDLE_HYBRID_SLEEP => 7 | HANDLE_SUSPEND_THEN_HIBERNATE => 8 | HANDLE_SLEEP => 9
  | HANDLE_SECURE_ATTENTION_KEY => 10 | HANDLE_LOCK => 11 | HANDLE_FACTORY_RESET => 12
  end.

Definition HANDLE_ACTION_IS_SHUTDOWN (a : HandleAction) : bool :=
  (handle_action_index HANDLE_POWEROFF <=? handle_action_index a)
  && (handle_action_index a <=? handle_action_index HANDLE_KEXEC).
Definition HANDLE_ACTION_IS_SLEEP (a : HandleAction) : bool :=
  (handle_action_index HANDLE_SUSPEND <=? handle_action_index a)
  && (handle_action_index a <=? handle_action_index HANDLE_SLEEP).

(** The actions that can be executed. *)
Definition executable (a : HandleAction) : bool :=
  HANDLE_ACTION_IS_SHUTDOWN a || (HANDLE_ACTION_IS_SLEEP a && negb (bool_decide (a = HANDLE_SLEEP))).

#[export] Instance handle_action_table : StringTable HandleAction := {
  members := [HANDLE_IGNORE; HANDLE_POWEROFF; HANDLE_REBOOT; HANDLE_HALT; HANDLE_KEXEC;
              HANDLE_SUSPEND; HANDLE_HIBERNATE; HANDLE_HYBRID_SLEEP;
              HANDLE_SUSPEND_THEN_HIBERNATE; HANDLE_SLEEP; HANDLE_SECURE_ATTENTION_KEY;
              HANDLE_LOCK; HANDLE_FACTORY_RESET];
  name_of a := Some match a with
    | HANDLE_IGNORE => "ignore"
    | HANDLE_POWEROFF => "poweroff"
    | HANDLE_REBOOT => "reboot"
    | HANDLE_HALT => "halt"
    | HANDLE_KEXEC => "kexec"
    | HANDLE_SUSPEND => "suspend"
    | HANDLE_HIBERNATE => "hibernate"
    | HANDLE_HYBRID_SLEEP => "hybrid-sleep"
    | HANDLE_SUSPEND_THEN_HIBERNATE => "suspend-then-hibernate"
    | HANDLE_SLEEP => "sleep"
    | HANDLE_FACTORY_RESET => "factory-reset"
    | HANDLE_LOCK => "lock"
    | HANDLE_SECURE_ATTENTION_KEY => "secure-attention-key"
    end%string }.

Definition handle_action_verb_to_string (a : HandleAction) : string :=
  match a with
  | HANDLE_IGNORE => "do nothing"
  | HANDLE_POWEROFF => "power off"
  | HANDLE_REBOOT => "reboot"
  | HANDLE_HALT => "halt"
  | HANDLE_KEXEC => "kexec"
  | HANDLE_SUSPEND => "suspend"
  | HANDLE_HIBERNATE => "hibernate"
  | HANDLE_HYBRID_SLEEP => "hybrid sleep"
  | HANDLE_SUSPEND_THEN_HIBERNATE => "suspend and later hibernate"
  | HANDLE_SLEEP => "sleep"
  | HANDLE_FACTORY_RESET => "perform a factory reset"
  | HANDLE_LOCK => "be locked"
  | HANDLE_SECURE_ATTENTION_KEY => "handle the secure attention key"
  end%string.

(** * Sleep operations *)

Inductive SleepOperation :=
  SLEEP_SUSPEND | SLEEP_HIBERNATE | SLEEP_HYBRID_SLEEP | SLEEP_SUSPEND_THEN_HIBERNATE.
#[export] Instance SleepOperation_eq_dec : EqDecision SleepOperation.
Proof. solve_decision. Defined.
#[export] Instance sleep_operation_table : StringTable SleepOperation := {
  members := [SLEEP_SUSPEND; SLEEP_HIBERNATE; SLEEP_HYBRID_SLEEP;
              SLEEP_SUSPEND_THEN_HIBERNATE];
  name_of o := Some match o with
    | SLEEP_SUSPEND => "suspend"
    | SLEEP_HIBERNATE => "hibernate"
    | SLEEP_HYBRID_SLEEP => "hybrid-sleep"
    | SLEEP_SUSPEND_THEN_HIBERNATE => "suspend-then-hibernate"
    end%string }.

(** * InhibitWhat: a bit mask *)

Definition INHIBIT_SHUTDOWN : Z := Z.shiftl 1 0.
Definition INHIBIT_SLEEP : Z := Z.shiftl 1 1.
Definition INHIBIT_IDLE : Z := Z.shiftl 1 2.
Definition INHIBIT_HANDLE_POWER_KEY : Z := Z.shiftl 1 3.
Definition INHIBIT_HANDLE_SUSPEND_KEY : Z := Z.shiftl 1 4.
Definition INHIBIT_HANDLE_HIBERNATE_KEY : Z := Z.shiftl 1 5.
Definition INHIBIT_HANDLE_LID_SWITCH : Z := Z.shiftl 1 6.
Definition INHIBIT_HANDLE_REBOOT_KEY : Z := Z.shiftl 1 7.
Definition _INHIBIT_WHAT_MAX : Z := Z.shiftl 1 8.
Definition _INHIBIT_WHAT_INVALID : Z := - EINVAL.

Definition inhibit_what_is_valid (w : Z) : bool := (0 <? w) && (w <? _INHIBIT_WHAT_MAX).

Inductive InhibitMode := INHIBIT_BLOCK | INHIBIT_BLOCK_WEAK | INHIBIT_DELAY.
#[export] Instance InhibitMode_eq_dec : EqDecision InhibitMode.
Proof. solve_decision. Defined.
#[export] Instance inhibit_mode_table : StringTable InhibitMode := {
  members := [INHIBIT_BLOCK; INHIBIT_BLOCK_WEAK; INHIBIT_DELAY];
  name_of m := Some match m with
    | INHIBIT_BLOCK => "block"
    | INHIBIT_BLOCK_WEAK => "block-weak"
    | INHIBIT_DELAY => "delay"
    end%string }.
Definition inhibit_mode_index (m : InhibitMode) : Z :=
  match m with INHIBIT_BLOCK => 0 | INHIBIT_BLOCK_WEAK => 1 | INHIBIT_DELAY => 2 end.

(** * [handle_action_data_table] *)

(** The columns the daemon computes with; the texts for the log and the polkit
    action names are kept where another column depends on them. *)
Record HandleActionData := mkHandleActionData {
  hd_handle : HandleAction;
  hd_target : option string;
  hd_inhibit_what : Z;
  hd_polkit_action : option string;
  hd_polkit_action_multiple_sessions : option string;
  hd_polkit_action_ignore_inhibit : option string;
  hd_sleep_operation : option SleepOperation; (* None: _SLEEP_OPERATION_INVALID *)
  hd_message : option string;
  hd_log_verb : option string;
}.

Definition polkit_row (verb : string) : option string * option string * option string :=
  (Some ("org.freedesktop.login1." ++ verb),
   Some ("org.freedesktop.login1." ++ verb ++ "-multiple-sessions"),
   Some ("org.freedesktop.login1." ++ verb ++ "-ignore-inhibit"))%string.

Definition shutdown_row (h : HandleAction) (target verb message log_verb : string) :=
  let '(p1, p2, p3) := polkit_row verb in
  mkHandleActionData h (Some target) INHIBIT_SHUTDOWN p1 p2 p3 None (Some message)
    (Some log_verb).
Definition sleep_row (h : HandleAction) (target verb : string) (op : SleepOperation) :=
  let '(p1, p2, p3) := polkit_row verb in
  mkHandleActionData h (Some target) INHIBIT_SLEEP p1 p2 p3 (Some op) None None.

(** The enumerators without an initialiser have the zero row. *)
Definition handle_action_data_table (a : HandleAction) : HandleActionData :=
  match a with
  | HANDLE_POWEROFF => shutdown_row HANDLE_POWEROFF "poweroff.target" "power-off"
      "System is powering down" "power-off"
  | HANDLE_REBOOT => shutdown_row HANDLE_REBOOT "reboot.target" "reboot"
      "System is rebooting" "reboot"
  | HANDLE_HALT => shutdown_row HANDLE_HALT "halt.target" "halt"
      "System is halting" "halt"
  | HANDLE_KEXEC => shutdown_row HANDLE_KEXEC "kexec.target" "reboot"
      "System is rebooting with kexec" "kexec"
  | HANDLE_SUSPEND => sleep_row HANDLE_SUSPEND "suspend.target" "suspend" SLEEP_SUSPEND
  | HANDLE_HIBERNATE =>
      sleep_row HANDLE_HIBERNATE "hibernate.target" "hibernate" SLEEP_HIBERNATE
  | HANDLE_HYBRID_SLEEP =>
      sleep_row HANDLE_HYBRID_SLEEP "hybrid-sleep.target" "hibernate" SLEEP_HYBRID_SLEEP
  | HANDLE_SUSPEND_THEN_HIBERNATE =>
      sleep_row HANDLE_SUSPEND_THEN_HIBERNATE "suspend-then-hibernate.target" "hibernate"
        SLEEP_SUSPEND_THEN_HIBERNATE
  | HANDLE_FACTORY_RESET =>
      mkHandleActionData HANDLE_FACTORY_RESET (Some "factory-reset.target"%string)
        _INHIBIT_WHAT_INVALID None None None None
        (Some "System is performing factory reset"%string) None
  | HANDLE_IGNORE | HANDLE_SLEEP | HANDLE_SECURE_ATTENTION_KEY | HANDLE_LOCK =>
      mkHandleActionData HANDLE_IGNORE None 0 None None None (Some SLEEP_SUSPEND) None None
  end.

(** The table has a row for every valid action, so the lookup of a value of the
    enumeration never returns NULL. *)
Definition handle_action_lookup (a : HandleAction) : HandleActionData :=
  handle_action_data_table a.
