(* ===== verification/Escape.v ===== *)
(** C-style escaping of strings, as the state files hold them
    ([src/src/basic/escape.c], [hexdecoct.c], [utf8.c]).  Characters are bytes
    ([ascii]); codes and code points are [Z]. *)
From Stdlib Require Import Ascii.
From S2P Require Import Prelude LoginTypes.
Open Scope string_scope.
Open Scope Z_scope.

Definition code (c : ascii) : Z := Z.of_N (N_of_ascii c).
(** Storing an integer in a [char]: its low eight bits. *)
Definition char_of (z : Z) : ascii := ascii_of_N (Z.to_N (Z.land z 255)).
Definition char1 (c : ascii) : string := String c EmptyString.

(** ** hexdecoct.c *)

Definition octchar (x : Z) : ascii := char_of (code "0" + Z.land x 7).
Definition unoctchar (c : ascii) : Z :=
  if (code "0" <=? code c) && (code c <=? code "7") then code c - code "0" else - EINVAL.
Definition hexchar (x : Z) : ascii :=
  match String.get (Z.to_nat (Z.land x 15)) "0123456789abcdef" with
  | Some c => c
  | None => zero
  end.
Definition unhexchar (c : ascii) : Z :=
  if (code "0" <=? code c) && (code c <=? code "9") then code c - code "0"
  else if (code "a" <=? code c) && (code c <=? code "f") then code c - code "a" + 10
  else if (code "A" <=? code c) && (code c <=? code "F") then code c - code "A" + 10
  else - EINVAL.

(** ** utf8.c *)

Definition utf8_encode_unichar (g : Z) : string :=
  if g <? Z.shiftl 1 7 then char1 (char_of (Z.land g 0x7f))
  else if g <? Z.shiftl 1 11 then
    String (char_of (Z.lor 0xc0 (Z.land (Z.shiftr g 6) 0x1f)))
      (char1 (char_of (Z.lor 0x80 (Z.land g 0x3f))))
  else if g <? Z.shiftl 1 16 then
    String (char_of (Z.lor 0xe0 (Z.land (Z.shiftr g 12) 0x0f)))
      (String (char_of (Z.lor 0x80 (Z.land (Z.shiftr g 6) 0x3f)))
        (char1 (char_of (Z.lor 0x80 (Z.land g 0x3f)))))
  else if g <? Z.shiftl 1 21 then
    String (char_of (Z.lor 0xf0 (Z.land (Z.shiftr g 18) 0x07)))
      (String (char_of (Z.lor 0x80 (Z.land (Z.shiftr g 12) 0x3f)))
        (String (char_of (Z.lor 0x80 (Z.land (Z.shiftr g 6) 0x3f)))
          (char1 (char_of (Z.lor 0x80 (Z.land g 0x3f))))))
  else EmptyString.

Definition unichar_is_valid (ch : Z) : bool :=
  if 0x110000 <=? ch then false
  else if Z.land ch 0xFFFFF800 =? 0xD800 then false
  else if (0xFDD0 <=? ch) && (ch <=? 0xFDEF) then false
  else if Z.land ch 0xFFFE =? 0xFFFE then false
  else true.

(** ** escape.c: escaping *)

Definition backslash : ascii := "\".
Definition dquote : ascii := ascii_of_nat 34.
Definition squote : ascii := ascii_of_nat 39.

(** The letter that stands for a character with an escape of its own. *)
Definition escape_letter (c : ascii) : option ascii :=
  let z := code c in
  if z =? 7 then Some "a"%char
  else if z =? 8 then Some "b"%char
  else if z =? 12 then Some "f"%char
  else if z =? 10 then Some "n"%char
  else if z =? 13 then Some "r"%char
  else if z =? 9 then Some "t"%char
  else if z =? 11 then Some "v"%char
  else if z =? code backslash then Some backslash
  else if z =? code dquote then Some dquote
  else if z =? code squote then Some squote
  else None.

Definition cescape_char (c : ascii) : string :=
  match escape_letter c with
  | Some l => String backslash (char1 l)
  | None =>
      if (code c <? 32) || (127 <=? code c) then
        String backslash
          (String (octchar (Z.shiftr (code c) 6))
            (String (octchar (Z.shiftr (code c) 3)) (char1 (octchar (code c)))))
      else char1 c
  end.

Fixpoint cescape (s : string) : string :=
  match s with
  | EmptyString => EmptyString
  | String c s' => cescape_char c +:+ cescape s'
  end.

(** ** escape.c: unescaping *)

(** The values of [n] hexadecimal digits from position [i]; the first bad digit
    is an error, and so is the end of the string (its NUL is no digit). *)
Fixpoint unhex_n (n : nat) (acc : Z) (p : string) : option Z :=
  match n with
  | O => Some acc
  | S n' =>
      match p with
      | EmptyString => None
      | String c p' =>
          if unhexchar c <? 0 then None else unhex_n n' (Z.lor (Z.shiftl acc 4) (unhexchar c)) p'
      end
  end.

Definition oct_digit (p : string) (i : nat) : Z :=
  match String.get i p with Some c => unoctchar c | None => - EINVAL end.

(** [cunescape_one p]: the code, whether it is one byte to copy as it is, and
    the characters of [p] it used; [None] is -EINVAL. *)
Definition cunescape_one (p : string) (accept_nul : bool) : option (Z * bool * nat) :=
  match p with
  | EmptyString => None
  | String c p' =>
      let one z := Some (z, false, 1%nat) in
      if ascii_dec c "a" then one 7
      else if ascii_dec c "b" then one 8
      else if ascii_dec c "f" then one 12
      else if ascii_dec c "n" then one 10
      else if ascii_dec c "r" then one 13
      else if ascii_dec c "t" then one 9
      else if ascii_dec c "v" then one 11
      else if ascii_dec c backslash then one (code backslash)
      else if ascii_dec c dquote then one (code dquote)
      else if ascii_dec c squote then one (code squote)
      else if ascii_dec c "s" then one 32
      else if ascii_dec c "x" then
        match unhex_n 2 0 p' with
        | None => None
        | Some m => if (m =? 0) && negb accept_nul then None else Some (m, true, 3%nat)
        end
      else if ascii_dec c "u" then
        match unhex_n 4 0 p' with
        | None => None
        | Some m => if (m =? 0) && negb accept_nul then None else Some (m, false, 5%nat)
        end
      else if ascii_dec c "U" then
        match unhex_n 8 0 p' with
        | None => None
        | Some m =>
            if (m =? 0) && negb accept_nul then None
            else if negb (unichar_is_valid m) then None
            else Some (m, false, 9%nat)
        end
      else if (code "0" <=? code c) && (code c <=? code "7") then
        let a := unoctchar c in
        let b := oct_digit p' 0 in
        let d := oct_digit p' 1 in
        if (a <? 0) || (b <? 0) || (d <? 0) then None
        else if (a =? 0) && (b =? 0) && (d =? 0) && negb accept_nul then None
        else
          let m := Z.lor (Z.lor (Z.shiftl a 6) (Z.shiftl b 3)) d in
          if 255 <? m then None else Some (m, true, 3%nat)
      else None
  end.

(** [f += r]: the rest of the string after [n] characters. *)
Fixpoint drop_chars (n : nat) (s : string) : string :=
  match n, s with
  | O, _ => s
  | S n', String _ s' => drop_chars n' s'
  | S _, EmptyString => EmptyString
  end.

(** [cunescape_length_with_prefix] without a prefix; [fuel] bounds the
    iterations of the loop over the input, [Some (inl e)] is the error [e]. *)
Fixpoint cunescape_loop (fuel : nat) (relax accept_nul : bool) (f : string)
  : option (Z + string) :=
  match fuel with
  | O => None
  | S fuel' =>
      let emit out rest :=
        match cunescape_loop fuel' relax accept_nul rest with
        | Some (inr t) => Some (inr (out +:+ t))
        | r => r
        end in
      match f with
      | EmptyString => Some (inr EmptyString)
      | String c f' =>
          if negb (bool_decide (c = backslash)) then emit (char1 c) f'
          else match f' with
          | EmptyString =>
              if relax then emit (char1 c) f' else Some (inl (- EINVAL))
          | String _ _ =>
              match cunescape_one f' accept_nul with
              | None => if relax then emit (char1 backslash) f' else Some (inl (- EINVAL))
              | Some (u, eight_bit, r) =>
                  emit (if (eight_bit : bool) then char1 (char_of u) else utf8_encode_unichar u)
                    (drop_chars r f')
              end
          end
      end
  end.

Definition cunescape (s : string) (relax accept_nul : bool) : option (Z + string) :=
  cunescape_loop (S (String.length s)) relax accept_nul s.

(** * Properties *)

(** No byte of a C string is NUL. *)
Definition c_string (s : string) : Prop := string_forallb (λ c, negb (code c =? 0)) s = true.

Lemma string_app_cons c (a b : string) : String c a +:+ b = String c (a +:+ b).
Proof. done. Qed.
Lemma string_app_assoc (a b c : string) : (a +:+ b) +:+ c = a +:+ b +:+ c.
Proof. induction a as [|x a IH]; [done|]. by rewrite !string_app_cons, IH. Qed.
Lemma string_length_app (a b : string) :
  String.length (a +:+ b) = (String.length a + String.length b)%nat.
Proof. induction a as [|x a IH]; [done|]. rewrite string_app_cons. cbn. by rewrite IH. Qed.
Lemma length_drop_chars n s : (String.length (drop_chars n s) ≤ String.length s)%nat.
Proof. revert s. induction n; intros [|c s]; cbn; [lia..|]. specialize (IHn s). lia. Qed.

(** More fuel than the input is long never runs out. *)
Lemma cunescape_loop_total fuel relax nul s :
  (String.length s < fuel)%nat → is_Some (cunescape_loop fuel relax nul s).
Proof.
  revert s. induction fuel as [|fuel IH]; intros s Hl; [lia|].
  destruct s as [|c f']; cbn; [by eexists|]. cbn in Hl.
  assert (Hemit : ∀ out rest, (String.length rest ≤ String.length f')%nat →
    is_Some match cunescape_loop fuel relax nul rest with
            | Some (inr t) => Some (inr (out +:+ t)) | r => r end).
  { intros out rest Hr. destruct (IH rest) as [[e|t] ->]; [lia | by eexists..]. }
  case_bool_decide; cbn; [|auto].
  destruct f' as [|d f'']; [destruct relax; [auto | by eexists]|].
  destruct (cunescape_one _ _) as [[[u eb] r]|].
  - apply Hemit, length_drop_chars.
  - destruct relax; [auto | by eexists].
Qed.

(** One escaped character is read back by one iteration of the loop. *)
Lemma cescape_char_step fuel relax nul c rest :
  code c ≠ 0 →
  cunescape_loop (S fuel) relax nul (cescape_char c +:+ rest) =
  match cunescape_loop fuel relax nul rest with
  | Some (inr t) => Some (inr (String c t))
  | r => r
  end.
Proof.
  intros Hc.
  destruct c as [[] [] [] [] [] [] [] []]; try reflexivity; by destruct Hc.
Qed.

Lemma length_cescape s : (String.length s ≤ String.length (cescape s))%nat.
Proof.
  induction s as [|c s IH]; cbn; [done|]. rewrite string_length_app.
  assert (1 ≤ String.length (cescape_char c))%nat; [|lia].
  unfold cescape_char. destruct (escape_letter c); cbn; [lia|].
  destruct (_ || _); cbn; lia.
Qed.

Lemma cunescape_loop_cescape fuel relax nul s :
  c_string s → (String.length s < fuel)%nat →
  cunescape_loop fuel relax nul (cescape s) = Some (inr s).
Proof.
  revert fuel. induction s as [|c s IH]; intros [|fuel] Hs Hl; cbn [String.length] in *;
    try lia; [done|].
  apply andb_prop in Hs as [Hc Hs]. cbn [cescape].
  rewrite cescape_char_step by (intros E; rewrite E in Hc; done).
  rewrite IH; [done | done | lia].
Qed.

(** Unescaping what [cescape] wrote gives the string back, for every C
    string and in every mode of the decoder. *)
Theorem cescape_roundtrip (s : string) (relax accept_nul : bool) :
  c_string s → cunescape (cescape s) relax accept_nul = Some (inr s).
Proof.
  intros Hs. unfold cunescape. apply cunescape_loop_cescape; [done|].
  pose proof (length_cescape s). lia.
Qed.

Lemma cescape_roundtrip_witness :
  cunescape (cescape "tab	quote'\end") false false = Some (inr "tab	quote'\end").
Proof. apply (cescape_roundtrip "tab	quote'\end" false false). reflexivity. Defined.

(** What [cescape] writes is printable ASCII. *)
Definition printable (c : ascii) : bool := (32 <=? code c) && (code c <? 127).

Lemma string_forallb_app p (a b : string) :
  string_forallb p (a +:+ b) = string_forallb p a && string_forallb p b.
Proof.
  induction a as [|x a IH]; [done|]. rewrite string_app_cons. cbn.
  by rewrite IH, andb_assoc.
Qed.

Lemma cescape_printable s : string_forallb printable (cescape s) = true.
Proof.
  induction s as [|c s IH]; cbn; [done|]. rewrite string_forallb_app, IH, andb_true_r.
  destruct c as [[] [] [] [] [] [] [] []]; reflexivity.
Qed.
