(* ===== verification/Parse.v ===== *)
(** Parsing integers, paths and terminal names
    ([src/src/basic/parse-util.c], [path-util.c], [terminal-util.c],
    [user-util.c]), and the round trips with the decimal printing the daemon
    uses for its state files and object names.  [strto] is the conversion of
    the C library's strtol() and strtoul(). *)
From Stdlib Require Import Ascii.
From stdpp Require Import pretty.
From S2P Require Import Prelude Time LoginTypes Escape.

(** * The C library *)

Definition WHITESPACE : list ascii := [" "%char; ascii_of_nat 9; ascii_of_nat 10; ascii_of_nat 13].
(** What isspace() accepts besides. *)
Definition isspace (c : ascii) : bool :=
  in_set c WHITESPACE || in_set c [ascii_of_nat 11; ascii_of_nat 12].

Fixpoint skip_while (p : ascii → bool) (s : string) : string :=
  match s with
  | String c s' => if p c then skip_while p s' else s
  | EmptyString => EmptyString
  end.

(** The value of a digit in the bases up to 16; 99 for no digit. *)
Definition digit_value (c : ascii) : Z :=
  if ascii_isdigit c then code c - code "0"
  else if ascii_in "a" "f" c then code c - code "a" + 10
  else if ascii_in "A" "F" c then code c - code "A" + 10
  else 99.

(** The digits at the head of a string: their value and what follows. *)
Fixpoint scan (base acc : Z) (s : string) : Z * string :=
  match s with
  | String c s' => if digit_value c <? base then scan base (acc * base + digit_value c) s' else (acc, s)
  | EmptyString => (acc, s)
  end.

Definition head_is (p : ascii → bool) (s : string) : bool :=
  match s with String c _ => p c | EmptyString => false end.

(** The prefix "0x", where a hexadecimal digit follows. *)
Definition hex_prefix (s : string) : option string :=
  match s with
  | String "0" (String x t) =>
      if in_set x ["x"%char; "X"%char] && head_is (λ c, digit_value c <? 16) t then Some t else None
  | _ => None
  end.

(** Sign, magnitude and rest; [None] when there is no number at all. *)
Definition strto (base : Z) (s : string) : option (bool * Z * string) :=
  let s := skip_while isspace s in
  let '(neg, s) := match s with
                   | String "-" t => (true, t)
                   | String "+" t => (false, t)
                   | _ => (false, s)
                   end in
  let '(b, t) := match hex_prefix s with
                 | Some t => if (base =? 0) || (base =? 16) then (16, t) else (base, s)
                 | None => (if base =? 0 then if head_is (λ c, code c =? code "0") s then 8 else 10
                            else base, s)
                 end in
  if head_is (λ c, digit_value c <? b) t then let '(v, rest) := scan b 0 t in Some (neg, v, rest)
  else None.

Definition strtol (base : Z) (s : string) : Z + Z * string :=
  match strto base s with
  | None => inl (- EINVAL)
  | Some (neg, v, rest) =>
      let l := if neg then - v else v in
      if (l <? - 2 ^ 63) || (2 ^ 63 - 1 <? l) then inl (- ERANGE) else inr (l, rest)
  end.
Definition strtoul (base : Z) (s : string) : Z + Z * string :=
  match strto base s with
  | None => inl (- EINVAL)
  | Some (neg, v, rest) =>
      if UINT64_MAX <? v then inl (- ERANGE) else inr (if neg then u64 (- v) else v, rest)
  end.

(** * parse-util.c *)

Record atou_flags := mkAtouFlags {
  refuse_plus_minus : bool; refuse_leading_zero : bool; refuse_leading_whitespace : bool }.
Definition no_flags : atou_flags := mkAtouFlags false false false.

(** [STARTSWITH_SET]: the rest after the first prefix that matches. *)
Fixpoint startswith_set (s : string) (l : list string) : option string :=
  match l with
  | [] => None
  | p :: l' => match startswith s p with Some t => Some t | None => startswith_set s l' end
  end.

Definition mangle_base (s : string) (base : Z) : string * Z :=
  if negb (base =? 0) then (s, base)
  else match startswith_set s ["0b"; "0B"]%string with
       | Some k => (k, 2)
       | None => match startswith_set s ["0o"; "0O"]%string with
                 | Some k => (k, 8)
                 | None => (s, base)
                 end
       end.

Definition is_white (c : ascii) : bool := in_set c WHITESPACE.
Definition starts_minus (s : string) : bool := head_is (λ c, bool_decide (c = "-"%char)) s.
(** [strchr(WHITESPACE, s[0])] also finds the terminating NUL of an empty string. *)
Definition white_or_nul (s : string) : bool :=
  match s with EmptyString => true | String c _ => is_white c end.

Definition safe_atou_full (s : string) (base : Z) (f : atou_flags) : Z + Z :=
  if refuse_leading_whitespace f && white_or_nul s then inl (- EINVAL)
  else
    let s := skip_while is_white s in
    if refuse_plus_minus f && head_is (λ c, in_set c ["+"%char; "-"%char]) s then inl (- EINVAL)
    else if refuse_leading_zero f && head_is (λ c, code c =? code "0") s
            && negb (bool_decide (s = "0"%string)) then inl (- EINVAL)
    else
      let '(s, base) := mangle_base s base in
      match strtoul base s with
      | inl r => inl r
      | inr (l, rest) =>
          if negb (bool_decide (rest = EmptyString)) then inl (- EINVAL)
          else if negb (l =? 0) && starts_minus s then inl (- ERANGE)
          else if negb (u32 l =? l) then inl (- ERANGE)
          else inr l
      end.
Definition safe_atou (s : string) : Z + Z := safe_atou_full s 0 no_flags.

Definition safe_atollu_full (s : string) (base : Z) (f : atou_flags) : Z + Z :=
  if refuse_leading_whitespace f && white_or_nul s then inl (- EINVAL)
  else
    let s := skip_while is_white s in
    if refuse_plus_minus f && head_is (λ c, in_set c ["+"%char; "-"%char]) s then inl (- EINVAL)
    else if refuse_leading_zero f && head_is (λ c, code c =? code "0") s
            && negb (bool_decide (s = "0"%string)) then inl (- EINVAL)
    else
      let '(s, base) := mangle_base s base in
      match strtoul base s with
      | inl r => inl r
      | inr (l, rest) =>
          if negb (bool_decide (rest = EmptyString)) then inl (- EINVAL)
          else if negb (l =? 0) && starts_minus s then inl (- ERANGE)
          else inr l
      end.
Definition safe_atou64 (s : string) : Z + Z := safe_atollu_full s 0 no_flags.

Definition safe_atoi (s : string) : Z + Z :=
  let '(s, base) := mangle_base (skip_while is_white s) 0 in
  match strtol base s with
  | inl r => inl r
  | inr (l, rest) =>
      if negb (bool_decide (rest = EmptyString)) then inl (- EINVAL)
      else if (l <? - 2 ^ 31) || (2 ^ 31 - 1 <? l) then inl (- ERANGE)
      else inr l
  end.

(** [parse_uid] (user-util.c). *)
Definition parse_uid (s : string) : Z + Z :=
  match safe_atou_full s 10 (mkAtouFlags true true true) with
  | inl r => inl r
  | inr uid => if uid_is_valid uid then inr uid else inl (- ENXIO)
  end.

(** * path-util.c *)

Definition ends_slash (s : string) : bool :=
  match s with EmptyString => false | _ => bool_decide (String.get (pred (String.length s)) s = Some "/"%char) end.
Definition starts_slash (s : string) : bool := head_is (λ c, bool_decide (c = "/"%char)) s.
(** [path_join] of two parts; an empty one is skipped. *)
Definition path_join (a b : string) : string :=
  match a, b with
  | EmptyString, _ => b
  | _, EmptyString => a
  | _, _ => if negb (ends_slash a) && negb (starts_slash b) then a +:+ "/" +:+ b else a +:+ b
  end.

Fixpoint skip_slash_or_dot (p : string) : string :=
  match p with
  | String "/" p' => skip_slash_or_dot p'
  | String "." (String "/" p') => skip_slash_or_dot p'
  | _ => p
  end.

(** [strchrnul(s, '/')]: the part before the slash and the rest from it. *)
Fixpoint split_at_slash (s : string) : string * string :=
  match s with
  | EmptyString => (EmptyString, EmptyString)
  | String c s' =>
      if ascii_dec c "/" then (EmptyString, s)
      else let '(a, b) := split_at_slash s' in (String c a, b)
  end.

Definition NAME_MAX : nat := 255.
Definition drop_dot (s : string) : string := if bool_decide (s = "."%string) then EmptyString else s.

(** [path_find_first_component]: [inl] is -EINVAL; else the component, with the
    text from it on, or none at the end of the path; and the path that is left. *)
Definition path_find_first_component (p : string) (accept_dot_dot : bool)
  : Z + (option (string * string) * string) :=
  let first := skip_slash_or_dot p in
  if bool_decide (first = EmptyString) || bool_decide (first = "."%string) then inr (None, EmptyString)
  else
    let '(comp, rest) := split_at_slash first in
    if (NAME_MAX <? String.length comp)%nat then inl (- EINVAL)
    else if negb accept_dot_dot && bool_decide (comp = ".."%string) then inl (- EINVAL)
    else inr (Some (comp, first), drop_dot (skip_slash_or_dot rest)).

Definition is_absolute (s : string) : bool := head_is (λ c, bool_decide (c = "/"%char)) s.

(** The loop of [path_startswith_full]; the prefix gets shorter. *)
Fixpoint startswith_components (fuel : nat) (path prefix : string) (accept_dot_dot : bool) : option string :=
  match fuel with
  | O => None
  | S fuel' =>
      match path_find_first_component path accept_dot_dot,
            path_find_first_component prefix accept_dot_dot with
      | inr (p, path'), inr (None, _) =>
          Some (match p with Some (_, from) => from | None => path' end)
      | inr (Some (c, _), path'), inr (Some (d, _), prefix') =>
          if bool_decide (c = d) then startswith_components fuel' path' prefix' accept_dot_dot
          else None
      | _, _ => None
      end
  end.
Definition path_startswith (path prefix : string) : option string :=
  if negb (bool_decide (is_absolute path = is_absolute prefix)) then None
  else startswith_components (S (String.length prefix)) path prefix true.

Definition skip_dev_prefix (p : string) : string := default p (path_startswith p "/dev/").

(** * terminal-util.c *)

Definition vtnr_from_tty (tty : string) : Z :=
  match startswith (skip_dev_prefix tty) "tty" with
  | None => - EINVAL
  | Some t =>
      if negb (head_is ascii_isdigit t) then - EINVAL
      else match safe_atoi t with
           | inl r => r
           | inr i => if (i <? 0) || (63 <? i) then - EINVAL else i
           end
  end.
Definition tty_is_vc (tty : string) : bool := 0 <=? vtnr_from_tty tty.
Definition tty_is_console (tty : string) : bool :=
  bool_decide (skip_dev_prefix tty = "console"%string).

(** * Lemmas *)

Lemma vtnr_from_tty_range tty : vtnr_from_tty tty < 0 ∨ 0 ≤ vtnr_from_tty tty ≤ 63.
Proof.
  unfold vtnr_from_tty. destruct (startswith _ _) as [t|]; [|left; done].
  destruct (negb _); [left; done|]. unfold safe_atoi.
  destruct (mangle_base _ _) as [s b]. unfold strtol.
  destruct (strto b s) as [[[neg v] rest]|]; [|left; done].
  set (l := if neg : bool then - v else v).
  destruct (_ || _); [left; done|]. destruct (negb _); [left; done|].
  destruct (_ || _); [left; done|]. destruct (l <? 0) eqn:E1; [left; done|].
  destruct (63 <? l) eqn:E2; [left; done|]. right. cbn [orb]. lia.
Qed.

(** ** Decimal printing and parsing *)

Section Decimal.
Local Open Scope N_scope.

Lemma pretty_N_char_digit n :
  n < 10 → digit_value (pretty_N_char n) = Z.of_N n.
Proof.
  intros H. assert (n = 0 ∨ n = 1 ∨ n = 2 ∨ n = 3 ∨ n = 4 ∨ n = 5 ∨ n = 6 ∨ n = 7 ∨ n = 8 ∨ n = 9)
    as Hn by lia.
  by destruct Hn as [->|[->|[->|[->|[->|[->|[->|[->|[->| ->]]]]]]]]].
Qed.

Lemma scan_pretty_go n s :
  ∃ k, (0 ≤ k)%Z ∧ ∀ acc, scan 10 acc (pretty_N_go n s) = scan 10 (acc * 10 ^ k + Z.of_N n)%Z s.
Proof.
  revert s. induction (N.lt_wf_0 n) as [n _ IH]; intros s.
  assert (n = 0 ∨ 0 < n) as [->|Hn] by lia.
  { exists 0%Z. split; [done|]. intros acc. rewrite pretty_N_go_0. f_equal. lia. }
  rewrite pretty_N_go_step by done.
  destruct (IH (n / 10)%N) with (s := String (pretty_N_char (n mod 10)) s) as (k&Hk&Hacc);
    [apply N.div_lt; lia|].
  exists (k + 1)%Z. split; [lia|]. intros acc. rewrite Hacc. cbn [scan].
  pose proof (N.mod_lt n 10 ltac:(done)). rewrite pretty_N_char_digit by done.
  destruct (Z.ltb_spec (Z.of_N (n mod 10)) 10); [|lia]. f_equal.
  rewrite Z.pow_add_r by lia. pose proof (N.div_mod n 10 ltac:(done)). lia.
Qed.

(** The first digit of a positive number is not 0. *)
Definition nonzero_digit (c : ascii) : Prop := ∃ n, 0 < n < 10 ∧ c = pretty_N_char n.
Lemma pretty_go_head n s :
  0 < n → ∃ c t, pretty_N_go n s = String c t ∧ nonzero_digit c.
Proof.
  revert s. induction (N.lt_wf_0 n) as [n _ IH]; intros s Hn.
  rewrite pretty_N_go_step by done.
  assert (n < 10 ∨ 10 ≤ n) as [H|H] by lia.
  - rewrite N.div_small, N.mod_small, pretty_N_go_0 by done.
    eexists _, s. split; [done|]. by exists n.
  - apply IH; [apply N.div_lt; lia|]. by apply N.div_str_pos.
Qed.
End Decimal.

(** Properties of a first character, by cases. *)
Lemma nonzero_digit_cases (P : ascii → bool) :
  forallb P ["1"; "2"; "3"; "4"; "5"; "6"; "7"; "8"; "9"]%char = true →
  ∀ c, nonzero_digit c → P c = true.
Proof.
  cbn. rewrite !andb_true_r, !andb_true_iff. intros H c (n&Hn&->).
  assert (n = 1 ∨ n = 2 ∨ n = 3 ∨ n = 4 ∨ n = 5 ∨ n = 6 ∨ n = 7 ∨ n = 8 ∨ n = 9)%N as Hc by lia.
  destruct Hc as [->|[->|[->|[->|[->|[->|[->|[->| ->]]]]]]]]; cbn; tauto.
Qed.

Lemma pretty_pos_head z :
  0 < z → ∃ c t, pretty z = String c t ∧ nonzero_digit c ∧ scan 10 0 (String c t) = (z, EmptyString).
Proof.
  intros Hz. destruct z as [|p|p]; [lia| |lia]. unfold pretty, pretty_Z, pretty, pretty_positive, pretty, pretty_N.
  rewrite decide_False by done.
  destruct (pretty_go_head (N.pos p) EmptyString) as (c&t&E&Hc); [lia|].
  destruct (scan_pretty_go (N.pos p) EmptyString) as (k&Hk&Hs).
  exists c, t. split_and!; [done|done|]. rewrite <- E, Hs. done.
Qed.

Lemma digit_not_white c : nonzero_digit c → is_white c = false.
Proof. intros Hc%(nonzero_digit_cases (λ c, negb (is_white c))); [|done]. by destruct (is_white c). Qed.
Lemma digit_not_space c : nonzero_digit c → isspace c = false.
Proof. intros Hc%(nonzero_digit_cases (λ c, negb (isspace c))); [|done]. by destruct (isspace c). Qed.
Lemma digit_small c : nonzero_digit c → (digit_value c <? 10) = true.
Proof. intros Hc%(nonzero_digit_cases (λ c, digit_value c <? 10)); done. Qed.

(** A string that starts with a digit other than 0 is read in base 10. *)
Lemma mangle_base_digit c t : nonzero_digit c → mangle_base (String c t) 0 = (String c t, 0).
Proof.
  intros Hc. assert (c ≠ "0"%char) as Hne.
  { apply (nonzero_digit_cases (λ c, negb (bool_decide (c = "0"%char)))) in Hc; [|done].
    intros ->. done. }
  unfold mangle_base. cbn [startswith_set startswith Z.eqb negb].
  destruct (ascii_dec "0" c); [congruence|]. done.
Qed.
Lemma strto_digit base c t :
  nonzero_digit c → base = 0 ∨ base = 10 →
  strto base (String c t) = let '(v, rest) := scan 10 0 (String c t) in Some (false, v, rest).
Proof.
  intros Hc Hb. unfold strto. cbn [skip_while]. rewrite digit_not_space by done.
  assert (Hp : match String c t with
               | String "-" t => (true, t) | String "+" t => (false, t) | _ => (false, String c t)
               end = (false, String c t)).
  { destruct Hc as (n&Hn&->).
    assert (n = 1 ∨ n = 2 ∨ n = 3 ∨ n = 4 ∨ n = 5 ∨ n = 6 ∨ n = 7 ∨ n = 8 ∨ n = 9)%N as Hd by lia.
    by destruct Hd as [->|[->|[->|[->|[->|[->|[->|[->| ->]]]]]]]]. }
  assert (Hx : hex_prefix (String c t) = None ∧ (code c =? code "0") = false).
  { destruct Hc as (n&Hn&->).
    assert (n = 1 ∨ n = 2 ∨ n = 3 ∨ n = 4 ∨ n = 5 ∨ n = 6 ∨ n = 7 ∨ n = 8 ∨ n = 9)%N as Hd by lia.
    by destruct Hd as [->|[->|[->|[->|[->|[->|[->|[->| ->]]]]]]]]. }
  destruct Hx as [Hx H0]. rewrite Hp, Hx.
  destruct Hb as [-> | ->]; cbn [Z.eqb head_is]; rewrite ?H0; cbn [head_is];
    rewrite digit_small by done; reflexivity.
Qed.

Lemma digit_head c t : nonzero_digit c →
  in_set c ["+"; "-"]%char = false ∧ (code c =? code "0") = false ∧ starts_minus (String c t) = false.
Proof.
  intros Hc. apply (nonzero_digit_cases (λ c, negb (in_set c ["+"; "-"]%char) && negb (code c =? code "0")
    && negb (starts_minus (String c t)))) in Hc; [|done].
  by destruct (in_set c _), (code c =? _), (starts_minus _).
Qed.
(** What is printed in decimal is parsed back. *)
Lemma strtoul_digits z c t base :
  0 ≤ z ≤ UINT64_MAX → nonzero_digit c → scan 10 0 (String c t) = (z, EmptyString) → base = 0 ∨ base = 10 →
  mangle_base (String c t) base = (String c t, base) ∧ strtoul base (String c t) = inr (z, EmptyString).
Proof.
  intros Hz Hc Hs Hb. split; [destruct Hb as [-> | ->]; [by apply mangle_base_digit|done]|].
  unfold strtoul. rewrite strto_digit, Hs by done. destruct (Z.ltb_spec UINT64_MAX z); [lia|done].
Qed.
Lemma safe_atollu_full_pretty z base f :
  0 ≤ z ≤ UINT64_MAX → base = 0 ∨ base = 10 → safe_atollu_full (pretty z) base f = inr z.
Proof.
  intros Hz Hb. destruct (decide (z = 0)) as [->|Hne].
  { destruct f as [[] [] []]; destruct Hb as [-> | ->]; reflexivity. }
  destruct (pretty_pos_head z) as (c&t&->&Hc&Hs); [lia|]. destruct (digit_head c t Hc) as (H1&H2&H3).
  destruct (strtoul_digits z c t base Hz Hc Hs Hb) as [Hm Hst].
  unfold safe_atollu_full. cbn [white_or_nul skip_while head_is].
  rewrite digit_not_white, !andb_false_r by done. cbn [head_is]. rewrite H1, H2, !andb_false_r. cbn [andb].
  rewrite Hm, Hst. cbn [negb bool_decide]. by rewrite (bool_decide_true (EmptyString = EmptyString)), H3, andb_false_r.
Qed.
Lemma safe_atou_full_pretty z base f :
  0 ≤ z ≤ UINT_MAX → base = 0 ∨ base = 10 → safe_atou_full (pretty z) base f = inr z.
Proof.
  intros Hz Hb. destruct (decide (z = 0)) as [->|Hne].
  { destruct f as [[] [] []]; destruct Hb as [-> | ->]; reflexivity. }
  destruct (pretty_pos_head z) as (c&t&->&Hc&Hs); [lia|]. destruct (digit_head c t Hc) as (H1&H2&H3).
  unfold UINT_MAX in Hz. destruct (strtoul_digits z c t base) as [Hm Hst]; [unfold UINT64_MAX; lia|done..|].
  unfold safe_atou_full. cbn [white_or_nul skip_while head_is].
  rewrite digit_not_white, !andb_false_r by done. cbn [head_is]. rewrite H1, H2, !andb_false_r. cbn [andb].
  rewrite Hm, Hst. cbn [negb bool_decide]. rewrite (bool_decide_true (EmptyString = EmptyString)), H3, andb_false_r by done.
  unfold u32. rewrite Z.mod_small by lia. by rewrite Z.eqb_refl.
Qed.
(** The decimal notation consists of digits. *)
Lemma scan_digits acc s v : scan 10 acc s = (v, EmptyString) → string_forallb ascii_isdigit s = true.
Proof.
  revert acc. induction s as [|c s IH]; intros acc; [done|]. cbn. destruct (digit_value c <? 10) eqn:E; [|done].
  intros H. rewrite (IH _ H), andb_true_r. destruct c as [[] [] [] [] [] [] [] []]; done.
Qed.
Lemma pretty_digits z : 0 ≤ z → pretty z ≠ EmptyString ∧ string_forallb ascii_isdigit (pretty z) = true.
Proof.
  intros Hz. destruct (decide (z = 0)) as [->|Hne]; [done|].
  destruct (pretty_pos_head z) as (c&t&->&_&Hs); [lia|]. split; [done|]. by eapply scan_digits.
Qed.
Lemma scan_grows acc s v : 1 ≤ acc → scan 10 acc s = (v, EmptyString) → 10 ^ Z.of_nat (String.length s) ≤ v.
Proof.
  intros Ha Hs. cut (acc * 10 ^ Z.of_nat (String.length s) ≤ v); [nia|].
  revert acc Ha Hs. induction s as [|c s IH]; intros acc Ha; cbn [scan String.length]; [intros [= ->]; lia|].
  destruct (digit_value c <? 10) eqn:E; [|done]. intros Hs.
  assert (Hd : 0 ≤ digit_value c) by (clear; destruct c as [[] [] [] [] [] [] [] []]; vm_compute; congruence).
  pose proof (IH (acc * 10 + digit_value c) ltac:(nia) Hs). rewrite Nat2Z.inj_succ, Z.pow_succ_r by lia. nia.
Qed.
Lemma pretty_length z : 0 ≤ z ≤ UINT64_MAX → Z.of_nat (String.length (pretty z)) ≤ 20.
Proof.
  intros Hz. destruct (decide (z = 0)) as [->|Hne]; [vm_compute; congruence|].
  destruct (pretty_pos_head z) as (c&t&->&Hc&Hs); [lia|]. cbn [scan] in Hs.
  rewrite digit_small in Hs by done. apply scan_grows in Hs.
  - cbn [String.length]. destruct (Z.leb_spec (Z.of_nat (String.length t)) 19); [lia|].
    assert (10 ^ 20 ≤ 10 ^ Z.of_nat (String.length t)) by (apply Z.pow_le_mono_r; lia).
    unfold UINT64_MAX in Hz. lia.
  - apply (nonzero_digit_cases (λ c, 1 <=? digit_value c)) in Hc; [lia|done].
Qed.
Lemma safe_atou_pretty z : 0 ≤ z ≤ UINT_MAX → safe_atou (pretty z) = inr z.
Proof. intros. apply safe_atou_full_pretty; auto. Qed.
Lemma parse_uid_pretty z :
  0 ≤ z ≤ UINT_MAX → uid_is_valid z = true → parse_uid (pretty z) = inr z.
Proof. intros Hz Hv. unfold parse_uid. rewrite safe_atou_full_pretty by auto. by rewrite Hv. Qed.

Lemma vtnr_from_tty_tty n :
  0 ≤ n ≤ 63 → vtnr_from_tty ("tty" +:+ pretty n) = n ∧ vtnr_from_tty ("/dev/tty" +:+ pretty n) = n.
Proof.
  intros Hn.
  assert (H : forallb (λ i, (vtnr_from_tty ("tty" +:+ pretty (Z.of_nat i)) =? Z.of_nat i)
    && (vtnr_from_tty ("/dev/tty" +:+ pretty (Z.of_nat i)) =? Z.of_nat i)) (seq 0 64) = true)
    by (vm_compute; reflexivity).
  rewrite forallb_forall in H. specialize (H (Z.to_nat n)).
  rewrite Z2Nat.id in H by lia.
  apply andb_prop in H as [?%Z.eqb_eq ?%Z.eqb_eq]; [done|]. apply in_seq. lia.
Qed.

(** What is parsed as an unsigned integer fits. *)
Lemma safe_atou_full_fits s base f :
  match safe_atou_full s base f with
  | inr u => 0 ≤ u ≤ UINT_MAX
  | inl r => r = - EINVAL ∨ r = - ERANGE
  end.
Proof.
  unfold safe_atou_full. destruct (_ && _); [by left|]. cbv zeta. destruct (_ && _); [by left|].
  destruct (_ && _ && _); [by left|]. destruct (mangle_base _ _) as [s' b].
  unfold strtoul. destruct (strto b s') as [[[neg v] rest]|]; [|by left].
  destruct (_ <? v); [by right|]. set (l := if neg : bool then _ else v).
  destruct (negb _); [by left|]. destruct (_ && _); [by right|].
  destruct (u32 l =? l) eqn:El; cbn [negb]; [|by right].
  apply Z.eqb_eq in El. unfold u32 in El. unfold UINT_MAX.
  pose proof (Z.mod_pos_bound l (2 ^ 32) ltac:(lia)). lia.
Qed.
Lemma safe_atou_range s u : safe_atou s = inr u → 0 ≤ u ≤ UINT_MAX.
Proof. intros H. pose proof (safe_atou_full_fits s 0 no_flags) as Hf. unfold safe_atou in H. by rewrite H in Hf. Qed.
Lemma parse_uid_valid s u : parse_uid s = inr u → uid_is_valid u = true.
Proof. unfold parse_uid. intros H. repeat case_match; by simplify_eq. Qed.
