(* ===== verification/EnvFile.v ===== *)
(** The files the daemon keeps its state in: the parser of KEY=value files and
    the UTF-8 check of what it finds ([src/src/basic/env-file.c], [utf8.c]), and
    the writers of single items ([src/src/shared/serialize.c], [escape.c]). *)
From Stdlib Require Import Ascii.
From stdpp Require Import pretty.
From S2P Require Import Prelude Time LoginTypes Escape Parse.
Open Scope string_scope.
Open Scope Z_scope.

(** * utf8.c *)

(** The byte at the head of a string; a C string ends in NUL. *)
Definition byte0 (s : string) : Z := match s with String c _ => code c | EmptyString => 0 end.
Fixpoint drop_bytes (n : nat) (s : string) : string :=
  match n, s with
  | S n', String _ s' => drop_bytes n' s'
  | _, _ => s
  end.

Definition utf8_encoded_expected_len (c : Z) : nat :=
  if c <? 0x80 then 1%nat
  else if Z.land c 0xe0 =? 0xc0 then 2%nat
  else if Z.land c 0xf0 =? 0xe0 then 3%nat
  else if Z.land c 0xf8 =? 0xf0 then 4%nat
  else if Z.land c 0xfc =? 0xf8 then 5%nat
  else if Z.land c 0xfe =? 0xfc then 6%nat
  else 0%nat.

(** The [n] continuation bytes at the head of [s]; [None] is -EINVAL. *)
Fixpoint continuation (n : nat) (unichar : Z) (s : string) : option Z :=
  match n with
  | O => Some unichar
  | S n' =>
      let b := byte0 s in
      if negb (Z.land b 0xc0 =? 0x80) then None
      else continuation n' (Z.lor (Z.shiftl unichar 6) (Z.land b 0x3f)) (drop_bytes 1 s)
  end.
Definition utf8_encoded_to_unichar (s : string) : option (Z * nat) :=
  let b := byte0 s in
  let first (mask : Z) (len : nat) :=
    u ← continuation (len - 1) (Z.land b mask) (drop_bytes 1 s); Some (u, len) in
  match utf8_encoded_expected_len b with
  | 1%nat => Some (b, 1%nat)
  | 2%nat => first 0x1f 2%nat
  | 3%nat => first 0x0f 3%nat
  | 4%nat => first 0x07 4%nat
  | 5%nat => first 0x03 5%nat
  | 6%nat => first 0x01 6%nat
  | _ => None
  end.
Definition utf8_unichar_to_encoded_len (u : Z) : nat :=
  if u <? 0x80 then 1%nat else if u <? 0x800 then 2%nat else if u <? 0x10000 then 3%nat
  else if u <? 0x200000 then 4%nat else if u <? 0x4000000 then 5%nat else 6%nat.

(** Are the next [n] bytes not ASCII? *)
Fixpoint high_bytes (n : nat) (s : string) : bool :=
  match n with
  | O => true
  | S n' => (Z.land (byte0 s) 0x80 =? 0x80) && high_bytes n' (drop_bytes 1 s)
  end.
(** With no limit on the length; [None] is -EINVAL. *)
Definition utf8_encoded_valid_unichar (s : string) : option nat :=
  match utf8_encoded_expected_len (byte0 s) with
  | O => None
  | 1%nat => Some 1%nat
  | len =>
      if negb (high_bytes len s) then None
      else '(u, _) ← utf8_encoded_to_unichar s;
           if negb (bool_decide (utf8_unichar_to_encoded_len u = len)) then None
           else if negb (unichar_is_valid u) then None
           else Some len
  end.
(** [utf8_is_valid]: each round uses up a byte at least. *)
Fixpoint utf8_valid_loop (fuel : nat) (s : string) : bool :=
  match fuel, s with
  | _, EmptyString => true
  | O, _ => false
  | S fuel', _ =>
      match utf8_encoded_valid_unichar s with
      | None => false
      | Some len => utf8_valid_loop fuel' (drop_bytes len s)
      end
  end.
Definition utf8_is_valid (s : string) : bool := utf8_valid_loop (String.length s) s.

(** * env-file.c *)

Definition NEWLINE : list ascii := [ascii_of_nat 10; ascii_of_nat 13].
Definition COMMENTS : list ascii := ["#"%char; ";"%char].
(** The double quote, the backslash, the backtick and the dollar sign. *)
Definition SHELL_NEED_ESCAPE : list ascii := [dquote; backslash; "`"%char; "$"%char].

Inductive env_state :=
| PRE_KEY | KEY | PRE_VALUE | VALUE | VALUE_ESCAPE
| SINGLE_QUOTE_VALUE | DOUBLE_QUOTE_VALUE | DOUBLE_QUOTE_VALUE_ESCAPE
| COMMENT | COMMENT_ESCAPE.

(** The parser's variables: [key] is its first [n_key] bytes, [value] the first
    [n_value] bytes or NULL; SIZE_MAX is [None]; and the pairs that were
    pushed, the last one first. *)
Record env_parser := mkEnvParser {
  ep_state : env_state;
  ep_key : string;
  ep_value : option string;
  ep_last_value_whitespace : option nat;
  ep_last_key_whitespace : option nat;
  ep_pushed : list (string * option string);
}.
#[export] Instance eta_env_parser : Eta env_parser := fun e =>
  mkEnvParser (ep_state e) (ep_key e) (ep_value e) (ep_last_value_whitespace e)
    (ep_last_key_whitespace e) (ep_pushed e).
Definition env_parser0 : env_parser := mkEnvParser PRE_KEY "" None None None [].

Definition is_newline (c : ascii) : bool := in_set c NEWLINE.
Definition add_key (c : ascii) (e : env_parser) : env_parser :=
  e <| ep_key := ep_key e +:+ char1 c |>.
Definition add_value (c : ascii) (e : env_parser) : env_parser :=
  e <| ep_value := Some (default "" (ep_value e) +:+ char1 c) |>.
(** Where a run of white space began: [len] bytes in, if it begins here. *)
Definition note_whitespace (c : ascii) (len : nat) (last : option nat) : option nat :=
  if negb (is_white c) then None else match last with None => Some len | _ => last end.
Definition value_len (e : env_parser) : nat := String.length (default "" (ep_value e)).
(** [s[last] = 0], unless [last] is SIZE_MAX. *)
Definition chomp (last : option nat) (s : string) : string :=
  match last with Some n => String.substring 0 n s | None => s end.

(** The end of an assignment: strip the white space and push. *)
Definition push_pair (strip : bool) (e : env_parser) : env_parser :=
  e <| ep_pushed := (chomp (ep_last_key_whitespace e) (ep_key e),
                     (if strip then chomp (ep_last_value_whitespace e) else id) <$> ep_value e)
                    :: ep_pushed e |>
    <| ep_key := "" |> <| ep_value := None |>.
Definition goto (s : env_state) (e : env_parser) : env_parser := e <| ep_state := s |>.

(** One round of the loop. *)
Definition env_step (c : ascii) (e : env_parser) : env_parser :=
  match ep_state e with
  | PRE_KEY =>
      if in_set c COMMENTS then goto COMMENT e
      else if negb (is_white c) then add_key c (goto KEY e <| ep_last_key_whitespace := None |>)
      else e
  | KEY =>
      if is_newline c then goto PRE_KEY e <| ep_key := "" |>
      else if bool_decide (c = "="%char) then goto PRE_VALUE e <| ep_last_value_whitespace := None |>
      else add_key c (e <| ep_last_key_whitespace :=
                             note_whitespace c (String.length (ep_key e)) (ep_last_key_whitespace e) |>)
  | PRE_VALUE =>
      if is_newline c then push_pair false (goto PRE_KEY e)
      else if bool_decide (c = squote) then goto SINGLE_QUOTE_VALUE e
      else if bool_decide (c = dquote) then goto DOUBLE_QUOTE_VALUE e
      else if bool_decide (c = backslash) then goto VALUE_ESCAPE e
      else if negb (is_white c) then add_value c (goto VALUE e)
      else e
  | VALUE =>
      if is_newline c then push_pair true (goto PRE_KEY e)
      else if bool_decide (c = backslash) then
        goto VALUE_ESCAPE e <| ep_last_value_whitespace := None |>
      else add_value c (e <| ep_last_value_whitespace :=
                               note_whitespace c (value_len e) (ep_last_value_whitespace e) |>)
  | VALUE_ESCAPE => (if is_newline c then id else add_value c) (goto VALUE e)
  | SINGLE_QUOTE_VALUE =>
      if bool_decide (c = squote) then goto PRE_VALUE e else add_value c e
  | DOUBLE_QUOTE_VALUE =>
      if bool_decide (c = dquote) then goto PRE_VALUE e
      else if bool_decide (c = backslash) then goto DOUBLE_QUOTE_VALUE_ESCAPE e
      else add_value c e
  | DOUBLE_QUOTE_VALUE_ESCAPE =>
      let e := goto DOUBLE_QUOTE_VALUE e in
      if in_set c SHELL_NEED_ESCAPE then add_value c e
      else if negb (code c =? 10) then add_value c (add_value backslash e)
      else e
  | COMMENT =>
      if bool_decide (c = backslash) then goto COMMENT_ESCAPE e
      else if is_newline c then goto PRE_KEY e
      else e
  | COMMENT_ESCAPE => if is_newline c then goto PRE_KEY e else goto COMMENT e
  end.

(** The loop over the contents of the file, up to a NUL. *)
Fixpoint env_loop (s : string) (e : env_parser) : env_parser :=
  match s with
  | EmptyString => e
  | String c s' => if code c =? 0 then e else env_loop s' (env_step c e)
  end.
(** At the end of the file an assignment without a newline counts. *)
Definition env_finish (e : env_parser) : env_parser :=
  match ep_state e with
  | PRE_VALUE | VALUE_ESCAPE | SINGLE_QUOTE_VALUE | DOUBLE_QUOTE_VALUE | DOUBLE_QUOTE_VALUE_ESCAPE =>
      push_pair false e
  | VALUE => push_pair true e
  | _ => e
  end.

(** [check_utf8ness_and_warn]. *)
Definition check_utf8ness (kv : string * option string) : bool :=
  utf8_is_valid kv.1 && match kv.2 with Some v => utf8_is_valid v | None => true end.

(** [parse_env_file] of a file with these contents: the result, and what the
    variable of a key holds afterwards: the last value that was assigned; a key
    without a value gives NULL.  The first pair with invalid UTF-8 ends it. *)
Fixpoint last_value (key : string) (pushed : list (string * option string)) : option string :=
  match pushed with
  | [] => None
  | (k, v) :: l => if bool_decide (k = key) then v else last_value key l
  end.
Fixpoint push_valid (l : list (string * option string)) : list (string * option string) * Z :=
  match l with
  | [] => ([], 0)
  | kv :: l' => if check_utf8ness kv then let '(v, r) := push_valid l' in (kv :: v, r) else ([], - EINVAL)
  end.
Definition parse_env_file (contents : string) : Z * (string → option string) :=
  let '(l, r) := push_valid (reverse (ep_pushed (env_finish (env_loop contents env_parser0)))) in
  (r, λ key, last_value key (reverse l)).

(** * Writing items *)

(** [fprintf(f, "KEY=%s\n", value)]: an item, and a file of items. *)
Definition newline : string := char1 (ascii_of_nat 10).
Definition item (kv : string * string) : string := kv.1 +:+ "=" +:+ kv.2 +:+ newline.
Fixpoint items (l : list (string * string)) : string :=
  match l with [] => "" | kv :: l' => item kv +:+ items l' end.

(** [xescape(s, bad)]: without a limit on the width. *)
Definition xescape_char (bad : list ascii) (c : ascii) : string :=
  if (code c <? 32) || (127 <=? code c) || bool_decide (c = backslash) || in_set c bad then
    String backslash (String "x" (String (hexchar (Z.shiftr (code c) 4)) (char1 (hexchar (code c)))))
  else char1 c.
Fixpoint xescape (s : string) (bad : list ascii) : string :=
  match s with
  | EmptyString => EmptyString
  | String c s' => xescape_char bad c +:+ xescape s' bad
  end.

Definition LONG_LINE_MAX : Z := 1024 * 1024.
(** [serialize_item]: the lines written, and the result. *)
Definition serialize_item (key : string) (value : option string) : Z * list (string * string) :=
  match value with
  | None => (0, [])
  | Some v =>
      if LONG_LINE_MAX <? Z.of_nat (String.length key + 1 + String.length v + 1) then (- EINVAL, [])
      else (1, [(key, v)])
  end.
Definition serialize_item_escaped (key : string) (value : option string) : Z * list (string * string) :=
  match value with
  | None => (0, [])
  | Some v => serialize_item key (Some (xescape v [" "%char]))
  end.
Definition serialize_usec (key : string) (usec : Z) : Z * list (string * string) :=
  if usec =? USEC_INFINITY then (0, []) else serialize_item key (Some (pretty usec)).
(** [deserialize_usec]: [safe_atou64]. *)
Definition deserialize_usec (value : string) : Z + Z := safe_atollu_full value 0 no_flags.

(** [parse_boolean]: letters of either case. *)
Definition lower (c : ascii) : ascii :=
  if ascii_in "A" "Z" c then ascii_of_nat (nat_of_ascii c + 32) else c.
Fixpoint strlower (s : string) : string :=
  match s with String c s' => String (lower c) (strlower s') | EmptyString => EmptyString end.
Definition parse_boolean (v : string) : Z + bool :=
  let v := strlower v in
  if bool_decide (v ∈ ["1"; "yes"; "y"; "true"; "t"; "on"]) then inr true
  else if bool_decide (v ∈ ["0"; "no"; "n"; "false"; "f"; "off"]) then inr false
  else inl (- EINVAL).

(** [parse_pid]: an unsigned long that is a positive pid_t. *)
Definition parse_pid (s : string) : Z + Z :=
  match safe_atollu_full s 0 no_flags with
  | inl r => inl r
  | inr ul => if (0 <? ul) && (ul <? 2 ^ 31) then inr ul else inl (- ERANGE)
  end.
