(* ===== verification/Words.v ===== *)
(** Splitting a string into words ([extract_first_word],
    [src/src/basic/extract-word.c]). *)
From Stdlib Require Import Ascii.
From S2P Require Import Prelude LoginTypes Escape Parse EnvFile.
Open Scope string_scope.
Open Scope Z_scope.

(** The ExtractFlags. *)
Record extract_flags := mkExtractFlags {
  EXTRACT_RELAX : bool;
  EXTRACT_CUNESCAPE : bool;
  EXTRACT_UNESCAPE_RELAX : bool;
  EXTRACT_UNESCAPE_SEPARATORS : bool;
  EXTRACT_KEEP_QUOTE : bool;
  EXTRACT_UNQUOTE : bool;
  EXTRACT_DONT_COALESCE_SEPARATORS : bool;
  EXTRACT_RETAIN_ESCAPE : bool;
  EXTRACT_RETAIN_SEPARATORS : bool;
}.
Definition no_extract_flags : extract_flags :=
  mkExtractFlags false false false false false false false false false.
Definition retain_escape : extract_flags :=
  mkExtractFlags false false false false false false false true false.
Definition dont_coalesce : extract_flags :=
  mkExtractFlags false false false false false false true false false.

Inductive extract_result :=
| ExtractError (r : Z)
| ExtractEnd                                          (* returns 0, both NULL *)
| ExtractWord (word : string) (p : option string).    (* returns 1; the new *p, or NULL *)

Section Extract.
Context (separators : list ascii) (flags : extract_flags).

Definition is_separator (c : ascii) : bool := in_set c separators.

(** The state of the second loop: the word so far, the open quote, and whether
    a backslash was just seen. *)
Fixpoint extract_loop (fuel : nat) (s : string) (quote : option ascii) (bs : bool) (p : string)
  : extract_result :=
  match fuel with
  | O => ExtractError 0
  | S fuel' =>
      if bs then
        match p with
        | EmptyString =>
            if EXTRACT_UNESCAPE_RELAX flags && (negb (is_some quote) || EXTRACT_RELAX flags)
            then ExtractWord (s +:+ char1 backslash) None
            else if EXTRACT_RELAX flags then ExtractWord s None
            else ExtractError (- EINVAL)
        | String c p' =>
            if EXTRACT_CUNESCAPE flags || EXTRACT_UNESCAPE_SEPARATORS flags then
              match (if EXTRACT_CUNESCAPE flags then cunescape_one p false else None) with
              | Some (u, eight_bit, r) =>
                  extract_loop fuel'
                    (s +:+ (if (eight_bit : bool) then char1 (char_of u) else utf8_encode_unichar u))
                    quote false (drop_bytes r p)
              | None =>
                  if EXTRACT_UNESCAPE_SEPARATORS flags
                     && (is_separator c || bool_decide (c = backslash))
                  then extract_loop fuel' (s +:+ char1 c) quote false p'
                  else if EXTRACT_UNESCAPE_RELAX flags
                  then extract_loop fuel' (s +:+ char1 backslash +:+ char1 c) quote false p'
                  else ExtractError (- EINVAL)
              end
            else extract_loop fuel' (s +:+ char1 c) quote false p'
        end
      else match quote with
      | Some q =>
          match p with
          | EmptyString => if EXTRACT_RELAX flags then ExtractWord s None else ExtractError (- EINVAL)
          | String c p' =>
              if bool_decide (c = q) then
                extract_loop fuel' (if EXTRACT_UNQUOTE flags then s else s +:+ char1 c) None false p'
              else if bool_decide (c = backslash) && negb (EXTRACT_RETAIN_ESCAPE flags)
              then extract_loop fuel' s quote true p'
              else extract_loop fuel' (s +:+ char1 c) quote false p'
          end
      | None =>
          match p with
          | EmptyString => ExtractWord s None
          | String c p' =>
              if in_set c [squote; dquote] && (EXTRACT_KEEP_QUOTE flags || EXTRACT_UNQUOTE flags) then
                extract_loop fuel' (if EXTRACT_UNQUOTE flags then s else s +:+ char1 c) (Some c) false p'
              else if bool_decide (c = backslash) && negb (EXTRACT_RETAIN_ESCAPE flags)
              then extract_loop fuel' s quote true p'
              else if is_separator c then
                if EXTRACT_DONT_COALESCE_SEPARATORS flags
                then ExtractWord s (Some (if EXTRACT_RETAIN_SEPARATORS flags then p else p'))
                else if EXTRACT_RETAIN_SEPARATORS flags then ExtractWord s (Some p)
                else match skip_while is_separator p with
                     | EmptyString => ExtractWord s None
                     | rest => ExtractWord s (Some rest)
                     end
              else extract_loop fuel' (s +:+ char1 c) quote false p'
          end
      end
  end.

(** [extract_first_word(&p, &word, separators, flags)]; each round of the second
    loop uses up a character. *)
Definition extract_first_word (p : option string) : extract_result :=
  match p with
  | None => ExtractEnd
  | Some p =>
      if EXTRACT_DONT_COALESCE_SEPARATORS flags then
        match p with
        | EmptyString => ExtractWord "" None
        | String c p' =>
            if is_separator c
            then ExtractWord "" (Some (if EXTRACT_RETAIN_SEPARATORS flags then p else p'))
            else extract_loop (S (String.length p)) "" None false p
        end
      else match skip_while is_separator p with
           | EmptyString => ExtractEnd
           | rest => extract_loop (S (String.length rest)) "" None false rest
           end
  end.
End Extract.

(** * All words of a string ([src/src/basic/strv.c], [string-util.c])

    Each word uses up a character, but for the last. *)

Fixpoint split_loop (fuel : nat) (separators : list ascii) (flags : extract_flags) (s : option string)
  : Z + list string :=
  match fuel with
  | O => inl 0
  | S fuel' =>
      match extract_first_word separators flags s with
      | ExtractError r => inl r
      | ExtractEnd => inr []
      | ExtractWord word s' =>
          match split_loop fuel' separators flags s' with inl r => inl r | inr l => inr (word :: l) end
      end
  end.
Definition strv_split_full (s : string) (separators : list ascii) (flags : extract_flags) : Z + list string :=
  split_loop (2 + String.length s) separators flags (Some s).
(** NULL is the result of any failure. *)
Definition strv_split (s : string) (separators : list ascii) : option (list string) :=
  match strv_split_full s separators retain_escape with inl _ => None | inr l => Some l end.

Definition strv_remove (l : list string) (s : string) : list string := filter (λ x, x ≠ s) l.
(** Each string in turn removes its copies behind it. *)
Fixpoint uniq_loop (n : nat) (l : list string) : list string :=
  match n, l with
  | S n', s :: l' => s :: uniq_loop n' (strv_remove l' s)
  | _, _ => []
  end.
Definition strv_uniq (l : list string) : list string := uniq_loop (length l) l.

(** [separators] is NULL or a list. *)
Fixpoint contains_loop (fuel : nat) (separators : list ascii) (flags : extract_flags) (words : list string)
  (s : option string) : Z + bool :=
  match fuel with
  | O => inl 0
  | S fuel' =>
      match extract_first_word separators flags s with
      | ExtractError r => inl r
      | ExtractEnd => inr false
      | ExtractWord w s' => if in_set w words then inr true else contains_loop fuel' separators flags words s'
      end
  end.
Definition string_contains_word (s : string) (separators : option (list ascii)) (word : string) : Z + bool :=
  contains_loop (2 + String.length s) (default WHITESPACE separators)
    (match separators with Some _ => dont_coalesce | None => no_extract_flags end) [word] (Some s).
