(* ===== verification/LoginState.v ===== *)
(** The state of the login daemon ([struct Manager] of
    [src/src/login/logind.h] and the objects it holds), what it asks of the
    system within one event, and what it does that others can see.

    A pointer to an object is the object's key: a session, a seat and an
    inhibitor are named by their id, a user by its uid, a device by its sysfs
    path.  Looking a key up that the tables do not hold is the dereference of a
    NULL or dangling pointer, and fails. *)
From S2P Require Import Prelude Time LoginTypes ActionTypes.

(** * Process references ([src/src/basic/pidref.h]) *)

Record pidref := mkPidref { p_pid : Z; p_fd : Z; p_fd_id : Z }.
#[export] Instance eta_pidref : Eta pidref := fun p => mkPidref (p_pid p) (p_fd p) (p_fd_id p).
#[export] Instance pidref_eq_dec : EqDecision pidref.
Proof. solve_decision. Defined.

Definition PIDREF_NULL : pidref := mkPidref 0 (- EBADF) 0.

Definition pidref_is_set (p : pidref) : bool := 0 <? p_pid p.

(** [pidref_equal] on local references (the daemon keeps no remote ones): [p_fd_id] is the inode number of the
    pidfd, 0 when it could not be acquired. *)
Definition pidref_equal (a b : pidref) : bool :=
  if negb (pidref_is_set a) then negb (pidref_is_set b)
  else if negb (pidref_is_set b) then false
  else if negb (p_pid a =? p_pid b) then false
  else if (p_fd_id a =? 0) || (p_fd_id b =? 0) then true
  else p_fd_id a =? p_fd_id b.

(** * The objects *)

Record session_device := mkSessionDevice {
  sd_device : string;        (* sd->device, its sysfs path *)
  sd_node : string;
  sd_fd : Z;
  sd_type : DeviceType;
  sd_active : bool;
  sd_pushed_fd : bool;
}.
#[export] Instance eta_session_device : Eta session_device := fun d =>
  mkSessionDevice (sd_device d) (sd_node d) (sd_fd d) (sd_type d) (sd_active d)
    (sd_pushed_fd d).
#[export] Instance session_device_eq_dec : EqDecision session_device.
Proof. solve_decision. Defined.

Record session := mkSession {
  s_position : Z;
  s_type : SessionType;
  s_original_type : SessionType;
  s_class : SessionClass;
  s_user : option Z;
  s_timestamp : dual_timestamp;
  s_display : option string;
  s_tty : option string;
  s_tty_validity : option TTYValidity;
  s_remote : bool;
  s_remote_user : option string;
  s_remote_host : option string;
  s_service : option string;
  s_desktop : option string;
  s_scope : option string;
  s_seat : option string;
  s_vtnr : Z;
  s_vtfd : Z;
  s_leader : pidref;
  s_leader_fd_saved : bool;
  s_deserialized_pid : Z;
  s_audit_id : Z;
  s_fifo_fd : Z;
  s_fifo_path : option string;
  s_fifo_event_source : bool;
  s_leader_pidfd_event_source : bool;
  s_in_gc_queue : bool;
  s_started : bool;
  s_stopping : bool;
  s_was_active : bool;
  s_locked_hint : bool;
  s_idle_hint : bool;
  s_idle_hint_timestamp : dual_timestamp;
  s_create_message : bool;
  s_upgrade_message : bool;
  s_timer_event_source : option Z;         (* when it fires *)
  s_stop_on_idle_event_source : option Z;
  s_cgroup_path : option string;
  s_cgroup_leaf_path : option string;
  s_cgroup_control_inotify_wd : Z;
  s_controller : option string;
  s_devices : gmap Z session_device;       (* indexed by dev_t *)
  s_track : option (list string);          (* the names it tracks *)
}.
#[export] Instance eta_session : Eta session := fun s =>
  mkSession (s_position s) (s_type s) (s_original_type s) (s_class s) (s_user s)
    (s_timestamp s) (s_display s) (s_tty s) (s_tty_validity s) (s_remote s)
    (s_remote_user s) (s_remote_host s) (s_service s) (s_desktop s) (s_scope s)
    (s_seat s) (s_vtnr s) (s_vtfd s) (s_leader s) (s_leader_fd_saved s)
    (s_deserialized_pid s) (s_audit_id s) (s_fifo_fd s) (s_fifo_path s)
    (s_fifo_event_source s) (s_leader_pidfd_event_source s) (s_in_gc_queue s)
    (s_started s) (s_stopping s) (s_was_active s) (s_locked_hint s) (s_idle_hint s)
    (s_idle_hint_timestamp s) (s_create_message s) (s_upgrade_message s)
    (s_timer_event_source s) (s_stop_on_idle_event_source s) (s_cgroup_path s)
    (s_cgroup_leaf_path s) (s_cgroup_control_inotify_wd s) (s_controller s) (s_devices s) (s_track s).

Record device := mkDevice {
  d_seat : option string;
  d_master : bool;
  d_timestamp : dual_timestamp;
  d_session_devices : list (string * Z);   (* session id, dev_t *)
}.
#[export] Instance eta_device : Eta device := fun d =>
  mkDevice (d_seat d) (d_master d) (d_timestamp d) (d_session_devices d).

Record seat := mkSeat {
  se_devices : list string;
  se_active : option string;
  se_pending_switch : option string;
  se_sessions : list string;
  se_positions : list (option string);     (* MALLOC_ELEMENTSOF is the length *)
  se_in_gc_queue : bool;
  se_started : bool;
}.
#[export] Instance eta_seat : Eta seat := fun s =>
  mkSeat (se_devices s) (se_active s) (se_pending_switch s) (se_sessions s)
    (se_positions s) (se_in_gc_queue s) (se_started s).

(** The fields of a [UserRecord] the daemon reads. *)
Record user_record := mkUserRecord {
  ur_uid : Z;
  ur_user_name : option string;  (* NULL in no user that user_new() accepts *)
  ur_kill_processes : Z;     (* tristate *)
  ur_stop_delay_usec : Z;
  ur_removable : Z;          (* user_record_removable(): a tristate or an error *)
}.

Definition ur_name (ur : user_record) : string := default EmptyString (ur_user_name ur).

Record user := mkUser {
  u_user_record : user_record;
  u_display : option string;
  u_timestamp : dual_timestamp;
  u_last_session_timestamp : Z;
  u_timer_event_source : option Z;
  u_gc_mode : UserGCMode;
  u_in_gc_queue : bool;
  u_started : bool;
  u_stopping : bool;
  u_sessions : list string;
}.
#[export] Instance eta_user : Eta user := fun u =>
  mkUser (u_user_record u) (u_display u) (u_timestamp u) (u_last_session_timestamp u)
    (u_timer_event_source u) (u_gc_mode u) (u_in_gc_queue u) (u_started u)
    (u_stopping u) (u_sessions u).

Record inhibitor := mkInhibitor {
  i_started : bool;
  i_what : Z;
  i_who : option string;
  i_why : option string;
  i_mode : option InhibitMode;     (* None: _INHIBIT_MODE_INVALID *)
  i_pid : pidref;
  i_uid : Z;
  i_since : dual_timestamp;
  i_fifo_path : option string;
  i_fifo_fd : Z;
  i_event_source : bool;
}.
#[export] Instance eta_inhibitor : Eta inhibitor := fun i =>
  mkInhibitor (i_started i) (i_what i) (i_who i) (i_why i) (i_mode i) (i_pid i)
    (i_uid i) (i_since i) (i_fifo_path i) (i_fifo_fd i) (i_event_source i).

Record button := mkButton {
  b_seat : option string;
  b_io_event_source : bool;
  b_fd : Z;
  b_modifier_mask : Z;
  b_check_event_source : bool;
  b_lid_closed : bool;
  b_docked : bool;
}.
#[export] Instance eta_button : Eta button := fun b =>
  mkButton (b_seat b) (b_io_event_source b) (b_fd b) (b_modifier_mask b) (b_check_event_source b)
    (b_lid_closed b) (b_docked b).

(** * The power-action part of the manager *)

(** A timer source: when it fires, and whether it is enabled. *)
Record timer := mkTimer { t_usec : Z; t_enabled : bool }.

Record actions := mkActions {
  a_delayed_action : option HandleAction;
  a_action_job : option string;
  a_inhibit_timeout_source : option timer;
  a_sleep_fork_action : option HandleAction;
  a_sleep_fork_pid : Z;
  a_tool_fork_pid : Z;
  a_scheduled_shutdown_action : option HandleAction;  (* None: invalid *)
  a_scheduled_shutdown_timeout : Z;
  a_scheduled_shutdown_timeout_source : option timer;
  a_scheduled_shutdown_uid : Z;
  a_scheduled_shutdown_tty : option string;
  a_nologin_timeout_source : option timer;
  a_wall_message_timeout_source : option timer;
  a_unlink_nologin : bool;
  a_wall_message : option string;
  a_enable_wall_messages : bool;
  a_shutdown_dry_run : bool;
  a_lid_switch_ignore_event_source : option timer;
  a_power_key_long_press : option (timer * string);  (* and the button it is for *)
  a_reboot_key_long_press : option (timer * string);
  a_suspend_key_long_press : option (timer * string);
  a_hibernate_key_long_press : option (timer * string);
  a_idle_action_event_source : option timer;
  a_idle_action_not_before_usec : Z;
  a_was_idle : bool;
  a_scheduled_sleep_uid : Z;
}.
#[export] Instance eta_actions : Eta actions := fun a =>
  mkActions (a_delayed_action a) (a_action_job a) (a_inhibit_timeout_source a)
    (a_sleep_fork_action a) (a_sleep_fork_pid a) (a_tool_fork_pid a)
    (a_scheduled_shutdown_action a) (a_scheduled_shutdown_timeout a)
    (a_scheduled_shutdown_timeout_source a) (a_scheduled_shutdown_uid a)
    (a_scheduled_shutdown_tty a) (a_nologin_timeout_source a)
    (a_wall_message_timeout_source a) (a_unlink_nologin a) (a_wall_message a)
    (a_enable_wall_messages a) (a_shutdown_dry_run a)
    (a_lid_switch_ignore_event_source a) (a_power_key_long_press a)
    (a_reboot_key_long_press a) (a_suspend_key_long_press a)
    (a_hibernate_key_long_press a) (a_idle_action_event_source a)
    (a_idle_action_not_before_usec a) (a_was_idle a) (a_scheduled_sleep_uid a).

(** * Configuration: the settings the daemon read at start-up *)

Record config := mkConfig {
  c_kill_only_users : list string;
  c_kill_exclude_users : list string;
  c_kill_user_processes : bool;
  c_delegate_session_cgroups : bool;
  c_inhibit_delay_max : Z;
  c_user_stop_delay : Z;
  c_idle_action_usec : Z;
  c_idle_action : HandleAction;
  c_stop_idle_session_usec : Z;
  c_handle_action_sleep_mask : Z;
  c_handle_power_key : HandleAction;
  c_handle_power_key_long_press : HandleAction;
  c_handle_reboot_key : HandleAction;
  c_handle_reboot_key_long_press : HandleAction;
  c_handle_suspend_key : HandleAction;
  c_handle_suspend_key_long_press : HandleAction;
  c_handle_hibernate_key : HandleAction;
  c_handle_hibernate_key_long_press : HandleAction;
  c_handle_secure_attention_key : HandleAction;
  c_handle_lid_switch : HandleAction;
  c_handle_lid_switch_ep : option HandleAction;  (* None: _HANDLE_ACTION_INVALID *)
  c_handle_lid_switch_docked : HandleAction;
  c_power_key_ignore_inhibited : bool;
  c_suspend_key_ignore_inhibited : bool;
  c_hibernate_key_ignore_inhibited : bool;
  c_lid_switch_ignore_inhibited : bool;
  c_reboot_key_ignore_inhibited : bool;
  c_remove_ipc : bool;
  c_holdoff_timeout_usec : Z;
  c_sessions_max : Z;
  c_inhibitors_max : Z;
}.
#[export] Instance eta_config : Eta config := fun c =>
  mkConfig (c_kill_only_users c) (c_kill_exclude_users c) (c_kill_user_processes c)
    (c_delegate_session_cgroups c) (c_inhibit_delay_max c) (c_user_stop_delay c)
    (c_idle_action_usec c) (c_idle_action c) (c_stop_idle_session_usec c)
    (c_handle_action_sleep_mask c) (c_handle_power_key c)
    (c_handle_power_key_long_press c) (c_handle_reboot_key c)
    (c_handle_reboot_key_long_press c) (c_handle_suspend_key c)
    (c_handle_suspend_key_long_press c) (c_handle_hibernate_key c)
    (c_handle_hibernate_key_long_press c) (c_handle_secure_attention_key c)
    (c_handle_lid_switch c) (c_handle_lid_switch_ep c) (c_handle_lid_switch_docked c)
    (c_power_key_ignore_inhibited c) (c_suspend_key_ignore_inhibited c)
    (c_hibernate_key_ignore_inhibited c) (c_lid_switch_ignore_inhibited c)
    (c_reboot_key_ignore_inhibited c) (c_remove_ipc c) (c_holdoff_timeout_usec c)
    (c_sessions_max c) (c_inhibitors_max c).

(** * What others can see of the daemon *)

Inductive bus_object :=
| ManagerObj | SessionObj (id : string) | SeatObj (id : string) | UserObj (uid : Z).

(** The lines of a state file, in order: [KEY=value]. *)
Definition state_file := list (string * string).

Inductive effect :=
(* D-Bus signals *)
| PropertiesChanged (o : bus_object) (properties : list string)
| ObjectNew (o : bus_object)
| ObjectRemoved (o : bus_object)
| ResumeDevice (sid dest : string) (dev fd : Z)
| PauseDevice (sid dest : string) (dev : Z) (how : string)
| LockSignal (sid : string) (lock : bool)
| SecureAttentionKey (seat : string)
| PrepareForShutdownWithMetadata (active : bool) (type : string)
| PrepareForShutdown (active : bool)
| PrepareForSleep (active : bool)
(* state files *)
| FileSaved (o : bus_object) (content : state_file)
| FileRemoved (o : bus_object)
| InhibitorSaved (id : string) (content : state_file)
| InhibitorRemoved (id : string)
| FifoRemoved (path : string)
(* file descriptors and devices *)
| Opened (node : string) (fd : Z)
| DrmSetMaster (fd : Z)
| DrmDropMaster (fd : Z)
| Revoked (type : DeviceType) (fd : Z)
| FdPushed (name : string)
| FdRemoved (name : string)
| DevnodeAcl (seat : string) (old_uid new_uid : option Z)
| ChownTty (vtnr uid : Z)
| VtCall (call : string) (fd : Z)
| Chvt (vtnr : Z)
(* processes and control groups *)
| RuntimeDir (verb : string) (uid : Z)
| CgroupCreate (path : string)
| CgroupAttach (path : string) (pid : Z)
| CgroupTrim (path : string)
| CgroupKill (path : string) (signo : Z)
| Killed (pid signo : Z)
| IpcCleaned (uid : Z)
| Forked (a : HandleAction)
| ScheduleSaved (content : state_file)
| ScheduleRemoved
| NologinRemoved
| UtmpWritten (verb : string)
| Wall (text : string).

(** * The manager *)

Record manager := mkManager {
  m_devices : gmap string device;
  m_seats : gmap string seat;
  m_sessions : gmap string session;
  m_sessions_by_leader : gmap Z string;    (* indexed by the leader's pid *)
  m_users : gmap Z user;
  m_inhibitors : gmap string inhibitor;
  m_buttons : gmap string button;
  m_seat_gc_queue : list string;
  m_session_gc_queue : list string;
  m_user_gc_queue : list Z;
  m_seat0 : option string;
  m_console_active_fd : Z;
  m_do_interrupt : bool;
  m_session_counter : Z;
  m_inhibit_counter : Z;
  m_cgroup_inotify_fd : Z;
  m_cgroup_control_inotify_wd_session : gmap Z string;
  m_act : actions;
  m_conf : config;
  m_trace : list effect;                   (* oldest first *)
}.
#[export] Instance eta_manager : Eta manager := fun m =>
  mkManager (m_devices m) (m_seats m) (m_sessions m) (m_sessions_by_leader m)
    (m_users m) (m_inhibitors m) (m_buttons m) (m_seat_gc_queue m)
    (m_session_gc_queue m) (m_user_gc_queue m) (m_seat0 m) (m_console_active_fd m)
    (m_do_interrupt m) (m_session_counter m) (m_inhibit_counter m)
    (m_cgroup_inotify_fd m) (m_cgroup_control_inotify_wd_session m) (m_act m)
    (m_conf m) (m_trace m).

Abbreviation MM := (M manager).
