(* ===== verification/LoginEnv.v ===== *)
(** The environment of the daemon, and the access to the manager's objects.

    The answers of the kernel, of the bus and of udev are a class of functions:
    one handler runs in one environment, and every theorem holds for all of
    them, so two handlers may see different answers.  Allocation of small
    objects succeeds and the state files can be written; the one allocation
    whose size an input decides, [positions], can fail. *)
From S2P Require Import Prelude Time LoginTypes ActionTypes LoginState.

(** A device of subsystem "drm": that of its parent, its name and two attributes;
    [None] where sd-device fails. *)
Record drm_device := mkDrmDevice {
  drm_parent_subsystem : option string;
  drm_sysname : option string;
  drm_enabled : option string;
  drm_status : option string;
}.

(** What [sd_device] tells of a device; [None] is a call that failed. *)
Record sd_device_info := mkSdDevice {
  dev_action_remove : bool;        (* device_for_action(d, SD_DEVICE_REMOVE) *)
  dev_syspath : option string;
  dev_devname : option string;
  dev_sysname : option string;
  dev_subsystem : string;
  dev_id_seat : option string;     (* the ID_SEAT property *)
  dev_tag_seat : bool;             (* sd_device_has_current_tag(d, "seat") > 0 *)
  dev_tag_master : bool;           (* the same for "master-of-seat" *)
}.

(** What udev tells of an input device. *)
Record button_device := mkButtonDevice {
  bd_sysname : option string;
  bd_remove : bool;
  bd_tag : bool;                   (* tagged power-switch *)
  bd_seat : option string;
}.

Class Env := mkEnv {
  e_now_monotonic : Z;
  e_now_realtime : Z;
  e_now_boottime : Z;
  (* the order in which a hash map is iterated *)
  e_order : list Z → list Z;
  e_order_ids : list string → list string;
  (* the number of pointers that malloc_usable_size() reports for a block
     requested for that many; None: realloc() fails *)
  e_usable : Z → option Z;
  (* files, terminals, devices *)
  e_chvt : Z → Z;
  e_open_terminal : string → Z;
  e_fchown : Z → Z;
  e_tty_owner : Z → Z + Z;                    (* fstat(): an error or the owner *)
  e_vt_ioctl : string → Z → Z;
  e_vt_restore : Z → Z;
  e_vt_release : Z → Z;
  e_lstat_atime : string → option Z;
  e_ctty : Z → option string;
  e_open : string → Z;
  e_drm_set_master : Z → nat → Z;             (* the answer to the n-th attempt *)
  e_mkfifo : string → Z;
  e_open_fifo_read : string → Z;
  e_open_fifo_write : string → Z;
  e_pipe_eof : Z → Z;
  e_console_lseek : Z;
  e_console_read : Z;
  e_console_vtnr : Z;                         (* what vtnr_from_tty() makes of it *)
  (* the device of a device number, and its parent of subsystem "input" *)
  e_device_from_devnum : Z → Z + (sd_device_info * option sd_device_info);
  (* what a variable holds that was never written *)
  e_uninit_timestamp : dual_timestamp;
  (* processes, users, control groups *)
  e_pid_is_alive : pidref → Z;
  e_pidref_kill : pidref → Z → Z;
  e_audit_session : pidref → option Z;
  e_linger : string → Z;                      (* access() of the linger file *)
  e_user_runtime_dir : string → Z → Z;
  e_clean_ipc : Z → Z;
  e_uid_is_system : Z → bool;                 (* the range is a build option *)
  e_cg_is_empty_recursive : string → Z;
  e_cg_all_unified : Z;
  e_cg_unified_controller : Z;
  e_cg_create : string → Z;
  e_cg_set_access : string → Z;
  e_cg_attach : string → Z → Z;
  e_cg_get_path : string → Z;
  e_cg_kill_recursive : string → Z → Z;
  e_inotify_add_watch : Z → string → Z;
  (* the event loop, the bus, the service manager's fd store *)
  e_event_add : string → Z;                   (* sd_event_add_*(), by the source *)
  e_event_set_time : Z;
  e_event_finished : bool;
  e_bus_track_new : Z;
  e_bus_track_add_name : string → Z;
  e_notify_push_fd : string → Z;
  (* the user database, /proc, pidfds *)
  e_userdb_by_uid : Z → Z + user_record;
  e_pidref_set_pid : Z → Z + pidref;
  e_pidref_set_pidfd : Z → Z + pidref;
  e_pidref_verify : pidref → Z;
  e_getpid : Z;
  e_process_ppid : Z → Z + Z;
  e_cg_pid_get_session : Z → option string;
  (* the linger directory *)
  e_mkdir_linger : Z;
  e_touch : string → Z;
  e_unlink : string → Z;
  (* the contents of a file; what an int variable holds that was never written *)
  e_read_file : string → Z + string;
  e_uninit_int : Z;
  (* power: safe_fork() as the parent sees it, an error or the child; the status
     that waitpid() stores, if any; what the kernel can do *)
  e_fork : string → Z + Z;
  e_waitpid : Z → option Z;
  e_sleep_supported : SleepOperation → Z;
  e_sleep_disabled : SleepOperation → bool;   (* by the configuration *)
  e_sleep_config : Z + (bool * bool);         (* allow_poweroff_, allow_suspend_interrupts *)
  e_kexec : Z;                                (* access(KEXEC, X_OK) *)
  e_kexec_loaded : bool;
  e_run_nologin : Z;
  e_maintenance_time : option (Z + Z);        (* when it comes next, if one is configured *)
  e_active_uid : option Z;                    (* a user with an active session *)
  e_format_timestamp : Z → string;
  (* the schedule file: making its temporary file; flushing and renaming it *)
  e_schedule_open : Z;
  e_schedule_close : Z;
  (* input devices: EVIOCGBIT by event type, EVIOCGKEY, EVIOCGSW, each an error
     or a bit set; EVIOCGNAME; EVIOCSMASK by event type *)
  e_input_bits : Z → Z → Z + Z;
  e_input_keys : Z → Z + Z;
  e_input_switches : Z → Z + Z;
  e_input_name : Z → Z;
  e_input_set_mask : Z → Z → Z;
  (* the devices of subsystem "drm"; on_ac_power() *)
  e_drm_devices : Z + list drm_device;
  e_on_ac_power : Z;
  (* the build option of what happens to processes at logout *)
  e_kill_user_processes : bool;
  (* the start: a directory, an errno or its entries, each a name and whether it
     is a file, and the errno its reading ends with; the devices of udev *)
  e_directory : string → Z + (list (string * bool) * Z);
  e_seat_devices : Z + list sd_device_info;
  e_button_devices : Z + list button_device;
  e_userdb_by_name : string → Z + user_record;
  e_name_has_owner : string → Z;              (* bus_name_has_owner() *)
  (* the descriptors that were passed on, an errno or their names and numbers;
     fstat() of one, an errno or the number of the character device *)
  e_listen_fds : Z + list (string * Z);
  e_fstat_rdev : Z → Z + option Z;
}.

(** What the code relies on: [malloc_usable_size] reports at least the size
    asked for, the monotonic clock has started and is far from its end, a watch
    needs an inotify descriptor, a hash map iteration visits every entry once,
    the errors of udev are negative, a terminal name that could be read from the
    console is of no VT 0, and a reference to a process is to that process. *)
Class EnvOk {E : Env} : Prop := mkEnvOk {
  e_usable_ok : ∀ n k, e_usable n = Some k → n ≤ k;
  e_now_monotonic_ok : 0 < e_now_monotonic < USEC_INFINITY;
  e_inotify_ok : ∀ fd path, fd < 0 → e_inotify_add_watch fd path < 0;
  e_order_ok : ∀ l, Permutation (e_order l) l;
  e_device_error_ok : ∀ dev r, e_device_from_devnum dev = inl r → r < 0;
  e_order_ids_ok : ∀ l, Permutation (e_order_ids l) l;
  e_console_vtnr_ok : 0 < e_console_read → e_console_lseek >= 0 → e_console_vtnr ≠ 0;
  e_pidref_set_pid_ok : ∀ pid p, 0 < pid → e_pidref_set_pid pid = inr p → p_pid p = pid;
}.

(** * Access to the objects *)

Definition get_session (id : string) : MM session :=
  o <- gets (λ m, m_sessions m !! id) ;; deref o.
Definition get_seat (id : string) : MM seat :=
  o <- gets (λ m, m_seats m !! id) ;; deref o.
Definition get_user (uid : Z) : MM user :=
  o <- gets (λ m, m_users m !! uid) ;; deref o.
Definition get_device (sysfs : string) : MM device :=
  o <- gets (λ m, m_devices m !! sysfs) ;; deref o.

Definition upd_session (id : string) (f : session → session) : MM unit :=
  s <- get_session id ;; modify (λ m, m <| m_sessions := <[id := f s]> (m_sessions m) |>).
Definition upd_seat (id : string) (f : seat → seat) : MM unit :=
  s <- get_seat id ;; modify (λ m, m <| m_seats := <[id := f s]> (m_seats m) |>).
Definition upd_user (uid : Z) (f : user → user) : MM unit :=
  u <- get_user uid ;; modify (λ m, m <| m_users := <[uid := f u]> (m_users m) |>).
Definition upd_device (sysfs : string) (f : device → device) : MM unit :=
  d <- get_device sysfs ;; modify (λ m, m <| m_devices := <[sysfs := f d]> (m_devices m) |>).

(** The device [dev] of session [sid], and its update in the session's table. *)
Definition get_sd (sid : string) (dev : Z) : MM session_device :=
  s <- get_session sid ;; deref (s_devices s !! dev).
Definition upd_sd (sid : string) (dev : Z) (f : session_device → session_device) : MM unit :=
  s <- get_session sid ;;
  d <- deref (s_devices s !! dev) ;;
  upd_session sid (λ s, s <| s_devices := <[dev := f d]> (s_devices s) |>).

Definition emit (ev : effect) : MM unit := modify (λ m, m <| m_trace := m_trace m ++ [ev] |>).

Definition opt_string_eqb (a b : option string) : bool := bool_decide (a = b).

Section Access.
  Context (Q : unit → manager → Prop).

Lemma wp_get_session id s (P : session → manager → Prop) m :
    m_sessions m !! id = Some s → P s m → wp (get_session id) P m.
  Proof. intros H HP. unfold wp, get_session, bind, gets. by rewrite H. Qed.
Lemma wp_get_seat id s (P : seat → manager → Prop) m :
    m_seats m !! id = Some s → P s m → wp (get_seat id) P m.
  Proof. intros H HP. unfold wp, get_seat, bind, gets. by rewrite H. Qed.
Lemma wp_get_user id s (P : user → manager → Prop) m :
    m_users m !! id = Some s → P s m → wp (get_user id) P m.
  Proof. intros H HP. unfold wp, get_user, bind, gets. by rewrite H. Qed.
Lemma wp_get_device id s (P : device → manager → Prop) m :
    m_devices m !! id = Some s → P s m → wp (get_device id) P m.
  Proof. intros H HP. unfold wp, get_device, bind, gets. by rewrite H. Qed.

Lemma wp_upd_session id s f m :
    m_sessions m !! id = Some s →
    Q tt (m <| m_sessions := <[id := f s]> (m_sessions m) |>) → wp (upd_session id f) Q m.
  Proof. intros H HQ. apply wp_bind. by eapply wp_get_session. Qed.
Lemma wp_upd_seat id s f m :
    m_seats m !! id = Some s →
    Q tt (m <| m_seats := <[id := f s]> (m_seats m) |>) → wp (upd_seat id f) Q m.
  Proof. intros H HQ. apply wp_bind. by eapply wp_get_seat. Qed.
Lemma wp_upd_user id s f m :
    m_users m !! id = Some s →
    Q tt (m <| m_users := <[id := f s]> (m_users m) |>) → wp (upd_user id f) Q m.
  Proof. intros H HQ. apply wp_bind. by eapply wp_get_user. Qed.
Lemma wp_upd_device id s f m :
    m_devices m !! id = Some s →
    Q tt (m <| m_devices := <[id := f s]> (m_devices m) |>) → wp (upd_device id f) Q m.
  Proof. intros H HQ. apply wp_bind. by eapply wp_get_device. Qed.
End Access.
