(* ===== verification/Bus.v ===== *)
(** What the D-Bus methods of the objects share: the message a method is called
    with, how it ends, and how the objects named in a message are found
    ([src/src/login/logind-dbus.c], [logind-polkit.c]). *)
From Stdlib Require Import Ascii.
From S2P Require Import Prelude Time LoginTypes ActionTypes LoginState LoginEnv Parse Escape.

(** What the daemon asks the bus about a message: the sender's name and
    credentials, an error of the query standing for all of them; the verdict
    of [bus_verify_polkit_async] by the action; whether the reply could be
    sent; and whether the property container of CreateSession can be entered
    and left. *)
Record message := mkMessage {
  msg_sender : string;
  msg_member : string;
  msg_euid : Z + Z;
  msg_session : Z + string;
  msg_owner_uid : Z + Z;
  msg_pidref : Z + pidref;
  msg_polkit : string → Z;
  msg_reply : Z;
  msg_enter_container : Z;
  msg_exit_container : Z;
  (* the uid and the terminal of the sender, where the bus knows them *)
  msg_creds : Z + (option Z * option string);
}.

(** How a method ends: with a reply, which may carry a device or a session;
    with none, because polkit will call back; with an errno; with an error of
    its own. *)
Inductive outcome :=
| Reply
| ReplyDevice (fd : Z) (inactive : bool)
| ReplySession (id : string) (fifo_fd uid : Z) (seat : string) (vtnr : Z)
| ReplyFd (fd : Z)
| ReplyBool (b : bool)
| ReplyString (s : string)
| Later
| Errno (r : Z)
| BusError (name : string).

Definition SD_BUS_ERROR_INVALID_ARGS : string := "org.freedesktop.DBus.Error.InvalidArgs".
Definition SD_BUS_ERROR_NOT_SUPPORTED : string := "org.freedesktop.DBus.Error.NotSupported".
Definition SD_BUS_ERROR_ACCESS_DENIED : string := "org.freedesktop.DBus.Error.AccessDenied".
Definition SD_BUS_ERROR_LIMITS_EXCEEDED : string := "org.freedesktop.DBus.Error.LimitsExceeded".
Definition BUS_ERROR_NO_SUCH_SESSION : string := "org.freedesktop.login1.NoSuchSession".
Definition BUS_ERROR_NO_SESSION_FOR_PID : string := "org.freedesktop.login1.NoSessionForPID".
Definition BUS_ERROR_NO_SUCH_USER : string := "org.freedesktop.login1.NoSuchUser".
Definition BUS_ERROR_NO_USER_FOR_PID : string := "org.freedesktop.login1.NoUserForPID".
Definition BUS_ERROR_NO_SUCH_SEAT : string := "org.freedesktop.login1.NoSuchSeat".
Definition BUS_ERROR_SESSION_NOT_ON_SEAT : string := "org.freedesktop.login1.SessionNotOnSeat".
Definition BUS_ERROR_NOT_IN_CONTROL : string := "org.freedesktop.login1.NotInControl".
Definition BUS_ERROR_DEVICE_IS_TAKEN : string := "org.freedesktop.login1.DeviceIsTaken".
Definition BUS_ERROR_DEVICE_NOT_TAKEN : string := "org.freedesktop.login1.DeviceNotTaken".
Definition BUS_ERROR_SESSION_BUSY : string := "org.freedesktop.login1.SessionBusy".
Definition BUS_ERROR_OPERATION_IN_PROGRESS : string := "org.freedesktop.login1.OperationInProgress".
Definition BUS_ERROR_SLEEP_VERB_NOT_SUPPORTED : string := "org.freedesktop.login1.SleepVerbNotSupported".
Definition BUS_ERROR_DESIGNATED_MAINTENANCE_TIME_NOT_SCHEDULED : string := "org.freedesktop.login1.DesignatedMaintenanceTimeNotScheduled".
Definition SD_BUS_ERROR_AUTH_FAILED : string := "org.freedesktop.DBus.Error.AuthFailed".

(** [return r] of an error, the method's reply otherwise. *)
Definition reply_or (r : Z) : outcome := if r <? 0 then Errno r else Reply.

(** The rest of a method after its polkit check. *)
Definition polkit (msg : message) (action : string) (k : MM outcome) : MM outcome :=
  let r := msg_polkit msg action in
  if r <? 0 then ret (Errno r) else if r =? 0 then ret Later else k.
Definition check_polkit_chvt (msg : message) (k : MM outcome) : MM outcome :=
  polkit msg "org.freedesktop.login1.chvt" k.
Definition polkit_manage (msg : message) (k : MM outcome) : MM outcome :=
  polkit msg "org.freedesktop.login1.manage" k.

(** A step that may end the method. *)
Definition try {A} (c : MM (outcome + A)) (k : A → MM outcome) : MM outcome :=
  r <- c ;; match r with inl o => ret o | inr a => k a end.
Definition attempt {A} (c : Z + A) (k : A → MM outcome) : MM outcome :=
  match c with inl r => ret (Errno r) | inr a => k a end.
Definition try_out {A B} (c : MM (outcome + A)) (k : A → MM (outcome + B)) : MM (outcome + B) :=
  r <- c ;; match r with inl o => ret (inl o) | inr a => k a end.

Section Bus.
Context {E : Env}.

(** The SESSION_IS_* and SEAT_IS_* tests. *)
Definition isempty (s : string) : bool := bool_decide (s = EmptyString).
Definition SESSION_IS_SELF (name : string) : bool := isempty name || bool_decide (name = "self"%string).
Definition SESSION_IS_AUTO (name : string) : bool := bool_decide (name = "auto"%string).

Definition no_session_for_pid {A} : outcome + A := inl (BusError BUS_ERROR_NO_SESSION_FOR_PID).

Definition get_sender_session (msg : message) (consult_display : bool) : MM (outcome + string) :=
  match msg_session msg with
  | inr name =>
      o <- gets (λ m, m_sessions m !! name) ;;
      ret (match o with Some _ => inr name | None => no_session_for_pid end)
  | inl r =>
      if negb (r =? - ENXIO) then ret (inl (Errno r))
      else if negb consult_display then ret no_session_for_pid
      else match msg_owner_uid msg with
           | inl r => ret (if negb (r =? - ENXIO) then inl (Errno r) else no_session_for_pid)
           | inr uid =>
               o <- gets (λ m, m_users m !! uid) ;;
               ret (match o with
                    | Some u => match u_display u with
                                | Some sid => inr sid
                                | None => no_session_for_pid
                                end
                    | None => no_session_for_pid
                    end)
           end
  end.

Definition manager_get_session_from_creds (msg : message) (name : string) : MM (outcome + string) :=
  if SESSION_IS_SELF name then get_sender_session msg false
  else if SESSION_IS_AUTO name then get_sender_session msg true
  else
    o <- gets (λ m, m_sessions m !! name) ;;
    ret (match o with Some _ => inr name | None => inl (BusError BUS_ERROR_NO_SUCH_SESSION) end).

Definition get_sender_user (msg : message) : MM (outcome + Z) :=
  match msg_owner_uid msg with
  | inl r => ret (inl (if negb (r =? - ENXIO) then Errno r else BusError BUS_ERROR_NO_USER_FOR_PID))
  | inr uid =>
      o <- gets (λ m, m_users m !! uid) ;;
      ret (match o with Some _ => inr uid | None => inl (BusError BUS_ERROR_NO_USER_FOR_PID) end)
  end.

Definition manager_get_user_from_creds (msg : message) (uid : Z) : MM (outcome + Z) :=
  if negb (uid_is_valid uid) then get_sender_user msg
  else
    o <- gets (λ m, m_users m !! uid) ;;
    ret (match o with Some _ => inr uid | None => inl (BusError BUS_ERROR_NO_SUCH_USER) end).

(** SEAT_IS_SELF and SEAT_IS_AUTO are the same tests. *)
Definition manager_get_seat_from_creds (msg : message) (name : string) : MM (outcome + string) :=
  if SESSION_IS_SELF name || SESSION_IS_AUTO name then
    try_out (manager_get_session_from_creds msg name) (λ sid,
      s <- get_session sid ;;
      ret (match s_seat s with
           | Some k => inr k
           | None => inl (BusError BUS_ERROR_NO_SUCH_SEAT)
           end))
  else
    o <- gets (λ m, m_seats m !! name) ;;
    ret (match o with Some _ => inr name | None => inl (BusError BUS_ERROR_NO_SUCH_SEAT) end).

(** [SIGNAL_VALID] (signal-util.h), [_NSIG] is 65. *)
Definition SIGNAL_VALID (signo : Z) : bool := (0 <? signo) && (signo <? 65).

(** [string_is_safe] (string-util.c): the C char is signed. *)
Definition string_is_safe (p : string) : bool :=
  string_forallb (λ c,
    negb ((0 <? code c) && (code c <? 32))
    && negb (in_set c [dquote; squote; backslash; ascii_of_nat 127])) p.

(** [strstr(haystack, needle) != NULL]. *)
Fixpoint strstr (s needle : string) : bool :=
  is_some (startswith s needle)
  || match s with EmptyString => false | String _ s' => strstr s' needle end.
End Bus.
