(* ===== verification/Objects.v ===== *)
(** Reading the objects and telling others about them: the predicates on seats,
    sessions and users, the states and idle hints derived from them, the D-Bus
    property signals, and the state files
    ([src/src/login/logind-session.c], [logind-seat.c], [logind-user.c] and the
    [*-dbus.c] signal helpers). *)
From stdpp Require Import pretty.
From Stdlib Require Import Ascii.
From S2P Require Import Prelude Time LoginTypes ActionTypes Escape LoginState LoginEnv.
#[local] Open Scope list_scope.

(** * Signals *)

Definition session_send_changed (sid : string) (properties : list string) : MM unit :=
  s <- get_session sid ;;
  when (s_started s) (emit (PropertiesChanged (SessionObj sid) properties)).
Definition seat_send_changed (k : string) (properties : list string) : MM unit :=
  s <- get_seat k ;;
  when (se_started s) (emit (PropertiesChanged (SeatObj k) properties)).
Definition user_send_changed (uid : Z) (properties : list string) : MM unit :=
  u <- get_user uid ;;
  when (u_started u) (emit (PropertiesChanged (UserObj uid) properties)).
Definition manager_send_changed (properties : list string) : MM unit :=
  emit (PropertiesChanged ManagerObj properties).

Definition send_signal (o : bus_object) (is_new : bool) : MM unit :=
  emit (if is_new then ObjectNew o else ObjectRemoved o).
Definition session_send_signal (sid : string) := send_signal (SessionObj sid).
Definition seat_send_signal (k : string) := send_signal (SeatObj k).
Definition user_send_signal (uid : Z) := send_signal (UserObj uid).

(** * Seats *)

Definition seat_is_seat0 (k : string) : MM bool :=
  gets (λ m, bool_decide (m_seat0 m = Some k)).
Definition seat_has_vts (k : string) : MM bool :=
  b <- seat_is_seat0 k ;;
  fd <- gets m_console_active_fd ;;
  ret (b && (0 <=? fd)).
Definition seat_can_tty (k : string) : MM bool := seat_has_vts k.
(** The list is ordered by the "master" flag: only its head is looked at. *)
Definition seat_has_master_device (k : string) : MM bool :=
  s <- get_seat k ;;
  match se_devices s with
  | [] => ret false
  | d :: _ => dv <- get_device d ;; ret (d_master dv)
  end.
Definition seat_can_graphical (k : string) : MM bool := seat_has_master_device k.

(** * The garbage-collection queues: LIST_PREPEND, once *)

Definition seat_add_to_gc_queue (k : string) : MM unit :=
  s <- get_seat k ;;
  if se_in_gc_queue s then ret tt
  else
    modify (λ m, m <| m_seat_gc_queue := k :: m_seat_gc_queue m |>) ;;;
    upd_seat k (λ s, s <| se_in_gc_queue := true |>).
Definition session_add_to_gc_queue (sid : string) : MM unit :=
  s <- get_session sid ;;
  if s_in_gc_queue s then ret tt
  else
    modify (λ m, m <| m_session_gc_queue := sid :: m_session_gc_queue m |>) ;;;
    upd_session sid (λ s, s <| s_in_gc_queue := true |>).
Definition user_add_to_gc_queue (uid : Z) : MM unit :=
  u <- get_user uid ;;
  if u_in_gc_queue u then ret tt
  else
    modify (λ m, m <| m_user_gc_queue := uid :: m_user_gc_queue m |>) ;;;
    upd_user uid (λ u, u <| u_in_gc_queue := true |>).

(** * Sessions *)

Definition session_is_active (sid : string) : MM bool :=
  s <- get_session sid ;;
  match s_seat s with
  | None => ret true
  | Some k => st <- get_seat k ;; ret (bool_decide (se_active st = Some sid))
  end.

Definition session_get_state (sid : string) : MM SessionState :=
  s <- get_session sid ;;
  if s_stopping s || is_some (s_timer_event_source s) then ret SESSION_CLOSING
  else if negb (pidref_is_set (s_leader s)) && (s_fifo_fd s <? 0) then ret SESSION_OPENING
  else
    active <- session_is_active sid ;;
    ret (if (active : bool) then SESSION_ACTIVE else SESSION_ONLINE).

Section WithEnv.
Context {E : Env}.

(** [get_tty_atime]: a relative name is taken below /dev, an absolute path must
    be below /dev/. *)
Definition get_tty_atime (tty : string) : option Z :=
  match startswith tty "/" with
  | None => e_lstat_atime ("/dev/" +:+ tty)
  | Some _ =>
      match startswith tty "/dev/" with
      | None => None
      | Some _ => e_lstat_atime tty
      end
  end.
Definition get_process_ctty_atime (pid : Z) : option Z :=
  match e_ctty pid with None => None | Some p => get_tty_atime p end.

(** The access time that stands for a session's activity: of its tty, else of
    the controlling tty of its leader. *)
Definition session_tty_atime (s : session) : option Z :=
  if bool_decide (s_type s = SESSION_TTY) then
    match from_option get_tty_atime None (s_tty s) with
    | Some a => Some a
    | None =>
        if pidref_is_set (s_leader s) then get_process_ctty_atime (p_pid (s_leader s)) else None
    end
  else None.

(** [session_get_idle_hint(s, t)]: the hint, and [*t] afterwards; [t0] is what
    [*t] held before.  A class that cannot idle leaves [*t] alone. *)
Definition session_get_idle_hint (sid : string) (t0 : dual_timestamp)
  : MM (bool * dual_timestamp) :=
  s <- get_session sid ;;
  if negb (SESSION_CLASS_CAN_IDLE (s_class s)) then ret (false, t0)
  else if SESSION_TYPE_IS_GRAPHICAL (s_type s) then
    ret (s_idle_hint s, s_idle_hint_timestamp s)
  else
    match session_tty_atime s with
    | None => ret (false, DUAL_TIMESTAMP_NULL)
    | Some atime =>
        c <- gets m_conf ;;
        let t := dual_timestamp_from_realtime atime e_now_realtime e_now_monotonic in
        let idle := c_idle_action_usec c in
        let stop := c_stop_idle_session_usec c in
        let late dtime := usec_add atime dtime <=? e_now_realtime in
        ret (if (0 <? idle) && negb (stop =? USEC_INFINITY) then late (Z.min idle stop)
             else if 0 <? idle then late idle
             else if negb (stop =? USEC_INFINITY) then late stop
             else false, t)
    end.

(** * Users *)

(** [user_check_linger_file]: 1, 0 when there is no such file, or the error. *)
Definition user_check_linger_file (u : user) : Z :=
  let r := e_linger ("/var/lib/elogind/linger/" +:+ cescape (ur_name (u_user_record u))) in
  if r <? 0 then (if r =? - ENOENT then 0 else r) else 1.

(** The loop over the sessions of [user_get_state]: [Some] state returns it at
    once, otherwise whether all of them are closing. *)
Fixpoint user_state_loop (gc_mode : UserGCMode) (all_closing : bool) (l : list string)
  : MM (UserState + bool) :=
  match l with
  | [] => ret (inr all_closing)
  | i :: l' =>
      s <- get_session i ;;
      let pinned := SESSION_CLASS_PIN_USER (s_class s) in
      if bool_decide (gc_mode = USER_GC_BY_PIN) && negb pinned then
        user_state_loop gc_mode all_closing l'
      else
        state <- session_get_state i ;;
        if bool_decide (state = SESSION_ACTIVE) && pinned then ret (inl USER_ACTIVE)
        else user_state_loop gc_mode
               (if bool_decide (state = SESSION_CLOSING) then all_closing else false) l'
  end.

Definition user_get_state (uid : Z) : MM UserState :=
  u <- get_user uid ;;
  if u_stopping u then ret USER_CLOSING
  else if negb (u_started u) then ret USER_OPENING
  else
    r <- user_state_loop (u_gc_mode u) true (u_sessions u) ;;
    match r with
    | inl state => ret state
    | inr all_closing =>
        if 0 <? user_check_linger_file u then ret USER_LINGERING
        else ret (if (all_closing : bool) then USER_CLOSING else USER_ONLINE)
    end.
End WithEnv.

(** * State files *)

Definition one_zero (b : bool) : string := if b then "1" else "0".
Definition yes_no (b : bool) : string := if b then "yes" else "no".
Definition opt_line (key : string) (v : option string) : state_file :=
  match v with Some x => [(key, x)] | None => [] end.
Definition when_line (b : bool) (key value : string) : state_file :=
  if b then [(key, value)] else [].

(** [gnu_dev_major] and [gnu_dev_minor] of the C library. *)
Definition dev_major (dev : Z) : Z :=
  Z.lor (Z.shiftr (Z.land dev 0x00000000000fff00) 8)
        (Z.shiftr (Z.land dev 0xfffff00000000000) 32).
Definition dev_minor (dev : Z) : Z :=
  Z.lor (Z.land dev 0xff) (Z.shiftr (Z.land dev 0x00000ffffff00000) 12).

Definition AUDIT_SESSION_INVALID : Z := 2 ^ 32 - 1.
Definition audit_session_is_valid (id : Z) : bool :=
  (0 <? id) && negb (id =? AUDIT_SESSION_INVALID).

Fixpoint concat_with (sep : string) (l : list string) : string :=
  match l with
  | [] => EmptyString
  | [x] => x
  | x :: l' => x +:+ sep +:+ concat_with sep l'
  end.

Section Save.
Context {E : Env}.

(** [session_save_devices]: every number is followed by a space. *)
Definition session_save_devices (s : session) : state_file :=
  match e_order (fst <$> map_to_list (s_devices s)) with
  | [] => []
  | l => [("DEVICES", foldr (λ d acc, pretty (dev_major d) +:+ ":" +:+ pretty (dev_minor d)
                                      +:+ " " +:+ acc) EmptyString l)]
  end.

(** The lines of a session's file; [active], [state], [vts] and [u] are what the
    session's seat and user say. *)
Definition session_lines (sid : string) (s : session) (u : user) (active vts : bool)
    (state : SessionState) : state_file :=
  [("UID", pretty (ur_uid (u_user_record u)));
   ("USER", ur_name (u_user_record u));
   ("ACTIVE", one_zero active);
   ("IS_DISPLAY", one_zero (bool_decide (u_display u = Some sid)));
   ("STATE", default EmptyString (to_string state));
   ("REMOTE", one_zero (s_remote s));
   ("LEADER_FD_SAVED", one_zero (s_leader_fd_saved s))]
  ++ opt_line "TYPE" (to_string (s_type s))
  ++ opt_line "ORIGINAL_TYPE" (to_string (s_original_type s))
  ++ opt_line "CLASS" (to_string (s_class s))
  ++ opt_line "SCOPE" (s_scope s)
  ++ opt_line "FIFO" (s_fifo_path s)
  ++ opt_line "SEAT" (s_seat s)
  ++ opt_line "TTY" (s_tty s)
  ++ opt_line "TTY_VALIDITY" (s_tty_validity s ≫= to_string)
  ++ opt_line "DISPLAY" (s_display s)
  ++ opt_line "REMOTE_HOST" (cescape <$> s_remote_host s)
  ++ opt_line "REMOTE_USER" (cescape <$> s_remote_user s)
  ++ opt_line "SERVICE" (cescape <$> s_service s)
  ++ opt_line "DESKTOP" (cescape <$> s_desktop s)
  ++ when_line (is_some (s_seat s) && vts) "VTNR" (pretty (s_vtnr s))
  ++ when_line (s_vtnr s =? 0) "POSITION" (pretty (s_position s))
  ++ when_line (pidref_is_set (s_leader s)) "LEADER" (pretty (p_pid (s_leader s)))
  ++ when_line (audit_session_is_valid (s_audit_id s)) "AUDIT" (pretty (s_audit_id s))
  ++ (if dual_timestamp_is_set (s_timestamp s)
      then [("REALTIME", pretty (realtime (s_timestamp s)));
            ("MONOTONIC", pretty (monotonic (s_timestamp s)))] else [])
  ++ (match s_controller s with
      | Some c => ("CONTROLLER", c) :: session_save_devices s
      | None => []
      end).

Definition session_save (sid : string) : MM Z :=
  s <- get_session sid ;;
  match s_user s with
  | None => ret (- ESTALE)
  | Some uid =>
      if negb (s_started s) then ret 0
      else
        u <- get_user uid ;;
        active <- session_is_active sid ;;
        state <- session_get_state sid ;;
        vts <- (match s_seat s with Some k => seat_has_vts k | None => ret false end) ;;
        emit (FileSaved (SessionObj sid) (session_lines sid s u active vts state)) ;;;
        ret 0
  end.

(** The uid of a session's user; both pointers are dereferenced. *)
Definition session_uid (sid : string) : MM Z :=
  s <- get_session sid ;;
  uid <- deref (s_user s) ;;
  u <- get_user uid ;;
  ret (ur_uid (u_user_record u)).

Fixpoint map_m {A B} (f : A → MM B) (l : list A) : MM (list B) :=
  match l with
  | [] => ret []
  | x :: l' => y <- f x ;; ys <- map_m f l' ;; ret (y :: ys)
  end.

Definition seat_save (k : string) : MM Z :=
  s <- get_seat k ;;
  if negb (se_started s) then ret 0
  else
    is_seat0 <- seat_is_seat0 k ;;
    can_tty <- seat_can_tty k ;;
    can_graphical <- seat_can_graphical k ;;
    active <- (match se_active s with
               | None => ret []
               | Some a =>
                   _ <- get_session a ;;
                   uid <- session_uid a ;;
                   ret [("ACTIVE", a); ("ACTIVE_UID", pretty uid)]
               end) ;;
    uids <- map_m session_uid (se_sessions s) ;;
    emit (FileSaved (SeatObj k)
      ([("IS_SEAT0", one_zero is_seat0); ("CAN_MULTI_SESSION", "1");
        ("CAN_TTY", one_zero can_tty); ("CAN_GRAPHICAL", one_zero can_graphical)]
       ++ active
       ++ match se_sessions s with
          | [] => []
          | l => [("SESSIONS", concat_with " " l);
                  ("UIDS", concat_with " " (pretty <$> uids))]
          end)) ;;;
    ret 0.

(** Per session of a user: its id, its seat, whether it is active and closing. *)
Definition user_session_info (i : string) : MM (string * option string * bool * bool) :=
  s <- get_session i ;;
  active <- session_is_active i ;;
  state <- session_get_state i ;;
  ret (i, s_seat s, active, bool_decide (state = SESSION_CLOSING)).

Definition user_save_internal (uid : Z) : MM Z :=
  u <- get_user uid ;;
  state <- user_get_state uid ;;
  infos <- map_m user_session_info (u_sessions u) ;;
  let ids (f : bool → bool → bool) := concat_with " "
    (omap (λ '(i, _, active, closing), if f active closing then Some i else None) infos) in
  let seats (f : bool → bool → bool) := concat_with " "
    (omap (λ '(_, k, active, closing), if f active closing then k else None) infos) in
  emit (FileSaved (UserObj uid)
    ([("NAME", ur_name (u_user_record u));
      ("STATE", default EmptyString (to_string state));
      ("STOPPING", yes_no (u_stopping u));
      ("GC_MODE", default EmptyString (to_string (u_gc_mode u)));
      ("RUNTIME", "/run/user/" +:+ pretty (ur_uid (u_user_record u)))]
     ++ opt_line "DISPLAY" (u_display u)
     ++ (if dual_timestamp_is_set (u_timestamp u)
         then [("REALTIME", pretty (realtime (u_timestamp u)));
               ("MONOTONIC", pretty (monotonic (u_timestamp u)))] else [])
     ++ when_line (negb (u_last_session_timestamp u =? USEC_INFINITY))
          "LAST_SESSION_TIMESTAMP" (pretty (u_last_session_timestamp u))
     ++ match u_sessions u with
        | [] => []
        | _ => [("SESSIONS", ids (λ _ _, true));
                ("SEATS", seats (λ _ _, true));
                ("ACTIVE_SESSIONS", ids (λ a _, a));
                ("ONLINE_SESSIONS", ids (λ _ c, negb c));
                ("ACTIVE_SEATS", seats (λ a _, a));
                ("ONLINE_SEATS", seats (λ _ c, negb c))]
        end)) ;;;
  ret 0.

Definition user_save (uid : Z) : MM Z :=
  u <- get_user uid ;;
  if negb (u_started u) then ret 0 else user_save_internal uid.
End Save.
