(* ===== verification/SessionDevice.v ===== *)
(** The devices a session controller has taken
    ([src/src/login/logind-session-device.c]): opening, muting and unmuting
    them, and telling the controller.  A session device is named by its session
    and its [dev_t]. *)
From stdpp Require Import pretty.
From Stdlib Require Import Ascii.
From S2P Require Import Prelude Time LoginTypes ActionTypes LoginState LoginEnv Objects.

Definition DRM_SET_MASTER_RETRY_ATTEMPTS : nat := 20.

(** The string argument of the PauseDevice signal. *)
Definition pause_how (type : SessionDeviceNotification) : string :=
  match type with
  | SESSION_DEVICE_TRY_PAUSE => "pause"
  | SESSION_DEVICE_PAUSE => "force"
  | _ => "gone"
  end.

(** [session_device_notify]; no caller looks at its result. *)
Definition session_device_notify (sid : string) (dev : Z)
    (type : SessionDeviceNotification) : MM unit :=
  s <- get_session sid ;;
  sd <- get_sd sid dev ;;
  match s_controller s with
  | None => ret tt
  | Some dest =>
      emit (if bool_decide (type = SESSION_DEVICE_RESUME)
            then ResumeDevice sid dest dev (sd_fd sd)
            else PauseDevice sid dest dev (pause_how type))
  end.

(** [sd_eviocrevoke], [sd_hidiocrevoke]: the kernel knows the ioctl, so their
    static [warned] flags stay false. *)
Definition sd_revoke (type : DeviceType) (fd : Z) : MM unit :=
  assert_se (0 <=? fd) ;;; emit (Revoked type fd).
Definition sd_drmdropmaster (fd : Z) : MM unit :=
  assert_se (0 <=? fd) ;;; emit (DrmDropMaster fd).

Definition session_device_fd_name (sid : string) (dev : Z) : string :=
  "session-" +:+ sid +:+ "-device-" +:+ pretty (dev_major dev) +:+ "-"
  +:+ pretty (dev_minor dev).

(** [*(id + strcspn(id, "-\n")) == '\0']. *)
Definition no_separators (id : string) : bool :=
  string_forallb (λ c, negb (in_set c ["-"%char; Ascii.ascii_of_nat 10])) id.

Section SessionDevice.
Context {E : Env}.

(** The retry loop of [sd_drmsetmaster], attempt [i]. *)
Fixpoint drm_set_master_loop (fuel : nat) (fd : Z) (i : nat) : MM Z :=
  match fuel with
  | O => crash
  | S fuel' =>
      emit (DrmSetMaster fd) ;;;
      let r := e_drm_set_master fd i in
      if negb (r =? - EBUSY) || (DRM_SET_MASTER_RETRY_ATTEMPTS <=? i)%nat then ret r
      else drm_set_master_loop fuel' fd (S i)
  end.
Definition sd_drmsetmaster (fd : Z) : MM Z :=
  assert_se (0 <=? fd) ;;;
  drm_set_master_loop (S DRM_SET_MASTER_RETRY_ATTEMPTS) fd 0.

(** [session_device_open]: the new descriptor, or an error. *)
Definition session_device_open (type : DeviceType) (node : string) (active : bool) : MM Z :=
  assert_se (negb (bool_decide (type = DEVICE_TYPE_UNKNOWN))) ;;;
  let fd := e_open node in
  if fd <? 0 then ret fd
  else
    emit (Opened node fd) ;;;
    match type with
    | DEVICE_TYPE_DRM =>
        if active then
          r <- sd_drmsetmaster fd ;;
          ret (if r <? 0 then r else fd)
        else sd_drmdropmaster fd ;;; ret fd
    | DEVICE_TYPE_EVDEV | DEVICE_TYPE_HIDRAW =>
        when (negb active) (sd_revoke type fd) ;;; ret fd
    | DEVICE_TYPE_UNKNOWN => ret fd
    end.

Definition session_device_start (sid : string) (dev : Z) : MM Z :=
  sd <- get_sd sid dev ;;
  active <- session_is_active sid ;;
  assert_se active ;;;
  if sd_active sd then ret 0
  else
    r <- (match sd_type sd with
          | DEVICE_TYPE_DRM =>
              if sd_fd sd <? 0 then ret (- EBADF) else sd_drmsetmaster (sd_fd sd)
          | DEVICE_TYPE_EVDEV | DEVICE_TYPE_HIDRAW =>
              r <- session_device_open (sd_type sd) (sd_node sd) true ;;
              when (0 <=? r) (upd_sd sid dev (λ d, d <| sd_fd := r |>)) ;;;
              ret r
          | DEVICE_TYPE_UNKNOWN => ret 0
          end) ;;
    if r <? 0 then ret r
    else upd_sd sid dev (λ d, d <| sd_active := true |>) ;;; ret 0.

Definition session_device_stop (sid : string) (dev : Z) : MM unit :=
  sd <- get_sd sid dev ;;
  if negb (sd_active sd) then ret tt
  else
    let stopped := upd_sd sid dev (λ d, d <| sd_active := false |>) in
    match sd_type sd with
    | DEVICE_TYPE_DRM =>
        if sd_fd sd <? 0 then ret tt
        else sd_drmdropmaster (sd_fd sd) ;;; stopped
    | DEVICE_TYPE_EVDEV | DEVICE_TYPE_HIDRAW =>
        sd_revoke (sd_type sd) (sd_fd sd) ;;; stopped
    | DEVICE_TYPE_UNKNOWN => stopped
    end.

Definition session_device_save (sid : string) (dev : Z) : MM Z :=
  sd <- get_sd sid dev ;;
  if sd_pushed_fd sd then ret 0
  else
    assert_se (no_separators sid) ;;;
    let r := e_notify_push_fd (session_device_fd_name sid dev) in
    if r <? 0 then ret r
    else
      emit (FdPushed (session_device_fd_name sid dev)) ;;;
      upd_sd sid dev (λ d, d <| sd_pushed_fd := true |>) ;;;
      ret 1.

Definition session_device_attach_fd (sid : string) (dev fd : Z) (active : bool) : MM unit :=
  assert_se (0 <=? fd) ;;;
  sd <- get_sd sid dev ;;
  assert_se (sd_fd sd <? 0) ;;;
  assert_se (negb (sd_active sd)) ;;;
  upd_sd sid dev (λ d, d <| sd_fd := fd |> <| sd_pushed_fd := true |> <| sd_active := active |>).

Definition session_device_free (sid : string) (dev : Z) : MM unit :=
  sd <- get_sd sid dev ;;
  when (sd_pushed_fd sd) (emit (FdRemoved (session_device_fd_name sid dev))) ;;;
  session_device_stop sid dev ;;;
  session_device_notify sid dev SESSION_DEVICE_RELEASE ;;;
  upd_device (sd_device sd)
    (λ d, d <| d_session_devices := list_remove_all (sid, dev) (d_session_devices d) |>) ;;;
  upd_session sid (λ s, s <| s_devices := delete dev (s_devices s) |>).

(** The numbers of a session's devices, as HASHMAP_FOREACH visits them. *)
Definition device_order (s : session) : list Z := e_order (fst <$> map_to_list (s_devices s)).

(** [while ((sd = hashmap_first(s->devices))) session_device_free(sd)]. *)
Fixpoint free_session_devices (fuel : nat) (sid : string) : MM unit :=
  s <- get_session sid ;;
  match device_order s with
  | [] => ret tt
  | dev :: _ =>
      match fuel with
      | O => crash
      | S fuel' => session_device_free sid dev ;;; free_session_devices fuel' sid
      end
  end.
Definition session_free_devices (sid : string) : MM unit :=
  s <- get_session sid ;;
  free_session_devices (size (s_devices s)) sid.

Definition resume_one (sid : string) (dev : Z) : MM unit :=
  sd <- get_sd sid dev ;;
  if sd_active sd then ret tt
  else
    r <- session_device_start sid dev ;;
    if r <? 0 then ret tt
    else
      r <- session_device_save sid dev ;;
      if r <? 0 then ret tt
      else session_device_notify sid dev SESSION_DEVICE_RESUME.
Definition session_device_resume_all (sid : string) : MM unit :=
  s <- get_session sid ;;
  for_each (resume_one sid) (device_order s).

Definition pause_one (sid : string) (dev : Z) : MM unit :=
  sd <- get_sd sid dev ;;
  if negb (sd_active sd) then ret tt
  else
    session_device_stop sid dev ;;;
    session_device_notify sid dev SESSION_DEVICE_PAUSE.
Definition session_device_pause_all (sid : string) : MM unit :=
  s <- get_session sid ;;
  for_each (pause_one sid) (device_order s).

Definition try_pause_one (sid : string) (num_pending : Z) (dev : Z) : MM Z :=
  sd <- get_sd sid dev ;;
  if negb (sd_active sd) then ret num_pending
  else
    session_device_notify sid dev SESSION_DEVICE_TRY_PAUSE ;;;
    ret (u32 (num_pending + 1)).
Definition session_device_try_pause_all (sid : string) : MM Z :=
  s <- get_session sid ;;
  fold_m (try_pause_one sid) 0 (device_order s).
End SessionDevice.
