(* ===== verification/Seat.v ===== *)
(** Seats ([src/src/login/logind-seat.c]): which session is active, the table
    of positions, attaching sessions, and starting. *)
From S2P Require Import Prelude Time LoginTypes ActionTypes LoginState LoginEnv Objects SessionDevice.

Section Seat.
Context {E : Env}.

(** * The active session *)

Definition seat_apply_acls (k : string) (old_active : option string) : MM unit :=
  s <- get_seat k ;;
  old_uid <- (match old_active with
              | None => ret None
              | Some o => u <- session_uid o ;; ret (Some u)
              end) ;;
  new_uid <- (match se_active s with
              | None => ret None
              | Some a => u <- session_uid a ;; ret (Some u)
              end) ;;
  emit (DevnodeAcl k old_uid new_uid).

(** Saving a session's user: [user_save(session->user)]. *)
Definition session_user_save (sid : string) : MM unit :=
  s <- get_session sid ;;
  uid <- deref (s_user s) ;;
  ignore (user_save uid).

Definition seat_set_active (k : string) (session : option string) : MM unit :=
  s <- get_seat k ;;
  (match session with
   | None => ret tt
   | Some sid => x <- get_session sid ;; assert_se (bool_decide (s_seat x = Some k))
   end) ;;;
  if bool_decide (session = se_active s) then
    match session with
    | None => ret tt
    | Some sid => session_device_resume_all sid
    end
  else
    let old_active := se_active s in
    upd_seat k (λ s, s <| se_active := session |>) ;;;
    (match old_active with
     | None => ret tt
     | Some old =>
         session_device_pause_all old ;;;
         session_send_changed old ["Active"]
     end) ;;;
    seat_apply_acls k old_active ;;;
    started <- (match session with
                | None => ret false
                | Some sid => x <- get_session sid ;; ret (s_started x)
                end) ;;
    (match session with
     | Some sid =>
         when started (session_send_changed sid ["Active"] ;;; session_device_resume_all sid)
     | None => ret tt
     end) ;;;
    when (negb (is_some session) || started) (seat_send_changed k ["ActiveSession"]) ;;;
    ignore (seat_save k) ;;;
    (match session with
     | None => ret tt
     | Some sid => ignore (session_save sid) ;;; session_user_save sid
     end) ;;;
    match old_active with
    | None => ret tt
    | Some old =>
        ignore (session_save old) ;;;
        o <- get_session old ;;
        new_user <- (match session with
                     | None => ret None
                     | Some sid => x <- get_session sid ;; ret (Some (s_user x))
                     end) ;;
        when (negb (bool_decide (new_user = Some (s_user o)))) (session_user_save old)
    end.

Definition seat_complete_switch (k : string) : MM unit :=
  s <- get_seat k ;;
  match se_pending_switch s with
  | None => ret tt
  | Some session =>
      upd_seat k (λ s, s <| se_pending_switch := None |>) ;;;
      seat_set_active k (Some session)
  end.

(** * Virtual terminals *)

(** The first session of the list on VT [vtnr] that passes a test. *)
Fixpoint find_on_vt (p : session → bool) (vtnr : Z) (l : list string) : MM (option string) :=
  match l with
  | [] => ret None
  | i :: l' =>
      s <- get_session i ;;
      if (s_vtnr s =? vtnr) && p s then ret (Some i) else find_on_vt p vtnr l'
  end.

Definition seat_active_vt_changed (k : string) (vtnr : Z) : MM Z :=
  s <- get_seat k ;;
  assert_se (1 <=? vtnr) ;;;
  vts <- seat_has_vts k ;;
  if negb vts then ret (- EINVAL)
  else
    running <- find_on_vt (λ i, negb (s_stopping i)) vtnr (se_sessions s) ;;
    new_active <- (match running with
                   | Some i => ret (Some i)
                   | None => find_on_vt (λ _, true) vtnr (se_sessions s)
                   end) ;;
    seat_set_active k new_active ;;;
    ret 0.

Definition seat_read_active_vt (k : string) : MM Z :=
  vts <- seat_has_vts k ;;
  if negb vts then ret 0
  else if e_console_lseek <? 0 then ret e_console_lseek
  else if e_console_read <=? 0 then ret (if e_console_read =? 0 then - EIO else e_console_read)
  else if e_console_vtnr <? 0 then ret (- EIO)
  else seat_active_vt_changed k e_console_vtnr.

(** * Positions *)

(** [GREEDY_REALLOC0(positions, need)] for pointers of 8 bytes: a block that is
    large enough stays, otherwise one for twice as many pointers (at least 64
    bytes) replaces it, the new part zeroed. *)
Definition greedy_realloc0 (positions : list (option string)) (need : Z)
  : option (list (option string)) :=
  let n := Z.of_nat (length positions) in
  if negb (n =? 0) && (need <=? n) then Some positions
  else
    let newalloc := Z.max (2 * need) 8 in
    match e_usable newalloc with
    | None => None
    | Some k => Some (positions ++ replicate (Z.to_nat (k - n)) None)
    end.

Definition seat_get_position (s : seat) (pos : Z) : option string :=
  if Z.of_nat (length (se_positions s)) <=? pos then None
  else mjoin (se_positions s !! Z.to_nat pos).

(** [s->positions[pos] = v]: a write out of the block is an error. *)
Definition set_position (k : string) (pos : Z) (v : option string) : MM unit :=
  s <- get_seat k ;;
  if (0 <=? pos) && (pos <? Z.of_nat (length (se_positions s))) then
    upd_seat k (λ s, s <| se_positions := <[Z.to_nat pos := v]> (se_positions s) |>)
  else crash.

(** The first session of the list that claims [pos] and is not closing. *)
Fixpoint find_claimant (pos : Z) (l : list string) : MM (option string) :=
  match l with
  | [] => ret None
  | i :: l' =>
      s <- get_session i ;;
      if s_position s =? pos then
        state <- session_get_state i ;;
        if bool_decide (state = SESSION_CLOSING) then find_claimant pos l' else ret (Some i)
      else find_claimant pos l'
  end.

Definition seat_evict_position (k sid : string) : MM unit :=
  x <- get_session sid ;;
  let pos := s_position x in
  upd_session sid (λ x, x <| s_position := 0 |>) ;;;
  if pos =? 0 then ret tt
  else
    s <- get_seat k ;;
    if (pos <? Z.of_nat (length (se_positions s)))
       && bool_decide (se_positions s !! Z.to_nat pos = Some (Some sid)) then
      set_position k pos None ;;;
      c <- find_claimant pos (se_sessions s) ;;
      match c with
      | Some i => set_position k pos (Some i)
      | None => ret tt
      end
    else ret tt.

Definition seat_claim_position (k sid : string) (pos0 : Z) : MM unit :=
  vts <- seat_has_vts k ;;
  x <- get_session sid ;;
  let pos := if (vts : bool) then s_vtnr x else pos0 in
  s <- get_seat k ;;
  match greedy_realloc0 (se_positions s) (u32 (pos + 1)) with
  | None => ret tt
  | Some p =>
      upd_seat k (λ s, s <| se_positions := p |>) ;;;
      seat_evict_position k sid ;;;
      upd_session sid (λ x, x <| s_position := pos |>) ;;;
      when (0 <? pos) (set_position k pos (Some sid))
  end.

(** The first free position from 1 on; the length of the table if there is
    none ([n] counts the positions left). *)
Fixpoint first_free (positions : list (option string)) (pos : nat) : nat :=
  match positions with
  | [] => pos
  | None :: _ => pos
  | Some _ :: l => first_free l (S pos)
  end.
Definition free_position (positions : list (option string)) : Z :=
  Z.of_nat (first_free (drop 1 positions) 1).

Definition seat_assign_position (k sid : string) : MM unit :=
  x <- get_session sid ;;
  if 0 <? s_position x then ret tt
  else
    s <- get_seat k ;;
    seat_claim_position k sid (free_position (se_positions s)).

Definition seat_attach_session (k sid : string) : MM Z :=
  x <- get_session sid ;;
  assert_se (negb (is_some (s_seat x))) ;;;
  vts <- seat_has_vts k ;;
  if negb (bool_decide (negb vts = (s_vtnr x =? 0))) then ret (- EINVAL)
  else
    upd_session sid (λ x, x <| s_seat := Some k |>) ;;;
    upd_seat k (λ s, s <| se_sessions := sid :: se_sessions s |>) ;;;
    seat_assign_position k sid ;;;
    when (negb vts) (seat_set_active k (Some sid)) ;;;
    ret 0.

(** * Starting, idleness, garbage collection *)

Definition seat_start (k : string) : MM Z :=
  s <- get_seat k ;;
  if se_started s then ret 0
  else
    ignore (seat_read_active_vt k) ;;;
    upd_seat k (λ s, s <| se_started := true |>) ;;;
    ignore (seat_save k) ;;;
    seat_send_signal k true ;;;
    ret 0.

(** One round of the loop of [seat_get_idle_hint]; [*k] is a fresh variable. *)
Definition seat_idle_step (acc : bool * dual_timestamp) (sid : string)
  : MM (bool * dual_timestamp) :=
  let '(idle_hint, ts) := acc in
  r <- session_get_idle_hint sid e_uninit_timestamp ;;
  let '(ih, k) := r in
  ret (if negb ih then
         if negb idle_hint then (false, if monotonic ts <? monotonic k then k else ts)
         else (false, k)
       else if (idle_hint : bool) then (true, if monotonic ts <? monotonic k then k else ts)
       else (idle_hint, ts)).

Definition seat_get_idle_hint (k : string) : MM (bool * dual_timestamp) :=
  s <- get_seat k ;;
  fold_m seat_idle_step (true, DUAL_TIMESTAMP_NULL) (se_sessions s).

Definition seat_may_gc (k : string) (drop_not_started : bool) : MM bool :=
  s <- get_seat k ;;
  if drop_not_started && negb (se_started s) then ret true
  else
    is_seat0 <- seat_is_seat0 k ;;
    if (is_seat0 : bool) then ret false
    else
      master <- seat_has_master_device k ;;
      ret (negb master).

Definition new_seat : seat := mkSeat [] None None [] [] false false.

(** [seat_new]: the caller has looked the name up, so [hashmap_put] adds it. *)
Definition seat_new (id : string) : MM Z :=
  if negb (seat_name_is_valid id) then ret (- EINVAL)
  else
    modify (λ m, m <| m_seats := <[id := new_seat]> (m_seats m) |>) ;;;
    ret 0.

Definition manager_add_seat (id : string) : MM Z :=
  o <- gets (λ m, m_seats m !! id) ;;
  match o with
  | Some _ => ret 0
  | None => seat_new id
  end.
End Seat.
