(* ===== verification/Device.v ===== *)
(** The devices of the seats ([src/src/login/logind-device.c]), the udev events
    that add and remove them ([manager_process_seat_device] of logind-core.c),
    and the session devices that need them ([session_device_verify],
    [session_device_new] and [session_device_complete_pause] of
    logind-session-device.c). *)
From S2P Require Import Prelude Time LoginTypes ActionTypes LoginState LoginEnv Objects SessionDevice Seat.

Section Device.
Context {E : Env}.

(** * Seat devices *)

Definition device_new (sysfs : string) (master : bool) : MM unit :=
  modify (λ m, m <| m_devices := <[sysfs := mkDevice None master
                                    (mkDualTimestamp e_now_realtime e_now_monotonic) []]>
                                   (m_devices m) |>).

(** A device that is known may gain the master flag, not lose it. *)
Definition manager_add_device (sysfs : string) (master : bool) : MM unit :=
  o <- gets (λ m, m_devices m !! sysfs) ;;
  match o with
  | Some _ => upd_device sysfs (λ d, d <| d_master := d_master d || master |>)
  | None => device_new sysfs master
  end.

(** [while ((sd = d->session_devices)) session_device_free(sd)]. *)
Fixpoint free_device_users (fuel : nat) (sysfs : string) : MM unit :=
  d <- get_device sysfs ;;
  match d_session_devices d with
  | [] => ret tt
  | (sid, dev) :: _ =>
      match fuel with
      | O => crash
      | S fuel' => session_device_free sid dev ;;; free_device_users fuel' sysfs
      end
  end.

Definition device_detach (sysfs : string) : MM unit :=
  d <- get_device sysfs ;;
  match d_seat d with
  | None => ret tt
  | Some k =>
      free_device_users (length (d_session_devices d)) sysfs ;;;
      upd_seat k (λ s, s <| se_devices := list_remove_all sysfs (se_devices s) |>) ;;;
      upd_device sysfs (λ d, d <| d_seat := None |>) ;;;
      master <- seat_has_master_device k ;;
      when (negb master)
        (seat_add_to_gc_queue k ;;; seat_send_changed k ["CanGraphical"])
  end.

Definition device_free (sysfs : string) : MM unit :=
  device_detach sysfs ;;;
  modify (λ m, m <| m_devices := delete sysfs (m_devices m) |>).

(** The list after the insertion of a device without the master flag: after the
    first element that is no master or has no successor. *)
Fixpoint insert_after_masters (d : string) (l : list string) : MM (list string) :=
  match l with
  | [] => ret [d]
  | i :: l' =>
      dv <- get_device i ;;
      match l' with
      | [] => ret [i; d]
      | _ =>
          if negb (d_master dv) then ret (i :: d :: l')
          else r <- insert_after_masters d l' ;; ret (i :: r)
      end
  end.

Definition device_attach (sysfs k : string) : MM unit :=
  d <- get_device sysfs ;;
  if bool_decide (d_seat d = Some k) then ret tt
  else
    (if is_some (d_seat d) then device_detach sysfs else ret tt) ;;;
    upd_device sysfs (λ d, d <| d_seat := Some k |>) ;;;
    had_master <- seat_has_master_device k ;;
    s <- get_seat k ;;
    devices <- (if d_master d || negb (is_some (head (se_devices s)))
                then ret (sysfs :: se_devices s)
                else insert_after_masters sysfs (se_devices s)) ;;
    upd_seat k (λ s, s <| se_devices := devices |>) ;;;
    when (negb had_master && d_master d && se_started s)
      (ignore (seat_save k) ;;; seat_send_changed k ["CanGraphical"]).

Definition manager_process_seat_device (d : sd_device_info) : MM Z :=
  if dev_action_remove d || negb (dev_tag_seat d) then
    match dev_syspath d with
    | None => ret 0
    | Some syspath =>
        o <- gets (λ m, m_devices m !! syspath) ;;
        match o with
        | None => ret 0
        | Some dv =>
            k <- deref (d_seat dv) ;;
            seat_add_to_gc_queue k ;;;
            device_free syspath ;;;
            ret 0
        end
    end
  else
    let sn := match dev_id_seat d with
              | None | Some EmptyString => "seat0"%string
              | Some n => n
              end in
    if negb (seat_name_is_valid sn) then ret 0
    else
      o <- gets (λ m, m_seats m !! sn) ;;
      if negb (dev_tag_master d) && negb (is_some o) then ret 0
      else
        match dev_syspath d with
        | None => ret (- ENOENT)
        | Some syspath =>
            manager_add_device syspath (dev_tag_master d) ;;;
            r <- (if is_some o then ret 0 else manager_add_seat sn) ;;
            if r <? 0 then
              dv <- get_device syspath ;;
              when (negb (is_some (d_seat dv))) (device_free syspath) ;;;
              ret r
            else
              device_attach syspath sn ;;;
              ignore (seat_start sn) ;;;
              ret 0
        end.

(** * Session devices *)

Definition detect_device_type (d : sd_device_info) : DeviceType :=
  match dev_sysname d with
  | None => DEVICE_TYPE_UNKNOWN
  | Some sysname =>
      if bool_decide (dev_subsystem d = "drm"%string) then
        if is_some (startswith sysname "card") then DEVICE_TYPE_DRM else DEVICE_TYPE_UNKNOWN
      else if bool_decide (dev_subsystem d = "input"%string) then
        if is_some (startswith sysname "event") then DEVICE_TYPE_EVDEV
        else DEVICE_TYPE_UNKNOWN
      else if bool_decide (dev_subsystem d = "hidraw"%string) then
        if is_some (startswith sysname "hidraw") then DEVICE_TYPE_HIDRAW
        else DEVICE_TYPE_UNKNOWN
      else DEVICE_TYPE_UNKNOWN
  end.

(** What [session_device_verify] stores in the new session device: its type,
    its device, its node. *)
Definition session_device_verify (sid : string) (dev : Z)
  : MM (Z + (DeviceType * string * string)) :=
  match e_device_from_devnum dev with
  | inl r => ret (inl r)
  | inr (p, parent) =>
      match dev_syspath p, dev_devname p with
      | Some sp0, Some node =>
          let type := detect_device_type p in
          (* the device whose seat counts: of an evdev node, its parent *)
          let target :=
            match type with
            | DEVICE_TYPE_EVDEV =>
                match parent with
                | None => None
                | Some q => match dev_syspath q with None => None | Some sp => Some (q, sp) end
                end
            | DEVICE_TYPE_DRM | DEVICE_TYPE_HIDRAW => Some (p, sp0)
            | DEVICE_TYPE_UNKNOWN => None
            end in
          match target with
          | None => ret (inl (- ENODEV))
          | Some (q, sp) =>
              o <- gets (λ m, m_devices m !! sp) ;;
              r <- (match o with
                    | Some _ => ret 0
                    | None =>
                        r <- manager_process_seat_device q ;;
                        if r <? 0 then ret r
                        else
                          o <- gets (λ m, m_devices m !! sp) ;;
                          ret (if is_some o then 0 else - ENODEV)
                    end) ;;
              if r <? 0 then ret (inl r)
              else
                dv <- get_device sp ;;
                s <- get_session sid ;;
                if negb (bool_decide (d_seat dv = s_seat s)) then ret (inl (- EPERM))
                else ret (inr (type, sp, node))
          end
      | _, _ => ret (inl (- EINVAL))
      end
  end.

(** Opening for the first time: the state [active] the device ends in, and the
    descriptor or the error. *)
Definition session_device_first_open (sid : string) (type : DeviceType) (node : string)
  : MM (bool * Z) :=
  active <- session_is_active sid ;;
  r <- session_device_open type node active ;;
  if r <? 0 then
    if active && (r =? - EINVAL) then
      r <- session_device_open type node false ;; ret (false, r)
    else ret (active, r)
  else ret (active, r).

Definition session_device_new (sid : string) (dev : Z) (open_device : bool) : MM Z :=
  s <- get_session sid ;;
  if negb (is_some (s_seat s)) then ret (- EPERM)
  else
    let error r :=
      upd_session sid (λ s, s <| s_devices := delete dev (s_devices s) |>) ;;; ret r in
    v <- session_device_verify sid dev ;;
    match v with
    | inl r => error r
    | inr (type, sysfs, node) =>
        s <- get_session sid ;;
        if is_some (s_devices s !! dev) then error (- EEXIST)
        else
          upd_session sid (λ s, s <| s_devices :=
            <[dev := mkSessionDevice sysfs node (- EBADF) type false false]> (s_devices s) |>) ;;;
          r <- (if open_device then
                  o <- session_device_first_open sid type node ;;
                  upd_sd sid dev (λ d, d <| sd_active := fst o |>) ;;;
                  when (0 <=? snd o) (upd_sd sid dev (λ d, d <| sd_fd := snd o |>)) ;;;
                  ret (snd o)
                else ret 0) ;;
          if r <? 0 then error r
          else
            upd_device sysfs
              (λ d, d <| d_session_devices := (sid, dev) :: d_session_devices d |>) ;;;
            ret 0
    end.

Definition session_device_complete_pause (sid : string) (dev : Z) : MM unit :=
  sd <- get_sd sid dev ;;
  if negb (sd_active sd) then ret tt
  else
    session_device_stop sid dev ;;;
    s <- get_session sid ;;
    if existsb (λ d, sd_active (snd d)) (map_to_list (s_devices s)) then ret tt
    else
      k <- deref (s_seat s) ;;
      seat_complete_switch k.
End Device.
