(* ===== verification/User.v ===== *)
(** Users ([src/src/login/logind-user.c]): creation and start, the election of
    the display session, the timer of the last session, idleness, and when a
    user may be collected.  Stopping and freeing are in Lifecycle.v. *)
From S2P Require Import Prelude Time LoginTypes ActionTypes Escape LoginState LoginEnv Objects.

Section User.
Context {E : Env}.

(** * Creation and start *)

Definition new_user (ur : user_record) : user :=
  mkUser ur None DUAL_TIMESTAMP_NULL USEC_INFINITY None USER_GC_BY_ANY false false false [].

Definition user_new (ur : user_record) : MM Z :=
  if negb (is_some (ur_user_name ur)) then ret (- EINVAL)
  else if negb (uid_is_valid (ur_uid ur)) then ret (- EINVAL)
  else
    modify (λ m, m <| m_users := <[ur_uid ur := new_user ur]> (m_users m) |>) ;;;
    ret 0.

Definition manager_add_user (ur : user_record) : MM Z :=
  o <- gets (λ m, m_users m !! ur_uid ur) ;;
  match o with
  | Some _ => ret 0
  | None => user_new ur
  end.

Definition user_runtime_dir (verb : string) (uid : Z) : MM Z :=
  emit (RuntimeDir verb uid) ;;; ret (e_user_runtime_dir verb uid).

Definition dual_timestamp_now : dual_timestamp := mkDualTimestamp e_now_realtime e_now_monotonic.

Definition user_start (uid : Z) : MM Z :=
  u <- get_user uid ;;
  r <- (if negb (u_started u) || u_stopping u then
          upd_user uid (λ u, u <| u_stopping := false |>) ;;;
          ignore (user_save_internal uid) ;;;
          user_runtime_dir "start" uid
        else ret 0) ;;
  if r <? 0 then ret r
  else
    u <- get_user uid ;;
    when (negb (u_started u))
      (upd_user uid (λ u, if dual_timestamp_is_set (u_timestamp u) then u
                          else u <| u_timestamp := dual_timestamp_now |>) ;;;
       user_send_signal uid true ;;;
       upd_user uid (λ u, u <| u_started := true |>)) ;;;
    ignore (user_save uid) ;;;
    ret 0.

(** * The display session *)

Definition elect_display_filter (s : session) : bool :=
  SESSION_CLASS_CAN_DISPLAY (s_class s) && s_started s && negb (s_stopping s).

Definition type_rank (t : SessionType) : Z :=
  match t with
  | SESSION_UNSPECIFIED => 0
  | SESSION_TTY => -2
  | SESSION_X11 | SESSION_WAYLAND | SESSION_MIR => -3
  | SESSION_WEB => -1
  end.

(** C's [x - y] on truth values. *)
Definition bool_diff (a b : bool) : Z := Z.b2z a - Z.b2z b.

(** [elect_display_compare]; a session's type is never _SESSION_TYPE_INVALID,
    so the comparison on that flag always finds the two equal. *)
Definition elect_display_compare (s1 s2 : option session) : Z :=
  match s1, s2 with
  | None, None => 0
  | None, Some _ => 1
  | Some _, None => -1
  | Some s1, Some s2 =>
      let not_class c s := negb (bool_decide (s_class s = c)) in
      if negb (bool_decide (s_stopping s1 = s_stopping s2))
      then bool_diff (s_stopping s1) (s_stopping s2)
      else if negb (bool_decide (not_class SESSION_USER s1 = not_class SESSION_USER s2))
      then bool_diff (not_class SESSION_USER s1) (not_class SESSION_USER s2)
      else if negb (bool_decide (not_class SESSION_USER_EARLY s1
                                 = not_class SESSION_USER_EARLY s2))
      then bool_diff (not_class SESSION_USER_EARLY s1) (not_class SESSION_USER_EARLY s2)
      else if negb (bool_decide (s_type s1 = s_type s2))
      then type_rank (s_type s1) - type_rank (s_type s2)
      else 0
  end.

Definition elect_one (uid : Z) (sid : string) : MM unit :=
  s <- get_session sid ;;
  if negb (elect_display_filter s) then ret tt
  else
    u <- get_user uid ;;
    d <- (match u_display u with
          | None => ret None
          | Some d => x <- get_session d ;; ret (Some x)
          end) ;;
    when (elect_display_compare (Some s) d <? 0)
      (upd_user uid (λ u, u <| u_display := Some sid |>)).
Definition user_elect_display (uid : Z) : MM unit :=
  u <- get_user uid ;;
  for_each (elect_one uid) (u_sessions u).

(** * The last session *)

Definition user_get_stop_delay (u : user) : MM Z :=
  if negb (ur_stop_delay_usec (u_user_record u) =? UINT64_MAX)
  then ret (ur_stop_delay_usec (u_user_record u))
  else if 0 <? ur_removable (u_user_record u) then ret 0
  else gets (λ m, c_user_stop_delay (m_conf m)).

(** Is one of these sessions of a class that pins its user? *)
Fixpoint any_pinning (l : list string) : MM bool :=
  match l with
  | [] => ret false
  | i :: l' =>
      s <- get_session i ;;
      if SESSION_CLASS_PIN_USER (s_class s) then ret true else any_pinning l'
  end.
Definition user_pinned_by_sessions (u : user) : MM bool :=
  match u_gc_mode u with
  | USER_GC_BY_ANY => ret (negb (bool_decide (u_sessions u = [])))
  | USER_GC_BY_PIN => any_pinning (u_sessions u)
  end.

Definition user_update_last_session_timer (uid : Z) : MM unit :=
  u <- get_user uid ;;
  pinned <- user_pinned_by_sessions u ;;
  if (pinned : bool) then
    upd_user uid (λ u, u <| u_last_session_timestamp := USEC_INFINITY |>
                         <| u_timer_event_source := None |>)
  else if negb (u_last_session_timestamp u =? USEC_INFINITY) then ret tt
  else
    upd_user uid (λ u, u <| u_last_session_timestamp := e_now_monotonic |>) ;;;
    assert_se (negb (is_some (u_timer_event_source u))) ;;;
    delay <- user_get_stop_delay u ;;
    if negb (timestamp_is_set delay) then ret tt
    else if e_event_finished then ret tt
    else if e_event_add "user-stop" <? 0 then ret tt
    else upd_user uid (λ u, u <| u_timer_event_source :=
                               Some (usec_add e_now_monotonic delay) |>).

(** [user_stop_timeout_callback]. *)
Definition user_stop_timeout_callback (uid : Z) : MM Z :=
  user_add_to_gc_queue uid ;;; ret 0.

(** * Idleness and garbage collection *)

(** One round of the loop of [user_get_idle_hint]. *)
Definition user_idle_step (acc : bool * dual_timestamp) (sid : string)
  : MM (bool * dual_timestamp) :=
  let '(idle_hint, ts) := acc in
  s <- get_session sid ;;
  if negb (SESSION_CLASS_CAN_IDLE (s_class s)) then ret acc
  else
    r <- session_get_idle_hint sid e_uninit_timestamp ;;
    let '(ih, k) := r in
    ret (if negb ih then
           if negb idle_hint then (false, if monotonic k <? monotonic ts then k else ts)
           else (false, k)
         else if (idle_hint : bool) then (true, if monotonic ts <? monotonic k then k else ts)
         else (idle_hint, ts)).
Definition user_get_idle_hint (uid : Z) : MM (bool * dual_timestamp) :=
  u <- get_user uid ;;
  fold_m user_idle_step (true, DUAL_TIMESTAMP_NULL) (u_sessions u).

(** The user is kept for a while after its last session. *)
Definition user_in_stop_delay (u : user) : MM bool :=
  if u_last_session_timestamp u =? USEC_INFINITY then ret false
  else
    delay <- user_get_stop_delay u ;;
    ret ((delay =? USEC_INFINITY)
         || ((0 <? delay)
             && (e_now_monotonic <? usec_add (u_last_session_timestamp u) delay))).

Definition user_may_gc (uid : Z) (drop_not_started : bool) : MM bool :=
  u <- get_user uid ;;
  if drop_not_started && negb (u_started u) then ret true
  else
    pinned <- user_pinned_by_sessions u ;;
    if (pinned : bool) then ret false
    else
      wait <- user_in_stop_delay u ;;
      if (wait : bool) then ret false
      else if 0 <? user_check_linger_file u then ret false
      else ret (drop_not_started || u_stopping u).
End User.
