(* ===== verification/Session.v ===== *)
(** Sessions ([src/src/login/logind-session.c]): creation, leader, fifo,
    controller, hints and properties, activation and start, and when a session
    may be collected.  Stopping and freeing are in Lifecycle.v. *)
From stdpp Require Import pretty.
From S2P Require Import Prelude Time LoginTypes ActionTypes LoginState LoginEnv Parse Objects SessionDevice Seat Device User.

(** The timeout of [session_release]. *)
Definition RELEASE_USEC : Z := 20 * USEC_PER_SEC.

Section Session.
Context {E : Env}.

(** * Creation, user, leader *)

Definition new_session : session :=
  mkSession 0 SESSION_UNSPECIFIED SESSION_UNSPECIFIED SESSION_USER None DUAL_TIMESTAMP_NULL
    None None None false None None None None None None 0 (- EBADF) PIDREF_NULL false 0
    AUDIT_SESSION_INVALID (- EBADF) None false false false false false false false false
    DUAL_TIMESTAMP_NULL false false None None None None (-1) None ∅ None.

(** [session_new]: the caller has looked the id up, so [hashmap_put] adds it. *)
Definition session_new (id : string) : MM Z :=
  if negb (session_id_valid id) then ret (- EINVAL)
  else
    modify (λ m, m <| m_sessions := <[id := new_session]> (m_sessions m) |>) ;;;
    ret 0.
Definition manager_add_session (id : string) : MM Z :=
  o <- gets (λ m, m_sessions m !! id) ;;
  match o with
  | Some _ => ret 0
  | None => session_new id
  end.

Definition session_set_user (sid : string) (uid : Z) : MM unit :=
  s <- get_session sid ;;
  assert_se (negb (is_some (s_user s))) ;;;
  upd_session sid (λ s, s <| s_user := Some uid |>) ;;;
  upd_user uid (λ u, u <| u_sessions := sid :: u_sessions u |>) ;;;
  user_update_last_session_timer uid.

Definition leader_fd_name (sid : string) : string := "session-" +:+ sid +:+ "-leader-fd".

(** [hashmap_remove_value]: the entry goes only if it is this session's. *)
Definition remove_leader_entry (sid : string) (leader : pidref) : MM unit :=
  modify (λ m,
    if bool_decide (m_sessions_by_leader m !! p_pid leader = Some sid)
    then m <| m_sessions_by_leader := delete (p_pid leader) (m_sessions_by_leader m) |>
    else m).

Definition session_reset_leader (sid : string) (keep_fdstore : bool) : MM unit :=
  when (negb keep_fdstore)
    (emit (FdRemoved (leader_fd_name sid)) ;;;
     upd_session sid (λ s, s <| s_leader_fd_saved := false |>)) ;;;
  s <- get_session sid ;;
  if negb (pidref_is_set (s_leader s)) then ret tt
  else
    upd_session sid (λ s, s <| s_leader_pidfd_event_source := false |>) ;;;
    remove_leader_entry sid (s_leader s) ;;;
    upd_session sid (λ s, s <| s_leader := PIDREF_NULL |>).

Definition session_watch_pidfd (sid : string) : MM Z :=
  s <- get_session sid ;;
  assert_se (pidref_is_set (s_leader s)) ;;;
  assert_se (negb (s_leader_pidfd_event_source s)) ;;;
  if p_fd (s_leader s) <? 0 then ret 0
  else
    let r := e_event_add "session-pidfd" in
    if r <? 0 then ret r
    else
      upd_session sid (λ s, s <| s_leader_pidfd_event_source := true |>) ;;;
      ret 0.

Definition session_set_leader_consume (sid : string) (leader : pidref) : MM Z :=
  s <- get_session sid ;;
  assert_se (pidref_is_set leader) ;;;
  if pidref_equal (s_leader s) leader then ret 0
  else
    session_reset_leader sid false ;;;
    upd_session sid (λ s, s <| s_leader := leader |>) ;;;
    r <- session_watch_pidfd sid ;;
    if r <? 0 then ret r
    else
      o <- gets (λ m, m_sessions_by_leader m !! p_pid leader) ;;
      match o with
      | Some other =>
          (* hashmap_ensure_put: -EEXIST for another value, 0 for this one *)
          if bool_decide (other = sid) then crash else ret (- EEXIST)
      | None =>
          modify (λ m, m <| m_sessions_by_leader :=
                             <[p_pid leader := sid]> (m_sessions_by_leader m) |>) ;;;
          when ((0 <=? p_fd leader) && (0 <=? e_notify_push_fd (leader_fd_name sid)))
            (emit (FdPushed (leader_fd_name sid)) ;;;
             upd_session sid (λ s, s <| s_leader_fd_saved := true |>)) ;;;
          (match e_audit_session leader with
           | Some id => upd_session sid (λ s, s <| s_audit_id := id |>)
           | None => ret tt
           end) ;;;
          ret 1
      end.

(** * Activation *)

Definition chvt (vtnr : Z) : MM Z := emit (Chvt vtnr) ;;; ret (e_chvt vtnr).

Definition session_activate (sid : string) : MM Z :=
  s <- get_session sid ;;
  assert_se (is_some (s_user s)) ;;;
  match s_seat s with
  | None => ret (- EOPNOTSUPP)
  | Some k =>
      st <- get_seat k ;;
      if bool_decide (se_active st = Some sid) then ret 0
      else
        vts <- seat_has_vts k ;;
        if (vts : bool) then
          if s_vtnr s =? 0 then ret (- EOPNOTSUPP) else chvt (s_vtnr s)
        else
          upd_seat k (λ st, st <| se_pending_switch := Some sid |>) ;;;
          num_pending <- session_device_try_pause_all sid ;;
          when (num_pending =? 0) (seat_complete_switch k) ;;;
          ret 0
  end.

Definition seat_switch_to (k : string) (num : Z) : MM Z :=
  if num =? 0 then ret (- EINVAL)
  else
    s <- get_seat k ;;
    match seat_get_position s num with
    | None =>
        vts <- seat_has_vts k ;;
        if vts && (num <? 64) then chvt num else ret (- EINVAL)
    | Some sid => session_activate sid
    end.

(** The first occupied position of a list of positions. *)
Fixpoint first_occupied (s : seat) (l : list Z) : option string :=
  match l with
  | [] => None
  | i :: l' =>
      match seat_get_position s i with
      | Some sid => Some sid
      | None => first_occupied s l'
      end
  end.

(** The positions from [lo] up to and without [hi]; the same downwards. *)
Definition up_from (lo hi : Z) : list Z := seqZ lo (hi - lo).
Definition down_from (hi lo : Z) : list Z := rev (seqZ (lo + 1) (hi - lo)).

Definition switch_start (s : seat) : MM Z :=
  match se_active s with
  | None => ret 1
  | Some a => x <- get_session a ;; ret (if 0 <? s_position x then s_position x else 1)
  end.

Definition seat_switch_to_next (k : string) : MM Z :=
  s <- get_seat k ;;
  let n := Z.of_nat (length (se_positions s)) in
  if n =? 0 then ret (- EINVAL)
  else
    start <- switch_start s ;;
    match first_occupied s (up_from (start + 1) n ++ up_from 1 start) with
    | Some sid => session_activate sid
    | None => ret (- EINVAL)
    end.

Definition seat_switch_to_previous (k : string) : MM Z :=
  s <- get_seat k ;;
  let n := Z.of_nat (length (se_positions s)) in
  if n =? 0 then ret (- EINVAL)
  else
    start <- switch_start s ;;
    match first_occupied s (down_from (start - 1) 0 ++ down_from (n - 1) start) with
    | Some sid => session_activate sid
    | None => ret (- EINVAL)
    end.

(** * Control groups and the VT's owner *)

(** [session_use_delegated_cgroup]. *)
Definition session_use_delegated_cgroup : MM Z :=
  b <- gets (λ m, c_delegate_session_cgroups (m_conf m)) ;;
  ret (if negb b then 0
       else if e_cg_all_unified <? 0 then e_cg_all_unified
       else Z.b2z (0 <? e_cg_all_unified)).

Definition SESSION_CGROUP_LEAF : string := "session".
Definition SESSION_CGROUP_DELEGATED : string := "delegated".

Definition session_setup_cgroup_paths (sid : string) : MM Z :=
  s <- get_session sid ;;
  if is_some (s_cgroup_path s) && is_some (s_cgroup_leaf_path s) then ret 0
  else
    upd_session sid (λ s, s <| s_cgroup_path := Some sid |>) ;;;
    r <- session_use_delegated_cgroup ;;
    if r <? 0 then ret r
    else
      upd_session sid (λ s, s <| s_cgroup_leaf_path :=
        Some (if 0 <? r then path_join sid SESSION_CGROUP_LEAF else sid) |>) ;;;
      ret 0.

(** The calls of a sequence in order, up to the first that fails. *)
Fixpoint until_error (l : list (MM Z)) : MM Z :=
  match l with
  | [] => ret 0
  | c :: l' => r <- c ;; if r <? 0 then ret r else until_error l'
  end.

Definition cg_create (path : string) : MM Z := emit (CgroupCreate path) ;;; ret (e_cg_create path).
Definition cg_set_access (path : string) : MM Z := ret (e_cg_set_access path).

(** [session_create_delegated_cgroup]: 1 when the subtree was created, 0 when
    delegation is off. *)
Definition session_create_delegated_cgroup (sid : string) : MM Z :=
  s <- get_session sid ;;
  assert_se (is_some (s_user s)) ;;;
  path <- deref (s_cgroup_path s) ;;
  leaf <- deref (s_cgroup_leaf_path s) ;;
  r <- session_use_delegated_cgroup ;;
  if r <=? 0 then ret r
  else
    let delegated := path_join path SESSION_CGROUP_DELEGATED in
    r <- until_error [cg_create path; cg_create leaf; cg_create delegated;
                      cg_set_access path; cg_set_access leaf; cg_set_access delegated] ;;
    ret (if r <? 0 then r else 1).

(** [session_watch_cgroup] (core/cgroup.c). *)
Definition session_watch_cgroup (sid : string) : MM Z :=
  if e_cg_unified_controller <? 0 then ret e_cg_unified_controller
  else if e_cg_unified_controller =? 0 then ret 0
  else
    s <- get_session sid ;;
    if -1 <? s_cgroup_control_inotify_wd s then ret 0
    else
      let path := default sid (s_cgroup_path s) in
      if e_cg_get_path path <? 0 then ret (e_cg_get_path path)
      else
        fd <- gets m_cgroup_inotify_fd ;;
        let wd := e_inotify_add_watch fd path in
        if wd <? 0 then ret (if wd =? - ENOENT then 0 else wd)
        else
          o <- gets (λ m, m_cgroup_control_inotify_wd_session m !! wd) ;;
          if is_some o && negb (bool_decide (o = Some sid)) then ret (- EEXIST)
          else
            modify (λ m, m <| m_cgroup_control_inotify_wd_session :=
                       <[wd := sid]> (m_cgroup_control_inotify_wd_session m) |>) ;;;
            upd_session sid (λ s, s <| s_cgroup_control_inotify_wd := wd |>) ;;;
            ret 0.

(** [session_release_cgroup] (core/cgroup.c). *)
Definition session_release_cgroup (sid : string) : MM unit :=
  s <- get_session sid ;;
  fd <- gets m_cgroup_inotify_fd ;;
  let wd := s_cgroup_control_inotify_wd s in
  when ((0 <=? fd) && (0 <=? wd))
    (modify (λ m, m <| m_cgroup_control_inotify_wd_session :=
                delete wd (m_cgroup_control_inotify_wd_session m) |>) ;;;
     upd_session sid (λ s, s <| s_cgroup_control_inotify_wd := -1 |>)).

Definition pidref_is_alive (p : pidref) : Z :=
  if negb (pidref_is_set p) then - ESRCH else e_pid_is_alive p.

Definition session_start_cgroup (sid : string) : MM Z :=
  s <- get_session sid ;;
  assert_se (is_some (s_user s)) ;;;
  r <- session_setup_cgroup_paths sid ;;
  if r <? 0 then ret r
  else
    r <- session_create_delegated_cgroup sid ;;
    if r <? 0 then ret r
    else
      s <- get_session sid ;;
      path <- deref (s_cgroup_path s) ;;
      leaf <- deref (s_cgroup_leaf_path s) ;;
      r <- (if r =? 0 then cg_create path else ret 0) ;;
      if r <? 0 then ret r
      else
        when (pidref_is_set (s_leader s) && (0 <? pidref_is_alive (s_leader s)))
          (emit (CgroupAttach leaf (p_pid (s_leader s)))) ;;;
        ignore (session_watch_cgroup sid) ;;;
        ret 0.

(** [session_chown_tty] and [session_restore_tty] apply to a tty session on a
    seat with VTs; their results are ignored. *)
Definition session_vt_to_own (sid : string) : MM (option Z) :=
  s <- get_session sid ;;
  if negb (bool_decide (s_type s = SESSION_TTY)) then ret None
  else
    match s_seat s with
    | None => ret None
    | Some k =>
        vts <- seat_has_vts k ;;
        ret (if negb vts then None else if s_vtnr s <? 1 then None else Some (s_vtnr s))
    end.

Definition tty_path (vtnr : Z) : string := "/dev/tty" +:+ pretty vtnr.

Definition session_chown_tty (sid : string) : MM Z :=
  o <- session_vt_to_own sid ;;
  match o with
  | None => ret 0
  | Some vtnr =>
      let fd := e_open_terminal (tty_path vtnr) in
      if fd <? 0 then ret fd
      else
        uid <- session_uid sid ;;
        if e_fchown fd <? 0 then ret (e_fchown fd)
        else emit (ChownTty vtnr uid) ;;; ret 1
  end.

Definition session_restore_tty (sid : string) : MM Z :=
  o <- session_vt_to_own sid ;;
  match o with
  | None => ret 0
  | Some vtnr =>
      let fd := e_open_terminal (tty_path vtnr) in
      if fd <? 0 then ret fd
      else
        match e_tty_owner fd with
        | inl r => ret r
        | inr owner =>
            uid <- session_uid sid ;;
            if negb (owner =? uid) then ret 0
            else if e_fchown fd <? 0 then ret (e_fchown fd)
            else emit (ChownTty vtnr 0) ;;; ret 1
        end
  end.

(** * The VT of a session with a controller *)

Definition session_open_vt (sid : string) (reopen : bool) : MM Z :=
  s <- get_session sid ;;
  if s_vtnr s <? 1 then ret (- ENODEV)
  else if negb reopen && (0 <=? s_vtfd s) then ret (s_vtfd s)
  else
    let fd := e_open_terminal (tty_path (s_vtnr s)) in
    if fd <? 0 then ret fd
    else upd_session sid (λ s, s <| s_vtfd := fd |>) ;;; ret fd.

Definition session_restore_vt (sid : string) : MM unit :=
  s <- get_session sid ;;
  if s_vtfd s <? 0 then ret tt
  else
    emit (VtCall "restore" (s_vtfd s)) ;;;
    when (e_vt_restore (s_vtfd s) =? - EIO)
      (fd <- session_open_vt sid true ;;
       when (0 <=? fd) (emit (VtCall "restore" fd))) ;;;
    upd_session sid (λ s, s <| s_vtfd := - EBADF |>).

(** The steps of [session_prepare_vt], in order. *)
Definition vt_prepare_calls : list string :=
  ["fchown"; "KDSKBMODE"; "KDSETMODE"; "VT_SETMODE"]%string.
Fixpoint vt_calls (l : list string) (fd : Z) : MM Z :=
  match l with
  | [] => ret 0
  | c :: l' =>
      emit (VtCall c fd) ;;;
      if e_vt_ioctl c fd <? 0 then ret (e_vt_ioctl c fd) else vt_calls l' fd
  end.

Definition session_prepare_vt (sid : string) : MM Z :=
  s <- get_session sid ;;
  if s_vtnr s <? 1 then ret 0
  else
    vt <- session_open_vt sid false ;;
    if vt <? 0 then ret vt
    else
      _ <- session_uid sid ;;
      r <- vt_calls vt_prepare_calls vt ;;
      when (r <? 0) (session_restore_vt sid) ;;;
      ret r.

Definition session_leave_vt (sid : string) : MM unit :=
  s <- get_session sid ;;
  if s_vtfd s <? 0 then ret tt
  else
    session_device_pause_all sid ;;;
    s <- get_session sid ;;
    emit (VtCall "release" (s_vtfd s)) ;;;
    when (e_vt_release (s_vtfd s) =? - EIO)
      (fd <- session_open_vt sid true ;;
       when (0 <=? fd) (emit (VtCall "release" fd))).

(** * Properties and hints *)

Definition all_idle_props : list string := ["IdleHint"; "IdleSinceHint"; "IdleSinceHintMonotonic"]%string.

Definition session_set_idle_hint (sid : string) (b : bool) : MM Z :=
  s <- get_session sid ;;
  if negb (SESSION_CLASS_CAN_IDLE (s_class s)) then ret (- ENOTTY)
  else if negb (SESSION_TYPE_IS_GRAPHICAL (s_type s)) then ret (- ENOTTY)
  else if bool_decide (s_idle_hint s = b) then ret 0
  else
    upd_session sid (λ s, s <| s_idle_hint := b |>
                            <| s_idle_hint_timestamp := dual_timestamp_now |>) ;;;
    session_send_changed sid all_idle_props ;;;
    (match s_seat s with
     | Some k => seat_send_changed k all_idle_props
     | None => ret tt
     end) ;;;
    uid <- deref (s_user s) ;;
    user_send_changed uid all_idle_props ;;;
    manager_send_changed all_idle_props ;;;
    ret 1.

Definition session_get_locked_hint (sid : string) : MM bool :=
  s <- get_session sid ;; ret (s_locked_hint s).

Definition session_set_locked_hint (sid : string) (b : bool) : MM Z :=
  s <- get_session sid ;;
  if negb (SESSION_CLASS_CAN_LOCK (s_class s)) then ret (- ENOTTY)
  else if bool_decide (s_locked_hint s = b) then ret 0
  else
    upd_session sid (λ s, s <| s_locked_hint := b |>) ;;;
    ignore (session_save sid) ;;;
    session_send_changed sid ["LockedHint"%string] ;;;
    ret 1.

Definition session_set_type (sid : string) (t : SessionType) : MM unit :=
  s <- get_session sid ;;
  if bool_decide (s_type s = t) then ret tt
  else
    upd_session sid (λ s, s <| s_type := t |>) ;;;
    ignore (session_save sid) ;;;
    session_send_changed sid ["Type"%string].

Definition session_set_class (sid : string) (c : SessionClass) : MM unit :=
  s <- get_session sid ;;
  if bool_decide (s_class s = c) then ret tt
  else
    upd_session sid (λ s, s <| s_class := c |>) ;;;
    ignore (session_save sid) ;;;
    session_send_changed sid ["Class"%string].

Definition session_set_display (sid : string) (display : string) : MM Z :=
  s <- get_session sid ;;
  if bool_decide (s_display s = Some display) then ret 0
  else
    upd_session sid (λ s, s <| s_display := Some display |>) ;;;
    ignore (session_save sid) ;;;
    session_send_changed sid ["Display"%string] ;;;
    ret 1.

Definition session_set_tty (sid : string) (tty : string) : MM Z :=
  s <- get_session sid ;;
  if bool_decide (s_tty s = Some tty) then ret 0
  else
    upd_session sid (λ s, s <| s_tty := Some tty |>) ;;;
    ignore (session_save sid) ;;;
    session_send_changed sid ["TTY"%string] ;;;
    ret 1.

(** * The controller *)

Definition session_is_controller (sid : string) (sender : string) : MM bool :=
  s <- get_session sid ;; ret (bool_decide (s_controller s = Some sender)).

Definition session_release_controller (sid : string) (notify : bool) : MM unit :=
  s <- get_session sid ;;
  match s_controller s with
  | None => ret tt
  | Some _ =>
      when (negb notify) (upd_session sid (λ s, s <| s_controller := None |>)) ;;;
      session_free_devices sid ;;;
      upd_session sid (λ s, s <| s_controller := None |> <| s_track := None |>)
  end.

Definition session_drop_controller (sid : string) : MM unit :=
  s <- get_session sid ;;
  match s_controller s with
  | None => ret tt
  | Some _ =>
      upd_session sid (λ s, s <| s_track := None |>) ;;;
      session_set_type sid (s_original_type s) ;;;
      session_release_controller sid false ;;;
      ignore (session_save sid) ;;;
      session_restore_vt sid
  end.

(** [on_bus_track]: the bus says the tracked name is gone. *)
Definition on_bus_track (sid : string) : MM Z := session_drop_controller sid ;;; ret 0.

Definition session_set_controller (sid : string) (sender : string) (force prepare : bool)
  : MM Z :=
  mine <- session_is_controller sid sender ;;
  if (mine : bool) then ret 0
  else
    s <- get_session sid ;;
    if is_some (s_controller s) && negb force then ret (- EBUSY)
    else
      upd_session sid (λ s, s <| s_track := None |>) ;;;
      if e_bus_track_new <? 0 then ret e_bus_track_new
      else
        upd_session sid (λ s, s <| s_track := Some [] |>) ;;;
        let r := e_bus_track_add_name sender in
        if r <? 0 then ret r
        else
          upd_session sid (λ s, s <| s_track := Some [sender] |>) ;;;
          r <- (if prepare then session_prepare_vt sid else ret 0) ;;
          if r <? 0 then upd_session sid (λ s, s <| s_track := None |>) ;;; ret r
          else
            session_release_controller sid true ;;;
            upd_session sid (λ s, s <| s_controller := Some sender |>) ;;;
            ignore (session_save sid) ;;;
            ret 0.

(** * The fifo of the login process *)

Definition session_create_fifo (sid : string) : MM Z :=
  s <- get_session sid ;;
  r <- (match s_fifo_path s with
        | Some _ => ret 0
        | None =>
            let path := "/run/systemd/sessions/" +:+ sid +:+ ".ref" in
            upd_session sid (λ s, s <| s_fifo_path := Some path |>) ;;;
            let r := e_mkfifo path in
            ret (if (r <? 0) && negb (r =? - EEXIST) then r else 0)
        end) ;;
  if r <? 0 then ret r
  else
    s <- get_session sid ;;
    path <- deref (s_fifo_path s) ;;
    r <- (if s_fifo_fd s <? 0 then
            let fd := e_open_fifo_read path in
            upd_session sid (λ s, s <| s_fifo_fd := if fd <? 0 then -1 else fd |>) ;;;
            ret (Z.min fd 0)
          else ret 0) ;;
    if r <? 0 then ret r
    else
      r <- (if s_fifo_event_source s then ret 0
            else
              let r := e_event_add "session-fifo" in
              when (0 <=? r) (upd_session sid (λ s, s <| s_fifo_event_source := true |>)) ;;;
              ret r) ;;
      if r <? 0 then ret r else ret (e_open_fifo_write path).

Definition session_remove_fifo (sid : string) : MM unit :=
  s <- get_session sid ;;
  let current_fifo_fd := s_fifo_fd s in
  upd_session sid (λ s, s <| s_fifo_event_source := false |> <| s_fifo_fd := - EBADF |>) ;;;
  interrupted <- gets m_do_interrupt ;;
  if interrupted && (0 <=? current_fifo_fd) then ret tt
  else
    (match s_fifo_path s with Some p => emit (FifoRemoved p) | None => ret tt end) ;;;
    upd_session sid (λ s, s <| s_fifo_path := None |>).

(** * Start, release, garbage collection *)

Definition session_setup_stop_on_idle_timer (sid : string) : MM Z :=
  s <- get_session sid ;;
  stop <- gets (λ m, c_stop_idle_session_usec (m_conf m)) ;;
  if (stop =? USEC_INFINITY) || negb (SESSION_CLASS_CAN_STOP_ON_IDLE (s_class s)) then ret 0
  else
    let r := e_event_add "stop-on-idle" in
    if r <? 0 then ret r
    else
      upd_session sid (λ s, s <| s_stop_on_idle_event_source :=
                                  Some (usec_add e_now_monotonic stop) |>) ;;;
      ret 0.

(** What [session_start] does once nothing can fail any more. *)
Definition session_start_finish (sid : string) (uid : Z) : MM unit :=
  upd_session sid (λ s, if dual_timestamp_is_set (s_timestamp s) then s
                        else s <| s_timestamp := dual_timestamp_now |>) ;;;
  s <- get_session sid ;;
  (match s_seat s with Some k => ignore (seat_read_active_vt k) | None => ret tt end) ;;;
  upd_session sid (λ s, s <| s_started := true |>) ;;;
  ignore (session_chown_tty sid) ;;;
  user_elect_display uid ;;;
  ignore (session_save sid) ;;;
  ignore (user_save uid) ;;;
  (match s_seat s with Some k => ignore (seat_save k) | None => ret tt end) ;;;
  session_send_signal sid true ;;;
  user_send_changed uid ["Display"%string] ;;;
  match s_seat s with
  | None => ret tt
  | Some k =>
      st <- get_seat k ;;
      when (bool_decide (se_active st = Some sid))
        (seat_send_changed k ["ActiveSession"%string])
  end.

Definition session_start (sid : string) : MM Z :=
  s <- get_session sid ;;
  match s_user s with
  | None => ret (- ESTALE)
  | Some uid =>
      if s_stopping s then ret (- EINVAL)
      else if s_started s then ret 0
      else
        r <- until_error [user_start uid; session_start_cgroup sid;
                          session_setup_stop_on_idle_timer sid] ;;
        if r <? 0 then ret r
        else session_start_finish sid uid ;;; ret 0
  end.

Definition session_release (sid : string) : MM Z :=
  s <- get_session sid ;;
  if negb (s_started s) || s_stopping s then ret 0
  else if is_some (s_timer_event_source s) then ret 0
  else
    let r := e_event_add "session-release" in
    when (0 <=? r)
      (upd_session sid (λ s, s <| s_timer_event_source :=
                               Some (usec_add e_now_monotonic RELEASE_USEC) |>)) ;;;
    ret r.

(** Is the fifo open and has no end of file been seen on it? *)
Definition fifo_alive (s : session) : bool := (0 <=? s_fifo_fd s) && (e_pipe_eof (s_fifo_fd s) <=? 0).

Definition session_may_gc (sid : string) (drop_not_started : bool) : MM bool :=
  s <- get_session sid ;;
  let r := pidref_is_alive (s_leader s) in
  ret (if drop_not_started && negb (s_started s) then
         negb (0 <? r) && negb (fifo_alive s)
       else if negb (is_some (s_user s)) then true
       else if r =? - ESRCH then true
       else if 0 <? r then false
       else if fifo_alive s then false
       else drop_not_started || s_stopping s).

Definition session_kill (sid : string) (whom : KillWhom) (signo : Z) : MM Z :=
  s <- get_session sid ;;
  match whom with
  | KILL_ALL =>
      let r := e_cg_get_path sid in
      if r =? 0 then
        let path := default sid (s_cgroup_path s) in
        emit (CgroupKill path signo) ;;;
        ret (e_cg_kill_recursive path signo)
      else ret r
  | KILL_LEADER =>
      if negb (pidref_is_set (s_leader s)) then ret (- ESRCH)
      else
        emit (Killed (p_pid (s_leader s)) signo) ;;;
        ret (e_pidref_kill (s_leader s) signo)
  end.
End Session.
