(* ===== verification/Lifecycle.v ===== *)
(** Stopping, finalizing and freeing sessions, users and seats, the events that
    start it, and the garbage collector
    ([src/src/login/logind-session.c], [logind-user.c], [logind-seat.c],
    [manager_gc] of logind.c, [manager_shall_kill] of logind-core.c). *)
From S2P Require Import Prelude Time LoginTypes ActionTypes LoginState LoginEnv Objects SessionDevice Seat Device User Session.

Definition SIGTERM : Z := 15.

(** [RET_GATHER]: keep the first error. *)
Definition RET_GATHER (r k : Z) : Z := if r <? 0 then r else if k <? 0 then k else r.

Definition strv_contains (l : list string) (s : string) : bool := in_set s l.

Definition manager_shall_kill (c : config) (user : string) : bool :=
  if bool_decide (c_kill_exclude_users c = []) && bool_decide (user = "root"%string) then false
  else if strv_contains (c_kill_exclude_users c) user then false
  else if negb (bool_decide (c_kill_only_users c = [])) then
    strv_contains (c_kill_only_users c) user
  else c_kill_user_processes c.

Section Lifecycle.
Context {E : Env}.

(** * Sessions *)

Definition session_stop_scope (sid : string) (force : bool) : MM Z :=
  s <- get_session sid ;;
  uid <- deref (s_user s) ;;
  u <- get_user uid ;;
  c <- gets m_conf ;;
  let kp := ur_kill_processes (u_user_record u) in
  if force || (negb (kp =? 0)
               && ((0 <? kp) || manager_shall_kill c (ur_name (u_user_record u)))) then
    if force || (user_check_linger_file u <? 1) then
      r <- session_kill sid KILL_ALL SIGTERM ;;
      ret (if r <? 0 then r else 0)
    else ret 0
  else ret 0.

Definition session_stop (sid : string) (force : bool) : MM Z :=
  s <- get_session sid ;;
  match s_user s with
  | None => ret (- ESTALE)
  | Some uid =>
      if negb (s_started s) then ret 0
      else if s_stopping s then ret 0
      else
        upd_session sid (λ s, s <| s_timer_event_source := None |>
                                <| s_leader_pidfd_event_source := false |>) ;;;
        ignore (session_restore_tty sid) ;;;
        (match s_seat s with Some k => seat_evict_position k sid | None => ret tt end) ;;;
        session_remove_fifo sid ;;;
        r <- session_stop_scope sid force ;;
        upd_session sid (λ s, s <| s_stopping := true |>) ;;;
        user_elect_display uid ;;;
        ignore (session_save sid) ;;;
        ignore (user_save uid) ;;;
        ret r
  end.

Definition session_finalize (sid : string) : MM Z :=
  s <- get_session sid ;;
  match s_user s with
  | None => ret (- ESTALE)
  | Some uid =>
      ignore (session_restore_tty sid) ;;;
      session_release_cgroup sid ;;;
      emit (CgroupTrim (default sid (s_cgroup_path s))) ;;;
      upd_session sid (λ s, s <| s_timer_event_source := None |>) ;;;
      (match s_seat s with Some k => seat_evict_position k sid | None => ret tt end) ;;;
      session_free_devices sid ;;;
      emit (FileRemoved (SessionObj sid)) ;;;
      session_add_to_gc_queue sid ;;;
      user_add_to_gc_queue uid ;;;
      when (s_started s)
        (session_send_signal sid false ;;;
         upd_session sid (λ s, s <| s_started := false |>)) ;;;
      (match s_seat s with
       | None => ret tt
       | Some k =>
           st <- get_seat k ;;
           when (bool_decide (se_active st = Some sid)) (seat_set_active k None) ;;;
           ignore (seat_save k)
       end) ;;;
      session_reset_leader sid false ;;;
      ignore (user_save uid) ;;;
      user_send_changed uid ["Display"%string] ;;;
      ret 0
  end.

(** Unlinking a session from its user and from its seat, in [session_free]. *)
Definition session_unlink_user (sid : string) (uid : Z) : MM unit :=
  upd_user uid (λ u, u <| u_sessions := list_remove_all sid (u_sessions u) |>
                       <| u_display := if bool_decide (u_display u = Some sid) then None
                                       else u_display u |>) ;;;
  user_update_last_session_timer uid.
Definition session_unlink_seat (sid k : string) : MM unit :=
  upd_seat k (λ st, st <| se_active := if bool_decide (se_active st = Some sid) then None
                                       else se_active st |>
                       <| se_pending_switch :=
                            if bool_decide (se_pending_switch st = Some sid) then None
                            else se_pending_switch st |>) ;;;
  seat_evict_position k sid ;;;
  upd_seat k (λ st, st <| se_sessions := list_remove_all sid (se_sessions st) |>).

(** [session_free].  The control-group watch is released before the id leaves
    the table, not after: here the id is the pointer. *)
Definition session_free (sid : string) : MM unit :=
  s <- get_session sid ;;
  when (s_in_gc_queue s)
    (modify (λ m, m <| m_session_gc_queue := list_remove_all sid (m_session_gc_queue m) |>)) ;;;
  session_drop_controller sid ;;;
  session_free_devices sid ;;;
  (match s_user s with Some uid => session_unlink_user sid uid | None => ret tt end) ;;;
  (match s_seat s with Some k => session_unlink_seat sid k | None => ret tt end) ;;;
  session_reset_leader sid true ;;;
  session_release_cgroup sid ;;;
  modify (λ m, m <| m_sessions := delete sid (m_sessions m) |>).

(** ** Events of a session *)

Definition session_dispatch_leader_pidfd (sid : string) (fd : Z) : MM Z :=
  s <- get_session sid ;;
  assert_se (p_fd (s_leader s) =? fd) ;;;
  ignore (session_stop sid false) ;;;
  ret 1.

Definition session_dispatch_fifo (sid : string) (fd : Z) : MM Z :=
  s <- get_session sid ;;
  assert_se (s_fifo_fd s =? fd) ;;;
  session_remove_fifo sid ;;;
  ignore (session_stop sid false) ;;;
  ret 1.

Definition release_timeout_callback (sid : string) : MM Z :=
  ignore (session_stop sid false) ;;;
  session_add_to_gc_queue sid ;;;
  ret 0.

Definition session_dispatch_stop_on_idle (sid : string) : MM Z :=
  s <- get_session sid ;;
  if s_stopping s then ret 0
  else
    r <- session_get_idle_hint sid e_uninit_timestamp ;;
    let '(idle, ts) := r in
    if (idle : bool) then session_stop sid true
    else
      stop <- gets (λ m, c_stop_idle_session_usec (m_conf m)) ;;
      if e_event_set_time <? 0 then ret e_event_set_time
      else
        upd_session sid (λ s, s <| s_stop_on_idle_event_source :=
          Some (usec_add (if dual_timestamp_is_set ts then monotonic ts else e_now_monotonic)
                         stop) |>) ;;;
        ret 1.

(** [manager_notify_cgroup_empty] (core/cgroup.c). *)
Definition manager_notify_cgroup_empty (cgroup : string) : MM Z :=
  o <- gets (λ m, m_sessions m !! cgroup) ;;
  match o with
  | None => ret 0
  | Some s =>
      if e_cg_is_empty_recursive (default cgroup (s_cgroup_path s)) <=? 0 then ret 0
      else session_release cgroup
  end.

(** [session_check_cgroup_events] (core/cgroup.c); [populated] is what the
    "populated" key of cgroup.events says, or the error. *)
Definition session_check_cgroup_events (sid : string) (populated : Z + string) : MM Z :=
  s <- get_session sid ;;
  match populated with
  | inl r =>
      if r =? - ENOENT then
        if e_cg_get_path (default sid (s_cgroup_path s)) <? 0
        then manager_notify_cgroup_empty sid
        else ret 0
      else ret r
  | inr p =>
      if bool_decide (p = "1"%string) then
        when (negb (s_stopping s) && is_some (s_timer_event_source s))
          (upd_session sid (λ s, s <| s_timer_event_source := None |>)) ;;;
        ret 0
      else if bool_decide (p = "0"%string) then manager_notify_cgroup_empty sid
      else ret 0
  end.

(** * Users *)

(** A call on every session of a list, gathering the errors. *)
Definition gather (f : string → MM Z) (l : list string) : MM Z :=
  fold_m (λ r sid, k <- f sid ;; ret (RET_GATHER r k)) 0 l.

Definition user_stop (uid : Z) (force : bool) : MM Z :=
  u <- get_user uid ;;
  if negb (u_started u) then ret 0
  else if u_stopping u then ignore (user_save uid) ;;; ret 0
  else
    r <- gather (λ sid, session_stop sid force) (u_sessions u) ;;
    user_add_to_gc_queue uid ;;;
    upd_user uid (λ u, u <| u_stopping := true |>) ;;;
    ignore (user_save uid) ;;;
    ret r.

Definition user_finalize (uid : Z) : MM Z :=
  u <- get_user uid ;;
  r <- gather session_finalize (u_sessions u) ;;
  remove_ipc <- gets (λ m, c_remove_ipc (m_conf m)) ;;
  let uid' := ur_uid (u_user_record u) in
  r <- (if remove_ipc && negb (e_uid_is_system uid') then
          emit (IpcCleaned uid') ;;; ret (RET_GATHER r (e_clean_ipc uid'))
        else ret r) ;;
  emit (FileRemoved (UserObj uid)) ;;;
  user_add_to_gc_queue uid ;;;
  when (u_started u)
    (user_send_signal uid false ;;;
     upd_user uid (λ u, u <| u_started := false |>)) ;;;
  ret r.

(** [while (u->sessions) session_free(u->sessions)]. *)
Fixpoint free_user_sessions (fuel : nat) (uid : Z) : MM unit :=
  u <- get_user uid ;;
  match u_sessions u with
  | [] => ret tt
  | sid :: _ =>
      match fuel with
      | O => crash
      | S fuel' => session_free sid ;;; free_user_sessions fuel' uid
      end
  end.

Definition user_free (uid : Z) : MM unit :=
  u <- get_user uid ;;
  when (u_in_gc_queue u)
    (modify (λ m, m <| m_user_gc_queue := list_remove_all uid (m_user_gc_queue m) |>)) ;;;
  free_user_sessions (length (u_sessions u)) uid ;;;
  modify (λ m, m <| m_users := delete uid (m_users m) |>) ;;;
  ignore (user_runtime_dir "stop" uid).

Definition user_kill (uid : Z) (signo : Z) : MM Z :=
  u <- get_user uid ;;
  gather (λ sid, session_kill sid KILL_ALL signo) (u_sessions u).

(** * Seats *)

(** [seat_stop_sessions] keeps the last error. *)
Definition seat_stop_sessions (k : string) (force : bool) : MM Z :=
  s <- get_seat k ;;
  fold_m (λ r sid, x <- session_stop sid force ;; ret (if x <? 0 then x else r)) 0
    (se_sessions s).

Definition seat_stop (k : string) (force : bool) : MM Z :=
  s <- get_seat k ;;
  r <- seat_stop_sessions k force ;;
  emit (FileRemoved (SeatObj k)) ;;;
  seat_add_to_gc_queue k ;;;
  when (se_started s) (seat_send_signal k false) ;;;
  upd_seat k (λ s, s <| se_started := false |>) ;;;
  ret r.

Fixpoint free_seat_sessions (fuel : nat) (k : string) : MM unit :=
  s <- get_seat k ;;
  match se_sessions s with
  | [] => ret tt
  | sid :: _ =>
      match fuel with
      | O => crash
      | S fuel' => session_free sid ;;; free_seat_sessions fuel' k
      end
  end.
Fixpoint free_seat_devices (fuel : nat) (k : string) : MM unit :=
  s <- get_seat k ;;
  match se_devices s with
  | [] => ret tt
  | d :: _ =>
      match fuel with
      | O => crash
      | S fuel' => device_free d ;;; free_seat_devices fuel' k
      end
  end.

Definition seat_free (k : string) : MM unit :=
  s <- get_seat k ;;
  when (se_in_gc_queue s)
    (modify (λ m, m <| m_seat_gc_queue := list_remove_all k (m_seat_gc_queue m) |>)) ;;;
  free_seat_sessions (length (se_sessions s)) k ;;;
  s' <- get_seat k ;;
  assert_se (negb (is_some (se_active s'))) ;;;
  free_seat_devices (length (se_devices s')) k ;;;
  modify (λ m, m <| m_seats := delete k (m_seats m) |>).

(** * The garbage collector *)

Definition gc_seat (drop_not_started : bool) (k : string) : MM unit :=
  upd_seat k (λ s, s <| se_in_gc_queue := false |>) ;;;
  gc <- seat_may_gc k drop_not_started ;;
  when gc (ignore (seat_stop k false) ;;; seat_free k).

Definition gc_session (drop_not_started : bool) (sid : string) : MM unit :=
  upd_session sid (λ s, s <| s_in_gc_queue := false |>) ;;;
  gc <- session_may_gc sid drop_not_started ;;
  state <- session_get_state sid ;;
  when (gc && negb (bool_decide (state = SESSION_CLOSING)))
    (ignore (session_stop sid false)) ;;;
  gc <- session_may_gc sid drop_not_started ;;
  when gc (ignore (session_finalize sid) ;;; session_free sid).

Definition gc_user (drop_not_started : bool) (uid : Z) : MM unit :=
  upd_user uid (λ u, u <| u_in_gc_queue := false |>) ;;;
  gc <- user_may_gc uid drop_not_started ;;
  when gc (ignore (user_stop uid false)) ;;;
  gc <- user_may_gc uid drop_not_started ;;
  when gc (ignore (user_finalize uid) ;;; user_free uid).

(** [while ((x = LIST_POP(gc_queue, ...)))]: [None] when the fuel runs out with
    the queue not empty. *)
Fixpoint gc_loop {K} (queue : manager → list K) (set_queue : list K → manager → manager)
    (body : K → MM unit) (fuel : nat) : MM unit :=
  q <- gets queue ;;
  match q with
  | [] => ret tt
  | x :: q' =>
      match fuel with
      | O => crash
      | S fuel' =>
          modify (set_queue q') ;;; body x ;;; gc_loop queue set_queue body fuel'
      end
  end.

Definition gc_seats (drop : bool) (fuel : nat) : MM unit :=
  gc_loop m_seat_gc_queue (λ q m, m <| m_seat_gc_queue := q |>) (gc_seat drop) fuel.
Definition gc_sessions (drop : bool) (fuel : nat) : MM unit :=
  gc_loop m_session_gc_queue (λ q m, m <| m_session_gc_queue := q |>) (gc_session drop) fuel.
Definition gc_users (drop : bool) (fuel : nat) : MM unit :=
  gc_loop m_user_gc_queue (λ q m, m <| m_user_gc_queue := q |>) (gc_user drop) fuel.

Definition manager_gc (drop_not_started : bool) (fuel : nat) : MM unit :=
  gc_seats drop_not_started fuel ;;;
  gc_sessions drop_not_started fuel ;;;
  gc_users drop_not_started fuel.
End Lifecycle.

(** The objects whose turn may come in one collection: each session once, each
    user twice. *)
Definition gc_rounds (m : manager) : nat :=
  (length (m_seat_gc_queue m) + size (m_sessions m) + 2 * size (m_users m))%nat.
