(* ===== verification/SessionBus.v ===== *)
(** The methods of the D-Bus objects of sessions, seats and users
    ([src/src/login/logind-session-dbus.c], [logind-seat-dbus.c],
    [logind-user-dbus.c]). *)
From S2P Require Import Prelude Time LoginTypes ActionTypes LoginState LoginEnv Objects SessionDevice Seat Device User Session Lifecycle Bus.

(** [DEVICE_MAJOR_VALID], [DEVICE_MINOR_VALID] (devnum-util.h) of unsigned numbers,
    and the C library's makedev(). *)
Definition DEVICE_MAJOR_VALID (x : Z) : bool := x <? Z.shiftl 1 12.
Definition DEVICE_MINOR_VALID (x : Z) : bool := x <? Z.shiftl 1 20.
Definition makedev (major minor : Z) : Z :=
  Z.lor (Z.lor (Z.shiftl (Z.land major 0xfff) 8) (Z.shiftl (Z.land major 0xfffff000) 32))
        (Z.lor (Z.land minor 0xff) (Z.shiftl (Z.land minor 0xffffff00) 12)).

Section SessionBus.
Context {E : Env}.

(** * Signals and late replies *)

Definition session_send_lock (sid : string) (lock : bool) : MM Z :=
  s <- get_session sid ;;
  if negb (SESSION_CLASS_CAN_LOCK (s_class s)) then ret (- ENOTTY)
  else emit (LockSignal sid lock) ;;; ret 0.

Definition session_send_lock_all (lock : bool) : MM Z :=
  ids <- gets (λ m, e_order_ids (fst <$> map_to_list (m_sessions m))) ;;
  fold_m (λ r sid,
    s <- get_session sid ;;
    if negb (SESSION_CLASS_CAN_LOCK (s_class s)) then ret r
    else k <- session_send_lock sid lock ;; ret (RET_GATHER r k)) 0 ids.

Definition session_send_create_reply (sid : string) (error : option string) : MM outcome :=
  s <- get_session sid ;;
  if negb (s_create_message s) then ret Reply
  else
    upd_session sid (λ s, s <| s_create_message := false |>) ;;;
    match error with
    | Some e => ret (BusError e)
    | None =>
        fifo_fd <- session_create_fifo sid ;;
        if fifo_fd <? 0 then ret (Errno fifo_fd)
        else
          ignore (session_save sid) ;;;
          s <- get_session sid ;;
          uid <- deref (s_user s) ;;
          ignore (user_save uid) ;;;
          u <- get_user uid ;;
          ret (ReplySession sid fifo_fd (ur_uid (u_user_record u)) (default EmptyString (s_seat s)) (s_vtnr s))
    end.

Definition session_send_upgrade_reply (sid : string) (error : option string) : MM outcome :=
  s <- get_session sid ;;
  if negb (s_upgrade_message s) then ret Reply
  else
    upd_session sid (λ s, s <| s_upgrade_message := false |>) ;;;
    match error with
    | Some e => ret (BusError e)
    | None => ignore (session_save sid) ;;; ret Reply
    end.

(** * The methods *)

Definition bus_session_method_terminate (sid : string) (msg : message) : MM outcome :=
  _ <- session_uid sid ;;
  polkit_manage msg (r <- session_stop sid true ;; ret (reply_or r)).

Definition bus_session_method_activate (sid : string) (msg : message) : MM outcome :=
  check_polkit_chvt msg (r <- session_activate sid ;; ret (reply_or r)).

Definition bus_session_method_lock (sid : string) (msg : message) : MM outcome :=
  _ <- session_uid sid ;;
  polkit msg "org.freedesktop.login1.lock-sessions"
    (r <- session_send_lock sid (strstr (msg_member msg) "Lock") ;;
     ret (if r =? - ENOTTY then BusError SD_BUS_ERROR_NOT_SUPPORTED else reply_or r)).

(** [uid != 0 && uid != s->user->user_record->uid]. *)
Definition not_owner (sid : string) (uid : Z) : MM bool :=
  if uid =? 0 then ret false
  else owner <- session_uid sid ;; ret (negb (uid =? owner)).

Definition method_set_idle_hint (sid : string) (b : bool) (msg : message) : MM outcome :=
  attempt (msg_euid msg) (λ uid,
    denied <- not_owner sid uid ;;
    if (denied : bool) then ret (BusError SD_BUS_ERROR_ACCESS_DENIED)
    else
      r <- session_set_idle_hint sid b ;;
      ret (if r =? - ENOTTY then BusError SD_BUS_ERROR_NOT_SUPPORTED else reply_or r)).

Definition method_set_locked_hint (sid : string) (b : bool) (msg : message) : MM outcome :=
  attempt (msg_euid msg) (λ uid,
    denied <- not_owner sid uid ;;
    if (denied : bool) then ret (BusError SD_BUS_ERROR_ACCESS_DENIED)
    else
      r <- session_set_locked_hint sid b ;;
      ret (if r =? - ENOTTY then BusError SD_BUS_ERROR_NOT_SUPPORTED else reply_or r)).

Definition bus_session_method_kill (sid : string) (swhom : string) (signo : Z) (msg : message)
  : MM outcome :=
  match (if isempty swhom then Some KILL_ALL else from_string (Some swhom)) with
  | None => ret (BusError SD_BUS_ERROR_INVALID_ARGS)
  | Some whom =>
      if negb (SIGNAL_VALID signo) then ret (BusError SD_BUS_ERROR_INVALID_ARGS)
      else
        _ <- session_uid sid ;;
        polkit_manage msg (r <- session_kill sid whom signo ;; ret (reply_or r))
  end.

Definition method_take_control (sid : string) (force : bool) (msg : message) : MM outcome :=
  attempt (msg_euid msg) (λ uid,
    denied <- (if uid =? 0 then ret false
               else if force then ret true
               else not_owner sid uid) ;;
    if (denied : bool) then ret (BusError SD_BUS_ERROR_ACCESS_DENIED)
    else r <- session_set_controller sid (msg_sender msg) force true ;; ret (reply_or r)).

(** The rest of a method, for the session's controller only. *)
Definition controller_only (sid : string) (msg : message) (k : MM outcome) : MM outcome :=
  mine <- session_is_controller sid (msg_sender msg) ;;
  if negb mine then ret (BusError BUS_ERROR_NOT_IN_CONTROL) else k.

Definition method_release_control (sid : string) (msg : message) : MM outcome :=
  controller_only sid msg (session_drop_controller sid ;;; ret Reply).

Definition method_set_type (sid : string) (t : string) (msg : message) : MM outcome :=
  match from_string (Some t) with
  | None => ret (BusError SD_BUS_ERROR_INVALID_ARGS)
  | Some type =>
      s <- get_session sid ;;
      if negb (SESSION_CLASS_CAN_CHANGE_TYPE (s_class s)) then ret (BusError SD_BUS_ERROR_NOT_SUPPORTED)
      else controller_only sid msg (session_set_type sid type ;;; ret Reply)
  end.

Definition method_set_class (sid : string) (c : string) (msg : message) : MM outcome :=
  match from_string (Some c) with
  | None => ret (BusError SD_BUS_ERROR_INVALID_ARGS)
  | Some class =>
      if negb (bool_decide (class = SESSION_USER)) then ret (BusError SD_BUS_ERROR_INVALID_ARGS)
      else
        s <- get_session sid ;;
        if bool_decide (s_class s = SESSION_USER) then ret Reply
        else if negb (bool_decide (s_class s = SESSION_USER_INCOMPLETE)) then
          ret (BusError SD_BUS_ERROR_INVALID_ARGS)
        else if s_upgrade_message s then ret (BusError SD_BUS_ERROR_INVALID_ARGS)
        else
          attempt (msg_euid msg) (λ uid,
            denied <- not_owner sid uid ;;
            if (denied : bool) then ret (BusError SD_BUS_ERROR_ACCESS_DENIED)
            else
              session_set_class sid class ;;;
              upd_session sid (λ s, s <| s_upgrade_message := true |>) ;;;
              session_send_upgrade_reply sid None)
  end.

Definition method_set_display (sid : string) (display : string) (msg : message) : MM outcome :=
  controller_only sid msg (
    s <- get_session sid ;;
    if negb (SESSION_TYPE_IS_GRAPHICAL (s_type s)) then ret (BusError SD_BUS_ERROR_NOT_SUPPORTED)
    else r <- session_set_display sid display ;; ret (reply_or r)).

(** What fcntl() and [getttyname_malloc] say of the descriptor in the message:
    an error, or the access mode, the O_PATH flag and the terminal's name. *)
Record tty_fd := mkTtyFd {
  fd_flags : Z; fd_read_write : bool; fd_path : bool; fd_ttyname : Z + string }.

Definition method_set_tty (sid : string) (fd : tty_fd) (msg : message) : MM outcome :=
  controller_only sid msg (
    if fd_flags fd <? 0 then ret (Errno (fd_flags fd))
    else if negb (fd_read_write fd) then ret (Errno (- EACCES))
    else if fd_path fd then ret (Errno (- ENOTTY))
    else attempt (fd_ttyname fd) (λ q, r <- session_set_tty sid q ;; ret (reply_or r))).

(** [_cleanup_(session_device_freep)] runs on every way out, and so on the one
    for a device that is already taken. *)
Definition method_take_device (sid : string) (major minor : Z) (msg : message) : MM outcome :=
  if negb (DEVICE_MAJOR_VALID major && DEVICE_MINOR_VALID minor) then
    ret (BusError SD_BUS_ERROR_INVALID_ARGS)
  else
    s <- get_session sid ;;
    if negb (SESSION_CLASS_CAN_TAKE_DEVICE (s_class s)) then ret (BusError SD_BUS_ERROR_NOT_SUPPORTED)
    else controller_only sid msg (
      let dev := makedev major minor in
      if is_some (s_devices s !! dev) then
        session_device_free sid dev ;;; ret (BusError BUS_ERROR_DEVICE_IS_TAKEN)
      else
        r <- session_device_new sid dev true ;;
        if r <? 0 then ret (Errno r)
        else
          r <- session_device_save sid dev ;;
          if r <? 0 then session_device_free sid dev ;;; ret (Errno r)
          else if msg_reply msg <? 0 then session_device_free sid dev ;;; ret (Errno (msg_reply msg))
          else
            sd <- get_sd sid dev ;;
            ignore (session_save sid) ;;;
            ret (ReplyDevice (sd_fd sd) (negb (sd_active sd)))).

(** ReleaseDevice and PauseDeviceComplete look the device up alike. *)
Definition with_taken_device (sid : string) (major minor : Z) (msg : message) (k : Z → MM outcome)
  : MM outcome :=
  if negb (DEVICE_MAJOR_VALID major && DEVICE_MINOR_VALID minor) then
    ret (BusError SD_BUS_ERROR_INVALID_ARGS)
  else controller_only sid msg (
    s <- get_session sid ;;
    let dev := makedev major minor in
    if is_some (s_devices s !! dev) then k dev else ret (BusError BUS_ERROR_DEVICE_NOT_TAKEN)).

Definition method_release_device (sid : string) (major minor : Z) (msg : message) : MM outcome :=
  with_taken_device sid major minor msg (λ dev,
    session_device_free sid dev ;;; ignore (session_save sid) ;;; ret Reply).

Definition method_pause_device_complete (sid : string) (major minor : Z) (msg : message) : MM outcome :=
  with_taken_device sid major minor msg (λ dev, session_device_complete_pause sid dev ;;; ret Reply).
End SessionBus.

Section SeatUserBus.
Context {E : Env}.

(** * Seats *)

Definition bus_seat_method_terminate (k : string) (msg : message) : MM outcome :=
  polkit_manage msg (r <- seat_stop_sessions k true ;; ret (reply_or r)).

(** [method_activate_session] of a seat. *)
Definition seat_method_activate_session (k name : string) (msg : message) : MM outcome :=
  o <- gets (λ m, m_sessions m !! name) ;;
  match o with
  | None => ret (BusError BUS_ERROR_NO_SUCH_SESSION)
  | Some s =>
      if negb (bool_decide (s_seat s = Some k)) then ret (BusError BUS_ERROR_SESSION_NOT_ON_SEAT)
      else check_polkit_chvt msg (r <- session_activate name ;; ret (reply_or r))
  end.

Definition method_switch_to (k : string) (to : Z) (msg : message) : MM outcome :=
  if to <=? 0 then ret (BusError SD_BUS_ERROR_INVALID_ARGS)
  else check_polkit_chvt msg (r <- seat_switch_to k to ;; ret (reply_or r)).
Definition method_switch_to_next (k : string) (msg : message) : MM outcome :=
  check_polkit_chvt msg (r <- seat_switch_to_next k ;; ret (reply_or r)).
Definition method_switch_to_previous (k : string) (msg : message) : MM outcome :=
  check_polkit_chvt msg (r <- seat_switch_to_previous k ;; ret (reply_or r)).

(** * Users *)

Definition bus_user_method_terminate (uid : Z) (msg : message) : MM outcome :=
  _ <- get_user uid ;;
  polkit_manage msg (r <- user_stop uid true ;; ret (reply_or r)).

Definition bus_user_method_kill (uid : Z) (signo : Z) (msg : message) : MM outcome :=
  _ <- get_user uid ;;
  polkit_manage msg (
    if negb (SIGNAL_VALID signo) then ret (BusError SD_BUS_ERROR_INVALID_ARGS)
    else r <- user_kill uid signo ;; ret (reply_or r)).
End SeatUserBus.
