(* ===== verification/ManagerBus.v ===== *)
(** The methods of the manager's D-Bus object that create, find and end
    sessions, seats and users ([src/src/login/logind-dbus.c],
    [manager_get_session_by_pidref] and [manager_add_user_by_uid] of
    logind-core.c). *)
From stdpp Require Import pretty.
From S2P Require Import Prelude Time LoginTypes ActionTypes LoginState LoginEnv Bus Escape Parse Objects SessionDevice Seat Device User Session Lifecycle SessionBus.

Section ManagerBus.
Context {E : Env}.

(** * Finding the session of a process, adding users *)

(** [manager_get_session_by_pidref]: an error, or the session if there is one. *)
Definition manager_get_session_by_pidref (pid : pidref) : MM (Z + option string) :=
  if negb (pidref_is_set pid) then ret (inl (- EINVAL))
  else
    o <- gets (λ m, m_sessions_by_leader m !! p_pid pid) ;;
    match o with
    | Some sid => ret (if e_pidref_verify pid <? 0 then inl (e_pidref_verify pid) else inr (Some sid))
    | None =>
        match e_cg_pid_get_session (p_pid pid) with
        | None => ret (inr None)
        | Some name =>
            s <- gets (λ m, m_sessions m !! name) ;;
            ret (inr (match s with Some _ => Some name | None => None end))
        end
    end.

(** [manager_add_user_by_uid]: the user's uid is the one of its record. *)
Definition manager_add_user_by_uid (uid : Z) : MM (Z + Z) :=
  assert_se (uid_is_valid uid) ;;;
  match e_userdb_by_uid uid with
  | inl r => ret (inl r)
  | inr ur => r <- manager_add_user ur ;; ret (if r <? 0 then inl r else inr (ur_uid ur))
  end.

(** * CreateSession *)

(** The arguments; an empty string stands for "not given". *)
Record create_args := mkCreateArgs {
  ca_uid : Z; ca_leader_pid : Z; ca_leader_pidfd : Z;
  ca_service : string; ca_type : string; ca_class : string; ca_desktop : string;
  ca_cseat : string; ca_vtnr : Z; ca_tty : string; ca_display : string;
  ca_remote : bool; ca_remote_user : string; ca_remote_host : string; ca_flags : Z;
}.

Definition invalid_args {A} : outcome + A := inl (BusError SD_BUS_ERROR_INVALID_ARGS).

Definition create_leader (a : create_args) (msg : message) : outcome + pidref :=
  let acquired :=
    if 0 <=? ca_leader_pidfd a then inr (e_pidref_set_pidfd (ca_leader_pidfd a))
    else if ca_leader_pid a =? 0 then inr (msg_pidref msg)
    else if ca_leader_pid a <? 0 then invalid_args
    else inr (e_pidref_set_pid (ca_leader_pid a)) in
  match acquired with
  | inl o => inl o
  | inr (inl r) => inl (Errno r)
  | inr (inr leader) =>
      if (p_pid leader =? 1) || (p_pid leader =? e_getpid) then invalid_args else inr leader
  end.

(** An optional member of a string table. *)
Definition create_enum {A} `{StringTable A} (s : string) : outcome + option A :=
  if isempty s then inr None
  else match from_string (Some s) with Some t => inr (Some t) | None => invalid_args end.

Definition create_find_seat (cseat : string) : MM (outcome + option string) :=
  if isempty cseat then ret (inr None)
  else
    o <- gets (λ m, m_seats m !! cseat) ;;
    ret (match o with Some _ => inr (Some cseat) | None => inl (BusError BUS_ERROR_NO_SUCH_SEAT) end).

(** The seat and the VT that the terminal implies. *)
Definition create_tty_seat (seat : option string) (vtnr : Z) (tty : string)
  : MM (outcome + (option string * Z)) :=
  seat0 <- gets m_seat0 ;;
  let seat' := match seat with Some _ => seat | None => seat0 end in
  ret (if tty_is_vc tty then
         if negb (bool_decide (seat' = seat0)) then invalid_args
         else
           let v := vtnr_from_tty tty in
           if v <=? 0 then invalid_args
           else if vtnr =? 0 then inr (seat', v)
           else if negb (vtnr =? v) then invalid_args
           else inr (seat', vtnr)
       else if tty_is_console tty then
         if negb (bool_decide (seat' = seat0)) then invalid_args
         else if negb (vtnr =? 0) then invalid_args
         else inr (seat', vtnr)
       else inr (seat, vtnr)).

Definition create_check_vtnr (seat : option string) (vtnr : Z) : MM (outcome + unit) :=
  match seat with
  | None => ret (inr tt)
  | Some k =>
      vts <- seat_has_vts k ;;
      ret (if (vts : bool) then
             if (vtnr <=? 0) || (63 <? vtnr) then invalid_args else inr tt
           else if negb (vtnr =? 0) then invalid_args else inr tt)
  end.

Definition create_type (t : option SessionType) (display tty : string) : SessionType :=
  match t with
  | Some t => t
  | None => if negb (isempty display) then SESSION_X11
            else if negb (isempty tty) then SESSION_TTY
            else SESSION_UNSPECIFIED
  end.
Definition create_class (c : option SessionClass) (t : SessionType) : SessionClass :=
  match c with
  | Some c => c
  | None => if bool_decide (t = SESSION_UNSPECIFIED) then SESSION_BACKGROUND else SESSION_USER
  end.

(** Is the VT taken by a session other than a greeter? *)
Definition create_vt_occupied (c : SessionClass) (vtnr : Z) : MM bool :=
  if bool_decide (c = SESSION_GREETER) || negb (0 <? vtnr) then ret false
  else
    k <- gets m_seat0 ;;
    k <- deref k ;;
    s <- get_seat k ;;
    match seat_get_position s vtnr with
    | None => ret false
    | Some other => o <- get_session other ;; ret (negb (bool_decide (s_class o = SESSION_GREETER)))
    end.

(** [audit_session_id_is_inherited_from_parent]: an error, or the answer. *)
Definition audit_session_id_is_inherited_from_parent (leader : pidref) (audit_id : Z) : Z + bool :=
  match e_process_ppid (p_pid leader) with
  | inl r => inl r
  | inr ppid =>
      if (ppid <=? 1) || (ppid =? e_getpid) then inr false
      else match e_pidref_set_pid ppid with
           | inl r => inl r
           | inr parent =>
               match e_audit_session parent with
               | None => inl (- ENODATA)
               | Some parent_audit_id =>
                   if e_pidref_verify leader <? 0 then inl (e_pidref_verify leader)
                   else inr (parent_audit_id =? audit_id)
               end
           end
  end.

(** The id of the audit session, unless it is inherited or in use. *)
Definition create_audit_id (leader : pidref) : MM (option string) :=
  let audit_id := default 0 (e_audit_session leader) in
  let audit_id :=
    if audit_session_is_valid audit_id then
      match audit_session_id_is_inherited_from_parent leader audit_id with
      | inr true => AUDIT_SESSION_INVALID
      | _ => audit_id
      end
    else audit_id in
  if audit_session_is_valid audit_id then
    o <- gets (λ m, m_sessions m !! pretty audit_id) ;;
    ret (match o with Some _ => None | None => Some (pretty audit_id) end)
  else ret None.

(** [do id = "c%u" of ++m->session_counter; while (hashmap_contains(id))]. *)
Definition counter_id (n : Z) : string := "c" +:+ pretty n.
Fixpoint next_session_id (fuel : nat) : MM string :=
  match fuel with
  | O => crash
  | S fuel' =>
      modify (λ m, m <| m_session_counter := u64 (m_session_counter m + 1) |>) ;;;
      id <- gets (λ m, counter_id (m_session_counter m)) ;;
      o <- gets (λ m, m_sessions m !! id) ;;
      match o with None => ret id | Some _ => next_session_id fuel' end
  end.
Definition create_id (leader : pidref) : MM string :=
  o <- create_audit_id leader ;;
  match o with
  | Some id => ret id
  | None => n <- gets (λ m, size (m_sessions m)) ;; next_session_id (S n)
  end.

(** The [fail:] label, [session_created] saying whether there is a new session. *)
Definition create_fail (session : option string) (user : option Z) (r : Z) : MM outcome :=
  (match session with Some sid => session_add_to_gc_queue sid | None => ret tt end) ;;;
  (match user with Some uid => user_add_to_gc_queue uid | None => ret tt end) ;;;
  ret (Errno r).

(** The new session's fields, from the arguments. *)
Definition create_set_fields (a : create_args) (t : SessionType) (c : SessionClass) (vtnr : Z)
  (s : session) : session :=
  let or_keep (arg : string) (old : option string) := if isempty arg then old else Some arg in
  s <| s_original_type := t |> <| s_type := t |> <| s_remote := ca_remote a |>
    <| s_vtnr := vtnr |> <| s_class := c |>
    <| s_tty := or_keep (ca_tty a) (s_tty s) |>
    <| s_tty_validity := if isempty (ca_tty a) then s_tty_validity s else Some TTY_FROM_PAM |>
    <| s_display := or_keep (ca_display a) (s_display s) |>
    <| s_remote_user := or_keep (ca_remote_user a) (s_remote_user s) |>
    <| s_remote_host := or_keep (ca_remote_host a) (s_remote_host s) |>
    <| s_service := or_keep (ca_service a) (s_service s) |>
    <| s_desktop := or_keep (ca_desktop a) (s_desktop s) |>.

(** What is done with the new session [sid] once it has its user. *)
Definition create_session_setup (a : create_args) (t : SessionType) (c : SessionClass)
  (seat : option string) (vtnr : Z) (leader : pidref) (sid : string) (uid : Z) (msg : message)
  : MM outcome :=
  r <- session_set_leader_consume sid leader ;;
  if r <? 0 then create_fail (Some sid) (Some uid) r
  else
    upd_session sid (create_set_fields a t c vtnr) ;;;
    when (SESSION_CLASS_PIN_USER c) (upd_user uid (λ u, u <| u_gc_mode := USER_GC_BY_PIN |>)) ;;;
    r <- (match seat with Some k => seat_attach_session k sid | None => ret 0 end) ;;
    if r <? 0 then create_fail (Some sid) (Some uid) r
    else if msg_enter_container msg <? 0 then
      create_fail (Some sid) (Some uid) (msg_enter_container msg)
    else
      r <- session_start sid ;;
      if r <? 0 then create_fail (Some sid) (Some uid) r
      else if msg_exit_container msg <? 0 then
        create_fail (Some sid) (Some uid) (msg_exit_container msg)
      else
        upd_session sid (λ s, s <| s_create_message := true |>) ;;;
        session_send_create_reply sid None.

(** From the chosen id on. *)
Definition create_session_register (a : create_args) (t : SessionType) (c : SessionClass)
  (seat : option string) (vtnr : Z) (leader : pidref) (id : string) (msg : message) : MM outcome :=
  u <- manager_add_user_by_uid (ca_uid a) ;;
  match u with
  | inl r => create_fail None None r
  | inr uid =>
      r <- manager_add_session id ;;
      if r <? 0 then create_fail None (Some uid) r
      else
        s <- get_session id ;;
        if is_some (s_user s) then ret (BusError BUS_ERROR_SESSION_BUSY)
        else
          session_set_user id uid ;;;
          create_session_setup a t c seat vtnr leader id uid msg
  end.

Definition create_session (a : create_args) (msg : message) : MM outcome :=
  if negb (uid_is_valid (ca_uid a)) then ret (BusError SD_BUS_ERROR_INVALID_ARGS)
  else if negb (ca_flags a =? 0) then ret (BusError SD_BUS_ERROR_INVALID_ARGS)
  else
    try (ret (create_leader a msg)) (λ leader,
    try (ret (create_enum (A := SessionType) (ca_type a))) (λ t,
    try (ret (create_enum (A := SessionClass) (ca_class a))) (λ c,
    if negb (isempty (ca_desktop a)) && negb (string_is_safe (ca_desktop a)) then
      ret (BusError SD_BUS_ERROR_INVALID_ARGS)
    else
    try (create_find_seat (ca_cseat a)) (λ seat,
    try (create_tty_seat seat (ca_vtnr a) (ca_tty a)) (λ '(seat, vtnr),
    try (create_check_vtnr seat vtnr) (λ _,
    let t := create_type t (ca_display a) (ca_tty a) in
    let c := create_class c t in
    r <- manager_get_session_by_pidref leader ;;
    match r with
    | inl r => ret (Errno r)
    | inr (Some _) => ret (BusError BUS_ERROR_SESSION_BUSY)
    | inr None =>
        busy <- create_vt_occupied c vtnr ;;
        if (busy : bool) then ret (BusError BUS_ERROR_SESSION_BUSY)
        else
          n <- gets (λ m, Z.of_nat (size (m_sessions m))) ;;
          max <- gets (λ m, c_sessions_max (m_conf m)) ;;
          if max <=? n then ret (BusError SD_BUS_ERROR_LIMITS_EXCEEDED)
          else
            id <- create_id leader ;;
            assert_se (negb (SESSION_IS_SELF id)) ;;;
            assert_se (negb (SESSION_IS_AUTO id)) ;;;
            create_session_register a t c seat vtnr leader id msg
    end)))))).

(** * The other methods *)

Definition method_release_session (name : string) (msg : message) : MM outcome :=
  try (manager_get_session_from_creds msg name) (λ sid,
  try (get_sender_session msg false) (λ sender,
    if negb (bool_decide (sid = sender)) then ret (BusError SD_BUS_ERROR_ACCESS_DENIED)
    else r <- session_release sid ;; ret (reply_or r))).

Definition method_activate_session (name : string) (msg : message) : MM outcome :=
  try (manager_get_session_from_creds msg name) (λ sid, bus_session_method_activate sid msg).

Definition method_activate_session_on_seat (session_name seat_name : string) (msg : message)
  : MM outcome :=
  try (manager_get_session_from_creds msg session_name) (λ sid,
  try (manager_get_seat_from_creds msg seat_name) (λ k,
    s <- get_session sid ;;
    if negb (bool_decide (s_seat s = Some k)) then ret (BusError BUS_ERROR_SESSION_NOT_ON_SEAT)
    else check_polkit_chvt msg (r <- session_activate sid ;; ret (reply_or r)))).

Definition method_lock_session (name : string) (msg : message) : MM outcome :=
  try (manager_get_session_from_creds msg name) (λ sid, bus_session_method_lock sid msg).
Definition method_lock_sessions (msg : message) : MM outcome :=
  polkit msg "org.freedesktop.login1.lock-sessions"
    (r <- session_send_lock_all (bool_decide (msg_member msg = "LockSessions"%string)) ;;
     ret (reply_or r)).
Definition method_kill_session (name whom : string) (signo : Z) (msg : message) : MM outcome :=
  try (manager_get_session_from_creds msg name) (λ sid, bus_session_method_kill sid whom signo msg).
Definition method_kill_user (uid signo : Z) (msg : message) : MM outcome :=
  try (manager_get_user_from_creds msg uid) (λ uid, bus_user_method_kill uid signo msg).
Definition method_terminate_session (name : string) (msg : message) : MM outcome :=
  try (manager_get_session_from_creds msg name) (λ sid, bus_session_method_terminate sid msg).
Definition method_terminate_user (uid : Z) (msg : message) : MM outcome :=
  try (manager_get_user_from_creds msg uid) (λ uid, bus_user_method_terminate uid msg).
Definition method_terminate_seat (name : string) (msg : message) : MM outcome :=
  try (manager_get_seat_from_creds msg name) (λ k, bus_seat_method_terminate k msg).

(** SetUserLinger; [pw_name] is what getpwuid() says of the user. *)
Definition method_set_user_linger (uid0 : Z) (enable : bool) (pw_name : Z → Z + string)
  (msg : message) : MM outcome :=
  attempt (if uid_is_valid uid0 then inr uid0 else msg_owner_uid msg) (λ uid,
  attempt (msg_euid msg) (λ auth_uid,
  attempt (pw_name uid) (λ name,
  polkit msg (if uid =? auth_uid then "org.freedesktop.login1.set-self-linger"
              else "org.freedesktop.login1.set-user-linger") (
    if e_mkdir_linger <? 0 then ret (Errno e_mkdir_linger)
    else
      let path := "/var/lib/elogind/linger/" +:+ cescape name in
      if enable then
        if e_touch path <? 0 then ret (Errno (e_touch path))
        else
          u <- manager_add_user_by_uid uid ;;
          match u with
          | inl _ => ret Reply
          | inr uid =>
              r <- user_start uid ;;
              if r <? 0 then user_add_to_gc_queue uid ;;; ret (Errno r) else ret Reply
          end
      else
        if (e_unlink path <? 0) && negb (e_unlink path =? - ENOENT) then ret (Errno (e_unlink path))
        else
          o <- gets (λ m, m_users m !! uid) ;;
          match o with
          | Some _ =>
              upd_user uid (λ u, u <| u_gc_mode := USER_GC_BY_PIN |>) ;;;
              user_add_to_gc_queue uid ;;;
              ret Reply
          | None => ret Reply
          end)))).

(** * The VT-switch signal ([manager_vt_switch], logind.c) *)

Fixpoint find_open_vt (vtnr : Z) (l : list string) : MM (option string) :=
  match l with
  | [] => ret None
  | i :: l' =>
      s <- get_session i ;;
      if (s_vtnr s =? vtnr) && (0 <=? s_vtfd s) then ret (Some i) else find_open_vt vtnr l'
  end.

Definition manager_vt_switch : MM Z :=
  k <- gets m_seat0 ;;
  k <- deref k ;;
  ignore (seat_read_active_vt k) ;;;
  st <- get_seat k ;;
  o <- (match se_active st with
        | None => ret None
        | Some a => s <- get_session a ;; ret (if s_vtnr s <? 1 then None else Some (a, s))
        end) ;;
  match o with
  | None =>
      let fd := e_open_terminal "/dev/tty0" in
      when (0 <=? fd) (emit (VtCall "release" fd)) ;;;
      ret 0
  | Some (a, s) =>
      (if 0 <=? s_vtfd s then session_leave_vt a
       else
         i <- find_open_vt (s_vtnr s) (se_sessions st) ;;
         match i with Some i => session_leave_vt i | None => ret tt end) ;;;
      ret 0
  end.
End ManagerBus.
