(* ===== verification/Inhibit.v ===== *)
(** Inhibitors: the locks that programs take against shutdown, sleep, idleness
    and the keys ([src/src/login/logind-inhibit.c], and of
    [logind-dbus.c] the methods and properties about them). *)
From Stdlib Require Import Ascii.
From stdpp Require Import pretty.
From S2P Require Import Prelude Time LoginTypes ActionTypes LoginState LoginEnv Escape Parse EnvFile Words Bus Objects Session ManagerBus.
#[local] Open Scope string_scope.
#[local] Open Scope Z_scope.
#[local] Open Scope list_scope.

(** * Masks and their names *)

(** The names in the order in which they are written. *)
Definition inhibit_what_names : list (Z * string) :=
  [(INHIBIT_SHUTDOWN, "shutdown"); (INHIBIT_SLEEP, "sleep"); (INHIBIT_IDLE, "idle");
   (INHIBIT_HANDLE_POWER_KEY, "handle-power-key"); (INHIBIT_HANDLE_SUSPEND_KEY, "handle-suspend-key");
   (INHIBIT_HANDLE_HIBERNATE_KEY, "handle-hibernate-key");
   (INHIBIT_HANDLE_LID_SWITCH, "handle-lid-switch"); (INHIBIT_HANDLE_REBOOT_KEY, "handle-reboot-key")].

(** [stpcpy(p, "name:")] for each bit, then the last colon is cut off. *)
Fixpoint write_names (w : Z) (l : list (Z * string)) : string :=
  match l with
  | [] => ""
  | (bit, name) :: l' =>
      (if negb (Z.land w bit =? 0) then name +:+ ":" else "") +:+ write_names w l'
  end.
Definition cut_last (s : string) : string := String.substring 0 (String.length s - 1) s.
(** The static buffer that the names are written to, and the bytes that are
    written there before the last colon is replaced: the names and a NUL. *)
Definition inhibit_what_buffer_size : Z :=
  Z.of_nat (String.length ("shutdown:" +:+ "sleep:" +:+ "idle:" +:+ "handle-power-key:" +:+ "handle-suspend-key:" +:+
    "handle-hibernate-key:" +:+ "handle-lid-switch:" +:+ "handle-reboot-key")) + 1.
Definition inhibit_what_written (w : Z) : Z := Z.of_nat (String.length (write_names w inhibit_what_names)) + 1.
Definition inhibit_what_to_string (w : Z) : option string :=
  if negb (inhibit_what_is_valid w) then None else Some (cut_last (write_names w inhibit_what_names)).

Fixpoint find_name (word : string) (l : list (Z * string)) : option Z :=
  match l with
  | [] => None
  | (bit, name) :: l' => if bool_decide (word = name) then Some bit else find_name word l'
  end.
(** Each word uses up a character, but for the last. *)
Fixpoint what_loop (fuel : nat) (what : Z) (p : option string) : Z :=
  match fuel with
  | O => 0
  | S fuel' =>
      match extract_first_word [":"%char] dont_coalesce p with
      | ExtractError r => r
      | ExtractEnd => what
      | ExtractWord word p' =>
          match find_name word inhibit_what_names with
          | Some bit => what_loop fuel' (Z.lor what bit) p'
          | None => _INHIBIT_WHAT_INVALID
          end
      end
  end.
Definition inhibit_what_from_string (s : string) : Z := what_loop (2 + String.length s) 0 (Some s).

(** * The objects *)

Definition get_inhibitor (id : string) : MM inhibitor :=
  o <- gets (λ m, m_inhibitors m !! id) ;; deref o.
Definition upd_inhibitor (id : string) (f : inhibitor → inhibitor) : MM unit :=
  i <- get_inhibitor id ;; modify (λ m, m <| m_inhibitors := <[id := f i]> (m_inhibitors m) |>).

Definition new_inhibitor : inhibitor :=
  mkInhibitor false _INHIBIT_WHAT_INVALID None None None PIDREF_NULL UID_INVALID DUAL_TIMESTAMP_NULL
    None (- EBADF) false.
(** The caller has looked the id up, so [hashmap_put] adds it. *)
Definition inhibitor_new (id : string) : MM Z :=
  modify (λ m, m <| m_inhibitors := <[id := new_inhibitor]> (m_inhibitors m) |>) ;;; ret 0.
Definition manager_add_inhibitor (id : string) : MM Z :=
  o <- gets (λ m, m_inhibitors m !! id) ;;
  match o with Some _ => ret 0 | None => inhibitor_new id end.

(** Neither the state file nor the fifo goes. *)
Definition inhibitor_free (id : string) : MM unit :=
  get_inhibitor id ;;; modify (λ m, m <| m_inhibitors := delete id (m_inhibitors m) |>).

(** The lines of the state file; printf() writes "(null)" for a NULL. *)
Definition or_null (o : option string) : string := default "(null)" o.
Definition inhibitor_lines (i : inhibitor) : state_file :=
  [("WHAT", or_null (inhibit_what_to_string (i_what i)));
   ("MODE", or_null (m ← i_mode i; to_string m));
   ("UID", pretty (i_uid i)); ("PID", pretty (p_pid (i_pid i)))]
  ++ match i_who i with Some w => [("WHO", cescape w)] | None => [] end
  ++ match i_why i with Some w => [("WHY", cescape w)] | None => [] end
  ++ match i_fifo_path i with Some p => [("FIFO", p)] | None => [] end.
Definition inhibitor_save (id : string) : MM Z :=
  i <- get_inhibitor id ;; emit (InhibitorSaved id (inhibitor_lines i)) ;;; ret 0.

Definition bus_manager_send_inhibited_change (id : string) : MM unit :=
  i <- get_inhibitor id ;;
  manager_send_changed
    [if bool_decide (i_mode i = Some INHIBIT_BLOCK) || bool_decide (i_mode i = Some INHIBIT_BLOCK_WEAK)
     then "BlockInhibited" else "DelayInhibited"].

Section Inhibit.
Context {E : Env}.

Definition inhibitor_start (id : string) : MM Z :=
  i <- get_inhibitor id ;;
  if i_started i then ret 0
  else
    upd_inhibitor id (λ i, i <| i_since := mkDualTimestamp e_now_realtime e_now_monotonic |>
                             <| i_started := true |>) ;;;
    ignore (inhibitor_save id) ;;;
    bus_manager_send_inhibited_change id ;;;
    ret 0.

Definition inhibitor_remove_fifo (id : string) : MM unit :=
  i <- get_inhibitor id ;;
  upd_inhibitor id (λ i, i <| i_event_source := false |> <| i_fifo_fd := - EBADF |>) ;;;
  match i_fifo_path i with
  | None => ret tt
  | Some path =>
      interrupt <- gets m_do_interrupt ;;
      if interrupt && (0 <=? i_fifo_fd i) then ret tt
      else emit (FifoRemoved path) ;;; upd_inhibitor id (λ i, i <| i_fifo_path := None |>)
  end.
Definition inhibitor_stop (id : string) : MM unit :=
  get_inhibitor id ;;;
  inhibitor_remove_fifo id ;;;
  emit (InhibitorRemoved id) ;;;
  upd_inhibitor id (λ i, i <| i_started := false |>) ;;;
  bus_manager_send_inhibited_change id.

(** The event source of the reading end. *)
Definition inhibitor_dispatch_fifo (id : string) (fd : Z) : MM Z :=
  i <- get_inhibitor id ;;
  assert_se (fd =? i_fifo_fd i) ;;;
  inhibitor_stop id ;;;
  inhibitor_free id ;;;
  ret 0.

(** The path comes first; a fifo that cannot be made leaves the path set. *)
Definition fifo_make (id : string) : MM Z :=
  i <- get_inhibitor id ;;
  if is_some (i_fifo_path i) then ret 0
  else
    let path := "/run/systemd/inhibit/" +:+ id +:+ ".ref" in
    upd_inhibitor id (λ i, i <| i_fifo_path := Some path |>) ;;;
    ret (if (e_mkfifo path <? 0) && negb (e_mkfifo path =? - EEXIST) then e_mkfifo path else 0).
Definition fifo_open (id : string) : MM Z :=
  i <- get_inhibitor id ;;
  path <- deref (i_fifo_path i) ;;
  if 0 <=? i_fifo_fd i then ret 0
  else
    upd_inhibitor id (λ i, i <| i_fifo_fd := if e_open_fifo_read path <? 0 then -1
                                              else e_open_fifo_read path |>) ;;;
    ret (if e_open_fifo_read path <? 0 then e_open_fifo_read path else 0).
Definition fifo_watch (id : string) : MM Z :=
  i <- get_inhibitor id ;;
  if i_event_source i then ret 0
  else if e_event_add "inhibitor-ref" <? 0 then ret (e_event_add "inhibitor-ref")
  else upd_inhibitor id (λ i, i <| i_event_source := true |>) ;;; ret 0.
(** Returns the writing end. *)
Definition inhibitor_create_fifo (id : string) : MM Z :=
  r <- fifo_make id ;;
  if r <? 0 then ret r
  else
    r <- fifo_open id ;;
    if r <? 0 then ret r
    else
      r <- fifo_watch id ;;
      if r <? 0 then ret r
      else i <- get_inhibitor id ;; path <- deref (i_fifo_path i) ;; ret (e_open_fifo_write path).

Definition inhibitor_is_orphan (i : inhibitor) : bool :=
  negb (i_started i) || negb (is_some (i_fifo_path i)) || (i_fifo_fd i <? 0)
  || negb (e_pipe_eof (i_fifo_fd i) =? 0).

(** [parse_env_file] of the file at [path]. *)
Definition parse_env_file_at (path : string) : Z * (string → option string) :=
  match e_read_file path with inl r => (r, λ _, None) | inr contents => parse_env_file contents end.

(** [cunescape(s, 0, &cc)]; the length is the result. *)
Definition cunescape_value (s : string) : Z + string := default (inl (- EINVAL)) (cunescape s false false).

Definition load_pid (pid : string) : pidref :=
  match parse_pid pid with
  | inr nr => match e_pidref_set_pid nr with inr p => p | inl _ => PIDREF_NULL end
  | inl _ => PIDREF_NULL
  end.
(** The fifo, which is made again if it is gone. *)
Definition load_fifo (id : string) : MM Z :=
  i <- get_inhibitor id ;;
  match i_fifo_path i with
  | None => ret 0
  | Some path =>
      when ((e_mkfifo path <? 0) && negb (e_mkfifo path =? - EEXIST))
        (upd_inhibitor id (λ i, i <| i_fifo_path := None |>)) ;;;
      fd <- inhibitor_create_fifo id ;;
      ret (if fd <? 0 then fd else 0)
  end.
(** [who] and [why] in turn; an error ends the function. *)
Definition load_text (id : string) (o : option string) (f : string → inhibitor → inhibitor) (k : MM Z) : MM Z :=
  match o with
  | None => k
  | Some s =>
      match cunescape_value s with
      | inl r => ret r
      | inr cc => upd_inhibitor id (f cc) ;;; k
      end
  end.
Definition inhibitor_load (id : string) : MM Z :=
  let '(r, f) := parse_env_file_at ("/run/systemd/inhibit/" +:+ id) in
  when (is_some (f "FIFO")) (upd_inhibitor id (λ i, i <| i_fifo_path := f "FIFO" |>)) ;;;
  if r <? 0 then ret r
  else
    let w := match f "WHAT" with Some s => inhibit_what_from_string s | None => 0 end in
    let mm := match f "MODE" with Some s => from_string (Some s) | None => Some INHIBIT_BLOCK end in
    upd_inhibitor id (λ i,
      let i := if 0 <=? w then i <| i_what := w |> else i in
      let i := if is_some mm then i <| i_mode := mm |> else i in
      let i := match f "UID" with
               | Some s => match parse_uid s with inr u => i <| i_uid := u |> | inl _ => i end
               | None => i
               end in
      match f "PID" with Some s => i <| i_pid := load_pid s |> | None => i end) ;;;
    load_text id (f "WHO") (λ cc i, i <| i_who := Some cc |>)
      (load_text id (f "WHY") (λ cc i, i <| i_why := Some cc |>)
        (load_fifo id)).

(** The inhibitors in the order of the hash map. *)
Definition all_inhibitors : MM (list inhibitor) :=
  gets (λ m, omap (λ id, m_inhibitors m !! id) (e_order_ids (fst <$> map_to_list (m_inhibitors m)))).

Definition manager_inhibit_what (mode : InhibitMode) : MM Z :=
  l <- all_inhibitors ;;
  ret (foldl (λ what i, if i_started i && bool_decide (i_mode i = Some mode)
                        then Z.lor what (i_what i) else what) 0 l).

(** Does this process count as one of an active session? *)
Definition pidref_is_active_session (pid : pidref) : MM Z :=
  r <- manager_get_session_by_pidref pid ;;
  match r with
  | inl r => ret r
  | inr None => ret 1
  | inr (Some sid) => b <- session_is_active sid ;; ret (if (b : bool) then 1 else 0)
  end.

(** [i->mode < offending->mode]; _INHIBIT_MODE_INVALID is negative. *)
Definition mode_index (o : option InhibitMode) : Z :=
  match o with Some m => inhibit_mode_index m | None => - EINVAL end.

(** The answer: whether the operation is inhibited, since when, and by whom. *)
Definition inhibition : Type := bool * dual_timestamp * option inhibitor.
Definition not_inhibited : inhibition := (false, DUAL_TIMESTAMP_NULL, None).
(** One round of the loop of [manager_is_inhibited]: the tests that make an
    inhibitor not count, the session's among them last but one. *)
Definition counts (w : Z) (block : bool) (i : inhibitor) : bool :=
  i_started i && negb (Z.land (i_what i) w =? 0)
  && (if block then bool_decide (i_mode i = Some INHIBIT_BLOCK) || bool_decide (i_mode i = Some INHIBIT_BLOCK_WEAK)
      else bool_decide (i_mode i = Some INHIBIT_DELAY)).
Definition weak_and_own (ignore_uid : bool) (uid : Z) (i : inhibitor) : bool :=
  bool_decide (i_mode i = Some INHIBIT_BLOCK_WEAK) && ignore_uid && (i_uid i =? uid).
Definition add_inhibitor (acc : inhibition) (i : inhibitor) : inhibition :=
  let '(inhibited, ts, offending) := acc in
  (true,
   if negb inhibited || (monotonic (i_since i) <? monotonic ts) then i_since i else ts,
   match offending with
   | None => Some i
   | Some o => if mode_index (i_mode i) <? mode_index (i_mode o) then Some i else Some o
   end).
Definition inhibited_step (w : Z) (block ignore_inactive ignore_uid : bool) (uid : Z)
  (acc : inhibition) (i : inhibitor) : MM inhibition :=
  if negb (counts w block i) then ret acc
  else
    active <- (if ignore_inactive then pidref_is_active_session (i_pid i) else ret 1) ;;
    if active <=? 0 then ret acc
    else if weak_and_own ignore_uid uid i then ret acc
    else ret (add_inhibitor acc i).
Definition manager_is_inhibited (w : Z) (block ignore_inactive ignore_uid : bool) (uid : Z)
  : MM inhibition :=
  assert_se (0 <? w) ;;;
  assert_se (w <? _INHIBIT_WHAT_MAX) ;;;
  l <- all_inhibitors ;;
  fold_m (inhibited_step w block ignore_inactive ignore_uid uid) not_inhibited l.

(** * The D-Bus method and the properties *)

Definition inhibit_action (v : Z) (mode : InhibitMode) : string :=
  let hard := bool_decide (mode = INHIBIT_BLOCK) || bool_decide (mode = INHIBIT_BLOCK_WEAK) in
  "org.freedesktop.login1." +:+
  (if v =? INHIBIT_SHUTDOWN then if hard then "inhibit-block-shutdown" else "inhibit-delay-shutdown"
   else if v =? INHIBIT_SLEEP then if hard then "inhibit-block-sleep" else "inhibit-delay-sleep"
   else if v =? INHIBIT_IDLE then "inhibit-block-idle"
   else if v =? INHIBIT_HANDLE_POWER_KEY then "inhibit-handle-power-key"
   else if v =? INHIBIT_HANDLE_SUSPEND_KEY then "inhibit-handle-suspend-key"
   else if v =? INHIBIT_HANDLE_REBOOT_KEY then "inhibit-handle-reboot-key"
   else if v =? INHIBIT_HANDLE_HIBERNATE_KEY then "inhibit-handle-hibernate-key"
   else "inhibit-handle-lid-switch").

(** [BIT_FOREACH(i, w)]: a polkit check per bit, the lowest first. *)
Fixpoint polkit_bits (msg : message) (mode : InhibitMode) (bits : list Z) (k : MM outcome) : MM outcome :=
  match bits with
  | [] => k
  | v :: bits' => polkit msg (inhibit_action v mode) (polkit_bits msg mode bits' k)
  end.
Definition bits_of (w : Z) : list Z :=
  filter (λ v, Z.land w v ≠ 0) (fst <$> inhibit_what_names).

(** [do asprintf(&id, "%" PRIu64, ++m->inhibit_counter) while (hashmap_get(...))]. *)
Fixpoint next_inhibitor_id (fuel : nat) : MM string :=
  match fuel with
  | O => crash
  | S fuel' =>
      modify (λ m, m <| m_inhibit_counter := u64 (m_inhibit_counter m + 1) |>) ;;;
      id <- gets (λ m, pretty (m_inhibit_counter m)) ;;
      o <- gets (λ m, m_inhibitors m !! id) ;;
      match o with None => ret id | Some _ => next_inhibitor_id fuel' end
  end.

(** From the free id on; the cleanup handler frees the inhibitor on errors. *)
Definition inhibit_with (id what : string) (w : Z) (who why : string) (mode : InhibitMode)
  (pid : pidref) (uid : Z) : MM outcome :=
  r <- manager_add_inhibitor id ;;
  if r <? 0 then ret (Errno r)
  else
    upd_inhibitor id (λ i, i <| i_what := w |> <| i_mode := Some mode |> <| i_pid := pid |>
                             <| i_uid := uid |> <| i_why := Some why |> <| i_who := Some who |>) ;;;
    fifo_fd <- inhibitor_create_fifo id ;;
    if fifo_fd <? 0 then inhibitor_free id ;;; ret (Errno fifo_fd)
    else
      r <- inhibitor_start id ;;
      if r <? 0 then inhibitor_free id ;;; ret (Errno r)
      else ret (ReplyFd fifo_fd).

Definition method_inhibit (what who why mode : string) (msg : message) : MM outcome :=
  let w := inhibit_what_from_string what in
  if w <=? 0 then ret (BusError SD_BUS_ERROR_INVALID_ARGS)
  else match from_string (A := InhibitMode) (Some mode) with
  | None => ret (BusError SD_BUS_ERROR_INVALID_ARGS)
  | Some mm =>
      if bool_decide (mm = INHIBIT_DELAY)
         && negb (Z.land w (Z.lnot (Z.lor INHIBIT_SHUTDOWN INHIBIT_SLEEP)) =? 0)
      then ret (BusError SD_BUS_ERROR_INVALID_ARGS)
      else
        delayed <- gets (λ m, a_delayed_action (m_act m)) ;;
        if (match delayed with
            | Some a => negb (Z.land (hd_inhibit_what (handle_action_lookup a)) w =? 0)
            | None => false
            end)
        then ret (BusError BUS_ERROR_OPERATION_IN_PROGRESS)
        else
          polkit_bits msg mm (bits_of w) (
          attempt (msg_euid msg) (λ uid,
          attempt (msg_pidref msg) (λ pid,
            n <- gets (λ m, Z.of_nat (size (m_inhibitors m))) ;;
            max <- gets (λ m, c_inhibitors_max (m_conf m)) ;;
            if max <=? n then ret (BusError SD_BUS_ERROR_LIMITS_EXCEEDED)
            else
              n <- gets (λ m, size (m_inhibitors m)) ;;
              id <- next_inhibitor_id (S n) ;;
              inhibit_with id what w who why mm pid uid)))
  end.

Definition property_get_inhibited (mode : InhibitMode) : MM string :=
  w <- manager_inhibit_what mode ;; ret (default "" (inhibit_what_to_string w)).
End Inhibit.
