(* ===== verification/WordsFacts.v ===== *)
(** Splitting into words makes progress: every word uses up a character, so the
    loops that take a string apart word by word end. *)
From Stdlib Require Import Ascii.
From S2P Require Import Prelude LoginTypes ActionTypes LoginState LoginEnv Escape Parse EnvFile Words Objects Inhibit.
#[local] Open Scope string_scope.
#[local] Open Scope Z_scope.

Lemma app_nil_string s : s +:+ "" = s.
Proof. induction s as [|c s IH]; [done|]. by rewrite string_app_cons, IH. Qed.
Lemma drop_bytes_le n s : (String.length (drop_bytes n s) ≤ String.length s)%nat.
Proof. revert s. induction n as [|n IH]; intros [|c s]; cbn; try lia. specialize (IH s). lia. Qed.
Lemma drop_bytes_lt n s : (0 < n)%nat → s ≠ EmptyString → (String.length (drop_bytes n s) < String.length s)%nat.
Proof. destruct n as [|n]; [lia|]. destruct s as [|c s]; [done|]. intros _ _. cbn. pose proof (drop_bytes_le n s). lia. Qed.
Lemma cunescape_one_takes p accept_nul u eb r : cunescape_one p accept_nul = Some (u, eb, r) → (0 < r)%nat.
Proof. unfold cunescape_one. intros H. repeat case_match; simplify_eq; lia. Qed.
Lemma skip_while_le f s : (String.length (skip_while f s) ≤ String.length s)%nat.
Proof. induction s as [|c s IH]; cbn; [lia|]. case_match; cbn; lia. Qed.

Section Progress.
Context (separators : list ascii) (flags : extract_flags).

(** What is left of a string of [n] characters, or why there is no word. *)
Definition leaves (n : nat) (x : extract_result) : Prop :=
  match x with
  | ExtractError r => r = - EINVAL
  | ExtractWord _ (Some p) => (String.length p < n)%nat
  | _ => True
  end.
Lemma leaves_le n n' x : leaves n x → (n ≤ n')%nat → leaves n' x.
Proof. destruct x as [| |w [p|]]; cbn; intros; try done; lia. Qed.

Lemma extract_loop_leaves fuel s quote bs p :
  EXTRACT_RETAIN_SEPARATORS flags = false → (String.length p < fuel)%nat →
  leaves (String.length p) (extract_loop separators flags fuel s quote bs p).
Proof.
  intros Hr. revert s quote bs p. induction fuel as [|fuel IH]; intros s quote bs p Hf; [lia|].
  assert (Hgo : ∀ s' q b p', (String.length p' < String.length p)%nat →
    leaves (String.length p) (extract_loop separators flags fuel s' q b p')).
  { intros s' q b p' Hp. eapply leaves_le; [apply IH|]; lia. }
  cbn [extract_loop]. rewrite Hr. destruct bs.
  - destruct p as [|c p]; [by repeat case_match|]. destruct (_ || _); [|solve [apply Hgo; cbn; lia]].
    destruct (if EXTRACT_CUNESCAPE flags then _ else _) as [[[u eb] r]|] eqn:Eu.
    + apply Hgo. destruct (EXTRACT_CUNESCAPE flags); [|done]. apply drop_bytes_lt; [by eapply cunescape_one_takes|done].
    + repeat case_match; try done; try done; apply Hgo; cbn; lia.
  - destruct quote as [q|], p as [|c p]; cbn [negb].
    + by repeat case_match.
    + repeat case_match; try done; apply Hgo; cbn; lia.
    + done.
    + destruct (_ && _); [solve [apply Hgo; cbn; lia]|]. destruct (_ && _); [solve [apply Hgo; cbn; lia]|].
      destruct (is_separator _ _) eqn:Es; [|solve [apply Hgo; cbn; lia]]. destruct (EXTRACT_DONT_COALESCE_SEPARATORS flags); [cbn; lia|].
      cbn [skip_while]. rewrite Es.
      pose proof (skip_while_le (is_separator separators) p). destruct (skip_while _ _); cbn in *; [done|lia].
Qed.
Lemma extract_first_word_leaves p :
  EXTRACT_RETAIN_SEPARATORS flags = false →
  leaves (String.length p) (extract_first_word separators flags (Some p)).
Proof.
  intros Hr. unfold extract_first_word. rewrite Hr. destruct (EXTRACT_DONT_COALESCE_SEPARATORS flags).
  - destruct p as [|c p]; [done|]. case_match; [cbn; lia|]. apply extract_loop_leaves; [done|cbn; lia].
  - pose proof (skip_while_le (is_separator separators) p). destruct (skip_while _ p) as [|c r]; [done|].
    eapply leaves_le; [apply extract_loop_leaves; [done|cbn; lia]|done].
Qed.
End Progress.

(** What is left to read: each word takes a character, but for the last. *)
Definition to_read (p : option string) : nat := match p with Some s => S (String.length s) | None => 0 end.
Lemma what_loop_fuel n what p k : (to_read p < n)%nat → what_loop (n + k) what p = what_loop n what p.
Proof.
  revert what p. induction n as [|n IH]; intros what p Hn; [lia|]. cbn [Nat.add what_loop].
  destruct p as [p|]; [|done].
  pose proof (extract_first_word_leaves [":"%char] dont_coalesce p eq_refl) as Hl.
  destruct (extract_first_word _ _ _) as [| |w [p'|]]; [done..| |]; (destruct (find_name _ _); [|done]);
    apply IH; cbn in *; lia.
Qed.
(** The names stand for the eight lowest bits. *)
Lemma what_loop_range n what p :
  0 ≤ what < 256 → what_loop n what p < 256.
Proof.
  revert what p. induction n as [|n IH]; intros what p Hw; [done|]. cbn [what_loop].
  destruct p as [p|]; [|cbn; lia].
  pose proof (extract_first_word_leaves [":"%char] dont_coalesce p eq_refl) as Hl.
  destruct (extract_first_word _ _ _) as [r| |w p']; [by rewrite Hl|lia|].
  destruct (find_name w inhibit_what_names) as [bit|] eqn:Eb; [|done]. apply IH.
  assert (Hb : bit ∈ fst <$> inhibit_what_names).
  { revert Eb. clear. induction inhibit_what_names as [|[b nm] l IHl]; [done|]. cbn. case_bool_decide.
    - intros [= ->]. by left.
    - intros. right. auto. }
  assert (Hbr : 0 ≤ bit < 256) by (vm_compute in Hb; set_unfold in Hb; lia).
  split; [apply Z.lor_nonneg; lia|].
  destruct (Z.eq_dec (Z.lor what bit) 0) as [->|]; [lia|]. apply Z.log2_lt_cancel.
  change (Z.log2 256) with 8. rewrite Z.log2_lor by lia.
  destruct (Z.eq_dec what 0), (Z.eq_dec bit 0); subst; cbn; try lia;
  try (assert (Z.log2 what < 8) by (apply Z.log2_lt_pow2; lia));
  try (assert (Z.log2 bit < 8) by (apply Z.log2_lt_pow2; lia)); lia.
Qed.
Lemma inhibit_what_from_string_range s : inhibit_what_from_string s < 256.
Proof. by apply what_loop_range. Qed.

(** * Words that are joined are split again *)

Section Split.
Context (separators : list ascii) (flags : extract_flags).
(** The separators between two words count as one, and quotes are letters. *)
Hypothesis Hcoalesce : EXTRACT_DONT_COALESCE_SEPARATORS flags = false.
Hypothesis Hretain : EXTRACT_RETAIN_SEPARATORS flags = false.
Hypothesis Hquote : EXTRACT_KEEP_QUOTE flags || EXTRACT_UNQUOTE flags = false.
Hypothesis Hbackslash : is_separator separators backslash = false.

Definition plain (c : ascii) : bool := negb (is_separator separators c) && negb (bool_decide (c = backslash)).
Definition plain_word (w : string) : Prop := w ≠ "" ∧ string_forallb plain w = true.
(** What is left behind a word. *)
Definition behind (rest : string) : option string :=
  match skip_while (is_separator separators) rest with EmptyString => None | r => Some r end.
Definition at_separator (rest : string) : Prop :=
  match rest with EmptyString => True | String c _ => is_separator separators c = true end.

Lemma extract_loop_word fuel s w rest :
  string_forallb plain w = true → at_separator rest → (String.length w < fuel)%nat →
  extract_loop separators flags fuel s None false (w +:+ rest) = ExtractWord (s +:+ w) (behind rest).
Proof.
  revert s w. induction fuel as [|fuel IH]; intros s w Hw Hr Hf; [lia|].
  destruct w as [|c w].
  - rewrite app_nil_string. change ("" +:+ rest) with rest. destruct rest as [|c rest]; [done|]. cbn in Hr.
    assert (Hc : bool_decide (c = backslash) = false).
    { case_bool_decide; [|done]. subst c. congruence. }
    cbn [extract_loop]. rewrite Hquote, andb_false_r, Hc, Hr, Hcoalesce, Hretain. cbn [andb].
    unfold behind. by destruct (skip_while _ _).
  - cbn in Hw. apply andb_prop in Hw as [[Hs Hb]%andb_prop Hw]. apply negb_true_iff in Hs, Hb.
    rewrite string_app_cons. cbn [extract_loop]. rewrite Hquote, andb_false_r, Hb, Hs. cbn [andb].
    rewrite IH; [|done|done|cbn in Hf; lia]. by rewrite string_app_assoc.
Qed.
Lemma extract_first_word_plain w rest :
  plain_word w → at_separator rest →
  extract_first_word separators flags (Some (w +:+ rest)) = ExtractWord w (behind rest).
Proof.
  intros [Hne Hw] Hr. unfold extract_first_word. rewrite Hcoalesce.
  destruct w as [|c w]; [done|]. rewrite string_app_cons. cbn [skip_while].
  assert (Hs : is_separator separators c = false).
  { cbn in Hw. apply andb_prop in Hw as [[Hs _]%andb_prop _]. by apply negb_true_iff in Hs. }
  rewrite Hs, <-string_app_cons. rewrite extract_loop_word; [done|done|done|].
  rewrite !string_length_app. cbn. lia.
Qed.

(** Words behind each of which there is a separator, or that are joined by one. *)
Lemma split_loop_joined sep ws n :
  is_separator separators sep = true → Forall plain_word ws → (length ws < n)%nat →
  split_loop n separators flags (match ws with [] => None | _ => Some (concat_with (char1 sep) ws) end) = inr ws.
Proof.
  intros Hsep Hws. revert n. induction Hws as [|w ws Hw Hws IH]; intros n Hn; (destruct n as [|n]; [cbn in Hn; lia|]); [done|].
  cbn in Hn. cbn [split_loop]. destruct ws as [|w' ws'].
  - cbn [concat_with]. rewrite <-(app_nil_string w) at 1. rewrite extract_first_word_plain by done. cbn.
    by rewrite (IH n) by (cbn; lia).
  - change (concat_with (char1 sep) (w :: w' :: ws')) with (w +:+ String sep (concat_with (char1 sep) (w' :: ws'))).
    rewrite extract_first_word_plain by done.
    assert (Hb : behind (String sep (concat_with (char1 sep) (w' :: ws'))) = Some (concat_with (char1 sep) (w' :: ws'))).
    { unfold behind. cbn [skip_while]. rewrite Hsep. apply Forall_inv in Hws as [Hne Hp].
      destruct w' as [|c w']; [done|]. cbn in Hp. apply andb_prop in Hp as [[Hs _]%andb_prop _]. apply negb_true_iff in Hs.
      destruct ws'; cbn [concat_with]; rewrite ?string_app_cons; cbn [skip_while]; by rewrite Hs. }
    rewrite Hb. by rewrite (IH n) by (cbn in *; lia).
Qed.
End Split.

Lemma split_loop_fuel separators flags n s k :
  EXTRACT_RETAIN_SEPARATORS flags = false → (to_read s < n)%nat →
  split_loop (n + k) separators flags s = split_loop n separators flags s.
Proof.
  intros Hr. revert s. induction n as [|n IH]; intros s Hn; [lia|]. cbn [Nat.add split_loop].
  destruct s as [s|]; [|done]. pose proof (extract_first_word_leaves separators flags s Hr) as Hl.
  destruct (extract_first_word _ _ _) as [| |w [s'|]]; [done..| |]; (rewrite IH; [done|]); cbn in *; lia.
Qed.

(** * Removing duplicates *)

Lemma strv_remove_length l s : (length (strv_remove l s) ≤ length l)%nat.
Proof. apply length_filter. Qed.
Lemma uniq_loop_spec n l : (length l ≤ n)%nat →
  NoDup (uniq_loop n l) ∧ ∀ s, s ∈ uniq_loop n l ↔ s ∈ l.
Proof.
  revert l. induction n as [|n IH]; intros [|s l] Hn; cbn in *; try lia; try by split; [constructor|].
  pose proof (strv_remove_length l s). destruct (IH (strv_remove l s)) as [Hnd Hel]; [lia|].
  split.
  - constructor; [|done]. rewrite Hel. unfold strv_remove. rewrite list_elem_of_filter. tauto.
  - intros x. rewrite !elem_of_cons, Hel. unfold strv_remove. rewrite list_elem_of_filter.
    destruct (decide (x = s)); tauto.
Qed.
Lemma strv_uniq_spec l : NoDup (strv_uniq l) ∧ ∀ s, s ∈ strv_uniq l ↔ s ∈ l.
Proof. by apply uniq_loop_spec. Qed.
Lemma strv_uniq_id l : NoDup l → strv_uniq l = l.
Proof.
  intros H. unfold strv_uniq. induction H as [|s l Hs Hnd IH]; [done|]. cbn. f_equal.
  assert (Hr : strv_remove l s = l); [|by rewrite Hr].
  clear -Hs. unfold strv_remove. induction l as [|x l IH]; [done|]. apply not_elem_of_cons in Hs as [H1 H2].
  rewrite filter_cons_True by congruence. by rewrite IH.
Qed.
