(* ===== verification/Wall.v ===== *)
(** The warnings before a scheduled shutdown ([src/src/login/logind-wall.c]),
    and the timers of the event loop as the daemon sets them
    ([src/src/libelogind/sd-event/event-util.c]). *)
From stdpp Require Import pretty.
From S2P Require Import Prelude Time LoginTypes ActionTypes LoginState LoginEnv Bus.
#[local] Open Scope string_scope.
#[local] Open Scope Z_scope.
#[local] Open Scope list_scope.

Definition upd_act (f : actions → actions) : MM unit := modify (λ m, m <| m_act := f (m_act m) |>).

Section Wall.
Context {E : Env}.

(** [event_reset_time(..., force_reset = true)] of the timer [s] named
    [description]: the result, 1 for a new timer, and the timer. *)
Definition event_reset_time (s : option timer) (usec : Z) (description : string) : Z * option timer :=
  match s with
  | Some _ => if e_event_set_time <? 0 then (e_event_set_time, s) else (0, Some (mkTimer usec true))
  | None => if e_event_add description <? 0 then (e_event_add description, None)
            else (1, Some (mkTimer usec true))
  end.
(** [event_reset_time_relative] on the monotonic clock. *)
Definition event_reset_time_relative (s : option timer) (usec : Z) (description : string) : Z * option timer :=
  event_reset_time s (if 0 <? usec then usec_add e_now_monotonic usec else usec) description.
(** [sd_event_source_set_enabled(s, SD_EVENT_OFF)]; NULL is an error that nobody looks at. *)
Definition disable (s : option timer) : option timer := (λ t, mkTimer (t_usec t) false) <$> s.

Definition USEC_PER_MINUTE : Z := 60 * 1000000.
Definition USEC_PER_HOUR : Z := 60 * USEC_PER_MINUTE.

Definition wall_timers : list Z :=
  [0; 1; 2; 3; 4; 5; 6; 7; 8; 9; 10; 25; 40; 55; 70; 100; 130; 150; 180].
(** The loop from the second element on, with the one before it. *)
Fixpoint wall_step (left prev : Z) (l : list Z) : Z :=
  match l with
  | [] => left mod USEC_PER_HOUR
  | t :: l' => if left <=? t * USEC_PER_MINUTE then left - prev * USEC_PER_MINUTE
               else wall_step left t l'
  end.
Definition when_wall (n elapse : Z) : Z :=
  if elapse <=? n then 0 else wall_step (elapse - n) 0 (tail wall_timers).

(** The message itself; a failing wall() is ignored. *)
Definition warn_wall (n : Z) : MM Z :=
  a <- gets m_act ;;
  match a_scheduled_shutdown_action a with
  | None => ret 0
  | Some action =>
      let left := n <? a_scheduled_shutdown_timeout a in
      let message := default "" (a_wall_message a) in
      let l := message +:+ (if isempty message then "" else String (Ascii.ascii_of_nat 10) "") +:+
               "The system will " +:+ handle_action_verb_to_string action +:+ " " +:+
               (if left then "at " else "now") +:+
               (if left then e_format_timestamp (a_scheduled_shutdown_timeout a) else "") +:+ "!" in
      when (a_enable_wall_messages a) (emit (Wall l)) ;;;
      ret 1
  end.

(** The timer has fired: it is disabled until the handler sets it again. *)
Definition wall_message_timeout_handler : MM Z :=
  let n := e_now_realtime in
  r <- warn_wall n ;;
  if r =? 0 then ret 0
  else
    a <- gets m_act ;;
    let next := when_wall n (a_scheduled_shutdown_timeout a) in
    if 0 <? next then
      if e_event_set_time <? 0 then ret e_event_set_time
      else
        upd_act (λ a, a <| a_wall_message_timeout_source := Some (mkTimer (u64 (n + next)) true) |>) ;;;
        ret 0
    else ret 0.

Definition manager_setup_wall_message_timer : MM Z :=
  let n := e_now_realtime in
  a <- gets m_act ;;
  let elapse := a_scheduled_shutdown_timeout a in
  if negb (is_some (a_scheduled_shutdown_action a)) then ret 0
  else if (0 <? elapse) && (elapse <? n) then ret 0
  else
    r <- (if (elapse =? 0) || (u64 (elapse - n) <? 15 * USEC_PER_MINUTE) then warn_wall n else ret 1) ;;
    if r =? 0 then ret 0
    else
      let wait := when_wall n elapse in
      if wait =? 0 then ret 0
      else
        a <- gets m_act ;;
        let '(r, t) := event_reset_time (a_wall_message_timeout_source a) (u64 (n + wait)) "wall-message-timer" in
        upd_act (λ a, a <| a_wall_message_timeout_source := if r <? 0 then None else t |>) ;;;
        ret (if r <? 0 then r else 0).
End Wall.
