(* ===== verification/Power.v ===== *)
(** Power actions: what the keys, the idle timer and the D-Bus methods ask for
    is checked against the inhibitors, delayed or executed at once
    ([src/src/login/logind-action.c], the power part of [logind-dbus.c], and the
    SIGCHLD handler of [elogind.c]).  The child process that suspends the
    machine or runs the shutdown helper is outside; the daemon forks it and is
    told when it ends. *)
From stdpp Require Import pretty.
From S2P Require Import Prelude Time LoginTypes ActionTypes LoginState LoginEnv Bus Objects Session SessionBus ManagerBus Inhibit Wall.
#[local] Open Scope string_scope.
#[local] Open Scope Z_scope.
#[local] Open Scope list_scope.

Section Power.
Context {E : Env}.

(** * Executing and delaying *)

Definition send_prepare_for (a : HandleAction) (active : bool) : MM unit :=
  let what := hd_inhibit_what (handle_action_lookup a) in
  assert_se ((what =? INHIBIT_SHUTDOWN) || (what =? INHIBIT_SLEEP)) ;;;
  if what =? INHIBIT_SHUTDOWN then
    emit (PrepareForShutdownWithMetadata active
            (or_null (to_string (hd_handle (handle_action_lookup a))))) ;;;
    emit (PrepareForShutdown active)
  else emit (PrepareForSleep active).

Definition manager_set_lid_switch_ignore (until : Z) : MM Z :=
  if until <=? e_now_monotonic then ret 0
  else
    a <- gets m_act ;;
    match a_lid_switch_ignore_event_source a with
    | Some t =>
        if until <=? t_usec t then ret 0
        else if e_event_set_time <? 0 then ret e_event_set_time
        else
          upd_act (λ a, a <| a_lid_switch_ignore_event_source := Some (mkTimer until (t_enabled t)) |>) ;;;
          ret 0
    | None =>
        if e_event_add "lid-switch-ignore" <? 0 then ret (e_event_add "lid-switch-ignore")
        else
          upd_act (λ a, a <| a_lid_switch_ignore_event_source := Some (mkTimer until true) |>) ;;;
          ret 0
    end.
Definition lid_switch_ignore_handler : MM Z :=
  upd_act (λ a, a <| a_lid_switch_ignore_event_source := None |>) ;;; ret 0.

(** As the parent goes on: an error, or 1. *)
Definition elogind_execute_shutdown_or_sleep (a : HandleAction) : MM Z :=
  let d := handle_action_lookup a in
  assert_se (0 <=? hd_inhibit_what d) ;;;
  assert_se (hd_inhibit_what d <? _INHIBIT_WHAT_MAX) ;;;
  when (in_set (hd_handle d) [HANDLE_HALT; HANDLE_POWEROFF; HANDLE_REBOOT])
    (emit (UtmpWritten (if bool_decide (hd_handle d = HANDLE_REBOOT) then "reboot" else "shutdown"))) ;;;
  upd_act (λ s, s <| a_sleep_fork_action := Some a |> <| a_action_job := to_string (hd_handle d) |>) ;;;
  match e_fork ("e-" +:+ or_null (to_string (hd_handle d))) with
  | inl t => upd_act (λ s, s <| a_sleep_fork_action := None |> <| a_action_job := None |>) ;;; ret t
  | inr pid => upd_act (λ s, s <| a_sleep_fork_pid := pid |>) ;;; emit (Forked a) ;;; ret 1
  end.

Definition execute_shutdown_or_sleep (a : HandleAction) : MM Z :=
  s <- gets m_act ;;
  assert_se (negb (is_some (a_action_job s))) ;;;
  if is_some (a_sleep_fork_action s) then ret 0
  else
    r <- elogind_execute_shutdown_or_sleep a ;;
    if r <? 0 then send_prepare_for a false ;;; ret r
    else
      upd_act (λ s, s <| a_delayed_action := Some a |>) ;;;
      holdoff <- gets (λ m, c_holdoff_timeout_usec (m_conf m)) ;;
      ignore (manager_set_lid_switch_ignore (usec_add e_now_monotonic holdoff)) ;;;
      ret 0.

Definition delay_shutdown_or_sleep (a : HandleAction) : MM Z :=
  s <- gets m_act ;;
  max <- gets (λ m, c_inhibit_delay_max (m_conf m)) ;;
  let '(r, t) := event_reset_time_relative (a_inhibit_timeout_source s) max "inhibit-timeout" in
  upd_act (λ s, s <| a_inhibit_timeout_source := t |>) ;;;
  if r <? 0 then ret r
  else upd_act (λ s, s <| a_delayed_action := Some a |>) ;;; ret 0.

Definition is_delayed (a : HandleAction) : MM bool :=
  x <- manager_is_inhibited (hd_inhibit_what (handle_action_lookup a)) false false false 0 ;; ret (x.1.1).

(** The result says whether there was work. *)
Definition manager_dispatch_delayed (timeout : bool) : MM Z :=
  s <- gets m_act ;;
  match a_delayed_action s with
  | Some a =>
      if is_some (a_action_job s) then ret 0
      else
        inhibited <- is_delayed a ;;
        if (inhibited : bool) && negb timeout then ret 0
        else
          r <- execute_shutdown_or_sleep a ;;
          when (r <? 0) (upd_act (λ s, s <| a_delayed_action := None |>)) ;;;
          ret 1
  | None => ret 0
  end.
Definition manager_inhibit_timeout_handler : MM Z :=
  s <- gets m_act ;;
  assert_se (is_some (a_inhibit_timeout_source s)) ;;;
  manager_dispatch_delayed true.

Definition cancel_delayed_action : MM unit :=
  upd_act (λ s, s <| a_inhibit_timeout_source := disable (a_inhibit_timeout_source s) |>
                  <| a_delayed_action := if is_some (a_action_job s) then a_delayed_action s else None |>).

Definition bus_manager_shutdown_or_sleep_now_or_later (a : HandleAction) : MM Z :=
  s <- gets m_act ;;
  assert_se (negb (is_some (a_action_job s))) ;;;
  match e_sleep_config with
  | inl r => ret r
  | inr (allow_poweroff_interrupts, allow_suspend_interrupts) =>
      let what := hd_inhibit_what (handle_action_lookup a) in
      when (((what =? INHIBIT_SHUTDOWN) && negb allow_poweroff_interrupts)
            || ((what =? INHIBIT_SLEEP) && negb allow_suspend_interrupts))
        (send_prepare_for a true) ;;;
      max <- gets (λ m, c_inhibit_delay_max (m_conf m)) ;;
      delayed <- (if 0 <? max then is_delayed a else ret false) ;;
      if (delayed : bool) then delay_shutdown_or_sleep a else execute_shutdown_or_sleep a
  end.

(** [elogind_sigchld_handler]: a wait that reports nothing leaves [status] as
    it is. *)
Definition child_ended (status : Z) : bool :=
  let low := Z.land status 0x7f in
  (* WIFEXITED: low = 0; WIFSIGNALED: low is neither 0 nor 0x7f *)
  negb (low =? 0x7f).
Definition elogind_sigchld_handler : MM Z :=
  if e_event_finished then ret 0
  else
    s <- gets m_act ;;
    let tool := 0 <? a_tool_fork_pid s in
    let status := if tool then default e_uninit_int (e_waitpid (a_tool_fork_pid s)) else e_uninit_int in
    when (tool && child_ended status) (upd_act (λ s, s <| a_tool_fork_pid := 0 |>)) ;;;
    if 0 <? a_sleep_fork_pid s then
      let status := default status (e_waitpid (a_sleep_fork_pid s)) in
      when (child_ended status) (upd_act (λ s, s <| a_sleep_fork_pid := 0 |>)) ;;;
      match a_sleep_fork_action s with
      | Some a =>
          if is_some (hd_sleep_operation (handle_action_lookup a)) then
            send_prepare_for a false ;;;
            upd_act (λ s, s <| a_action_job := None |> <| a_delayed_action := None |>
                            <| a_sleep_fork_action := None |>) ;;;
            ret 0
          else ret 0
      | None => ret 0
      end
    else ret 0.

(** * Actions that a key or the idle timer asks for *)

Definition sleep_supported (op : option SleepOperation) : MM Z :=
  op <- deref op ;; ret (e_sleep_supported op).
Definition handle_action_sleep_supported (a : HandleAction) : MM bool :=
  assert_se (HANDLE_ACTION_IS_SLEEP a && negb (bool_decide (a = HANDLE_SLEEP))) ;;;
  r <- sleep_supported (hd_sleep_operation (handle_action_lookup a)) ;; ret (0 <? r).

Definition sleep_actions : list HandleAction :=
  [HANDLE_SUSPEND_THEN_HIBERNATE; HANDLE_HYBRID_SLEEP; HANDLE_SUSPEND; HANDLE_HIBERNATE].
(** [FLAGS_SET(mask, 1U << action)]. *)
Definition action_enabled (mask : Z) (a : HandleAction) : bool := Z.testbit mask (handle_action_index a).
Definition handle_action_get_enabled_sleep_actions (mask : Z) : list (option string) :=
  to_string <$> filter (λ a, action_enabled mask a = true) sleep_actions.

Fixpoint sleep_select (mask : Z) (l : list HandleAction) : MM (option HandleAction) :=
  match l with
  | [] => ret None
  | a :: l' =>
      if negb (action_enabled mask a) then sleep_select mask l'
      else
        r <- sleep_supported (hd_sleep_operation (handle_action_lookup a)) ;;
        if r <=? 0 then sleep_select mask l' else ret (Some a)
  end.
Definition handle_action_sleep_select : MM (option HandleAction) :=
  mask <- gets (λ m, c_handle_action_sleep_mask (m_conf m)) ;; sleep_select mask sleep_actions.

Definition handle_action_execute (handle : HandleAction) (ignore_inhibited is_edge : bool) : MM Z :=
  assert_se (negb (in_set handle [HANDLE_IGNORE; HANDLE_LOCK; HANDLE_SLEEP])) ;;;
  if bool_decide (handle = HANDLE_KEXEC) && (e_kexec <? 0) then ret (- EOPNOTSUPP)
  else
    s <- gets m_act ;;
    if is_some (a_delayed_action s) then ret (- EALREADY)
    else
      let inhibit_operation := hd_inhibit_what (handle_action_lookup handle) in
      x <-
        (if inhibit_what_is_valid inhibit_operation && negb ignore_inhibited
         then manager_is_inhibited inhibit_operation true false false 0 else ret not_inhibited) ;;
      if (x.1.1 : bool) then
        deref x.2 ;;;
        ret (if is_edge then - EPERM else 0)
      else
        r <- bus_manager_shutdown_or_sleep_now_or_later handle ;;
        ret (if r <? 0 then r else 1).

Definition handle_action_sleep_one (handle : HandleAction) (ignore_inhibited is_edge : bool) : MM Z :=
  supported <- handle_action_sleep_supported handle ;;
  if (supported : bool) then handle_action_execute handle ignore_inhibited is_edge
  else if negb (bool_decide (handle = HANDLE_SUSPEND)) && (0 <? e_sleep_supported SLEEP_SUSPEND)
  then handle_action_execute HANDLE_SUSPEND ignore_inhibited is_edge
  else ret (- EOPNOTSUPP).
Definition handle_action_sleep_execute (handle : HandleAction) (ignore_inhibited is_edge : bool) : MM Z :=
  assert_se (HANDLE_ACTION_IS_SLEEP handle) ;;;
  if bool_decide (handle = HANDLE_SLEEP) then
    a <- handle_action_sleep_select ;;
    match a with
    | None => ret (- EOPNOTSUPP)
    | Some a => handle_action_sleep_one a ignore_inhibited is_edge
    end
  else handle_action_sleep_one handle ignore_inhibited is_edge.

Definition manager_handle_action_secure_attention_key (is_edge : bool) (seat : option string) : MM Z :=
  if negb is_edge then ret 0
  else match seat with
  | None => ret 0
  | Some k =>
      o <- gets (λ m, m_seats m !! k) ;;
      match o with None => ret 0 | Some _ => emit (SecureAttentionKey k) ;;; ret 0 end
  end.

Definition manager_handle_action (inhibit_key : Z) (handle : HandleAction)
  (ignore_inhibited is_edge : bool) (action_seat : option string) : MM Z :=
  if bool_decide (handle = HANDLE_IGNORE) then ret 0
  else
    s <- gets m_act ;;
    if (inhibit_key =? INHIBIT_HANDLE_LID_SWITCH) && is_some (a_lid_switch_ignore_event_source s) then ret 0
    else
      x <- (if 0 <? inhibit_key then manager_is_inhibited inhibit_key true true false 0
            else ret not_inhibited) ;;
      if (x.1.1 : bool) then ret 0
      else if bool_decide (handle = HANDLE_LOCK) then
        if negb is_edge then ret 0 else ignore (session_send_lock_all true) ;;; ret 1
      else if bool_decide (handle = HANDLE_SECURE_ATTENTION_KEY) then
        manager_handle_action_secure_attention_key is_edge action_seat
      else if HANDLE_ACTION_IS_SLEEP handle then handle_action_sleep_execute handle ignore_inhibited is_edge
      else handle_action_execute handle ignore_inhibited is_edge.
End Power.
