(* ===== verification/Schedule.v ===== *)
(** Shutdown and sleep over D-Bus, at once and scheduled: the checks of the
    caller, the schedule with its timers and its file, and cancelling
    ([src/src/login/logind-dbus.c]; built with polkit). *)
From Stdlib Require Import Ascii.
From stdpp Require Import pretty.
From S2P Require Import Prelude Time LoginTypes ActionTypes LoginState LoginEnv Escape Parse EnvFile Bus Objects Session SessionBus ManagerBus Inhibit Wall Power.
#[local] Open Scope string_scope.
#[local] Open Scope Z_scope.
#[local] Open Scope list_scope.

(** * Flags *)

Definition SD_LOGIND_ROOT_CHECK_INHIBITORS : Z := Z.shiftl 1 0.
Definition SD_LOGIND_REBOOT_VIA_KEXEC : Z := Z.shiftl 1 1.
Definition SD_LOGIND_SOFT_REBOOT : Z := Z.shiftl 1 2.
Definition SD_LOGIND_SOFT_REBOOT_IF_NEXTROOT_SET_UP : Z := Z.shiftl 1 3.
Definition SD_LOGIND_SKIP_INHIBITORS : Z := Z.shiftl 1 4.
Definition SD_LOGIND_INTERACTIVE : Z := Z.shiftl 1 63.
Definition SD_LOGIND_SHUTDOWN_AND_SLEEP_FLAGS_PUBLIC : Z :=
  Z.lor (Z.lor (Z.lor (Z.lor SD_LOGIND_ROOT_CHECK_INHIBITORS SD_LOGIND_REBOOT_VIA_KEXEC) SD_LOGIND_SOFT_REBOOT)
    SD_LOGIND_SOFT_REBOOT_IF_NEXTROOT_SET_UP) SD_LOGIND_SKIP_INHIBITORS.
Definition FLAGS_SET (flags f : Z) : bool := Z.land flags f =? f.

Section Schedule.
Context {E : Env}.

(** * The schedule *)

Definition reset_scheduled_shutdown : MM unit :=
  a <- gets m_act ;;
  upd_act (λ a, a <| a_scheduled_shutdown_timeout_source := None |>
                  <| a_wall_message_timeout_source := None |>
                  <| a_nologin_timeout_source := None |>
                  <| a_scheduled_shutdown_action := None |>
                  <| a_scheduled_shutdown_timeout := USEC_INFINITY |>
                  <| a_scheduled_shutdown_uid := UID_INVALID |>
                  <| a_scheduled_shutdown_tty := None |>
                  <| a_shutdown_dry_run := false |>
                  <| a_unlink_nologin := false |>) ;;;
  when (a_unlink_nologin a) (emit NologinRemoved) ;;;
  emit ScheduleRemoved ;;;
  manager_send_changed ["ScheduledShutdown"].

(** The lines of the file, and the result of the last item, which can fail. *)
Definition schedule_lines (a : actions) (action : HandleAction) : Z * state_file :=
  let wall := default "" (a_wall_message a) in
  let '(r, wall_line) := if isempty wall then (0, []) else serialize_item_escaped "WALL_MESSAGE" (Some wall) in
  (r,
   (serialize_usec "USEC" (a_scheduled_shutdown_timeout a)).2
   ++ (serialize_item "WARN_WALL" (Some (one_zero (a_enable_wall_messages a)))).2
   ++ (serialize_item "MODE" (Some (or_null (to_string action)))).2
   ++ (serialize_item "UID" (Some (pretty (a_scheduled_shutdown_uid a)))).2
   ++ (serialize_item "TTY" (a_scheduled_shutdown_tty a)).2
   ++ wall_line).
Definition update_schedule_file : MM Z :=
  a <- gets m_act ;;
  action <- deref (a_scheduled_shutdown_action a) ;;
  if e_schedule_open <? 0 then ret e_schedule_open
  else
    let '(r, lines) := schedule_lines a action in
    let r := if r <? 0 then r else e_schedule_close in
    if r <? 0 then emit ScheduleRemoved ;;; ret r
    else emit (ScheduleSaved lines) ;;; ret 0.

Definition nologin_timeout_handler : MM Z :=
  upd_act (λ a, a <| a_unlink_nologin := 0 <=? e_run_nologin |>) ;;; ret 0.
(** [LESS_BY]: the difference, 0 if it would be negative. *)
Definition nologin_timeout_usec (elapse : Z) : Z :=
  if elapse >? 5 * USEC_PER_MINUTE then elapse - 5 * USEC_PER_MINUTE else 0.

Definition manager_scheduled_shutdown_handler : MM Z :=
  a <- gets m_act ;;
  action <- deref (a_scheduled_shutdown_action a) ;;
  if is_some (a_delayed_action a) then reset_scheduled_shutdown ;;; ret (- EALREADY)
  else if a_shutdown_dry_run a then reset_scheduled_shutdown ;;; ret 0
  else
    r <- bus_manager_shutdown_or_sleep_now_or_later action ;;
    if r <? 0 then reset_scheduled_shutdown ;;; ret r else ret 0.

(** The two timers; both go when one of them cannot be set. *)
Definition manager_setup_shutdown_timers : MM Z :=
  a <- gets m_act ;;
  let elapse := a_scheduled_shutdown_timeout a in
  let fail (r : Z) :=
    upd_act (λ a, a <| a_scheduled_shutdown_timeout_source := None |>
                    <| a_nologin_timeout_source := None |>) ;;; ret r in
  let '(r, t) := event_reset_time (a_scheduled_shutdown_timeout_source a) elapse "scheduled-shutdown-timeout" in
  if r <? 0 then fail r
  else
    upd_act (λ a, a <| a_scheduled_shutdown_timeout_source := t |>) ;;;
    let '(r, t) := event_reset_time (a_nologin_timeout_source a) (nologin_timeout_usec elapse) "nologin-timeout" in
    if r <? 0 then fail r
    else upd_act (λ a, a <| a_nologin_timeout_source := t |>) ;;; ret 0.

(** What is taken from the file; what does not parse stays as it is. *)
Definition load_fields (handle : HandleAction) (usec : Z) (f : string → option string) (a : actions) : actions :=
  let a := a <| a_scheduled_shutdown_timeout := usec |>
             <| a_scheduled_shutdown_action := Some handle |> in
  let a := match parse_boolean <$> f "WARN_WALL" with
           | Some (inr b) => a <| a_enable_wall_messages := b |>
           | _ => a
           end in
  let a := match cunescape_value <$> f "WALL_MESSAGE" with
           | Some (inr w) => a <| a_wall_message := Some w |>
           | _ => a
           end in
  let a := match parse_uid <$> f "UID" with
           | Some (inr u) => a <| a_scheduled_shutdown_uid := u |>
           | _ => a
           end in
  a <| a_scheduled_shutdown_tty := f "TTY" |>.
(** The file as it was read, [r] the result; the checks in the code's order. *)
Definition load_schedule (r : Z) (f : string → option string) : MM unit :=
  reset_scheduled_shutdown ;;;
  if r <? 0 then ret tt
  else match from_string (A := HandleAction) (f "MODE") with
  | None => ret tt
  | Some handle =>
      match deserialize_usec <$> f "USEC" with
      | None | Some (inl _) => ret tt
      | Some (inr usec) =>
          upd_act (load_fields handle usec f) ;;;
          r <- manager_setup_shutdown_timers ;;
          if r <? 0 then reset_scheduled_shutdown
          else ignore manager_setup_wall_message_timer ;;; ignore update_schedule_file
      end
  end.
Definition manager_load_scheduled_shutdown : MM unit :=
  let '(r, f) := parse_env_file_at "/run/systemd/shutdown/scheduled" in load_schedule r f.

(** * Who may *)

Fixpoint other_user (uid : Z) (l : list string) : MM bool :=
  match l with
  | [] => ret false
  | sid :: l' =>
      s <- get_session sid ;;
      if in_set (s_class s) [SESSION_USER; SESSION_USER_EARLY] then
        owner <- deref (s_user s) ;;
        u <- get_user owner ;;
        if negb (ur_uid (u_user_record u) =? uid) then ret true else other_user uid l'
      else other_user uid l'
  end.
Definition have_multiple_sessions (uid : Z) : MM bool :=
  ids <- gets (λ m, e_order_ids (fst <$> map_to_list (m_sessions m))) ;; other_user uid ids.

(** A check with an action of the table. *)
Definition polkit_row_check (msg : message) (action : option string) (k : MM outcome) : MM outcome :=
  action <- deref action ;; polkit msg action k.
(** [verify_shutdown_creds], and what is done then. *)
Definition verify_shutdown_creds (msg : message) (a : HandleAction) (flags : Z) (k : MM outcome) : MM outcome :=
  let d := handle_action_lookup a in
  attempt (msg_euid msg) (λ uid,
    multiple_sessions <- have_multiple_sessions uid ;;
    x <- manager_is_inhibited (hd_inhibit_what d) true false true uid ;;
    let blocked := x.1.1 in
    let if_blocked :=
      if (blocked : bool) then
        offending <- deref x.2 ;;
        let weak := bool_decide (i_mode offending = Some INHIBIT_BLOCK_WEAK) in
        if negb (FLAGS_SET flags SD_LOGIND_SKIP_INHIBITORS)
           && (negb weak || ((uid =? 0) && FLAGS_SET flags SD_LOGIND_ROOT_CHECK_INHIBITORS))
        then ret (BusError SD_BUS_ERROR_ACCESS_DENIED)
        else polkit_row_check msg (hd_polkit_action_ignore_inhibit d) k
      else if (multiple_sessions : bool) then k
      else polkit_row_check msg (hd_polkit_action d) k in
    if (multiple_sessions : bool) then polkit_row_check msg (hd_polkit_action_multiple_sessions d) if_blocked
    else if_blocked).

(** * The methods *)

Definition setup_wall_message_timer (msg : message) : MM Z :=
  match msg_creds msg with
  | inl _ => ret tt
  | inr (uid, tty) =>
      upd_act (λ a, a <| a_scheduled_shutdown_uid := default (a_scheduled_shutdown_uid a) uid |>
                      <| a_scheduled_shutdown_tty := tty |>)
  end ;;;
  r <- manager_setup_wall_message_timer ;;
  ret (if r <? 0 then r else 0).

(** The user whose session the sleep hooks work for. *)
Definition set_scheduled_sleep_uid (msg : message) : MM unit :=
  match msg_creds msg with
  | inr (Some uid, _) => upd_act (λ a, a <| a_scheduled_sleep_uid := uid |>)
  | _ => ret tt
  end ;;;
  a <- gets m_act ;;
  when (a_scheduled_sleep_uid a =? 0)
    (match e_active_uid with
     | Some uid => upd_act (λ a, a <| a_scheduled_sleep_uid := uid |>)
     | None => ret tt
     end).

(** The flags, from the argument of either style. *)
Definition sleep_flags (action : HandleAction) (arg : bool + Z) : outcome + Z :=
  match arg with
  | inl interactive => inr (if interactive : bool then SD_LOGIND_INTERACTIVE else 0)
  | inr flags =>
      if negb (Z.land flags (Z.lnot SD_LOGIND_SHUTDOWN_AND_SLEEP_FLAGS_PUBLIC) =? 0) then invalid_args
      else if negb (bool_decide (action = HANDLE_REBOOT)) && FLAGS_SET flags SD_LOGIND_REBOOT_VIA_KEXEC
      then invalid_args
      else inr flags
  end.
(** The row of the table that is meant. *)
Definition choose_action (action : HandleAction) (flags : Z) : MM (outcome + HandleAction) :=
  if bool_decide (action = HANDLE_SLEEP) then
    a <- handle_action_sleep_select ;;
    ret (match a with Some a => inr a | None => inl (BusError BUS_ERROR_SLEEP_VERB_NOT_SUPPORTED) end)
  else if HANDLE_ACTION_IS_SLEEP action then
    r <- sleep_supported (hd_sleep_operation (handle_action_lookup action)) ;;
    ret (if r <? 0 then inl (Errno r)
         else if r =? 0 then inl (BusError BUS_ERROR_SLEEP_VERB_NOT_SUPPORTED)
         else inr action)
  else ret (inr (if FLAGS_SET flags SD_LOGIND_REBOOT_VIA_KEXEC && e_kexec_loaded then HANDLE_KEXEC else action)).

Definition do_shutdown_or_sleep (action a : HandleAction) (msg : message) : MM outcome :=
  set_scheduled_sleep_uid msg ;;;
  s <- gets m_act ;;
  if is_some (a_delayed_action s) then ret (BusError BUS_ERROR_OPERATION_IN_PROGRESS)
  else
    upd_act (λ s, s <| a_unlink_nologin := false |>) ;;;
    reset_scheduled_shutdown ;;;
    upd_act (λ s, s <| a_scheduled_shutdown_timeout := 0 |> <| a_scheduled_shutdown_action := Some action |>) ;;;
    ignore (setup_wall_message_timer msg) ;;;
    r <- bus_manager_shutdown_or_sleep_now_or_later a ;;
    ret (reply_or r).
Definition method_do_shutdown_or_sleep (action : HandleAction) (arg : bool + Z) (msg : message) : MM outcome :=
  assert_se (HANDLE_ACTION_IS_SHUTDOWN action || HANDLE_ACTION_IS_SLEEP action) ;;;
  try (ret (sleep_flags action arg)) (λ flags,
  try (choose_action action flags) (λ a,
    verify_shutdown_creds msg a flags (do_shutdown_or_sleep action a msg))).

(** The type, and whether it is a dry run. *)
Definition shutdown_type (type : string) : string * bool :=
  match startswith type "dry-" with Some t => (t, true) | None => (type, false) end.
Definition schedule_at (elapse : Z) : outcome + Z :=
  if negb (elapse =? USEC_INFINITY) then inr elapse
  else match e_maintenance_time with
  | Some (inr t) => inr t
  | Some (inl r) => inl (if r =? - ENOENT then BusError BUS_ERROR_DESIGNATED_MAINTENANCE_TIME_NOT_SCHEDULED
                         else Errno r)
  | None => inr (usec_add e_now_realtime USEC_PER_MINUTE)
  end.
Definition do_schedule_shutdown (handle : HandleAction) (dry_run : bool) (elapse : Z) (msg : message)
  : MM outcome :=
  upd_act (λ a, a <| a_scheduled_shutdown_action := Some handle |> <| a_shutdown_dry_run := dry_run |>
                  <| a_scheduled_shutdown_timeout := elapse |>) ;;;
  r <- manager_setup_shutdown_timers ;;
  if r <? 0 then ret (Errno r)
  else
    r <- setup_wall_message_timer msg ;;
    r <- (if 0 <=? r then update_schedule_file else ret r) ;;
    if r <? 0 then reset_scheduled_shutdown ;;; ret (Errno r)
    else manager_send_changed ["ScheduledShutdown"] ;;; ret Reply.
Definition method_schedule_shutdown (type : string) (elapse : Z) (msg : message) : MM outcome :=
  let '(type, dry_run) := shutdown_type type in
  match from_string (A := HandleAction) (Some type) with
  | Some handle =>
      if negb (HANDLE_ACTION_IS_SHUTDOWN handle) then ret (BusError SD_BUS_ERROR_INVALID_ARGS)
      else
        verify_shutdown_creds msg handle 0
          (try (ret (schedule_at elapse)) (λ elapse, do_schedule_shutdown handle dry_run elapse msg))
  | None => ret (BusError SD_BUS_ERROR_INVALID_ARGS)
  end.

Definition cancel_message (a : actions) : string :=
  let w := default "" (a_wall_message a) in
  w +:+ (if isempty w then "" else String (ascii_of_nat 10) "") +:+ "System shutdown has been cancelled".
Definition method_cancel_scheduled_shutdown (msg : message) : MM outcome :=
  a <- gets m_act ;;
  match a_scheduled_shutdown_action a with
  | None | Some HANDLE_IGNORE => ret (ReplyBool false)
  | Some action =>
      match hd_polkit_action (handle_action_lookup action) with
      | None => ret (BusError SD_BUS_ERROR_AUTH_FAILED)
      | Some p =>
          polkit msg p (
            when (a_enable_wall_messages a) (emit (Wall (cancel_message a))) ;;;
            cancel_delayed_action ;;;
            reset_scheduled_shutdown ;;;
            ret (ReplyBool true))
      end
  end.

Definition WALL_MESSAGE_MAX : Z := 4096.
Definition empty_to_null (s : string) : option string := if isempty s then None else Some s.
Definition method_set_wall_message (wall_message : string) (enable : bool) (msg : message) : MM outcome :=
  if WALL_MESSAGE_MAX <? Z.of_nat (String.length wall_message) then ret (BusError SD_BUS_ERROR_INVALID_ARGS)
  else
    a <- gets m_act ;;
    if bool_decide (a_wall_message a = empty_to_null wall_message)
       && Bool.eqb (a_enable_wall_messages a) enable then ret Reply
    else
      polkit msg "org.freedesktop.login1.set-wall-message" (
        upd_act (λ a, a <| a_wall_message := empty_to_null wall_message |> <| a_enable_wall_messages := enable |>) ;;;
        ret Reply).

(** * What could be done: CanPowerOff and its siblings

    [test] is [bus_test_polkit]: an error, yes, or whether to challenge. *)
Definition can_result (test : string → Z * bool) (action : option string)
  (result : option string → Z * bool → option string) (old : option string) : MM (Z + option string) :=
  action <- deref action ;;
  let x := test action in ret (if x.1 <? 0 then inl x.1 else inr (result old x)).
Definition polkit_answer (old : option string) (x : Z * bool) : option string :=
  Some (if 0 <? x.1 then "yes" else if x.2 then "challenge" else "no").
Definition polkit_answer_blocked (old : option string) (x : Z * bool) : option string :=
  if 0 <? x.1 then match old with None => Some "yes" | _ => old end
  else if x.2 then match old with
                   | None | Some "yes" => Some "challenge"
                   | _ => old
                   end
  else Some "no".
Definition and_then (c : MM (Z + option string)) (k : option string → MM (Z + option string)) : MM (Z + option string) :=
  r <- c ;; match r with inl r => ret (inl r) | inr o => k o end.

Definition can_answer (a : HandleAction) (test : string → Z * bool) (msg : message) : MM outcome :=
  let d := handle_action_lookup a in
  attempt (msg_euid msg) (λ uid,
    multiple_sessions <- have_multiple_sessions uid ;;
    x <- manager_is_inhibited (hd_inhibit_what d) true false true uid ;;
    let blocked : bool := x.1.1 in
    r <- and_then (if (multiple_sessions : bool)
                   then can_result test (hd_polkit_action_multiple_sessions d) polkit_answer None
                   else ret (inr None)) (λ result,
         and_then (if blocked then can_result test (hd_polkit_action_ignore_inhibit d) polkit_answer_blocked result
                   else ret (inr result)) (λ result,
         if negb multiple_sessions && negb blocked then can_result test (hd_polkit_action d) polkit_answer result
         else ret (inr result))) ;;
    ret (match r with inl r => Errno r | inr result => ReplyString (default "" result) end)).
Definition method_can_shutdown_or_sleep (action : HandleAction) (test : string → Z * bool) (msg : message)
  : MM outcome :=
  assert_se (HANDLE_ACTION_IS_SHUTDOWN action || HANDLE_ACTION_IS_SLEEP action) ;;;
  if bool_decide (action = HANDLE_SLEEP) then
    a <- handle_action_sleep_select ;;
    match a with None => ret (ReplyString "na") | Some a => can_answer a test msg end
  else if HANDLE_ACTION_IS_SLEEP action then
    op <- deref (hd_sleep_operation (handle_action_lookup action)) ;;
    if e_sleep_supported op <? 0 then ret (Errno (e_sleep_supported op))
    else if e_sleep_supported op =? 0 then ret (ReplyString (if e_sleep_disabled op then "no" else "na"))
    else can_answer action test msg
  else can_answer action test msg.

(** * The properties *)

Definition property_get_preparing (shutdown : bool) (m : manager) : bool :=
  match a_delayed_action (m_act m) with
  | None => false
  | Some a => negb (Z.land (hd_inhibit_what (handle_action_lookup a))
                      (if shutdown then INHIBIT_SHUTDOWN else INHIBIT_SLEEP) =? 0)
  end.
Definition property_get_preparing_shutdown_with_metadata (m : manager) : bool * option string :=
  match a_delayed_action (m_act m) with
  | None => (false, None)
  | Some a =>
      if Z.land (hd_inhibit_what (handle_action_lookup a)) INHIBIT_SHUTDOWN =? 0 then (false, None)
      else (true, to_string (hd_handle (handle_action_lookup a)))
  end.
Definition property_get_scheduled_shutdown (m : manager) : string * Z :=
  let a := m_act m in
  match a_delayed_action a with
  | Some h =>
      (or_null (to_string (hd_handle (handle_action_lookup h))),
       match a_inhibit_timeout_source a with Some t => t_usec t | None => a_scheduled_shutdown_timeout a end)
  | None => (default "" (h ← a_scheduled_shutdown_action a; to_string h), a_scheduled_shutdown_timeout a)
  end.
End Schedule.
