(* ===== verification/Buttons.v ===== *)
(** Power buttons, the lid and the docking station
    ([src/src/login/logind-button.c], and of [logind-core.c] what looks at them).
    A button is named by its input device.  And the idleness of the whole system, with
    what is done about it ([manager_get_idle_hint] of [logind-core.c],
    [manager_dispatch_idle_action] of [src/src/login/logind.c]). *)
From Stdlib Require Import Ascii.
From S2P Require Import Prelude Time LoginTypes ActionTypes LoginState LoginEnv Parse Bus Objects User Inhibit Wall Power.
#[local] Open Scope string_scope.
#[local] Open Scope Z_scope.
#[local] Open Scope list_scope.

(** * Keys *)

(** <linux/input-event-codes.h>. *)
Definition EV_SYN : Z := 0.
Definition EV_KEY : Z := 1.
Definition EV_SW : Z := 5.
Definition KEY_ESC : Z := 1.
Definition KEY_LEFTCTRL : Z := 29.
Definition KEY_LEFTSHIFT : Z := 42.
Definition KEY_RIGHTSHIFT : Z := 54.
Definition KEY_LEFTALT : Z := 56.
Definition KEY_RIGHTCTRL : Z := 97.
Definition KEY_RIGHTALT : Z := 100.
Definition KEY_POWER : Z := 116.
Definition KEY_SLEEP : Z := 142.
Definition KEY_SUSPEND : Z := 205.
Definition KEY_POWER2 : Z := 0x164.
Definition KEY_RESTART : Z := 0x198.
Definition SW_LID : Z := 0.
Definition SW_DOCK : Z := 5.

Definition BUTTON_MODIFIER_NONE : Z := 0.
Definition BUTTON_MODIFIER_LEFT_SHIFT : Z := Z.shiftl 1 0.
Definition BUTTON_MODIFIER_RIGHT_SHIFT : Z := Z.shiftl 1 1.
Definition BUTTON_MODIFIER_LEFT_CTRL : Z := Z.shiftl 1 2.
Definition BUTTON_MODIFIER_RIGHT_CTRL : Z := Z.shiftl 1 3.
Definition BUTTON_MODIFIER_LEFT_ALT : Z := Z.shiftl 1 4.
Definition BUTTON_MODIFIER_RIGHT_ALT : Z := Z.shiftl 1 5.
Definition BUTTON_MODIFIER_HAS_SHIFT (modifier : Z) : bool :=
  negb (Z.land modifier (Z.lor BUTTON_MODIFIER_LEFT_SHIFT BUTTON_MODIFIER_RIGHT_SHIFT) =? 0).
Definition BUTTON_MODIFIER_HAS_CTRL (modifier : Z) : bool :=
  negb (Z.land modifier (Z.lor BUTTON_MODIFIER_LEFT_CTRL BUTTON_MODIFIER_RIGHT_CTRL) =? 0).
Definition BUTTON_MODIFIER_HAS_ALT (modifier : Z) : bool :=
  negb (Z.land modifier (Z.lor BUTTON_MODIFIER_LEFT_ALT BUTTON_MODIFIER_RIGHT_ALT) =? 0).

Definition keycode_modifier_table : list (Z * Z) :=
  [(KEY_LEFTSHIFT, BUTTON_MODIFIER_LEFT_SHIFT); (KEY_RIGHTSHIFT, BUTTON_MODIFIER_RIGHT_SHIFT);
   (KEY_LEFTCTRL, BUTTON_MODIFIER_LEFT_CTRL); (KEY_RIGHTCTRL, BUTTON_MODIFIER_RIGHT_CTRL);
   (KEY_LEFTALT, BUTTON_MODIFIER_LEFT_ALT); (KEY_RIGHTALT, BUTTON_MODIFIER_RIGHT_ALT)].
Definition button_get_keycode_modifier_mask (keycode : Z) : Z :=
  match find_first (λ kv, kv.1 =? keycode) keycode_modifier_table with
  | Some kv => kv.2
  | None => BUTTON_MODIFIER_NONE
  end.
Definition keys_modifier_mask (keys : Z) : Z :=
  foldl (λ mask kv, if Z.testbit keys kv.1 then Z.lor mask kv.2 else mask) BUTTON_MODIFIER_NONE
    keycode_modifier_table.

(** The four keys with a short and a long press, as the settings and timers
    come in fours; the kernel's names of the last two are the other way round. *)
Inductive power_key := PowerKey | RebootKey | SuspendKey | HibernateKey.
Definition key_of_code (code : Z) : option power_key :=
  if (code =? KEY_POWER) || (code =? KEY_POWER2) then Some PowerKey
  else if code =? KEY_RESTART then Some RebootKey
  else if code =? KEY_SLEEP then Some SuspendKey
  else if code =? KEY_SUSPEND then Some HibernateKey
  else None.
Definition key_inhibit (k : power_key) : Z :=
  match k with
  | PowerKey => INHIBIT_HANDLE_POWER_KEY | RebootKey => INHIBIT_HANDLE_REBOOT_KEY
  | SuspendKey => INHIBIT_HANDLE_SUSPEND_KEY | HibernateKey => INHIBIT_HANDLE_HIBERNATE_KEY
  end.
Definition key_short (k : power_key) (c : config) : HandleAction :=
  match k with
  | PowerKey => c_handle_power_key c | RebootKey => c_handle_reboot_key c
  | SuspendKey => c_handle_suspend_key c | HibernateKey => c_handle_hibernate_key c
  end.
Definition key_long (k : power_key) (c : config) : HandleAction :=
  match k with
  | PowerKey => c_handle_power_key_long_press c | RebootKey => c_handle_reboot_key_long_press c
  | SuspendKey => c_handle_suspend_key_long_press c | HibernateKey => c_handle_hibernate_key_long_press c
  end.
Definition key_ignore_inhibited (k : power_key) (c : config) : bool :=
  match k with
  | PowerKey => c_power_key_ignore_inhibited c | RebootKey => c_reboot_key_ignore_inhibited c
  | SuspendKey => c_suspend_key_ignore_inhibited c | HibernateKey => c_hibernate_key_ignore_inhibited c
  end.
Definition key_timer (k : power_key) (a : actions) : option (timer * string) :=
  match k with
  | PowerKey => a_power_key_long_press a | RebootKey => a_reboot_key_long_press a
  | SuspendKey => a_suspend_key_long_press a | HibernateKey => a_hibernate_key_long_press a
  end.
Definition set_key_timer (k : power_key) (t : option (timer * string)) (a : actions) : actions :=
  match k with
  | PowerKey => a <| a_power_key_long_press := t |>
  | RebootKey => a <| a_reboot_key_long_press := t |>
  | SuspendKey => a <| a_suspend_key_long_press := t |>
  | HibernateKey => a <| a_hibernate_key_long_press := t |>
  end.

Section Buttons.
Context {E : Env}.

(** * The objects *)

Definition get_button (name : string) : MM button :=
  o <- gets (λ m, m_buttons m !! name) ;; deref o.
Definition upd_button (name : string) (f : button → button) : MM unit :=
  b <- get_button name ;; modify (λ m, m <| m_buttons := <[name := f b]> (m_buttons m) |>).

Definition new_button : button := mkButton None false (- EBADF) BUTTON_MODIFIER_NONE false false false.
Definition button_new (name : string) : MM unit :=
  modify (λ m, m <| m_buttons := <[name := new_button]> (m_buttons m) |>).
Definition manager_add_button (name : string) : MM Z :=
  o <- gets (λ m, m_buttons m !! name) ;;
  match o with Some _ => ret 0 | None => button_new name ;;; ret 0 end.
(** Of a key that the table does not hold it is NULL that is freed. *)
Definition button_free (name : string) : MM unit :=
  modify (λ m, m <| m_buttons := delete name (m_buttons m) |>).
Definition button_set_seat (name sn : string) : MM unit := upd_button name (λ b, b <| b_seat := Some sn |>).

(** * The lid *)

Definition some_button (p : button → bool) (m : manager) : bool :=
  existsb (λ kv, p kv.2) (map_to_list (m_buttons m)).
Definition manager_is_lid_closed (m : manager) : bool := some_button b_lid_closed m.
Definition manager_is_docked (m : manager) : bool := some_button b_docked m.

(** The string literals "DVI-A-" and "Composite-" are not separated by a comma. *)
Definition external_connectors : list string :=
  ["VGA-"; "DVI-I-"; "DVI-D-"; "DVI-A-" +:+ "Composite-"; "SVIDEO-"; "Component-";
   "DIN-"; "DP-"; "HDMI-A-"; "HDMI-B-"; "TV-"].
Fixpoint after_dash (s : string) : option string :=
  match s with
  | EmptyString => None
  | String c s' => if bool_decide (c = "-"%char) then Some s' else after_dash s'
  end.
Definition is_external_display (d : drm_device) : bool :=
  match drm_parent_subsystem d, drm_sysname d with
  | Some "drm", Some nn =>
      match after_dash nn with
      | None => false
      | Some dash =>
          is_some (startswith_set dash external_connectors)
          && bool_decide (drm_enabled d = Some "enabled")
          && negb (bool_decide (drm_status d = Some "disconnected"))
      end
  | _, _ => false
  end.
Definition manager_count_external_displays : Z :=
  match e_drm_devices with
  | inl r => r
  | inr l => Z.of_nat (length (filter (λ d, is_external_display d = true) l))
  end.
Definition manager_is_docked_or_external_displays (m : manager) : bool :=
  manager_is_docked m || (1 <=? manager_count_external_displays).
Definition manager_is_on_external_power : bool := negb (e_on_ac_power =? 0).

Definition lid_action (m : manager) : HandleAction :=
  let c := m_conf m in
  if manager_is_docked_or_external_displays m then c_handle_lid_switch_docked c
  else match c_handle_lid_switch_ep c with
  | Some a => if manager_is_on_external_power then a else c_handle_lid_switch c
  | None => c_handle_lid_switch c
  end.
Definition button_lid_switch_handle_action (is_edge : bool) (seat : option string) : MM unit :=
  a <- gets lid_action ;;
  ignored <- gets (λ m, c_lid_switch_ignore_inhibited (m_conf m)) ;;
  ignore (manager_handle_action INHIBIT_HANDLE_LID_SWITCH a ignored is_edge seat).

Definition button_recheck (name : string) : MM Z :=
  b <- get_button name ;;
  assert_se (b_lid_closed b) ;;;
  button_lid_switch_handle_action false (b_seat b) ;;;
  ret 1.
Definition button_install_check_event_source (name : string) : MM Z :=
  b <- get_button name ;;
  if b_check_event_source b then ret 0
  else if e_event_add "button-check" <? 0 then ret (e_event_add "button-check")
  else upd_button name (λ b, b <| b_check_event_source := true |>) ;;; ret 0.

(** * Keys that are pressed short and long *)

Definition LONG_PRESS_DURATION : Z := 5 * 1000000.

(** [manager_handle_action(m, INHIBIT_HANDLE_..._KEY, handle, ..., true, b->seat)]. *)
Definition key_action (k : power_key) (handle : HandleAction) (seat : option string) : MM unit :=
  ignored <- gets (λ m, key_ignore_inhibited k (m_conf m)) ;;
  ignore (manager_handle_action (key_inhibit k) handle ignored true seat).
(** The four [long_press_of_..._key_handler]s: the button is the timer's user
    data, whether or not it is still there. *)
Definition long_press_handler (k : power_key) (name : string) : MM Z :=
  b <- get_button name ;;
  upd_act (set_key_timer k None) ;;;
  long <- gets (λ m, key_long k (m_conf m)) ;;
  key_action k long (b_seat b) ;;;
  ret 0.
Definition start_long_press (k : power_key) (name : string) : MM unit :=
  a <- gets m_act ;;
  if is_some (key_timer k a) then ret tt
  else if e_event_add "long-press" <? 0 then ret tt
  else upd_act (set_key_timer k (Some (mkTimer (usec_add e_now_monotonic LONG_PRESS_DURATION) true, name))).

Definition key_pressed (k : power_key) (name : string) (seat : option string) : MM unit :=
  c <- gets m_conf ;;
  if negb (bool_decide (key_long k c = HANDLE_IGNORE)) && negb (bool_decide (key_long k c = key_short k c))
  then start_long_press k name
  else key_action k (key_short k c) seat.
Definition key_released (k : power_key) (seat : option string) : MM unit :=
  a <- gets m_act ;;
  when (is_some (key_timer k a))
    (upd_act (set_key_timer k None) ;;;
     short <- gets (λ m, key_short k (m_conf m)) ;;
     key_action k short seat).
(** The [default] of both switches. *)
Definition change_modifiers (name : string) (code : Z) (f : Z → Z → Z) : MM unit :=
  assert_se (0 <? code) ;;;
  upd_button name (λ b, b <| b_modifier_mask := f (b_modifier_mask b) (button_get_keycode_modifier_mask code) |>).
Definition escape_pressed (b : button) : MM unit :=
  sak <- gets (λ m, c_handle_secure_attention_key (m_conf m)) ;;
  if bool_decide (sak = HANDLE_IGNORE) then ret tt
  else if negb (BUTTON_MODIFIER_HAS_SHIFT (b_modifier_mask b)) || negb (BUTTON_MODIFIER_HAS_CTRL (b_modifier_mask b))
          || negb (BUTTON_MODIFIER_HAS_ALT (b_modifier_mask b)) then ret tt
  else ignore (manager_handle_action 0 sak true true (b_seat b)).

(** * Input events *)

Record input_event := mkInput { ev_type : Z; ev_code : Z; ev_value : Z }.

Definition lid_closed_event (name : string) (b : button) : MM unit :=
  upd_button name (λ b, b <| b_lid_closed := true |>) ;;;
  button_lid_switch_handle_action true (b_seat b) ;;;
  ignore (button_install_check_event_source name) ;;;
  manager_send_changed ["LidClosed"].
Definition lid_opened_event (name : string) : MM unit :=
  upd_button name (λ b, b <| b_lid_closed := false |> <| b_check_event_source := false |>) ;;;
  manager_send_changed ["LidClosed"].

Definition button_event (name : string) (ev : input_event) : MM unit :=
  b <- get_button name ;;
  let code := ev_code ev in
  if (ev_type ev =? EV_KEY) && (0 <? ev_value ev) then
    match key_of_code code with
    | Some k => key_pressed k name (b_seat b)
    | None =>
        if code =? KEY_ESC then escape_pressed b
        else change_modifiers name code Z.lor
    end
  else if (ev_type ev =? EV_KEY) && (ev_value ev =? 0) then
    match key_of_code code with
    | Some k => key_released k (b_seat b)
    | None =>
        if code =? KEY_ESC then ret tt
        else change_modifiers name code Z.ldiff
    end
  else if (ev_type ev =? EV_SW) && (0 <? ev_value ev) then
    if code =? SW_LID then lid_closed_event name b
    else if code =? SW_DOCK then upd_button name (λ b, b <| b_docked := true |>)
    else ret tt
  else if (ev_type ev =? EV_SW) && (ev_value ev =? 0) then
    if code =? SW_LID then lid_opened_event name
    else if code =? SW_DOCK then upd_button name (λ b, b <| b_docked := false |>)
    else ret tt
  else ret tt.
(** What read() gave: an errno, fewer bytes than an event, or an event. *)
Definition button_dispatch (name : string) (fd : Z) (l : Z + option input_event) : MM Z :=
  b <- get_button name ;;
  assert_se (fd =? b_fd b) ;;;
  match l with
  | inl err => ret (if err =? EAGAIN then 0 else - err)
  | inr None => ret (- EIO)
  | inr (Some ev) => button_event name ev ;;; ret 0
  end.

(** * Opening *)

Definition has_power_key (keys : Z) : bool :=
  Z.testbit keys KEY_POWER || Z.testbit keys KEY_POWER2 || Z.testbit keys KEY_SLEEP
  || Z.testbit keys KEY_SUSPEND || Z.testbit keys KEY_RESTART.
Definition has_attention_keys (keys : Z) : bool :=
  (Z.testbit keys KEY_LEFTSHIFT || Z.testbit keys KEY_RIGHTSHIFT)
  && (Z.testbit keys KEY_LEFTCTRL || Z.testbit keys KEY_RIGHTCTRL)
  && (Z.testbit keys KEY_LEFTALT || Z.testbit keys KEY_RIGHTALT)
  && Z.testbit keys KEY_ESC.
(** An error, or whether the device is of use. *)
Definition suitable_switches (fd types : Z) : Z :=
  if Z.testbit types EV_SW then
    match e_input_bits fd EV_SW with
    | inl r => r
    | inr switches => if Z.testbit switches SW_LID || Z.testbit switches SW_DOCK then 1 else 0
    end
  else 0.
Definition button_suitable (fd : Z) : Z :=
  match e_input_bits fd EV_SYN with
  | inl r => r
  | inr types =>
      if Z.testbit types EV_KEY then
        match e_input_bits fd EV_KEY with
        | inl r => r
        | inr keys => if has_power_key keys || has_attention_keys keys then 1 else suitable_switches fd types
        end
      else suitable_switches fd types
  end.
Definition button_initialize_modifier_mask (name : string) : MM Z :=
  b <- get_button name ;;
  match e_input_keys (b_fd b) with
  | inl r => ret r
  | inr keys => upd_button name (λ b, b <| b_modifier_mask := keys_modifier_mask keys |>) ;;; ret 0
  end.
Definition button_set_mask (fd : Z) : Z :=
  if e_input_set_mask fd EV_SYN <? 0 then e_input_set_mask fd EV_SYN
  else if e_input_set_mask fd EV_KEY <? 0 then e_input_set_mask fd EV_KEY
  else if e_input_set_mask fd EV_SW <? 0 then e_input_set_mask fd EV_SW
  else 0.
Definition button_open (name : string) : MM Z :=
  upd_button name (λ b, b <| b_fd := - EBADF |>) ;;;
  let fd := e_open ("/dev/input/" +:+ name) in
  if fd <? 0 then ret fd
  else if button_suitable fd <? 0 then ret (button_suitable fd)
  else if button_suitable fd =? 0 then ret (- EADDRNOTAVAIL)
  else if e_input_name fd <? 0 then ret (e_input_name fd)
  else
    upd_button name (λ b, b <| b_io_event_source := false |>) ;;;
    if e_event_add "button-io" <? 0 then ret (e_event_add "button-io")
    else
      upd_button name (λ b, b <| b_io_event_source := true |> <| b_fd := fd |>) ;;;
      r <- button_initialize_modifier_mask name ;;
      ret (if r <? 0 then r else 0).
Definition button_check_switches (name : string) : MM Z :=
  b <- get_button name ;;
  if b_fd b <? 0 then ret (- EINVAL)
  else match e_input_switches (b_fd b) with
  | inl r => ret r
  | inr switches =>
      upd_button name (λ b, b <| b_lid_closed := Z.testbit switches SW_LID |>
                              <| b_docked := Z.testbit switches SW_DOCK |>) ;;;
      manager_send_changed ["LidClosed"] ;;;
      when (Z.testbit switches SW_LID) (ignore (button_install_check_event_source name)) ;;;
      ret 0
  end.

Definition manager_process_button_device (d : button_device) : MM Z :=
  match bd_sysname d with
  | None => ret (- ENOENT)
  | Some sysname =>
      if bd_remove d || negb (bd_tag d) then button_free sysname ;;; ret 0
      else
        r <- manager_add_button sysname ;;
        if r <? 0 then ret r
        else
          button_set_seat sysname (match bd_seat d with
                                   | Some sn => if isempty sn then "seat0" else sn
                                   | None => "seat0"
                                   end) ;;;
          r <- button_open sysname ;;
          when (r <? 0) (button_free sysname) ;;;
          ret 0
  end.
Definition manager_all_buttons_ignored (c : config) : bool :=
  bool_decide (c_handle_power_key c = HANDLE_IGNORE)
  && bool_decide (c_handle_power_key_long_press c = HANDLE_IGNORE)
  && bool_decide (c_handle_suspend_key c = HANDLE_IGNORE)
  && bool_decide (c_handle_suspend_key_long_press c = HANDLE_IGNORE)
  && bool_decide (c_handle_hibernate_key c = HANDLE_IGNORE)
  && bool_decide (c_handle_hibernate_key_long_press c = HANDLE_IGNORE)
  && bool_decide (c_handle_reboot_key c = HANDLE_IGNORE)
  && bool_decide (c_handle_reboot_key_long_press c = HANDLE_IGNORE)
  && bool_decide (c_handle_lid_switch c = HANDLE_IGNORE)
  && match c_handle_lid_switch_ep c with None | Some HANDLE_IGNORE => true | Some _ => false end
  && bool_decide (c_handle_lid_switch_docked c = HANDLE_IGNORE)
  && bool_decide (c_handle_secure_attention_key c = HANDLE_IGNORE).
End Buttons.

(** * Idleness *)

Section Idle.
Context {E : Env}.

(** The loop treats a session as that of [user_get_idle_hint] does.  The time
    that [manager_is_inhibited] stores is overwritten. *)
Definition manager_get_idle_hint : MM (bool * dual_timestamp) :=
  x <- manager_is_inhibited INHIBIT_IDLE true false false 0 ;;
  ids <- gets (λ m, e_order_ids (fst <$> map_to_list (m_sessions m))) ;;
  fold_m user_idle_step (negb x.1.1, DUAL_TIMESTAMP_NULL) ids.

(** Is it time? *)
Definition idle_time_has_come (n since usec not_before : Z) : bool :=
  (u64 (since + usec) <=? n) && ((not_before <=? 0) || (u64 (not_before + usec) <=? n)).
Definition act_on_idle (n : Z) (since : dual_timestamp) : MM unit :=
  a <- gets m_act ;;
  let is_edge := negb (a_was_idle a) || (a_idle_action_not_before_usec a <=? monotonic since) in
  when is_edge (upd_act (λ a, a <| a_was_idle := true |>)) ;;;
  action <- gets (λ m, c_idle_action (m_conf m)) ;;
  ignore (manager_handle_action 0 action false is_edge None) ;;;
  upd_act (λ a, a <| a_idle_action_not_before_usec := n |>).
(** When to look again. *)
Definition idle_elapse (n : Z) : MM Z :=
  usec <- gets (λ m, c_idle_action_usec (m_conf m)) ;;
  x <- manager_get_idle_hint ;;
  let '(idle, since) := x in
  if negb idle then
    upd_act (λ a, a <| a_was_idle := false |>) ;;; ret (u64 (n + usec))
  else
    a <- gets m_act ;;
    when (idle_time_has_come n (monotonic since) usec (a_idle_action_not_before_usec a)) (act_on_idle n since) ;;;
    a <- gets m_act ;;
    ret (u64 (Z.max (monotonic since) (a_idle_action_not_before_usec a) + usec)).
Definition manager_dispatch_idle_action : MM Z :=
  c <- gets m_conf ;;
  if bool_decide (c_idle_action c = HANDLE_IGNORE) || (c_idle_action_usec c <=? 0) then ret 0
  else
    elapse <- idle_elapse e_now_monotonic ;;
    a <- gets m_act ;;
    match a_idle_action_event_source a with
    | None =>
        if e_event_add "idle-action" <? 0 then ret (e_event_add "idle-action")
        else upd_act (λ a, a <| a_idle_action_event_source := Some (mkTimer elapse true) |>) ;;; ret 0
    | Some _ =>
        if e_event_set_time <? 0 then ret e_event_set_time
        else upd_act (λ a, a <| a_idle_action_event_source := Some (mkTimer elapse true) |>) ;;; ret 0
    end.
End Idle.
