(* ===== verification/Startup.v ===== *)
(** What the daemon reads when it starts: the saved users and sessions
    ([user_load] of [src/src/login/logind-user.c], [session_load] of
    [logind-session.c]), the directories and the devices it enumerates, the
    descriptors that were passed on to it, and [manager_startup] itself
    ([logind.c], [logind-core.c]), with [parse_devnum] of
    [src/src/basic/devnum-util.c]. *)
From Stdlib Require Import Ascii.
From stdpp Require Import pretty.
From S2P Require Import Prelude Time LoginTypes ActionTypes LoginState LoginEnv Escape Parse EnvFile Words Bus Objects SessionDevice Seat Device User Session Lifecycle SessionBus ManagerBus Inhibit Power Schedule Buttons Wall.

(** * Settings and actions as the daemon starts with them

    ([manager_reset_config] of [logind-core.c], [manager_new]); what the configuration
    files then say comes from outside. *)

(** The fields of a zeroed [Manager]; a zero is the first of an enumeration. *)
Definition zero_config : config :=
  mkConfig [] [] false false 0 0 0 HANDLE_IGNORE 0 0
    HANDLE_IGNORE HANDLE_IGNORE HANDLE_IGNORE HANDLE_IGNORE HANDLE_IGNORE HANDLE_IGNORE
    HANDLE_IGNORE HANDLE_IGNORE HANDLE_IGNORE HANDLE_IGNORE (Some HANDLE_IGNORE) HANDLE_IGNORE
    false false false false false false 0 0 0.

Section Config.
Context {E : Env}.

(** The mask of sleep operations is not among the fields that are set. *)
Definition manager_reset_config (c : config) : config :=
  c <| c_remove_ipc := false |>
    <| c_inhibit_delay_max := 5 * 1000000 |>
    <| c_user_stop_delay := 0 |>
    <| c_handle_power_key := HANDLE_POWEROFF |>
    <| c_handle_power_key_long_press := HANDLE_IGNORE |>
    <| c_handle_reboot_key := HANDLE_REBOOT |>
    <| c_handle_reboot_key_long_press := HANDLE_POWEROFF |>
    <| c_handle_suspend_key := HANDLE_SUSPEND |>
    <| c_handle_suspend_key_long_press := HANDLE_HIBERNATE |>
    <| c_handle_hibernate_key := HANDLE_HIBERNATE |>
    <| c_handle_hibernate_key_long_press := HANDLE_IGNORE |>
    <| c_handle_secure_attention_key := HANDLE_SECURE_ATTENTION_KEY |>
    <| c_handle_lid_switch := HANDLE_SUSPEND |>
    <| c_handle_lid_switch_ep := None |>
    <| c_handle_lid_switch_docked := HANDLE_IGNORE |>
    <| c_power_key_ignore_inhibited := false |>
    <| c_suspend_key_ignore_inhibited := false |>
    <| c_hibernate_key_ignore_inhibited := false |>
    <| c_lid_switch_ignore_inhibited := true |>
    <| c_reboot_key_ignore_inhibited := false |>
    <| c_holdoff_timeout_usec := 30 * 1000000 |>
    <| c_idle_action_usec := 30 * USEC_PER_MINUTE |>
    <| c_idle_action := HANDLE_IGNORE |>
    <| c_sessions_max := 8192 |>
    <| c_inhibitors_max := 8192 |>
    <| c_kill_user_processes := e_kill_user_processes |>
    <| c_delegate_session_cgroups := false |>
    <| c_kill_only_users := [] |>
    <| c_kill_exclude_users := [] |>
    <| c_stop_idle_session_usec := USEC_INFINITY |>.
Definition default_config : config := manager_reset_config zero_config.

Definition initial_actions : actions :=
  mkActions None None None None 0 0 None 0 None 0 None None None false None true false
    None None None None None None e_now_monotonic false 0.
End Config.

(** * Helpers *)

(** [RET_GATHER]: the first error is kept. *)
Definition ret_gather (acc err : Z) : Z := if (0 <=? acc) && (err <? 0) then err else acc.

(** [strspn(s, DIGITS)]. *)
Fixpoint span_digits (s : string) : nat :=
  match s with
  | String c s' => if ascii_isdigit c then S (span_digits s') else O
  | EmptyString => O
  end.
(** DECIMAL_STR_MAX(dev_t), of an unsigned 64-bit integer. *)
Definition DECIMAL_STR_MAX_dev_t : nat := 21.
Definition parse_devnum (s : string) : Z + Z :=
  let n := span_digits s in
  if Nat.eqb n 0 then inl (- EINVAL)
  else if (DECIMAL_STR_MAX_dev_t <? n)%nat then inl (- EINVAL)
  else
    match String.substring n (String.length s - n) s with
    | String ":" rest =>
        match safe_atou (String.substring 0 n s) with
        | inl r => inl r
        | inr x =>
            match safe_atou rest with
            | inl r => inl r
            | inr y => if negb (DEVICE_MAJOR_VALID x && DEVICE_MINOR_VALID y) then inl (- ERANGE) else inr (makedev x y)
            end
        end
    | _ => inl (- EINVAL)
    end.

(** What a key of the file holds, and otherwise what was there. *)
Definition stored (f : string → option string) (key : string) (old : option string) : option string :=
  match f key with Some v => Some v | None => old end.

Section Startup.
Context {E : Env}.

(** * Users *)

Definition user_load (uid : Z) : MM Z :=
  get_user uid ;;;
  let '(r, f) := parse_env_file_at ("/run/systemd/users/" +:+ pretty uid) in
  if r =? - ENOENT then ret 0
  else if r <? 0 then ret r
  else
    let stopping := match parse_boolean <$> f "STOPPING" with Some (inr b) => Some b | _ => None end in
    let usec key old := match deserialize_usec <$> f key with Some (inr t) => t | _ => old end in
    upd_user uid (λ u,
      u <| u_stopping := default (u_stopping u) stopping |>
        <| u_timestamp := mkDualTimestamp (usec "REALTIME" (realtime (u_timestamp u)))
                                          (usec "MONOTONIC" (monotonic (u_timestamp u))) |>
        <| u_last_session_timestamp := usec "LAST_SESSION_TIMESTAMP" (u_last_session_timestamp u) |>
        <| u_gc_mode := default USER_GC_BY_PIN (from_string (f "GC_MODE")) |>) ;;;
    ret 0.

Definition manager_add_user_by_name (name : string) : MM Z :=
  match e_userdb_by_name name with inl r => ret r | inr ur => manager_add_user ur end.

(** * Sessions *)

(** More than DEVICES= has words. *)
Definition devices_fuel (devices : option string) : nat := 2 + String.length (default EmptyString devices).
(** The words of DEVICES=; [fuel] counts them. *)
Fixpoint load_devices_loop (fuel : nat) (sid : string) (p : option string) (r : Z) : MM Z :=
  match fuel with
  | O => crash
  | S fuel' =>
      match extract_first_word WHITESPACE no_extract_flags p with
      | ExtractError k => ret (ret_gather r k)
      | ExtractEnd => ret r
      | ExtractWord word p' =>
          match parse_devnum word with
          | inl k => load_devices_loop fuel' sid p' (ret_gather r k)
          | inr dev =>
              k <- session_device_new sid dev false ;;
              load_devices_loop fuel' sid p' (ret_gather r k)
          end
      end
  end.
Definition session_load_devices (sid : string) (devices : option string) : MM Z :=
  load_devices_loop (devices_fuel devices) sid devices 0.

(** The texts that are stored as they are read, also if the file is bad further on. *)
Definition load_texts (sid : string) (f : string → option string) : MM unit :=
  upd_session sid (λ s,
    s <| s_scope := stored f "SCOPE" (s_scope s) |> <| s_fifo_path := stored f "FIFO" (s_fifo_path s) |>
      <| s_tty := stored f "TTY" (s_tty s) |> <| s_display := stored f "DISPLAY" (s_display s) |>
      <| s_remote_host := stored f "REMOTE_HOST" (s_remote_host s) |>
      <| s_remote_user := stored f "REMOTE_USER" (s_remote_user s) |>
      <| s_service := stored f "SERVICE" (s_service s) |> <| s_desktop := stored f "DESKTOP" (s_desktop s) |>).

Definition load_user (sid : string) (f : string → option string) : MM Z :=
  s <- get_session sid ;;
  match s_user s with
  | Some _ => ret 0
  | None =>
      match f "UID" with
      | None => ret (- ENOENT)
      | Some uid =>
          match parse_uid uid with
          | inl r => ret r
          | inr u =>
              o <- gets (λ m, m_users m !! u) ;;
              match o with
              | None => ret (- ENOENT)
              | Some _ => session_set_user sid u ;;; ret 0
              end
          end
      end
  end.

(** REMOTE=, VTNR=, SEAT= and POSITION=; an unreadable position is whatever the
    variable held. *)
Definition load_seat (sid : string) (f : string → option string) : MM Z :=
  (match parse_boolean <$> f "REMOTE" with
   | Some (inr b) => upd_session sid (λ s, s <| s_remote := b |>)
   | _ => ret tt
   end) ;;;
  (match safe_atou <$> f "VTNR" with
   | Some (inr v) => upd_session sid (λ s, s <| s_vtnr := v |>)
   | _ => ret tt
   end) ;;;
  s <- get_session sid ;;
  r <- (match f "SEAT" with
        | Some seat =>
            if is_some (s_seat s) then ret 0
            else
              o <- gets (λ m, m_seats m !! seat) ;;
              (match o with Some _ => seat_attach_session seat sid | None => ret 0 end)
        | None => ret 0
        end) ;;
  s <- get_session sid ;;
  vts <- (match s_seat s with Some k => seat_has_vts k | None => ret false end) ;;
  when (negb vts) (upd_session sid (λ s, s <| s_vtnr := 0 |>)) ;;;
  (match f "POSITION", s_seat s with
   | Some position, Some k =>
       seat_claim_position k sid (match safe_atou position with inr npos => npos | inl _ => u32 e_uninit_int end)
   | _, _ => ret tt
   end) ;;;
  ret r.

(** TTY_VALIDITY=, TYPE=, ORIGINAL_TYPE=, CLASS= and STATE=. *)
Definition load_kind (sid : string) (f : string → option string) : MM unit :=
  let name {A} `{StringTable A} key (old : A) := match f key with Some v => default old (from_string (Some v)) | None => old end in
  upd_session sid (λ s,
    let s := match f "TTY_VALIDITY" ≫= λ v, from_string (Some v) with
             | Some v => s <| s_tty_validity := Some v |> | None => s end in
    let s := s <| s_type := name "TYPE" (s_type s) |> in
    let s := s <| s_original_type := if is_some (f "ORIGINAL_TYPE") then name "ORIGINAL_TYPE" (s_original_type s) else s_type s |> in
    let s := s <| s_class := name "CLASS" (s_class s) |> in
    if bool_decide (f "STATE" = Some "closing"%string) then s <| s_stopping := true |> else s).

(** FIFO=, which is made again if it is gone. *)
Definition load_session_fifo (sid : string) : MM unit :=
  s <- get_session sid ;;
  match s_fifo_path s with
  | None => ret tt
  | Some path =>
      when ((e_mkfifo path <? 0) && negb (e_mkfifo path =? - EEXIST))
        (upd_session sid (λ s, s <| s_fifo_path := None |>)) ;;;
      ignore (session_create_fifo sid)
  end.

(** REALTIME=, MONOTONIC=, ACTIVE= and IS_DISPLAY=. *)
Definition load_times (sid : string) (f : string → option string) : MM unit :=
  let usec key old := match deserialize_usec <$> f key with Some (inr t) => t | _ => old end in
  upd_session sid (λ s,
    s <| s_timestamp := mkDualTimestamp (usec "REALTIME" (realtime (s_timestamp s)))
                                        (usec "MONOTONIC" (monotonic (s_timestamp s))) |>
      <| s_was_active := match parse_boolean <$> f "ACTIVE" with Some (inr b) => b | _ => s_was_active s end |>).
Definition load_display (sid : string) (f : string → option string) : MM unit :=
  match parse_boolean <$> f "IS_DISPLAY" with
  | Some (inr true) => s <- get_session sid ;; uid <- deref (s_user s) ;; upd_user uid (λ u, u <| u_display := Some sid |>)
  | _ => ret tt
  end.
Definition load_controller (sid : string) (f : string → option string) : MM unit :=
  match f "CONTROLLER" with
  | None => ret tt
  | Some controller =>
      if 0 <? e_name_has_owner controller then
        ignore (session_set_controller sid controller false false) ;;;
        ignore (session_load_devices sid (f "DEVICES"))
      else session_restore_vt sid
  end.
(** LEADER= and LEADER_FD_SAVED=: the leader is looked up, or its descriptor is
    among those that are passed on. *)
Definition load_leader (sid : string) (f : string → option string) (r : Z) : MM Z :=
  match f "LEADER" with
  | None => ret r
  | Some leader_pid =>
      s <- get_session sid ;;
      assert_se (negb (pidref_is_set (s_leader s))) ;;;
      match parse_pid leader_pid with
      | inl r => ret r
      | inr pid =>
          upd_session sid (λ s, s <| s_deserialized_pid := pid |>) ;;;
          let set_leader :=
            match e_pidref_set_pid pid with
            | inl r => ret r
            | inr p => session_set_leader_consume sid p
            end in
          match parse_boolean <$> f "LEADER_FD_SAVED" with
          | None => set_leader
          | Some (inl r) => ret r
          | Some (inr saved) =>
              upd_session sid (λ s, s <| s_leader_fd_saved := saved |>) ;;;
              if (saved : bool) then ret 0 else set_leader
          end
      end
  end.

Definition session_load (sid : string) : MM Z :=
  let '(r, f) := parse_env_file_at ("/run/systemd/sessions/" +:+ sid) in
  load_texts sid f ;;;
  if r <? 0 then ret r
  else
    r <- load_user sid f ;;
    if r <? 0 then ret r
    else
      r <- load_seat sid f ;;
      load_kind sid f ;;;
      load_session_fifo sid ;;;
      load_times sid f ;;;
      load_display sid f ;;;
      load_controller sid f ;;;
      load_leader sid f r.

(** * Descriptors that were passed on *)

(** The words between the dashes; a missing word is a NULL that is followed. *)
Definition parse_fdname (fdname : string) : option (Z + (string * Z)) :=
  match strv_split fdname ["-"%char] with
  | None => Some (inl (- ENOMEM))
  | Some parts =>
      match parts !! 0%nat with
      | None => None
      | Some p0 =>
          if negb (bool_decide (p0 = "session"%string)) then Some (inl (- EINVAL))
          else
            match parts !! 1%nat, parts !! 2%nat with
            | Some id, Some p2 =>
                if bool_decide (p2 = "leader"%string) then Some (inr (id, 0))
                else if negb (bool_decide (p2 = "device"%string)) then Some (inl (- EINVAL))
                else
                  match safe_atou <$> parts !! 3%nat with
                  | None => None
                  | Some (inl r) => Some (inl r)
                  | Some (inr major) =>
                      match safe_atou <$> parts !! 4%nat with
                      | None => None
                      | Some (inl r) => Some (inl r)
                      | Some (inr minor) => Some (inr (id, makedev major minor))
                      end
                  end
            | _, _ => None
            end
      end
  end.
Definition close_and_notify_warn (fdname : string) (r : Z) : MM Z := emit (FdRemoved fdname) ;;; ret r.
Definition deliver_session_device_fd (sid : string) (fd devno : Z) : MM Z :=
  assert_se (0 <? devno) ;;;
  match e_fstat_rdev fd with
  | inl r => ret r
  | inr rdev =>
      if negb (bool_decide (rdev = Some devno)) then ret (- ENODEV)
      else
        s <- get_session sid ;;
        match s_devices s !! devno with
        | None => ret (- ENODEV)
        | Some _ => session_device_attach_fd sid devno fd (s_was_active s) ;;; ret 0
        end
  end.
Definition deliver_session_leader_fd_consume (sid fdname : string) (fd : Z) : MM Z :=
  s <- get_session sid ;;
  if negb (0 <? s_deserialized_pid s) then close_and_notify_warn fdname (- EOWNERDEAD)
  else
    when (s_leader_fd_saved s) (assert_se (negb (pidref_is_set (s_leader s)))) ;;;
    match e_pidref_set_pidfd fd with
    | inl r => close_and_notify_warn fdname r
    | inr p => r <- session_set_leader_consume sid p ;; ret (Z.min r 0)
    end.
Definition manager_attach_session_fd_one_consume (fdname : string) (fd : Z) : MM Z :=
  match parse_fdname fdname with
  | None => crash
  | Some (inl r) => close_and_notify_warn fdname r
  | Some (inr (id, devno)) =>
      o <- gets (λ m, m_sessions m !! id) ;;
      match o with
      | None => close_and_notify_warn fdname (- ENXIO)
      | Some _ =>
          if 0 <? devno then
            r <- deliver_session_device_fd id fd devno ;;
            if r <? 0 then close_and_notify_warn fdname r else ret 0
          else deliver_session_leader_fd_consume id fdname fd
      end
  end.

(** * Enumerations *)

(** [body] on every element; the first error is the result. *)
Definition gather_all {X} (body : X → MM Z) (r : Z) (l : list X) : MM Z :=
  fold_m (λ r x, k <- body x ;; ret (ret_gather r k)) r l.
Definition regular_files (entries : list (string * bool)) : list string :=
  omap (λ '(name, is_file), if (is_file : bool) then Some name else None) entries.
Definition files_of (path : string) : list string :=
  match e_directory path with inl _ => [] | inr (entries, _) => regular_files entries end.
(** [body] on every file of a directory, which need not be there. *)
Definition for_each_file (path : string) (r : Z) (body : string → MM Z) : MM Z :=
  match e_directory path with
  | inl err => ret (if err =? - ENOENT then 0 else err)
  | inr (entries, err) =>
      r <- gather_all body r (regular_files entries) ;;
      ret (if err <? 0 then err else r)
  end.

Definition manager_enumerate_devices : MM Z :=
  match e_seat_devices with inl r => ret r | inr l => gather_all manager_process_seat_device 0 l end.
Definition manager_enumerate_buttons : MM Z :=
  c <- gets m_conf ;;
  if manager_all_buttons_ignored c then ret 0
  else match e_button_devices with inl r => ret r | inr l => gather_all manager_process_button_device 0 l end.
(** [seat_load] has nothing to read. *)
Definition manager_enumerate_seats : MM Z :=
  for_each_file "/run/systemd/seats" 0 (λ name,
    o <- gets (λ m, m_seats m !! name) ;;
    match o with
    | None => emit (FileRemoved (SeatObj name)) ;;; ret 0
    | Some _ => ret 0
    end).
Definition manager_enumerate_linger_users : MM Z :=
  for_each_file "/var/lib/elogind/linger" 0 (λ name,
    match cunescape name false false with
    | None => crash
    | Some (inl k) => ret k
    | Some (inr n) => manager_add_user_by_name n
    end).
Definition manager_enumerate_users : MM Z :=
  r <- manager_enumerate_linger_users ;;
  for_each_file "/run/systemd/users" r (λ name,
    match parse_uid name with
    | inl k => ret k
    | inr uid =>
        o <- manager_add_user_by_uid uid ;;
        match o with
        | inl k => ret k
        | inr u => user_add_to_gc_queue u ;;; user_load u
        end
    end).
Definition load_session_file (name : string) : MM Z :=
  k <- manager_add_session name ;;
  if k <? 0 then ret k
  else session_add_to_gc_queue name ;;; session_load name.
Definition manager_enumerate_sessions : MM Z :=
  match e_directory "/run/systemd/sessions" with
  | inl err => ret (if err =? - ENOENT then 0 else err)
  | inr _ =>
      r <- for_each_file "/run/systemd/sessions" 0 load_session_file ;;
      match e_directory "/run/systemd/sessions" with
      | inr (_, err) =>
          if err <? 0 then ret r
          else
            match e_listen_fds with
            | inl n => ret n
            | inr l => gather_all (λ '(fdname, fd), manager_attach_session_fd_one_consume fdname fd) r l
            end
      | inl _ => ret r
      end
  end.
Definition manager_enumerate_inhibitors : MM Z :=
  for_each_file "/run/systemd/inhibit" 0 (λ name,
    k <- manager_add_inhibitor name ;;
    if k <? 0 then ret k else inhibitor_load name).

(** * The start *)

(** An inhibitor whose owner is gone is dropped. *)
Definition start_inhibitor (id : string) : MM unit :=
  ignore (inhibitor_start id) ;;;
  i <- get_inhibitor id ;;
  when (inhibitor_is_orphan i) (inhibitor_stop id ;;; inhibitor_free id).
Definition start_inhibitors : MM unit :=
  inhibitors <- gets (λ m, e_order_ids (fst <$> map_to_list (m_inhibitors m))) ;;
  for_each start_inhibitor inhibitors.
Definition start_everything : MM unit :=
  seats <- gets (λ m, e_order_ids (fst <$> map_to_list (m_seats m))) ;;
  for_each (λ k, ignore (seat_start k)) seats ;;;
  users <- gets (λ m, e_order (fst <$> map_to_list (m_users m))) ;;
  for_each (λ uid, ignore (user_start uid)) users ;;;
  sessions <- gets (λ m, e_order_ids (fst <$> map_to_list (m_sessions m))) ;;
  for_each (λ sid, ignore (session_start sid)) sessions ;;;
  start_inhibitors ;;;
  buttons <- gets (λ m, e_order_ids (fst <$> map_to_list (m_buttons m))) ;;
  for_each (λ b, ignore (button_check_switches b)) buttons.
(** What is read, in the order of [manager_startup]. *)
Definition deserialize_state : MM unit :=
  ignore manager_enumerate_devices ;;;
  ignore manager_enumerate_seats ;;;
  ignore manager_enumerate_users ;;;
  ignore manager_enumerate_sessions ;;;
  ignore manager_enumerate_inhibitors ;;;
  ignore manager_enumerate_buttons ;;;
  manager_load_scheduled_shutdown.
(** From the magic seat on; what comes before it connects to the console, udev,
    the bus and utmp. *)
Definition manager_startup : MM Z :=
  r <- manager_add_seat "seat0" ;;
  if r <? 0 then ret r
  else
    modify (λ m, m <| m_seat0 := Some "seat0"%string |>) ;;;
    holdoff <- gets (λ m, c_holdoff_timeout_usec (m_conf m)) ;;
    ignore (manager_set_lid_switch_ignore holdoff) ;;;
    deserialize_state ;;;
    fuel <- gets gc_rounds ;;
    manager_gc false fuel ;;;
    start_everything ;;;
    ignore manager_dispatch_idle_action ;;;
    ret 0.

(** * What was saved

    The state files that are read were written by an earlier instance of the
    daemon: no device is listed twice (or the first entry would stay in the list
    of its device when the session is gone), a position is a number (or an
    uninitialised one is claimed) and, like a terminal, below UINT_MAX (or the table
    of positions is written out of bounds), only an action that can be executed
    was scheduled, and every session has one file.  elogind has no service manager
    that keeps descriptors for it. *)
Fixpoint device_numbers (fuel : nat) (p : option string) : list Z :=
  match fuel with
  | O => []
  | S fuel' =>
      match extract_first_word WHITESPACE no_extract_flags p with
      | ExtractWord word p' =>
          match parse_devnum word with inl _ => [] | inr dev => [dev] end ++ device_numbers fuel' p'
      | _ => []
      end
  end.
Record session_file_ok (f : string → option string) : Prop := {
  saved_vtnr : ∀ s v, f "VTNR" = Some s → safe_atou s = inr v → v < UINT_MAX;
  saved_position : ∀ s, f "POSITION" = Some s → ∃ p, safe_atou s = inr p ∧ p < UINT_MAX;
  saved_devices : NoDup (device_numbers (devices_fuel (f "DEVICES")) (f "DEVICES"));
}.
Record saved_ok : Prop := {
  saved_names : NoDup (files_of "/run/systemd/sessions");
  saved_count : Z.of_nat (length (files_of "/run/systemd/sessions")) + 1 < UINT_MAX;
  saved_sessions : ∀ sid, sid ∈ files_of "/run/systemd/sessions" →
    session_file_ok (parse_env_file_at ("/run/systemd/sessions/" +:+ sid)).2;
  saved_schedule : ∀ h, let '(r, f) := parse_env_file_at "/run/systemd/shutdown/scheduled" in
    0 ≤ r → from_string (A := HandleAction) (f "MODE") = Some h → executable h = true;
  saved_descriptors : e_listen_fds = inr [];
}.
End Startup.
