(* ===== verification/Events.v ===== *)
(** The events of the daemon and its main loop: the D-Bus calls by object,
    the event sources of the objects, the udev and VT events, and one round of
    [manager_run] ([src/src/login/logind.c]). *)
From S2P Require Import Prelude Time LoginTypes ActionTypes LoginState LoginEnv Bus Objects SessionDevice Seat Device User Session Lifecycle SessionBus ManagerBus Inhibit Wall Power Schedule Buttons Startup.

(** * D-Bus calls: the method tables of the four kinds of objects *)

Inductive session_call :=
| Terminate | Activate | Lock
| SetIdleHint (b : bool) | SetLockedHint (b : bool)
| Kill (whom : string) (signo : Z)
| TakeControl (force : bool) | ReleaseControl
| SetType (t : string) | SetClass (c : string) | SetDisplay (d : string) | SetTTY (fd : tty_fd)
| TakeDevice (major minor : Z) | ReleaseDevice (major minor : Z)
| PauseDeviceComplete (major minor : Z).

Inductive seat_call :=
| SeatTerminate | ActivateSession (name : string) | SwitchTo (to : Z) | SwitchToNext | SwitchToPrevious.

Inductive user_call := UserTerminate | UserKill (signo : Z).

Inductive manager_call :=
| CreateSession (a : create_args)
| ReleaseSession (name : string)
| ManagerActivateSession (name : string)
| ActivateSessionOnSeat (session seat : string)
| LockSession (name : string) | LockSessions
| KillSession (name whom : string) (signo : Z) | KillUser (uid signo : Z)
| TerminateSession (name : string) | TerminateUser (uid : Z) | TerminateSeat (name : string)
| SetUserLinger (uid : Z) (enable : bool) (pw_name : Z → Z + string).

(** PowerOff and its siblings, CanPowerOff and its siblings, the schedule and the
    inhibitors. *)
Inductive power_call :=
| ShutdownOrSleep (action : HandleAction) (arg : bool + Z)
| CanShutdownOrSleep (action : HandleAction) (test : string → Z * bool)
| ScheduleShutdown (type : string) (elapse : Z)
| CancelScheduledShutdown
| SetWallMessage (wall_message : string) (enable : bool)
| Inhibit (what who why mode : string).

Inductive event :=
| SessionMethod (name : string) (c : session_call) (msg : message)
| SeatMethod (name : string) (c : seat_call) (msg : message)
| UserMethod (uid : Z) (c : user_call) (msg : message)
| ManagerMethod (c : manager_call) (msg : message)
| PowerMethod (c : power_call) (msg : message)
| LeaderPidfd (sid : string) (fd : Z)
| FifoEvent (sid : string) (fd : Z)
| ReleaseTimeout (sid : string)
| StopOnIdle (sid : string)
| TrackEmpty (sid : string)
| CgroupEvents (sid : string) (populated : Z + string)
| CgroupEmpty (cgroup : string)
| UserStopTimeout (uid : Z)
| SeatDevice (d : sd_device_info)
| ConsoleActive
| VtSwitch
| InhibitorFifo (id : string) (fd : Z)
| InhibitTimeout | LidIgnoreTimeout | ChildSignal
| ScheduledShutdown | WallTimer | NologinTimer | IdleTimer
| ButtonInput (name : string) (fd : Z) (l : Z + option input_event)
| LidCheck (name : string)
| LongPress (k : power_key)
| ButtonDevice (d : button_device)
| Reload (parse : config → config).

Section Events.
Context {E : Env}.

Definition handle_session (sid : string) (c : session_call) (msg : message) : MM outcome :=
  match c with
  | Terminate => bus_session_method_terminate sid msg
  | Activate => bus_session_method_activate sid msg
  | Lock => bus_session_method_lock sid msg
  | SetIdleHint b => method_set_idle_hint sid b msg
  | SetLockedHint b => method_set_locked_hint sid b msg
  | Kill whom signo => bus_session_method_kill sid whom signo msg
  | TakeControl force => method_take_control sid force msg
  | ReleaseControl => method_release_control sid msg
  | SetType t => method_set_type sid t msg
  | SetClass c => method_set_class sid c msg
  | SetDisplay d => method_set_display sid d msg
  | SetTTY fd => method_set_tty sid fd msg
  | TakeDevice major minor => method_take_device sid major minor msg
  | ReleaseDevice major minor => method_release_device sid major minor msg
  | PauseDeviceComplete major minor => method_pause_device_complete sid major minor msg
  end.

Definition handle_seat (k : string) (c : seat_call) (msg : message) : MM outcome :=
  match c with
  | SeatTerminate => bus_seat_method_terminate k msg
  | ActivateSession name => seat_method_activate_session k name msg
  | SwitchTo to => method_switch_to k to msg
  | SwitchToNext => method_switch_to_next k msg
  | SwitchToPrevious => method_switch_to_previous k msg
  end.

Definition handle_user (uid : Z) (c : user_call) (msg : message) : MM outcome :=
  match c with
  | UserTerminate => bus_user_method_terminate uid msg
  | UserKill signo => bus_user_method_kill uid signo msg
  end.

Definition handle_manager (c : manager_call) (msg : message) : MM outcome :=
  match c with
  | CreateSession a => create_session a msg
  | ReleaseSession name => method_release_session name msg
  | ManagerActivateSession name => method_activate_session name msg
  | ActivateSessionOnSeat session seat => method_activate_session_on_seat session seat msg
  | LockSession name => method_lock_session name msg
  | LockSessions => method_lock_sessions msg
  | KillSession name whom signo => method_kill_session name whom signo msg
  | KillUser uid signo => method_kill_user uid signo msg
  | TerminateSession name => method_terminate_session name msg
  | TerminateUser uid => method_terminate_user uid msg
  | TerminateSeat name => method_terminate_seat name msg
  | SetUserLinger uid enable pw_name => method_set_user_linger uid enable pw_name msg
  end.

Definition handle_power (c : power_call) (msg : message) : MM outcome :=
  match c with
  | ShutdownOrSleep action arg => method_do_shutdown_or_sleep action arg msg
  | CanShutdownOrSleep action test => method_can_shutdown_or_sleep action test msg
  | ScheduleShutdown type elapse => method_schedule_shutdown type elapse msg
  | CancelScheduledShutdown => method_cancel_scheduled_shutdown msg
  | SetWallMessage w enable => method_set_wall_message w enable msg
  | Inhibit what who why mode => method_inhibit what who why mode msg
  end.

(** The timer's user data is the button it was started for. *)
Definition long_press (k : power_key) : MM outcome :=
  a <- gets m_act ;;
  match key_timer k a with
  | Some (_, name) => ignore (long_press_handler k name) ;;; ret Reply
  | None => ret Reply
  end.
(** [manager_dispatch_reload_signal], [parse] being what the files set. *)
Definition manager_dispatch_reload_signal (parse : config → config) : MM Z :=
  modify (λ m, m <| m_conf := parse (manager_reset_config (m_conf m)) |>) ;;; ret 0.

(** The return value of an event source's callback is of no consequence. *)
Definition source {A} (c : MM A) : MM outcome := ignore c ;;; ret Reply.

Definition handle (ev : event) : MM outcome :=
  match ev with
  (* session_object_find(), seat_object_find(), user_object_find() *)
  | SessionMethod name c msg =>
      try (manager_get_session_from_creds msg name) (λ sid, handle_session sid c msg)
  | SeatMethod name c msg =>
      try (manager_get_seat_from_creds msg name) (λ k, handle_seat k c msg)
  | UserMethod uid c msg =>
      try (manager_get_user_from_creds msg uid) (λ uid, handle_user uid c msg)
  | ManagerMethod c msg => handle_manager c msg
  | PowerMethod c msg => handle_power c msg
  | LeaderPidfd sid fd => source (session_dispatch_leader_pidfd sid fd)
  | FifoEvent sid fd => source (session_dispatch_fifo sid fd)
  | ReleaseTimeout sid => source (release_timeout_callback sid)
  | StopOnIdle sid => source (session_dispatch_stop_on_idle sid)
  | TrackEmpty sid => source (on_bus_track sid)
  | CgroupEvents sid populated => source (session_check_cgroup_events sid populated)
  | CgroupEmpty cgroup => source (manager_notify_cgroup_empty cgroup)
  | UserStopTimeout uid => source (user_stop_timeout_callback uid)
  | SeatDevice d => source (manager_process_seat_device d)
  | ConsoleActive =>
      k <- gets m_seat0 ;;
      k <- deref k ;;
      source (seat_read_active_vt k)
  | VtSwitch => source manager_vt_switch
  | InhibitorFifo id fd => source (inhibitor_dispatch_fifo id fd)
  | InhibitTimeout => source manager_inhibit_timeout_handler
  | LidIgnoreTimeout => source lid_switch_ignore_handler
  | ChildSignal => source elogind_sigchld_handler
  | ScheduledShutdown => source manager_scheduled_shutdown_handler
  | WallTimer => source wall_message_timeout_handler
  | NologinTimer => source nologin_timeout_handler
  | IdleTimer => source manager_dispatch_idle_action
  | ButtonInput name fd l => source (button_dispatch name fd l)
  | LidCheck name => source (button_recheck name)
  | LongPress k => long_press k
  | ButtonDevice d => source (manager_process_button_device d)
  | Reload parse => source (manager_dispatch_reload_signal parse)
  end.

(** Which events can come: an event source of an object fires only while it is
    installed, with the descriptor it was installed for.  A timer that has fired
    stays off until it is set again; here it may fire again. *)
Definition on_session (m : manager) (sid : string) (p : session → bool) : bool :=
  match m_sessions m !! sid with Some s => p s | None => false end.
Definition on_button (m : manager) (name : string) (p : button → bool) : bool :=
  match m_buttons m !! name with Some b => p b | None => false end.
Definition enabled (ev : event) (m : manager) : bool :=
  match ev with
  | LeaderPidfd sid fd =>
      on_session m sid (λ s, s_leader_pidfd_event_source s && (p_fd (s_leader s) =? fd))
  | FifoEvent sid fd => on_session m sid (λ s, s_fifo_event_source s && (s_fifo_fd s =? fd))
  | ReleaseTimeout sid => on_session m sid (λ s, is_some (s_timer_event_source s))
  | StopOnIdle sid => on_session m sid (λ s, is_some (s_stop_on_idle_event_source s))
  | TrackEmpty sid => on_session m sid (λ s, is_some (s_track s))
  | CgroupEvents sid _ =>
      on_session m sid (λ s, bool_decide
        (m_cgroup_control_inotify_wd_session m !! s_cgroup_control_inotify_wd s = Some sid))
  | UserStopTimeout uid =>
      match m_users m !! uid with Some u => is_some (u_timer_event_source u) | None => false end
  | InhibitorFifo id fd =>
      match m_inhibitors m !! id with Some i => i_event_source i && (i_fifo_fd i =? fd) | None => false end
  | InhibitTimeout => is_some (a_inhibit_timeout_source (m_act m))
  | LidIgnoreTimeout => is_some (a_lid_switch_ignore_event_source (m_act m))
  | ScheduledShutdown => is_some (a_scheduled_shutdown_timeout_source (m_act m))
  | WallTimer => is_some (a_wall_message_timeout_source (m_act m))
  | NologinTimer => is_some (a_nologin_timeout_source (m_act m))
  | IdleTimer => is_some (a_idle_action_event_source (m_act m))
  | ButtonInput name fd _ => on_button m name (λ b, b_io_event_source b && (b_fd b =? fd))
  | LidCheck name => on_button m name b_check_event_source
  | LongPress k => is_some (key_timer k (m_act m))
  | _ => true
  end.

(** What the code takes for granted about an event: the owner uid the bus
    reports is a valid uid; the methods ask for actions to shut down or to sleep;
    the kernel reports no key of code 0; the files set limits that leave room, and
    no key or timer to factory-reset; and a button does not go, and is not announced
    again in vain, while a long press of one of its keys is being timed. *)
Definition owner_ok (msg : message) : Prop :=
  ∀ uid, msg_owner_uid msg = inr uid → uid_is_valid uid = true.
Definition key_ok (ev : input_event) : Prop := ev_type ev = EV_KEY → 0 < ev_code ev.
Definition handled_actions (c : config) : list HandleAction :=
  [c_handle_power_key c; c_handle_power_key_long_press c; c_handle_reboot_key c; c_handle_reboot_key_long_press c;
   c_handle_suspend_key c; c_handle_suspend_key_long_press c; c_handle_hibernate_key c;
   c_handle_hibernate_key_long_press c; c_handle_secure_attention_key c; c_handle_lid_switch c;
   default HANDLE_IGNORE (c_handle_lid_switch_ep c); c_handle_lid_switch_docked c; c_idle_action c].
Definition conf_ok (c : config) : Prop :=
  HANDLE_FACTORY_RESET ∉ handled_actions c ∧ c_inhibitors_max c < 2 ^ 64.
Definition sane (c : config) : Prop := c_sessions_max c + 1 < UINT_MAX ∧ conf_ok c.
Definition opens (name : string) : bool :=
  let fd := e_open ("/dev/input/" +:+ name) in
  (0 <=? fd) && (0 <? button_suitable fd) && (0 <=? e_input_name fd) && (0 <=? e_event_add "button-io")
  && match e_input_keys fd with inl r => 0 <=? r | inr _ => true end.
Definition button_stays (d : button_device) (name : string) : bool :=
  negb (bd_remove d) && bd_tag d && opens name.
Definition event_ok (ev : event) (m : manager) : Prop :=
  match ev with
  | ManagerMethod (SetUserLinger _ _ _) msg => owner_ok msg
  | PowerMethod (ShutdownOrSleep action _) _ | PowerMethod (CanShutdownOrSleep action _) _ =>
      HANDLE_ACTION_IS_SHUTDOWN action || HANDLE_ACTION_IS_SLEEP action = true
  | ButtonInput _ _ (inr (Some ev)) => key_ok ev
  | ButtonDevice d => ∀ k t name, key_timer k (m_act m) = Some (t, name) → bd_sysname d = Some name →
      button_stays d name = true
  | Reload parse => ∀ c, sane (parse c)
  | _ => True
  end.

(** One round of [manager_run]: the collection, the action that was put off,
    then, if there was none to execute, one event. *)
Definition before_event : MM Z :=
  fuel <- gets gc_rounds ;;
  manager_gc true fuel ;;;
  manager_dispatch_delayed false.
Definition manager_run_once (ev : event) : MM outcome :=
  r <- before_event ;;
  if 0 <? r then ret Reply
  else
    on <- gets (enabled ev) ;;
    if (on : bool) then handle ev else ret Reply.
(** The event is as the code takes it to be when its turn comes. *)
Definition event_fits (ev : event) (m : manager) : Prop :=
  ∀ r m1, before_event m = Some (r, m1) → event_ok ev m1.
End Events.

(** * What the daemon can get to

    [manager_new] and [manager_connect_console] leave this state to
    [manager_startup]. *)
Definition initial_manager {E : Env} (c : config) (console_fd inotify_fd : Z) : manager :=
  mkManager ∅ ∅ ∅ ∅ ∅ ∅ ∅ [] [] [] None console_fd false 0 0 inotify_fd ∅ initial_actions c [].

(** The start, with whatever was saved, and then rounds of the loop, each of which
    may run in another environment. *)
Inductive reachable (c : config) : manager → Prop :=
| reach_start E (_ : @EnvOk E) console_fd inotify_fd m :
    @saved_ok E →
    @manager_startup E (@initial_manager E c console_fd inotify_fd) = Some (0, m) →
    reachable c m
| reach_run E (_ : @EnvOk E) ev m o m' :
    reachable c m → @event_fits E ev m → @manager_run_once E ev m = Some (o, m') → reachable c m'.
