(* ===== verification/SdLogin.v ===== *)
(** The client library: what other programs read of the daemon's state
    ([src/src/libelogind/sd-login/sd-login.c]), with the functions of
    [path-util.c] that it names its files by.  Each function opens the state file
    of a session, a seat or a user and looks for its keys. *)
From Stdlib Require Import Ascii.
From stdpp Require Import pretty.
From S2P Require Import Prelude Time LoginTypes Escape Parse EnvFile Words.
#[local] Open Scope string_scope.
#[local] Open Scope Z_scope.
#[local] Open Scope list_scope.

(** * File names *)

Definition dot_or_dot_dot (s : string) : bool := bool_decide (s = "." ∨ s = "..").
Definition filename_part_is_valid (s : string) : bool :=
  string_forallb (λ c, negb (bool_decide (c = "/"%char))) s && (String.length s <=? NAME_MAX)%nat.
Definition filename_is_valid (s : string) : bool :=
  negb (bool_decide (s = "")) && negb (dot_or_dot_dot s) && filename_part_is_valid s.

Section Client.
(** The file system, an errno or the contents, and [cg_pid_get_session(0)]. *)
Context (files : string → Z + string) (own_session : Z + string).

Definition parse_env_file_of (p : string) : Z * (string → option string) :=
  match files p with inl r => (r, λ _, None) | inr contents => parse_env_file contents end.

Definition sd_pid_get_session_self : Z + string :=
  match own_session with
  | inl r => inl (if in_set r [- ENXIO; - ENOMEDIUM] then - ENODATA else r)
  | inr s => inr s
  end.

(** The steps all functions have in common: the name of the file, reading it, and
    the value of a key that must not be empty. *)
Definition and_then_file {A} (file : Z + string) (enoent : Z + A) (k : (string → option string) → Z + A) : Z + A :=
  match file with
  | inl r => inl r
  | inr p =>
      let '(r, f) := parse_env_file_of p in
      if r =? - ENOENT then enoent else if r <? 0 then inl r else k f
  end.
Definition not_empty {A} (o : option string) (r : Z) (k : string → Z + A) : Z + A :=
  match o with None | Some EmptyString => inl r | Some s => k s end.

(** * Sessions *)

Definition file_of_session (session : option string) : Z + string :=
  match session with
  | Some id => if negb (session_id_valid id) then inl (- EINVAL) else inr (path_join "/run/systemd/sessions" id)
  | None =>
      match sd_pid_get_session_self with
      | inl r => inl r
      | inr buf => inr (path_join "/run/systemd/sessions" buf)
      end
  end.
Definition sd_session_is_active (session : option string) : Z + bool :=
  and_then_file (file_of_session session) (inl (- ENXIO)) (λ f, not_empty (f "ACTIVE") (- EIO) parse_boolean).
Definition sd_session_is_remote (session : option string) : Z + bool :=
  and_then_file (file_of_session session) (inl (- ENXIO)) (λ f, not_empty (f "REMOTE") (- ENODATA) parse_boolean).
Definition sd_session_get_state (session : option string) : Z + string :=
  and_then_file (file_of_session session) (inl (- ENXIO)) (λ f, not_empty (f "STATE") (- EIO) inr).
Definition sd_session_get_uid (session : option string) : Z + Z :=
  and_then_file (file_of_session session) (inl (- ENXIO)) (λ f, not_empty (f "UID") (- EIO) parse_uid).
Definition session_get_string (session : option string) (field : string) : Z + string :=
  and_then_file (file_of_session session) (inl (- ENXIO)) (λ f, not_empty (f field) (- ENODATA) inr).
Definition sd_session_get_username s := session_get_string s "USER".
Definition sd_session_get_seat s := session_get_string s "SEAT".
Definition sd_session_get_start_time (session : option string) : Z + Z :=
  and_then_file (file_of_session session) (inl (- ENXIO)) (λ f, not_empty (f "REALTIME") (- EIO) safe_atou64).
Definition sd_session_get_tty s := session_get_string s "TTY".
Definition sd_session_get_vt (session : option string) : Z + Z :=
  match session_get_string session "VTNR" with inl r => inl r | inr vtnr => safe_atou vtnr end.
Definition sd_session_get_service s := session_get_string s "SERVICE".
Definition sd_session_get_type s := session_get_string s "TYPE".
Definition sd_session_get_class s := session_get_string s "CLASS".
Definition sd_session_get_desktop (session : option string) : Z + string :=
  match session_get_string session "DESKTOP" with
  | inl r => inl r
  | inr escaped => default (inl (- EINVAL)) (cunescape escaped false false)
  end.
Definition sd_session_get_display s := session_get_string s "DISPLAY".
Definition sd_session_get_remote_user s := session_get_string s "REMOTE_USER".
Definition sd_session_get_remote_host s := session_get_string s "REMOTE_HOST".
Definition sd_session_get_leader (session : option string) : Z + Z :=
  match session_get_string session "LEADER" with inl r => inl r | inr leader => parse_pid leader end.

(** * Users *)

Definition file_of_uid (uid : Z) : Z + string :=
  if uid_is_valid uid then inr ("/run/systemd/users/" +:+ pretty uid) else inl (- EINVAL).
Definition sd_uid_get_state (uid : Z) : Z + string :=
  and_then_file (file_of_uid uid) (inr "offline") (λ f, not_empty (f "STATE") (- EIO) inr).
Definition sd_uid_get_display (uid : Z) : Z + string :=
  and_then_file (file_of_uid uid) (inl (- ENODATA)) (λ f, not_empty (f "DISPLAY") (- ENODATA) inr).
Definition sd_uid_get_login_time (uid : Z) : Z + Z :=
  and_then_file (file_of_uid uid) (inl (- ENXIO)) (λ f,
    not_empty (f "STATE") (- EIO) (λ s, not_empty (f "REALTIME") (- EIO) (λ rt,
      if negb (in_set s ["active"; "online"]) then inl (- ENXIO) else safe_atou64 rt))).
(** The array; the result is its length. *)
Definition uid_get_array (uid : Z) (variable : string) : Z + list string :=
  and_then_file (file_of_uid uid) (inr []) (λ f,
    match f variable with
    | None | Some EmptyString => inr []
    | Some s => match strv_split s WHITESPACE with None => inl (- ENOMEM) | Some a => inr (strv_uniq a) end
    end).
Definition sd_uid_get_sessions (uid require_active : Z) : Z + list string :=
  uid_get_array uid (if require_active =? 0 then "ONLINE_SESSIONS"
                     else if 0 <? require_active then "ACTIVE_SESSIONS" else "SESSIONS").
Definition sd_uid_get_seats (uid require_active : Z) : Z + list string :=
  uid_get_array uid (if require_active =? 0 then "ONLINE_SEATS"
                     else if 0 <? require_active then "ACTIVE_SEATS" else "SEATS").

(** * Seats *)

Definition file_of_seat (seat : option string) : Z + string :=
  match seat with
  | Some seat => if negb (filename_is_valid seat) then inl (- EINVAL) else inr (path_join "/run/systemd/seats" seat)
  | None =>
      match sd_session_get_seat None with
      | inl r => inl r
      | inr buf => inr (path_join "/run/systemd/seats" buf)
      end
  end.
Definition sd_uid_is_on_seat (uid : Z) (require_active : bool) (seat : option string) : Z + bool :=
  if negb (uid_is_valid uid) then inl (- EINVAL)
  else
    and_then_file (file_of_seat seat) (inr false) (λ f,
      match f (if require_active then "ACTIVE_UID" else "UIDS") with
      | None | Some EmptyString => inr false
      | Some content => string_contains_word content None (pretty uid)
      end).
(** [want_session] and [want_uid]: is the pointer not NULL? *)
Definition sd_seat_get_active (seat : option string) (want_session want_uid : bool) : Z + (option string * option Z) :=
  if negb (want_session || want_uid) then inl (- EINVAL)
  else
    and_then_file (file_of_seat seat) (inl (- ENXIO)) (λ f,
      let s := f "ACTIVE" in
      let t := f "ACTIVE_UID" in
      if want_session && negb (is_some s) then inl (- ENODATA)
      else if want_uid && negb (is_some t) then inl (- ENODATA)
      else
        let session := if want_session then s else None in
        match t with
        | Some t => if want_uid then match parse_uid t with inl r => inl r | inr uid => inr (session, Some uid) end
                    else inr (session, None)
        | None => inr (session, None)
        end).

(** The uids are written to an array of [room] entries, which nothing checks:
    [None] is a write past its end. *)
Fixpoint uids_loop (fuel : nat) (room : nat) (p : option string) : option (Z + list Z) :=
  match fuel with
  | O => Some (inl 0)
  | S fuel' =>
      match extract_first_word WHITESPACE no_extract_flags p with
      | ExtractError r => Some (inl r)
      | ExtractEnd => Some (inr [])
      | ExtractWord word p' =>
          match parse_uid word, room with
          | inl r, _ => Some (inl r)
          | inr uid, O => None
          | inr uid, S room' =>
              match uids_loop fuel' room' p' with
              | Some (inr l) => Some (inr (uid :: l))
              | o => o
              end
          end
      end
  end.
Definition seat_uids (n_sessions : nat) (uid_line : string) : option (Z + list Z) :=
  match uids_loop (2 + String.length uid_line) n_sessions (Some uid_line) with
  | Some (inr l) => Some (if negb (Nat.eqb (length l) n_sessions) then inl (- EUCLEAN) else inr l)
  | o => o
  end.
(** The sessions, and the uids if they are wanted and there. *)
Definition sd_seat_get_sessions (seat : option string) (want_uids : bool)
  : option (Z + (list string * option (list Z))) :=
  match file_of_seat seat with
  | inl r => Some (inl r)
  | inr p =>
      let '(r, f) := parse_env_file_of p in
      if r =? - ENOENT then Some (inl (- ENXIO))
      else if r <? 0 then Some (inl r)
      else
        match (match f "SESSIONS" with Some l => strv_split l WHITESPACE | None => Some [] end) with
        | None => Some (inl (- ENOMEM))
        | Some sessions =>
            match (if want_uids then f "UIDS" else None) with
            | None => Some (inr (sessions, None))
            | Some uid_line =>
                match seat_uids (length sessions) uid_line with
                | None => None
                | Some (inl r) => Some (inl r)
                | Some (inr uids) => Some (inr (sessions, Some uids))
                end
            end
        end
  end.
Definition seat_get_can (seat : option string) (variable : string) : Z + bool :=
  and_then_file (file_of_seat seat) (inl (- ENXIO)) (λ f, not_empty (f variable) (- ENODATA) parse_boolean).
Definition sd_seat_can_multi_session (seat : option string) : bool := true.
Definition sd_seat_can_tty seat := seat_get_can seat "CAN_TTY".
Definition sd_seat_can_graphical seat := seat_get_can seat "CAN_GRAPHICAL".

(** The directory: an errno, or its entries and whether each is a file. *)
Definition sd_get_uids (dir : Z + list (string * bool)) : Z + list Z :=
  match dir with
  | inl r => if r =? - ENOENT then inr [] else inl r
  | inr entries =>
      let l := omap (λ '(name, is_file), if (is_file : bool) then match parse_uid name with inr uid => Some uid | inl _ => None end
                                         else None) entries in
      if 2 ^ 31 - 1 <? Z.of_nat (length l) then inl (- EOVERFLOW) else inr l
  end.
End Client.
