(* ===== verification/Sleep.v ===== *)
(** Suspending and hibernating, what the child of the daemon does for it: the
    configuration and whether an operation is supported
    ([src/src/shared/sleep-config.[ch]]), the choice of the swap
    ([src/src/shared/hibernate-util.c]), the batteries
    ([src/src/sleep/battery-capacity.c], [src/src/shared/battery-util.c]) and
    [do_sleep] ([src/src/sleep/sleep.c]). *)
From Stdlib Require Import Ascii SpecFloat.
From stdpp Require Import pretty.
From S2P Require Import Prelude Time LoginTypes ActionTypes LoginState LoginEnv Escape Parse EnvFile Words Bus Objects Wall Startup SdLogin.
#[local] Open Scope string_scope.
#[local] Open Scope Z_scope.
#[local] Open Scope list_scope.

(** * The machine and the child

    The answers of the system may differ each time it is asked: each question has
    a number.  What the child does to the system is kept in order. *)

Record battery := mkBattery {
  b_name : Z + string;     (* POWER_SUPPLY_NAME *)
  b_capacity : Z + Z;      (* the sysfs attribute, an int *)
  b_hash : Z;              (* system_battery_identifier_hash() *)
  b_alarm : Z + string;
}.
(** A line of /proc/swaps. *)
Record swap_line := mkSwapLine { l_path : string; l_type : string; l_size : Z; l_used : Z; l_priority : Z }.

Class Host := {
  h_access : nat → string → Z;                  (* access(path, W_OK) *)
  h_read_one_line_file : nat → string → Z + string;
  h_clock_boottime_alarm : nat → bool;          (* clock_supported() *)
  h_noresume : nat → Z;                         (* proc_cmdline_get_key("noresume") *)
  h_swaps : nat → Z + list swap_line;           (* fscanf() of /proc/swaps *)
  h_resume_config : nat → swap_line → Z + (Z * Z);   (* open, fstat, fiemap: device and offset *)
  h_device_path : nat → Z → Z + string;         (* device_path_make_canonical() *)
  h_efi_boot : nat → bool;
  h_bypass_memory_check : nat → bool;
  h_meminfo_active : nat → Z + string;          (* get_proc_field() *)
  h_files : nat → string → Z + string;          (* the state files, as the client library reads them *)
  h_own_session : nat → Z + string;
  h_open : nat → string → Z;                    (* open(path, O_WRONLY|O_CLOEXEC) *)
  h_fdopen : nat → Z;                           (* fdopen_independent() *)
  h_write : nat → string → string → Z;          (* write_string_file() or _stream() *)
  h_set_efi_location : nat → Z;                 (* write_efi_hibernate_location() *)
  h_hooks : nat → Z * bool;                     (* execute_directories(), and sc->callback_failed *)
  h_tool : nat → string → Z + Z;                (* a failed fork; or wait_for_terminate_and_check() *)
  h_battery_low : nat → Z;                      (* battery_is_discharging_and_low() *)
  h_on_ac_power : nat → Z;
  h_batteries : nat → Z + list battery;         (* battery_enumerator_new() and what it finds *)
  h_rate_lines : nat → Z + list (Z + string);   (* the file of discharge rates; lines as read_line() has them *)
  h_dmi : nat → Z + list Z;                     (* read_full_virtual_file() of the DMI entry, bytes *)
  h_now : nat → Z;                              (* now(CLOCK_BOOTTIME) *)
  h_timerfd_create : nat → Z;
  h_timerfd_settime : nat → Z → Z;
  h_wait_for_timer : nat → nat * Z → Z;         (* fd_wait_for_event(tfd, POLLIN, 0), of the timer
                                                   that was set then and for so long *)
}.

Inductive deed :=
| WriteFile (path text : string) (r : Z)
| SetEfiLocation (r : Z)
| ClearEfiLocation
| SetSleepAction (action : string)
| RunHooks (phase : string) (operation : option string) (r : Z) (callback_failed : bool)
| CancelSleep (operation : option string) (broadcast : bool)
| PrepareForSleep (active : bool)
| ChangeVT (vt : Z)
| RunTool (tool : string) (r : Z)
| SetWakeAlarm (usec : Z)
| SaveRate (text : string) (truncate : bool).

Record child := mkChild {
  ch_asked : nat;                                (* questions so far *)
  ch_arg_operation : option SleepOperation;      (* arg_operation *)
  ch_deeds : list deed;
}.
#[export] Instance child_eta : Eta child := λ c, mkChild (ch_asked c) (ch_arg_operation c) (ch_deeds c).
Definition CM (A : Type) : Type := M child A.

Definition ask {A} (f : nat → A) : CM A :=
  n <- gets ch_asked ;; modify (λ c, c <| ch_asked := S n |>) ;;; ret (f n).
Definition act (d : deed) : CM unit := modify (λ c, c <| ch_deeds := ch_deeds c ++ [d] |>).

(** * The configuration *)

(** [allow], [states] and [modes] are arrays; those of the states and modes have
    no entry for suspend-then-hibernate. *)
Record SleepConfig := mkSleepConfig {
  sc_allow : SleepOperation → bool;
  sc_states : SleepOperation → list string;
  sc_modes : SleepOperation → list string;
  sc_mem_modes : list string;
  sc_hibernate_delay_usec : Z;
  sc_hibernate_on_ac_power : bool;
  sc_suspend_estimation_usec : Z;
  sc_allow_suspend_interrupts : bool;
  sc_broadcast_suspend_interrupts : bool;
  sc_handle_nvidia_sleep : bool;
  sc_suspend_by_using : list string;
  sc_hibernate_by_using : list string;
  sc_manager_uid : Z;                            (* manager->scheduled_sleep_uid *)
}.

#[export] Instance sleep_config_eta : Eta SleepConfig := λ c,
  mkSleepConfig (sc_allow c) (sc_states c) (sc_modes c) (sc_mem_modes c) (sc_hibernate_delay_usec c)
    (sc_hibernate_on_ac_power c) (sc_suspend_estimation_usec c) (sc_allow_suspend_interrupts c)
    (sc_broadcast_suspend_interrupts c) (sc_handle_nvidia_sleep c) (sc_suspend_by_using c)
    (sc_hibernate_by_using c) (sc_manager_uid c).

(** What the parser of sleep.conf leaves in the variables of [parse_sleep_config];
    a list that was not set is NULL. *)
Record sleep_settings := mkSleepSettings {
  set_allow_suspend : Z;                         (* tristates *)
  set_allow_hibernate : Z;
  set_allow_s2h : Z;
  set_allow_hybrid_sleep : Z;
  set_suspend_state : option (list string);
  set_hibernate_mode : option (list string);
  set_mem_modes : option (list string);
  set_hibernate_delay_usec : Z;
  set_hibernate_on_ac_power : bool;
  set_suspend_estimation_usec : Z;
  set_allow_suspend_interrupts : bool;
  set_broadcast_suspend_interrupts : bool;
  set_handle_nvidia_sleep : bool;
  set_suspend_by_using : list string;
  set_hibernate_by_using : list string;
}.
(** What is there when no file says otherwise. *)
Definition no_settings : sleep_settings :=
  mkSleepSettings (-1) (-1) (-1) (-1) None None None USEC_INFINITY true 0 false true false [] [].

Definition sleep_default_state_table (op : SleepOperation) : list string :=
  match op with
  | SLEEP_SUSPEND => ["mem"; "standby"; "freeze"]
  | SLEEP_HIBERNATE | SLEEP_HYBRID_SLEEP => ["disk"]
  | SLEEP_SUSPEND_THEN_HIBERNATE => []
  end.
Definition sleep_default_mode_table (op : SleepOperation) : list string :=
  match op with
  | SLEEP_HIBERNATE => ["platform"; "shutdown"]
  | SLEEP_HYBRID_SLEEP => ["suspend"]
  | _ => []
  end.
Definition DEFAULT_SUSPEND_ESTIMATION_USEC : Z := 1 * USEC_PER_HOUR.

Definition config_parse_sleep_mode (rvalue : string) : Z + list string :=
  if isempty rvalue then inr []
  else match strv_split_full rvalue WHITESPACE
               (mkExtractFlags false false false false false true false true false) with
       | inl _ => inl (- ENOMEM)
       | inr modes => inr modes
       end.

Definition sleep_config_validate_state_and_mode (sc : SleepConfig) : option SleepConfig :=
  let states op := if bool_decide (op = SLEEP_SUSPEND) then strv_remove (sc_states sc op) "disk" else sc_states sc op in
  if bool_decide (sc_modes sc SLEEP_SUSPEND = []) then Some (sc <| sc_states := states |>) else None.

(** The configuration does not know the manager yet; [None]: the assertion on the
    modes of suspend. *)
Definition parse_sleep_config (s : sleep_settings) : option SleepConfig :=
  let both := negb (set_allow_suspend s =? 0) && negb (set_allow_hibernate s =? 0) in
  let allow op :=
    match op with
    | SLEEP_SUSPEND => negb (set_allow_suspend s =? 0)
    | SLEEP_HIBERNATE => negb (set_allow_hibernate s =? 0)
    | SLEEP_HYBRID_SLEEP =>
        if 0 <=? set_allow_hybrid_sleep s then negb (set_allow_hybrid_sleep s =? 0) else both
    | SLEEP_SUSPEND_THEN_HIBERNATE => if 0 <=? set_allow_s2h s then negb (set_allow_s2h s =? 0) else both
    end in
  let states op :=
    default (sleep_default_state_table op)
      (if bool_decide (op = SLEEP_SUSPEND) then set_suspend_state s else None) in
  let modes op :=
    default (sleep_default_mode_table op)
      (if bool_decide (op = SLEEP_HIBERNATE) then set_hibernate_mode s else None) in
  let estimation :=
    if set_suspend_estimation_usec s =? 0 then DEFAULT_SUSPEND_ESTIMATION_USEC else set_suspend_estimation_usec s in
  sleep_config_validate_state_and_mode
    (mkSleepConfig allow states modes (default [] (set_mem_modes s)) (set_hibernate_delay_usec s)
       (set_hibernate_on_ac_power s) estimation (set_allow_suspend_interrupts s)
       (set_broadcast_suspend_interrupts s) (set_handle_nvidia_sleep s) (set_suspend_by_using s)
       (set_hibernate_by_using s) 0).

(** [operation < _SLEEP_OPERATION_CONFIG_MAX]. *)
Definition has_config (op : SleepOperation) : bool := negb (bool_decide (op = SLEEP_SUSPEND_THEN_HIBERNATE)).
Definition SLEEP_OPERATION_IS_HIBERNATION (op : SleepOperation) : bool :=
  bool_decide (op ∈ [SLEEP_HIBERNATE; SLEEP_HYBRID_SLEEP]).
Definition SLEEP_NEEDS_MEM_SLEEP (sc : SleepConfig) (op : SleepOperation) : bool :=
  in_set "mem" (sc_states sc op) || in_set "suspend" (sc_modes sc op).

Inductive SleepSupport :=
| SLEEP_SUPPORTED | SLEEP_DISABLED | SLEEP_NOT_CONFIGURED | SLEEP_STATE_OR_MODE_NOT_SUPPORTED
| SLEEP_RESUME_NOT_SUPPORTED | SLEEP_RESUME_DEVICE_MISSING | SLEEP_RESUME_MISCONFIGURED
| SLEEP_NOT_ENOUGH_SWAP_SPACE | SLEEP_ALARM_NOT_SUPPORTED.
#[export] Instance SleepSupport_eq_dec : EqDecision SleepSupport.
Proof. solve_decision. Defined.

Section Sleep.
Context {H : Host}.

(** * The place to hibernate to *)

(** The double 0.98, and integers as doubles. *)
Definition HIBERNATION_SWAP_THRESHOLD : spec_float := S754_finite false 8827055269646172 (-53).
Definition to_double (z : Z) : spec_float := binary_normalize 53 1024 z 0 false.

Definition read_resume_config : CM (Z + (Z * Z)) :=
  r <- ask h_noresume ;;
  if r <? 0 then ret (inl r)
  else if 0 <? r then ret (inl (- ENOTRECOVERABLE))
  else
    s <- ask (λ n, h_read_one_line_file n "/sys/power/resume") ;;
    match s with
    | inl r => ret (inl r)
    | inr devno_str =>
        match parse_devnum devno_str with
        | inl r => ret (inl r)
        | inr devno =>
            s <- ask (λ n, h_read_one_line_file n "/sys/power/resume_offset") ;;
            match (match s with
                   | inl r => if r =? - ENOENT then inr UINT64_MAX else inl r
                   | inr offset_str => safe_atou64 offset_str
                   end) with
            | inl r => ret (inl r)
            | inr offset =>
                if (devno =? 0) && (0 <? offset) && negb (offset =? UINT64_MAX) then ret (inl (- ENOMEDIUM))
                else ret (inr (devno, offset))
            end
        end
    end.

(** A swap that can be used: of one in a file, the name ends otherwise; of a
    partition, the device is not in memory. *)
Definition endswith (s postfix : string) : bool :=
  let d := (String.length s - String.length postfix)%nat in
  (String.length postfix <=? String.length s)%nat && bool_decide (String.substring d (String.length postfix) s = postfix).
Definition is_swapfile (l : swap_line) : bool := bool_decide (l_type l = "file").
Definition swap_usable (l : swap_line) : bool :=
  if is_swapfile l then negb (endswith (l_path l) "\040(deleted)")
  else if bool_decide (l_type l = "partition") then
    match path_startswith (l_path l) "/dev/" with
    | Some node => negb (is_some (startswith node "zram"))
    | None => true
    end
  else false.
Definition read_swap_entries : CM (Z + list swap_line) :=
  r <- ask h_swaps ;;
  ret (match r with inl r => inl r | inr l => inr (filter (λ s, swap_usable s = true) l) end).

(** A swap with its device and offset. *)
Record swap_entry := mkSwapEntry { sw_line : swap_line; sw_devno : Z; sw_offset : Z }.
Definition swap_left (e : swap_entry) : Z := u64 (l_size (sw_line e) - l_used (sw_line e)).
Definition is_resume_swap (devno offset : Z) (s : swap_entry) : bool :=
  (sw_devno s =? devno) &&
  (negb (is_swapfile (sw_line s)) || (offset =? UINT64_MAX) || (sw_offset s =? offset)).
Definition better_swap (entry : option swap_entry) (s : swap_entry) : bool :=
  match entry with
  | None => true
  | Some e => (l_priority (sw_line e) <? l_priority (sw_line s)) || (swap_left e <? swap_left s)
  end.
Fixpoint choose_swap (devno offset : Z) (entry : option swap_entry) (l : list swap_line)
  : CM (Z + option swap_entry) :=
  match l with
  | [] => ret (inr entry)
  | swap :: l' =>
      r <- ask (λ n, h_resume_config n swap) ;;
      match r with
      | inl r => ret (inl r)
      | inr (d, o) =>
          let s := mkSwapEntry swap d o in
          if d =? 0 then assert_se (is_swapfile swap) ;;; choose_swap devno offset entry l'
          else if 0 <? devno then
            if is_resume_swap devno offset s then ret (inr (Some s)) else choose_swap devno offset entry l'
          else choose_swap devno offset (if better_swap entry s then Some s else entry) l'
      end
  end.

(** The result: whether resume= is set, the swap, and the path if it is asked for. *)
Definition find_suitable_hibernation_device_full (want_path : bool) : CM (Z + (bool * swap_entry * string)) :=
  r <- read_resume_config ;;
  match r with
  | inl r => ret (inl r)
  | inr (devno, offset) =>
      r <- read_swap_entries ;;
      match r with
      | inl r => ret (inl r)
      | inr [] => ret (inl (- ENOSPC))
      | inr l =>
          r <- choose_swap devno offset None l ;;
          match r with
          | inl r => ret (inl r)
          | inr None => assert_se (0 <? devno) ;;; ret (inl (- ESTALE))
          | inr (Some entry) =>
              path <- (if want_path && is_swapfile (sw_line entry)
                       then ask (λ n, h_device_path n (sw_devno entry))
                       else ret (inr (l_path (sw_line entry)))) ;;
              ret (match path with inl r => inl r | inr path => inr (0 <? devno, entry, path) end)
          end
      end
  end.

Definition get_proc_meminfo_active : CM (Z + Z) :=
  r <- ask h_meminfo_active ;;
  ret (match r with inl r => inl r | inr active_str => safe_atollu_full active_str 0 no_flags end).

Definition enough_swap (active left : Z) : bool :=
  SFleb (to_double active) (SFmul 53 1024 (to_double left) HIBERNATION_SWAP_THRESHOLD).
Definition hibernation_is_safe : CM Z :=
  bypass_space_check <- ask h_bypass_memory_check ;;
  r <- find_suitable_hibernation_device_full false ;;
  match r with
  | inl r => ret (if ((r =? - ENOSPC) || (r =? - ESTALE)) && bypass_space_check then 0 else r)
  | inr (resume_set, entry, _) =>
      efi <- (if resume_set : bool then ret true else ask h_efi_boot) ;;
      if negb efi then ret (- ENOTRECOVERABLE)
      else if bypass_space_check : bool then ret 0
      else
        a <- get_proc_meminfo_active ;;
        match a with
        | inl r => ret r
        | inr active =>
            ret (if negb (enough_swap active (swap_left entry)) then - ENOSPC else if resume_set : bool then 1 else 0)
        end
  end.

(** [write_resume_config]; the device as FORMAT_DEVNUM() has it. *)
Definition write_string_file (path text : string) : CM Z :=
  r <- ask (λ n, h_write n path text) ;; act (WriteFile path text r) ;;; ret r.
Definition format_devnum (devno : Z) : string := pretty (dev_major devno) +:+ ":" +:+ pretty (dev_minor devno).
Definition write_resume_config (devno offset : Z) : CM Z :=
  assert_se (0 <? devno) ;;;
  r <- write_string_file "/sys/power/resume_offset" (pretty offset) ;;
  if (r =? - ENOENT) && negb (offset =? 0) then ret (- EOPNOTSUPP)
  else if (r <? 0) && negb (r =? - ENOENT) then ret r
  else
    r <- write_string_file "/sys/power/resume" (format_devnum devno) ;;
    ret (if r <? 0 then r else 0).

(** * Is an operation supported? *)

Definition string_contains_word_strv (s : string) (words : list string) : Z + bool :=
  contains_loop (2 + String.length s) WHITESPACE no_extract_flags words (Some s).
Definition sleep_state_supported (states : list string) : CM Z :=
  if bool_decide (states = []) then ret (- ENOMSG)
  else
    a <- ask (λ n, h_access n "/sys/power/state") ;;
    if a <? 0 then ret a
    else
      s <- ask (λ n, h_read_one_line_file n "/sys/power/state") ;;
      ret (match s with
           | inl r => r
           | inr supported_sysfs =>
               match string_contains_word_strv supported_sysfs states with
               | inl r => r
               | inr found => if found then 1 else 0
               end
           end).

(** The mode in use is in brackets. *)
Definition strip_brackets (word : string) : string :=
  let l := String.length word in
  match word with
  | String c rest =>
      if bool_decide (c = "["%char) && bool_decide (String.get (l - 1) word = Some "]"%char)
      then String.substring 0 (l - 2) rest else word
  | EmptyString => word
  end.
Fixpoint modes_loop (fuel : nat) (modes : list string) (p : option string) : Z + bool :=
  match fuel with
  | O => inl 0
  | S fuel' =>
      match extract_first_word WHITESPACE no_extract_flags p with
      | ExtractError r => inl r
      | ExtractEnd => inr false
      | ExtractWord word p' => if in_set (strip_brackets word) modes then inr true else modes_loop fuel' modes p'
      end
  end.
Definition sleep_mode_supported (path : string) (modes : list string) : CM Z :=
  if bool_decide (modes = []) then ret 1
  else
    a <- ask (λ n, h_access n path) ;;
    if a <? 0 then ret a
    else
      s <- ask (λ n, h_read_one_line_file n path) ;;
      ret (match s with
           | inl r => r
           | inr supported_sysfs =>
               match modes_loop (2 + String.length supported_sysfs) modes (Some supported_sysfs) with
               | inl r => r
               | inr found => if found then 1 else 0
               end
           end).

(** The result and [*ret_support], which is not written with an error. *)
Definition no_support (s : SleepSupport) : CM (Z * option SleepSupport) := ret (0, Some s).
Definition support_error (r : Z) : CM (Z * option SleepSupport) := ret (r, None).
Definition of_supported (k : CM Z) (none : CM (Z * option SleepSupport)) (rest : CM (Z * option SleepSupport))
  : CM (Z * option SleepSupport) :=
  r <- k ;; if r <? 0 then support_error r else if r =? 0 then none else rest.
Definition hibernation_supported (sc : SleepConfig) (op : SleepOperation) : CM (Z * option SleepSupport) :=
  of_supported (sleep_mode_supported "/sys/power/disk" (sc_modes sc op)) (no_support SLEEP_STATE_OR_MODE_NOT_SUPPORTED)
    (r <- hibernation_is_safe ;;
     if r =? - ENOTRECOVERABLE then no_support SLEEP_RESUME_NOT_SUPPORTED
     else if r =? - ESTALE then no_support SLEEP_RESUME_DEVICE_MISSING
     else if r =? - ENOMEDIUM then no_support SLEEP_RESUME_MISCONFIGURED
     else if r =? - ENOSPC then no_support SLEEP_NOT_ENOUGH_SWAP_SPACE
     else if r <? 0 then support_error r else ret (1, Some SLEEP_SUPPORTED)).
(** [sleep_supported_internal] for an operation with states of its own. *)
Definition operation_supported (sc : SleepConfig) (op : SleepOperation) : CM (Z * option SleepSupport) :=
  r <- sleep_state_supported (sc_states sc op) ;;
  if r =? - ENOMSG then no_support SLEEP_NOT_CONFIGURED
  else if r <? 0 then support_error r
  else if r =? 0 then no_support SLEEP_STATE_OR_MODE_NOT_SUPPORTED
  else
    of_supported (if SLEEP_NEEDS_MEM_SLEEP sc op then sleep_mode_supported "/sys/power/mem_sleep" (sc_mem_modes sc) else ret 1)
      (no_support SLEEP_STATE_OR_MODE_NOT_SUPPORTED)
      (if SLEEP_OPERATION_IS_HIBERNATION op then hibernation_supported sc op
       else assert_se (bool_decide (sc_modes sc op = [])) ;;; ret (1, Some SLEEP_SUPPORTED)).
Definition s2h_supported (sc : SleepConfig) : CM (Z * option SleepSupport) :=
  ok <- ask h_clock_boottime_alarm ;;
  if negb ok then no_support SLEEP_ALARM_NOT_SUPPORTED
  else
    s <- operation_supported sc SLEEP_SUSPEND ;;
    if fst s <=? 0 then ret s
    else
      s <- operation_supported sc SLEEP_HIBERNATE ;;
      if fst s <=? 0 then ret s
      else assert_se (bool_decide (snd s = Some SLEEP_SUPPORTED)) ;;; ret (1, snd s).
Definition sleep_supported_internal (sc : SleepConfig) (op : SleepOperation) (check_allowed : bool)
  : CM (Z * option SleepSupport) :=
  if check_allowed && negb (sc_allow sc op) then no_support SLEEP_DISABLED
  else if bool_decide (op = SLEEP_SUSPEND_THEN_HIBERNATE) then s2h_supported sc
  else operation_supported sc op.
Definition sleep_supported_full (settings : sleep_settings) (op : SleepOperation) : CM (Z * option SleepSupport) :=
  sc <- deref (parse_sleep_config settings) ;;
  s <- sleep_supported_internal sc op true ;;
  if fst s <? 0 then ret s
  else
    assert_se (bool_decide (0 < fst s ↔ snd s = Some SLEEP_SUPPORTED)) ;;; ret s.

(** * Batteries *)

Definition battery_read_capacity_percentage (b : battery) : Z :=
  match b_capacity b with
  | inl r => r
  | inr c => if (c <? 0) || (100 <? c) then - ERANGE else c
  end.
Definition CAPACITY_valid (c : Z) : bool := (0 <=? c) && (c <=? 100).

(** The capacities by name; a name that comes again with another value is an error
    of [hashmap_put]. *)
Fixpoint capacities_loop (caps : gmap string Z) (l : list battery) : CM (Z + gmap string Z) :=
  match l with
  | [] => ret (inr caps)
  | b :: l' =>
      let c := battery_read_capacity_percentage b in
      if c <? 0 then capacities_loop caps l'
      else
        match b_name b with
        | inl _ => capacities_loop caps l'
        | inr name =>
            assert_se (CAPACITY_valid c) ;;;
            match caps !! name with
            | Some c' => if c' =? c then capacities_loop caps l' else ret (inl (- EEXIST))
            | None => capacities_loop (<[name := c]> caps) l'
            end
        end
  end.
Definition fetch_batteries_capacity_by_name : CM (Z + gmap string Z) :=
  l <- ask h_batteries ;;
  match l with inl r => ret (inl r) | inr l => capacities_loop ∅ l end.
Definition get_capacity_by_name (caps : gmap string Z) (name : string) : CM Z :=
  match caps !! name with
  | None => ret (- ENOENT)
  | Some c => assert_se (CAPACITY_valid c) ;;; ret c
  end.

Definition battery_discharge_rate_is_valid (rate : Z) : bool := (0 <? rate) && (rate <? 200).
(** [extract_many_words] for two words. *)
Definition extract_two_words (s : string) : Z + list string :=
  match extract_first_word WHITESPACE no_extract_flags (Some s) with
  | ExtractError r => inl r
  | ExtractEnd => inr []
  | ExtractWord w p =>
      match extract_first_word WHITESPACE no_extract_flags p with
      | ExtractError r => inl r
      | ExtractEnd => inr [w]
      | ExtractWord w' _ => inr [w; w']
      end
  end.
Fixpoint rate_of (hash : Z) (lines : list (Z + string)) : Z + Z :=
  match lines with
  | [] => inl (- ENOENT)
  | inl r :: _ => inl r
  | inr line :: l' =>
      match extract_two_words line with
      | inl r => inl r
      | inr [stored_hash_id; stored_discharge_rate] =>
          match safe_atou64 stored_hash_id with
          | inl r => inl r
          | inr hash_id =>
              if negb (hash =? hash_id) then rate_of hash l'
              else match safe_atoi stored_discharge_rate with
                   | inl r => inl r
                   | inr rate => if battery_discharge_rate_is_valid rate then inr rate else inl (- ERANGE)
                   end
          end
      | inr _ => inl (- EINVAL)
      end
  end.
Definition get_battery_discharge_rate (b : battery) : CM (Z + Z) :=
  f <- ask h_rate_lines ;;
  ret (match f with inl r => inl r | inr lines => rate_of (b_hash b) lines end).
Definition DISCHARGE_RATE_FILEPATH : string := "/var/lib/elogind/sleep/battery_discharge_percentage_rate_per_hour".
Definition rate_line (hash rate : Z) : string := pretty hash +:+ " " +:+ pretty rate.
Definition put_battery_discharge_rate (rate hash : Z) (trunc : bool) : CM Z :=
  if negb (battery_discharge_rate_is_valid rate) then ret (- ERANGE)
  else
    r <- ask (λ n, h_write n DISCHARGE_RATE_FILEPATH (rate_line hash rate)) ;;
    act (SaveRate (rate_line hash rate) trunc) ;;;
    ret (if r <? 0 then r else 0).

(** The conversion of the rate to an int. *)
Definition to_int (z : Z) : Z := let w := z mod 2 ^ 32 in if w <? 2 ^ 31 then w else w - 2 ^ 32.
Fixpoint estimate_loop (last current : gmap string Z) (elapsed : Z) (trunc : bool) (l : list battery) : CM unit :=
  match l with
  | [] => ret tt
  | b :: l' =>
      match b_name b with
      | inl _ => estimate_loop last current elapsed trunc l'
      | inr name =>
          c0 <- get_capacity_by_name last name ;;
          if c0 <? 0 then estimate_loop last current elapsed trunc l'
          else
            c1 <- get_capacity_by_name current name ;;
            if (c1 <? 0) || (c0 <=? c1) then estimate_loop last current elapsed trunc l'
            else
              r <- put_battery_discharge_rate (to_int (u64 ((c0 - c1) * USEC_PER_HOUR) / elapsed)) (b_hash b) trunc ;;
              estimate_loop last current elapsed (if r <? 0 then trunc else false) l'
      end
  end.
Definition estimate_battery_discharge_rate_per_hour (last current : gmap string Z) (before after : Z) : CM Z :=
  assert_se (before <? after) ;;;
  l <- ask h_batteries ;;
  match l with
  | inl r => ret r
  | inr l => estimate_loop last current (after - before) true l ;;; ret 0
  end.

Fixpoint interval_loop (last : gmap string Z) (total : Z) (l : list battery) : CM Z :=
  match l with
  | [] => ret total
  | b :: l' =>
      match b_name b with
      | inl _ => interval_loop last total l'
      | inr name =>
          c <- get_capacity_by_name last name ;;
          if c <=? 0 then interval_loop last total l'
          else
            r <- get_battery_discharge_rate b ;;
            match r with
            | inl _ => interval_loop last total l'
            | inr rate =>
                if (rate =? 0) || (c * 2 <=? rate) then interval_loop last total l'
                else interval_loop last (usec_add total (c * USEC_PER_HOUR / rate)) l'
            end
      end
  end.
Definition get_total_suspend_interval (last : gmap string Z) : CM (Z + Z) :=
  l <- ask h_batteries ;;
  match l with
  | inl r => ret (inl r)
  | inr l =>
      total <- interval_loop last 0 l ;;
      let total := usec_sub_unsigned total (30 * USEC_PER_MINUTE) in
      ret (if total =? 0 then inl (- ENOENT) else inr total)
  end.

Fixpoint alarm_loop (has_battery : bool) (l : list battery) : Z :=
  match l with
  | [] => if has_battery then 1 else 0
  | b :: l' =>
      match b_alarm b with
      | inl r => r
      | inr alarm_attr =>
          match safe_atoi alarm_attr with
          | inl r => r
          | inr has_alarm => if has_alarm <=? 0 then 0 else alarm_loop true l'
          end
      end
  end.
Definition battery_trip_point_alarm_exists : CM Z :=
  l <- ask h_batteries ;; ret (match l with inl r => r | inr l => alarm_loop false l end).

(** * One suspension or hibernation *)

Definition STATE_PATH : string := "/sys/power/state".
Definition NVIDIA_PATH : string := "/proc/driver/nvidia/suspend".
(** A write to a duplicate of an open file. *)
Definition write_fd (path text : string) : CM (Z + Z) :=
  k <- ask h_fdopen ;;
  if k <? 0 then ret (inl k) else r <- write_string_file path text ;; ret (inr r).

Definition operation_to_string (o : option SleepOperation) : option string := o ≫= to_string.
Fixpoint find_vt (files : string → Z + string) (own : Z + string) (sessions : list string) : Z :=
  match sessions with
  | [] => 0
  | session :: l => match sd_session_get_vt files own (Some session) with inr vt => vt | inl _ => find_vt files own l end
  end.
(** [operation] is None for _SLEEP_OPERATION_MAX, the wakeup.  The result and
    [*vtnr].  If the sessions cannot be read the list of them is freed without ever
    having been set. *)
Definition nvidia_sleep (uid : Z) (operation : option SleepOperation) (vtnr : Z) : CM (Z * Z) :=
  assert_se (negb (bool_decide (operation = Some SLEEP_SUSPEND_THEN_HIBERNATE))) ;;;
  k <- ask h_fdopen ;;
  if k <? 0 then ret (k, vtnr)
  else
    match operation with
    | None =>
        ignore (write_string_file NVIDIA_PATH "resume") ;;;
        when (0 <? vtnr) (act (ChangeVT vtnr)) ;;; ret (1, vtnr)
    | Some op =>
        files <- ask h_files ;;
        own <- ask h_own_session ;;
        match sd_uid_get_sessions files uid 1 with
        | inl _ => crash
        | inr sessions =>
            let vt := find_vt files own sessions in
            let switch := (0 <? vt) && (vt <? 63) in
            when switch (act (ChangeVT 63)) ;;;
            k <- write_string_file NVIDIA_PATH (if bool_decide (op = SLEEP_SUSPEND) then "suspend" else "hibernate") ;;
            ret (if 0 <=? k then 1 else 0, if switch then vt else 0)
        end
    end.

Fixpoint tools_loop (tools : list string) (r : Z) : CM Z :=
  match tools with
  | [] => ret r
  | tool :: l =>
      k <- ask (λ n, h_tool n tool) ;;
      match k with
      | inl e => tools_loop l e
      | inr k =>
          act (RunTool tool k) ;;;
          if k =? 0 then ret 0 else tools_loop l (if k <? 0 then k else - EPROTO)
      end
  end.
Definition execute_external (sc : SleepConfig) (op : SleepOperation) : CM Z :=
  assert_se (has_config op) ;;;
  tools_loop (if SLEEP_OPERATION_IS_HIBERNATION op then sc_hibernate_by_using sc
              else if bool_decide (op = SLEEP_SUSPEND) then sc_suspend_by_using sc else []) (- ENOENT).

Fixpoint write_state_loop (states : list string) (r : Z) : CM Z :=
  match states with
  | [] => ret r
  | state :: l =>
      w <- write_fd STATE_PATH state ;;
      match w with
      | inl k => ret (ret_gather r k)
      | inr k => if 0 <=? k then ret 0 else write_state_loop l (ret_gather r k)
      end
  end.
Definition write_state (states : list string) : CM Z := write_state_loop states 0.
Fixpoint write_mode_loop (path : string) (modes : list string) (r : Z) : CM Z :=
  match modes with
  | [] => ret r
  | mode :: l =>
      k <- write_string_file path mode ;;
      if 0 <=? k then ret 0 else write_mode_loop path l (ret_gather r k)
  end.
Definition write_mode (path : string) (modes : list string) : CM Z := write_mode_loop path modes 0.

(** The settings of a hibernation; [Some (true, r)] goes to [fail], [Some (false, r)]
    returns. *)
Definition prepare_hibernation (sc : SleepConfig) (op : SleepOperation) : CM (option (bool * Z)) :=
  r <- find_suitable_hibernation_device_full true ;;
  match r with
  | inl r => ret (Some (false, r))
  | inr (resume_set, entry, _) =>
      e <- ask h_set_efi_location ;;
      act (SetEfiLocation e) ;;;
      if negb resume_set && (e <? 0) then ret (Some (false, e))
      else
        r <- (if resume_set : bool then ret 0 else write_resume_config (sw_devno entry) (sw_offset entry)) ;;
        if r <? 0 then ret (Some (true, r))
        else
          r <- write_mode "/sys/power/disk" (sc_modes sc op) ;;
          ret (if r <? 0 then Some (true, r) else None)
  end.
Definition execute_fail (op : SleepOperation) (r : Z) : CM Z :=
  when (SLEEP_OPERATION_IS_HIBERNATION op) (act ClearEfiLocation) ;;; ret r.

(** Whether the hooks, that must succeed, did not. *)
Definition run_hooks (phase : string) (must_succeed : bool) : CM bool :=
  arg <- gets ch_arg_operation ;;
  h <- ask h_hooks ;;
  let vetoed := must_succeed && (negb (fst h =? 0) || snd h) in
  act (RunHooks phase (operation_to_string arg) (fst h) (snd h)) ;;; ret vetoed.
(** From the announcement of the sleep to the hooks after it. *)
Definition fall_asleep (sc : SleepConfig) (op : SleepOperation) : CM Z :=
  act (PrepareForSleep true) ;;;
  nv <- (if sc_handle_nvidia_sleep sc then nvidia_sleep (sc_manager_uid sc) (Some op) 0 else ret (0, 0)) ;;
  r <- execute_external sc op ;;
  r <- (if r <? 0 then write_state (sc_states sc op) else ret r) ;;
  when (negb (fst nv =? 0)) (ignore (nvidia_sleep (sc_manager_uid sc) None (snd nv))) ;;;
  act (PrepareForSleep false) ;;;
  ignore (run_hooks "post" false) ;;;
  if 0 <=? r then ret 0 else execute_fail op r.
Definition execute_prepared (sc : SleepConfig) (op : SleepOperation) (action : option string) : CM Z :=
  act (SetSleepAction (default (default "" (to_string op)) action)) ;;;
  vetoed <- run_hooks "pre" (sc_allow_suspend_interrupts sc) ;;
  if vetoed : bool then
    act (CancelSleep (to_string op) (sc_broadcast_suspend_interrupts sc)) ;;; ret (- ECANCELED)
  else fall_asleep sc op.
Definition execute (sc : SleepConfig) (op : SleepOperation) (action : option string) : CM Z :=
  assert_se (has_config op) ;;;
  if bool_decide (sc_states sc op = []) then ret (- EINVAL)
  else
    state_fd <- ask (λ n, h_open n STATE_PATH) ;;
    if state_fd <? 0 then ret state_fd
    else
      driver_fd <- (if sc_handle_nvidia_sleep sc then ask (λ n, h_open n NVIDIA_PATH) else ret 0) ;;
      if driver_fd <? 0 then ret driver_fd
      else
        r <- (if SLEEP_NEEDS_MEM_SLEEP sc op then write_mode "/sys/power/mem_sleep" (sc_mem_modes sc) else ret 0) ;;
        if r <? 0 then ret r
        else
          stop <- (if SLEEP_OPERATION_IS_HIBERNATION op then prepare_hibernation sc op else ret None) ;;
          match stop with
          | Some (true, r) => execute_fail op r
          | Some (false, r) => ret r
          | None => execute_prepared sc op action
          end.

(** * Suspend, then hibernate *)

Definition check_wakeup_type : CM Z :=
  b <- ask h_dmi ;;
  ret (match b with
       | inl r => r
       | inr buf =>
           if Z.of_nat (length buf) <? 25 then - EINVAL
           else if default 0 (buf !! 1%nat) <? 25 then - EINVAL
           else
             let wakeup_type_byte := default 0 (buf !! 24%nat) in
             if 128 <=? wakeup_type_byte then - EINVAL else if wakeup_type_byte =? 3 then 1 else 0
       end).

Definition DEFAULT_HIBERNATE_DELAY_USEC_NO_BATTERY : Z := 2 * USEC_PER_HOUR.
Definition choose_suspend_interval (sc : SleepConfig) (hibernate_timestamp : Z) (last : gmap string Z) : CM Z :=
  if bool_decide (last = ∅) then
    ret (if timestamp_is_set hibernate_timestamp then sc_hibernate_delay_usec sc
         else DEFAULT_HIBERNATE_DELAY_USEC_NO_BATTERY)
  else
    r <- get_total_suspend_interval last ;;
    ret (match r with inl _ => sc_suspend_estimation_usec sc | inr interval => interval end).
(** HibernateOnACPower=no: the time starts again as long as the machine is plugged in. *)
Definition postpone_hibernation (sc : SleepConfig) (hibernate_timestamp : Z) (last : gmap string Z) : CM Z :=
  if sc_hibernate_on_ac_power sc || bool_decide (last = ∅) then ret hibernate_timestamp
  else
    ac <- ask h_on_ac_power ;;
    if 0 <? ac then n <- ask h_now ;; ret (usec_add n (sc_hibernate_delay_usec sc)) else ret hibernate_timestamp.
(** What follows from the wakeup: return [r], or go on. *)
Definition after_wakeup (timer : nat * Z) (last : gmap string Z) (before_timestamp : Z) : CM (option Z) :=
  r <- ask (λ n, h_wait_for_timer n timer) ;;
  if r <? 0 then ret (Some r)
  else
    let woken_by_timer := Z.testbit r 0 in
    cur <- fetch_batteries_capacity_by_name ;;
    match (match cur with inl _ => None | inr cur => if bool_decide (cur = ∅) then None else Some cur end) with
    | None => ret (Some (if woken_by_timer then 1 else 0))
    | Some current =>
        after_timestamp <- ask h_now ;;
        (if after_timestamp =? before_timestamp then ret tt
         else ignore (estimate_battery_discharge_rate_per_hour last current before_timestamp after_timestamp)) ;;;
        if negb woken_by_timer then ret (Some 0)
        else r <- check_wakeup_type ;; ret (if 0 <? r then Some 1 else None)
    end.
(** [fuel] turns of the loop; None if it goes on after them. *)
Definition finished (c : CM Z) : CM (option Z) := r <- c ;; ret (Some r).
Fixpoint timer_loop (fuel : nat) (sc : SleepConfig) (hibernate_timestamp : Z) : CM (option Z) :=
  match fuel with
  | O => ret None
  | S fuel' =>
      low <- ask h_battery_low ;;
      if negb (low =? 0) then ret (Some 1)
      else
        tfd <- ask h_timerfd_create ;;
        if tfd <? 0 then ret (Some tfd)
        else
          last <- fetch_batteries_capacity_by_name ;;
          match last with
          | inl r => ret (Some r)
          | inr last =>
              interval <- choose_suspend_interval sc hibernate_timestamp last ;;
              hibernate_timestamp <- postpone_hibernation sc hibernate_timestamp last ;;
              before_timestamp <- ask h_now ;;
              let interval := Z.min interval (usec_sub_unsigned hibernate_timestamp before_timestamp) in
              if interval <=? 0 then ret (Some 1)
              else
                set_at <- gets ch_asked ;;
                t <- ask (λ n, h_timerfd_settime n interval) ;;
                if t <? 0 then ret (Some t)
                else
                  act (SetWakeAlarm interval) ;;;
                  r <- execute sc SLEEP_SUSPEND None ;;
                  if r <? 0 then ret (Some r)
                  else
                    o <- after_wakeup (set_at, interval) last before_timestamp ;;
                    match o with Some r => ret (Some r) | None => timer_loop fuel' sc hibernate_timestamp end
          end
  end.
Definition custom_timer_suspend (fuel : nat) (sc : SleepConfig) : CM (option Z) :=
  n <- ask h_now ;; timer_loop fuel sc (usec_add n (sc_hibernate_delay_usec sc)).

Definition hibernate_or_suspend (sc : SleepConfig) : CM Z :=
  r <- execute sc SLEEP_HIBERNATE None ;;
  if r <? 0 then
    r <- execute sc SLEEP_SUSPEND (Some "suspend-after-failed-hibernate") ;; ret (if r <? 0 then r else 0)
  else ret 0.
Definition execute_s2h (fuel : nat) (sc : SleepConfig) : CM (option Z) :=
  alarms <- (if timestamp_is_set (sc_hibernate_delay_usec sc) then ret 0
             else r <- check_wakeup_type ;; if r <? 0 then ret r else battery_trip_point_alarm_exists) ;;
  if 0 <? alarms then
    r <- execute sc SLEEP_SUSPEND None ;;
    if r <? 0 then ret (Some r)
    else
      r <- check_wakeup_type ;;
      if r <? 0 then ret (Some r) else if r =? 0 then ret (Some 0) else finished (hibernate_or_suspend sc)
  else
    o <- custom_timer_suspend fuel sc ;;
    match o with
    | None => ret None
    | Some r => if r <=? 0 then ret (Some r) else finished (hibernate_or_suspend sc)
    end.

Definition do_sleep (fuel : nat) (settings : sleep_settings) (uid : Z) (operation : SleepOperation) : CM (option Z) :=
  modify (λ c, c <| ch_arg_operation := Some operation |>) ;;;
  sc <- deref (parse_sleep_config settings) ;;
  if negb (sc_allow sc operation) then ret (Some (- EACCES))
  else
    let sc := sc <| sc_manager_uid := uid |> in
    match operation with
    | SLEEP_SUSPEND_THEN_HIBERNATE => execute_s2h fuel sc
    | SLEEP_HYBRID_SLEEP =>
        finished
          (r <- execute sc SLEEP_HYBRID_SLEEP None ;;
           if r <? 0 then execute sc SLEEP_SUSPEND (Some "suspend-after-failed-hybrid-sleep") else ret r)
    | SLEEP_SUSPEND | SLEEP_HIBERNATE => finished (execute sc operation None)
    end.
End Sleep.
