(* ===== verification/SleepFacts.v ===== *)
(** What the child does to the machine: it sleeps only between the hooks before and
    after it, announced and recalled; a hook that must succeed holds it back; its
    result says whether the machine slept; and it ends. *)
From stdpp Require Import pretty.
From S2P Require Import Prelude Time LoginTypes ActionTypes LoginState LoginEnv Escape Parse EnvFile Words Bus Objects Wall Startup SdLogin Sleep.
#[local] Open Scope string_scope.
#[local] Open Scope Z_scope.
#[local] Open Scope list_scope.

(** * The order of what is done *)

(** The phases of a sleep, and what may be done in each: files of the power
    management, hooks, announcements.  Where the hooks before it [must] succeed, what
    they say decides how it goes on. *)
Inductive phase := Awake | HooksRun (vetoed : bool) | Announced | Recalled.
Definition puts_to_sleep (path : string) : bool := in_set path [STATE_PATH; NVIDIA_PATH].
Definition next_phase (must : bool) (p : phase) (d : deed) : option phase :=
  match p, d with
  | Awake, WriteFile path _ _ => if puts_to_sleep path then None else Some Awake
  | Awake, (SetEfiLocation _ | ClearEfiLocation | SetSleepAction _ | SetWakeAlarm _ | SaveRate _ _) => Some Awake
  | Awake, RunHooks "pre" _ r failed => Some (HooksRun (must && (negb (r =? 0) || failed)))
  | HooksRun true, CancelSleep _ _ => Some Awake
  | HooksRun false, PrepareForSleep true => Some Announced
  | Announced, WriteFile path _ _ => if puts_to_sleep path then Some Announced else None
  | Announced, (ChangeVT _ | RunTool _ _) => Some Announced
  | Announced, PrepareForSleep false => Some Recalled
  | Recalled, RunHooks "post" _ _ _ => Some Awake
  | _, _ => None
  end.
Fixpoint phase_after (must : bool) (p : phase) (l : list deed) : option phase :=
  match l with [] => Some p | d :: l' => next_phase must p d ≫= λ q, phase_after must q l' end.
Lemma phase_after_app must p l l' : phase_after must p (l ++ l') = phase_after must p l ≫= λ q, phase_after must q l'.
Proof. revert p. induction l as [|d l IH]; intros p; [done|]. cbn. by destruct (next_phase must p d); [apply IH|]. Qed.

(** The machine slept: the kernel was told so, or a tool that does it succeeded. *)
Definition sleeps (d : deed) : bool :=
  match d with
  | WriteFile path _ r => bool_decide (path = STATE_PATH) && (0 <=? r)
  | RunTool _ r => r =? 0
  | _ => false
  end.
Definition slept (l : list deed) : bool := existsb sleeps l.
Lemma slept_app l l' : slept (l ++ l') = slept l || slept l'.
Proof. apply existsb_app. Qed.

(** What is recorded of the hooks is what they said. *)
Definition runs_hooks (d : deed) : bool := match d with RunHooks _ _ _ _ => true | _ => false end.
Definition as_the_hooks_said {Machine : Host} (d : deed) : Prop :=
  match d with RunHooks _ _ r failed => ∃ n, h_hooks n = (r, failed) | _ => True end.
Lemma said_nothing {Machine : Host} d : runs_hooks d = false → as_the_hooks_said d.
Proof. by destruct d. Qed.
Class Interrupts := hooks_must_succeed : bool.

Section Quiet.
Context {Machine : Host} {Must : Interrupts}.
Implicit Types p : phase.

(** [acts p c Q]: what [c] does, if no assertion fails, is allowed from phase [p]; [Q]
    holds of its result, the phase it ends in and whether the machine slept. *)
Definition acts {A} (p : phase) (c : CM A) (Q : A → phase → bool → Prop) : Prop :=
  ∀ s a s', c s = Some (a, s') →
    ∃ l q, ch_deeds s' = ch_deeds s ++ l ∧ (phase_after hooks_must_succeed p l = Some q ∧ Forall as_the_hooks_said l) ∧ Q a q (slept l).

Lemma acts_ret {A} p (a : A) (Q : A → phase → bool → Prop) : Q a p false → acts p (ret a) Q.
Proof. intros HQ s a' s' [= <- <-]. exists [], p. by rewrite app_nil_r. Qed.
Lemma acts_crash {A} p (Q : A → phase → bool → Prop) : acts p crash Q.
Proof. done. Qed.
Lemma acts_bind {A B} p (c : CM A) (k : A → CM B) R Q :
  acts p c R → (∀ a q b, R a q b → acts q (k a) (λ a' q' b', Q a' q' (b || b'))) → acts p (bind c k) Q.
Proof.
  intros Hc Hk s a s' H. unfold bind in H. destruct (c s) as [[x s1]|] eqn:E; [|done].
  destruct (Hc _ _ _ E) as (l&q&Hl&[Hp Hs]&HR). destruct (Hk _ _ _ HR _ _ _ H) as (l'&q'&Hl'&[Hp' Hs']&HQ).
  exists (l ++ l'), q'. rewrite Hl', Hl, app_assoc, phase_after_app, Hp, slept_app, Forall_app. by split_and!.
Qed.
Lemma acts_mono {A} p (c : CM A) (R Q : A → phase → bool → Prop) :
  acts p c R → (∀ a q b, R a q b → Q a q b) → acts p c Q.
Proof. intros Hc H s a s' E. destruct (Hc _ _ _ E) as (l&q&?&[? ?]&HR). exists l, q. split_and!; auto. Qed.
Lemma acts_ask {A} p (f : nat → A) (Q : A → phase → bool → Prop) : (∀ n, Q (f n) p false) → acts p (ask f) Q.
Proof. intros HQ s a s' [= <- <-]. exists [], p. cbn. by rewrite app_nil_r. Qed.
Lemma acts_gets {A} p (f : child → A) (Q : A → phase → bool → Prop) : (∀ a, Q a p false) → acts p (gets f) Q.
Proof. intros HQ s a s' [= <- <-]. exists [], p. by rewrite app_nil_r. Qed.
Lemma acts_act p d q (Q : unit → phase → bool → Prop) :
  next_phase hooks_must_succeed p d = Some q → as_the_hooks_said d → Q tt q (sleeps d) → acts p (act d) Q.
Proof.
  intros Hq Hd HQ s a s' [= <- <-]. exists [d], q. cbn. rewrite Hq. cbn. rewrite orb_false_r, Forall_singleton. by split_and!.
Qed.
Lemma acts_assert p b (Q : unit → phase → bool → Prop) : (b = true → Q tt p false) → acts p (assert_se b) Q.
Proof. intros HQ. destruct b; [by apply acts_ret, HQ|apply acts_crash]. Qed.
Lemma acts_deref {A} p (o : option A) (Q : A → phase → bool → Prop) :
  (∀ a, o = Some a → Q a p false) → acts p (deref o) Q.
Proof. intros HQ. destruct o; [by apply acts_ret, HQ|apply acts_crash]. Qed.

(** What changes nothing about the phase. *)
Definition calm {A} (p : phase) (c : CM A) : Prop := acts p c (λ _ q b, q = p ∧ b = false).
Lemma calm_ret {A} p (a : A) : calm p (ret a).
Proof. by apply acts_ret. Qed.
Lemma calm_bind {A B} p (c : CM A) (k : A → CM B) : calm p c → (∀ a, calm p (k a)) → calm p (bind c k).
Proof.
  intros Hc Hk. eapply acts_bind; [exact Hc|]. intros a q b [-> ->]. eapply acts_mono; [apply Hk|]. by intros ? ? ? [-> ->].
Qed.
Lemma calm_ask {A} p (f : nat → A) : calm p (ask f).
Proof. by apply acts_ask. Qed.
Lemma calm_gets {A} p (f : child → A) : calm p (gets f).
Proof. by apply acts_gets. Qed.
Lemma calm_assert p b : calm p (assert_se b).
Proof. by apply acts_assert. Qed.
Lemma calm_crash {A} p : calm p (crash : CM A).
Proof. apply acts_crash. Qed.
Lemma calm_act p d : next_phase hooks_must_succeed p d = Some p → runs_hooks d = false → sleeps d = false → calm p (act d).
Proof. intros Hp Hd Hs. eapply acts_act; [exact Hp|by apply said_nothing|done]. Qed.
Lemma calm_when p b c : calm p c → calm p (when b c).
Proof. intros Hc. destruct b; [done|apply calm_ret]. Qed.
Lemma calm_ignore {A} p (c : CM A) : calm p c → calm p (ignore c).
Proof. intros Hc. apply calm_bind; [done|]. intros _. apply calm_ret. Qed.
(** After what is calm. *)
Lemma acts_calm_bind {A B} p (c : CM A) (k : A → CM B) Q :
  calm p c → (∀ a, acts p (k a) Q) → acts p (bind c k) Q.
Proof. intros Hc Hk. eapply acts_bind; [exact Hc|]. by intros a q b [-> ->]. Qed.
End Quiet.
Create HintDb calm discriminated.
#[export] Hint Resolve calm_ret calm_ask calm_gets calm_assert calm_crash : calm.
(** Takes a computation apart; what is left are the deeds that are not calm. *)
Ltac solve_calm :=
  repeat first
    [ progress intros
    | solve [eauto with calm nocore]
    | apply calm_bind | apply calm_when | apply calm_ignore
    | apply calm_act; reflexivity
    | match goal with |- calm _ (match ?x with _ => _ end) => destruct x end
    | progress cbv zeta ].

Section Acts.
Context {Machine : Host} {Must : Interrupts}.

Lemma calm_read_resume_config p : calm p read_resume_config.
Proof. unfold read_resume_config. solve_calm. Qed.
Lemma calm_read_swap_entries p : calm p read_swap_entries.
Proof. unfold read_swap_entries. solve_calm. Qed.
Lemma calm_choose_swap p devno offset e l : calm p (choose_swap devno offset e l).
Proof. revert e. induction l as [|s l IH]; intros e; cbn [choose_swap]; solve_calm. Qed.
Hint Resolve calm_read_resume_config calm_read_swap_entries calm_choose_swap : calm.
Lemma calm_find p w : calm p (find_suitable_hibernation_device_full w).
Proof. unfold find_suitable_hibernation_device_full. solve_calm. Qed.
Lemma calm_write_file p path text :
  next_phase hooks_must_succeed p (WriteFile path text 0) = Some p → path ≠ STATE_PATH → calm p (write_string_file path text).
Proof.
  intros Hp Hne. unfold write_string_file. apply calm_bind; [apply calm_ask|]. intros r.
  apply calm_bind; [|intros _; apply calm_ret]. apply calm_act; [by destruct p|done|]. cbn. by rewrite bool_decide_false.
Qed.
Lemma calm_write_mode path modes r : puts_to_sleep path = false → calm Awake (write_mode_loop path modes r).
Proof.
  intros Hp. revert r. induction modes as [|m l IH]; intros r; cbn [write_mode_loop]; [apply calm_ret|].
  apply calm_bind; [apply calm_write_file; [cbn; by rewrite Hp|by intros ->]|]. intros k. destruct (0 <=? k); [apply calm_ret|apply IH].
Qed.
Lemma calm_write_resume_config devno offset : calm Awake (write_resume_config devno offset).
Proof. unfold write_resume_config. solve_calm; apply calm_write_file; done. Qed.
Hint Resolve calm_find calm_write_resume_config : calm.
Lemma calm_prepare_hibernation sc op : calm Awake (prepare_hibernation sc op).
Proof. unfold prepare_hibernation, write_mode. solve_calm; by apply calm_write_mode. Qed.
Lemma calm_execute_fail op r : calm Awake (execute_fail op r).
Proof. unfold execute_fail. solve_calm. Qed.
Hint Resolve calm_prepare_hibernation calm_execute_fail : calm.
Lemma calm_nvidia_sleep uid op vtnr : calm Announced (nvidia_sleep uid op vtnr).
Proof. unfold nvidia_sleep. solve_calm; apply calm_write_file; done. Qed.
Hint Resolve calm_nvidia_sleep : calm.

Lemma calm_capacities p caps l : calm p (capacities_loop caps l).
Proof. revert caps. induction l as [|b l IH]; intros caps; cbn [capacities_loop]; solve_calm. Qed.
Hint Resolve calm_capacities : calm.
Lemma calm_fetch p : calm p fetch_batteries_capacity_by_name.
Proof. unfold fetch_batteries_capacity_by_name. solve_calm. Qed.
Lemma calm_get_capacity p caps n : calm p (get_capacity_by_name caps n).
Proof. unfold get_capacity_by_name. solve_calm. Qed.
Lemma calm_get_rate p b : calm p (get_battery_discharge_rate b).
Proof. unfold get_battery_discharge_rate. solve_calm. Qed.
Lemma calm_put_rate r h t : calm Awake (put_battery_discharge_rate r h t).
Proof. unfold put_battery_discharge_rate. solve_calm. Qed.
Hint Resolve calm_fetch calm_get_capacity calm_get_rate calm_put_rate : calm.
Lemma calm_estimate_loop c0 c1 t b l : calm Awake (estimate_loop c0 c1 t b l).
Proof. revert b. induction l as [|x l IH]; intros b; cbn [estimate_loop]; solve_calm. Qed.
Lemma calm_interval_loop p c t l : calm p (interval_loop c t l).
Proof. revert t. induction l as [|x l IH]; intros t; cbn [interval_loop]; solve_calm. Qed.
Hint Resolve calm_estimate_loop calm_interval_loop : calm.
Lemma calm_estimate c0 c1 a b : calm Awake (estimate_battery_discharge_rate_per_hour c0 c1 a b).
Proof. unfold estimate_battery_discharge_rate_per_hour. solve_calm. Qed.
Lemma calm_total p c : calm p (get_total_suspend_interval c).
Proof. unfold get_total_suspend_interval. solve_calm. Qed.
Lemma calm_check_wakeup_type p : calm p check_wakeup_type.
Proof. unfold check_wakeup_type. solve_calm. Qed.
Lemma calm_alarm_exists p : calm p battery_trip_point_alarm_exists.
Proof. unfold battery_trip_point_alarm_exists. solve_calm. Qed.
Hint Resolve calm_estimate calm_total calm_check_wakeup_type calm_alarm_exists : calm.
Lemma calm_choose_interval p sc t c : calm p (choose_suspend_interval sc t c).
Proof. unfold choose_suspend_interval. solve_calm. Qed.
Lemma calm_postpone p sc t c : calm p (postpone_hibernation sc t c).
Proof. unfold postpone_hibernation. solve_calm. Qed.
Lemma calm_after_wakeup timer c b : calm Awake (after_wakeup timer c b).
Proof. unfold after_wakeup. solve_calm. Qed.
Hint Resolve calm_choose_interval calm_postpone calm_after_wakeup : calm.

(** ** Results *)

Definition gives {A} (c : CM A) (P : A → Prop) : Prop := ∀ s a s', c s = Some (a, s') → P a.
Lemma gives_bind {A B} (c : CM A) (k : A → CM B) R P : gives c R → (∀ a, R a → gives (k a) P) → gives (bind c k) P.
Proof.
  intros Hc Hk s b s' E. unfold bind in E. destruct (c s) as [[a s1]|] eqn:Ec; [|done].
  by eapply Hk; [eapply Hc|].
Qed.
Lemma gives_any {A B} (c : CM A) (k : A → CM B) P : (∀ a, gives (k a) P) → gives (bind c k) P.
Proof. intros Hk. by eapply gives_bind with (λ _, True). Qed.
Lemma gives_ret {A} (a : A) (P : A → Prop) : P a → gives (ret a) P.
Proof. by intros HP s b s' [= <- <-]. Qed.
Lemma gives_ask {A} (f : nat → A) (P : A → Prop) : (∀ n, P (f n)) → gives (ask f) P.
Proof. by intros HP s b s' [= <- <-]. Qed.
Lemma gives_crash {A} (P : A → Prop) : gives crash P.
Proof. done. Qed.
(** A calm computation, with what is known of its result. *)
Lemma acts_calm_gives {A B} p (c : CM A) (k : A → CM B) P Q :
  calm p c → gives c P → (∀ a, P a → acts p (k a) Q) → acts p (bind c k) Q.
Proof.
  intros Hc Hg Hk. eapply (acts_bind _ _ _ (λ a q b, (q = p ∧ b = false) ∧ P a)).
  - intros s a s' E. destruct (Hc _ _ _ E) as (l&q&?&?&?). exists l, q. split; [done|]. split; [done|]. split; [done|by eapply Hg].
  - intros a q b [[-> ->] Ha]. by apply Hk.
Qed.

(** The errors of the system are errors. *)
Class HostErrors : Prop := {
  err_read : ∀ n p r, h_read_one_line_file n p = inl r → r < 0;
  err_swaps : ∀ n r, h_swaps n = inl r → r < 0;
  err_resume : ∀ n l r, h_resume_config n l = inl r → r < 0;
  err_path : ∀ n d r, h_device_path n d = inl r → r < 0;
  err_tool : ∀ n t r, h_tool n t = inl r → r < 0;
  err_batteries : ∀ n r, h_batteries n = inl r → r < 0;
}.
Context {Err : HostErrors}.
Definition error_of {A} (x : Z + A) : Prop := ∀ r, x = inl r → r < 0.
Lemma error_inr {A} (a : A) : error_of (inr a).
Proof. by intros r. Qed.
Lemma error_inl {A} r : r < 0 → error_of (inl r : Z + A).
Proof. by intros ? ? [= <-]. Qed.

Lemma gives_ask_error {A} (f : nat → Z + A) : (∀ n, error_of (f n)) → gives (ask f) error_of.
Proof. apply gives_ask. Qed.

Lemma safe_atou64_error s : error_of (safe_atou64 s).
Proof.
  intros r H. assert (r = - EINVAL ∨ r = - ERANGE) as [->| ->]; [|done..].
  unfold safe_atou64, safe_atollu_full, strtoul in H. repeat (case_match; simplify_eq); auto.
Qed.
Lemma parse_devnum_error s : error_of (parse_devnum s).
Proof.
  intros r H. assert (r = - EINVAL ∨ r = - ERANGE) as [->| ->]; [|done..]. unfold parse_devnum, safe_atou in H.
  repeat (case_match; simplify_eq); auto;
    match goal with E : safe_atou_full ?t _ _ = _ |- _ => pose proof (safe_atou_full_fits t 0 no_flags) as Hf; rewrite E in Hf; exact Hf end.
Qed.
Lemma read_resume_config_error : gives read_resume_config error_of.
Proof.
  unfold read_resume_config. apply gives_any. intros r. destruct (Z.ltb_spec r 0); [by apply gives_ret, error_inl|].
  destruct (0 <? r); [by apply gives_ret, error_inl|].
  eapply gives_bind; [apply gives_ask_error; intros ? ?; apply err_read|]. intros [r1|str] H1; [by apply gives_ret, error_inl, H1|].
  pose proof (parse_devnum_error str) as H2. destruct (parse_devnum str) as [r2|devno]; [by apply gives_ret, error_inl, H2|].
  eapply gives_bind; [apply gives_ask_error; intros ? ?; apply err_read|]. intros o H3.
  assert (Ho : error_of (match o with inl r => if r =? - ENOENT then inr UINT64_MAX else inl r | inr offset_str => safe_atou64 offset_str end)).
  { destruct o as [r3|str3]; [|apply safe_atou64_error]. destruct (r3 =? - ENOENT); [apply error_inr|by apply error_inl, H3]. }
  destruct (match o with inl _ => _ | inr _ => _ end) as [r3|offset]; [by apply gives_ret, error_inl, Ho|].
  destruct (_ && _ && _); apply gives_ret; [by apply error_inl|apply error_inr].
Qed.
Lemma choose_swap_error devno offset e l : gives (choose_swap devno offset e l) error_of.
Proof.
  revert e. induction l as [|s l IH]; intros e; cbn [choose_swap]; [apply gives_ret, error_inr|].
  eapply gives_bind; [apply gives_ask_error; intros ? ?; apply err_resume|]. intros [r|[d o]] Hr; [by apply gives_ret, error_inl, Hr|].
  cbv zeta. destruct (d =? 0); [apply gives_any; intros _; apply IH|]. destruct (0 <? devno); [|apply IH].
  destruct (is_resume_swap _ _ _); [apply gives_ret, error_inr|apply IH].
Qed.
Lemma find_error w : gives (find_suitable_hibernation_device_full w) error_of.
Proof.
  unfold find_suitable_hibernation_device_full.
  eapply gives_bind; [apply read_resume_config_error|]. intros [r|[devno offset]] Hr; [by apply gives_ret, error_inl, Hr|].
  apply (gives_bind _ _ error_of).
  { unfold read_swap_entries. eapply gives_bind; [apply gives_ask_error; intros ? ?; apply err_swaps|].
    intros [r|l] Hs; apply gives_ret; [by apply error_inl, Hs|apply error_inr]. }
  intros [r|l] Hl; [by apply gives_ret, error_inl, Hl|]. destruct l as [|x l]; [by apply gives_ret, error_inl|].
  eapply gives_bind; [apply choose_swap_error|]. intros [r|[e|]] He; [by apply gives_ret, error_inl, He| |].
  - apply (gives_bind _ _ error_of).
    + destruct (w && _); [apply gives_ask_error; intros ? ?; apply err_path|apply gives_ret, error_inr].
    + intros [r|path] Hp; apply gives_ret; [by apply error_inl, Hp|apply error_inr].
  - apply gives_any. intros _. by apply gives_ret, error_inl.
Qed.
Lemma fetch_error : gives fetch_batteries_capacity_by_name error_of.
Proof.
  unfold fetch_batteries_capacity_by_name. eapply gives_bind; [apply gives_ask_error; intros ? ?; apply err_batteries|].
  intros [r|l] Hr; [by apply gives_ret, error_inl, Hr|]. clear Hr. generalize (∅ : gmap string Z) as caps.
  induction l as [|b l IH]; intros caps; cbn [capacities_loop]; [apply gives_ret, error_inr|]. cbv zeta.
  destruct (_ <? 0); [apply IH|]. destruct (b_name b) as [|name]; [apply IH|]. apply gives_any. intros _.
  destruct (caps !! name) as [c|]; [|apply IH]. destruct (c =? _); [apply IH|by apply gives_ret, error_inl].
Qed.
Lemma prepare_hibernation_error sc op :
  gives (prepare_hibernation sc op) (λ o, ∀ b r, o = Some (b, r) → r < 0).
Proof.
  unfold prepare_hibernation. eapply gives_bind; [apply find_error|]. intros [r|[[set entry] path]] Hr.
  { apply gives_ret. intros ? ? [= <- <-]. by apply Hr. }
  apply gives_any. intros e. apply gives_any. intros _. destruct set; cbn [negb andb].
  - apply gives_any. intros r. destruct (Z.ltb_spec r 0); [by apply gives_ret; intros ? ? [= <- <-]|].
    apply gives_any. intros r'. destruct (Z.ltb_spec r' 0); apply gives_ret; [by intros ? ? [= <- <-]|done].
  - destruct (Z.ltb_spec e 0); [by apply gives_ret; intros ? ? [= <- <-]|].
    apply gives_any. intros r. destruct (Z.ltb_spec r 0); [by apply gives_ret; intros ? ? [= <- <-]|].
    apply gives_any. intros r'. destruct (Z.ltb_spec r' 0); apply gives_ret; [by intros ? ? [= <- <-]|done].
Qed.

(** ** One sleep *)

(** The result says whether the machine slept. *)
Definition told (p : phase) (r : Z) (q : phase) (b : bool) : Prop := q = p ∧ (0 ≤ r ↔ b = true).
Lemma told_error p r : r < 0 → told p r p false.
Proof. intros Hr. split; [done|]. split; [lia|done]. Qed.
Lemma told_done p r : 0 ≤ r → told p r p true.
Proof. by split. Qed.
Hint Resolve told_error told_done : core.

Lemma acts_write_string_file path text :
  puts_to_sleep path = true →
  acts Announced (write_string_file path text)
    (λ r q b, q = Announced ∧ b = (bool_decide (path = STATE_PATH) && (0 <=? r))).
Proof.
  intros Hp. unfold write_string_file. apply acts_calm_bind; [apply calm_ask|]. intros r.
  eapply acts_bind; [apply (acts_act _ _ Announced (λ _ q b, q = Announced ∧ b = sleeps (WriteFile path text r)))|].
  - cbn. by rewrite Hp.
  - done.
  - done.
  - intros [] q b [-> ->]. apply acts_ret. by rewrite orb_false_r.
Qed.
Lemma acts_tools l r : r < 0 → acts Announced (tools_loop l r) (told Announced).
Proof.
  revert r. induction l as [|t l IH]; intros r Hr; cbn [tools_loop]; [by apply acts_ret, told_error|].
  apply (acts_calm_gives _ _ _ (λ k, ∀ e, k = inl e → e < 0)); [apply calm_ask|apply gives_ask; intros n e; apply err_tool|].
  intros [e|k] Hk; [by apply IH, Hk|]. eapply acts_bind; [apply (acts_act _ _ Announced (λ _ q b, q = Announced ∧ b = (k =? 0))); done|].
  intros [] q b [-> ->]. destruct (Z.eqb_spec k 0); [by apply acts_ret, told_done|].
  apply IH. destruct (Z.ltb_spec k 0); [done|reflexivity].
Qed.
Lemma acts_write_state l r : r ≤ 0 → l ≠ [] ∨ r < 0 → acts Announced (write_state_loop l r) (told Announced).
Proof.
  revert r. induction l as [|s l IH]; intros r Hr Hl; cbn [write_state_loop].
  { destruct Hl as [?|?]; [done|by apply acts_ret, told_error]. }
  assert (Hg : ∀ k, k < 0 → ret_gather r k < 0).
  { intros k Hk. unfold ret_gather. destruct (Z.leb_spec 0 r), (Z.ltb_spec k 0); cbn [andb]; lia. }
  unfold write_fd. eapply acts_bind with (R := λ w q b, q = Announced ∧
    match w with inl k => k < 0 ∧ b = false | inr k => b = (0 <=? k) end).
  - apply acts_calm_bind; [apply calm_ask|]. intros k. destruct (Z.ltb_spec k 0); [by apply acts_ret|].
    eapply acts_bind; [by apply acts_write_string_file|]. intros r' q b [-> ->]. apply acts_ret. by rewrite orb_false_r.
  - intros [k|k] q b [-> Hb]; [destruct Hb as [Hk ->]; apply acts_ret, told_error, Hg, Hk|].
    destruct (Z.leb_spec 0 k); subst b; [by apply acts_ret, told_done|].
    apply IH; [|right]; [|by apply Hg]. pose proof (Hg k ltac:(done)). lia.
Qed.
Lemma acts_execute_external sc op : acts Announced (execute_external sc op) (told Announced).
Proof.
  unfold execute_external. apply acts_calm_bind; [apply calm_assert|]. intros _. by apply acts_tools.
Qed.
Lemma acts_step {B} p d q (k : CM B) Q :
  next_phase hooks_must_succeed p d = Some q → as_the_hooks_said d → sleeps d = false → acts q k Q → acts p (act d ;;; k) Q.
Proof.
  intros Hq Hd Hs Hk. eapply acts_bind; [apply (acts_act _ _ q (λ _ q' b, q' = q ∧ b = false)); done|].
  by intros [] ? ? [-> ->].
Qed.
Lemma acts_execute_fail op r : r < 0 → acts Awake (execute_fail op r) (told Awake).
Proof.
  intros Hr. unfold execute_fail. apply acts_calm_bind; [by apply calm_when, calm_act|]. intros _. by apply acts_ret, told_error.
Qed.
Lemma acts_hooks phase must p q :
  (∀ arg r failed, next_phase hooks_must_succeed p (RunHooks phase arg r failed) = Some (q (must && (negb (r =? 0) || failed)))) →
  acts p (run_hooks phase must) (λ v q' b, q' = q v ∧ b = false).
Proof.
  intros Hq. unfold run_hooks. apply acts_calm_bind; [apply calm_gets|]. intros arg.
  eapply (acts_calm_gives _ _ _ (λ h, ∃ n, h_hooks n = h)); [apply calm_ask|apply gives_ask; by eexists|].
  intros [r failed] Hh. cbv zeta. cbn [fst snd]. by eapply acts_step; [apply Hq|exact Hh|done|apply acts_ret].
Qed.
Lemma acts_fall_asleep sc op : sc_states sc op ≠ [] → acts (HooksRun false) (fall_asleep sc op) (told Awake).
Proof.
  intros Hst. unfold fall_asleep. eapply acts_step; [done..|].
  apply acts_calm_bind; [destruct (sc_handle_nvidia_sleep sc); [apply calm_nvidia_sleep|apply calm_ret]|]. intros nv.
  eapply acts_bind; [apply acts_execute_external|]. intros r q b [-> Hb].
  eapply acts_bind with (R := λ r' q b', q = Announced ∧ (0 ≤ r' ↔ b || b' = true)).
  { destruct (Z.ltb_spec r 0) as [Hr|Hr].
    - eapply acts_mono; [apply acts_write_state; [done|by left]|]. intros r' q b' [-> Hb']. split; [done|].
      destruct b; [|exact Hb']. destruct Hb as [_ Hb]. specialize (Hb eq_refl). lia.
    - apply acts_ret. split; [done|]. by rewrite orb_false_r. }
  intros r' q b' [-> Hb'].
  apply acts_calm_bind; [apply calm_when, calm_ignore, calm_nvidia_sleep|]. intros _.
  eapply acts_step; [done..|].
  eapply acts_bind with (R := λ _ q b, q = Awake ∧ b = false).
  { unfold ignore. eapply acts_bind; [by apply (acts_hooks "post" false Recalled (λ _, Awake))|].
    intros v q b0 [-> ->]. by apply acts_ret. }
  intros [] q b0 [-> ->]. destruct (Z.leb_spec 0 r') as [Hr|Hr].
  - apply acts_ret. split; [done|]. rewrite !orb_false_r. split; [intros _; by apply Hb'|done].
  - eapply acts_mono; [by apply acts_execute_fail|]. intros r1 q1 b1 [-> H1]. split; [done|].
    assert (b || b' = false) as Hf by (destruct (b || b'); [|done]; destruct Hb' as [_ Hx]; specialize (Hx eq_refl); lia).
    destruct b, b'; try discriminate Hf. exact H1.
Qed.
Lemma acts_execute_prepared sc op action :
  sc_allow_suspend_interrupts sc = hooks_must_succeed →
  sc_states sc op ≠ [] → acts Awake (execute_prepared sc op action) (told Awake).
Proof.
  intros Hm Hst. unfold execute_prepared. eapply acts_step; [done..|].
  eapply acts_bind; [apply (acts_hooks "pre" _ Awake HooksRun); by rewrite Hm|]. intros v q b [-> ->].
  destruct v; [|by apply acts_fall_asleep]. eapply acts_step; [done..|]. by apply acts_ret, told_error.
Qed.
Lemma acts_execute sc op action :
  sc_allow_suspend_interrupts sc = hooks_must_succeed → acts Awake (execute sc op action) (told Awake).
Proof.
  intros Hm. unfold execute. apply acts_calm_bind; [apply calm_assert|]. intros _.
  case_bool_decide as Hst; [by apply acts_ret, told_error|].
  apply acts_calm_bind; [apply calm_ask|]. intros fd. destruct (Z.ltb_spec fd 0); [by apply acts_ret, told_error|].
  apply acts_calm_bind; [solve_calm|]. intros fd'. destruct (Z.ltb_spec fd' 0); [by apply acts_ret, told_error|].
  apply acts_calm_bind; [unfold write_mode; solve_calm; by apply calm_write_mode|]. intros r.
  destruct (Z.ltb_spec r 0); [by apply acts_ret, told_error|].
  apply (acts_calm_gives _ _ _ (λ o, ∀ b r, o = Some (b, r) → r < 0)).
  { destruct (SLEEP_OPERATION_IS_HIBERNATION op); [apply calm_prepare_hibernation|apply calm_ret]. }
  { destruct (SLEEP_OPERATION_IS_HIBERNATION op); [apply prepare_hibernation_error|by apply gives_ret]. }
  intros [[[] e]|] He; [by eapply acts_execute_fail, He|by eapply acts_ret, told_error, He|by apply acts_execute_prepared].
Qed.

(** ** All of it *)

(** Where the machine has slept when the result is no error. *)
Definition told_if_well (r : Z) (q : phase) (b : bool) : Prop := q = Awake ∧ (0 ≤ r → b = true).
Lemma well_error r : r < 0 → told_if_well r Awake false.
Proof. intros Hr. split; [done|]. lia. Qed.
Lemma acts_hibernate_or_suspend sc :
  sc_allow_suspend_interrupts sc = hooks_must_succeed → acts Awake (hibernate_or_suspend sc) told_if_well.
Proof.
  intros Hm. unfold hibernate_or_suspend. eapply acts_bind; [by apply acts_execute|]. intros r q b [-> Hb]. destruct (Z.ltb_spec r 0) as [Hr|Hr].
  - eapply acts_bind; [by apply acts_execute|]. intros r' q b' [-> Hb']. apply acts_ret. split; [done|].
    rewrite orb_false_r. destruct (Z.ltb_spec r' 0); [lia|]. intros _. apply orb_true_iff. right. by apply Hb'.
  - apply acts_ret. split; [done|]. intros _. rewrite orb_false_r. by apply Hb.
Qed.
Definition told_at_last (o : option Z) (q : phase) (b : bool) : Prop := q = Awake ∧ ∀ r, o = Some r → 0 ≤ r → b = true.
Lemma acts_finished c : acts Awake c told_if_well → acts Awake (finished c) told_at_last.
Proof.
  intros Hc. unfold finished. eapply acts_bind; [exact Hc|]. intros r q b [-> Hb]. apply acts_ret. split; [done|].
  intros ? [= <-] ?. rewrite orb_false_r. auto.
Qed.
(** With result 0 the user has woken the machine. *)
Definition woken (o : option Z) (q : phase) (b : bool) : Prop := q = Awake ∧ (o = Some 0 → b = true).
Lemma woken_error r : r < 0 → woken (Some r) Awake false.
Proof. intros Hr. split; [done|]. intros [= ->]. lia. Qed.
Lemma acts_timer_loop fuel sc t :
  sc_allow_suspend_interrupts sc = hooks_must_succeed → acts Awake (timer_loop fuel sc t) woken.
Proof.
  intros Hm. revert t. induction fuel as [|fuel IH]; intros t; cbn [timer_loop]; [by apply acts_ret|].
  apply acts_calm_bind; [apply calm_ask|]. intros low. destruct (negb (low =? 0)); [by apply acts_ret|].
  apply acts_calm_bind; [apply calm_ask|]. intros tfd. destruct (Z.ltb_spec tfd 0); [by apply acts_ret, woken_error|].
  eapply acts_calm_gives; [apply calm_fetch|apply fetch_error|]. intros [r|last] Hr; [by apply acts_ret, woken_error, Hr|].
  apply acts_calm_bind; [apply calm_choose_interval|]. intros interval.
  apply acts_calm_bind; [apply calm_postpone|]. intros t'. apply acts_calm_bind; [apply calm_ask|]. intros before. cbv zeta.
  destruct (_ <=? 0); [by apply acts_ret|]. apply acts_calm_bind; [apply calm_gets|]. intros set_at.
  apply acts_calm_bind; [apply calm_ask|]. intros k. destruct (Z.ltb_spec k 0); [by apply acts_ret, woken_error|].
  eapply acts_step; [done..|]. eapply acts_bind; [by apply acts_execute|]. intros r q b [-> Hb].
  destruct (Z.ltb_spec r 0); [apply acts_ret; split; [done|intros [= ->]; lia]|]. assert (b = true) as -> by (by apply Hb).
  apply acts_calm_bind; [apply calm_after_wakeup|]. intros [r'|]; [by apply acts_ret|].
  eapply acts_mono; [apply IH|]. by intros ? ? ? [-> _].
Qed.
Lemma acts_execute_s2h fuel sc :
  sc_allow_suspend_interrupts sc = hooks_must_succeed → acts Awake (execute_s2h fuel sc) told_at_last.
Proof.
  intros Hm. unfold execute_s2h. apply acts_calm_bind; [solve_calm; eauto using calm_check_wakeup_type, calm_alarm_exists with calm|].
  intros alarms. destruct (0 <? alarms).
  - eapply acts_bind; [by apply acts_execute|]. intros r q b [-> Hb]. destruct (Z.ltb_spec r 0) as [Hr|Hr].
    { apply acts_ret. split; [done|]. intros ? [= <-]. lia. }
    assert (b = true) as -> by (by apply Hb).
    apply acts_calm_bind; [apply calm_check_wakeup_type|]. intros k.
    destruct (k <? 0); [by apply acts_ret|]. destruct (k =? 0); [by apply acts_ret|].
    eapply acts_mono; [by apply acts_finished, acts_hibernate_or_suspend|]. by intros ? ? ? [-> _].
  - unfold custom_timer_suspend. eapply acts_bind with (R := woken).
    { apply acts_calm_bind; [apply calm_ask|]. intros n. by apply acts_timer_loop. }
    intros [r|] q b [-> Hb]; [|by apply acts_ret]. destruct (Z.leb_spec r 0) as [Hr|Hr].
    + apply acts_ret. split; [done|]. intros ? [= <-] Hr'. rewrite orb_false_r. apply Hb. f_equal. lia.
    + eapply acts_mono; [by apply acts_finished, acts_hibernate_or_suspend|]. intros o q b' [-> Hb']. split; [done|].
      intros r' -> Hr'. rewrite (Hb' r') by done. apply orb_true_r.
Qed.
(** What is known at the end of one operation or of several. *)
Definition told_of (op : SleepOperation) (o : option Z) (q : phase) (b : bool) : Prop :=
  q = Awake ∧ ∀ r, o = Some r → (0 ≤ r → b = true) ∧ (r < 0 → has_config op = true → b = false).
Lemma acts_one op c : acts Awake c (told Awake) → acts Awake (finished c) (told_of op).
Proof.
  intros Hc. unfold finished. eapply acts_bind; [exact Hc|]. intros r q b [-> Hb]. apply acts_ret. split; [done|].
  intros ? [= <-]. rewrite orb_false_r. split; [apply Hb|]. intros Hr _. destruct b; [|done]. destruct Hb as [_ Hb]. specialize (Hb eq_refl). lia.
Qed.
Lemma acts_hybrid sc action :
  sc_allow_suspend_interrupts sc = hooks_must_succeed →
  acts Awake (r <- execute sc SLEEP_HYBRID_SLEEP None ;; if r <? 0 then execute sc SLEEP_SUSPEND action else ret r) (told Awake).
Proof.
  intros Hm. eapply acts_bind; [by apply acts_execute|]. intros r q b [-> Hb]. destruct (Z.ltb_spec r 0) as [Hr|Hr].
  - assert (b = false) as -> by (destruct b; [|done]; destruct Hb as [_ Hb]; specialize (Hb eq_refl); lia). by apply acts_execute.
  - apply acts_ret. split; [done|]. by rewrite orb_false_r.
Qed.
Lemma acts_do_sleep fuel settings uid op :
  set_allow_suspend_interrupts settings = hooks_must_succeed → acts Awake (do_sleep fuel settings uid op) (told_of op).
Proof.
  intros Hm. unfold do_sleep. eapply acts_bind with (R := λ _ q b, q = Awake ∧ b = false).
  { intros s0 [] s1 [= <-]. exists [], Awake. cbn. by rewrite app_nil_r. }
  intros [] q b [-> ->].
  apply (acts_bind _ _ _ (λ sc q b, sc_allow_suspend_interrupts sc = hooks_must_succeed ∧ q = Awake ∧ b = false)).
  { apply acts_deref. by intros sc [= <-]. }
  intros sc q b (Hsc&->&->). destruct (negb _).
  { apply acts_ret. split; [done|]. by intros ? [= <-]. }
  cbv zeta. destruct op; [by apply acts_one, acts_execute|by apply acts_one, acts_execute|by apply acts_one, acts_hybrid|].
  eapply acts_mono; [by apply acts_execute_s2h|]. intros o q b [-> Hb]. split; [done|]. intros r ->. by split; [apply Hb|].
Qed.
End Acts.

(** C19: the child puts the machine to sleep only in order: hooks before, unless one
    that must succeed (AllowSuspendInterrupts=yes) did not, by their result or their
    callback - then nothing is announced and nothing sleeps, the sleep is cancelled -,
    the announcement, the sleep itself, the end announced, hooks after; what is
    recorded of the hooks is what they said.  Each sleep it starts it brings to its
    end, whatever fails and however often it sleeps on the way to hibernation: the
    loop of suspend-then-hibernate may be stopped after any number of turns, and the
    machine is awake then ([None]: it goes on).  A result [r] that is no error means
    that the machine slept, and with an error one operation of the kernel did not put
    it to sleep.  (The errors of the system are negative; no assertion fails, on
    which see [sleep_ends].) *)
Theorem sleep_follows_protocol {Machine : Host} {Err : HostErrors} fuel settings uid op s o s' :
  do_sleep fuel settings uid op s = Some (o, s') →
  ∃ l, ch_deeds s' = ch_deeds s ++ l ∧ Forall as_the_hooks_said l ∧
    phase_after (set_allow_suspend_interrupts settings) Awake l = Some Awake ∧
    ∀ r, o = Some r → (0 ≤ r → slept l = true) ∧ (r < 0 → has_config op = true → slept l = false).
Proof.
  intros Hrun. destruct (acts_do_sleep (Must := set_allow_suspend_interrupts settings) fuel settings uid op eq_refl _ _ _ Hrun)
    as (l&q&Hl&[Hp Hs]&->&Hb). by exists l.
Qed.

(** * It ends *)

(** [goes n c Q]: asked [n] questions before, [c] ends; [Q] holds of its result and of
    the number of questions then. *)
Definition goes {A} (n : nat) (c : CM A) (Q : A → nat → Prop) : Prop :=
  ∀ s, ch_asked s = n → ∃ a s', c s = Some (a, s') ∧ (n ≤ ch_asked s')%nat ∧ Q a (ch_asked s').
Definition ends {A} (c : CM A) (P : A → Prop) : Prop := ∀ n, goes n c (λ a _, P a).

Lemma goes_ret {A} n (a : A) (Q : A → nat → Prop) : Q a n → goes n (ret a) Q.
Proof. intros HQ s <-. by exists a, s. Qed.
Lemma goes_bind {A B} n (c : CM A) (k : A → CM B) R Q :
  goes n c R → (∀ a m, (n ≤ m)%nat → R a m → goes m (k a) Q) → goes n (bind c k) Q.
Proof.
  intros Hc Hk s Hn. destruct (Hc s Hn) as (a&s1&E&Hle&HR). destruct (Hk a _ Hle HR s1 eq_refl) as (b&s2&E2&Hle2&HQ).
  exists b, s2. unfold bind. rewrite E. split_and!; [done|lia|done].
Qed.
Lemma goes_mono {A} n (c : CM A) (R Q : A → nat → Prop) :
  goes n c R → (∀ a m, (n ≤ m)%nat → R a m → Q a m) → goes n c Q.
Proof. intros Hc HQ s Hn. destruct (Hc s Hn) as (a&s'&E&Hle&HR). exists a, s'. split_and!; auto. Qed.
Lemma goes_ask {A} n (f : nat → A) (Q : A → nat → Prop) : Q (f n) (S n) → goes n (ask f) Q.
Proof. intros HQ s <-. eexists _, _. split; [done|]. cbn. split; [lia|done]. Qed.
Lemma goes_asked n (Q : nat → nat → Prop) : Q n n → goes n (gets ch_asked) Q.
Proof. intros HQ s <-. by eexists _, _. Qed.
Lemma ends_ret {A} (a : A) (P : A → Prop) : P a → ends (ret a) P.
Proof. intros HP n. by apply goes_ret. Qed.
Lemma ends_bind {A B} (c : CM A) (k : A → CM B) R P : ends c R → (∀ a, R a → ends (k a) P) → ends (bind c k) P.
Proof. intros Hc Hk n. eapply goes_bind; [apply Hc|]. intros a m _ HR. by apply Hk. Qed.
Lemma ends_mono {A} (c : CM A) (R P : A → Prop) : ends c R → (∀ a, R a → P a) → ends c P.
Proof. intros Hc HP n. eapply goes_mono; [apply Hc|]. auto. Qed.
Lemma ends_ask {A} (f : nat → A) (P : A → Prop) : (∀ n, P (f n)) → ends (ask f) P.
Proof. intros HP n. apply goes_ask, HP. Qed.
Lemma ends_gets {A} (f : child → A) (P : A → Prop) : (∀ a, P a) → ends (gets f) P.
Proof. intros HP n s <-. by eexists _, _. Qed.
Lemma ends_act d (P : unit → Prop) : P tt → ends (act d) P.
Proof. intros HP n s <-. by eexists _, _. Qed.
Lemma ends_assert b (P : unit → Prop) : b = true → P tt → ends (assert_se b) P.
Proof. intros ->. apply ends_ret. Qed.
Definition always {A} (c : CM A) : Prop := ends c (λ _, True).
Lemma always_bind {A B} (c : CM A) (k : A → CM B) P : always c → (∀ a, ends (k a) P) → ends (bind c k) P.
Proof. intros Hc Hk. by eapply ends_bind. Qed.
Lemma always_when b c : always c → always (when b c).
Proof. intros Hc. destruct b; [done|by apply ends_ret]. Qed.
Lemma always_ignore {A} (c : CM A) : always c → always (ignore c).
Proof. intros Hc. apply always_bind; [done|]. intros _. by apply ends_ret. Qed.
Lemma always_ask {A} (f : nat → A) : always (ask f).
Proof. by apply ends_ask. Qed.
Lemma always_ret {A} (a : A) : always (ret a).
Proof. by apply ends_ret. Qed.
Lemma always_act d : always (act d).
Proof. by apply ends_act. Qed.
Lemma always_gets {A} (f : child → A) : always (gets f).
Proof. by apply ends_gets. Qed.
Lemma ends_always {A} (c : CM A) P : ends c P → always c.
Proof. intros Hc. by eapply ends_mono. Qed.
Create HintDb ends discriminated.
#[export] Hint Resolve always_ask always_ret always_act always_gets : ends.
Ltac solve_always :=
  repeat first
    [ progress intros
    | solve [eauto with ends nocore]
    | apply always_bind | apply always_when | apply always_ignore
    | match goal with |- ends (match ?x with _ => _ end) (λ _, True) => destruct x end
    | match goal with |- always (match ?x with _ => _ end) => destruct x end
    | progress change (ends ?c (λ _, True)) with (always c)
    | progress cbv zeta ].

(** What can be relied on: a device number is not negative, and a swap partition is on
    a device; errors are negative; the clock does not go back, and a timer goes off no
    earlier than it was set to. *)
Class HostOk {Machine : Host} : Prop := {
  ok_device : ∀ n l d o, h_resume_config n l = inr (d, o) → 0 ≤ d;
  ok_partition : ∀ n l o, h_resume_config n l = inr (0, o) → is_swapfile l = true;
  ok_clock : ∀ n m, (n ≤ m)%nat → 0 ≤ h_now n ≤ h_now m;
  ok_capacity : ∀ n l b r, h_batteries n = inr l → b ∈ l → b_capacity b = inl r → r < 0;
  ok_timer : ∀ a d n, (a < n)%nat → Z.testbit (h_wait_for_timer n (a, d)) 0 = true →
    ∀ i j, (i ≤ a)%nat → (n ≤ j)%nat → h_now i + d ≤ h_now j;
}.
(** A swap is on a block device, as a swap file of some file systems is not; and where
    there is swap that could be used, one is. *)
Definition on_block_device {Machine : Host} (l : swap_line) : Prop := ∀ n d o, h_resume_config n l = inr (d, o) → 0 < d.
Definition swap_on_a_device {Machine : Host} : Prop :=
  ∀ n lines, h_swaps n = inr lines → Exists (λ l, swap_usable l = true) lines →
    Exists (λ l, swap_usable l = true ∧ on_block_device l) lines.
(** The sessions of a user can be read. *)
Definition sessions_readable {Machine : Host} (uid : Z) : Prop := ∀ n, ∃ l, sd_uid_get_sessions (h_files n) uid 1 = inr l.
(** A configuration that was made for the user, whose sessions can be read if they are. *)
Definition usable_for {Machine : Host} (uid : Z) (sc : SleepConfig) : Prop :=
  sc_manager_uid sc = uid ∧ (sc_handle_nvidia_sleep sc = true → sessions_readable uid).

Section Ends.
Context {Machine : Host} {uid : Z} {Ok : HostOk} (Backed : swap_on_a_device).

Lemma ends_read_resume_config : always read_resume_config.
Proof. unfold read_resume_config. solve_always. Qed.
Definition on_device (e : swap_entry) : Prop := 0 < sw_devno e.
Lemma ends_choose_swap devno offset e l :
  (∀ x, e = Some x → on_device x) →
  ends (choose_swap devno offset e l)
    (λ r, ∀ o, r = inr o → match o with Some x => on_device x | None => 0 < devno ∨ (e = None ∧ ¬ Exists on_block_device l) end).
Proof.
  revert e. induction l as [|s l IH]; intros e He; cbn [choose_swap].
  { apply ends_ret. intros o [= <-]. destruct e; [by apply He|right]. split; [done|]. by intros ?%Exists_nil. }
  apply (ends_bind _ _ (λ r, ∀ d o, r = inr (d, o) → 0 ≤ d ∧ (d = 0 → is_swapfile s = true ∧ ¬ on_block_device s))).
  { apply ends_ask. intros n d o Hr. split; [by eapply ok_device|]. intros ->. split; [by eapply ok_partition|].
    intros Hb. specialize (Hb _ _ _ Hr). lia. }
  intros [r|[d o]] Hd; [by apply ends_ret|]. destruct (Hd _ _ eq_refl) as [H0 Hz]. cbv zeta.
  destruct (Z.eqb_spec d 0) as [Hd0|Hd0].
  { destruct (Hz Hd0) as [Hf Hn]. eapply ends_bind; [by apply (ends_assert _ (λ _, True))|]. intros _ _.
    eapply ends_mono; [by apply IH|]. intros r Hr o0 ->. specialize (Hr _ eq_refl). destruct o0; [done|].
    destruct Hr as [?|[-> Hl]]; [by left|right]. split; [done|]. rewrite Exists_cons. tauto. }
  destruct (Z.ltb_spec 0 devno) as [Hdev|Hdev].
  - destruct (is_resume_swap _ _ _); [apply ends_ret; intros ? [= <-]; unfold on_device; cbn; lia|].
    eapply ends_mono; [by apply IH|]. intros r Hr o0 ->. specialize (Hr _ eq_refl). destruct o0; [done|by left].
  - eapply ends_mono; [apply IH; intros x; destruct (better_swap _ _); [intros [= <-]; unfold on_device; cbn; lia|by apply He]|].
    intros r Hr o0 ->. specialize (Hr _ eq_refl). destruct o0; [done|]. destruct Hr as [?|[Hr _]]; [by left|].
    exfalso. destruct e as [x|]; cbn in Hr; [|done]. by destruct (_ || _).
Qed.
Lemma ends_read_swap_entries :
  ends read_swap_entries (λ r, ∀ l, r = inr l → l ≠ [] → Exists on_block_device l).
Proof.
  unfold read_swap_entries.
  apply (ends_bind _ _ (λ r, ∀ lines, r = inr lines →
    Exists (λ l, swap_usable l = true) lines → Exists (λ l, swap_usable l = true ∧ on_block_device l) lines)).
  { apply ends_ask. intros n lines. apply Backed. }
  intros [r|lines] Hb; apply ends_ret; [done|]. intros l [= <-] Hne. specialize (Hb _ eq_refl).
  rewrite !Exists_exists in *. destruct Hb as (x&Hx&Hu&Hd).
  - destruct (filter _ lines) as [|y l] eqn:E; [done|]. exists y. apply and_comm, (list_elem_of_filter (λ s, swap_usable s = true)).
    rewrite E. apply list_elem_of_here.
  - exists x. by rewrite list_elem_of_filter.
Qed.
Lemma ends_find w :
  ends (find_suitable_hibernation_device_full w) (λ r, ∀ b e p, r = inr (b, e, p) → on_device e).
Proof.
  unfold find_suitable_hibernation_device_full. apply always_bind; [apply ends_read_resume_config|].
  intros [r|[devno offset]]; [by apply ends_ret|]. eapply ends_bind; [apply ends_read_swap_entries|].
  intros [r|l] Hl; [by apply ends_ret|]. destruct l as [|x l]; [by apply ends_ret|]. specialize (Hl _ eq_refl ltac:(done)).
  eapply ends_bind; [by apply ends_choose_swap|]. intros [r|[e|]] Hr; [by apply ends_ret| |].
  - apply always_bind; [solve_always|]. intros [r|p]; apply ends_ret; [done|]. intros ??? [= _ <- _]. by apply (Hr _ eq_refl).
  - destruct (Hr _ eq_refl) as [Hd|[_ ?]]; [|done].
    eapply ends_bind; [apply (ends_assert _ (λ _, True)); [by apply Z.ltb_lt|done]|]. intros _ _. by apply ends_ret.
Qed.
Lemma always_write_string_file path text : always (write_string_file path text).
Proof. unfold write_string_file. solve_always. Qed.
Hint Resolve always_write_string_file : ends.
Lemma always_write_mode path modes r : always (write_mode_loop path modes r).
Proof. revert r. induction modes as [|m l IH]; intros r; cbn [write_mode_loop]; solve_always. Qed.
Hint Resolve always_write_mode : ends.
Lemma always_write_resume_config d o : 0 < d → always (write_resume_config d o).
Proof.
  intros Hd. unfold write_resume_config. eapply ends_bind; [apply (ends_assert _ (λ _, True)); [by apply Z.ltb_lt|done]|].
  intros _ _. change (always (r <- write_string_file "/sys/power/resume_offset" (pretty o) ;;
    if (r =? - ENOENT) && negb (o =? 0) then ret (- EOPNOTSUPP) else if (r <? 0) && negb (r =? - ENOENT) then ret r
    else r <- write_string_file "/sys/power/resume" (format_devnum d) ;; ret (if r <? 0 then r else 0))). solve_always.
Qed.
Lemma always_prepare_hibernation sc op : always (prepare_hibernation sc op).
Proof.
  unfold prepare_hibernation. eapply ends_bind; [apply ends_find|]. intros [r|[[set e] p]] He; [apply always_ret|].
  specialize (He _ _ _ eq_refl). pose proof (always_write_resume_config _ (sw_offset e) He). unfold write_mode. solve_always.
Qed.
Lemma always_nvidia_sleep op vtnr :
  op ≠ Some SLEEP_SUSPEND_THEN_HIBERNATE → sessions_readable uid → always (nvidia_sleep uid op vtnr).
Proof.
  intros Hop Hread. unfold nvidia_sleep. eapply ends_bind; [apply (ends_assert _ (λ _, True)); [by rewrite bool_decide_false|done]|].
  intros _ _. apply always_bind; [apply always_ask|]. intros k. destruct (k <? 0); [apply always_ret|].
  destruct op as [op|]; [|solve_always]. apply (ends_bind _ _ (λ f, ∃ l, sd_uid_get_sessions f uid 1 = inr l)).
  { apply ends_ask, Hread. }
  intros f [l Hl]. apply always_bind; [apply always_ask|]. intros own. rewrite Hl. solve_always.
Qed.
Lemma always_tools l r : always (tools_loop l r).
Proof. revert r. induction l as [|t l IH]; intros r; cbn [tools_loop]; solve_always. Qed.
Lemma always_write_state l r : always (write_state_loop l r).
Proof. revert r. induction l as [|s l IH]; intros r; cbn [write_state_loop]; unfold write_fd; solve_always. Qed.
Hint Resolve always_tools always_write_state always_prepare_hibernation : ends.
Lemma always_hooks p m : always (run_hooks p m).
Proof. unfold run_hooks. solve_always. Qed.
Hint Resolve always_hooks : ends.
Lemma always_fall_asleep sc op : has_config op = true → usable_for uid sc → always (fall_asleep sc op).
Proof.
  intros Hop [Hu Hread]. unfold fall_asleep, execute_external, write_state, execute_fail. rewrite Hop, Hu.
  assert (always (assert_se true : CM unit)) by apply always_ret.
  destruct (sc_handle_nvidia_sleep sc); [|solve_always].
  assert (always (nvidia_sleep uid (Some op) 0)) by (apply always_nvidia_sleep; [by intros [= ->]|auto]).
  assert (∀ v, always (nvidia_sleep uid None v)) by (intros v; apply always_nvidia_sleep; [done|auto]). solve_always.
Qed.
Lemma always_execute sc op action : has_config op = true → usable_for uid sc → always (execute sc op action).
Proof.
  intros Hop Hu. unfold execute, execute_prepared, execute_fail, write_mode. rewrite Hop.
  pose proof (always_fall_asleep sc op Hop Hu). assert (always (assert_se true : CM unit)) by apply always_ret. solve_always.
Qed.

(** ** The loop of suspend-then-hibernate *)

Definition caps_ok (caps : gmap string Z) : Prop := ∀ name c, caps !! name = Some c → CAPACITY_valid c = true.
Definition readable (b : battery) : Prop := ∀ r, b_capacity b = inl r → r < 0.
Lemma readable_valid b : readable b → 0 ≤ battery_read_capacity_percentage b →
  CAPACITY_valid (battery_read_capacity_percentage b) = true.
Proof.
  unfold readable, battery_read_capacity_percentage, CAPACITY_valid. intros Hb Hc.
  destruct (b_capacity b) as [r|c]; [specialize (Hb _ eq_refl); lia|].
  destruct ((c <? 0) || (100 <? c)) eqn:E; [unfold ERANGE in Hc; lia|]. apply orb_false_iff in E as [E1 E2]. lia.
Qed.
Lemma ends_capacities caps l :
  caps_ok caps → Forall readable l →
  ends (capacities_loop caps l) (λ r, ∀ caps', r = inr caps' → caps_ok caps' ∧ (l = [] → caps' = caps)).
Proof.
  intros Hcaps Hl. revert caps Hcaps. induction Hl as [|b l Hb Hl IH]; intros caps Hcaps; cbn [capacities_loop].
  { by apply ends_ret; intros ? [= <-]. }
  assert (Hgo : ∀ caps', caps_ok caps' → ends (capacities_loop caps' l)
    (λ r, ∀ caps0, r = inr caps0 → caps_ok caps0 ∧ (b :: l = [] → caps0 = caps))).
  { intros caps' H'. eapply ends_mono; [by apply IH|]. intros r Hr caps0 ->. split; [by eapply Hr|done]. }
  cbv zeta. destruct (Z.ltb_spec (battery_read_capacity_percentage b) 0) as [|Hc]; [by apply Hgo|].
  destruct (b_name b) as [|name]; [by apply Hgo|]. pose proof (readable_valid b Hb Hc) as Hv.
  eapply ends_bind; [by apply (ends_assert _ (λ _, True))|]. intros _ _. destruct (caps !! name) as [c'|] eqn:E.
  - destruct (c' =? _); [by apply Hgo|by apply ends_ret].
  - apply Hgo. intros n c. rewrite lookup_insert_Some. intros [[<- <-]|[_ ?]]; [done|by eapply Hcaps].
Qed.
Definition no_battery : Prop := ∀ n, h_batteries n = inr [].
Lemma ends_fetch :
  ends fetch_batteries_capacity_by_name (λ r, ∀ caps, r = inr caps → caps_ok caps ∧ (no_battery → caps = ∅)).
Proof.
  unfold fetch_batteries_capacity_by_name.
  apply (ends_bind _ _ (λ r, ∀ l, r = inr l → Forall readable l ∧ (no_battery → l = []))).
  - apply ends_ask. intros n l Hl. split; [|intros Hno; rewrite Hno in Hl; by injection Hl].
    apply Forall_forall. intros b Hb r. by apply (ok_capacity n l b r).
  - intros [r|l] Hl; [by apply ends_ret|]. destruct (Hl _ eq_refl) as [Hr Hno].
    eapply ends_mono; [apply ends_capacities; [intros ? ?; by rewrite lookup_empty|exact Hr]|].
    intros x Hx caps ->. destruct (Hx _ eq_refl) as [Hok He]. split; [done|]. intros H. by apply He, Hno.
Qed.
Lemma always_get_capacity caps n : caps_ok caps → always (get_capacity_by_name caps n).
Proof.
  intros Hc. unfold get_capacity_by_name. destruct (caps !! n) as [c|] eqn:E; [|apply always_ret].
  apply always_bind; [by eapply ends_assert, I; eapply Hc|]. intros _. apply always_ret.
Qed.
Hint Resolve always_get_capacity : ends.
Lemma always_interval_loop last t l : caps_ok last → always (interval_loop last t l).
Proof.
  intros Hc. revert t. induction l as [|x l IH]; intros t; cbn [interval_loop]; unfold get_battery_discharge_rate; solve_always.
Qed.
Lemma always_estimate_loop c0 c1 e t l : caps_ok c0 → caps_ok c1 → always (estimate_loop c0 c1 e t l).
Proof.
  intros H0 H1. revert t. induction l as [|x l IH]; intros t; cbn [estimate_loop]; unfold put_battery_discharge_rate; solve_always.
Qed.
Lemma always_choose_interval sc t last : caps_ok last → always (choose_suspend_interval sc t last).
Proof.
  intros Hc. unfold choose_suspend_interval, get_total_suspend_interval.
  assert (∀ t l, always (interval_loop last t l)) by (intros; by apply always_interval_loop). solve_always.
Qed.
Lemma always_postpone sc t last : always (postpone_hibernation sc t last).
Proof. unfold postpone_hibernation. solve_always. Qed.
Lemma always_check_wakeup_type : always check_wakeup_type.
Proof. unfold check_wakeup_type. solve_always. Qed.
Lemma always_alarm_exists : always battery_trip_point_alarm_exists.
Proof. unfold battery_trip_point_alarm_exists. solve_always. Qed.
Hint Resolve always_choose_interval always_check_wakeup_type always_alarm_exists : ends.

(** Going on after a wakeup means that the timer went off and there is a battery. *)
Lemma goes_after_wakeup n timer last i :
  caps_ok last → (i ≤ n)%nat →
  goes n (after_wakeup timer last (h_now i))
    (λ o m, o = None → (n < m)%nat ∧ Z.testbit (h_wait_for_timer n timer) 0 = true ∧ ¬ no_battery).
Proof.
  intros Hlast Hi. unfold after_wakeup. eapply goes_bind; [apply (goes_ask _ _ (λ r m, r = h_wait_for_timer n timer ∧ m = S n)); done|].
  intros r m _ [-> ->]. destruct (_ <? 0); [by apply goes_ret|]. cbv zeta.
  eapply goes_bind; [apply ends_fetch|]. intros cur m Hm Hcur.
  destruct cur as [e|cur]; [by apply goes_ret|]. destruct (Hcur _ eq_refl) as [Hok Hno]. case_bool_decide as Hne; [by apply goes_ret|].
  assert (¬ no_battery) by (intros H; by apply Hne, Hno).
  eapply goes_bind; [apply (goes_ask _ _ (λ a m', a = h_now m ∧ m' = S m)); done|]. intros after m' _ [-> ->].
  eapply goes_bind with (R := λ _ _, True).
  { destruct (Z.eqb_spec (h_now m) (h_now i)) as [|Hne']; [by apply goes_ret|]. apply always_ignore.
    unfold estimate_battery_discharge_rate_per_hour. apply always_bind.
    { apply (ends_assert _ (λ _, True)); [|done]. apply Z.ltb_lt. pose proof (ok_clock i m ltac:(lia)). lia. }
    intros []. apply always_bind; [apply always_ask|]. intros [e|l]; [apply always_ret|].
    apply always_bind; [by apply always_estimate_loop|]. intros []. apply always_ret. }
  intros [] m1 Hm1 _. destruct (Z.testbit _ 0) eqn:Eb; cbn [negb]; [|by apply goes_ret].
  eapply goes_bind; [apply always_check_wakeup_type|]. intros k m2 Hm2 _. apply goes_ret.
  intros _. split; [lia|done].
Qed.
Lemma usec_sub_finite t d : t < USEC_INFINITY → usec_sub_unsigned t d = Z.max 0 (t - d).
Proof. intros Ht. unfold usec_sub_unsigned. destruct (Z.eqb_spec t USEC_INFINITY), (Z.ltb_spec t d); lia. Qed.

(** The measure is the time that is left: each round that is woken by the timer has
    slept for a part of it. *)
Lemma goes_timer_loop sc fuel n t :
  usable_for uid sc →
  goes n (timer_loop fuel sc t) (λ o _,
    (no_battery ∧ (0 < fuel)%nat) ∨
    (sc_hibernate_on_ac_power sc = true ∧ t < USEC_INFINITY ∧ t - h_now n < Z.of_nat fuel ∧ (0 < fuel)%nat) → is_Some o).
Proof.
  intros Hu. revert n t. induction fuel as [|fuel IH]; intros n t; cbn [timer_loop]; [apply goes_ret; lia|].
  eapply goes_bind; [apply always_ask|]. intros low n1 H1 _. destruct (negb _); [by apply goes_ret|].
  eapply goes_bind; [apply always_ask|]. intros tfd n2 H2 _. destruct (tfd <? 0); [by apply goes_ret|].
  eapply goes_bind; [apply ends_fetch|]. intros [e|last] n3 H3 Hlast; [by apply goes_ret|].
  destruct (Hlast _ eq_refl) as [Hcaps _].
  eapply goes_bind; [by apply always_choose_interval|]. intros x n4 H4 _.
  eapply goes_bind with (R := λ t' _, sc_hibernate_on_ac_power sc = true → t' = t).
  { destruct (sc_hibernate_on_ac_power sc) eqn:Eac.
    - unfold postpone_hibernation. rewrite Eac. by apply goes_ret.
    - eapply goes_mono; [apply (always_postpone sc t last)|]. done. }
  intros t' n5 H5 Ht'.
  eapply goes_bind; [apply (goes_ask _ _ (λ a m, a = h_now n5 ∧ m = S n5)); done|]. intros before n6 _ [-> ->]. cbv zeta.
  destruct (Z.leb_spec (Z.min x (usec_sub_unsigned t' (h_now n5))) 0) as [|Hpos]; [by apply goes_ret|].
  set (d := Z.min _ _) in *.
  eapply goes_bind; [apply (goes_asked _ (λ a m, a = S n5 ∧ m = S n5)); done|]. intros set_at n6 _ [-> ->].
  eapply goes_bind; [apply (goes_ask _ _ (λ _ m, m = S (S n5))); done|]. intros k n7 _ ->. destruct (k <? 0); [by apply goes_ret|].
  eapply goes_bind; [apply always_act|]. intros [] n8 H8 _.
  eapply goes_bind; [by apply always_execute|]. intros r n9 H9 _. destruct (r <? 0); [by apply goes_ret|].
  eapply goes_bind; [apply goes_after_wakeup; [done|lia]|]. intros [r'|] n10 H10 Hw; [by apply goes_ret|].
  destruct (Hw eq_refl) as (Hlt&Hbit&Hbat). eapply goes_mono; [apply IH|]. intros o m _ Hdone [[? _]|(Hac&Hinf&Hfuel&_)]; [done|].
  apply Hdone. right.
  specialize (Ht' Hac) as ->. split_and!; [done..| |].
  - pose proof (ok_timer (S n5) d n9 ltac:(lia) Hbit n5 n10 ltac:(lia) ltac:(lia)).
    pose proof (ok_clock n n5 ltac:(lia)). lia.
  - unfold d in Hpos. rewrite usec_sub_finite in Hpos by done. pose proof (ok_clock n n5 ltac:(lia)). lia.
Qed.

(** ** The results *)

Lemma parse_sleep_config_modes settings :
  ∃ sc, parse_sleep_config settings = Some sc ∧ sc_modes sc SLEEP_SUSPEND = [] ∧
    sc_hibernate_delay_usec sc = set_hibernate_delay_usec settings ∧
    sc_hibernate_on_ac_power sc = set_hibernate_on_ac_power settings ∧
    sc_handle_nvidia_sleep sc = set_handle_nvidia_sleep settings.
Proof. eexists. split; [reflexivity|done]. Qed.
Lemma always_hibernate_or_suspend sc : usable_for uid sc → always (hibernate_or_suspend sc).
Proof.
  intros Hu. unfold hibernate_or_suspend. assert (∀ a, always (execute sc SLEEP_HIBERNATE a)) by (intros; by apply always_execute).
  assert (∀ a, always (execute sc SLEEP_SUSPEND a)) by (intros; by apply always_execute). solve_always.
Qed.
(** When the loop of suspend-then-hibernate has ended after [fuel] turns. *)
Definition turns_enough (fuel : nat) (on_ac_power : bool) (delay : Z) : Prop :=
  (no_battery ∧ (0 < fuel)%nat) ∨
  (on_ac_power = true ∧ (0 < fuel)%nat ∧ 0 ≤ delay < Z.of_nat fuel ∧ ∀ n, h_now n + delay < USEC_INFINITY).
Lemma ends_custom_timer_suspend sc fuel :
  usable_for uid sc →
  ends (custom_timer_suspend fuel sc)
    (λ o, turns_enough fuel (sc_hibernate_on_ac_power sc) (sc_hibernate_delay_usec sc) → is_Some o).
Proof.
  intros Hu n. unfold custom_timer_suspend.
  eapply goes_bind; [apply (goes_ask _ _ (λ a m, a = h_now n ∧ m = S n)); done|]. intros now m _ [-> ->].
  eapply goes_mono; [by apply goes_timer_loop|]. intros o m _ Ho [?|(Hac&Hfuel&Hd&Hinf)]; apply Ho; [by left|]. right.
  specialize (Hinf n). pose proof (ok_clock n (S n) ltac:(lia)).
  assert (usec_add (h_now n) (sc_hibernate_delay_usec sc) = h_now n + sc_hibernate_delay_usec sc) as ->.
  { unfold usec_add, saturate_add. destruct (Z.ltb_spec USEC_INFINITY (h_now n)); [lia|].
    destruct (Z.leb_spec (USEC_INFINITY - h_now n) (sc_hibernate_delay_usec sc)); [lia|done]. }
  split_and!; [done..|lia|done].
Qed.
Lemma ends_finished c (P : option Z → Prop) : always c → (∀ r, P (Some r)) → ends (finished c) P.
Proof. intros Hc HP. apply always_bind; [done|]. intros r. by apply ends_ret. Qed.
Lemma ends_execute_s2h sc fuel :
  usable_for uid sc →
  ends (execute_s2h fuel sc)
    (λ o, turns_enough fuel (sc_hibernate_on_ac_power sc) (sc_hibernate_delay_usec sc) → is_Some o).
Proof.
  intros Hu. unfold execute_s2h. pose proof (always_hibernate_or_suspend sc Hu).
  apply always_bind; [solve_always|]. intros alarms. destruct (0 <? alarms).
  - apply always_bind; [by apply always_execute|]. intros r. destruct (r <? 0); [by apply ends_ret|].
    apply always_bind; [apply always_check_wakeup_type|]. intros k.
    destruct (k <? 0); [by apply ends_ret|]. destruct (k =? 0); [by apply ends_ret|]. by apply ends_finished.
  - eapply ends_bind; [by apply ends_custom_timer_suspend|]. intros [r|] Ho.
    + destruct (r <=? 0); [by apply ends_ret|by apply ends_finished].
    + by apply ends_ret.
Qed.
Lemma ends_do_sleep fuel settings op :
  (set_handle_nvidia_sleep settings = true → sessions_readable uid) →
  ends (do_sleep fuel settings uid op)
    (λ o, (op = SLEEP_SUSPEND_THEN_HIBERNATE →
           turns_enough fuel (set_hibernate_on_ac_power settings) (set_hibernate_delay_usec settings)) → is_Some o).
Proof.
  intros Hread. destruct (parse_sleep_config_modes settings) as (sc&Hsc&_&Hd&Hac&Hnv). rewrite <- Hd, <- Hac. rewrite <- Hnv in Hread.
  unfold do_sleep. apply always_bind; [intros n s0 <-; by eexists _, _|]. intros []. rewrite Hsc.
  apply (ends_bind _ _ (λ x, x = sc)); [by apply ends_ret|]. intros ? ->. destruct (negb _); [by apply ends_ret|]. cbv zeta.
  assert (Hu : usable_for uid (sc <| sc_manager_uid := uid |>)) by done.
  assert (Hx : ∀ o a, has_config o = true → always (execute (sc <| sc_manager_uid := uid |>) o a)) by (intros; by apply always_execute).
  destruct op; [by apply ends_finished; [apply Hx|]|by apply ends_finished; [apply Hx|]| |].
  - apply ends_finished; [|done]. apply always_bind; [by apply Hx|]. intros r. destruct (r <? 0); [by apply Hx|apply always_ret].
  - eapply ends_mono; [by apply ends_execute_s2h|]. intros o Ho Ht. by apply Ho, Ht.
Qed.

(** An answer about the support of an operation. *)
Definition fit_answer (x : Z * option SleepSupport) : Prop :=
  (fst x < 0 ∧ snd x = None) ∨ (fst x = 0 ∧ ∃ why, snd x = Some why ∧ why ≠ SLEEP_SUPPORTED) ∨
  (fst x = 1 ∧ snd x = Some SLEEP_SUPPORTED).
Lemma fit_no_support why : why ≠ SLEEP_SUPPORTED → fit_answer (0, Some why).
Proof. intros Hw. right. left. split; [done|]. by exists why. Qed.
Lemma ends_no_support why (P : Z * option SleepSupport → Prop) : P (0, Some why) → ends (no_support why) P.
Proof. apply ends_ret. Qed.
Lemma always_supported_mode path modes : always (sleep_mode_supported path modes).
Proof. unfold sleep_mode_supported. solve_always. Qed.
Lemma always_supported_state states : always (sleep_state_supported states).
Proof. unfold sleep_state_supported. solve_always. Qed.
Lemma always_hibernation_is_safe : always hibernation_is_safe.
Proof.
  unfold hibernation_is_safe. apply always_bind; [apply always_ask|]. intros b.
  apply always_bind; [eapply ends_always, ends_find|]. intros [r|[[set e] p]]; [apply always_ret|].
  unfold get_proc_meminfo_active. solve_always.
Qed.
Hint Resolve always_supported_mode always_supported_state always_hibernation_is_safe : ends.
Definition answers (c : CM (Z * option SleepSupport)) (P : Prop) : Prop :=
  ends c (λ x, fit_answer x ∧ (0 < fst x → P)).
Lemma answers_no_support why P : why ≠ SLEEP_SUPPORTED → answers (no_support why) P.
Proof. intros Hw. apply ends_ret. split; [by apply fit_no_support|]. cbn. lia. Qed.
Lemma answers_error r P : r < 0 → answers (support_error r) P.
Proof. intros Hr. apply ends_ret. split; [by left|]. cbn. lia. Qed.
Lemma answers_supported (P : Prop) : P → answers (ret (1, Some SLEEP_SUPPORTED)) P.
Proof. intros HP. apply ends_ret. split; [by right; right|done]. Qed.
Hint Resolve answers_no_support answers_error answers_supported : core.
Lemma answers_of_supported k none rest P :
  always k → answers none P → answers rest P → answers (of_supported k none rest) P.
Proof.
  intros Hk Hn Hr. unfold of_supported. apply always_bind; [done|]. intros r.
  destruct (Z.ltb_spec r 0); [by apply answers_error|]. by destruct (r =? 0).
Qed.
Lemma answers_operation sc op :
  sc_modes sc SLEEP_SUSPEND = [] → has_config op = true → answers (operation_supported sc op) (sc_states sc op ≠ []).
Proof.
  intros Hmodes Hop. unfold operation_supported.
  apply (ends_bind _ _ (λ r, r ≠ - ENOMSG → sc_states sc op ≠ [])).
  { unfold sleep_state_supported. case_bool_decide; [by apply ends_ret|]. eapply ends_mono; [|intros ? _ _; done].
    instantiate (1 := λ _, True). solve_always. }
  intros r Hst. destruct (Z.eqb_spec r (- ENOMSG)); [by apply answers_no_support|]. specialize (Hst ltac:(done)).
  destruct (Z.ltb_spec r 0); [by apply answers_error|]. destruct (r =? 0); [by apply answers_no_support|].
  apply answers_of_supported; [solve_always|by apply answers_no_support|]. destruct (SLEEP_OPERATION_IS_HIBERNATION op) eqn:Eh.
  - apply answers_of_supported; [solve_always|by apply answers_no_support|].
    apply always_bind; [apply always_hibernation_is_safe|]. intros k.
    do 4 (destruct (_ =? _); [by apply answers_no_support|]). destruct (Z.ltb_spec k 0); [by apply answers_error|by apply answers_supported].
  - assert (op = SLEEP_SUSPEND) as -> by (by destruct op).
    eapply ends_bind; [apply (ends_assert _ (λ _, True)); [by apply bool_decide_eq_true|done]|]. intros _ _. by apply answers_supported.
Qed.
(** The operations that an operation is made of. *)
Definition parts (op : SleepOperation) : list SleepOperation :=
  if has_config op then [op] else [SLEEP_SUSPEND; SLEEP_HIBERNATE].

Lemma ends_sleep_supported settings sc op :
  parse_sleep_config settings = Some sc → sc_modes sc SLEEP_SUSPEND = [] →
  ends (sleep_supported_full settings op) (λ x, fit_answer x ∧
    (sc_allow sc op = false → snd x = Some SLEEP_DISABLED) ∧
    (0 < fst x → sc_allow sc op = true ∧ ∀ o, o ∈ parts op → sc_states sc o ≠ [])).
Proof.
  intros Hsc Hmodes.
  unfold sleep_supported_full. rewrite Hsc. apply (ends_bind _ _ (λ x, x = sc)); [by apply ends_ret|]. intros ? ->.
  assert (Hx : ends (sleep_supported_internal sc op true) (λ x, fit_answer x ∧
    (sc_allow sc op = false → snd x = Some SLEEP_DISABLED) ∧
    (0 < fst x → sc_allow sc op = true ∧ ∀ o, o ∈ parts op → sc_states sc o ≠ []))).
  { unfold sleep_supported_internal. destruct (sc_allow sc op); cbn [negb andb].
    2: { apply ends_ret. split; [by apply fit_no_support|]. split; [done|]. cbn. lia. }
    assert (Hall : ∀ c, answers c (∀ o, o ∈ parts op → sc_states sc o ≠ []) →
      ends c (λ x, fit_answer x ∧ (true = false → snd x = Some SLEEP_DISABLED) ∧
        (0 < fst x → true = true ∧ ∀ o, o ∈ parts op → sc_states sc o ≠ []))).
    { intros c Hc. eapply ends_mono; [exact Hc|]. intros x [? H]. split; [done|]. split; [done|]. intros Hp. split; [done|by apply H]. }
    apply Hall. case_bool_decide as Hop.
    - subst op. unfold s2h_supported. apply always_bind; [apply always_ask|]. intros ok. destruct ok; cbn [negb]; [|by apply answers_no_support].
      eapply ends_bind; [by apply answers_operation|]. intros x [Hx H1]. destruct (Z.leb_spec (fst x) 0); [by apply ends_ret; split; [|lia]|].
      eapply ends_bind; [by apply answers_operation|]. intros y [Hy H2]. destruct (Z.leb_spec (fst y) 0); [by apply ends_ret; split; [|lia]|].
      destruct Hy as [[? _]|[[? _]|[_ Hy]]]; [lia..|]. rewrite Hy.
      eapply ends_bind; [by apply (ends_assert _ (λ _, True))|]. intros _ _. apply answers_supported.
      intros o. change (parts _) with [SLEEP_SUSPEND; SLEEP_HIBERNATE]. rewrite elem_of_cons, list_elem_of_singleton. intros [->| ->]; [by apply H1|by apply H2].
    - assert (Hc : has_config op = true) by (by destruct op). eapply ends_mono; [by apply answers_operation|].
      intros x [Hx H1]. split; [done|]. intros Hp o. unfold parts. rewrite Hc, list_elem_of_singleton. intros ->. by apply H1. }
  eapply ends_bind; [exact Hx|]. intros x (Hf&Hd&Hp). destruct (Z.ltb_spec (fst x) 0); [by apply ends_ret|].
  eapply ends_bind; [apply (ends_assert _ (λ _, True)); [|done]|intros _ _; by apply ends_ret].
  apply bool_decide_eq_true. destruct Hf as [[? _]|[(H0&why&Hw&Hn)|[H1 Hw]]]; [lia|rewrite Hw, H0|rewrite Hw, H1].
  - split; [lia|]. by intros [= ->].
  - by split.
Qed.
End Ends.

(** C20: the child comes to an end, whatever it is told to do and whatever fails: no
    assertion does, and suspend-then-hibernate does not sleep in turns for ever - it
    needs one turn without a battery, and with HibernateDelaySec= set and
    HibernateOnACPower=yes at most one for each microsecond of the delay, as each turn
    that its timer ends has used some of the time.  With HibernateOnACPower=no or
    without the delay, what ends it is the battery or the user: then no more is
    claimed than that no assertion fails in any number of turns.  It is needed that
    of the swaps that could be used one is on a block device, and, with the sleep of
    the graphics driver handled, that the sessions of the user can be read: without,
    the code fails ([unbacked_swap_file_fails], and [nvidia_sleep]). *)
Theorem sleep_ends {Machine : Host} {Ok : HostOk} uid fuel settings op s :
  swap_on_a_device → (set_handle_nvidia_sleep settings = true → sessions_readable uid) →
  ∃ o s', do_sleep fuel settings uid op s = Some (o, s') ∧
    ((op = SLEEP_SUSPEND_THEN_HIBERNATE →
      turns_enough fuel (set_hibernate_on_ac_power settings) (set_hibernate_delay_usec settings)) → ∃ r, o = Some r).
Proof.
  intros Hb Hread. destruct (ends_do_sleep Hb fuel settings op Hread _ s eq_refl) as (o&s'&E&_&Ho). by exists o, s'.
Qed.

(** C21: whatever sleep.conf says, asking whether an operation is supported gives one
    of the answers the callers expect - an error, yes, or no with the reason -, and
    none of the assertions on the way fails, as long as of the swaps that could be
    used one is on a block device (without, one does, as in
    [unbacked_swap_file_fails]); what is not allowed is not supported, and what is
    supported is allowed and, with all that it is made of, has states to sleep in. *)
Theorem sleep_support_is_answered {Machine : Host} {Ok : HostOk} settings op s :
  swap_on_a_device →
  ∃ r why s' sc, sleep_supported_full settings op s = Some ((r, why), s') ∧ parse_sleep_config settings = Some sc ∧
    fit_answer (r, why) ∧ (sc_allow sc op = false → why = Some SLEEP_DISABLED) ∧
    (0 < r → sc_allow sc op = true ∧ ∀ o, o ∈ parts op → sc_states sc o ≠ []).
Proof.
  intros Hb. destruct (parse_sleep_config_modes settings) as (sc&Hsc&Hmodes&_).
  destruct (ends_sleep_supported Hb settings sc op Hsc Hmodes _ s eq_refl) as ([r why]&s'&E&_&?&?&?). by exists r, why, s', sc.
Qed.

(** * A machine to try it on *)

(** A laptop on the mains, without batteries that can be read, that hibernates to
    its second partition; the clock stands still until the machine has slept for
    the first time, at question [wake]. *)
Definition sample_time (wake n : nat) : Z := if (n <? wake)%nat then 1000 else 10 ^ 12.
Definition sample_host (wake : nat) (device : Z) (hooks : Z * bool) (write : string → Z) (files : string → Z + string) : Host := {|
  h_access _ _ := 0;
  h_read_one_line_file _ p :=
    if bool_decide (p = "/sys/power/resume_offset") then inr "0"
    else if bool_decide (p = "/sys/power/resume") then inr (if device =? 0 then "0:0" else "8:2")
    else if bool_decide (p = "/sys/power/mem_sleep") then inr "s2idle [deep]"
    else if bool_decide (p = "/sys/power/disk") then inr "[platform] shutdown reboot suspend test_resume"
    else inr "freeze mem disk";
  h_clock_boottime_alarm _ := true;
  h_noresume _ := 0;
  h_swaps _ := inr [mkSwapLine "/dev/zram0" "partition" 4000000 0 100;
                    if device =? 0 then mkSwapLine "/swapfile" "file" 8000000 0 (-2)
                    else mkSwapLine "/dev/sda2" "partition" 8000000 0 (-2)];
  h_resume_config _ _ := inr (device, 0);
  h_device_path _ _ := inr "/dev/block/8:2";
  h_efi_boot _ := true;
  h_bypass_memory_check _ := false;
  h_meminfo_active _ := inr "7840000";
  h_files _ := files;
  h_own_session _ := inl (- ENXIO);
  h_open _ _ := 3;
  h_fdopen _ := 0;
  h_write _ p _ := write p;
  h_set_efi_location _ := 0;
  h_hooks _ := hooks;
  h_tool _ _ := inr 1;
  h_battery_low _ := 0;
  h_on_ac_power _ := 1;
  h_batteries _ := inr [];
  h_rate_lines _ := inl (- ENOENT);
  h_dmi _ := inl (- ENOENT);
  h_now := sample_time wake;
  h_timerfd_create _ := 5;
  h_timerfd_settime _ _ := 0;
  h_wait_for_timer n t :=
    if (fst t <? wake)%nat && (wake <=? n)%nat && (1000 + snd t <=? 10 ^ 12) then 1 else 0;
|}.
Definition no_files (p : string) : Z + string := inl (- ENOENT).
Definition laptop : Host := sample_host 12 2050 (0, false) (λ _, 0) no_files.
Definition fresh_child : child := mkChild 0 None [].
Definition child_after {A} (c : CM A) (s : child) : child := match c s with Some (_, s') => s' | None => s end.
Definition deeds_of {A} (x : option (A * child)) : option (A * list deed) :=
  match x with Some (a, c) => Some (a, ch_deeds c) | None => None end.

Lemma sample_host_errors wake device hooks write files : @HostErrors (sample_host wake device hooks write files).
Proof.
  constructor; try (intros; discriminate). intros n p r. cbn [h_read_one_line_file sample_host].
  repeat (destruct (bool_decide _); [discriminate|]). discriminate.
Qed.
Lemma sample_host_ok wake device hooks write files : 0 < device → @HostOk (sample_host wake device hooks write files).
Proof.
  intros Hd. constructor.
  - cbn. intros n l d o [= <- _]. lia.
  - cbn. intros n l o [= -> _]. lia.
  - cbn. intros n m Hnm. unfold sample_time. destruct (Nat.ltb_spec n wake), (Nat.ltb_spec m wake); lia.
  - cbn. intros n l b r [= <-] Hb. by apply elem_of_nil in Hb.
  - cbn [h_wait_for_timer h_now sample_host fst snd]. intros a d n Ha Hbit i j Hi Hj. unfold sample_time.
    destruct ((a <? wake)%nat && (wake <=? n)%nat && (1000 + d <=? 10 ^ 12)) eqn:E; [|discriminate Hbit].
    apply andb_prop in E as [[E1 E2]%andb_prop E3]. apply Nat.ltb_lt in E1. apply Nat.leb_le in E2.
    destruct (Nat.ltb_spec i wake), (Nat.ltb_spec j wake); lia.
Qed.
Lemma sample_host_backed wake device hooks write files :
  0 < device → @swap_on_a_device (sample_host wake device hooks write files).
Proof.
  intros Hd n lines. cbn [h_swaps sample_host]. intros [= <-] _. apply Exists_cons_tl, Exists_cons_hd. split.
  - destruct (device =? 0); reflexivity.
  - intros m d o. cbn. intros [= <- _]. done.
Qed.
Lemma no_sessions_readable wake device hooks write uid :
  uid_is_valid uid = true → @sessions_readable (sample_host wake device hooks write no_files) uid.
Proof. intros Hu n. exists []. unfold sd_uid_get_sessions, uid_get_array, and_then_file, file_of_uid. by rewrite Hu. Qed.

(** Two hours asleep, then hibernation. *)
Definition s2h_deeds : list deed :=
  let op := Some "suspend-then-hibernate" in
  [SetWakeAlarm (2 * USEC_PER_HOUR); SetSleepAction "suspend"; RunHooks "pre" op 0 false;
   PrepareForSleep true; WriteFile STATE_PATH "mem" 0; PrepareForSleep false; RunHooks "post" op 0 false;
   SetEfiLocation 0; WriteFile "/sys/power/disk" "platform" 0; SetSleepAction "hibernate"; RunHooks "pre" op 0 false;
   PrepareForSleep true; WriteFile STATE_PATH "disk" 0; PrepareForSleep false; RunHooks "post" op 0 false].
Example laptop_s2h :
  deeds_of (@do_sleep laptop 1 no_settings 1000 SLEEP_SUSPEND_THEN_HIBERNATE fresh_child) = Some (Some 0, s2h_deeds).
Proof. vm_compute. reflexivity. Qed.
Lemma sleep_follows_protocol_witness :
  ∃ s', @do_sleep laptop 1 no_settings 1000 SLEEP_SUSPEND_THEN_HIBERNATE fresh_child = Some (Some 0, s') ∧
    ch_deeds s' = s2h_deeds ∧ phase_after false Awake s2h_deeds = Some Awake ∧ slept s2h_deeds = true.
Proof.
  eexists. split; [vm_compute; reflexivity|].
  destruct (sleep_follows_protocol (Machine := laptop) (Err := sample_host_errors _ _ _ _ _) 1 no_settings 1000
    SLEEP_SUSPEND_THEN_HIBERNATE fresh_child (Some 0)
    (child_after (@do_sleep laptop 1 no_settings 1000 SLEEP_SUSPEND_THEN_HIBERNATE) fresh_child))
    as (l&Hl&_&Hp&Hs); [vm_compute; reflexivity|].
  assert (l = s2h_deeds) as -> by (vm_compute in Hl; subst l; vm_compute; reflexivity).
  split; [vm_compute; reflexivity|]. split; [exact Hp|]. apply (Hs 0); [reflexivity|lia].
Defined.
(** With a delay of ten microseconds. *)
Definition short_delay : sleep_settings :=
  mkSleepSettings (-1) (-1) (-1) (-1) None None None 10 true 0 false true false [] [].
Lemma sleep_ends_witness :
  (∃ o s', @do_sleep laptop 1 no_settings 1000 SLEEP_SUSPEND_THEN_HIBERNATE fresh_child = Some (o, s') ∧ ∃ r, o = Some r) ∧
  ∃ o s', @do_sleep laptop 11 short_delay 1000 SLEEP_SUSPEND_THEN_HIBERNATE fresh_child = Some (o, s') ∧ ∃ r, o = Some r.
Proof.
  assert (Hok : @HostOk laptop) by (apply sample_host_ok; reflexivity).
  assert (Hb : @swap_on_a_device laptop) by (apply sample_host_backed; reflexivity).
  assert (Hr : @sessions_readable laptop 1000) by (apply no_sessions_readable; reflexivity). split.
  - destruct (sleep_ends (Machine := laptop) (Ok := Hok) 1000 1 no_settings SLEEP_SUSPEND_THEN_HIBERNATE fresh_child Hb (λ _, Hr))
      as (o&s'&E&Ho). exists o, s'. split; [exact E|]. apply Ho. intros _. left. split; [by intros n|lia].
  - destruct (sleep_ends (Machine := laptop) (Ok := Hok) 1000 11 short_delay SLEEP_SUSPEND_THEN_HIBERNATE fresh_child Hb (λ _, Hr))
      as (o&s'&E&Ho). exists o, s'. split; [exact E|]. apply Ho. intros _. right. split; [reflexivity|]. split; [lia|].
    split; [cbn; lia|]. intros n. cbn. unfold sample_time. destruct (n <? 12)%nat; reflexivity.
Defined.
Lemma sleep_support_is_answered_witness :
  ∃ r why s' sc, @sleep_supported_full laptop no_settings SLEEP_HYBRID_SLEEP fresh_child = Some ((r, why), s') ∧
    parse_sleep_config no_settings = Some sc ∧ fit_answer (r, why) ∧
    (sc_allow sc SLEEP_HYBRID_SLEEP = false → why = Some SLEEP_DISABLED) ∧
    (0 < r → sc_allow sc SLEEP_HYBRID_SLEEP = true ∧ ∀ o, o ∈ parts SLEEP_HYBRID_SLEEP → sc_states sc o ≠ []).
Proof.
  assert (Hok : @HostOk laptop) by (apply sample_host_ok; reflexivity).
  apply (sleep_support_is_answered (Machine := laptop) (Ok := Hok)). apply sample_host_backed. reflexivity.
Defined.
(** 7.84 of 8 million is the most that 98 percent allow. *)
Example laptop_supports :
  (λ x, x.1) <$> @sleep_supported_full laptop no_settings SLEEP_HYBRID_SLEEP fresh_child = Some (1, Some SLEEP_SUPPORTED) ∧
  enough_swap 7840001 8000000 = false.
Proof. split; vm_compute; reflexivity. Qed.

(** A hook that must succeed and fails: nothing may be announced after it. *)
Example a_veto_stops_the_sleep :
  (λ must, phase_after must Awake [RunHooks "pre" None 1 false; PrepareForSleep true]) <$> [true; false] =
  [None; Some Announced].
Proof. reflexivity. Qed.

(** ** What the model showed *)

(** A hook that must succeed and does not. *)
Definition interruptible : sleep_settings :=
  mkSleepSettings (-1) (-1) (-1) (-1) None None None USEC_INFINITY true 0 true true false [] [].
(** The place to hibernate to stays in the firmware when a hook holds back the
    hibernation; any other failure clears it. *)
Example vetoed_hibernation_keeps_the_location :
  deeds_of (@do_sleep (sample_host 12 2050 (1, false) (λ _, 0) no_files) 1 interruptible 1000 SLEEP_HIBERNATE fresh_child) =
  Some (Some (- ECANCELED), [SetEfiLocation 0; WriteFile "/sys/power/disk" "platform" 0; SetSleepAction "hibernate";
                      RunHooks "pre" (Some "hibernate") 1 false; CancelSleep (Some "hibernate") true]).
Proof. vm_compute. reflexivity. Qed.
(** A hybrid sleep that a hook holds back is tried again as a suspension, and the
    hooks are asked again. *)
Example vetoed_hybrid_sleep_is_tried_again :
  (λ x, filter (λ d, runs_hooks d = true) x.2) <$>
    deeds_of (@do_sleep (sample_host 12 2050 (1, false) (λ _, 0) no_files) 1 interruptible 1000 SLEEP_HYBRID_SLEEP fresh_child) =
  Some [RunHooks "pre" (Some "hybrid-sleep") 1 false; RunHooks "pre" (Some "hybrid-sleep") 1 false].
Proof. vm_compute. reflexivity. Qed.
(** A swap file that is on no block device, and nothing else: an assertion fails, also
    where only the support is asked for. *)
Example unbacked_swap_file_fails :
  @do_sleep (sample_host 12 0 (0, false) (λ _, 0) no_files) 1 no_settings 1000 SLEEP_HIBERNATE fresh_child = None ∧
  @sleep_supported_full (sample_host 12 0 (0, false) (λ _, 0) no_files) no_settings SLEEP_HIBERNATE fresh_child = None.
Proof. split; vm_compute; reflexivity. Qed.
(** When the graphics driver refuses, the screen stays on terminal 63. *)
Definition nvidia_settings : sleep_settings :=
  mkSleepSettings (-1) (-1) (-1) (-1) None None None USEC_INFINITY true 0 false true true [] [].
Definition seated_files (p : string) : Z + string :=
  if bool_decide (p = "/run/systemd/users/1000") then inr "ACTIVE_SESSIONS=c1
"
  else if bool_decide (p = "/run/systemd/sessions/c1") then inr "VTNR=7
"
  else inl (- ENOENT).
Example refused_driver_leaves_the_terminal :
  deeds_of (@do_sleep (sample_host 12 2050 (0, false) (λ p, if bool_decide (p = NVIDIA_PATH) then - EIO else 0) seated_files)
              1 nvidia_settings 1000 SLEEP_SUSPEND fresh_child) =
  Some (Some 0, [SetSleepAction "suspend"; RunHooks "pre" (Some "suspend") 0 false; PrepareForSleep true; ChangeVT 63;
            WriteFile NVIDIA_PATH "suspend" (- EIO); WriteFile STATE_PATH "mem" 0; PrepareForSleep false;
            RunHooks "post" (Some "suspend") 0 false]).
Proof. vm_compute. reflexivity. Qed.
