(* ===== verification/Moves.v ===== *)
(** What operations cannot do, whatever state they start in: no hotplug event
    and no change of the active session gives a session a device. *)
From S2P Require Import Prelude Time LoginTypes ActionTypes LoginState LoginEnv Objects SessionDevice Seat Device.

(** Session [sid] has taken the device number [dev]. *)
Definition taken (m : manager) (sid : string) (dev : Z) : Prop :=
  ∃ s, m_sessions m !! sid = Some s ∧ is_Some (s_devices s !! dev).
(** No session takes a device. *)
Definition no_take (m m' : manager) : Prop :=
  ∀ sid dev, taken m' sid dev → taken m sid dev.
#[export] Instance no_take_preorder : PreOrder no_take.
Proof. split; [by intros ???|]. intros m1 m2 m3 H1 H2 sid dev H. by apply H1, H2. Qed.

Lemma no_take_sessions m m' : m_sessions m' = m_sessions m → no_take m m'.
Proof. unfold no_take, taken. by intros ->. Qed.

Lemma moves_keep_sessions f :
  (∀ m, m_sessions (f m) = m_sessions m) → moves no_take (modify f).
Proof. intros H. apply moves_modify. intros m. by apply no_take_sessions. Qed.
Lemma moves_emit ev : moves no_take (emit ev).
Proof. by apply moves_keep_sessions. Qed.
#[export] Hint Resolve moves_emit : moves.
#[export] Hint Extern 2 (moves _ (modify _)) =>
  apply moves_keep_sessions; reflexivity : moves.
Lemma moves_get_session sid : moves no_take (get_session sid).
Proof. unfold get_session. solve_moves. Qed.
Lemma moves_get_seat k : moves no_take (get_seat k).
Proof. unfold get_seat. solve_moves. Qed.
Lemma moves_get_user uid : moves no_take (get_user uid).
Proof. unfold get_user. solve_moves. Qed.
Lemma moves_get_device d : moves no_take (get_device d).
Proof. unfold get_device. solve_moves. Qed.
#[export] Hint Resolve moves_get_session moves_get_seat moves_get_user moves_get_device : moves.

Lemma no_take_insert m sid s s' :
  m_sessions m !! sid = Some s → (∀ dev, is_Some (s_devices s' !! dev) → is_Some (s_devices s !! dev)) →
  no_take m (m <| m_sessions := <[sid := s']> (m_sessions m) |>).
Proof.
  intros Hs Hd i dev (x&Hx&Hdev). cbn in Hx.
  apply lookup_insert_Some in Hx as [[<- <-]|[Hne Hx]]; [exists s; auto | exists x; auto].
Qed.
Lemma get_session_inv sid m s m' :
  get_session sid m = Some (s, m') → m' = m ∧ m_sessions m !! sid = Some s.
Proof. unfold get_session, bind, gets. destruct (_ !! sid); cbn; [by intros [= <- <-]|done]. Qed.
Lemma moves_upd_session sid f :
  (∀ s dev, is_Some (s_devices (f s) !! dev) → is_Some (s_devices s !! dev)) →
  moves no_take (upd_session sid f).
Proof.
  intros Hf m a m' (s&m1&[-> Hs]%get_session_inv&[= <- <-])%bind_Some.
  eapply no_take_insert; [exact Hs|apply Hf].
Qed.
#[export] Hint Extern 2 (moves _ (upd_session _ _)) =>
  apply moves_upd_session; solve [intros ? ? ?; assumption
    | cbn; intros ? ? ?%lookup_delete_is_Some; tauto] : moves.
Lemma moves_upd_seat k f : moves no_take (upd_seat k f).
Proof. unfold upd_seat. solve_moves. Qed.
Lemma moves_upd_user uid f : moves no_take (upd_user uid f).
Proof. unfold upd_user. solve_moves. Qed.
Lemma moves_upd_device d f : moves no_take (upd_device d f).
Proof. unfold upd_device. solve_moves. Qed.
Lemma moves_get_sd sid dev : moves no_take (get_sd sid dev).
Proof. unfold get_sd. solve_moves. Qed.
Lemma moves_upd_sd sid dev f : moves no_take (upd_sd sid dev f).
Proof.
  intros m a m' (s&m1&[-> Hs]%get_session_inv&(d&m2&Hd&H)%bind_Some)%bind_Some.
  destruct (s_devices s !! dev) as [d'|] eqn:Ed; [|done]. injection Hd as -> ->.
  apply bind_Some in H as (s'&m3&[-> Hs']%get_session_inv&H).
  assert (s' = s) as -> by congruence.
  injection H as <- <-. eapply no_take_insert; [done|]. cbn. intros dev'.
  destruct (decide (dev = dev')) as [<-|]; [by rewrite Ed|]. by rewrite lookup_insert_ne.
Qed.
#[export] Hint Resolve moves_upd_seat moves_upd_user moves_upd_device moves_get_sd
  moves_upd_sd : moves.

Tactic Notation "moves_by" reference(f) := unfold f; solve_moves.

Section Moves.
Context {E : Env}.

Lemma moves_seat_is_seat0 k : moves no_take (seat_is_seat0 k).
Proof. moves_by seat_is_seat0. Qed.
Local Hint Resolve moves_seat_is_seat0 : moves.
Lemma moves_seat_has_vts k : moves no_take (seat_has_vts k).
Proof. moves_by seat_has_vts. Qed.
Local Hint Resolve moves_seat_has_vts : moves.
Lemma moves_seat_can_tty k : moves no_take (seat_can_tty k).
Proof. apply moves_seat_has_vts. Qed.
Lemma moves_seat_has_master_device k : moves no_take (seat_has_master_device k).
Proof. moves_by seat_has_master_device. Qed.
Local Hint Resolve moves_seat_can_tty moves_seat_has_master_device : moves.
Lemma moves_seat_can_graphical k : moves no_take (seat_can_graphical k).
Proof. apply moves_seat_has_master_device. Qed.
Lemma moves_session_send_changed sid p : moves no_take (session_send_changed sid p).
Proof. moves_by session_send_changed. Qed.
Lemma moves_seat_send_changed sid p : moves no_take (seat_send_changed sid p).
Proof. moves_by seat_send_changed. Qed.
Lemma moves_seat_add_to_gc_queue k : moves no_take (seat_add_to_gc_queue k).
Proof. moves_by seat_add_to_gc_queue. Qed.
Lemma moves_session_is_active sid : moves no_take (session_is_active sid).
Proof. moves_by session_is_active. Qed.
Local Hint Resolve moves_seat_can_graphical moves_session_send_changed
  moves_seat_send_changed moves_seat_add_to_gc_queue moves_session_is_active : moves.
Lemma moves_session_get_state sid : moves no_take (session_get_state sid).
Proof. moves_by session_get_state. Qed.
Lemma moves_session_uid sid : moves no_take (session_uid sid).
Proof. moves_by session_uid. Qed.
Local Hint Resolve moves_session_get_state moves_session_uid : moves.
Lemma moves_map_m {A B} (f : A → MM B) l :
  (∀ x, moves no_take (f x)) → moves no_take (map_m f l).
Proof. intros Hf. induction l; cbn; solve_moves. Qed.
Lemma moves_user_state_loop mode b l : moves no_take (user_state_loop mode b l).
Proof. revert b. induction l; intros b; cbn; solve_moves. Qed.
Local Hint Resolve moves_user_state_loop moves_map_m : moves.
Lemma moves_user_get_state uid : moves no_take (user_get_state uid).
Proof. moves_by user_get_state. Qed.
Lemma moves_user_session_info i : moves no_take (user_session_info i).
Proof. moves_by user_session_info. Qed.
Local Hint Resolve moves_user_get_state moves_user_session_info : moves.
Lemma moves_session_save sid : moves no_take (session_save sid).
Proof. moves_by session_save. Qed.
Lemma moves_user_save_internal uid : moves no_take (user_save_internal uid).
Proof. moves_by user_save_internal. Qed.
Local Hint Resolve moves_session_save moves_user_save_internal : moves.
Lemma moves_user_save uid : moves no_take (user_save uid).
Proof. moves_by user_save. Qed.
Lemma moves_seat_save k : moves no_take (seat_save k).
Proof. moves_by seat_save. Qed.
Local Hint Resolve moves_user_save moves_seat_save : moves.

Lemma moves_session_device_notify sid dev t : moves no_take (session_device_notify sid dev t).
Proof. moves_by session_device_notify. Qed.
Lemma moves_sd_revoke t fd : moves no_take (sd_revoke t fd).
Proof. moves_by sd_revoke. Qed.
Lemma moves_sd_drmdropmaster fd : moves no_take (sd_drmdropmaster fd).
Proof. moves_by sd_drmdropmaster. Qed.
Lemma moves_drm_set_master_loop fuel fd i : moves no_take (drm_set_master_loop fuel fd i).
Proof. revert i. induction fuel; intros i; cbn; solve_moves. Qed.
Local Hint Resolve moves_session_device_notify moves_sd_revoke moves_sd_drmdropmaster
  moves_drm_set_master_loop : moves.
Lemma moves_sd_drmsetmaster fd : moves no_take (sd_drmsetmaster fd).
Proof. moves_by sd_drmsetmaster. Qed.
Local Hint Resolve moves_sd_drmsetmaster : moves.
Lemma moves_session_device_open t n a : moves no_take (session_device_open t n a).
Proof. moves_by session_device_open. Qed.
Local Hint Resolve moves_session_device_open : moves.
Lemma moves_session_device_start sid dev : moves no_take (session_device_start sid dev).
Proof. moves_by session_device_start. Qed.
Lemma moves_session_device_stop sid dev : moves no_take (session_device_stop sid dev).
Proof. moves_by session_device_stop. Qed.
Lemma moves_session_device_save sid dev : moves no_take (session_device_save sid dev).
Proof. moves_by session_device_save. Qed.
Local Hint Resolve moves_session_device_start moves_session_device_stop
  moves_session_device_save : moves.
Lemma moves_session_device_free sid dev : moves no_take (session_device_free sid dev).
Proof. moves_by session_device_free. Qed.
Lemma moves_resume_one sid dev : moves no_take (resume_one sid dev).
Proof. moves_by resume_one. Qed.
Lemma moves_pause_one sid dev : moves no_take (pause_one sid dev).
Proof. moves_by pause_one. Qed.
Local Hint Resolve moves_session_device_free moves_resume_one moves_pause_one : moves.
Lemma moves_session_device_resume_all sid : moves no_take (session_device_resume_all sid).
Proof. moves_by session_device_resume_all. Qed.
Lemma moves_session_device_pause_all sid : moves no_take (session_device_pause_all sid).
Proof. moves_by session_device_pause_all. Qed.
Lemma moves_seat_apply_acls k o : moves no_take (seat_apply_acls k o).
Proof. moves_by seat_apply_acls. Qed.
Lemma moves_session_user_save sid : moves no_take (session_user_save sid).
Proof. moves_by session_user_save. Qed.
Local Hint Resolve moves_session_device_resume_all moves_session_device_pause_all
  moves_seat_apply_acls moves_session_user_save : moves.
Lemma moves_seat_set_active k s : moves no_take (seat_set_active k s).
Proof. moves_by seat_set_active. Qed.
Lemma moves_find_on_vt p v l : moves no_take (find_on_vt p v l).
Proof. induction l; cbn; solve_moves. Qed.
Local Hint Resolve moves_seat_set_active moves_find_on_vt : moves.
Lemma moves_seat_active_vt_changed k v : moves no_take (seat_active_vt_changed k v).
Proof. moves_by seat_active_vt_changed. Qed.
Local Hint Resolve moves_seat_active_vt_changed : moves.
Lemma moves_seat_read_active_vt k : moves no_take (seat_read_active_vt k).
Proof. moves_by seat_read_active_vt. Qed.
Local Hint Resolve moves_seat_read_active_vt : moves.
Lemma moves_seat_start k : moves no_take (seat_start k).
Proof. unfold seat_start, seat_send_signal, send_signal. solve_moves. Qed.
Lemma moves_manager_add_seat k : moves no_take (manager_add_seat k).
Proof. unfold manager_add_seat, seat_new. solve_moves. Qed.
Lemma moves_free_device_users fuel d : moves no_take (free_device_users fuel d).
Proof. induction fuel; cbn; solve_moves. Qed.
Local Hint Resolve moves_seat_start moves_manager_add_seat moves_free_device_users : moves.
Lemma moves_device_detach d : moves no_take (device_detach d).
Proof. moves_by device_detach. Qed.
Lemma moves_insert_after_masters d l : moves no_take (insert_after_masters d l).
Proof. induction l; cbn; solve_moves. Qed.
Lemma moves_manager_add_device d b : moves no_take (manager_add_device d b).
Proof. unfold manager_add_device, device_new. solve_moves. Qed.
Local Hint Resolve moves_device_detach moves_insert_after_masters
  moves_manager_add_device : moves.
Lemma moves_device_free d : moves no_take (device_free d).
Proof. moves_by device_free. Qed.
Lemma moves_device_attach d k : moves no_take (device_attach d k).
Proof. moves_by device_attach. Qed.
Local Hint Resolve moves_device_free moves_device_attach : moves.

(** A hotplug event, and so the search for a device, takes none. *)
Lemma moves_manager_process_seat_device d : moves no_take (manager_process_seat_device d).
Proof. moves_by manager_process_seat_device. Qed.
Local Hint Resolve moves_manager_process_seat_device : moves.
Lemma moves_session_device_verify sid dev : moves no_take (session_device_verify sid dev).
Proof. moves_by session_device_verify. Qed.
End Moves.
