(* ===== verification/Cols.v ===== *)
(** The link structure of the manager, as an abstract state.

    [cols m] is what the references between the objects depend on, one finite
    map per field.  [hoare g c Q] is total correctness of [c] on that
    abstraction: from every manager whose links are [g], [c] does not fail and
    ends in links and a result that satisfy [Q].  [soft g c R] is the case where
    the links stay [g].  The proofs of Links*.v are done with these rules and do
    not open the manager again. *)
From S2P Require Import Prelude Time LoginTypes ActionTypes LoginState LoginEnv.

(** A session device: the device it belongs to, whether it is active, whether
    it has a descriptor and a known type. *)
Record sdnode := mkSdnode {
  sn_device : string; sn_active : bool; sn_fd_ok : bool; sn_known : bool }.
#[export] Instance sdnode_eq_dec : EqDecision sdnode.
Proof. solve_decision. Defined.
Definition sdnode_of (d : session_device) : sdnode :=
  mkSdnode (sd_device d) (sd_active d) (0 <=? sd_fd d)
    (negb (bool_decide (sd_type d = DEVICE_TYPE_UNKNOWN))).

(** The power actions: whether one is being executed, the one that has a child,
    the one that is put off or executed, which one is scheduled, and whether its
    timer is set; and the buttons of which a key's long press is being timed. *)
Record pnode := mkPnode {
  pn_job : bool; pn_fork : option HandleAction; pn_delayed : option HandleAction;
  pn_scheduled : option HandleAction; pn_timer : bool; pn_keys : list string }.
#[export] Instance eta_pnode : Eta pnode := fun p =>
  mkPnode (pn_job p) (pn_fork p) (pn_delayed p) (pn_scheduled p) (pn_timer p) (pn_keys p).
Definition timed_buttons (a : actions) : list string :=
  omap (λ o, snd <$> o) [a_power_key_long_press a; a_reboot_key_long_press a;
                         a_suspend_key_long_press a; a_hibernate_key_long_press a].
Definition pnode_of (a : actions) : pnode :=
  mkPnode (is_some (a_action_job a)) (a_sleep_fork_action a) (a_delayed_action a)
    (a_scheduled_shutdown_action a) (is_some (a_scheduled_shutdown_timeout_source a)) (timed_buttons a).
(** A button: is the lid watched, is it closed? *)
Definition bnode_of (b : button) : bool * bool := (b_check_event_source b, b_lid_closed b).

Record cols := mkCols {
  (* sessions *)
  g_user : gmap string (option Z);
  g_seat : gmap string (option string);
  g_pos : gmap string Z;
  g_squeued : gmap string bool;
  g_leader : gmap string Z;
  g_lsrc : gmap string bool;
  g_wd : gmap string Z;
  g_sds : gmap string (gmap Z sdnode);
  g_vtnr : gmap string Z;
  g_cg : gmap string (bool * bool);
  g_fifo : gmap string bool;
  (* users *)
  g_usess : gmap Z (list string);
  g_display : gmap Z (option string);
  g_ulast : gmap Z Z;
  g_utimer : gmap Z (option Z);
  g_uqueued : gmap Z bool;
  g_live : gmap Z bool;
  (* seats *)
  g_tsess : gmap string (list string);
  g_active : gmap string (option string);
  g_pending : gmap string (option string);
  g_positions : gmap string (list (option string));
  g_tdevs : gmap string (list string);
  g_tqueued : gmap string bool;
  g_tstarted : gmap string bool;
  (* devices *)
  g_dseat : gmap string (option string);
  g_dusers : gmap string (list (string * Z));
  (* the manager *)
  g_bypid : gmap Z string;
  g_wdmap : gmap Z string;
  g_sq : list string;
  g_uq : list Z;
  g_tq : list string;
  g_seat0 : option string;
  g_console : Z;
  g_inotify : Z;
  g_limit : Z;
  (* keys and power *)
  g_pow : pnode;
  g_conf : config;
  g_btn : gmap string (bool * bool);
}.
#[export] Instance eta_cols : Eta cols := fun g =>
  mkCols (g_user g) (g_seat g) (g_pos g) (g_squeued g) (g_leader g) (g_lsrc g) (g_wd g)
    (g_sds g) (g_vtnr g) (g_cg g) (g_fifo g) (g_usess g) (g_display g) (g_ulast g) (g_utimer g) (g_uqueued g) (g_live g)
    (g_tsess g) (g_active g) (g_pending g) (g_positions g) (g_tdevs g) (g_tqueued g)
    (g_tstarted g) (g_dseat g) (g_dusers g) (g_bypid g) (g_wdmap g) (g_sq g) (g_uq g)
    (g_tq g) (g_seat0 g) (g_console g) (g_inotify g) (g_limit g)
    (g_pow g) (g_conf g) (g_btn g).

Definition sds_of (s : session) : gmap Z sdnode := sdnode_of <$> s_devices s.
(** Have the control-group path and the leaf path been set up? *)
Definition cg_of (s : session) : bool * bool :=
  (is_some (s_cgroup_path s), is_some (s_cgroup_leaf_path s)).
Definition fifo_of (s : session) : bool := is_some (s_fifo_path s).
(** Is the user started and not stopping? *)
Definition live_of (u : user) : bool := u_started u && negb (u_stopping u).
Definition leader_of (s : session) : Z := p_pid (s_leader s).

Definition cols_of (m : manager) : cols :=
  let S {A} (f : session → A) := f <$> m_sessions m in
  let U {A} (f : user → A) := f <$> m_users m in
  let T {A} (f : seat → A) := f <$> m_seats m in
  let D {A} (f : device → A) := f <$> m_devices m in
  mkCols (S s_user) (S s_seat) (S s_position) (S s_in_gc_queue) (S leader_of)
    (S s_leader_pidfd_event_source) (S s_cgroup_control_inotify_wd) (S sds_of) (S s_vtnr)
    (S cg_of) (S fifo_of)
    (U u_sessions) (U u_display) (U u_last_session_timestamp) (U u_timer_event_source)
    (U u_in_gc_queue) (U live_of)
    (T se_sessions) (T se_active) (T se_pending_switch) (T se_positions) (T se_devices)
    (T se_in_gc_queue) (T se_started)
    (D d_seat) (D d_session_devices)
    (m_sessions_by_leader m) (m_cgroup_control_inotify_wd_session m)
    (m_session_gc_queue m) (m_user_gc_queue m) (m_seat_gc_queue m) (m_seat0 m)
    (m_console_active_fd m) (m_cgroup_inotify_fd m) (c_sessions_max (m_conf m))
    (pnode_of (m_act m)) (m_conf m) (bnode_of <$> m_buttons m).

(** * The logic *)

Definition hoare {A} (g : cols) (c : MM A) (Q : A → cols → Prop) : Prop :=
  ∀ m, cols_of m = g → wp c (λ a m', Q a (cols_of m')) m.
Definition soft {A} (g : cols) (c : MM A) (R : A → Prop) : Prop :=
  hoare g c (λ a g', g' = g ∧ R a).

Section Rules.
  Context (g : cols).

Lemma hoare_ret {A} (a : A) (Q : A → cols → Prop) : Q a g → hoare g (ret a) Q.
  Proof. intros H m Hm. apply wp_ret. by rewrite Hm. Qed.
Lemma hoare_bind {A B} (c : MM A) (k : A → MM B) Q R :
    hoare g c Q → (∀ a g', Q a g' → hoare g' (k a) R) → hoare g (bind c k) R.
  Proof.
    intros Hc Hk m Hm. apply wp_bind. eapply wp_mono; [exact (Hc m Hm)|].
    intros a m' HQ. exact (Hk a _ HQ m' eq_refl).
  Qed.
Lemma hoare_mono {A} (c : MM A) (Q R : A → cols → Prop) :
    hoare g c Q → (∀ a g', Q a g' → R a g') → hoare g c R.
  Proof. intros Hc HQ m Hm. eapply wp_mono; [exact (Hc m Hm) | auto]. Qed.
Lemma hoare_and {A} (c : MM A) (Q R : A → cols → Prop) :
    hoare g c Q → hoare g c R → hoare g c (λ a g', Q a g' ∧ R a g').
  Proof. intros H1 H2 m Hm. apply wp_and; [exact (H1 m Hm) | exact (H2 m Hm)]. Qed.
Lemma hoare_when (b : bool) c (Q : unit → cols → Prop) :
    (b = true → hoare g c Q) → (b = false → Q tt g) → hoare g (when b c) Q.
  Proof.
    intros H1 H2. destruct b; [by apply H1 | apply hoare_ret; by apply H2].
  Qed.
Lemma hoare_ignore {A} (c : MM A) (Q : unit → cols → Prop) :
    hoare g c (λ _ g', Q tt g') → hoare g (ignore c) Q.
  Proof. intros H. eapply hoare_bind; [exact H|]. intros ? ? ? m Hm. apply wp_ret. by rewrite Hm. Qed.
Lemma hoare_assert b (Q : unit → cols → Prop) :
    b = true → Q tt g → hoare g (assert_se b) Q.
  Proof. intros -> H. by apply hoare_ret. Qed.
Lemma hoare_deref {A} (o : option A) a (Q : A → cols → Prop) :
    o = Some a → Q a g → hoare g (deref o) Q.
  Proof. intros -> H. by apply hoare_ret. Qed.
Lemma hoare_modify f (Q : unit → cols → Prop) :
    (∀ m, cols_of m = g → Q tt (cols_of (f m))) → hoare g (modify f) Q.
  Proof. intros H m Hm. apply wp_modify. auto. Qed.
Lemma hoare_gets {A} (f : manager → A) (Q : A → cols → Prop) :
    (∀ m, cols_of m = g → Q (f m) g) → hoare g (gets f) Q.
  Proof. intros H m Hm. apply wp_gets. rewrite Hm. auto. Qed.

Lemma soft_ret {A} (a : A) (R : A → Prop) : R a → soft g (ret a) R.
  Proof. intros. by apply hoare_ret. Qed.
Lemma soft_bind {A B} (c : MM A) (k : A → MM B) R R' :
    soft g c R → (∀ a, R a → soft g (k a) R') → soft g (bind c k) R'.
  Proof. intros Hc Hk. eapply hoare_bind; [exact Hc|]. intros a g' [-> HR]. by apply Hk. Qed.
Lemma soft_mono {A} (c : MM A) (R R' : A → Prop) :
    soft g c R → (∀ a, R a → R' a) → soft g c R'.
  Proof. intros Hc HR. eapply hoare_mono; [exact Hc|]. intros ? ? [-> ?]. auto. Qed.
Lemma soft_true {A} (c : MM A) (R : A → Prop) : soft g c R → soft g c (λ _, True).
  Proof. intros. by eapply soft_mono. Qed.
Lemma soft_when b c : (b = true → soft g c (λ _, True)) → soft g (when b c) (λ _, True).
  Proof. intros. apply hoare_when; auto. Qed.
Lemma soft_ignore {A} (c : MM A) : soft g c (λ _, True) → soft g (ignore c) (λ _, True).
  Proof. intros H. eapply soft_bind; [exact H|]. intros. by apply soft_ret. Qed.
Lemma soft_assert b : b = true → soft g (assert_se b) (λ _, True).
  Proof. intros ->. by apply soft_ret. Qed.
Lemma soft_deref {A} (o : option A) (R : A → Prop) :
    is_Some o → (∀ a, o = Some a → R a) → soft g (deref o) R.
  Proof. intros [a ->] HR. apply soft_ret. auto. Qed.
Lemma soft_gets {A} (f : manager → A) (R : A → Prop) :
    (∀ m, cols_of m = g → R (f m)) → soft g (gets f) R.
  Proof. intros H. apply hoare_gets. auto. Qed.
Lemma soft_gets_true {A} (f : manager → A) : soft g (gets f) (λ _, True).
  Proof. apply soft_gets. done. Qed.
Lemma soft_modify f :
    (∀ m, cols_of (f m) = cols_of m) → soft g (modify f) (λ _, True).
  Proof. intros H. apply hoare_modify. intros m <-. split; [apply H | done]. Qed.
Lemma soft_emit ev : soft g (emit ev) (λ _, True).
  Proof. apply soft_modify. done. Qed.

Lemma soft_for_each {X} (f : X → MM unit) l :
    (∀ x, x ∈ l → soft g (f x) (λ _, True)) → soft g (for_each f l) (λ _, True).
  Proof.
    induction l as [|x l IH]; intros H; simpl; [by apply soft_ret|].
    eapply soft_bind; [apply H; left|]. intros _ _. apply IH. intros y Hy. apply H. by right.
  Qed.
Lemma soft_fold_m {X A} (f : A → X → MM A) l a (R : A → Prop) :
    R a → (∀ a x, x ∈ l → R a → soft g (f a x) R) → soft g (fold_m f a l) R.
  Proof.
    revert a. induction l as [|x l IH]; intros a Ha H; simpl; [by apply soft_ret|].
    eapply soft_bind; [apply H; [left | done]|]. intros a' Ha'. apply IH; [done|].
    intros ? y ? ?. apply H; [by right | done].
  Qed.

  (** A loop with an invariant over the links and what is left of the list. *)
Lemma hoare_for_each {X} (f : X → MM unit) l (I : list X → cols → Prop) :
    I l g →
    (∀ x l' g', I (x :: l') g' → hoare g' (f x) (λ _ g'', I l' g'')) →
    hoare g (for_each f l) (λ _ g', I [] g').
  Proof.
    intros H0 Hf m Hm. revert g H0 m Hm.
    induction l as [|x l IH]; intros g0 H0 m Hm; simpl; [apply wp_ret; by rewrite Hm|].
    apply wp_bind. eapply wp_mono; [exact (Hf _ _ _ H0 m Hm)|]. intros [] m' HI. by eapply IH.
  Qed.
Lemma hoare_fold_m {X A} (f : A → X → MM A) l a (I : list X → cols → Prop) :
    I l g →
    (∀ a x l' g', I (x :: l') g' → hoare g' (f a x) (λ _ g'', I l' g'')) →
    hoare g (fold_m f a l) (λ _ g', I [] g').
  Proof.
    intros H0 Hf m Hm. revert a g H0 m Hm.
    induction l as [|x l IH]; intros a g0 H0 m Hm; simpl; [apply wp_ret; by rewrite Hm|].
    apply wp_bind. eapply wp_mono; [exact (Hf _ _ _ _ H0 m Hm)|]. intros a' m' HI. exact (IH a' _ HI m' eq_refl).
  Qed.
End Rules.

(** A soft computation followed by anything. *)
Lemma hoare_soft_bind {A B} g (c : MM A) (k : A → MM B) R Q :
  soft g c R → (∀ a, R a → hoare g (k a) Q) → hoare g (bind c k) Q.
Proof. intros Hc Hk. eapply hoare_bind; [exact Hc|]. intros a g' [-> HR]. by apply Hk. Qed.

(** * The rules of the objects *)

(** The links of a session, a user, a seat, a device are these rows of [g]. *)
Definition row_s (g : cols) (sid : string) (s : session) : Prop :=
  g_user g !! sid = Some (s_user s) ∧ g_seat g !! sid = Some (s_seat s) ∧
  g_pos g !! sid = Some (s_position s) ∧ g_squeued g !! sid = Some (s_in_gc_queue s) ∧
  g_leader g !! sid = Some (leader_of s) ∧
  g_lsrc g !! sid = Some (s_leader_pidfd_event_source s) ∧
  g_wd g !! sid = Some (s_cgroup_control_inotify_wd s) ∧ g_sds g !! sid = Some (sds_of s) ∧
  g_vtnr g !! sid = Some (s_vtnr s) ∧ g_cg g !! sid = Some (cg_of s) ∧
  g_fifo g !! sid = Some (fifo_of s).
Definition row_u (g : cols) (uid : Z) (u : user) : Prop :=
  g_usess g !! uid = Some (u_sessions u) ∧ g_display g !! uid = Some (u_display u) ∧
  g_ulast g !! uid = Some (u_last_session_timestamp u) ∧
  g_utimer g !! uid = Some (u_timer_event_source u) ∧
  g_uqueued g !! uid = Some (u_in_gc_queue u) ∧ g_live g !! uid = Some (live_of u).
Definition row_t (g : cols) (k : string) (s : seat) : Prop :=
  g_tsess g !! k = Some (se_sessions s) ∧ g_active g !! k = Some (se_active s) ∧
  g_pending g !! k = Some (se_pending_switch s) ∧
  g_positions g !! k = Some (se_positions s) ∧ g_tdevs g !! k = Some (se_devices s) ∧
  g_tqueued g !! k = Some (se_in_gc_queue s) ∧ g_tstarted g !! k = Some (se_started s).
Definition row_d (g : cols) (d : string) (v : device) : Prop :=
  g_dseat g !! d = Some (d_seat v) ∧ g_dusers g !! d = Some (d_session_devices v).

Definition has_s (g : cols) (sid : string) : Prop := is_Some (g_user g !! sid).
Definition has_u (g : cols) (uid : Z) : Prop := is_Some (g_usess g !! uid).
Definition has_t (g : cols) (k : string) : Prop := is_Some (g_tsess g !! k).
Definition has_d (g : cols) (d : string) : Prop := is_Some (g_dseat g !! d).

Section Objects.
  Context (g : cols).

Lemma soft_get_session sid : has_s g sid → soft g (get_session sid) (row_s g sid).
  Proof.
    intros Hs m <-. unfold has_s in Hs. cbn in Hs. rewrite lookup_fmap in Hs.
    destruct (m_sessions m !! sid) as [s|] eqn:E; [|by destruct Hs].
    eapply wp_get_session; [done|]. split; [done|].
    unfold row_s; cbn. by rewrite !lookup_fmap, E.
  Qed.
Lemma soft_get_user uid : has_u g uid → soft g (get_user uid) (row_u g uid).
  Proof.
    intros Hs m <-. unfold has_u in Hs. cbn in Hs. rewrite lookup_fmap in Hs.
    destruct (m_users m !! uid) as [s|] eqn:E; [|by destruct Hs].
    eapply wp_get_user; [done|]. split; [done|].
    unfold row_u; cbn. by rewrite !lookup_fmap, E.
  Qed.
Lemma soft_get_seat k : has_t g k → soft g (get_seat k) (row_t g k).
  Proof.
    intros Hs m <-. unfold has_t in Hs. cbn in Hs. rewrite lookup_fmap in Hs.
    destruct (m_seats m !! k) as [s|] eqn:E; [|by destruct Hs].
    eapply wp_get_seat; [done|]. split; [done|].
    unfold row_t; cbn. by rewrite !lookup_fmap, E.
  Qed.
Lemma soft_get_device d : has_d g d → soft g (get_device d) (row_d g d).
  Proof.
    intros Hs m <-. unfold has_d in Hs. cbn in Hs. rewrite lookup_fmap in Hs.
    destruct (m_devices m !! d) as [s|] eqn:E; [|by destruct Hs].
    eapply wp_get_device; [done|]. split; [done|].
    unfold row_d; cbn. by rewrite !lookup_fmap, E.
  Qed.

  (** The links after an update of one row. *)
Definition put_s (sid : string) (s : session) : cols :=
    g <| g_user := <[sid := s_user s]> (g_user g) |>
      <| g_seat := <[sid := s_seat s]> (g_seat g) |>
      <| g_pos := <[sid := s_position s]> (g_pos g) |>
      <| g_squeued := <[sid := s_in_gc_queue s]> (g_squeued g) |>
      <| g_leader := <[sid := leader_of s]> (g_leader g) |>
      <| g_lsrc := <[sid := s_leader_pidfd_event_source s]> (g_lsrc g) |>
      <| g_wd := <[sid := s_cgroup_control_inotify_wd s]> (g_wd g) |>
      <| g_sds := <[sid := sds_of s]> (g_sds g) |>
      <| g_vtnr := <[sid := s_vtnr s]> (g_vtnr g) |>
      <| g_cg := <[sid := cg_of s]> (g_cg g) |>
      <| g_fifo := <[sid := fifo_of s]> (g_fifo g) |>.
Definition put_u (uid : Z) (u : user) : cols :=
    g <| g_usess := <[uid := u_sessions u]> (g_usess g) |>
      <| g_display := <[uid := u_display u]> (g_display g) |>
      <| g_ulast := <[uid := u_last_session_timestamp u]> (g_ulast g) |>
      <| g_utimer := <[uid := u_timer_event_source u]> (g_utimer g) |>
      <| g_uqueued := <[uid := u_in_gc_queue u]> (g_uqueued g) |>
      <| g_live := <[uid := live_of u]> (g_live g) |>.
Definition put_t (k : string) (s : seat) : cols :=
    g <| g_tsess := <[k := se_sessions s]> (g_tsess g) |>
      <| g_active := <[k := se_active s]> (g_active g) |>
      <| g_pending := <[k := se_pending_switch s]> (g_pending g) |>
      <| g_positions := <[k := se_positions s]> (g_positions g) |>
      <| g_tdevs := <[k := se_devices s]> (g_tdevs g) |>
      <| g_tqueued := <[k := se_in_gc_queue s]> (g_tqueued g) |>
      <| g_tstarted := <[k := se_started s]> (g_tstarted g) |>.
Definition put_d (d : string) (v : device) : cols :=
    g <| g_dseat := <[d := d_seat v]> (g_dseat g) |>
      <| g_dusers := <[d := d_session_devices v]> (g_dusers g) |>.

Lemma hoare_upd_session sid f :
    has_s g sid →
    hoare g (upd_session sid f) (λ _ g', ∃ s, row_s g sid s ∧ g' = put_s sid (f s)).
  Proof.
    intros Hs. eapply hoare_soft_bind; [by apply soft_get_session|]. intros s Hr.
    apply hoare_modify. intros m Hm. exists s. split; [done|].
    unfold put_s. rewrite <- Hm. unfold cols_of; cbn. by rewrite !fmap_insert.
  Qed.
Lemma hoare_upd_user uid f :
    has_u g uid →
    hoare g (upd_user uid f) (λ _ g', ∃ u, row_u g uid u ∧ g' = put_u uid (f u)).
  Proof.
    intros Hs. eapply hoare_soft_bind; [by apply soft_get_user|]. intros s Hr.
    apply hoare_modify. intros m Hm. exists s. split; [done|].
    unfold put_u. rewrite <- Hm. unfold cols_of; cbn. by rewrite !fmap_insert.
  Qed.
Lemma hoare_upd_seat k f :
    has_t g k →
    hoare g (upd_seat k f) (λ _ g', ∃ s, row_t g k s ∧ g' = put_t k (f s)).
  Proof.
    intros Hs. eapply hoare_soft_bind; [by apply soft_get_seat|]. intros s Hr.
    apply hoare_modify. intros m Hm. exists s. split; [done|].
    unfold put_t. rewrite <- Hm. unfold cols_of; cbn. by rewrite !fmap_insert.
  Qed.
Lemma hoare_upd_device d f :
    has_d g d →
    hoare g (upd_device d f) (λ _ g', ∃ v, row_d g d v ∧ g' = put_d d (f v)).
  Proof.
    intros Hs. eapply hoare_soft_bind; [by apply soft_get_device|]. intros s Hr.
    apply hoare_modify. intros m Hm. exists s. split; [done|].
    unfold put_d. rewrite <- Hm. unfold cols_of; cbn. by rewrite !fmap_insert.
  Qed.
End Objects.

(** An update that leaves the row alone is soft.  [same_row] closes the goals
    of the shape [put_s g sid (f s) = g <| ... |>]: the columns it does not
    change are written back as they are. *)
Ltac same_row :=
  unfold put_s, put_u, put_t, put_d in *; cbn;
  repeat match goal with
  | H : row_s _ _ _ |- _ => destruct H as (?&?&?&?&?&?&?&?&?&?&?)
  | H : row_u _ _ _ |- _ => destruct H as (?&?&?&?&?&?)
  | H : row_t _ _ _ |- _ => destruct H as (?&?&?&?&?&?&?)
  | H : row_d _ _ _ |- _ => destruct H as (?&?)
  end;
  repeat match goal with
  | H : ?c !! ?i = Some ?x |- context [<[?i := ?x]> ?c] => rewrite (insert_id c i x H)
  end.

Definition soft_s (f : session → session) : Prop := ∀ s,
  s_user (f s) = s_user s ∧ s_seat (f s) = s_seat s ∧ s_position (f s) = s_position s ∧
  s_in_gc_queue (f s) = s_in_gc_queue s ∧ leader_of (f s) = leader_of s ∧
  s_leader_pidfd_event_source (f s) = s_leader_pidfd_event_source s ∧
  s_cgroup_control_inotify_wd (f s) = s_cgroup_control_inotify_wd s ∧
  sds_of (f s) = sds_of s ∧ s_vtnr (f s) = s_vtnr s ∧ cg_of (f s) = cg_of s ∧
  fifo_of (f s) = fifo_of s.
Definition soft_u (f : user → user) : Prop := ∀ u,
  u_sessions (f u) = u_sessions u ∧ u_display (f u) = u_display u ∧
  u_last_session_timestamp (f u) = u_last_session_timestamp u ∧
  u_timer_event_source (f u) = u_timer_event_source u ∧
  u_in_gc_queue (f u) = u_in_gc_queue u ∧ live_of (f u) = live_of u.

Section Soft.
  Context (g : cols).
Lemma soft_upd_session sid f :
    soft_s f → has_s g sid → soft g (upd_session sid f) (λ _, True).
  Proof.
    intros Hf Hs. eapply hoare_mono; [by apply hoare_upd_session|].
    intros _ g' (s & Hr & ->). split; [|done].
    destruct (Hf s) as (E1&E2&E3&E4&E5&E6&E7&E8&E9&E10&E11).
    unfold put_s. rewrite E1, E2, E3, E4, E5, E6, E7, E8, E9, E10, E11. same_row. by destruct g.
  Qed.
Lemma soft_upd_user uid f :
    soft_u f → has_u g uid → soft g (upd_user uid f) (λ _, True).
  Proof.
    intros Hf Hs. eapply hoare_mono; [by apply hoare_upd_user|].
    intros _ g' (s & Hr & ->). split; [|done].
    destruct (Hf s) as (E1&E2&E3&E4&E5&E6).
    unfold put_u. rewrite E1, E2, E3, E4, E5, E6. same_row. by destruct g.
  Qed.
End Soft.
