(* ===== verification/Links.v ===== *)
(** The invariant on the links between the objects, and what follows from it
    at once: which objects a pointer can be followed to. *)
From S2P Require Import Prelude Time LoginTypes ActionTypes LoginState LoginEnv Events Cols.

(** What may be amiss in the middle of an operation: the devices of the session
    [ex_paused] may be active although it is not the active session of its seat,
    because they are being paused; the session [ex_unlinked] may be missing from
    the lists of its user and its seat, because it is being freed; the device
    [ex_unseated] may be on no seat, because it is being added or freed; the
    session [ex_new] may have no user, because it is being created.  While the
    daemon starts ([ex_boot]), seat0 may not have been started, and sessions that
    could not be loaded have no user and wait for the collector, which frees them. *)
Record exempt := mkExempt {
  ex_paused : option string; ex_unlinked : option string; ex_unseated : option string;
  ex_new : option string; ex_boot : bool }.
(** Between two operations of the start or, if it is over, between two events. *)
Class Boot : Type := booting : bool.
Definition ex0 {Bt : Boot} : exempt := mkExempt None None None None Bt.

(** The power actions in progress, the settings and the buttons: what is being
    executed was asked for; what is put off or scheduled can be executed; no key
    and no timer is for the action that nothing can execute; the lid is watched
    while it is closed. *)
Record pow_ok (p : pnode) : Prop := {
  po_job : pn_job p = true → is_Some (pn_delayed p);
  po_fork : is_some (pn_fork p) = pn_job p;
  po_forked : ∀ h, pn_fork p = Some h → executable h = true;
  po_delayed : ∀ h, pn_delayed p = Some h → executable h = true;
  po_timer : pn_timer p = true → ∃ h, pn_scheduled p = Some h ∧ executable h = true;
}.
Definition button_ok (b : bool * bool) : Prop := b.1 = true → b.2 = true.

(** [WF x g]: every link of [g] has its counterpart, but for [x]; between two
    events [x] is [ex0]. *)
Record WF (x : exempt) (g : cols) : Prop := mkWF {
  wf_ids : ∀ sid, has_s g sid → session_id_valid sid = true;
  (* sessions and users *)
  wf_owner : ∀ sid, g_user g !! sid = Some None → ex_new x = Some sid ∨ ex_unlinked x = Some sid ∨ ex_boot x = true ∧ sid ∈ g_sq g;
  wf_user : ∀ sid uid, g_user g !! sid = Some (Some uid) →
    ∃ l, g_usess g !! uid = Some l ∧ (ex_unlinked x = Some sid ∨ sid ∈ l);
  wf_usess : ∀ uid l, g_usess g !! uid = Some l →
    NoDup l ∧ ∀ sid, sid ∈ l → g_user g !! sid = Some (Some uid);
  wf_display : ∀ uid d, g_display g !! uid = Some (Some d) → g_user g !! d = Some (Some uid);
  wf_utimer : ∀ uid, g_ulast g !! uid = Some USEC_INFINITY → g_utimer g !! uid = Some None;
  (* sessions and seats *)
  wf_seat : ∀ sid k, g_seat g !! sid = Some (Some k) →
    (∃ l, g_tsess g !! k = Some l ∧ (ex_unlinked x = Some sid ∨ sid ∈ l)) ∧ ∃ uid, g_user g !! sid = Some (Some uid);
  wf_tsess : ∀ k l, g_tsess g !! k = Some l →
    NoDup l ∧ ∀ sid, sid ∈ l → g_seat g !! sid = Some (Some k);
  wf_active : ∀ k a, g_active g !! k = Some (Some a) → g_seat g !! a = Some (Some k);
  wf_pending : ∀ k a, g_pending g !! k = Some (Some a) → g_seat g !! a = Some (Some k);
  wf_positions : ∀ k ps p sid, g_positions g !! k = Some ps → ps !! p = Some (Some sid) →
    (0 < p)%nat ∧ g_seat g !! sid = Some (Some k) ∧ g_pos g !! sid = Some (Z.of_nat p);
  wf_pos : ∀ sid p, g_pos g !! sid = Some p → 0 ≤ p < UINT_MAX;
  wf_vtnr : ∀ sid v k, g_vtnr g !! sid = Some v → g_seat g !! sid = Some (Some k) →
    0 ≤ v < UINT_MAX;
  (* the garbage-collection queues *)
  wf_sq : NoDup (g_sq g) ∧ ∀ sid, sid ∈ g_sq g → g_squeued g !! sid = Some true;
  wf_uq : NoDup (g_uq g) ∧ ∀ uid, uid ∈ g_uq g → g_uqueued g !! uid = Some true;
  wf_tq : NoDup (g_tq g) ∧ ∀ k, k ∈ g_tq g → g_tqueued g !! k = Some true;
  (* leaders and control groups *)
  wf_bypid : ∀ pid sid, g_bypid g !! pid = Some sid → g_leader g !! sid = Some pid ∧ 0 < pid;
  wf_lsrc : ∀ sid, g_lsrc g !! sid = Some true → ∃ pid, g_leader g !! sid = Some pid ∧ 0 < pid;
  wf_wd : ∀ wd sid, g_wdmap g !! wd = Some sid → g_wd g !! sid = Some wd ∧ 0 ≤ wd ∧ 0 ≤ g_inotify g;
  (* devices *)
  wf_sds : ∀ sid ds dev n, g_sds g !! sid = Some ds → ds !! dev = Some n →
    sn_known n = true ∧ (sn_active n = true → sn_fd_ok n = true) ∧
    ∃ k us, g_seat g !! sid = Some (Some k) ∧ g_dseat g !! sn_device n = Some (Some k) ∧
      g_dusers g !! sn_device n = Some us ∧ (sid, dev) ∈ us;
  wf_dusers : ∀ d us, g_dusers g !! d = Some us →
    NoDup us ∧ ∀ sid dev, (sid, dev) ∈ us →
      ∃ ds n, g_sds g !! sid = Some ds ∧ ds !! dev = Some n ∧ sn_device n = d;
  wf_dseat : ∀ d k, g_dseat g !! d = Some (Some k) → ∃ l, g_tdevs g !! k = Some l ∧ d ∈ l;
  wf_seated : ∀ d, g_dseat g !! d = Some None → ex_unseated x = Some d;
  wf_tdevs : ∀ k l, g_tdevs g !! k = Some l →
    NoDup l ∧ ∀ d, d ∈ l → g_dseat g !! d = Some (Some k);
  (* only the active session of a seat has active devices *)
  wf_excl : ∀ sid ds dev n, g_sds g !! sid = Some ds → ds !! dev = Some n →
    sn_active n = true →
    ex_paused x = Some sid ∨ ∃ k, g_seat g !! sid = Some (Some k) ∧ g_active g !! k = Some (Some sid);
  (* seat0 is there and started; the session limit leaves room for positions *)
  wf_seat0 : ∃ k b, g_seat0 g = Some k ∧ g_tstarted g !! k = Some b ∧ (b = true ∨ ex_boot x = true);
  wf_limit : g_limit g + 1 < UINT_MAX;
  wf_pow : pow_ok (g_pow g);
  wf_conf : conf_ok (g_conf g);
  wf_btn : map_Forall (λ _, button_ok) (g_btn g);
  (* the button of a long press is there; while the daemon starts, none is timed *)
  wf_keys : ∀ name, name ∈ pn_keys (g_pow g) → is_Some (g_btn g !! name) ∧ ex_boot x = false;
}.

(** The manager whose links are [g]. *)
Definition coh (g : cols) : Prop := ∃ m, cols_of m = g.

Lemma hoare_coh {A} g (c : MM A) Q : (coh g → hoare g c Q) → hoare g c Q.
Proof. intros H m Hm. apply H; [by exists m | done]. Qed.
Lemma soft_coh {A} g (c : MM A) R : (coh g → soft g c R) → soft g c R.
Proof. apply hoare_coh. Qed.

Section Coherence.
  Context (g : cols) (Hg : coh g).

Local Ltac coh := destruct Hg as [m <-]; unfold has_s, has_u, has_t, has_d; cbn;
    rewrite ?lookup_fmap; intros H; destruct (_ !! _); [eauto | done].

Lemma coh_seat sid a : g_seat g !! sid = Some a → has_s g sid.
  Proof. coh. Qed.
Lemma coh_pos sid a : g_pos g !! sid = Some a → has_s g sid.
  Proof. coh. Qed.
Lemma coh_squeued sid a : g_squeued g !! sid = Some a → has_s g sid.
  Proof. coh. Qed.
Lemma coh_leader sid a : g_leader g !! sid = Some a → has_s g sid.
  Proof. coh. Qed.
Lemma coh_wd sid a : g_wd g !! sid = Some a → has_s g sid.
  Proof. coh. Qed.
Lemma coh_sds sid a : g_sds g !! sid = Some a → has_s g sid.
  Proof. coh. Qed.
Lemma coh_display uid a : g_display g !! uid = Some a → has_u g uid.
  Proof. coh. Qed.
Lemma coh_uqueued uid a : g_uqueued g !! uid = Some a → has_u g uid.
  Proof. coh. Qed.
Lemma coh_active k a : g_active g !! k = Some a → has_t g k.
  Proof. coh. Qed.
Lemma coh_tdevs k a : g_tdevs g !! k = Some a → has_t g k.
  Proof. coh. Qed.
Lemma coh_positions k a : g_positions g !! k = Some a → has_t g k.
  Proof. coh. Qed.
Lemma coh_tqueued k a : g_tqueued g !! k = Some a → has_t g k.
  Proof. coh. Qed.
Lemma coh_tstarted k a : g_tstarted g !! k = Some a → has_t g k.
  Proof. coh. Qed.
Lemma coh_dusers d a : g_dusers g !! d = Some a → has_d g d.
  Proof. coh. Qed.

  (** All columns of a session are there together. *)
Lemma coh_row sid : has_s g sid → ∃ s, row_s g sid s.
  Proof.
    destruct Hg as [m <-]. unfold has_s, row_s; cbn. rewrite !lookup_fmap.
    destruct (m_sessions m !! sid) as [s|]; intros [? H]; [|done]. by exists s.
  Qed.
Lemma coh_row_u uid : has_u g uid → ∃ u, row_u g uid u.
  Proof.
    destruct Hg as [m <-]. unfold has_u, row_u; cbn. rewrite !lookup_fmap.
    destruct (m_users m !! uid) as [s|]; intros [? H]; [|done]. by exists s.
  Qed.
Lemma coh_row_t k : has_t g k → ∃ s, row_t g k s.
  Proof.
    destruct Hg as [m <-]. unfold has_t, row_t; cbn. rewrite !lookup_fmap.
    destruct (m_seats m !! k) as [s|]; intros [? H]; [|done]. by exists s.
  Qed.
Lemma coh_row_d d : has_d g d → ∃ v, row_d g d v.
  Proof.
    destruct Hg as [m <-]. unfold has_d, row_d; cbn. rewrite !lookup_fmap.
    destruct (m_devices m !! d) as [s|]; intros [? H]; [|done]. by exists s.
  Qed.
End Coherence.

Section Follow.
  Context (x : exempt) (g : cols) (Hwf : WF x g) (Hg : coh g).

Lemma has_s_user sid a : g_user g !! sid = Some a → has_s g sid.
  Proof. by eexists. Qed.
Lemma has_s_row sid s : row_s g sid s → has_s g sid.
  Proof. intros (?&_). by eexists. Qed.
Lemma has_u_row uid u : row_u g uid u → has_u g uid.
  Proof. intros (?&_). by eexists. Qed.
Lemma has_t_row k s : row_t g k s → has_t g k.
  Proof. intros (?&_). by eexists. Qed.
Lemma has_d_row d v : row_d g d v → has_d g d.
  Proof. intros (?&_). by eexists. Qed.

Lemma row_user sid s uid :
    row_s g sid s → s_user s = Some uid → g_user g !! sid = Some (Some uid).
  Proof. by intros (?&_) <-. Qed.
Lemma row_seat sid s k :
    row_s g sid s → s_seat s = Some k → g_seat g !! sid = Some (Some k).
  Proof. by intros (_&?&_) <-. Qed.
Lemma row_active k s a :
    row_t g k s → se_active s = Some a → g_active g !! k = Some (Some a).
  Proof. by intros (_&?&_) <-. Qed.
Lemma row_pending k s a :
    row_t g k s → se_pending_switch s = Some a → g_pending g !! k = Some (Some a).
  Proof. by intros (_&_&?&_) <-. Qed.
Lemma row_display uid u d :
    row_u g uid u → u_display u = Some d → g_display g !! uid = Some (Some d).
  Proof. by intros (_&?&_) <-. Qed.
Lemma row_dseat d v k : row_d g d v → d_seat v = Some k → g_dseat g !! d = Some (Some k).
  Proof. by intros (?&_) <-. Qed.

Lemma follow_user sid uid : g_user g !! sid = Some (Some uid) → has_u g uid.
  Proof. intros (l & ? & _)%(wf_user _ _ Hwf). by eexists. Qed.
Lemma follow_seat sid k : g_seat g !! sid = Some (Some k) → has_t g k.
  Proof. intros ((l & ? & _) & _)%(wf_seat _ _ Hwf). by eexists. Qed.
Lemma follow_seat_user sid k :
    g_seat g !! sid = Some (Some k) → ∃ uid, g_user g !! sid = Some (Some uid).
  Proof. by intros (_ & ?)%(wf_seat _ _ Hwf). Qed.
Lemma follow_active k a : g_active g !! k = Some (Some a) → g_seat g !! a = Some (Some k).
  Proof. apply (wf_active _ _ Hwf). Qed.
Lemma follow_pending k a : g_pending g !! k = Some (Some a) → g_seat g !! a = Some (Some k).
  Proof. apply (wf_pending _ _ Hwf). Qed.
Lemma follow_display uid d :
    g_display g !! uid = Some (Some d) → g_user g !! d = Some (Some uid).
  Proof. apply (wf_display _ _ Hwf). Qed.
Lemma follow_usess uid u sid :
    row_u g uid u → sid ∈ u_sessions u → g_user g !! sid = Some (Some uid).
  Proof. intros (?&_) ?. by eapply (wf_usess _ _ Hwf). Qed.
Lemma follow_tsess k s sid :
    row_t g k s → sid ∈ se_sessions s → g_seat g !! sid = Some (Some k).
  Proof. intros (?&_) ?. by eapply (wf_tsess _ _ Hwf). Qed.
Lemma follow_tdevs k s d :
    row_t g k s → d ∈ se_devices s → g_dseat g !! d = Some (Some k).
  Proof. intros (_&_&_&_&?&_) ?. by eapply (wf_tdevs _ _ Hwf). Qed.
Lemma follow_dseat d k : g_dseat g !! d = Some (Some k) → has_t g k.
  Proof. intros (l & ? & _)%(wf_dseat _ _ Hwf). by eapply coh_tdevs. Qed.
Lemma has_d_dseat d a : g_dseat g !! d = Some a → has_d g d.
  Proof. by eexists. Qed.
Lemma follow_position k s p sid :
    row_t g k s → se_positions s !! p = Some (Some sid) → g_seat g !! sid = Some (Some k).
  Proof. intros (_&_&_&?&_) Hp. by destruct (wf_positions _ _ Hwf _ _ _ _ H Hp) as (_&?&_). Qed.
End Follow.

(** Following a pointer: which rows there are. *)
Create HintDb links discriminated.
#[export] Hint Resolve coh_seat coh_pos coh_squeued coh_leader coh_wd coh_sds coh_display
  coh_uqueued coh_active coh_tdevs coh_tqueued coh_tstarted coh_dusers
  has_s_user has_s_row has_u_row has_t_row has_d_row row_user row_seat row_active
  row_pending row_display row_dseat follow_user follow_seat follow_active follow_pending
  follow_display follow_usess follow_tsess follow_tdevs follow_dseat has_d_dseat
  follow_position : links.
#[export] Hint Extern 1 (_ ∈ _ :: _) => left : links.
#[export] Hint Extern 2 (_ ∈ _ :: _) => right : links.
