(* ===== verification/LinksObjects.v ===== *)
(** The queries, signals and state files of Objects.v never fail on
    well-formed links, and leave them as they are. *)
From S2P Require Import Prelude Time LoginTypes ActionTypes LoginState LoginEnv Objects Cols Links.

(** The soft operations, by name. *)
Create HintDb soft discriminated.
#[export] Hint Resolve soft_emit soft_gets_true : soft.

Ltac soft_go :=
  cbv zeta;
  lazymatch goal with
  | |- soft ?g (bind (get_session _) _) _ =>
      eapply soft_bind; [apply soft_get_session; eauto 8 with links | intros ? ?; soft_go]
  | |- soft ?g (bind (get_user _) _) _ =>
      eapply soft_bind; [apply soft_get_user; eauto 8 with links | intros ? ?; soft_go]
  | |- soft ?g (bind (get_seat _) _) _ =>
      eapply soft_bind; [apply soft_get_seat; eauto 8 with links | intros ? ?; soft_go]
  | |- soft ?g (bind (get_device _) _) _ =>
      eapply soft_bind; [apply soft_get_device; eauto 8 with links | intros ? ?; soft_go]
  | |- soft ?g (bind (deref _) _) _ =>
      eapply soft_bind; [apply (soft_deref _ _ (λ _, True)); [eauto 8 with links | done]
                        | intros ? ?; soft_go]
  | |- soft ?g (bind ?c ?k) ?R =>
      eapply (soft_bind g c k (λ _, True)); [soft_go | intros ? _; soft_go]
  | |- soft _ (ret _) _ => apply soft_ret; done
  | |- soft _ (ignore _) _ => apply soft_ignore; soft_go
  | |- soft _ (when _ _) _ => apply soft_when; intros ?; soft_go
  | |- soft _ (if ?b then _ else _) _ => destruct b eqn:?; soft_go
  | |- soft _ (match ?x with _ => _ end) _ => destruct x eqn:?; soft_go
  | |- soft _ (upd_session _ _) _ =>
      apply soft_upd_session; [intros ?; repeat split; reflexivity | eauto 8 with links]
  | |- soft _ (upd_user _ _) _ =>
      apply soft_upd_user; [intros ?; repeat split; reflexivity | eauto 8 with links]
  | |- soft _ (for_each _ _) _ => apply soft_for_each; intros ? ?; soft_go
  | |- _ => first [solve [eauto 8 with soft links]
                  | eapply soft_true; solve [eauto 8 with soft links] | idtac]
  end.

Section Soft.
  Context (x : exempt) (g : cols) (Hwf : WF x g) (Hg : coh g).

Lemma soft_session_send_changed sid props :
    has_s g sid → soft g (session_send_changed sid props) (λ _, True).
  Proof. intros. unfold session_send_changed. soft_go. Qed.
Lemma soft_seat_send_changed k props :
    has_t g k → soft g (seat_send_changed k props) (λ _, True).
  Proof. intros. unfold seat_send_changed. soft_go. Qed.
Lemma soft_user_send_changed uid props :
    has_u g uid → soft g (user_send_changed uid props) (λ _, True).
  Proof. intros. unfold user_send_changed. soft_go. Qed.
Lemma soft_manager_send_changed props : soft g (manager_send_changed props) (λ _, True).
  Proof. apply soft_emit. Qed.
Lemma soft_send_signal o b : soft g (send_signal o b) (λ _, True).
  Proof. apply soft_emit. Qed.

  (** Whether a seat has VTs depends on the links only. *)
Definition has_vts (g : cols) (k : string) : bool :=
    bool_decide (g_seat0 g = Some k) && (0 <=? g_console g).
Lemma soft_seat_is_seat0 k :
    soft g (seat_is_seat0 k) (λ b, b = bool_decide (g_seat0 g = Some k)).
  Proof. clear Hwf Hg. apply soft_gets. by intros m <-. Qed.
Lemma soft_seat_has_vts k : soft g (seat_has_vts k) (λ b, b = has_vts g k).
  Proof.
    clear Hwf Hg. unfold seat_has_vts. eapply soft_bind; [apply soft_seat_is_seat0|]. intros b ->.
    eapply (soft_bind _ _ _ (λ z, z = g_console g)); [apply soft_gets; by intros m <-|].
    intros ? ->. by apply soft_ret.
  Qed.
Lemma soft_seat_can_tty k : soft g (seat_can_tty k) (λ b, b = has_vts g k).
  Proof. clear Hwf Hg. apply soft_seat_has_vts. Qed.

Lemma soft_seat_has_master_device k :
    has_t g k → soft g (seat_has_master_device k) (λ _, True).
  Proof.
    intros. unfold seat_has_master_device.
    eapply soft_bind; [by apply soft_get_seat|]. intros s Hr.
    destruct (se_devices s) as [|d l] eqn:E; [by apply soft_ret|].
    assert (d ∈ se_devices s) by (rewrite E; left). soft_go.
  Qed.

  (** Whether a session is the active one depends on the links only. *)
Definition is_active (g : cols) (sid : string) : Prop :=
    g_seat g !! sid = Some None ∨
    ∃ k, g_seat g !! sid = Some (Some k) ∧ g_active g !! k = Some (Some sid).
Lemma soft_session_is_active sid :
    has_s g sid → soft g (session_is_active sid) (λ b, b = true ↔ is_active g sid).
  Proof.
    intros. unfold session_is_active. eapply soft_bind; [by apply soft_get_session|].
    intros s Hr. destruct (s_seat s) as [k|] eqn:E.
    - eapply soft_bind; [apply soft_get_seat; eauto with links|]. intros st Ht.
      apply soft_ret. rewrite bool_decide_eq_true. destruct Hr as (_&Hs&_). rewrite E in Hs.
      destruct Ht as (_&Ha&_). split.
      + intros Ea. right. exists k. by rewrite Hs, Ha, Ea.
      + intros [?|(k'&?&?)]; [congruence|]. rewrite Hs in *. simplify_eq. congruence.
    - apply soft_ret. split; [|done]. intros _. left. destruct Hr as (_&Hs&_).
      by rewrite Hs, E.
  Qed.
Lemma soft_session_is_active' sid :
    has_s g sid → soft g (session_is_active sid) (λ _, True).
  Proof. intros. eapply soft_true. by apply soft_session_is_active. Qed.

Lemma soft_session_get_state sid :
    has_s g sid → soft g (session_get_state sid) (λ _, True).
  Proof.
    intros. unfold session_get_state. eapply soft_bind; [by apply soft_get_session|].
    intros s Hr. destruct (_ || _); [by apply soft_ret|].
    destruct (_ && _); [by apply soft_ret|].
    eapply soft_bind; [by apply soft_session_is_active|].
    intros [] _; by apply soft_ret.
  Qed.

  Context {E : Env} {Bt : Boot}.

Lemma soft_session_get_idle_hint sid t :
    has_s g sid → soft g (session_get_idle_hint sid t) (λ _, True).
  Proof. intros. unfold session_get_idle_hint. soft_go. Qed.

Lemma soft_user_state_loop mode b l :
    (∀ i, i ∈ l → has_s g i) → soft g (user_state_loop mode b l) (λ _, True).
  Proof.
    revert b. induction l as [|i l IH]; intros b Hl; simpl; [by apply soft_ret|].
    assert (has_s g i) by (apply Hl; left).
    assert (∀ j, j ∈ l → has_s g j) by (intros; apply Hl; by right).
    eapply soft_bind; [by apply soft_get_session|]. intros s Hr.
    destruct (_ && _); [auto|].
    eapply soft_bind; [by apply soft_session_get_state|]. intros st _.
    destruct (_ && _); [by apply soft_ret | auto].
  Qed.
Lemma soft_user_get_state uid : has_u g uid → soft g (user_get_state uid) (λ _, True).
  Proof.
    intros. unfold user_get_state. eapply soft_bind; [by apply soft_get_user|].
    intros u Hu. destruct (u_stopping u); [by apply soft_ret|].
    destruct (negb _); [by apply soft_ret|].
    eapply soft_bind; [apply soft_user_state_loop; eauto with links|].
    intros [|] _; [by apply soft_ret|]. destruct (_ <? _); by apply soft_ret.
  Qed.

Lemma soft_session_save sid : has_s g sid → soft g (session_save sid) (λ _, True).
  Proof.
    intros. unfold session_save. eapply soft_bind; [by apply soft_get_session|].
    intros s Hr. destruct (s_user s) as [uid|] eqn:Eu; [|by apply soft_ret].
    destruct (negb _); [by apply soft_ret|].
    eapply soft_bind; [apply soft_get_user; eauto with links|]. intros u _.
    eapply soft_bind; [by apply soft_session_is_active|]. intros a _.
    eapply soft_bind; [by apply soft_session_get_state|]. intros st _.
    eapply (soft_bind _ _ _ (λ _, True)).
    { destruct (s_seat s); [eapply soft_true, soft_seat_has_vts | by apply soft_ret]. }
    intros vts _. eapply soft_bind; [apply soft_emit|]. intros. by apply soft_ret.
  Qed.

  (** The user of a session can be looked up. *)
Lemma soft_session_uid sid uid :
    g_user g !! sid = Some (Some uid) → soft g (session_uid sid) (λ _, True).
  Proof.
    intros Hu. unfold session_uid. eapply soft_bind; [apply soft_get_session; by eexists|].
    intros s Hr. destruct Hr as (Hu'&_). assert (s_user s = Some uid) as -> by congruence.
    eapply soft_bind; [apply (soft_deref _ _ (λ u, u = uid)); [by eexists | congruence]|].
    intros ? ->. eapply soft_bind; [apply soft_get_user; eauto with links|].
    intros. by apply soft_ret.
  Qed.
Lemma soft_session_uid_seat sid k :
    g_seat g !! sid = Some (Some k) → soft g (session_uid sid) (λ _, True).
  Proof. intros [uid Hu]%(follow_seat_user x g Hwf). by eapply soft_session_uid. Qed.

Lemma soft_map_m {A B} (f : A → MM B) l :
    (∀ a, a ∈ l → soft g (f a) (λ _, True)) → soft g (map_m f l) (λ _, True).
  Proof.
    induction l as [|a l IH]; intros Hl; simpl; [by apply soft_ret|].
    eapply soft_bind; [apply Hl; left|]. intros b _.
    eapply soft_bind; [apply IH; intros; apply Hl; by right|]. intros. by apply soft_ret.
  Qed.

Lemma soft_seat_save k : has_t g k → soft g (seat_save k) (λ _, True).
  Proof.
    intros. unfold seat_save. eapply soft_bind; [by apply soft_get_seat|]. intros s Hr.
    destruct (negb _); [by apply soft_ret|].
    eapply soft_bind; [apply soft_seat_is_seat0|]. intros b _.
    eapply soft_bind; [apply soft_seat_can_tty|]. intros b' _.
    eapply soft_bind; [by apply soft_seat_has_master_device|]. intros b'' _.
    eapply (soft_bind _ _ _ (λ _, True)).
    { destruct (se_active s) as [a|] eqn:Ea; [|by apply soft_ret].
      assert (g_seat g !! a = Some (Some k)) by eauto with links.
      eapply soft_bind; [apply soft_get_session; eauto with links|]. intros _ _.
      eapply soft_bind; [by eapply soft_session_uid_seat|]. intros. by apply soft_ret. }
    intros ? _.
    eapply soft_bind; [apply soft_map_m; intros; eapply soft_session_uid_seat;
                       eauto with links|].
    intros. eapply soft_bind; [apply soft_emit|]. intros. by apply soft_ret.
  Qed.

Lemma soft_user_session_info i : has_s g i → soft g (user_session_info i) (λ _, True).
  Proof.
    intros. unfold user_session_info. eapply soft_bind; [by apply soft_get_session|].
    intros s _. eapply soft_bind; [by apply soft_session_is_active|]. intros a _.
    eapply soft_bind; [by apply soft_session_get_state|]. intros. by apply soft_ret.
  Qed.
Lemma soft_user_save_internal uid :
    has_u g uid → soft g (user_save_internal uid) (λ _, True).
  Proof.
    intros. unfold user_save_internal. eapply soft_bind; [by apply soft_get_user|].
    intros u Hu. eapply soft_bind; [by apply soft_user_get_state|]. intros st _.
    eapply soft_bind; [apply soft_map_m; intros; apply soft_user_session_info;
                       eauto with links|].
    intros infos _. eapply soft_bind; [apply soft_emit|]. intros. by apply soft_ret.
  Qed.
Lemma soft_user_save uid : has_u g uid → soft g (user_save uid) (λ _, True).
  Proof.
    intros. unfold user_save. eapply soft_bind; [by apply soft_get_user|].
    intros u Hu. destruct (negb _); [by apply soft_ret|]. by apply soft_user_save_internal.
  Qed.
End Soft.
#[export] Hint Resolve soft_session_send_changed soft_seat_send_changed
  soft_user_send_changed soft_manager_send_changed soft_send_signal soft_seat_is_seat0
  soft_seat_has_vts soft_seat_can_tty soft_seat_has_master_device soft_session_is_active
  soft_session_get_state soft_session_get_idle_hint soft_user_get_state soft_session_save
  soft_session_uid soft_session_uid_seat soft_seat_save soft_user_save_internal
  soft_user_save : soft.
