(* ===== verification/LinksDevice.v ===== *)
(** The session devices keep the links well-formed: starting, stopping and
    freeing them. *)
From S2P Require Import Prelude Time LoginTypes ActionTypes LoginState LoginEnv Objects SessionDevice Cols Links LinksObjects.

(** * Names *)

Lemma session_id_no_separators id : session_id_valid id = true → no_separators id = true.
Proof.
  unfold session_id_valid, no_separators. destruct id as [|c s]; [done|].
  generalize (String c s). clear. intros s. induction s as [|c s IH]; cbn; [done|].
  intros [Hc Hs]%andb_prop. rewrite (IH Hs), andb_true_r.
  clear -Hc. destruct c as [[] [] [] [] [] [] [] []]; first [reflexivity | discriminate].
Qed.

(** * Replacing the devices of a session *)

Definition put_sds (g : cols) (sid : string) (ds : gmap Z sdnode) : cols :=
  g <| g_sds := <[sid := ds]> (g_sds g) |>.

(** The same devices, possibly in another state. *)
Definition same_devices (ds ds' : gmap Z sdnode) : Prop :=
  ∀ dev, sn_device <$> ds' !! dev = sn_device <$> ds !! dev.
Definition sd_ok (n : sdnode) : Prop :=
  sn_known n = true ∧ (sn_active n = true → sn_fd_ok n = true).
Definition sds_ok (ds : gmap Z sdnode) : Prop := ∀ dev n, ds !! dev = Some n → sd_ok n.

Lemma put_sds_id g sid ds : g_sds g !! sid = Some ds → put_sds g sid ds = g.
Proof. intros H. unfold put_sds; cbn. rewrite insert_id by done. by destruct g. Qed.
Lemma put_sds_twice g sid ds ds' : put_sds (put_sds g sid ds) sid ds' = put_sds g sid ds'.
Proof. unfold put_sds; cbn. by rewrite insert_insert_eq. Qed.
Lemma put_sds_lookup g sid ds : g_sds (put_sds g sid ds) !! sid = Some ds.
Proof. unfold put_sds; cbn. by rewrite lookup_insert_eq. Qed.

Lemma same_devices_refl ds : same_devices ds ds.
Proof. done. Qed.
Lemma same_devices_trans ds ds' ds'' :
  same_devices ds ds' → same_devices ds' ds'' → same_devices ds ds''.
Proof. intros H1 H2 dev. by rewrite H2. Qed.
Lemma same_devices_insert ds ds' dev n n' :
  same_devices ds ds' → ds' !! dev = Some n → sn_device n' = sn_device n →
  same_devices ds (<[dev := n']> ds').
Proof.
  intros H Hn Hd dev'. destruct (decide (dev = dev')) as [<-|].
  - rewrite lookup_insert_eq, <- H, Hn. cbn. by rewrite Hd.
  - by rewrite lookup_insert_ne.
Qed.
Lemma sds_ok_insert ds dev n : sds_ok ds → sd_ok n → sds_ok (<[dev := n]> ds).
Proof. intros H Hn dev' n' [[<- <-]|[? ?]]%lookup_insert_Some; eauto. Qed.

Lemma wf_sds_ok x g sid ds : WF x g → g_sds g !! sid = Some ds → sds_ok ds.
Proof. intros Hwf Hs dev n Hn. by destruct (wf_sds _ _ Hwf _ _ _ _ Hs Hn) as (?&?&_). Qed.

(** The devices of [sid] may be in another state, if only an active session has
    active ones. *)
Lemma wf_put_sds x g sid ds ds' :
  WF x g → g_sds g !! sid = Some ds → same_devices ds ds' → sds_ok ds' →
  (∀ dev n, ds' !! dev = Some n → sn_active n = true →
     ex_paused x = Some sid ∨ ∃ k, g_seat g !! sid = Some (Some k) ∧ g_active g !! k = Some (Some sid)) →
  WF x (put_sds g sid ds').
Proof.
  intros Hwf Hs Hsame Hok Hact. destruct Hwf; constructor; cbn; try assumption.
  - intros sid' ds'' dev n [[<- <-]|[Hne Hs']]%lookup_insert_Some Hn; [|eauto].
    destruct (Hok _ _ Hn) as [??]. split; [done|]. split; [done|].
    specialize (Hsame dev). rewrite Hn in Hsame. cbn in Hsame.
    destruct (ds !! dev) as [n0|] eqn:En; [|done]. injection Hsame as ->.
    by destruct (wf_sds _ _ _ _ Hs En) as (_&_&?).
  - intros d us Hus. destruct (wf_dusers _ _ Hus) as [? Hin]. split; [done|].
    intros sid' dev Hin'. destruct (Hin _ _ Hin') as (ds1&n&H1&H2&H3).
    destruct (decide (sid' = sid)) as [->|].
    + rewrite lookup_insert_eq. assert (ds1 = ds) as -> by congruence.
      specialize (Hsame dev). rewrite H2 in Hsame. cbn in Hsame.
      destruct (ds' !! dev) as [n'|] eqn:En'; [|done]. injection Hsame as Hd.
      exists ds', n'. rewrite Hd. done.
    + rewrite lookup_insert_ne by done. eauto.
  - intros sid' ds'' dev n [[<- <-]|[Hne Hs']]%lookup_insert_Some Hn Ha; eauto.
Qed.

Section Device.
Context {E : Env} {Bt : Boot}.

(** * Opening *)

(** The loop stops by itself within the fuel it is given. *)
Lemma soft_drm_set_master_loop g fuel fd i :
  (i ≤ DRM_SET_MASTER_RETRY_ATTEMPTS)%nat → (DRM_SET_MASTER_RETRY_ATTEMPTS < fuel + i)%nat →
  soft g (drm_set_master_loop fuel fd i) (λ _, True).
Proof.
  revert i. induction fuel as [|fuel IH]; intros i Hi Hf; [lia|]. cbn [drm_set_master_loop].
  eapply soft_bind; [apply soft_emit|]. intros _ _. cbv zeta.
  destruct (negb _); cbn [orb]; [by apply soft_ret|].
  destruct (_ <=? i)%nat eqn:El; [by apply soft_ret|]. apply Nat.leb_gt in El.
  apply IH; lia.
Qed.
Lemma soft_sd_drmsetmaster g fd : 0 ≤ fd → soft g (sd_drmsetmaster fd) (λ _, True).
Proof.
  intros H. unfold sd_drmsetmaster.
  eapply soft_bind; [apply soft_assert; by apply Z.leb_le|]. intros _ _.
  apply soft_drm_set_master_loop; unfold DRM_SET_MASTER_RETRY_ATTEMPTS; lia.
Qed.
Lemma soft_sd_drmdropmaster g fd : 0 ≤ fd → soft g (sd_drmdropmaster fd) (λ _, True).
Proof.
  intros. eapply soft_bind; [apply soft_assert; by apply Z.leb_le|]. intros. apply soft_emit.
Qed.
Lemma soft_sd_revoke g t fd : 0 ≤ fd → soft g (sd_revoke t fd) (λ _, True).
Proof.
  intros. eapply soft_bind; [apply soft_assert; by apply Z.leb_le|]. intros. apply soft_emit.
Qed.

Lemma soft_session_device_open g type node active :
  type ≠ DEVICE_TYPE_UNKNOWN → soft g (session_device_open type node active) (λ _, True).
Proof.
  intros Ht. unfold session_device_open.
  eapply soft_bind; [apply soft_assert; by rewrite bool_decide_false|]. intros _ _. cbv zeta.
  destruct (e_open node <? 0) eqn:Ef; [by apply soft_ret|]. apply Z.ltb_ge in Ef.
  eapply soft_bind; [apply soft_emit|]. intros _ _.
  destruct type; [by apply soft_ret| |..].
  - destruct active; (eapply soft_bind;
      [first [by apply soft_sd_drmsetmaster | by apply soft_sd_drmdropmaster]|]);
      intros; by apply soft_ret.
  - eapply soft_bind; [apply soft_when; intros; by apply soft_sd_revoke|].
    intros. by apply soft_ret.
  - eapply soft_bind; [apply soft_when; intros; by apply soft_sd_revoke|].
    intros. by apply soft_ret.
Qed.

(** * Access to one session device *)

Section One.
  Context (x : exempt) (g : cols) (Hwf : WF x g) (Hg : coh g).
  Context (sid : string) (dev : Z) (ds : gmap Z sdnode) (n : sdnode).
  Context (Hs : g_sds g !! sid = Some ds) (Hn : ds !! dev = Some n).

Lemma soft_get_sd : soft g (get_sd sid dev) (λ d, sdnode_of d = n).
  Proof.
    unfold get_sd. eapply soft_bind; [apply soft_get_session; by eapply coh_sds|].
    intros s (_&_&_&_&_&_&_&Hd&_). rewrite Hs in Hd. injection Hd as ->.
    unfold sds_of in Hn. rewrite lookup_fmap in Hn.
    destruct (s_devices s !! dev) as [d|] eqn:Ed; [|done]. injection Hn as <-.
    apply soft_deref; [by eexists|]. by intros ? [= ->].
  Qed.

Lemma hoare_upd_sd f n' :
    (∀ d, sdnode_of d = n → sdnode_of (f d) = n') →
    hoare g (upd_sd sid dev f) (λ _ g', g' = put_sds g sid (<[dev := n']> ds)).
  Proof.
    intros Hf. unfold upd_sd.
    eapply hoare_soft_bind; [apply soft_get_session; by eapply coh_sds|].
    intros s (_&_&_&_&_&_&_&Hd&_). rewrite Hs in Hd. injection Hd as ->.
    unfold sds_of in Hn, Hs. rewrite lookup_fmap in Hn.
    destruct (s_devices s !! dev) as [d|] eqn:Ed; [|done]. injection Hn as Hn'.
    eapply hoare_soft_bind; [apply (soft_deref _ _ (λ d', d' = d)); [by eexists | congruence]|].
    intros ? ->.
    eapply hoare_mono; [apply hoare_upd_session; by eapply coh_sds|].
    intros _ g' (s' & Hr & ->). unfold put_s, put_sds; cbn.
    assert (sds_of s' = sdnode_of <$> s_devices s) as Es.
    { destruct Hr as (_&_&_&_&_&_&_&Hr&_). rewrite Hs in Hr. by injection Hr. }
    unfold sds_of; cbn. rewrite fmap_insert, (Hf d Hn').
    unfold sds_of in Es. rewrite Es. same_row. done.
  Qed.

Lemma soft_session_device_notify t : soft g (session_device_notify sid dev t) (λ _, True).
  Proof.
    unfold session_device_notify.
    eapply soft_bind; [apply soft_get_session; by eapply coh_sds|]. intros s _.
    eapply soft_bind; [apply soft_get_sd|]. intros d _.
    destruct (s_controller s); [apply soft_emit | by apply soft_ret].
  Qed.

Lemma hoare_session_device_stop :
    hoare g (session_device_stop sid dev) (λ _ g',
      g' = put_sds g sid (<[dev := mkSdnode (sn_device n) false (sn_fd_ok n) (sn_known n)]> ds)).
  Proof.
    destruct (wf_sds _ _ Hwf _ _ _ _ Hs Hn) as (Hk&Hf&_).
    unfold session_device_stop. eapply hoare_soft_bind; [apply soft_get_sd|]. intros d Hd.
    pose proof (f_equal sn_active Hd) as Ea. pose proof (f_equal sn_fd_ok Hd) as Ef.
    pose proof (f_equal sn_known Hd) as Ek. cbn in Ea, Ef, Ek.
    destruct (sd_active d) eqn:Ead; cbn [negb].
    - rewrite <- Ea, <- Ef in Hf. specialize (Hf eq_refl). apply Z.leb_le in Hf.
      assert (Hup : hoare g (upd_sd sid dev (λ d, d <| sd_active := false |>)) (λ _ g',
        g' = put_sds g sid
               (<[dev := mkSdnode (sn_device n) false (sn_fd_ok n) (sn_known n)]> ds))).
      { apply hoare_upd_sd. intros d' Hd'. rewrite <- Hd'. done. }
      cbv zeta. destruct (sd_type d) eqn:Et; cbn in Ek.
      + exact Hup.
      + rewrite (proj2 (Z.ltb_ge _ _) Hf).
        eapply hoare_soft_bind; [by apply soft_sd_drmdropmaster|]. by intros _ _.
      + eapply hoare_soft_bind; [by apply soft_sd_revoke|]. by intros _ _.
      + eapply hoare_soft_bind; [by apply soft_sd_revoke|]. by intros _ _.
    - apply hoare_ret. rewrite insert_id, put_sds_id; [done..|].
      rewrite Hn, Ea. by destruct n.
  Qed.

Lemma hoare_session_device_save :
    hoare g (session_device_save sid dev) (λ _ g', g' = g).
  Proof.
    unfold session_device_save. eapply hoare_soft_bind; [apply soft_get_sd|].
    intros d Hd. destruct (sd_pushed_fd d); [by apply hoare_ret|].
    eapply hoare_soft_bind; [apply soft_assert, session_id_no_separators;
      apply (wf_ids _ _ Hwf); by eapply coh_sds|]. intros _ _. cbv zeta.
    destruct (_ <? 0); [by apply hoare_ret|].
    eapply hoare_soft_bind; [apply soft_emit|]. intros _ _.
    eapply hoare_bind; [apply (hoare_upd_sd _ n); by intros d' <-|].
    intros _ g' ->. rewrite insert_id, put_sds_id by done. by apply hoare_ret.
  Qed.
End One.

(** Setting the descriptor, then the active flag, of a device of known type. *)
Lemma hoare_sd_set_fd g sid dev ds n fd :
  coh g → g_sds g !! sid = Some ds → ds !! dev = Some n → 0 ≤ fd →
  hoare g (upd_sd sid dev (λ d, d <| sd_fd := fd |>)) (λ _ g',
    g' = put_sds g sid (<[dev := mkSdnode (sn_device n) (sn_active n) true (sn_known n)]> ds)).
Proof.
  intros Hg Hs Hn Hfd. eapply hoare_upd_sd; [done..|]. intros d <-. unfold sdnode_of; cbn.
  by rewrite (proj2 (Z.leb_le _ _) Hfd).
Qed.
Lemma hoare_sd_activate g sid dev ds n :
  coh g → g_sds g !! sid = Some ds → ds !! dev = Some n →
  hoare g (upd_sd sid dev (λ d, d <| sd_active := true |>)) (λ _ g',
    g' = put_sds g sid (<[dev := mkSdnode (sn_device n) true (sn_fd_ok n) (sn_known n)]> ds)).
Proof. intros Hg Hs Hn. eapply hoare_upd_sd; [done..|]. by intros d <-. Qed.

(** The part of [session_device_start] that reopens a revoked device. *)
Lemma hoare_sd_reopen g sid dev ds n type node :
  coh g → g_sds g !! sid = Some ds → ds !! dev = Some n → type ≠ DEVICE_TYPE_UNKNOWN →
  hoare g (r <- session_device_open type node true ;;
           when (0 <=? r) (upd_sd sid dev (λ d, d <| sd_fd := r |>)) ;;; ret r)
    (λ r g', (r < 0 ∧ g' = g) ∨
       g' = put_sds g sid (<[dev := mkSdnode (sn_device n) (sn_active n) true (sn_known n)]> ds)).
Proof.
  intros Hg Hs Hn Ht. eapply hoare_soft_bind; [by apply soft_session_device_open|].
  intros r _. destruct (0 <=? r) eqn:Er; cbn.
  - apply Z.leb_le in Er. eapply hoare_bind; [by eapply hoare_sd_set_fd|].
    intros _ g' ->. apply hoare_ret. by right.
  - apply Z.leb_gt in Er. eapply hoare_soft_bind; [by apply (soft_ret _ tt (λ _, True))|].
    intros _ _. apply hoare_ret. by left.
Qed.

(** What starting a device may do to it. *)
Definition sd_restarted (g g' : cols) (sid : string) (dev : Z) (ds : gmap Z sdnode)
    (n : sdnode) : Prop :=
  ∃ n', g' = put_sds g sid (<[dev := n']> ds) ∧ sn_device n' = sn_device n ∧ sd_ok n'.

Lemma hoare_session_device_start x g sid dev ds n :
  WF x g → coh g → g_sds g !! sid = Some ds → ds !! dev = Some n → is_active g sid →
  hoare g (session_device_start sid dev) (λ _ g', sd_restarted g g' sid dev ds n).
Proof.
  intros Hwf Hg Hs Hn Hact. destruct (wf_sds _ _ Hwf _ _ _ _ Hs Hn) as (Hk&Hf&_).
  assert (Hsame : sd_restarted g g sid dev ds n).
  { exists n. by rewrite insert_id, put_sds_id. }
  unfold session_device_start. eapply hoare_soft_bind; [by eapply soft_get_sd|]. intros d Hd.
  eapply hoare_soft_bind; [apply (soft_session_is_active x); [done..|by eapply coh_sds]|].
  intros a Ha. eapply hoare_soft_bind; [apply soft_assert; by apply Ha|]. intros _ _.
  pose proof (f_equal sn_active Hd) as Ea. pose proof (f_equal sn_known Hd) as Ek.
  cbn in Ea, Ek. destruct (sd_active d); [by apply hoare_ret|].
  assert (Hre : hoare g
    (r <- (r <- session_device_open (sd_type d) (sd_node d) true ;;
           when (0 <=? r) (upd_sd sid dev (λ d, d <| sd_fd := r |>)) ;;; ret r) ;;
     if r <? 0 then ret r
     else upd_sd sid dev (λ d, d <| sd_active := true |>) ;;; ret 0)
    (λ _ g', sd_restarted g g' sid dev ds n)).
  { eapply hoare_bind; [eapply hoare_sd_reopen; [done..|]; intros Et; rewrite Et, Hk in Ek; done|].
    intros r g' [[Hr ->]| ->]; [rewrite (proj2 (Z.ltb_lt _ _) Hr); by apply hoare_ret|].
    destruct (r <? 0).
    { apply hoare_ret. eexists. split_and!; [done..|]. split; [done|]. by intros _. }
    apply hoare_coh; intros Hg'. eapply hoare_bind.
    { eapply hoare_sd_activate; [done|apply put_sds_lookup|apply lookup_insert_eq]. }
    intros _ g'' ->. rewrite put_sds_twice, insert_insert_eq. apply hoare_ret.
    eexists. split_and!; [done..|]. split; [done|]. by intros _. }
  destruct (sd_type d) eqn:Et; [rewrite Hk in Ek; done| |done..].
  destruct (sd_fd d <? 0) eqn:Ef.
  { eapply hoare_soft_bind; [by apply (soft_ret _ _ (λ r, r = - EBADF))|].
    intros r ->. by apply hoare_ret. }
  apply Z.ltb_ge in Ef. eapply hoare_soft_bind; [by apply soft_sd_drmsetmaster|].
  intros r _. destruct (r <? 0); [by apply hoare_ret|].
  eapply hoare_bind; [by eapply hoare_sd_activate|]. intros _ g' ->. apply hoare_ret.
  eexists. split_and!; [done..|]. split; [done|]. intros _. cbn.
  rewrite <- Hd. cbn. by apply Z.leb_le.
Qed.

(** * All devices of a session *)

(** The links may differ in the state of the devices of [sid] only. *)
Definition devices_changed (g g' : cols) (sid : string) (ds ds' : gmap Z sdnode) : Prop :=
  g' = put_sds g sid ds' ∧ same_devices ds ds' ∧ sds_ok ds'.

(** A session with devices is on a seat, so it is active only as that seat's
    active session; then its devices may be active. *)
Lemma wf_devices_changed g g' sid ds ds' :
  WF ex0 g → g_sds g !! sid = Some ds → is_active g sid →
  devices_changed g g' sid ds ds' → WF ex0 g'.
Proof.
  intros Hwf Hs Hact (->&Hsame&Hok). eapply wf_put_sds; [done..|].
  intros dev n' Hn' _. right. specialize (Hsame dev). rewrite Hn' in Hsame. cbn in Hsame.
  destruct (ds !! dev) as [n|] eqn:En; [|done].
  destruct (wf_sds _ _ Hwf _ _ _ _ Hs En) as (_&_&k&us&Hk&_).
  destruct Hact as [?|?]; [congruence | done].
Qed.

Lemma devices_changed_one g g' sid dev ds n :
  ds !! dev = Some n → sds_ok ds → sd_restarted g g' sid dev ds n →
  ∃ ds', devices_changed g g' sid ds ds'.
Proof.
  intros Hn Hok (n'&->&?&?). exists (<[dev := n']> ds). split; [done|].
  split; [by eapply same_devices_insert | by apply sds_ok_insert].
Qed.

Lemma is_active_put_sds g sid ds sid' : is_active (put_sds g sid ds) sid' ↔ is_active g sid'.
Proof. done. Qed.

Lemma hoare_resume_one g sid dev ds n :
  WF ex0 g → coh g → g_sds g !! sid = Some ds → ds !! dev = Some n → is_active g sid →
  hoare g (resume_one sid dev) (λ _ g', sd_restarted g g' sid dev ds n).
Proof.
  intros Hwf Hg Hs Hn Hact. pose proof (wf_sds_ok _ _ _ _ Hwf Hs) as Hok.
  unfold resume_one. eapply hoare_soft_bind; [by eapply soft_get_sd|]. intros d Hd.
  destruct (sd_active d).
  { apply hoare_ret. exists n. rewrite insert_id, put_sds_id by done. eauto. }
  eapply hoare_bind; [by eapply hoare_session_device_start|].
  intros r g' Hr. destruct (r <? 0); [by apply hoare_ret|].
  apply hoare_coh; intros Hg'.
  destruct (devices_changed_one _ _ _ _ _ _ Hn Hok Hr) as (ds'&Hch).
  pose proof (wf_devices_changed _ _ _ _ _ Hwf Hs Hact Hch) as Hwf'.
  destruct Hr as (n'&->&Hr). eapply hoare_bind.
  { eapply hoare_session_device_save; [done..|apply put_sds_lookup|apply lookup_insert_eq]. }
  intros r' g'' ->. destruct (r' <? 0); [apply hoare_ret; by exists n'|].
  eapply hoare_mono.
  { eapply soft_session_device_notify; [done|apply put_sds_lookup|apply lookup_insert_eq]. }
  intros _ g'' [-> _]. by exists n'.
Qed.

Context {Ok : EnvOk}.

Lemma elem_of_device_order s dev n :
  sds_of s !! dev = Some n → dev ∈ device_order s.
Proof.
  unfold sds_of. rewrite lookup_fmap. destruct (s_devices s !! dev) as [d|] eqn:Ed; [|done].
  intros _. unfold device_order. rewrite (e_order_ok _).
  apply list_elem_of_fmap. exists (dev, d). split; [done|]. by apply elem_of_map_to_list.
Qed.
Lemma device_order_elem s dev : dev ∈ device_order s → is_Some (sds_of s !! dev).
Proof.
  unfold device_order. rewrite (e_order_ok _).
  intros ([? d] & -> & Hin)%list_elem_of_fmap. apply elem_of_map_to_list in Hin.
  unfold sds_of; cbn. rewrite lookup_fmap, Hin. by eexists.
Qed.

Lemma same_devices_Some ds ds' dev :
  same_devices ds ds' → is_Some (ds !! dev) → ∃ n, ds' !! dev = Some n.
Proof.
  intros H [n Hn]. specialize (H dev). rewrite Hn in H.
  destruct (ds' !! dev); [by eexists | done].
Qed.

Lemma hoare_session_device_resume_all g sid ds :
  WF ex0 g → coh g → g_sds g !! sid = Some ds → is_active g sid →
  hoare g (session_device_resume_all sid) (λ _ g', ∃ ds', devices_changed g g' sid ds ds').
Proof.
  intros Hwf Hg Hs Hact. pose proof (wf_sds_ok _ _ _ _ Hwf Hs) as Hok.
  unfold session_device_resume_all.
  eapply hoare_soft_bind; [apply soft_get_session; by eapply coh_sds|].
  intros s (_&_&_&_&_&_&_&Hd&_). rewrite Hs in Hd. injection Hd as ->.
  set (I := λ (l : list Z) (g' : cols), (∀ dev, dev ∈ l → is_Some (sds_of s !! dev)) ∧
                    ∃ ds', devices_changed g g' sid (sds_of s) ds').
  eapply hoare_mono; [apply (hoare_for_each _ _ _ I)|].
  - split; [apply device_order_elem|]. exists (sds_of s).
    by split; [rewrite put_sds_id|].
  - intros dev l' g' (Hl & ds' & Hch). apply hoare_coh; intros Hg'.
    pose proof (wf_devices_changed _ _ _ _ _ Hwf Hs Hact Hch) as Hwf'.
    destruct Hch as (->&Hsame&Hok').
    destruct (same_devices_Some _ _ dev Hsame) as [n Hn]; [apply Hl; left|].
    eapply hoare_mono; [eapply hoare_resume_one; [done|done|apply put_sds_lookup|done|done]|].
    intros _ g'' (n'&->&?&?). split; [intros; apply Hl; by right|].
    exists (<[dev := n']> ds'). split; [by rewrite put_sds_twice|].
    split; [by eapply same_devices_insert | by apply sds_ok_insert].
  - intros _ g' [_ ?]. done.
Qed.

(** ** Pausing *)

Definition all_inactive (ds : gmap Z sdnode) : Prop :=
  ∀ dev n, ds !! dev = Some n → sn_active n = false.

Lemma wf_pause_one x g sid ds ds' :
  WF x g → g_sds g !! sid = Some ds → same_devices ds ds' → sds_ok ds' →
  (∀ dev n', ds' !! dev = Some n' → sn_active n' = true →
     ∃ n, ds !! dev = Some n ∧ sn_active n = true) → WF x (put_sds g sid ds').
Proof.
  intros Hwf Hs ?? Hact. eapply wf_put_sds; [done..|]. intros dev n' Hn' Ha.
  destruct (Hact _ _ Hn' Ha) as (n&Hn&Ha'). by eapply (wf_excl _ _ Hwf).
Qed.

Lemma hoare_pause_one x g sid dev ds n :
  WF x g → coh g → g_sds g !! sid = Some ds → ds !! dev = Some n →
  hoare g (pause_one sid dev) (λ _ g',
    g' = put_sds g sid (<[dev := mkSdnode (sn_device n) false (sn_fd_ok n) (sn_known n)]> ds)).
Proof.
  intros Hwf Hg Hs Hn. unfold pause_one. eapply hoare_soft_bind; [by eapply soft_get_sd|].
  intros d Hd. pose proof (f_equal sn_active Hd) as Ea. cbn in Ea.
  destruct (sd_active d); cbn [negb].
  - eapply hoare_bind; [by eapply hoare_session_device_stop|]. intros _ g' ->.
    apply hoare_coh; intros Hg'. eapply hoare_mono.
    { eapply soft_session_device_notify; [done|apply put_sds_lookup|apply lookup_insert_eq]. }
    by intros _ g' [-> _].
  - apply hoare_ret. rewrite insert_id, put_sds_id; [done..|]. rewrite Hn, Ea. by destruct n.
Qed.

Lemma hoare_session_device_pause_all x g sid ds :
  WF x g → coh g → g_sds g !! sid = Some ds →
  hoare g (session_device_pause_all sid) (λ _ g', ∃ ds',
    devices_changed g g' sid ds ds' ∧ all_inactive ds').
Proof.
  intros Hwf Hg Hs. pose proof (wf_sds_ok _ _ _ _ Hwf Hs) as Hok.
  unfold session_device_pause_all.
  eapply hoare_soft_bind; [apply soft_get_session; by eapply coh_sds|].
  intros s (_&_&_&_&_&_&_&Hd&_). rewrite Hs in Hd. injection Hd as ->.
  set (I := λ (l : list Z) (g' : cols), (∀ dev, dev ∈ l → is_Some (sds_of s !! dev)) ∧
    ∃ ds', devices_changed g g' sid (sds_of s) ds' ∧
      ∀ dev n, ds' !! dev = Some n → sn_active n = true →
        dev ∈ l ∧ ∃ n0, sds_of s !! dev = Some n0 ∧ sn_active n0 = true).
  eapply hoare_mono; [apply (hoare_for_each _ _ _ I)|].
  - split; [apply device_order_elem|]. exists (sds_of s).
    split; [by split; [rewrite put_sds_id|]|]. intros dev n Hn Ha. split; [|eauto].
    by eapply elem_of_device_order.
  - intros dev l' g' (Hl & ds' & (->&Hsame&Hok') & Hact). apply hoare_coh; intros Hg'.
    assert (Hwf' : WF x (put_sds g sid ds')).
    { eapply wf_pause_one; [done..|]. intros dev' n' H1 H2. by destruct (Hact _ _ H1 H2). }
    destruct (same_devices_Some _ _ dev Hsame) as [n Hn]; [apply Hl; left|].
    eapply hoare_mono; [eapply hoare_pause_one; [done|done|apply put_sds_lookup|done]|].
    intros _ g'' ->. split; [intros; apply Hl; by right|].
    eexists. split; [split; [by rewrite put_sds_twice|]|].
    { split; [by eapply same_devices_insert|]. apply sds_ok_insert; [done|].
      split; [exact (proj1 (Hok' _ _ Hn))|done]. }
    intros dev' n' [[<- <-]|[Hne Hn']]%lookup_insert_Some Ha; [done|].
    destruct (Hact _ _ Hn' Ha) as [[->|]%elem_of_cons ?]; [done|]. done.
  - intros _ g' (_ & ds' & ? & Hact). exists ds'. split; [done|].
    intros dev n Hn. apply not_true_is_false. intros Ha.
    destruct (Hact _ _ Hn Ha) as [[]%elem_of_nil _].
Qed.

(** * Freeing *)

(** The links without the device [dev] of [sid]. *)
Definition without_sd (g : cols) (sid : string) (dev : Z) (ds : gmap Z sdnode)
    (d : string) (us : list (string * Z)) : cols :=
  (put_sds g sid (delete dev ds))
    <| g_dusers := <[d := list_remove_all (sid, dev) us]> (g_dusers g) |>.

(** Only the session devices differ. *)
Definition same_but_sds (g g' : cols) : Prop :=
  g' = g <| g_sds := g_sds g' |> <| g_dusers := g_dusers g' |>.

Lemma same_but_sds_refl g : same_but_sds g g.
Proof. by destruct g. Qed.
Lemma same_but_sds_trans g g' g'' :
  same_but_sds g g' → same_but_sds g' g'' → same_but_sds g g''.
Proof. unfold same_but_sds. intros -> ->. done. Qed.
Lemma same_but_sds_without g sid dev ds d us : same_but_sds g (without_sd g sid dev ds d us).
Proof. done. Qed.

Lemma wf_without_sd x g sid dev ds n us :
  WF x g → g_sds g !! sid = Some ds → ds !! dev = Some n →
  g_dusers g !! sn_device n = Some us →
  WF x (without_sd g sid dev ds (sn_device n) us).
Proof.
  intros Hwf Hs Hn Hus. unfold without_sd. destruct Hwf; constructor; cbn; try assumption.
  - intros sid' ds' dev' n' Hs' Hn'.
    assert (Hold : ∃ ds0, g_sds g !! sid' = Some ds0 ∧ ds0 !! dev' = Some n' ∧
                          (sid', dev') ≠ (sid, dev)).
    { apply lookup_insert_Some in Hs' as [[<- <-]|[Hne Hs']].
      - apply lookup_delete_Some in Hn' as [Hne Hn']. exists ds. split_and!; [done|done|]. intros [=]; by destruct Hne.
      - exists ds'. split_and!; [done|done|]. intros [=]; by destruct Hne. }
    destruct Hold as (ds0&H1&H2&Hne). destruct (wf_sds _ _ _ _ H1 H2) as (?&?&k&us'&?&?&Hd&?).
    split; [done|]. split; [done|]. exists k.
    destruct (decide (sn_device n' = sn_device n)) as [Edn|].
    + rewrite Edn in *. rewrite lookup_insert_eq. assert (us' = us) as -> by congruence.
      eexists. split_and!; [done..|]. by apply elem_of_list_remove_all.
    + rewrite lookup_insert_ne by done. by exists us'.
  - intros d us' Hd.
    assert (Hold : ∃ us0, g_dusers g !! d = Some us0 ∧ NoDup us' ∧
              ∀ p, p ∈ us' → p ∈ us0 ∧ (d = sn_device n → p ≠ (sid, dev))).
    { apply lookup_insert_Some in Hd as [[<- <-]|[Hne Hd]].
      - exists us. split; [done|]. split.
        { apply NoDup_list_remove_all. by destruct (wf_dusers _ _ Hus). }
        intros p [? ?]%elem_of_list_remove_all. by split.
      - exists us'. split_and!; [done|by destruct (wf_dusers _ _ Hd)|].
        intros p ?. split; [done|congruence]. }
    destruct Hold as (us0&H0&Hnd&Hin). split; [done|]. intros sid' dev' Hp.
    destruct (Hin _ Hp) as [Hp0 Hne]. destruct (wf_dusers _ _ H0) as [_ Hlk].
    destruct (Hlk _ _ Hp0) as (ds1&n1&H1&H2&H3).
    destruct (decide (sid' = sid)) as [->|].
    + rewrite lookup_insert_eq. assert (ds1 = ds) as -> by congruence.
      exists (delete dev ds), n1. split_and!; [done| |done].
      rewrite lookup_delete_ne; [done|]. intros <-.
      assert (n1 = n) as -> by congruence. by apply Hne.
    + rewrite lookup_insert_ne by done. by exists ds1, n1.
  - intros sid' ds' dev' n' Hs' Hn' Ha. apply lookup_insert_Some in Hs' as [[<- <-]|[Hne Hs']].
    + apply lookup_delete_Some in Hn' as [Hne Hn']. eauto.
    + eauto.
Qed.

Lemma hoare_session_device_free x g sid dev ds n us :
  WF x g → coh g → g_sds g !! sid = Some ds → ds !! dev = Some n →
  g_dusers g !! sn_device n = Some us →
  hoare g (session_device_free sid dev) (λ _ g',
    g' = without_sd g sid dev ds (sn_device n) us).
Proof.
  intros Hwf Hg Hs Hn Hus. unfold session_device_free.
  eapply hoare_soft_bind; [by eapply soft_get_sd|]. intros d Hd.
  eapply hoare_soft_bind; [apply soft_when; intros; apply soft_emit|]. intros _ _.
  eapply hoare_bind; [by eapply hoare_session_device_stop|]. intros _ g1 ->.
  apply hoare_coh; intros Hg1.
  eapply hoare_soft_bind.
  { eapply soft_session_device_notify; [done|apply put_sds_lookup|apply lookup_insert_eq]. }
  intros _ _. pose proof (f_equal sn_device Hd) as Ed. cbn in Ed. rewrite Ed.
  assert (Hd1 : has_d g (sn_device n)) by (by eapply coh_dusers).
  eapply hoare_bind; [by apply hoare_upd_device|]. intros _ g2 (v&Hv&->).
  apply hoare_coh; intros Hg2.
  eapply hoare_mono; [apply hoare_upd_session, (coh_sds _ Hg2 _ _ (lookup_insert_eq _ _ _))|].
  intros _ g3 (s&Hr&->). unfold without_sd, put_sds.
  assert (Es : sds_of s = <[dev:=mkSdnode (sn_device n) false (sn_fd_ok n) (sn_known n)]> ds).
  { destruct Hr as (_&_&_&_&_&_&_&Hr&_). cbn in Hr. rewrite lookup_insert_eq in Hr. congruence. }
  assert (Ev : d_session_devices v = us).
  { destruct Hv as (_&Hv). cbn in Hv. congruence. }
  assert (Esd : sds_of (s <| s_devices := delete dev (s_devices s) |>) = delete dev ds).
  { unfold sds_of in *; cbn. rewrite fmap_delete, Es. by rewrite delete_insert_eq. }
  same_row. cbn in *. rewrite Esd, Ev.
  repeat match goal with
  | H : ?c !! ?i = Some ?x |- context [<[?i := ?x]> ?c] => rewrite (insert_id c i x H)
  end.
  by rewrite insert_insert_eq.
Qed.

(** The same with what the invariant says of the device. *)
Lemma hoare_session_device_free' x g sid dev ds n :
  WF x g → coh g → g_sds g !! sid = Some ds → ds !! dev = Some n →
  hoare g (session_device_free sid dev) (λ _ g', WF x g' ∧ same_but_sds g g' ∧
    g_sds g' = <[sid := delete dev ds]> (g_sds g) ∧
    ∃ us, g_dusers g !! sn_device n = Some us ∧
      g_dusers g' = <[sn_device n := list_remove_all (sid, dev) us]> (g_dusers g)).
Proof.
  intros Hwf Hg Hs Hn. destruct (wf_sds _ _ Hwf _ _ _ _ Hs Hn) as (_&_&k&us&_&_&Hus&_).
  eapply hoare_mono; [by eapply hoare_session_device_free|]. intros _ g' ->.
  split; [by eapply wf_without_sd|]. split; [done|]. split; [done|]. by exists us.
Qed.

(** What freeing all devices of [sid] leaves. *)
Definition devices_freed (g g' : cols) (sid : string) : Prop :=
  same_but_sds g g' ∧ g_sds g' = <[sid := ∅]> (g_sds g).

Lemma hoare_free_session_devices x fuel g sid ds :
  WF x g → coh g → g_sds g !! sid = Some ds → (size ds ≤ fuel)%nat →
  hoare g (free_session_devices fuel sid) (λ _ g', WF x g' ∧ devices_freed g g' sid).
Proof.
  revert g ds. induction fuel as [|fuel IH]; intros g ds Hwf Hg Hs Hf;
    cbn [free_session_devices];
    (eapply hoare_soft_bind; [apply soft_get_session; by eapply coh_sds|]);
    intros s (_&_&_&_&_&_&_&Hd&_); rewrite Hs in Hd; injection Hd as ->;
    destruct (device_order s) as [|dev l] eqn:El.
  1,3: apply hoare_ret; split; [done|]; split; [apply same_but_sds_refl|];
    assert (sds_of s = ∅) as Es by
      (apply map_eq; intros i; rewrite lookup_empty; apply eq_None_not_Some;
       intros [n Hn]; apply elem_of_device_order in Hn; rewrite El in Hn;
       by apply elem_of_nil in Hn);
    by rewrite <- Es, insert_id.
  - exfalso. assert (dev ∈ device_order s) as [n Hn]%device_order_elem by (rewrite El; left).
    assert (sds_of s = ∅) as Es by (apply map_size_empty_inv; lia).
    by rewrite Es, lookup_empty in Hn.
  - assert (dev ∈ device_order s) as [n Hn]%device_order_elem by (rewrite El; left).
    eapply hoare_bind; [by eapply hoare_session_device_free'|].
    intros _ g1 (Hwf1&Hsame&Hs1&_). apply hoare_coh; intros Hg1.
    eapply hoare_mono; [eapply IH; [done|done|by rewrite Hs1, lookup_insert_eq|]|].
    + rewrite map_size_delete_Some by by eexists. lia.
    + intros _ g2 (?&Hsame2&Hs2). split; [done|]. split; [by eapply same_but_sds_trans|].
      by rewrite Hs2, Hs1, insert_insert_eq.
Qed.

Lemma hoare_session_free_devices x g sid :
  WF x g → coh g → has_s g sid →
  hoare g (session_free_devices sid) (λ _ g', WF x g' ∧ devices_freed g g' sid).
Proof.
  intros Hwf Hg Hs. unfold session_free_devices.
  eapply hoare_soft_bind; [by apply soft_get_session|]. intros s (_&_&_&_&_&_&_&Hd&_).
  eapply hoare_free_session_devices; [done..|]. unfold sds_of. by rewrite map_size_fmap.
Qed.
End Device.
#[export] Hint Resolve soft_session_device_notify soft_session_device_open : soft.
