(* ===== verification/LinksSeat.v ===== *)
(** The seats keep the links well-formed: activating sessions, positions,
    attaching sessions, the queue, and starting. *)
From S2P Require Import Prelude Time LoginTypes ActionTypes LoginState LoginEnv Objects SessionDevice Seat Cols Links LinksObjects LinksDevice.

(** * What an operation changes *)

(** Only session devices and the active and pending sessions of seats differ. *)
Definition same_but_act (g g' : cols) : Prop :=
  g' = g <| g_sds := g_sds g' |> <| g_dusers := g_dusers g' |>
         <| g_active := g_active g' |> <| g_pending := g_pending g' |>.

Lemma same_but_act_refl g : same_but_act g g.
Proof. by destruct g. Qed.
Lemma same_but_act_trans g g' g'' :
  same_but_act g g' → same_but_act g' g'' → same_but_act g g''.
Proof. unfold same_but_act. intros -> ->. done. Qed.
Lemma same_but_act_changed g g' sid ds ds' :
  devices_changed g g' sid ds ds' → same_but_act g g'.
Proof. intros (->&_). by destruct g. Qed.

Lemma coh_sds_of g sid : coh g → has_s g sid → ∃ ds, g_sds g !! sid = Some ds.
Proof. intros Hg Hs. destruct (coh_row _ Hg _ Hs) as (s&_&_&_&_&_&_&_&?&_). eauto. Qed.

(** * The active session *)

(** Once its devices are inactive, a session needs no exemption. *)
Lemma wf_paused u v w b g old ds :
  WF (mkExempt (Some old) u v w b) g → g_sds g !! old = Some ds → all_inactive ds →
  WF (mkExempt None u v w b) g.
Proof.
  intros Hwf Hs Hin. destruct Hwf; constructor; try assumption.
  intros sid ds' dev n H1 H2 H3. destruct (wf_excl _ _ _ _ H1 H2 H3) as [[= <-]|?]; [|by right].
  exfalso. assert (ds' = ds) as -> by congruence. by rewrite (Hin _ _ H2) in H3.
Qed.

Lemma wf_set_active {Bt : Boot} g k old session :
  WF ex0 g → g_active g !! k = Some old →
  (∀ sid, session = Some sid → g_seat g !! sid = Some (Some k)) →
  WF (mkExempt old None None None Bt) (g <| g_active := <[k := session]> (g_active g) |>).
Proof.
  intros Hwf Ha Hsess. destruct Hwf; constructor; cbn; try assumption.
  - intros k' a [[<- ->]|[? ?]]%lookup_insert_Some; eauto.
  - intros sid ds dev n H1 H2 H3.
    destruct (wf_excl _ _ _ _ H1 H2 H3) as [[=]|(k'&Hk&Hk')].
    destruct (decide (k = k')) as [<-|Hne].
    + left. congruence.
    + right. exists k'. by rewrite lookup_insert_ne.
Qed.

Section Seat.
Context {E : Env} {Bt : Boot}.

Lemma soft_seat_apply_acls x g k old :
  WF x g → coh g → has_t g k →
  (∀ o, old = Some o → ∃ uid, g_user g !! o = Some (Some uid)) →
  soft g (seat_apply_acls k old) (λ _, True).
Proof.
  intros Hwf Hg Hk Hold. unfold seat_apply_acls.
  eapply soft_bind; [by apply soft_get_seat|]. intros s Hr.
  eapply (soft_bind _ _ _ (λ _, True)).
  { destruct old as [o|]; [|by apply soft_ret]. destruct (Hold o eq_refl) as [uid Hu].
    eapply soft_bind; [by eapply soft_session_uid|]. intros. by apply soft_ret. }
  intros ? _. eapply (soft_bind _ _ _ (λ _, True)).
  { destruct (se_active s) as [act|] eqn:Ea; [|by apply soft_ret].
    eapply soft_bind; [eapply soft_session_uid_seat; eauto with links|].
    intros. by apply soft_ret. }
  intros ? _. apply soft_emit.
Qed.

Lemma soft_session_user_save x g sid uid :
  WF x g → coh g → g_user g !! sid = Some (Some uid) →
  soft g (session_user_save sid) (λ _, True).
Proof.
  intros Hwf Hg Hu. unfold session_user_save.
  eapply soft_bind; [apply soft_get_session; by eexists|]. intros s Hr.
  destruct Hr as (Hu'&_). assert (s_user s = Some uid) as -> by congruence.
  eapply soft_bind; [apply (soft_deref _ _ (λ u, u = uid)); [by eexists | congruence]|].
  intros ? ->. apply soft_ignore. eapply soft_user_save; eauto with links.
Qed.

Context {Ok : EnvOk}.

(** The part of [seat_set_active] before the new session is resumed. *)
Definition seat_deactivate (old : option string) : MM unit :=
  match old with
  | None => ret tt
  | Some o => session_device_pause_all o ;;; session_send_changed o ["Active"%string]
  end.

Lemma hoare_seat_deactivate g old :
  WF (mkExempt old None None None Bt) g → coh g → (∀ o, old = Some o → has_s g o) →
  hoare g (seat_deactivate old) (λ _ g', WF ex0 g' ∧ same_but_sds g g').
Proof.
  intros Hwf Hg Hold. unfold seat_deactivate. destruct old as [o|].
  - destruct (coh_sds_of _ _ Hg (Hold o eq_refl)) as [ds Hs].
    eapply hoare_bind; [by eapply hoare_session_device_pause_all|].
    intros _ g1 (ds'&(->&Hsame&Hok)&Hin). apply hoare_coh; intros Hg1.
    eapply hoare_mono; [apply soft_session_send_changed; by eapply coh_sds, put_sds_lookup|].
    intros _ g2 [-> _]. split; [|by destruct g].
    eapply wf_paused; [|apply put_sds_lookup|done]. eapply wf_put_sds; [done..|].
    intros dev n Hn Ha. by rewrite (Hin _ _ Hn) in Ha.
  - apply hoare_ret. split; [done | apply same_but_sds_refl].
Qed.

(** The signals and state files at the end of [seat_set_active]. *)
Lemma soft_seat_set_active_saves g k old session (b : bool) :
  WF ex0 g → coh g → has_t g k →
  (∀ sid, session = Some sid → g_seat g !! sid = Some (Some k)) →
  (∀ o, old = Some o → g_seat g !! o = Some (Some k)) →
  soft g (when b (seat_send_changed k ["ActiveSession"%string]) ;;;
    ignore (seat_save k) ;;;
    (match session with
     | None => ret tt
     | Some sid => ignore (session_save sid) ;;; session_user_save sid
     end) ;;;
    match old with
    | None => ret tt
    | Some old =>
        ignore (session_save old) ;;;
        o <- get_session old ;;
        new_user <- (match session with
                     | None => ret None
                     | Some sid => x <- get_session sid ;; ret (Some (s_user x))
                     end) ;;
        when (negb (bool_decide (new_user = Some (s_user o)))) (session_user_save old)
    end) (λ _, True).
Proof.
  intros Hwf Hg Hk Hnew Hold.
  eapply soft_bind; [apply soft_when; intros; by apply soft_seat_send_changed|]. intros _ _.
  eapply soft_bind; [apply soft_ignore; by eapply soft_seat_save|]. intros _ _.
  eapply (soft_bind _ _ _ (λ _, True)).
  { destruct session as [sid|]; [|by apply soft_ret]. specialize (Hnew sid eq_refl).
    destruct (follow_seat_user _ _ Hwf _ _ Hnew) as [uid Hu].
    eapply soft_bind; [apply soft_ignore; eapply soft_session_save; eauto with links|].
    intros _ _. by eapply soft_session_user_save. }
  intros _ _. destruct old as [o|]; [|by apply soft_ret]. specialize (Hold o eq_refl).
  destruct (follow_seat_user _ _ Hwf _ _ Hold) as [uid Hu].
  eapply soft_bind; [apply soft_ignore; eapply soft_session_save; eauto with links|].
  intros _ _. eapply soft_bind; [apply soft_get_session; eauto with links|]. intros s _.
  eapply (soft_bind _ _ _ (λ _, True)).
  { destruct session as [sid|]; [|by apply soft_ret]. specialize (Hnew sid eq_refl).
    eapply soft_bind; [apply soft_get_session; eauto with links|]. intros. by apply soft_ret. }
  intros ? _. apply soft_when. intros _. by eapply soft_session_user_save.
Qed.

(** The session becomes the active one; only session devices change besides. *)
Definition activated (g g' : cols) (k : string) (session : option string) : Prop :=
  same_but_act g g' ∧ g_active g' = <[k := session]> (g_active g) ∧ g_pending g' = g_pending g.

Lemma hoare_seat_set_active g k session :
  WF ex0 g → coh g → has_t g k →
  (∀ sid, session = Some sid → g_seat g !! sid = Some (Some k)) →
  hoare g (seat_set_active k session) (λ _ g', WF ex0 g' ∧ activated g g' k session).
Proof.
  intros Hwf Hg Hk Hsess. unfold seat_set_active.
  eapply hoare_soft_bind; [by apply soft_get_seat|]. intros s Hr.
  assert (Hact : g_active g !! k = Some (se_active s)) by apply Hr.
  eapply (hoare_soft_bind _ _ _ (λ _, True)).
  { destruct session as [sid|]; [|by apply soft_ret]. specialize (Hsess sid eq_refl).
    eapply soft_bind; [apply soft_get_session; eauto with links|]. intros x (_&Hx&_).
    apply soft_assert. apply bool_decide_eq_true. congruence. }
  intros _ _. case_bool_decide as Heq.
  - rewrite Heq. destruct (se_active s) as [sid|] eqn:Es.
    + subst session. specialize (Hsess sid eq_refl).
      destruct (coh_sds_of g sid Hg) as [ds Hds]; [eauto with links|].
      assert (is_active g sid) by (right; by exists k).
      eapply hoare_mono; [by eapply hoare_session_device_resume_all|].
      intros _ g' (ds'&Hch). split; [by eapply wf_devices_changed|].
      split; [by eapply same_but_act_changed|]. destruct Hch as (->&_). cbn.
      by rewrite insert_id.
    + apply hoare_ret. split; [done|]. split; [apply same_but_act_refl|].
      by rewrite insert_id.
  - assert (Hold : ∀ o, se_active s = Some o → g_seat g !! o = Some (Some k)).
    { intros o Ho. eauto with links. }
    eapply hoare_bind; [by apply hoare_upd_seat|]. intros _ g1 (s1&Hr1&->).
    assert (Hg1 : put_t g k (s1 <| se_active := session |>)
                  = g <| g_active := <[k := session]> (g_active g) |>) by (same_row; done).
    rewrite Hg1. clear Hg1 Hr1 s1. apply hoare_coh; intros Hg1.
    pose proof (wf_set_active _ _ _ _ Hwf Hact Hsess) as Hwf1.
    eapply hoare_bind.
    { eapply hoare_seat_deactivate; [exact Hwf1|done|]. intros o Ho.
      apply (coh_seat _ Hg _ _ (Hold o Ho)). }
    intros _ g2 (Hwf2&Hsame2). apply hoare_coh; intros Hg2.
    assert (Hs2 : g_seat g2 = g_seat g ∧ g_user g2 = g_user g ∧ g_tsess g2 = g_tsess g
      ∧ g_active g2 = <[k := session]> (g_active g) ∧ g_pending g2 = g_pending g)
      by (rewrite Hsame2; done).
    destruct Hs2 as (Eseat&Euser&Etsess&Eact&Epend).
    assert (Hk2 : has_t g2 k) by (unfold has_t; by rewrite Etsess).
    eapply hoare_soft_bind.
    { eapply soft_seat_apply_acls; [done..|]. intros o Ho. rewrite Euser.
      eapply follow_seat_user; [exact Hwf|]. by apply Hold. }
    intros _ _. eapply (hoare_soft_bind _ _ _ (λ _, True)).
    { destruct session as [sid|]; [|by apply soft_ret]. specialize (Hsess sid eq_refl).
      rewrite <- Eseat in Hsess.
      eapply soft_bind; [apply soft_get_session; eauto with links|]. intros. by apply soft_ret. }
    intros started _.
    apply (hoare_bind _ _ _ (λ _ g3, WF ex0 g3 ∧ same_but_sds g2 g3)).
    { destruct session as [sid|];
        [|apply hoare_ret; split; [done|apply same_but_sds_refl]].
      specialize (Hsess sid eq_refl). apply hoare_when;
        [|intros _; split; [done|apply same_but_sds_refl]]. intros _.
      assert (g_seat g2 !! sid = Some (Some k)) by by rewrite Eseat.
      eapply hoare_soft_bind; [apply soft_session_send_changed; eauto with links|]. intros _ _.
      destruct (coh_sds_of g2 sid Hg2) as [ds Hds]; [eauto with links|].
      assert (is_active g2 sid) by (right; exists k; by rewrite Eact, lookup_insert_eq).
      eapply hoare_mono; [by eapply hoare_session_device_resume_all|].
      intros _ g' (ds'&Hch). split; [by eapply wf_devices_changed|].
      destruct Hch as (->&_). by destruct g2. }
    intros _ g3 (Hwf3&Hsame3). apply hoare_coh; intros Hg3.
    eapply hoare_mono.
    { eapply soft_seat_set_active_saves; [done|done|..]; rewrite Hsame3; cbn; rewrite ?Eseat;
        [done|exact Hsess|exact Hold]. }
    intros _ g4 [-> _]. split; [done|]. split; [|by rewrite Hsame3; cbn; rewrite Eact, Epend].
    rewrite Hsame3, Hsame2. done.
Qed.

Lemma wf_take_pending x g k :
  WF x g → WF x (g <| g_pending := <[k := None]> (g_pending g) |>).
Proof.
  intros Hwf. destruct Hwf; constructor; cbn; try assumption.
  intros k' a [[? [=]]|[? ?]]%lookup_insert_Some; eauto.
Qed.

(** A pending switch is completed, or nothing happens. *)
Lemma hoare_seat_complete_switch g k :
  WF ex0 g → coh g → has_t g k →
  hoare g (seat_complete_switch k) (λ _ g', WF ex0 g' ∧ same_but_act g g').
Proof.
  intros Hwf Hg Hk. unfold seat_complete_switch.
  eapply hoare_soft_bind; [by apply soft_get_seat|]. intros s Hr.
  destruct (se_pending_switch s) as [sid|] eqn:Ep;
    [|apply hoare_ret; split; [done|apply same_but_act_refl]].
  assert (Hsid : g_seat g !! sid = Some (Some k)) by eauto with links.
  eapply hoare_bind; [by apply hoare_upd_seat|]. intros _ g1 (s1&Hr1&->).
  assert (Hg1 : put_t g k (s1 <| se_pending_switch := None |>)
                = g <| g_pending := <[k := None]> (g_pending g) |>) by (same_row; done).
  rewrite Hg1. apply hoare_coh; intros Hc1.
  eapply hoare_mono; [eapply hoare_seat_set_active; [by apply wf_take_pending|done|done|]|].
  - intros ? [= <-]. done.
  - intros _ g' (?&Hs&_). split; [done|]. unfold same_but_act in *. rewrite Hs. done.
Qed.

(** * Virtual terminals *)

Lemma soft_find_on_vt x g p vtnr k l :
  WF x g → coh g → (∀ i, i ∈ l → g_seat g !! i = Some (Some k)) →
  soft g (find_on_vt p vtnr l) (λ o, ∀ i, o = Some i → g_seat g !! i = Some (Some k)).
Proof.
  intros Hwf Hg. induction l as [|i l IH]; intros Hl; cbn; [by apply soft_ret|].
  assert (Hi : g_seat g !! i = Some (Some k)) by (apply Hl; left).
  eapply soft_bind; [apply soft_get_session; eauto with links|]. intros s _.
  destruct (_ && _); [apply soft_ret; by intros ? [= <-]|].
  apply IH. intros. apply Hl. by right.
Qed.

Lemma hoare_seat_active_vt_changed g k vtnr :
  WF ex0 g → coh g → has_t g k → 1 ≤ vtnr →
  hoare g (seat_active_vt_changed k vtnr) (λ _ g', WF ex0 g' ∧ same_but_act g g').
Proof.
  intros Hwf Hg Hk Hv. unfold seat_active_vt_changed.
  eapply hoare_soft_bind; [by apply soft_get_seat|]. intros s Hr.
  eapply hoare_soft_bind; [apply soft_assert; by apply Z.leb_le|]. intros _ _.
  eapply hoare_soft_bind; [apply soft_seat_has_vts|]. intros vts _.
  destruct (negb vts); [apply hoare_ret; split; [done|apply same_but_act_refl]|].
  assert (Hl : ∀ i, i ∈ se_sessions s → g_seat g !! i = Some (Some k)) by eauto with links.
  eapply hoare_soft_bind; [by eapply soft_find_on_vt|]. intros r Hrun.
  eapply (hoare_soft_bind _ _ _ (λ o, ∀ i, o = Some i → g_seat g !! i = Some (Some k))).
  { destruct r as [i|]; [by apply soft_ret | by eapply soft_find_on_vt]. }
  intros new Hnew. eapply hoare_bind; [by eapply hoare_seat_set_active|].
  intros _ g' (?&?&_). by apply hoare_ret.
Qed.

Lemma hoare_seat_read_active_vt g k :
  WF ex0 g → coh g → has_t g k →
  hoare g (seat_read_active_vt k) (λ _ g', WF ex0 g' ∧ same_but_act g g').
Proof.
  intros Hwf Hg Hk. unfold seat_read_active_vt.
  eapply hoare_soft_bind; [apply soft_seat_has_vts|]. intros vts _.
  pose proof (same_but_act_refl g) as Hrefl.
  destruct (negb vts); [by apply hoare_ret|].
  destruct (e_console_lseek <? 0) eqn:E1; [by apply hoare_ret|].
  destruct (e_console_read <=? 0) eqn:E2; [by apply hoare_ret|].
  destruct (e_console_vtnr <? 0) eqn:E3; [by apply hoare_ret|].
  apply hoare_seat_active_vt_changed; [done..|].
  assert (e_console_vtnr ≠ 0) by (apply e_console_vtnr_ok; lia). lia.
Qed.
End Seat.
