(* ===== verification/LinksPositions.v ===== *)
(** The table of positions of a seat keeps the links well-formed: evicting and
    claiming positions, attaching sessions. *)
From S2P Require Import Prelude Time LoginTypes ActionTypes LoginState LoginEnv Objects SessionDevice Seat Cols Links LinksObjects LinksDevice LinksSeat.

(** Only the positions of sessions and the tables of seats differ. *)
Definition same_but_pos (g g' : cols) : Prop :=
  g' = g <| g_pos := g_pos g' |> <| g_positions := g_positions g' |>.

Lemma same_but_pos_refl g : same_but_pos g g.
Proof. by destruct g. Qed.
Lemma same_but_pos_trans g g' g'' :
  same_but_pos g g' → same_but_pos g' g'' → same_but_pos g g''.
Proof. unfold same_but_pos. intros -> ->. done. Qed.

Definition positions_ok (g : cols) : Prop :=
  (∀ sid p, g_pos g !! sid = Some p → 0 ≤ p < UINT_MAX) ∧
  ∀ k ps p sid, g_positions g !! k = Some ps → ps !! p = Some (Some sid) →
    (0 < p)%nat ∧ g_seat g !! sid = Some (Some k) ∧ g_pos g !! sid = Some (Z.of_nat p).

Lemma wf_positions_ok x g : WF x g → positions_ok g.
Proof. intros Hwf. split; [apply (wf_pos _ _ Hwf) | apply (wf_positions _ _ Hwf)]. Qed.
Lemma wf_same_but_pos x g g' : WF x g → same_but_pos g g' → positions_ok g' → WF x g'.
Proof.
  intros Hwf Hs [H1 H2]. unfold same_but_pos in Hs.
  destruct Hwf; constructor; try assumption; rewrite Hs; cbn; assumption.
Qed.

Lemma hoare_set_position g k pos v ps :
  coh g → g_positions g !! k = Some ps → 0 ≤ pos < Z.of_nat (length ps) →
  hoare g (set_position k pos v) (λ _ g',
    g' = g <| g_positions := <[k := <[Z.to_nat pos := v]> ps]> (g_positions g) |>).
Proof.
  intros Hg Hps Hpos.
  assert (Ht : has_t g k) by by eapply coh_positions.
  unfold set_position. eapply hoare_soft_bind; [by apply soft_get_seat|]. intros s Hr.
  assert (se_positions s = ps) as Es by (destruct Hr as (_&_&_&Hp&_); congruence).
  rewrite Es, (proj2 (Z.leb_le _ _)), (proj2 (Z.ltb_lt _ _)) by lia. cbn [andb].
  eapply hoare_mono; [by apply hoare_upd_seat|]. intros _ g' (s'&Hr'&->).
  assert (se_positions s' = ps) as Es' by (destruct Hr' as (_&_&_&Hp&_); congruence).
  unfold put_t; cbn. rewrite Es'. clear Hr. same_row. done.
Qed.

Lemma soft_find_claimant x g pos l :
  WF x g → coh g → (∀ i, i ∈ l → has_s g i) →
  soft g (find_claimant pos l) (λ o, ∀ i, o = Some i → i ∈ l ∧ g_pos g !! i = Some pos).
Proof.
  intros Hwf Hg. induction l as [|i l IH]; intros Hl; cbn; [by apply soft_ret|].
  assert (Htl : soft g (find_claimant pos l)
                  (λ o, ∀ j, o = Some j → j ∈ i :: l ∧ g_pos g !! j = Some pos)).
  { eapply soft_mono; [apply IH; intros; apply Hl; by right|].
    intros o Ho j Hj. destruct (Ho _ Hj). split; [by right | done]. }
  assert (Hi : has_s g i) by (apply Hl; left).
  eapply soft_bind; [by apply soft_get_session|]. intros s Hr.
  destruct (s_position s =? pos) eqn:Ep; [|done]. apply Z.eqb_eq in Ep.
  eapply soft_bind; [by eapply soft_session_get_state|]. intros st _.
  case_bool_decide; [done|]. apply soft_ret. intros ? [= <-]. split; [left|].
  destruct Hr as (_&_&Hp&_). congruence.
Qed.

(** What evicting [sid] leaves: it has no position, and the tables keep their
    lengths. *)
Definition same_lengths (g g' : cols) : Prop :=
  ∀ k, length <$> g_positions g' !! k = length <$> g_positions g !! k.
Definition evicted (g g' : cols) (sid : string) : Prop :=
  same_but_pos g g' ∧ g_pos g' = <[sid := 0]> (g_pos g) ∧ same_lengths g g'.

Lemma same_lengths_insert g k ps ps' :
  g_positions g !! k = Some ps → length ps' = length ps →
  same_lengths g (g <| g_positions := <[k := ps']> (g_positions g) |>).
Proof.
  intros H Hl k'. cbn. destruct (decide (k = k')) as [<-|].
  - rewrite lookup_insert_eq, H. cbn. by rewrite Hl.
  - by rewrite lookup_insert_ne.
Qed.

(** Position [p] of [k] is given to [v], and the sessions' positions become
    [pos']. *)
Lemma positions_ok_update g k ps p v pos' :
  positions_ok g → g_positions g !! k = Some ps →
  (∀ sid q, pos' !! sid = Some q → 0 ≤ q < UINT_MAX) →
  (∀ k' ps' q sid, g_positions g !! k' = Some ps' → ps' !! q = Some (Some sid) →
     (k', q) ≠ (k, p) → pos' !! sid = g_pos g !! sid) →
  (∀ sid, v = Some sid → (0 < p)%nat ∧ g_seat g !! sid = Some (Some k) ∧
     pos' !! sid = Some (Z.of_nat p)) →
  positions_ok (g <| g_pos := pos' |>
                  <| g_positions := <[k := <[p := v]> ps]> (g_positions g) |>).
Proof.
  intros [H1 H2] Hps Hpos Hother Hv. split; cbn; [done|].
  intros k' ps' q sid Hk Hq. apply lookup_insert_Some in Hk as [[<- <-]|[Hne Hk]].
  - apply list_lookup_insert_Some in Hq as [(<-&->&_)|[Hne Hq]]; [by apply Hv|].
    destruct (H2 _ _ _ _ Hps Hq) as (?&?&?). split_and!; [done..|].
    rewrite (Hother _ _ _ _ Hps Hq); [done | congruence].
  - destruct (H2 _ _ _ _ Hk Hq) as (?&?&?). split_and!; [done..|].
    rewrite (Hother _ _ _ _ Hk Hq); [done | congruence].
Qed.

Section Positions.
Context {E : Env} {Bt : Boot}.

Lemma hoare_seat_evict_position x g k sid :
  WF x g → coh g → g_seat g !! sid = Some (Some k) →
  hoare g (seat_evict_position k sid) (λ _ g', WF x g' ∧ evicted g g' sid).
Proof.
  intros Hwf Hg Hk. pose proof (wf_positions_ok _ _ Hwf) as Hok.
  assert (Hs : has_s g sid) by eauto with links.
  assert (Ht : has_t g k) by eauto with links.
  unfold seat_evict_position. eapply hoare_soft_bind; [by apply soft_get_session|].
  intros s Hr. assert (Hpos : g_pos g !! sid = Some (s_position s)) by apply Hr. cbv zeta.
  eapply hoare_bind; [by apply hoare_upd_session|]. intros _ g1 (s1&Hr1&->).
  assert (Hg1 : put_s g sid (s1 <| s_position := 0 |>) = g <| g_pos := <[sid := 0]> (g_pos g) |>)
    by (clear Hr; same_row; done).
  rewrite Hg1. clear Hg1 Hr1 s1. apply hoare_coh; intros Hg1.
  assert (Hsame1 : same_but_pos g (g <| g_pos := <[sid := 0]> (g_pos g) |>)) by by destruct g.
  assert (Hpos1 : ∀ i q, <[sid := 0]> (g_pos g) !! i = Some q → 0 ≤ q < UINT_MAX).
  { intros i q [[_ <-]|[_ Hq]]%lookup_insert_Some; [done|]. by apply (wf_pos _ _ Hwf) in Hq. }
  destruct (s_position s =? 0) eqn:E0.
  { apply Z.eqb_eq in E0. apply hoare_ret. rewrite E0 in Hpos.
    split; [|split; [done|split; [done|by intros ?]]].
    rewrite insert_id by done. by destruct g. }
  apply Z.eqb_neq in E0. assert (0 < s_position s) by (pose proof (wf_pos _ _ Hwf _ _ Hpos); lia).
  eapply hoare_soft_bind; [by apply soft_get_seat|]. intros t Hrt.
  assert (Hps : g_positions g !! k = Some (se_positions t)) by apply Hrt.
  destruct (_ && _) eqn:Ec.
  - apply andb_prop in Ec as [El Ei%bool_decide_eq_true]. apply Z.ltb_lt in El.
    eapply hoare_bind; [eapply hoare_set_position; [done|exact Hps|lia]|]. intros _ g2 ->. cbn.
    assert (Hsame2 : same_but_pos g (g <| g_pos := <[sid := 0]> (g_pos g) |>
      <| g_positions := <[k := <[Z.to_nat (s_position s) := None]> (se_positions t)]>
                         (g_positions g) |>)) by by destruct g.
    assert (Hwf2 : WF x (g <| g_pos := <[sid := 0]> (g_pos g) |>
      <| g_positions := <[k := <[Z.to_nat (s_position s) := None]> (se_positions t)]>
                         (g_positions g) |>)).
    { eapply wf_same_but_pos; [exact Hwf|exact Hsame2|].
      apply positions_ok_update; [done..| |done]. intros k' ps' q i Hk' Hq Hne.
      rewrite lookup_insert_ne; [done|]. intros <-.
      destruct (wf_positions _ _ Hwf _ _ _ _ Hk' Hq) as (_&?&?). apply Hne. f_equal; [congruence|].
      assert (Z.of_nat q = s_position s) by congruence. lia. }
    apply hoare_coh; intros Hg2.
    assert (Hlen2 : same_lengths g (g <| g_pos := <[sid := 0]> (g_pos g) |>
      <| g_positions := <[k := <[Z.to_nat (s_position s) := None]> (se_positions t)]>
                         (g_positions g) |>)).
    { apply (same_lengths_insert g k (se_positions t)); [done|]. apply length_insert. }
    eapply hoare_soft_bind.
    { eapply soft_find_claimant; [done..|]. intros i Hi.
      destruct (wf_tsess _ _ Hwf k (se_sessions t)) as [_ Hin]; [apply Hrt|].
      eapply coh_seat; [exact Hg2|]. cbn. by apply Hin. }
    intros [i|] Hi; [|by apply hoare_ret]. destruct (Hi i eq_refl) as [Hin Hpi]. cbn in Hpi.
    eapply hoare_mono.
    { eapply hoare_set_position; [done|cbn; apply lookup_insert_eq|]. rewrite length_insert. lia. }
    intros _ g3 ->. cbn. rewrite insert_insert_eq, list_insert_insert_eq.
    split; [|split; [by destruct g|split; [done|]]].
    + eapply wf_same_but_pos; [exact Hwf|by destruct g|].
      refine (positions_ok_update g k (se_positions t) (Z.to_nat (s_position s)) (Some i) (<[sid := 0]> (g_pos g))
        Hok Hps Hpos1 _ _).
      * intros k' ps' q j Hk' Hq Hne.
        rewrite lookup_insert_ne; [done|]. intros <-.
        destruct (wf_positions _ _ Hwf _ _ _ _ Hk' Hq) as (_&?&?). apply Hne. f_equal; [congruence|].
        assert (Z.of_nat q = s_position s) by congruence. lia.
      * intros ? [= <-]. split; [lia|]. rewrite Hpi. split; [|f_equal; lia].
        destruct (wf_tsess _ _ Hwf k (se_sessions t)) as [_ Hall]; [apply Hrt|]. by apply Hall.
    + apply (same_lengths_insert g k (se_positions t)); [done|]. apply length_insert.
  - apply hoare_ret. split; [|split; [done|split; [done|by intros ?]]].
    eapply wf_same_but_pos; [exact Hwf|done|]. split; [done|]. cbn.
    intros k' ps q i Hk' Hq. destruct (wf_positions _ _ Hwf _ _ _ _ Hk' Hq) as (?&?&?).
    split_and!; [done..|]. rewrite lookup_insert_ne; [done|]. intros <-.
    exfalso. apply andb_false_iff in Ec.
    assert (k' = k) as -> by congruence. assert (ps = se_positions t) as -> by congruence.
    assert (s_position s = Z.of_nat q) as Eq by congruence. rewrite Eq, Nat2Z.id in Ec.
    destruct Ec as [Ec|Ec].
    + apply Z.ltb_ge in Ec. apply lookup_lt_Some in Hq. lia.
    + by apply bool_decide_eq_false in Ec.
Qed.

(** * Claiming a position *)

Context {Ok : EnvOk}.

Lemma greedy_realloc0_spec ps need ps' :
  greedy_realloc0 ps need = Some ps' →
  need ≤ Z.of_nat (length ps') ∧ ∃ n, ps' = ps ++ replicate n None.
Proof.
  unfold greedy_realloc0. cbv zeta. destruct (_ && _) eqn:E1.
  - intros [= <-]. apply andb_prop in E1 as [_ H%Z.leb_le]. split; [done|].
    exists 0%nat. cbn. by rewrite app_nil_r.
  - destruct (e_usable _) as [k|] eqn:E2; [|done]. intros [= <-].
    apply e_usable_ok in E2. split; [|by eexists].
    rewrite length_app, length_replicate. lia.
Qed.

Lemma lookup_grown ps n p (sid : string) :
  (ps ++ replicate n None) !! p = Some (Some sid) → ps !! p = Some (Some sid).
Proof.
  intros [?|[_ H]]%lookup_app_Some; [done|].
  by apply lookup_replicate in H as [[=] _].
Qed.

(** The table of [k] may grow. *)
Lemma wf_grow x g k ps n :
  WF x g → g_positions g !! k = Some ps →
  WF x (g <| g_positions := <[k := ps ++ replicate n None]> (g_positions g) |>).
Proof.
  intros Hwf Hps. eapply wf_same_but_pos; [exact Hwf|by destruct g|].
  destruct (wf_positions_ok _ _ Hwf) as [H1 H2]. split; [done|]. cbn.
  intros k' ps' p sid [[<- <-]|[? ?]]%lookup_insert_Some Hp; [|eauto].
  apply lookup_grown in Hp. eauto.
Qed.

Lemma same_lengths_lookup g g' k ps :
  same_lengths g g' → g_positions g !! k = Some ps →
  ∃ ps', g_positions g' !! k = Some ps' ∧ length ps' = length ps.
Proof.
  intros H Hk. specialize (H k). rewrite Hk in H.
  destruct (g_positions g' !! k); [injection H; eauto | done].
Qed.

(** A session without a position is in no table, so any position can be noted. *)
Lemma wf_note_position x g sid pos :
  WF x g → g_pos g !! sid = Some 0 → 0 ≤ pos < UINT_MAX →
  WF x (g <| g_pos := <[sid := pos]> (g_pos g) |>).
Proof.
  intros Hwf H0 Hpos. eapply wf_same_but_pos; [exact Hwf|by destruct g|].
  split; cbn.
  - intros i q [[_ <-]|[_ Hq]]%lookup_insert_Some; [done|]. by apply (wf_pos _ _ Hwf) in Hq.
  - intros k ps p i Hk Hp. destruct (wf_positions _ _ Hwf _ _ _ _ Hk Hp) as (?&?&?).
    split_and!; [done..|]. rewrite lookup_insert_ne; [done|]. intros <-.
    assert (Z.of_nat p = 0) by congruence. lia.
Qed.

Lemma hoare_seat_claim_position x g k sid pos :
  WF x g → coh g → g_seat g !! sid = Some (Some k) → 0 ≤ pos < UINT_MAX →
  hoare g (seat_claim_position k sid pos) (λ _ g', WF x g' ∧ same_but_pos g g').
Proof.
  intros Hwf Hg Hk Hpos. unfold seat_claim_position.
  eapply hoare_soft_bind; [apply soft_seat_has_vts|]. intros vts _.
  eapply hoare_soft_bind; [apply soft_get_session; eauto with links|]. intros s Hr. cbv zeta.
  set (pos' := if vts then s_vtnr s else pos).
  assert (Hpos' : 0 ≤ pos' < UINT_MAX).
  { unfold pos'. destruct vts; [|done]. eapply (wf_vtnr _ _ Hwf); [apply Hr|done]. }
  clearbody pos'. clear Hr.
  assert (Ht : has_t g k) by eauto with links.
  eapply hoare_soft_bind; [by apply soft_get_seat|]. intros t Hrt.
  assert (Hps : g_positions g !! k = Some (se_positions t)) by apply Hrt.
  assert (u32 (pos' + 1) = pos' + 1) as -> by (apply Z.mod_small; unfold UINT_MAX in *; lia).
  destruct (greedy_realloc0 _ _) as [ps|] eqn:Eps;
    [|apply hoare_ret; split; [done|apply same_but_pos_refl]].
  apply greedy_realloc0_spec in Eps as [Hlen [n ->]].
  eapply hoare_bind; [by apply hoare_upd_seat|]. intros _ g1 (t1&Hr1&->).
  assert (Hg1 : put_t g k (t1 <| se_positions := se_positions t ++ replicate n None |>)
    = g <| g_positions := <[k := se_positions t ++ replicate n None]> (g_positions g) |>)
    by (clear Hrt; same_row; done).
  rewrite Hg1. clear Hg1 Hr1 t1.
  pose proof (wf_grow _ _ _ _ n Hwf Hps) as Hwf1. apply hoare_coh; intros Hg1.
  eapply hoare_bind; [by eapply hoare_seat_evict_position|].
  intros _ g2 (Hwf2&Hsame2&Hp2&Hlen2). apply hoare_coh; intros Hg2.
  destruct (same_lengths_lookup _ _ k _ Hlen2 (lookup_insert_eq _ _ _)) as (ps2&Hps2&El2).
  assert (Hk2 : g_seat g2 !! sid = Some (Some k)) by by rewrite Hsame2.
  eapply hoare_bind; [apply hoare_upd_session; eauto with links|]. intros _ g3 (s3&Hr3&->).
  assert (Hg3 : put_s g2 sid (s3 <| s_position := pos' |>)
    = g2 <| g_pos := <[sid := pos']> (g_pos g2) |>) by (same_row; done).
  rewrite Hg3. clear Hg3 Hr3 s3.
  assert (Hwf3 : WF x (g2 <| g_pos := <[sid := pos']> (g_pos g2) |>)).
  { apply wf_note_position; [done| |lia]. by rewrite Hp2, lookup_insert_eq. }
  apply hoare_coh; intros Hg3.
  assert (Hsame3 : same_but_pos g (g2 <| g_pos := <[sid := pos']> (g_pos g2) |>))
    by (unfold same_but_pos in *; rewrite Hsame2; done).
  apply hoare_when; [|done]. intros Hlt%Z.ltb_lt.
  eapply hoare_mono; [eapply hoare_set_position; [done|exact Hps2|lia]|].
  intros _ g4 ->. split; [|unfold same_but_pos in *; rewrite Hsame3; done].
  eapply wf_same_but_pos; [exact Hwf3|done|].
  refine (positions_ok_update _ k ps2 (Z.to_nat pos') (Some sid) (<[sid:=pos']> (g_pos g2))
    (wf_positions_ok _ _ Hwf3) Hps2 (wf_pos _ _ Hwf3) _ _); [done|].
  intros ? [= <-]. split; [lia|]. split; [done|].
  transitivity (Some pos'); [apply (lookup_insert_eq (g_pos g2)) | f_equal; lia].
Qed.

(** ** The first free position *)

Lemma first_free_taken ps p :
  (p ≤ first_free ps p)%nat ∧
  ∃ l : list string, length l = (first_free ps p - p)%nat ∧
    ∀ i sid, l !! i = Some sid → ps !! i = Some (Some sid).
Proof.
  revert p. induction ps as [|[sid|] ps IH]; intros p; cbn.
  - split; [done|]. exists []. split; [cbn; lia|done].
  - destruct (IH (S p)) as (?&l&Hl&Hin). split; [lia|]. exists (sid :: l).
    split; [cbn; lia|]. intros [|i] s; cbn; [congruence | apply Hin].
  - split; [done|]. exists []. split; [cbn; lia|done].
Qed.

(** There are no more occupied positions than sessions. *)
Lemma free_position_bound x g k ps :
  WF x g → coh g → g_positions g !! k = Some ps →
  0 ≤ free_position ps ≤ Z.of_nat (size (g_user g)) + 1.
Proof.
  intros Hwf Hg Hps. unfold free_position. split; [lia|].
  destruct (first_free_taken (drop 1 ps) 1) as (Hle&l&Hl&Hin).
  assert (Hpos : ∀ i sid, l !! i = Some sid → g_pos g !! sid = Some (Z.of_nat (S i))).
  { intros i sid Hi. apply Hin in Hi. rewrite lookup_drop in Hi.
    by destruct (wf_positions _ _ Hwf _ _ _ _ Hps Hi) as (_&_&?). }
  assert (Hnd : NoDup l).
  { apply NoDup_alt. intros i j sid Hi Hj. apply Hpos in Hi, Hj.
    assert (Z.of_nat (S i) = Z.of_nat (S j)) by congruence. lia. }
  assert (Hsub : list_to_set l ⊆@{gset string} dom (g_user g)).
  { intros sid [i Hi]%elem_of_list_to_set%list_elem_of_lookup. apply elem_of_dom.
    eapply coh_pos; [done|]. by eapply Hpos. }
  apply subseteq_size in Hsub. rewrite size_list_to_set, size_dom in Hsub by done. lia.
Qed.

(** There is room for another session. *)
Definition has_room (g : cols) : Prop := Z.of_nat (size (g_user g)) + 1 < UINT_MAX.

Lemma hoare_seat_assign_position x g k sid :
  WF x g → coh g → has_room g → g_seat g !! sid = Some (Some k) →
  hoare g (seat_assign_position k sid) (λ _ g', WF x g' ∧ same_but_pos g g').
Proof.
  intros Hwf Hg Hroom Hk. unfold seat_assign_position.
  eapply hoare_soft_bind; [apply soft_get_session; eauto with links|]. intros s Hr.
  destruct (0 <? s_position s); [apply hoare_ret; split; [done|apply same_but_pos_refl]|].
  eapply hoare_soft_bind; [apply soft_get_seat; eauto with links|]. intros t Hrt.
  apply hoare_seat_claim_position; [done..|]. unfold has_room in Hroom.
  assert (Hps : g_positions g !! k = Some (se_positions t)) by apply Hrt.
  pose proof (free_position_bound _ _ _ _ Hwf Hg Hps). lia.
Qed.
End Positions.
