(* ===== verification/LinksAttach.v ===== *)
(** Attaching sessions to seats, starting and creating seats, and queueing
    objects for the garbage collector, keep the links well-formed. *)
From S2P Require Import Prelude Time LoginTypes ActionTypes LoginState LoginEnv Objects SessionDevice Seat Cols Links LinksObjects LinksDevice LinksSeat LinksPositions.

(** * The garbage-collection queues *)

Definition same_but_queues (g g' : cols) : Prop :=
  g' = g <| g_squeued := g_squeued g' |> <| g_uqueued := g_uqueued g' |>
         <| g_tqueued := g_tqueued g' |> <| g_sq := g_sq g' |> <| g_uq := g_uq g' |>
         <| g_tq := g_tq g' |>.
Lemma same_but_queues_refl g : same_but_queues g g.
Proof. by destruct g. Qed.
Lemma same_but_queues_trans g g' g'' :
  same_but_queues g g' → same_but_queues g' g'' → same_but_queues g g''.
Proof. unfold same_but_queues. intros -> ->. done. Qed.

Definition same_but_sq (g g' : cols) : Prop :=
  g' = g <| g_squeued := g_squeued g' |> <| g_sq := g_sq g' |>.
Definition same_but_uq (g g' : cols) : Prop :=
  g' = g <| g_uqueued := g_uqueued g' |> <| g_uq := g_uq g' |>.
Definition same_but_tq (g g' : cols) : Prop :=
  g' = g <| g_tqueued := g_tqueued g' |> <| g_tq := g_tq g' |>.
Lemma same_but_sq_queues g g' : same_but_sq g g' → same_but_queues g g'.
Proof. unfold same_but_sq, same_but_queues. by intros ->. Qed.
Lemma same_but_uq_queues g g' : same_but_uq g g' → same_but_queues g g'.
Proof. unfold same_but_uq, same_but_queues. by intros ->. Qed.
Lemma same_but_tq_queues g g' : same_but_tq g g' → same_but_queues g g'.
Proof. unfold same_but_tq, same_but_queues. by intros ->. Qed.
Lemma same_but_sq_refl g : same_but_sq g g.
Proof. by destruct g. Qed.
Lemma same_but_uq_refl g : same_but_uq g g.
Proof. by destruct g. Qed.
Lemma same_but_tq_refl g : same_but_tq g g.
Proof. by destruct g. Qed.

(** A queue whose members have their flag set stays so when an element is added
    with its flag. *)
Lemma queue_push `{Countable K} (flags : gmap K bool) (q : list K) (k : K) :
  (NoDup q ∧ ∀ i, i ∈ q → flags !! i = Some true) → flags !! k = Some false →
  NoDup (k :: q) ∧ ∀ i, i ∈ k :: q → <[k := true]> flags !! i = Some true.
Proof.
  intros [Hnd Hin] Hk. split.
  - constructor; [|done]. intros Hq. apply Hin in Hq. congruence.
  - intros i Hi. destruct (decide (i = k)) as [->|Hne]; [by rewrite lookup_insert_eq|].
    rewrite lookup_insert_ne by done. apply Hin. set_solver.
Qed.
(** It also stays so when an element leaves it, whatever happens to its flag. *)
Lemma queue_drop `{Countable K} (flags : gmap K bool) (q : list K) (k : K) b :
  (NoDup q ∧ ∀ i, i ∈ q → flags !! i = Some true) → k ∉ q →
  NoDup q ∧ ∀ i, i ∈ q → <[k := b]> flags !! i = Some true.
Proof.
  intros [Hnd Hin] Hk. split; [done|]. intros i Hi.
  rewrite lookup_insert_ne by set_solver. by apply Hin.
Qed.

Lemma wf_same_but_queues x g g' :
  WF x g → same_but_queues g g' → g_sq g ⊆ g_sq g' →
  (NoDup (g_sq g') ∧ ∀ i, i ∈ g_sq g' → g_squeued g' !! i = Some true) →
  (NoDup (g_uq g') ∧ ∀ i, i ∈ g_uq g' → g_uqueued g' !! i = Some true) →
  (NoDup (g_tq g') ∧ ∀ i, i ∈ g_tq g' → g_tqueued g' !! i = Some true) → WF x g'.
Proof.
  intros Hwf Hs Hsub ???. unfold same_but_queues in Hs.
  destruct Hwf; constructor; try assumption; rewrite Hs; cbn; try assumption.
  intros sid Hu. destruct (wf_owner _ Hu) as [?|[?|[? ?]]]; auto 6.
Qed.

(** [k] is queued, unless it was. *)
Definition pushed `{Countable K} (flags : gmap K bool) (q : list K) (k : K)
    (flags' : gmap K bool) (q' : list K) : Prop :=
  flags' = <[k := true]> flags ∧
  (flags !! k = Some true ∧ q' = q ∨ flags !! k = Some false ∧ q' = k :: q).
Lemma pushed_elem `{Countable K} flags q (k : K) flags' q' i :
  pushed flags q k flags' q' → i ∈ q' → i = k ∨ i ∈ q.
Proof. intros [_ [[_ ->]|[_ ->]]] Hi; [by right|by apply elem_of_cons in Hi]. Qed.
Lemma pushed_flag `{Countable K} flags q (k : K) flags' q' i :
  pushed flags q k flags' q' → flags !! i = Some true → flags' !! i = Some true.
Proof.
  intros [-> _] Hi. destruct (decide (k = i)) as [<-|]; [by rewrite lookup_insert_eq|].
  by rewrite lookup_insert_ne.
Qed.

Section Queues.
Context (x : exempt) (g : cols) (Hwf : WF x g) (Hg : coh g).

Lemma hoare_session_add_to_gc_queue sid :
  has_s g sid →
  hoare g (session_add_to_gc_queue sid) (λ _ g', WF x g' ∧ same_but_sq g g' ∧
    pushed (g_squeued g) (g_sq g) sid (g_squeued g') (g_sq g')).
Proof.
  intros Hs. unfold session_add_to_gc_queue.
  eapply hoare_soft_bind; [by apply soft_get_session|]. intros s Hr.
  destruct (s_in_gc_queue s) eqn:Eq; [apply hoare_ret; split_and!; [done|apply same_but_sq_refl|];
    assert (g_squeued g !! sid = Some true) as Hf by (rewrite <- Eq; apply Hr);
    split; [by rewrite insert_id|by left]|].
  assert (Hq : g_squeued g !! sid = Some false) by (rewrite <- Eq; apply Hr). clear Hr.
  set (g1 := g <| g_sq := sid :: g_sq g |>).
  eapply (hoare_bind _ _ _ (λ _ g', g' = g1)); [apply hoare_modify; by intros m <-|].
  intros _ ? ->. eapply hoare_mono; [by apply hoare_upd_session|]. intros _ g' (s'&Hr'&->).
  assert (put_s g1 sid (s' <| s_in_gc_queue := true |>)
    = g1 <| g_squeued := <[sid := true]> (g_squeued g1) |>) as -> by (same_row; done).
  split_and!; [|by destruct g|split; [done|by right]]. destruct Hwf.
  eapply (wf_same_but_queues _ g); [by constructor|by destruct g|by intros ? ?; right|by apply queue_push|done..].
Qed.
Lemma hoare_user_add_to_gc_queue uid :
  has_u g uid →
  hoare g (user_add_to_gc_queue uid) (λ _ g', WF x g' ∧ same_but_uq g g' ∧
    pushed (g_uqueued g) (g_uq g) uid (g_uqueued g') (g_uq g')).
Proof.
  intros Hs. unfold user_add_to_gc_queue.
  eapply hoare_soft_bind; [by apply soft_get_user|]. intros s Hr.
  destruct (u_in_gc_queue s) eqn:Eq; [apply hoare_ret; split_and!; [done|apply same_but_uq_refl|];
    assert (g_uqueued g !! uid = Some true) as Hf by (rewrite <- Eq; apply Hr);
    split; [by rewrite insert_id|by left]|].
  assert (Hq : g_uqueued g !! uid = Some false) by (rewrite <- Eq; apply Hr). clear Hr.
  set (g1 := g <| g_uq := uid :: g_uq g |>).
  eapply (hoare_bind _ _ _ (λ _ g', g' = g1)); [apply hoare_modify; by intros m <-|].
  intros _ ? ->. eapply hoare_mono; [by apply hoare_upd_user|]. intros _ g' (s'&Hr'&->).
  assert (put_u g1 uid (s' <| u_in_gc_queue := true |>)
    = g1 <| g_uqueued := <[uid := true]> (g_uqueued g1) |>) as -> by (same_row; done).
  split_and!; [|by destruct g|split; [done|by right]]. destruct Hwf.
  eapply (wf_same_but_queues _ g); [by constructor|by destruct g|done|done|by apply queue_push|done].
Qed.
Lemma hoare_seat_add_to_gc_queue k :
  has_t g k →
  hoare g (seat_add_to_gc_queue k) (λ _ g', WF x g' ∧ same_but_tq g g' ∧
    pushed (g_tqueued g) (g_tq g) k (g_tqueued g') (g_tq g')).
Proof.
  intros Hs. unfold seat_add_to_gc_queue.
  eapply hoare_soft_bind; [by apply soft_get_seat|]. intros s Hr.
  destruct (se_in_gc_queue s) eqn:Eq; [apply hoare_ret; split_and!; [done|apply same_but_tq_refl|];
    assert (g_tqueued g !! k = Some true) as Hf by (rewrite <- Eq; apply Hr);
    split; [by rewrite insert_id|by left]|].
  assert (Hq : g_tqueued g !! k = Some false) by (rewrite <- Eq; apply Hr). clear Hr.
  set (g1 := g <| g_tq := k :: g_tq g |>).
  eapply (hoare_bind _ _ _ (λ _ g', g' = g1)); [apply hoare_modify; by intros m <-|].
  intros _ ? ->. eapply hoare_mono; [by apply hoare_upd_seat|]. intros _ g' (s'&Hr'&->).
  assert (put_t g1 k (s' <| se_in_gc_queue := true |>)
    = g1 <| g_tqueued := <[k := true]> (g_tqueued g1) |>) as -> by (same_row; done).
  split_and!; [|by destruct g|split; [done|by right]]. destruct Hwf.
  eapply (wf_same_but_queues _ g); [by constructor|by destruct g|done|done|done|by apply queue_push].
Qed.
End Queues.

(** * Attaching a session *)

(** What happens at one seat: the active session, its devices, the positions,
    the sessions of the seat. *)
Definition same_but_seating (g g' : cols) : Prop :=
  g' = g <| g_seat := g_seat g' |> <| g_pos := g_pos g' |> <| g_sds := g_sds g' |>
         <| g_dusers := g_dusers g' |> <| g_tsess := g_tsess g' |>
         <| g_active := g_active g' |> <| g_pending := g_pending g' |>
         <| g_positions := g_positions g' |> <| g_tstarted := g_tstarted g' |>.
Lemma same_but_seating_refl g : same_but_seating g g.
Proof. by destruct g. Qed.
Lemma same_but_seating_trans g g' g'' :
  same_but_seating g g' → same_but_seating g' g'' → same_but_seating g g''.
Proof. unfold same_but_seating. intros -> ->. done. Qed.
Lemma same_but_seating_act g g' : same_but_act g g' → same_but_seating g g'.
Proof. unfold same_but_seating, same_but_act. by intros ->. Qed.
Lemma same_but_seating_pos g g' : same_but_pos g g' → same_but_seating g g'.
Proof. unfold same_but_seating, same_but_pos. by intros ->. Qed.

(** The links once [sid], which had no seat, is listed by the seat [k]. *)
Lemma wf_attach {Bt : Boot} g sid k l uid :
  WF ex0 g → (∀ v, g_vtnr g !! sid = Some v → 0 ≤ v < UINT_MAX) → g_seat g !! sid = Some None → g_user g !! sid = Some (Some uid) →
  g_tsess g !! k = Some l →
  WF ex0 (g <| g_seat := <[sid := Some k]> (g_seat g) |>
            <| g_tsess := <[k := sid :: l]> (g_tsess g) |>).
Proof.
  intros Hwf Hv Hs Hu Hl.
  assert (Hmono : ∀ i k', g_seat g !! i = Some (Some k') →
                          <[sid := Some k]> (g_seat g) !! i = Some (Some k')).
  { intros i k' Hi. rewrite lookup_insert_ne; [done|]. intros <-. congruence. }
  destruct Hwf; constructor; cbn; try assumption.
  - intros i k' [[<- [= <-]]|[Hne Hi]]%lookup_insert_Some.
    + split; [|eauto]. exists (sid :: l). rewrite lookup_insert_eq. split; [done|]. right; left.
    + destruct (wf_seat _ _ Hi) as ((l'&Hl'&Hin)&?). split; [|done].
      destruct (decide (k = k')) as [<-|].
      * exists (sid :: l). rewrite lookup_insert_eq. split; [done|].
        assert (l' = l) as -> by congruence. destruct Hin; [by left|right; by right].
      * exists l'. by rewrite lookup_insert_ne.
  - intros k' l' [[<- <-]|[Hne Hl']]%lookup_insert_Some.
    + destruct (wf_tsess _ _ Hl) as [Hnd Hin]. split.
      * constructor; [|done]. intros H%Hin. congruence.
      * intros i [->|Hi]%elem_of_cons; [by rewrite lookup_insert_eq|]. by apply Hmono, Hin.
    + destruct (wf_tsess _ _ Hl'). eauto.
  - eauto.
  - eauto.
  - intros k' ps p i H1 H2. destruct (wf_positions _ _ _ _ H1 H2) as (?&?&?). eauto.
  - intros i v k' Hi [[<- _]|[_ ?]]%lookup_insert_Some; eauto.
  - intros i ds dev n H1 H2. destruct (wf_sds _ _ _ _ H1 H2) as (?&?&k'&us&?&?&?&?).
    split_and!; [done..|]. exists k', us. split_and!; eauto.
  - intros i ds dev n H1 H2 H3. destruct (wf_excl _ _ _ _ H1 H2 H3) as [?|(k'&?&?)]; eauto.
Qed.

Section Attach.
Context {E : Env} {Bt : Boot} {Ok : EnvOk}.

Lemma hoare_seat_attach_session g k sid uid :
  WF ex0 g → coh g → has_room g → has_t g k →
  (∀ v, g_vtnr g !! sid = Some v → 0 ≤ v < UINT_MAX) →
  g_seat g !! sid = Some None → g_user g !! sid = Some (Some uid) →
  hoare g (seat_attach_session k sid) (λ r g', WF ex0 g' ∧ same_but_seating g g').
Proof.
  intros Hwf Hg Hroom Hk Hv Hs Hu. unfold seat_attach_session.
  eapply hoare_soft_bind; [apply soft_get_session; eauto with links|]. intros s Hr.
  assert (s_seat s = None) as Es by (destruct Hr as (_&?&_); congruence).
  eapply hoare_soft_bind; [apply soft_assert; by rewrite Es|]. intros _ _.
  eapply hoare_soft_bind; [apply soft_seat_has_vts|]. intros vts _.
  destruct (negb _) eqn:En; [apply hoare_ret; split; [done|apply same_but_seating_refl]|].
  clear Hr. eapply hoare_bind; [apply hoare_upd_session; eauto with links|].
  intros _ g1 (s1&Hr1&->).
  assert (put_s g sid (s1 <| s_seat := Some k |>)
    = g <| g_seat := <[sid := Some k]> (g_seat g) |>) as -> by (same_row; done).
  clear Hr1 s1. eapply hoare_bind; [by apply hoare_upd_seat|]. intros _ g2 (t2&Hr2&->).
  assert (Hl : g_tsess g !! k = Some (se_sessions t2)) by apply Hr2.
  assert (put_t (g <| g_seat := <[sid := Some k]> (g_seat g) |>) k
      (t2 <| se_sessions := sid :: se_sessions t2 |>)
    = g <| g_seat := <[sid := Some k]> (g_seat g) |>
        <| g_tsess := <[k := sid :: se_sessions t2]> (g_tsess g) |>) as -> by (same_row; done).
  clear Hr2. pose proof (wf_attach _ _ _ _ _ Hwf Hv Hs Hu Hl) as Hwf2.
  apply hoare_coh; intros Hg2. eapply hoare_bind.
  { eapply hoare_seat_assign_position; [done|done|done|]. cbn. by rewrite lookup_insert_eq. }
  intros _ g3 (Hwf3&Hsame3). apply hoare_coh; intros Hg3.
  assert (Hk3 : g_seat g3 !! sid = Some (Some k)).
  { rewrite Hsame3. cbn. by rewrite lookup_insert_eq. }
  eapply (hoare_bind _ _ _ (λ _ g4, WF ex0 g4 ∧ same_but_act g3 g4)).
  { apply hoare_when; [|intros _; split; [done|apply same_but_act_refl]]. intros _.
    eapply hoare_mono; [eapply hoare_seat_set_active; [done|done|eauto with links|]|].
    - by intros ? [= <-].
    - intros _ g' (?&?&_). done. }
  intros _ g4 (?&Hsame4). apply hoare_ret. split; [done|].
  apply same_but_seating_act in Hsame4. apply same_but_seating_pos in Hsame3.
  eapply same_but_seating_trans; [|exact Hsame4].
  eapply same_but_seating_trans; [|exact Hsame3]. done.
Qed.

(** * Starting and creating seats *)

Definition same_but_start (g g' : cols) : Prop :=
  g' = g <| g_sds := g_sds g' |> <| g_dusers := g_dusers g' |>
         <| g_active := g_active g' |> <| g_pending := g_pending g' |>
         <| g_tstarted := g_tstarted g' |>.
Lemma same_but_start_seating g g' : same_but_start g g' → same_but_seating g g'.
Proof. unfold same_but_start, same_but_seating. by intros ->. Qed.

Lemma wf_seat_started x g k :
  WF x g → has_t g k → WF x (g <| g_tstarted := <[k := true]> (g_tstarted g) |>).
Proof.
  intros Hwf Hk. destruct Hwf; constructor; cbn; try assumption.
  destruct wf_seat0 as (k'&b&?&?&?). destruct (decide (k = k')) as [<-|].
  - exists k, true. rewrite lookup_insert_eq. auto.
  - exists k', b. by rewrite lookup_insert_ne.
Qed.

Lemma hoare_seat_start g k :
  WF ex0 g → coh g → has_t g k →
  hoare g (seat_start k) (λ _ g', WF ex0 g' ∧ same_but_start g g' ∧
    g_tstarted g' = <[k := true]> (g_tstarted g)).
Proof.
  intros Hwf Hg Hk. unfold seat_start. eapply hoare_soft_bind; [by apply soft_get_seat|].
  intros t Hr. destruct (se_started t) eqn:Et.
  { apply hoare_ret. split; [done|]. split; [by destruct g|].
    rewrite insert_id; [done|]. rewrite <- Et. apply Hr. }
  apply (hoare_bind _ _ _ (λ _ g1, WF ex0 g1 ∧ same_but_act g g1));
    [apply hoare_ignore; by apply hoare_seat_read_active_vt|].
  intros _ g1 (Hwf1&Hs1). apply hoare_coh; intros Hg1.
  assert (Hk1 : has_t g1 k) by (rewrite Hs1; exact Hk).
  eapply hoare_bind; [by apply hoare_upd_seat|]. intros _ g2 (t2&Hr2&->).
  assert (put_t g1 k (t2 <| se_started := true |>)
    = g1 <| g_tstarted := <[k := true]> (g_tstarted g1) |>) as -> by (same_row; done).
  pose proof (wf_seat_started _ _ _ Hwf1 Hk1) as Hwf2. apply hoare_coh; intros Hg2.
  eapply hoare_soft_bind; [apply soft_ignore; by eapply soft_seat_save|]. intros _ _.
  eapply hoare_soft_bind; [apply soft_send_signal|]. intros _ _.
  apply hoare_ret. split; [done|]. unfold same_but_act, same_but_start in *. by rewrite Hs1.
Qed.

(** A new seat is empty. *)
Definition put_new_seat (g : cols) (k : string) : cols := put_t g k new_seat.
Lemma wf_put_new_seat x g k :
  WF x g → coh g → ¬ has_t g k → WF x (put_new_seat g k).
Proof.
  intros Hwf Hg Hk.
  assert (Hno : ∀ sid, g_seat g !! sid ≠ Some (Some k)).
  { intros sid H. apply Hk. eauto with links. }
  assert (Hnd : ∀ d, g_dseat g !! d ≠ Some (Some k)).
  { intros d H. apply Hk. eauto with links. }
  destruct Hwf; constructor; cbn; try assumption.
  - intros i k' Hi. destruct (decide (k = k')) as [<-|]; [by apply Hno in Hi|].
    rewrite lookup_insert_ne by done. eauto.
  - intros k' l [[<- <-]|[? ?]]%lookup_insert_Some; [|eauto].
    split; [constructor|]. by intros ? ?%elem_of_nil.
  - intros k' a [[<- [=]]|[? ?]]%lookup_insert_Some; eauto.
  - intros k' a [[<- [=]]|[? ?]]%lookup_insert_Some; eauto.
  - intros k' ps p i [[<- <-]|[? ?]]%lookup_insert_Some; [|eauto]. done.
  - destruct wf_tq as [? Hin]. split; [done|]. intros i Hi. apply Hin in Hi.
    rewrite lookup_insert_ne; [done|]. intros <-. apply Hk. by eapply coh_tqueued.
  - intros d k' Hd. destruct (decide (k = k')) as [<-|]; [by apply Hnd in Hd|].
    rewrite lookup_insert_ne by done. eauto.
  - intros k' l [[<- <-]|[? ?]]%lookup_insert_Some; [|eauto].
    split; [constructor|]. by intros ? ?%elem_of_nil.
  - intros sid ds dev n H1 H2 H3. destruct (wf_excl _ _ _ _ H1 H2 H3) as [?|(k'&Hs&?)]; [by left|].
    right. exists k'. rewrite lookup_insert_ne; [done|]. intros <-. by apply Hno in Hs.
  - destruct wf_seat0 as (k'&b&?&?&?). exists k', b. rewrite lookup_insert_ne; [done|].
    intros <-. apply Hk. by eapply coh_tstarted.
Qed.

Lemma hoare_manager_add_seat x g k :
  WF x g → coh g →
  hoare g (manager_add_seat k) (λ r g', WF x g' ∧ (r < 0 ∧ g' = g ∨ r = 0 ∧ has_t g' k ∧
    (g' = g ∨ (¬ has_t g k ∧ g' = put_new_seat g k)))).
Proof.
  intros Hwf Hg. unfold manager_add_seat.
  eapply (hoare_soft_bind _ _ _ (λ o, is_Some o ↔ has_t g k)).
  { apply soft_gets. intros m <-. unfold has_t; cbn. by rewrite lookup_fmap, fmap_is_Some. }
  intros o Ho. destruct o as [t|].
  { apply hoare_ret. split; [done|]. right. split; [done|]. split; [by apply Ho|by left]. }
  assert (Hk : ¬ has_t g k). { intros H. apply Ho in H. by destruct H. }
  unfold seat_new. destruct (negb _); [apply hoare_ret; split; [done|by left]|].
  eapply (hoare_bind _ _ _ (λ _ g', g' = put_new_seat g k)).
  { apply hoare_modify. intros m <-. unfold put_new_seat, put_t, cols_of; cbn.
    by rewrite !fmap_insert. }
  intros _ g' ->. apply hoare_ret. split; [by apply wf_put_new_seat|]. right. split; [done|].
  split; [|by right]. unfold has_t; cbn. rewrite lookup_insert_eq. by eexists.
Qed.

Lemma soft_seat_idle_step x g acc sid :
  WF x g → coh g → has_s g sid → soft g (seat_idle_step acc sid) (λ _, True).
Proof.
  intros Hwf Hg Hs. unfold seat_idle_step. destruct acc as [ih ts].
  eapply soft_bind; [by eapply soft_session_get_idle_hint|]. intros [b t] _. by apply soft_ret.
Qed.
Lemma soft_seat_get_idle_hint x g k :
  WF x g → coh g → has_t g k → soft g (seat_get_idle_hint k) (λ _, True).
Proof.
  intros Hwf Hg Hk. unfold seat_get_idle_hint. eapply soft_bind; [by apply soft_get_seat|].
  intros t Hr. apply soft_fold_m; [done|]. intros acc sid Hin _.
  eapply soft_seat_idle_step; eauto with links.
Qed.
Lemma soft_seat_may_gc x g k b :
  WF x g → coh g → has_t g k →
  soft g (seat_may_gc k b) (λ r, r = true → (b = true ∧ g_tstarted g !! k = Some false) ∨ g_seat0 g ≠ Some k).
Proof.
  intros Hwf Hg Hk. unfold seat_may_gc. eapply soft_bind; [by apply soft_get_seat|].
  intros t Hr. destruct (_ && _) eqn:Ec.
  { apply soft_ret. intros _. left. apply andb_prop in Ec as [-> Ec]. split; [done|].
    destruct (se_started t) eqn:Et; [done|]. rewrite <- Et. apply Hr. }
  eapply soft_bind; [apply soft_seat_is_seat0|]. intros z ->.
  case_bool_decide; [by apply soft_ret|].
  eapply soft_bind; [by eapply soft_seat_has_master_device|]. intros b' _. apply soft_ret.
  intros _. by right.
Qed.
End Attach.
