(* ===== verification/LinksHotplug.v ===== *)
(** Hotplug events and taking devices keep the links well-formed: devices
    appear on seats, leave them with the session devices that use them, and are
    taken by the sessions of their seat. *)
From S2P Require Import Prelude Time LoginTypes ActionTypes LoginState LoginEnv Objects SessionDevice Seat Device Moves Cols Links LinksObjects LinksDevice LinksSeat LinksPositions LinksAttach.

(** * The devices and the seats may differ, the sessions and users not *)

Definition same_but_plug (g g' : cols) : Prop :=
  g' = g <| g_sds := g_sds g' |> <| g_dusers := g_dusers g' |> <| g_dseat := g_dseat g' |>
         <| g_tsess := g_tsess g' |> <| g_active := g_active g' |>
         <| g_pending := g_pending g' |> <| g_positions := g_positions g' |>
         <| g_tdevs := g_tdevs g' |> <| g_tqueued := g_tqueued g' |>
         <| g_tstarted := g_tstarted g' |> <| g_tq := g_tq g' |>.
Lemma same_but_plug_refl g : same_but_plug g g.
Proof. by destruct g. Qed.
Lemma same_but_plug_trans g g' g'' :
  same_but_plug g g' → same_but_plug g' g'' → same_but_plug g g''.
Proof. unfold same_but_plug. intros -> ->. done. Qed.

(** What removing devices changes: the devices, their session devices, the
    queue of the seats. *)
Definition same_but_devs (g g' : cols) : Prop :=
  g' = g <| g_sds := g_sds g' |> <| g_dusers := g_dusers g' |> <| g_dseat := g_dseat g' |>
         <| g_tdevs := g_tdevs g' |> <| g_tqueued := g_tqueued g' |> <| g_tq := g_tq g' |>.
Lemma same_but_devs_refl g : same_but_devs g g.
Proof. by destruct g. Qed.
Lemma same_but_devs_trans g g' g'' :
  same_but_devs g g' → same_but_devs g' g'' → same_but_devs g g''.
Proof. unfold same_but_devs. intros -> ->. done. Qed.
Lemma same_but_devs_plug g g' : same_but_devs g g' → same_but_plug g g'.
Proof. unfold same_but_devs, same_but_plug. by intros ->. Qed.
Lemma same_but_sds_devs g g' : same_but_sds g g' → same_but_devs g g'.
Proof. unfold same_but_devs, same_but_sds. by intros ->. Qed.

(** * Detaching a device from its seat *)

Definition unseat (d : option string) (x : exempt) : exempt :=
  mkExempt (ex_paused x) (ex_unlinked x) d (ex_new x) (ex_boot x).

(** The links once [d], used by no session, has left the seat [k]. *)
Definition without_device (g : cols) (d k : string) (l : list string) : cols :=
  g <| g_tdevs := <[k := list_remove_all d l]> (g_tdevs g) |>
    <| g_dseat := <[d := None]> (g_dseat g) |>.

Lemma wf_without_device x g d k l :
  WF x g → coh g → ex_unseated x = None ∨ ex_unseated x = Some d → g_dseat g !! d = Some (Some k) →
  g_tdevs g !! k = Some l → g_dusers g !! d = Some [] →
  WF (unseat (Some d) x) (without_device g d k l).
Proof.
  intros Hwf Hg Hx Hd Hl Hus. destruct Hwf; constructor; cbn; try assumption.
  - intros sid ds dev n H1 H2. destruct (wf_sds _ _ _ _ H1 H2) as (?&?&k'&us&?&?&Hus'&Hin).
    split_and!; [done..|]. exists k', us. rewrite lookup_insert_ne; [done|].
    intros Heq. assert (us = []) as -> by congruence. by apply elem_of_nil in Hin.
  - intros d' k' [[? [=]]|[Hne Hd']]%lookup_insert_Some.
    destruct (wf_dseat _ _ Hd') as (l'&Hl'&Hin). destruct (decide (k = k')) as [<-|].
    + rewrite lookup_insert_eq. eexists. split; [done|]. apply elem_of_list_remove_all.
      assert (l' = l) as -> by congruence. done.
    + rewrite lookup_insert_ne by done. eauto.
  - intros d' [[<- _]|[Hne Hd']]%lookup_insert_Some; [done|].
    apply wf_seated in Hd'. destruct Hx; congruence.
  - intros k' l' [[<- <-]|[Hne Hl']]%lookup_insert_Some.
    + destruct (wf_tdevs _ _ Hl) as [? Hin]. split; [by apply NoDup_list_remove_all|].
      intros d' [Hd' Hne]%elem_of_list_remove_all. rewrite lookup_insert_ne by done. auto.
    + destruct (wf_tdevs _ _ Hl') as [? Hin]. split; [done|].
      intros d' Hd'%Hin. rewrite lookup_insert_ne; [done|]. intros <-. congruence.
Qed.

(** A device on no seat has no users. *)
Lemma unseated_no_users x g d us :
  WF x g → g_dseat g !! d = Some None → g_dusers g !! d = Some us → us = [].
Proof.
  intros Hwf Hd Hus. destruct us as [|[sid dev] us]; [done|].
  destruct (wf_dusers _ _ Hwf _ _ Hus) as [_ Hin].
  destruct (Hin sid dev) as (ds&n&H1&H2&H3); [left|].
  destruct (wf_sds _ _ Hwf _ _ _ _ H1 H2) as (_&_&k&us'&_&Hk&_). congruence.
Qed.
Lemma coh_dseat g d a : coh g → g_dseat g !! d = Some a → ∃ us, g_dusers g !! d = Some us.
Proof. intros Hg Hd. destruct (coh_row_d _ Hg d) as (v&_&?); [by eexists|eauto]. Qed.

(** A device that is free and unused can be deleted. *)
Lemma wf_delete_device x g d us :
  WF (unseat (Some d) x) g → g_dseat g !! d = Some None → g_dusers g !! d = Some us →
  WF (unseat None x) (g <| g_dseat := delete d (g_dseat g) |> <| g_dusers := delete d (g_dusers g) |>).
Proof.
  intros Hwf Hd Hus. pose proof (unseated_no_users _ _ _ _ Hwf Hd Hus) as ->.
  destruct Hwf; constructor; cbn; try assumption.
  - intros sid ds dev n H1 H2. destruct (wf_sds _ _ _ _ H1 H2) as (?&?&k'&us&?&?&Hus'&Hin).
    split_and!; [done..|]. exists k', us.
    rewrite !lookup_delete_ne; [done|intros Heq; congruence..].
  - intros d' us' [Hne Hd']%lookup_delete_Some. eauto.
  - intros d' k' [Hne Hd']%lookup_delete_Some. eauto.
  - intros d' [Hne Hd']%lookup_delete_Some. apply wf_seated in Hd'. cbn in Hd'. congruence.
  - intros k' l' Hl'. destruct (wf_tdevs _ _ Hl') as [? Hin]. split; [done|].
    intros d' Hd'%Hin. rewrite lookup_delete_ne; [done|]. intros <-. congruence.
Qed.

Section Hotplug.
Context {E : Env} {Bt : Boot}.

Lemma hoare_free_device_users x fuel g d us :
  WF x g → coh g → g_dusers g !! d = Some us → (length us ≤ fuel)%nat →
  hoare g (free_device_users fuel d) (λ _ g', WF x g' ∧ same_but_sds g g' ∧
    g_dusers g' !! d = Some []).
Proof.
  revert g us. induction fuel as [|fuel IH]; intros g us Hwf Hg Hus Hf;
    cbn [free_device_users];
    (eapply hoare_soft_bind; [apply soft_get_device; by eapply coh_dusers|]);
    intros v (_&Hv); assert (d_session_devices v = us) as -> by congruence;
    clear Hv v; destruct us as [|[sid dev] us].
  1,3: apply hoare_ret; split; [done|]; split; [apply same_but_sds_refl|done].
  - cbn in Hf. lia.
  - destruct (wf_dusers _ _ Hwf _ _ Hus) as [_ Hin].
    destruct (Hin sid dev) as (ds&n&Hs&Hn&<-); [left|].
    eapply hoare_bind; [by eapply hoare_session_device_free|]. intros _ g1 ->.
    pose proof (wf_without_sd _ _ _ _ _ _ _ Hwf Hs Hn Hus) as Hwf1.
    apply hoare_coh; intros Hg1. eapply hoare_mono.
    { apply (IH _ (list_remove_all (sid, dev) ((sid, dev) :: us))); [exact Hwf1|done| |].
      { unfold without_sd; cbn [g_dusers upd]. apply lookup_insert_eq. }
      destruct (wf_dusers _ _ Hwf _ _ Hus) as [Hnd _]. apply NoDup_cons in Hnd as [Hnin _].
      rewrite list_remove_all_cons by done. cbn in Hf. lia. }
    intros _ g2 (?&Hsame&?). split_and!; [done| |done].
    eapply same_but_sds_trans; [|exact Hsame]. apply same_but_sds_without.
Qed.

(** Only the seat of [d] is queued, unless it was. *)
Definition seat_queued (g g' : cols) (d : string) : Prop :=
  (∀ k, k ∈ g_tq g' → k ∈ g_tq g ∨
     g_dseat g !! d = Some (Some k) ∧ g_tqueued g !! k = Some false) ∧
  ∀ k, g_tqueued g !! k = Some true → g_tqueued g' !! k = Some true.

(** After detaching, [d] is on no seat. *)
Definition detached (g g' : cols) (d : string) : Prop :=
  same_but_devs g g' ∧ g_dseat g' !! d = Some None ∧ seat_queued g g' d ∧
  g_dseat g' = <[d := None]> (g_dseat g) ∧
  ∀ k l, g_tdevs g !! k = Some l →
    g_tdevs g' !! k = Some (if bool_decide (g_dseat g !! d = Some (Some k))
                            then list_remove_all d l else l).

Lemma hoare_device_detach x g d :
  WF x g → coh g → has_d g d → ex_unseated x = None ∨ ex_unseated x = Some d →
  hoare g (device_detach d) (λ _ g', WF (unseat (Some d) x) g' ∧ detached g g' d).
Proof.
  intros Hwf Hg Hd Hx. unfold device_detach.
  eapply hoare_soft_bind; [by apply soft_get_device|]. intros v [Hseat Hus].
  destruct (d_seat v) as [k|] eqn:Ek.
  - assert (Hk : g_dseat g !! d = Some (Some k)) by congruence.
    eapply hoare_bind; [by eapply hoare_free_device_users|].
    intros _ g1 (Hwf1&Hs1&Hus1). apply hoare_coh; intros Hg1.
    assert (Hk1 : g_dseat g1 !! d = Some (Some k)) by (rewrite Hs1; exact Hk).
    destruct (wf_dseat _ _ Hwf1 _ _ Hk1) as (l&Hl&Hin).
    eapply hoare_bind; [apply hoare_upd_seat; eauto with links|]. intros _ g2 (t&Ht&->).
    assert (se_devices t = l) as El by (destruct Ht as (_&_&_&_&?&_); congruence).
    assert (put_t g1 k (t <| se_devices := list_remove_all d (se_devices t) |>)
      = g1 <| g_tdevs := <[k := list_remove_all d l]> (g_tdevs g1) |>) as ->
      by (rewrite El; same_row; done).
    apply hoare_coh; intros Hg2.
    eapply hoare_bind; [apply hoare_upd_device; by eexists|]. intros _ g3 (v3&Hv3&->).
    assert (put_d (g1 <| g_tdevs := <[k := list_remove_all d l]> (g_tdevs g1) |>) d
        (v3 <| d_seat := None |>) = without_device g1 d k l) as ->.
    { unfold without_device. same_row. done. }
    pose proof (wf_without_device _ _ _ _ _ Hwf1 Hg1 Hx Hk1 Hl Hus1) as Hwf3.
    apply hoare_coh; intros Hg3.
    assert (Hk3 : has_t (without_device g1 d k l) k).
    { assert (has_t g1 k) by eauto with links. done. }
    eapply hoare_soft_bind; [by eapply soft_seat_has_master_device|]. intros b _.
    apply (hoare_mono _ _ (λ _ g', WF (unseat (Some d) x) g'
      ∧ same_but_tq (without_device g1 d k l) g' ∧ seat_queued g g' d)).
    { assert (Etq : g_tq (without_device g1 d k l) = g_tq g ∧
        g_tqueued (without_device g1 d k l) = g_tqueued g) by (rewrite Hs1; done).
      destruct Etq as [Etq Efl].
      apply hoare_when; [|intros _; split_and!; [done|apply same_but_tq_refl|]].
      2:{ split; intros i; [rewrite Etq; by left|by rewrite Efl]. }
      intros _.
      eapply hoare_bind; [by eapply hoare_seat_add_to_gc_queue|].
      intros _ g4 (Hwf4&Hs4&Hq4). apply hoare_coh; intros Hg4.
      eapply hoare_mono; [apply soft_seat_send_changed; rewrite Hs4; exact Hk3|].
      intros _ ? [-> _]. split_and!; [done..|]. rewrite Etq, Efl in Hq4.
      split; intros i Hi; [|by eapply pushed_flag].
      destruct Hq4 as [_ [[_ Eq]|[Hf Eq]]]; rewrite Eq in Hi; [by left|].
      apply elem_of_cons in Hi as [->|?]; [by right|by left]. }
    intros _ g4 (Hwf4&Hs4&Hq4). split; [done|]. split; [|split_and!].
    + eapply same_but_devs_trans; [by apply same_but_sds_devs|].
      unfold same_but_devs. by rewrite Hs4.
    + rewrite Hs4. cbn. apply lookup_insert_eq.
    + done.
    + rewrite Hs4. cbn. by rewrite Hs1.
    + intros k' l' Hl'. rewrite Hs4; cbn. rewrite Hs1 in Hl. cbn in Hl. rewrite Hs1; cbn.
      destruct (decide (k = k')) as [<-|Hne].
      * rewrite lookup_insert_eq, bool_decide_true by done. congruence.
      * rewrite lookup_insert_ne, bool_decide_false by congruence. done.
  - apply hoare_ret. assert (Hn : g_dseat g !! d = Some None) by congruence.
    split.
    + destruct Hwf; constructor; cbn; try assumption. intros d' Hd'%wf_seated. destruct Hx; congruence.
    + split; [apply same_but_devs_refl|]. split; [done|].
      split; [by split; [left|]|]. split; [by rewrite insert_id|].
      intros k l Hl. rewrite bool_decide_false by congruence. done.
Qed.

Lemma hoare_device_free x g d :
  WF x g → coh g → has_d g d → ex_unseated x = None ∨ ex_unseated x = Some d →
  hoare g (device_free d) (λ _ g', WF (unseat None x) g' ∧ same_but_devs g g' ∧
    seat_queued g g' d ∧
    g_dseat g' = delete d (g_dseat g) ∧
    ∀ k l, g_tdevs g !! k = Some l →
    g_tdevs g' !! k = Some (if bool_decide (g_dseat g !! d = Some (Some k))
                            then list_remove_all d l else l)).
Proof.
  intros Hwf Hg Hd Hx. unfold device_free.
  eapply hoare_bind; [by eapply hoare_device_detach|].
  intros _ g1 (Hwf1&Hs1&Hd1&Hq1&Hseat1&Hl1). apply hoare_coh; intros Hg1.
  destruct (coh_dseat _ _ _ Hg1 Hd1) as [us Hus].
  eapply (hoare_mono _ _ (λ _ g', g' = g1 <| g_dseat := delete d (g_dseat g1) |>
    <| g_dusers := delete d (g_dusers g1) |>)).
  { apply hoare_modify. intros m <-. unfold cols_of; cbn. by rewrite !fmap_delete. }
  intros _ g' ->. split; [by eapply wf_delete_device|]. split_and!.
  - eapply same_but_devs_trans; [exact Hs1|]. by destruct g1.
  - done.
  - cbn. rewrite Hseat1. by rewrite delete_insert_eq.
  - done.
Qed.

(** * Attaching a device to a seat *)

Lemma wf_unseat_none x g d k :
  WF x g → ex_unseated x = None ∨ ex_unseated x = Some d →
  g_dseat g !! d = Some (Some k) → WF (unseat None x) g.
Proof.
  intros Hwf Hx Hd. destruct Hwf; constructor; cbn; try assumption.
  intros d' Hd'. pose proof (wf_seated _ Hd') as Hd''. destruct Hx; congruence.
Qed.

(** [seat_has_master_device] only needs the devices of the seat to exist. *)
Lemma soft_has_master_raw g k l :
  has_t g k → g_tdevs g !! k = Some l → (∀ d, d ∈ l → has_d g d) →
  soft g (seat_has_master_device k) (λ _, True).
Proof.
  intros Hk Hl Hin. unfold seat_has_master_device.
  eapply soft_bind; [by apply soft_get_seat|]. intros t Ht.
  assert (se_devices t = l) as -> by (destruct Ht as (_&_&_&_&?&_); congruence).
  destruct l as [|d l']; [by apply soft_ret|].
  eapply soft_bind; [apply soft_get_device, Hin; left|]. intros. by apply soft_ret.
Qed.

Lemma soft_insert_after_masters g d l :
  (∀ i, i ∈ l → has_d g i) → soft g (insert_after_masters d l) (λ l', l' ≡ₚ d :: l).
Proof.
  induction l as [|i l IH]; intros Hin; cbn [insert_after_masters]; [by apply soft_ret|].
  eapply soft_bind; [apply soft_get_device, Hin; left|]. intros v _.
  destruct l as [|j l]; [apply soft_ret; constructor|].
  destruct (negb _); [apply soft_ret; constructor|].
  eapply soft_bind; [apply IH; intros; apply Hin; by right|]. intros l' Hl'.
  apply soft_ret. rewrite Hl'. constructor.
Qed.

(** The links once [d], on no seat so far, is listed by the seat [k]. *)
Lemma wf_with_device x g d k l l' :
  WF x g → g_dseat g !! d = Some None → g_tdevs g !! k = Some l → l' ≡ₚ d :: l →
  WF (unseat None x) (g <| g_dseat := <[d := Some k]> (g_dseat g) |>
                       <| g_tdevs := <[k := l']> (g_tdevs g) |>).
Proof.
  intros Hwf Hd Hl Hp.
  assert (Hmono : ∀ i k', g_dseat g !! i = Some (Some k') →
                          <[d := Some k]> (g_dseat g) !! i = Some (Some k')).
  { intros i k' Hi. rewrite lookup_insert_ne; [done|]. intros <-. congruence. }
  destruct Hwf; constructor; cbn; try assumption.
  - intros sid ds dev n H1 H2. destruct (wf_sds _ _ _ _ H1 H2) as (?&?&k'&us&?&?&?&?).
    split_and!; [done..|]. exists k', us. split_and!; eauto.
  - intros d' k' [[<- [= <-]]|[Hne Hd']]%lookup_insert_Some.
    + exists l'. rewrite lookup_insert_eq. split; [done|]. rewrite Hp. left.
    + destruct (wf_dseat _ _ Hd') as (l1&Hl1&Hin). destruct (decide (k = k')) as [<-|].
      * exists l'. rewrite lookup_insert_eq. split; [done|]. rewrite Hp. right.
        assert (l1 = l) as -> by congruence. done.
      * exists l1. by rewrite lookup_insert_ne.
  - intros d' [[? [=]]|[Hne Hd']]%lookup_insert_Some.
    pose proof (wf_seated _ Hd) as H1. pose proof (wf_seated _ Hd') as H2. congruence.
  - intros k' l1 [[<- <-]|[Hne Hl1]]%lookup_insert_Some.
    + destruct (wf_tdevs _ _ Hl) as [Hnd Hin]. split.
      * rewrite Hp. constructor; [|done]. intros H%Hin. congruence.
      * intros d' Hd'. rewrite Hp in Hd'. apply elem_of_cons in Hd' as [->|Hd'%Hin].
        { by rewrite lookup_insert_eq. } by apply Hmono.
    + destruct (wf_tdevs _ _ Hl1). eauto.
Qed.

Lemma hoare_device_attach x g d k :
  WF x g → coh g → has_d g d → has_t g k →
  ex_unseated x = None ∨ ex_unseated x = Some d →
  hoare g (device_attach d k) (λ _ g', WF (unseat None x) g' ∧ same_but_devs g g').
Proof.
  intros Hwf Hg Hd Hk Hx. unfold device_attach.
  eapply hoare_soft_bind; [by apply soft_get_device|]. intros v [Hseat Hus].
  case_bool_decide as Heq.
  { apply hoare_ret. split; [|apply same_but_devs_refl]. rewrite Heq in Hseat.
    by eapply wf_unseat_none. }
  eapply (hoare_bind _ _ _ (λ _ g1, WF (unseat (Some d) x) g1 ∧ same_but_devs g g1 ∧
    g_dseat g1 !! d = Some None)).
  { destruct (d_seat v) as [k'|] eqn:Ek; cbn [is_some].
    - eapply hoare_mono; [by eapply hoare_device_detach|]. by intros _ g1 (?&?&?&_).
    - apply hoare_ret. assert (Hn : g_dseat g !! d = Some None) by congruence.
      split; [|by split; [apply same_but_devs_refl|]].
      destruct Hwf; constructor; cbn; try assumption.
      intros d' Hd'%wf_seated. destruct Hx; congruence. }
  intros _ g1 (Hwf1&Hs1&Hd1). apply hoare_coh; intros Hg1.
  assert (Hk1 : has_t g1 k) by (rewrite Hs1; exact Hk).
  destruct (coh_row_t _ Hg1 _ Hk1) as (t1&Ht1).
  assert (Hl : g_tdevs g1 !! k = Some (se_devices t1)) by apply Ht1.
  eapply hoare_bind; [apply hoare_upd_device; by eexists|]. intros _ g2 (v2&Hv2&->).
  assert (put_d g1 d (v2 <| d_seat := Some k |>)
    = g1 <| g_dseat := <[d := Some k]> (g_dseat g1) |>) as -> by (clear Ht1; same_row; done).
  assert (Hin : ∀ i, i ∈ se_devices t1 → has_d (g1 <| g_dseat := <[d := Some k]> (g_dseat g1) |>) i).
  { intros i Hi. destruct (wf_tdevs _ _ Hwf1 _ _ Hl) as [_ Hall]. apply Hall in Hi.
    unfold has_d; cbn. apply lookup_insert_is_Some'. right. by rewrite Hi. }
  eapply hoare_soft_bind; [by eapply soft_has_master_raw|]. intros master _.
  eapply hoare_soft_bind; [by apply soft_get_seat|]. intros t Ht.
  assert (se_devices t = se_devices t1) as Et.
  { destruct Ht as (_&_&_&_&Ht&_). cbn in Ht. congruence. }
  eapply (hoare_soft_bind _ _ _ (λ l', l' ≡ₚ d :: se_devices t1)).
  { destruct (_ || _); rewrite Et; [by apply soft_ret|]. by apply soft_insert_after_masters. }
  intros l' Hl'. clear Ht. eapply hoare_bind; [by apply hoare_upd_seat|]. intros _ g3 (t3&Ht3&->).
  assert (put_t (g1 <| g_dseat := <[d := Some k]> (g_dseat g1) |>) k (t3 <| se_devices := l' |>)
    = g1 <| g_dseat := <[d := Some k]> (g_dseat g1) |>
         <| g_tdevs := <[k := l']> (g_tdevs g1) |>) as -> by (clear Ht1; same_row; done).
  pose proof (wf_with_device _ _ _ _ _ _ Hwf1 Hd1 Hl Hl') as Hwf3.
  apply hoare_coh; intros Hg3. eapply hoare_mono.
  { apply soft_when. intros _. eapply soft_bind.
    - apply soft_ignore. eapply soft_seat_save; [exact Hwf3|done|exact Hk1].
    - intros _ _. by apply soft_seat_send_changed. }
  intros _ g4 [-> _]. split; [exact Hwf3|].
  eapply same_but_devs_trans; [exact Hs1|]. by destruct g1.
Qed.

(** * Hotplug events *)

Lemma wf_new_device g d :
  WF ex0 g → coh g → ¬ has_d g d →
  WF (unseat (Some d) ex0) (g <| g_dseat := <[d := None]> (g_dseat g) |>
                              <| g_dusers := <[d := []]> (g_dusers g) |>).
Proof.
  intros Hwf Hg Hd.
  assert (Hmono : ∀ i k, g_dseat g !! i = Some (Some k) →
                          <[d := None]> (g_dseat g) !! i = Some (Some k)).
  { intros i k' Hi. rewrite lookup_insert_ne; [done|]. intros <-. apply Hd. by eexists. }
  destruct Hwf; constructor; cbn; try assumption.
  - intros sid ds dev n H1 H2. destruct (wf_sds _ _ _ _ H1 H2) as (?&?&k'&us&?&?&?&?).
    split_and!; [done..|]. exists k', us. split_and!; eauto.
    rewrite lookup_insert_ne; [done|]. intros Heq. apply Hd. rewrite Heq. by eexists.
  - intros d' us [[<- <-]|[Hne Hd']]%lookup_insert_Some; [|eauto].
    split; [constructor|]. by intros ? ? ?%elem_of_nil.
  - intros d' k [[? [=]]|[Hne Hd']]%lookup_insert_Some. eauto.
  - intros d' [[<- _]|[Hne Hd']]%lookup_insert_Some; [done|]. by apply wf_seated in Hd'.
  - intros k l Hl. destruct (wf_tdevs _ _ Hl). eauto.
Qed.

Lemma hoare_manager_add_device g d b :
  WF ex0 g → coh g →
  hoare g (manager_add_device d b) (λ _ g', (WF ex0 g' ∨ WF (unseat (Some d) ex0) g') ∧
    same_but_devs g g' ∧ has_d g' d).
Proof.
  intros Hwf Hg. unfold manager_add_device.
  eapply (hoare_soft_bind _ _ _ (λ o, is_Some o ↔ has_d g d)).
  { apply soft_gets. intros m <-. unfold has_d; cbn. by rewrite lookup_fmap, fmap_is_Some. }
  intros [v|] Ho.
  - assert (Hd : has_d g d) by by apply Ho.
    eapply hoare_mono; [by apply hoare_upd_device|]. intros _ g' (v'&Hv&->).
    assert (put_d g d (v' <| d_master := d_master v' || b |>) = g) as -> by (same_row; by destruct g).
    split; [by left|]. split; [apply same_but_devs_refl|done].
  - assert (Hd : ¬ has_d g d) by (intros H; apply Ho in H; by destruct H).
    eapply hoare_mono.
    + apply (hoare_modify _ _ (λ _ g', g' = g <| g_dseat := <[d := None]> (g_dseat g) |>
        <| g_dusers := <[d := []]> (g_dusers g) |>)).
      intros m <-. unfold cols_of; cbn. by rewrite !fmap_insert.
    + intros _ g' ->. split; [right; by apply wf_new_device|]. split; [by destruct g|].
      unfold has_d; cbn. rewrite lookup_insert_eq. by eexists.
Qed.

Context {Ok : EnvOk}.

(** A new seat changes nothing for sessions and users. *)
Lemma same_but_plug_put_new_seat g k : same_but_plug g (put_new_seat g k).
Proof. done. Qed.
Lemma same_but_start_plug g g' : same_but_start g g' → same_but_plug g g'.
Proof. unfold same_but_start, same_but_plug. by intros ->. Qed.
Lemma same_but_tq_plug g g' : same_but_tq g g' → same_but_plug g g'.
Proof. unfold same_but_tq, same_but_plug. by intros ->. Qed.

Lemma soft_lookup_seat g k :
  soft g (gets (λ m, m_seats m !! k)) (λ o, is_Some o ↔ has_t g k).
Proof. apply soft_gets. intros m <-. unfold has_t; cbn. by rewrite lookup_fmap, fmap_is_Some. Qed.
Lemma soft_lookup_device g d :
  soft g (gets (λ m, m_devices m !! d)) (λ o, is_Some o ↔ has_d g d).
Proof. apply soft_gets. intros m <-. unfold has_d; cbn. by rewrite lookup_fmap, fmap_is_Some. Qed.

(** The removal of a device. *)
Lemma hoare_unplug g d :
  WF ex0 g → coh g → has_d g d →
  hoare g (dv <- get_device d ;; k <- deref (d_seat dv) ;;
           seat_add_to_gc_queue k ;;; device_free d ;;; ret 0)
    (λ _ g', WF ex0 g' ∧ same_but_plug g g').
Proof.
  intros Hwf Hg Hd. eapply hoare_soft_bind; [by apply soft_get_device|]. intros v [Hseat _].
  destruct (d_seat v) as [k|] eqn:Ek; [|by apply (wf_seated _ _ Hwf) in Hseat].
  eapply hoare_soft_bind; [by apply (soft_ret _ _ (λ z, z = k))|]. intros ? ->.
  eapply hoare_bind; [eapply hoare_seat_add_to_gc_queue; eauto with links|].
  intros _ g1 (Hwf1&Hs1&_). apply hoare_coh; intros Hg1.
  eapply hoare_bind; [eapply hoare_device_free; [done|done| |by left]; by rewrite Hs1|].
  intros _ g2 (Hwf2&Hs2&_). apply hoare_ret. split; [exact Hwf2|].
  eapply same_but_plug_trans; [by apply same_but_tq_plug|by apply same_but_devs_plug].
Qed.

Lemma hoare_plug g d k :
  WF ex0 g ∨ WF (unseat (Some d) ex0) g → coh g → has_d g d → has_t g k →
  hoare g (device_attach d k ;;; ignore (seat_start k) ;;; ret 0)
    (λ _ g', WF ex0 g' ∧ same_but_plug g g').
Proof.
  intros Hwf Hg Hd Hk. eapply (hoare_bind _ _ _ (λ _ g1, WF ex0 g1 ∧ same_but_devs g g1)).
  { destruct Hwf as [Hwf|Hwf].
    - eapply hoare_mono; [eapply hoare_device_attach; [exact Hwf|done..|by left]|]. done.
    - eapply hoare_mono; [eapply hoare_device_attach; [exact Hwf|done..|by right]|]. done. }
  intros _ g1 (Hwf1&Hs1). apply hoare_coh; intros Hg1.
  apply (hoare_bind _ _ _ (λ _ g2, WF ex0 g2 ∧ same_but_start g1 g2)).
  { apply hoare_ignore. eapply hoare_mono; [apply hoare_seat_start; [done|done|by rewrite Hs1]|].
    by intros _ g2 (?&?&_). }
  intros _ g2 (Hwf2&Hs2). apply hoare_ret. split; [done|].
  eapply same_but_plug_trans; [by apply same_but_devs_plug|by apply same_but_start_plug].
Qed.

Lemma hoare_manager_process_seat_device g d :
  WF ex0 g → coh g →
  hoare g (manager_process_seat_device d) (λ _ g', WF ex0 g' ∧ same_but_plug g g').
Proof.
  intros Hwf Hg. pose proof (same_but_plug_refl g) as Hrefl.
  unfold manager_process_seat_device. destruct (_ || _).
  { destruct (dev_syspath d) as [sp|]; [|by apply hoare_ret].
    intros m Hm. unfold gets, bind at 1, wp; cbn.
    pose proof (hoare_unplug g sp Hwf Hg) as H. unfold hoare, wp in H.
    specialize (soft_lookup_device g sp m Hm) as [_ Hlk]. cbn in Hlk.
    destruct (m_devices m !! sp) as [v|] eqn:Ev; [|by cbn; rewrite Hm].
    specialize (H (proj1 Hlk ltac:(by eexists)) m Hm).
    unfold get_device, gets, bind in H; rewrite Ev in H. exact H. }
  cbv zeta. set (sn := match dev_id_seat d with Some _ => _ | None => _ end).
  destruct (negb (seat_name_is_valid sn)); [by apply hoare_ret|].
  eapply hoare_soft_bind; [apply soft_lookup_seat|]. intros o Ho.
  destruct (_ && _); [by apply hoare_ret|].
  destruct (dev_syspath d) as [sp|]; [|by apply hoare_ret].
  eapply hoare_bind; [by apply hoare_manager_add_device|].
  intros _ g1 (Hwf1&Hs1&Hd1). apply hoare_coh; intros Hg1.
  eapply (hoare_bind _ _ _ (λ r g2, (WF ex0 g2 ∨ WF (unseat (Some sp) ex0) g2) ∧
    same_but_plug g1 g2 ∧ has_d g2 sp ∧ (0 ≤ r → has_t g2 sn))).
  { destruct o as [t|]; cbn [is_some].
    - apply hoare_ret. split_and!; [done|apply same_but_plug_refl|done|]. intros _.
      rewrite Hs1. apply Ho. by eexists.
    - assert (Hadd : ∀ x, WF x g1 → hoare g1 (manager_add_seat sn) (λ r g2, WF x g2 ∧
        same_but_plug g1 g2 ∧ has_d g2 sp ∧ (0 ≤ r → has_t g2 sn))).
      { intros x Hx. eapply hoare_mono; [by apply hoare_manager_add_seat|].
        intros r g2 (?&[[? ->]|(?&?&[->|[_ ->]])]); (split; [done|]).
        - split_and!; [apply same_but_plug_refl|done|lia].
        - split_and!; [apply same_but_plug_refl|done|done].
        - split_and!; [apply same_but_plug_put_new_seat|done|done]. }
      destruct Hwf1 as [Hx|Hx]; (eapply hoare_mono; [exact (Hadd _ Hx)|]);
        intros r g2 (?&?&?&?); auto. }
  intros r g2 (Hwf2&Hs2&Hd2&Hk2). apply hoare_coh; intros Hg2.
  assert (Hs02 : same_but_plug g g2).
  { eapply same_but_plug_trans; [by apply same_but_devs_plug|done]. }
  destruct (r <? 0) eqn:Er.
  - eapply hoare_soft_bind; [by apply soft_get_device|]. intros v [Hseat _].
    eapply (hoare_bind _ _ _ (λ _ g3, WF ex0 g3 ∧ same_but_plug g2 g3)).
    { destruct (d_seat v) as [k|] eqn:Ek; cbn [is_some negb when].
      - apply hoare_ret. split; [|apply same_but_plug_refl].
        destruct Hwf2 as [?|Hwf2]; [done|].
        apply (wf_unseat_none _ _ sp k Hwf2); [by right|done].
      - destruct Hwf2 as [Hwf2|Hwf2].
        + eapply hoare_mono; [eapply hoare_device_free; [exact Hwf2|done|done|by left]|].
          intros _ g3 (?&?&_). split; [done|by apply same_but_devs_plug].
        + eapply hoare_mono; [eapply hoare_device_free; [exact Hwf2|done|done|by right]|].
          intros _ g3 (?&?&_). split; [done|by apply same_but_devs_plug]. }
    intros _ g3 (?&Hs3). apply hoare_ret. split; [done|]. eapply same_but_plug_trans; [exact Hs02|exact Hs3].
  - apply Z.ltb_ge in Er. eapply hoare_mono; [apply hoare_plug; auto|].
    intros _ g3 (?&Hs3). split; [done|]. eapply same_but_plug_trans; [exact Hs02|exact Hs3].
Qed.
End Hotplug.
