(* ===== verification/LinksTake.v ===== *)
(** Taking devices ([session_device_new], [session_device_complete_pause]) keeps
    the links well-formed. *)
From S2P Require Import Prelude Time LoginTypes ActionTypes LoginState LoginEnv Objects SessionDevice Seat Device Moves Cols Links LinksObjects LinksDevice LinksSeat LinksPositions LinksAttach LinksHotplug.

(** Session [sid] has taken [dev], as the links say. *)
Definition g_taken (g : cols) (sid : string) (dev : Z) : Prop :=
  ∃ ds, g_sds g !! sid = Some ds ∧ is_Some (ds !! dev).
Definition g_no_take (g g' : cols) : Prop :=
  ∀ sid dev, g_taken g' sid dev → g_taken g sid dev.

Lemma taken_cols m sid dev : taken m sid dev ↔ g_taken (cols_of m) sid dev.
Proof.
  unfold taken, g_taken; cbn. rewrite lookup_fmap. split.
  - intros (s&->&H). exists (sds_of s). split; [done|]. unfold sds_of.
    by rewrite lookup_fmap, fmap_is_Some.
  - intros (ds&Hs&H). destruct (m_sessions m !! sid) as [s|]; [|done]. injection Hs as <-.
    exists s. split; [done|]. unfold sds_of in H. by rewrite lookup_fmap, fmap_is_Some in H.
Qed.
Lemma hoare_no_take {A} g (c : MM A) Q :
  moves no_take c → hoare g c Q → hoare g c (λ a g', Q a g' ∧ g_no_take g g').
Proof.
  intros Hc HQ m <-. specialize (HQ m eq_refl). specialize (Hc m). unfold wp in *.
  destruct (c m) as [[a m']|] eqn:Ec; [|done]. split; [done|].
  intros sid dev. rewrite <- !taken_cols. by apply (Hc a m' eq_refl).
Qed.

(** [session_is_active] without the whole invariant. *)
Lemma soft_session_is_active_raw g sid :
  has_s g sid → (∀ k, g_seat g !! sid = Some (Some k) → has_t g k) →
  soft g (session_is_active sid) (λ b, b = true ↔ is_active g sid).
Proof.
  intros Hs Hk. unfold session_is_active. eapply soft_bind; [by apply soft_get_session|].
  intros s Hr. assert (Hseat : g_seat g !! sid = Some (s_seat s)) by apply Hr.
  destruct (s_seat s) as [k|] eqn:E.
  - eapply soft_bind; [by apply soft_get_seat, Hk|]. intros st Ht.
    assert (Ha : g_active g !! k = Some (se_active st)) by apply Ht.
    apply soft_ret. rewrite bool_decide_eq_true. unfold is_active. split.
    + intros Ea. right. exists k. split; [done|]. by rewrite Ha, Ea.
    + intros [?|(k'&Hk'&?)]; congruence.
  - apply soft_ret. split; [|done]. intros _. by left.
Qed.

Section Take.
Context {E : Env} {Bt : Boot}.

Lemma hoare_session_device_first_open g sid type node :
  type ≠ DEVICE_TYPE_UNKNOWN → has_s g sid →
  (∀ k, g_seat g !! sid = Some (Some k) → has_t g k) →
  soft g (session_device_first_open sid type node)
    (λ o, fst o = true → is_active g sid).
Proof.
  intros Ht Hs Hk. unfold session_device_first_open.
  eapply soft_bind; [by apply soft_session_is_active_raw|]. intros a Ha.
  eapply soft_bind; [by apply soft_session_device_open|]. intros r _.
  destruct (r <? 0); [|apply soft_ret; by apply Ha].
  destruct (_ && _); [|apply soft_ret; by apply Ha].
  eapply soft_bind; [by apply soft_session_device_open|]. intros r' _. by apply soft_ret.
Qed.

Context {Ok : EnvOk}.

(** A device that [session_device_verify] accepts is on the session's seat. *)
Lemma hoare_session_device_verify g sid dev :
  WF ex0 g → coh g → has_s g sid →
  hoare g (session_device_verify sid dev) (λ v g', WF ex0 g' ∧ same_but_plug g g' ∧
    match v with
    | inl r => r < 0
    | inr (type, sysfs, node) => type ≠ DEVICE_TYPE_UNKNOWN ∧
        ∃ a, g_dseat g' !! sysfs = Some a ∧ g_seat g !! sid = Some a
    end).
Proof.
  intros Hwf Hg Hs. pose proof (same_but_plug_refl g) as Hrefl.
  unfold session_device_verify. destruct (e_device_from_devnum dev) as [r|[p parent]] eqn:Edev;
    [apply hoare_ret; split_and!; [done..|by eapply e_device_error_ok]|].
  destruct (dev_syspath p) as [sp0|]; [|by apply hoare_ret].
  destruct (dev_devname p) as [node|]; [|by apply hoare_ret]. cbv zeta.
  destruct (match detect_device_type p with DEVICE_TYPE_UNKNOWN => _ | _ => _ end)
    as [[q sp]|] eqn:Et; [|by apply hoare_ret].
  assert (Hty : detect_device_type p ≠ DEVICE_TYPE_UNKNOWN) by (intros H; by rewrite H in Et).
  eapply hoare_soft_bind; [apply soft_lookup_device|]. intros o Ho.
  eapply (hoare_bind _ _ _ (λ r g1, WF ex0 g1 ∧ same_but_plug g g1 ∧ (0 ≤ r → has_d g1 sp))).
  { destruct o as [v|].
    - apply hoare_ret. split_and!; [done..|]. intros _. apply Ho. by eexists.
    - eapply hoare_bind; [by apply hoare_manager_process_seat_device|].
      intros r g1 (?&?). destruct (r <? 0) eqn:Er.
      + apply Z.ltb_lt in Er. apply hoare_ret. split_and!; [done..|lia].
      + eapply hoare_soft_bind; [apply soft_lookup_device|]. intros o' Ho'.
        apply hoare_ret. split_and!; [done..|]. destruct o'; cbn [is_some].
        * intros _. apply Ho'. by eexists.
        * unfold ENODEV. lia. }
  intros r g1 (Hwf1&Hs1&Hd1). destruct (r <? 0) eqn:Er;
    [apply Z.ltb_lt in Er; by apply hoare_ret|].
  apply Z.ltb_ge in Er. eapply hoare_soft_bind; [by apply soft_get_device, Hd1|].
  intros v [Hv _]. eapply hoare_soft_bind; [apply soft_get_session; rewrite Hs1; exact Hs|].
  intros s Hr. assert (Hseat : g_seat g1 !! sid = Some (s_seat s)) by apply Hr.
  case_bool_decide as Hb; cbn [negb]; apply hoare_ret; [|done].
  split_and!; [done..|]. exists (d_seat v). split; [done|]. rewrite Hs1 in Hseat. cbn in Hseat.
  congruence.
Qed.

(** ** The new session device *)

Definition with_sd (g : cols) (sid : string) (dev : Z) (ds : gmap Z sdnode) (n : sdnode)
    (us : list (string * Z)) : cols :=
  (put_sds g sid (<[dev := n]> ds))
    <| g_dusers := <[sn_device n := (sid, dev) :: us]> (g_dusers g) |>.

Lemma wf_with_sd g sid dev ds n us k :
  WF ex0 g → g_sds g !! sid = Some ds → ds !! dev = None →
  g_dusers g !! sn_device n = Some us → g_dseat g !! sn_device n = Some (Some k) →
  g_seat g !! sid = Some (Some k) → sd_ok n → (sn_active n = true → is_active g sid) →
  WF ex0 (with_sd g sid dev ds n us).
Proof.
  intros Hwf Hs Hn Hus Hd Hk [Hkn Hfd] Hact. unfold with_sd.
  destruct Hwf; constructor; cbn; try assumption.
  - intros sid' ds' dev' n' Hs' Hn'.
    assert (Hc : (sid' = sid ∧ dev' = dev ∧ n' = n) ∨
      ∃ ds0, g_sds g !! sid' = Some ds0 ∧ ds0 !! dev' = Some n').
    { apply lookup_insert_Some in Hs' as [[<- <-]|[Hne Hs']]; [|by right; exists ds'].
      apply lookup_insert_Some in Hn' as [[<- <-]|[Hne Hn']]; [by left|by right; exists ds]. }
    destruct Hc as [(->&->&->)|(ds0&H1&H2)].
    + split; [done|]. split; [done|]. exists k. eexists. rewrite lookup_insert_eq.
      split_and!; [done..|left].
    + destruct (wf_sds _ _ _ _ H1 H2) as (?&?&k'&us'&?&?&Hus'&?). split; [done|]. split; [done|].
      exists k'. destruct (decide (sn_device n' = sn_device n)) as [Heq|Hne].
      * rewrite Heq in *. rewrite lookup_insert_eq. assert (us' = us) as -> by congruence.
        eexists. split_and!; [done..|by right].
      * rewrite lookup_insert_ne by done. by exists us'.
  - assert (Hmono : ∀ i e ds1 n1, g_sds g !! i = Some ds1 → ds1 !! e = Some n1 →
      ∃ ds2, <[sid := <[dev := n]> ds]> (g_sds g) !! i = Some ds2 ∧ ds2 !! e = Some n1).
    { intros i e ds1 n1 H1 H2. destruct (decide (sid = i)) as [<-|].
      - rewrite lookup_insert_eq. eexists. split; [done|]. assert (ds1 = ds) as -> by congruence.
        rewrite lookup_insert_ne; [done|]. intros <-. congruence.
      - rewrite lookup_insert_ne by done. eauto. }
    intros d us' [[<- <-]|[Hne Hd']]%lookup_insert_Some.
    + destruct (wf_dusers _ _ Hus) as [Hnd Hin]. split.
      * constructor; [|done]. intros (ds1&n1&H1&H2&_)%Hin. congruence.
      * intros i e [[= -> ->]|Hi]%elem_of_cons.
        { exists (<[dev := n]> ds), n. by rewrite !lookup_insert_eq. }
        destruct (Hin _ _ Hi) as (ds1&n1&H1&H2&H3).
        destruct (Hmono _ _ _ _ H1 H2) as (ds2&?&?). eauto.
    + destruct (wf_dusers _ _ Hd') as [Hnd Hin]. split; [done|].
      intros i e (ds1&n1&H1&H2&H3)%Hin. destruct (Hmono _ _ _ _ H1 H2) as (ds2&?&?). eauto.
  - intros sid' ds' dev' n' Hs' Hn' Ha. apply lookup_insert_Some in Hs' as [[<- <-]|[Hne Hs']];
      [|eauto].
    apply lookup_insert_Some in Hn' as [[<- <-]|[Hne Hn']]; [|eauto].
    destruct (Hact Ha) as [?|?]; [congruence|by right].
Qed.

(** Removing a device number from the table of a session. *)
Lemma hoare_forget_sd g sid dev ds :
  coh g → g_sds g !! sid = Some ds →
  hoare g (upd_session sid (λ s, s <| s_devices := delete dev (s_devices s) |>))
    (λ _ g', g' = put_sds g sid (delete dev ds)).
Proof.
  intros Hg Hs. eapply hoare_mono; [apply hoare_upd_session; by eapply coh_sds|].
  intros _ g' (s&Hr&->).
  assert (sds_of s = ds) as Es by (destruct Hr as (_&_&_&_&_&_&_&?&_); congruence).
  assert (sds_of (s <| s_devices := delete dev (s_devices s) |>) = delete dev ds) as Ed
    by (rewrite <- Es; unfold sds_of; cbn; by rewrite fmap_delete).
  unfold put_s. rewrite Ed. same_row. done.
Qed.
Lemma hoare_add_sd g sid dev ds d :
  coh g → g_sds g !! sid = Some ds →
  hoare g (upd_session sid (λ s, s <| s_devices := <[dev := d]> (s_devices s) |>))
    (λ _ g', g' = put_sds g sid (<[dev := sdnode_of d]> ds)).
Proof.
  intros Hg Hs. eapply hoare_mono; [apply hoare_upd_session; by eapply coh_sds|].
  intros _ g' (s&Hr&->).
  assert (sds_of s = ds) as Es by (destruct Hr as (_&_&_&_&_&_&_&?&_); congruence).
  assert (sds_of (s <| s_devices := <[dev := d]> (s_devices s) |>)
    = <[dev := sdnode_of d]> ds) as Ed
    by (rewrite <- Es; unfold sds_of; cbn; by rewrite fmap_insert).
  unfold put_s. rewrite Ed. same_row. done.
Qed.

(** Opening the device that was just put in the table. *)
Definition open_new (sid : string) (dev : Z) (type : DeviceType) (node : string) : MM Z :=
  o <- session_device_first_open sid type node ;;
  upd_sd sid dev (λ d, d <| sd_active := fst o |>) ;;;
  when (0 <=? snd o) (upd_sd sid dev (λ d, d <| sd_fd := snd o |>)) ;;;
  ret (snd o).

Lemma hoare_open_new g sid dev type node ds n :
  coh g → type ≠ DEVICE_TYPE_UNKNOWN → g_sds g !! sid = Some ds → ds !! dev = Some n →
  sn_active n = false → (∀ k, g_seat g !! sid = Some (Some k) → has_t g k) →
  hoare g (open_new sid dev type node) (λ r g', ∃ n', g' = put_sds g sid (<[dev := n']> ds) ∧
    sn_device n' = sn_device n ∧ sn_known n' = sn_known n ∧
    (0 ≤ r → sn_fd_ok n' = true ∧ (sn_active n' = true → is_active g sid))).
Proof.
  intros Hg Ht Hs Hn Ha Hk. unfold open_new.
  eapply hoare_soft_bind; [apply hoare_session_device_first_open; [done|by eapply coh_sds|done]|].
  intros o Ho. set (n1 := mkSdnode (sn_device n) (fst o) (sn_fd_ok n) (sn_known n)).
  eapply hoare_bind; [apply (hoare_upd_sd g Hg sid dev ds n Hs Hn _ n1)|].
  { intros d <-. done. }
  intros _ g1 ->. apply hoare_coh; intros Hg1.
  destruct (0 <=? snd o) eqn:Eo; cbn [when].
  - apply Z.leb_le in Eo. set (n2 := mkSdnode (sn_device n) (fst o) true (sn_known n)).
    eapply hoare_bind.
    { apply (hoare_upd_sd _ Hg1 sid dev (<[dev := n1]> ds) n1 (put_sds_lookup _ _ _)
        (lookup_insert_eq _ _ _) _ n2).
      intros d Hd. unfold n2. unfold sdnode_of in *. cbn. rewrite (proj2 (Z.leb_le _ _) Eo).
      injection Hd as <- <- ? ->. done. }
    intros _ g2 ->. apply hoare_ret. exists n2.
    rewrite put_sds_twice, insert_insert_eq. by split_and!.
  - apply Z.leb_gt in Eo. eapply hoare_soft_bind; [by apply (soft_ret _ tt (λ _, True))|].
    intros _ _. apply hoare_ret. exists n1. split_and!; [done..|]. intros; lia.
Qed.

Lemma hoare_session_device_new g sid dev b :
  WF ex0 g → coh g → has_s g sid → ¬ g_taken g sid dev →
  hoare g (session_device_new sid dev b) (λ r g', WF ex0 g' ∧ same_but_plug g g' ∧
    (0 ≤ r ↔ g_taken g' sid dev) ∧ ∀ dev', g_taken g' sid dev' → dev' = dev ∨ g_taken g sid dev').
Proof.
  intros Hwf Hg Hs Hnt. unfold session_device_new.
  eapply hoare_soft_bind; [by apply soft_get_session|]. intros s Hr.
  assert (Hseat : g_seat g !! sid = Some (s_seat s)) by apply Hr.
  destruct (s_seat s) as [k|] eqn:Ek; cbn [is_some negb];
    [|apply hoare_ret; split_and!; [done|apply same_but_plug_refl|split; [unfold EPERM; lia|done]|by right]].
  eapply hoare_bind; [apply hoare_no_take; [apply moves_session_device_verify
                                           |by apply hoare_session_device_verify]|].
  intros v g1 ((Hwf1&Hs1&Hv)&Hnt1). apply hoare_coh; intros Hg1.
  assert (Hs1' : has_s g1 sid) by (rewrite Hs1; exact Hs).
  destruct (coh_sds_of _ _ Hg1 Hs1') as [ds Hds].
  assert (Hnone : ds !! dev = None).
  { apply eq_None_not_Some. intros Hsome. apply Hnt, Hnt1. by exists ds. }
  assert (Herr : ∀ r ds', r < 0 → delete dev ds' = ds → coh (put_sds g1 sid ds') →
    hoare (put_sds g1 sid ds') (upd_session sid (λ s, s <| s_devices := delete dev (s_devices s) |>)
      ;;; ret r) (λ (r : Z) g', WF ex0 g' ∧ same_but_plug g g' ∧
        (0 ≤ r ↔ g_taken g' sid dev) ∧ ∀ dev', g_taken g' sid dev' → dev' = dev ∨ g_taken g sid dev')).
  { intros r ds' Hneg Hdel Hc. eapply hoare_bind; [by eapply hoare_forget_sd, put_sds_lookup|].
    intros _ g' ->. apply hoare_ret. rewrite Hdel, put_sds_twice, put_sds_id by done. split_and!; [done|done| |].
    - split; [lia|]. intros (ds2&Hds2&[? Ht2]). rewrite Hds in Hds2. by simplify_eq.
    - intros dev' Ht. right. by apply Hnt1. }
  assert (Hput : put_sds g1 sid ds = g1) by by apply put_sds_id.
  assert (Hdel : delete dev ds = ds) by by apply delete_id.
  cbv zeta. destruct v as [r|[[type sysfs] node]].
  { rewrite <- Hput. apply Herr; [done..|]. by rewrite Hput. }
  destruct Hv as (Hty&a&Hda&Hsa). rewrite Hseat in Hsa. injection Hsa as <-.
  assert (Hseat1 : g_seat g1 !! sid = Some (Some k)) by (rewrite Hs1; exact Hseat).
  eapply hoare_soft_bind; [by apply soft_get_session|]. intros s1 Hr1.
  assert (s_devices s1 !! dev = None) as Hnone1.
  { assert (sds_of s1 = ds) as <- by (destruct Hr1 as (_&_&_&_&_&_&_&?&_); congruence).
    unfold sds_of in Hnone. rewrite lookup_fmap in Hnone. by destruct (s_devices s1 !! dev). }
  rewrite Hnone1. cbn [is_some]. clear Hr1.
  eapply hoare_bind; [by apply hoare_add_sd|]. intros _ g2 ->. apply hoare_coh; intros Hg2.
  set (n0 := sdnode_of _). set (ds1 := <[dev := n0]> ds).
  assert (Hknown : sn_known n0 = true) by (cbn; by rewrite bool_decide_false).
  assert (Hkt : ∀ k', g_seat (put_sds g1 sid ds1) !! sid = Some (Some k') →
                      has_t (put_sds g1 sid ds1) k').
  { intros k' Hk'. assert (has_t g1 k') by eauto with links. done. }
  eapply (hoare_bind _ _ _ (λ r g', ∃ n', g' = put_sds g1 sid (<[dev := n']> ds) ∧
    sn_device n' = sysfs ∧ (0 ≤ r → sd_ok n' ∧ (sn_active n' = true → is_active g1 sid)))).
  { destruct b.
    - eapply hoare_mono.
      { eapply (hoare_open_new _ sid dev type node ds1 n0); [done..|apply put_sds_lookup| |done|done].
        unfold ds1. by rewrite lookup_insert_eq. }
      intros r g' (n'&->&Hd&Hkn&Hok). exists n'. unfold ds1.
      rewrite put_sds_twice, insert_insert_eq. split_and!; [done..|]. intros H0.
      destruct (Hok H0). split; [|done]. split; [congruence|done].
    - apply hoare_ret. exists n0. split_and!; [done..|]. intros _. split; [|done]. done. }
  intros r g3 (n'&->&Hdn&Hok). apply hoare_coh; intros Hg3. destruct (r <? 0) eqn:Er.
  { apply Z.ltb_lt in Er. apply Herr; [done| |done]. by rewrite delete_insert_id. }
  apply Z.ltb_ge in Er. destruct (Hok Er) as [Hsd Hact].
  destruct (coh_dseat g1 sysfs _ Hg1 Hda) as [us Hus].
  eapply hoare_bind; [apply hoare_upd_device; by eexists|]. intros _ g4 (v&Hv&->).
  assert (put_d (put_sds g1 sid (<[dev:=n']> ds)) sysfs
      (v <| d_session_devices := (sid, dev) :: d_session_devices v |>)
    = with_sd g1 sid dev ds n' us) as ->.
  { assert (d_session_devices v = us) as Ev by (destruct Hv as [_ Hv]; cbn in Hv; congruence).
    unfold with_sd. rewrite Hdn, Ev. same_row. done. }
  apply hoare_ret. split_and!; [|eapply same_but_plug_trans; [exact Hs1|by destruct g1]| |].
  - rewrite <- Hdn in *. by eapply wf_with_sd.
  - split; [intros _|done]. exists (<[dev := n']> ds). unfold with_sd. cbn. rewrite !lookup_insert_eq. eauto.
  - intros dev' (ds2&Hds2&Hin). unfold with_sd in Hds2; cbn in Hds2. rewrite lookup_insert_eq in Hds2. injection Hds2 as <-.
    apply lookup_insert_is_Some in Hin as [<-|[_ Hin]]; [by left|right]. apply Hnt1. by exists ds.
Qed.

(** ** The controller has paused a device *)

Lemma hoare_session_device_complete_pause g sid dev :
  WF ex0 g → coh g → g_taken g sid dev →
  hoare g (session_device_complete_pause sid dev) (λ _ g', WF ex0 g' ∧ same_but_act g g').
Proof.
  intros Hwf Hg (ds&Hs&[n Hn]). unfold session_device_complete_pause.
  eapply hoare_soft_bind; [by eapply soft_get_sd|]. intros d Hd.
  destruct (negb (sd_active d)); [apply hoare_ret; split; [done|apply same_but_act_refl]|].
  destruct (wf_sds _ _ Hwf _ _ _ _ Hs Hn) as (Hkn&_&k&us&Hk&_).
  eapply hoare_bind; [by eapply hoare_session_device_stop|]. intros _ g1 ->.
  assert (Hwf1 : WF ex0 (put_sds g sid
    (<[dev:=mkSdnode (sn_device n) false (sn_fd_ok n) (sn_known n)]> ds))).
  { eapply wf_pause_one; [done..| | |].
    - by eapply same_devices_insert.
    - apply sds_ok_insert; [by eapply wf_sds_ok|]. by split.
    - intros dev' n' [[<- <-]|[Hne Hn']]%lookup_insert_Some Ha; [done|by exists n']. }
  apply hoare_coh; intros Hg1.
  eapply hoare_soft_bind; [apply soft_get_session; by eapply coh_sds, put_sds_lookup|].
  intros s Hr. destruct (existsb _ _); [apply hoare_ret; split; [done|by destruct g]|].
  assert (Hk1 : g_seat g !! sid = Some (s_seat s)) by apply Hr.
  assert (s_seat s = Some k) as -> by congruence.
  eapply hoare_soft_bind; [by apply (soft_ret _ _ (λ z, z = k))|]. intros ? ->.
  eapply hoare_mono; [eapply hoare_seat_complete_switch; [done|done|]|].
  - assert (has_t g k) by eauto with links. done.
  - intros _ g2 (?&Hs2). split; [done|]. unfold same_but_act in *. rewrite Hs2. done.
Qed.
End Take.
