(* ===== verification/LinksUser.v ===== *)
(** Users keep the links well-formed: creation and start, the election of the
    display session, and the timer of the last session. *)
From S2P Require Import Prelude Time LoginTypes ActionTypes LoginState LoginEnv Objects User Cols Links LinksObjects LinksAttach.

(** Only display sessions and stop timers differ. *)
Definition same_but_user (g g' : cols) : Prop :=
  g' = g <| g_display := g_display g' |> <| g_ulast := g_ulast g' |>
         <| g_utimer := g_utimer g' |>.
Lemma same_but_user_refl g : same_but_user g g.
Proof. by destruct g. Qed.
Lemma same_but_user_trans g g' g'' :
  same_but_user g g' → same_but_user g' g'' → same_but_user g g''.
Proof. unfold same_but_user. intros -> ->. done. Qed.

(** Only the stop timers differ. *)
Definition same_but_timer (g g' : cols) : Prop :=
  g' = g <| g_ulast := g_ulast g' |> <| g_utimer := g_utimer g' |>.
Lemma same_but_timer_refl g : same_but_timer g g.
Proof. by destruct g. Qed.
Lemma same_but_timer_trans g g' g'' :
  same_but_timer g g' → same_but_timer g' g'' → same_but_timer g g''.
Proof. unfold same_but_timer. intros -> ->. done. Qed.
Lemma same_but_timer_user g g' : same_but_timer g g' → same_but_user g g'.
Proof. unfold same_but_timer, same_but_user. by intros ->. Qed.

Lemma wf_set_display x g uid sid :
  WF x g → g_user g !! sid = Some (Some uid) →
  WF x (g <| g_display := <[uid := Some sid]> (g_display g) |>).
Proof.
  intros Hwf Hu. destruct Hwf; constructor; cbn; try assumption.
  intros uid' d [[<- [= <-]]|[Hne Hd]]%lookup_insert_Some; eauto.
Qed.
(** The stop timer of [uid] may change, as long as there is none while the time
    of the last session is not set. *)
Lemma wf_set_timer x g uid last timer :
  WF x g → (last = USEC_INFINITY → timer = None) →
  WF x (g <| g_ulast := <[uid := last]> (g_ulast g) |>
          <| g_utimer := <[uid := timer]> (g_utimer g) |>).
Proof.
  intros Hwf Hl. destruct Hwf; constructor; cbn; try assumption.
  intros uid'. destruct (decide (uid = uid')) as [<-|].
  - rewrite !lookup_insert_eq. intros [= H]. by rewrite Hl.
  - rewrite !lookup_insert_ne by done. apply wf_utimer.
Qed.

(** Whether a user is live is not part of the invariant. *)
Definition same_but_live (g g' : cols) : Prop := g' = g <| g_live := g_live g' |>.
Lemma wf_same_but_live x g g' : WF x g → same_but_live g g' → WF x g'.
Proof.
  intros Hwf Hs. unfold same_but_live in Hs.
  destruct Hwf; constructor; rewrite Hs; assumption.
Qed.
Lemma same_but_live_refl g : same_but_live g g.
Proof. by destruct g. Qed.
Lemma same_but_live_trans g g' g'' :
  same_but_live g g' → same_but_live g' g'' → same_but_live g g''.
Proof. unfold same_but_live. intros -> ->. done. Qed.

Section User.
Context {E : Env} {Bt : Boot}.

(** An update of the fields of a user that are in no list or timer. *)
Lemma hoare_upd_live x g uid f :
  WF x g → (∀ u, u_sessions (f u) = u_sessions u ∧ u_display (f u) = u_display u ∧
    u_last_session_timestamp (f u) = u_last_session_timestamp u ∧
    u_timer_event_source (f u) = u_timer_event_source u ∧ u_in_gc_queue (f u) = u_in_gc_queue u) →
  has_u g uid →
  hoare g (upd_user uid f) (λ _ g', WF x g' ∧ ∃ u, row_u g uid u ∧
    g' = g <| g_live := <[uid := live_of (f u)]> (g_live g) |>).
Proof.
  intros Hwf Hf Hu. eapply hoare_mono; [by apply hoare_upd_user|]. intros _ g' (u&Hr&->).
  assert (put_u g uid (f u) = g <| g_live := <[uid := live_of (f u)]> (g_live g) |>) as ->.
  { destruct (Hf u) as (E1&E2&E3&E4&E5). unfold put_u. rewrite E1, E2, E3, E4, E5. same_row. done. }
  split; [|eauto]. eapply wf_same_but_live; [exact Hwf|by destruct g].
Qed.

Lemma hoare_user_start x g uid :
  WF x g → coh g → has_u g uid →
  hoare g (user_start uid) (λ _ g', WF x g' ∧ same_but_live g g').
Proof.
  intros Hwf Hg Hu. unfold user_start. eapply hoare_soft_bind; [by apply soft_get_user|]. intros u _.
  eapply (hoare_bind _ _ _ (λ _ g1, WF x g1 ∧ same_but_live g g1)).
  { destruct (_ || _); [|apply hoare_ret; split; [done|apply same_but_live_refl]].
    eapply hoare_bind; [by apply (hoare_upd_live x)|]. intros _ g1 (Hwf1&u1&_&->).
    apply hoare_coh; intros Hg1.
    eapply hoare_soft_bind; [apply soft_ignore; by eapply soft_user_save_internal|].
    intros _ _. eapply hoare_soft_bind; [apply soft_emit|]. intros. apply hoare_ret.
    split; [done|by destruct g]. }
  intros r g1 (Hwf1&Hs1). apply hoare_coh; intros Hg1. destruct (r <? 0); [by apply hoare_ret|].
  assert (Hu1 : has_u g1 uid) by (rewrite Hs1; exact Hu).
  eapply hoare_soft_bind; [by apply soft_get_user|]. intros u' _.
  apply (hoare_bind _ _ _ (λ _ g2, WF x g2 ∧ same_but_live g g2)).
  { apply hoare_when; [|done]. intros _. eapply hoare_soft_bind.
    { apply soft_upd_user; [|done]. intros ?. by destruct (dual_timestamp_is_set _). }
    intros _ _. eapply hoare_soft_bind; [apply soft_send_signal|]. intros _ _.
    eapply hoare_mono; [by apply (hoare_upd_live x)|]. intros _ g2 (?&u2&_&->).
    split; [done|]. eapply same_but_live_trans; [exact Hs1|by destruct g1]. }
  intros _ g2 (Hwf2&Hs2). apply hoare_coh; intros Hg2.
  assert (Hu2 : has_u g2 uid) by (rewrite Hs2; exact Hu).
  eapply hoare_soft_bind; [apply soft_ignore; by eapply soft_user_save|].
  intros _ _. by apply hoare_ret.
Qed.
Section Soft.
Context (x : exempt) (g : cols) (Hwf : WF x g) (Hg : coh g).

Lemma soft_any_pinning l :
  (∀ i, i ∈ l → has_s g i) → soft g (any_pinning l) (λ _, True).
Proof.
  induction l as [|i l IH]; intros Hl; cbn; [by apply soft_ret|].
  eapply soft_bind; [apply soft_get_session, Hl; left|]. intros s _.
  destruct (SESSION_CLASS_PIN_USER _); [by apply soft_ret|]. apply IH. intros; apply Hl; by right.
Qed.
Lemma soft_user_pinned_by_sessions uid u :
  row_u g uid u → soft g (user_pinned_by_sessions u) (λ _, True).
Proof.
  intros Hu. unfold user_pinned_by_sessions. destruct (u_gc_mode u); [by apply soft_ret|].
  apply soft_any_pinning. eauto with links.
Qed.
Lemma soft_user_get_stop_delay u : soft g (user_get_stop_delay u) (λ _, True).
Proof.
  unfold user_get_stop_delay. destruct (negb _); [by apply soft_ret|].
  destruct (_ <? _); [by apply soft_ret | apply soft_gets_true].
Qed.
Lemma soft_user_may_gc uid b : has_u g uid → soft g (user_may_gc uid b) (λ _, True).
Proof.
  intros Hu. unfold user_may_gc. eapply soft_bind; [by apply soft_get_user|]. intros u Hr.
  destruct (_ && _); [by apply soft_ret|].
  eapply soft_bind; [by eapply soft_user_pinned_by_sessions|]. intros pin _.
  destruct pin; [by apply soft_ret|].
  eapply (soft_bind _ _ _ (λ _, True)).
  { unfold user_in_stop_delay. destruct (_ =? _); [by apply soft_ret|].
    eapply soft_bind; [apply soft_user_get_stop_delay|]. intros. by apply soft_ret. }
  intros w _. destruct w; [by apply soft_ret|]. destruct (0 <? _); by apply soft_ret.
Qed.
Lemma soft_user_get_idle_hint uid : has_u g uid → soft g (user_get_idle_hint uid) (λ _, True).
Proof.
  intros Hu. unfold user_get_idle_hint. eapply soft_bind; [by apply soft_get_user|]. intros u Hr.
  apply soft_fold_m; [done|]. intros [ih ts] sid Hin _. unfold user_idle_step.
  eapply soft_bind; [apply soft_get_session; eauto with links|]. intros s _.
  destruct (negb _); [by apply soft_ret|].
  eapply soft_bind; [eapply soft_session_get_idle_hint; eauto with links|].
  intros [b k] _. by apply soft_ret.
Qed.
End Soft.

Lemma hoare_elect_one x g uid sid :
  WF x g → coh g → g_user g !! sid = Some (Some uid) → has_u g uid →
  hoare g (elect_one uid sid) (λ _ g', WF x g' ∧ same_but_user g g').
Proof.
  intros Hwf Hg Hu Huid. unfold elect_one.
  eapply hoare_soft_bind; [apply soft_get_session; eauto with links|]. intros s _.
  destruct (negb _); [apply hoare_ret; split; [done|apply same_but_user_refl]|].
  eapply hoare_soft_bind; [by apply soft_get_user|]. intros u Hr.
  eapply (hoare_soft_bind _ _ _ (λ _, True)).
  { destruct (u_display u) as [d|] eqn:Ed; [|by apply soft_ret].
    eapply soft_bind; [apply soft_get_session; eauto with links|]. intros. by apply soft_ret. }
  intros d _. apply hoare_when; [|intros _; split; [done|apply same_but_user_refl]]. intros _.
  eapply hoare_mono; [by apply hoare_upd_user|]. intros _ g' (u'&Hr'&->).
  assert (put_u g uid (u' <| u_display := Some sid |>)
    = g <| g_display := <[uid := Some sid]> (g_display g) |>) as -> by (clear Hr; same_row; done).
  split; [by apply wf_set_display | by destruct g].
Qed.

Lemma hoare_user_elect_display x g uid :
  WF x g → coh g → has_u g uid →
  hoare g (user_elect_display uid) (λ _ g', WF x g' ∧ same_but_user g g').
Proof.
  intros Hwf Hg Huid. unfold user_elect_display.
  eapply hoare_soft_bind; [by apply soft_get_user|]. intros u Hr.
  set (I := λ (l : list string) g', WF x g' ∧ same_but_user g g' ∧
    ∀ i, i ∈ l → g_user g !! i = Some (Some uid)).
  eapply hoare_mono; [apply (hoare_for_each _ _ _ I)|].
  - split; [done|]. split; [apply same_but_user_refl|]. eauto with links.
  - intros sid l g1 (Hwf1&Hs1&Hl). apply hoare_coh; intros Hg1.
    eapply hoare_mono.
    + eapply hoare_elect_one; [done|done| |rewrite Hs1; exact Huid].
      rewrite Hs1. apply Hl. left.
    + intros _ g2 (?&Hs2). split; [done|]. split; [by eapply same_but_user_trans|].
      intros; apply Hl; by right.
  - by intros _ g' (?&?&_).
Qed.

Context {Ok : EnvOk}.

Lemma hoare_user_update_last_session_timer x g uid :
  WF x g → coh g → has_u g uid →
  hoare g (user_update_last_session_timer uid) (λ _ g', WF x g' ∧ same_but_timer g g').
Proof.
  intros Hwf Hg Huid. unfold user_update_last_session_timer.
  eapply hoare_soft_bind; [by apply soft_get_user|]. intros u Hr.
  eapply hoare_soft_bind; [by eapply soft_user_pinned_by_sessions|]. intros pin _.
  destruct pin.
  { eapply hoare_mono; [by apply hoare_upd_user|]. intros _ g' (u'&Hr'&->).
    assert (put_u g uid (u' <| u_last_session_timestamp := USEC_INFINITY |>
        <| u_timer_event_source := None |>)
      = g <| g_ulast := <[uid := USEC_INFINITY]> (g_ulast g) |>
          <| g_utimer := <[uid := None]> (g_utimer g) |>) as -> by (clear Hr; same_row; done).
    split; [by apply wf_set_timer | by destruct g]. }
  destruct (u_last_session_timestamp u =? USEC_INFINITY) eqn:El; cbn [negb];
    [|apply hoare_ret; split; [done|apply same_but_timer_refl]].
  apply Z.eqb_eq in El.
  assert (Htimer : g_utimer g !! uid = Some None).
  { apply (wf_utimer _ _ Hwf). rewrite <- El. apply Hr. }
  assert (Hnow : e_now_monotonic ≠ USEC_INFINITY) by (pose proof e_now_monotonic_ok; lia).
  eapply hoare_bind; [by apply hoare_upd_user|]. intros _ g1 (u1&Hr1&->).
  assert (put_u g uid (u1 <| u_last_session_timestamp := e_now_monotonic |>)
    = g <| g_ulast := <[uid := e_now_monotonic]> (g_ulast g) |>
        <| g_utimer := <[uid := None]> (g_utimer g) |>) as ->.
  { clear Hr. rewrite (insert_id (g_utimer g)) by done. same_row. by destruct g. }
  pose proof (wf_set_timer _ _ uid e_now_monotonic None Hwf (λ _, eq_refl)) as Hwf1.
  set (g1 := g <| g_ulast := _ |> <| g_utimer := _ |>) in *.
  assert (Hs1 : same_but_timer g g1) by by destruct g.
  assert (Htu : u_timer_event_source u = None).
  { destruct Hr as (_&_&_&Ht&_). congruence. }
  eapply hoare_soft_bind; [apply soft_assert; by rewrite Htu|]. intros _ _.
  eapply hoare_soft_bind; [apply soft_user_get_stop_delay|]. intros delay _.
  destruct (negb _); [by apply hoare_ret|].
  destruct e_event_finished; [by apply hoare_ret|].
  destruct (_ <? 0); [by apply hoare_ret|].
  eapply hoare_mono; [apply hoare_upd_user; exact Huid|]. intros _ g2 (u2&Hr2&->).
  assert (u_last_session_timestamp u2 = e_now_monotonic) as E2.
  { destruct Hr2 as (_&_&Hl&_). cbn in Hl. rewrite lookup_insert_eq in Hl. congruence. }
  assert (put_u g1 uid (u2 <| u_timer_event_source := Some (usec_add e_now_monotonic delay) |>)
    = g1 <| g_ulast := <[uid := e_now_monotonic]> (g_ulast g1) |>
         <| g_utimer := <[uid := Some (usec_add e_now_monotonic delay)]> (g_utimer g1) |>) as ->.
  { rewrite <- E2. clear Hr Hr1. clearbody g1. same_row. by destruct g1. }
  split; [by apply wf_set_timer|]. eapply same_but_timer_trans; [exact Hs1|]. by destruct g1.
Qed.

(** A new user has no session. *)
Lemma wf_put_new_user x g ur :
  WF x g → coh g → ¬ has_u g (ur_uid ur) → WF x (put_u g (ur_uid ur) (new_user ur)).
Proof.
  intros Hwf Hg Hk.
  assert (Hno : ∀ sid, g_user g !! sid ≠ Some (Some (ur_uid ur))).
  { intros sid H. apply Hk. eauto with links. }
  destruct Hwf; constructor; cbn; try assumption.
  - intros i uid Hi. destruct (decide (ur_uid ur = uid)) as [<-|]; [by apply Hno in Hi|].
    rewrite lookup_insert_ne by done. eauto.
  - intros uid l [[<- <-]|[? ?]]%lookup_insert_Some; [|eauto].
    split; [constructor|]. by intros ? ?%elem_of_nil.
  - intros uid a [[<- [=]]|[? ?]]%lookup_insert_Some; eauto.
  - intros uid. destruct (decide (ur_uid ur = uid)) as [<-|].
    + by rewrite !lookup_insert_eq.
    + rewrite !lookup_insert_ne by done. apply wf_utimer.
  - destruct wf_uq as [? Hin]. split; [done|]. intros i Hi. apply Hin in Hi.
    rewrite lookup_insert_ne; [done|]. intros <-. apply Hk. by eapply coh_uqueued.
Qed.

Lemma hoare_manager_add_user x g ur :
  WF x g → coh g →
  hoare g (manager_add_user ur) (λ r g', WF x g' ∧ (g' = g ∨ g' = put_u g (ur_uid ur) (new_user ur)) ∧
    (0 ≤ r → has_u g' (ur_uid ur))).
Proof.
  intros Hwf Hg. unfold manager_add_user.
  eapply (hoare_soft_bind _ _ _ (λ o, is_Some o ↔ has_u g (ur_uid ur))).
  { apply soft_gets. intros m <-. unfold has_u; cbn. by rewrite lookup_fmap, fmap_is_Some. }
  intros [u|] Ho.
  { apply hoare_ret. split; [done|]. split; [by left|]. intros _. apply Ho. by eexists. }
  assert (Hk : ¬ has_u g (ur_uid ur)). { intros H. apply Ho in H. by destruct H. }
  unfold user_new. destruct (negb _).
  { apply hoare_ret. split; [done|]. split; [by left|]. unfold EINVAL. lia. }
  destruct (negb _).
  { apply hoare_ret. split; [done|]. split; [by left|]. unfold EINVAL. lia. }
  eapply (hoare_bind _ _ _ (λ _ g', g' = put_u g (ur_uid ur) (new_user ur))).
  { apply hoare_modify. intros m <-. unfold put_u, cols_of; cbn. by rewrite !fmap_insert. }
  intros _ g' ->. apply hoare_ret. split; [by apply wf_put_new_user|]. split; [by right|].
  intros _. unfold has_u; cbn. rewrite lookup_insert_eq. by eexists.
Qed.

Lemma hoare_user_stop_timeout_callback x g uid :
  WF x g → coh g → has_u g uid →
  hoare g (user_stop_timeout_callback uid) (λ _ g', WF x g').
Proof.
  intros. unfold user_stop_timeout_callback.
  eapply hoare_bind; [by eapply hoare_user_add_to_gc_queue|]. intros _ g' (?&_). by apply hoare_ret.
Qed.
End User.
