(* ===== verification/LinksSession.v ===== *)
(** Creating sessions, their users, leaders, control groups, hints, fifos and
    controllers keep the links well-formed. *)
From stdpp Require Import pretty.
From S2P Require Import Prelude Time LoginTypes ActionTypes LoginState LoginEnv Objects SessionDevice Seat Device User Session Cols Links LinksObjects LinksDevice LinksSeat LinksPositions LinksAttach LinksHotplug LinksUser.

(** * The objects stay, with their memberships and the queues *)

Definition same_objs (g g' : cols) : Prop :=
  g' = g <| g_pos := g_pos g' |> <| g_leader := g_leader g' |> <| g_lsrc := g_lsrc g' |>
         <| g_wd := g_wd g' |> <| g_sds := g_sds g' |> <| g_display := g_display g' |>
         <| g_ulast := g_ulast g' |> <| g_utimer := g_utimer g' |>
         <| g_active := g_active g' |> <| g_pending := g_pending g' |>
         <| g_positions := g_positions g' |> <| g_dusers := g_dusers g' |>
         <| g_bypid := g_bypid g' |> <| g_wdmap := g_wdmap g' |> <| g_cg := g_cg g' |>
         <| g_fifo := g_fifo g' |>.
Lemma same_objs_refl g : same_objs g g.
Proof. by destruct g. Qed.
Lemma same_objs_trans g g' g'' : same_objs g g' → same_objs g' g'' → same_objs g g''.
Proof. unfold same_objs. intros -> ->. done. Qed.
Lemma same_objs_sds g g' : same_but_sds g g' → same_objs g g'.
Proof. unfold same_objs, same_but_sds. by intros ->. Qed.
Lemma same_objs_act g g' : same_but_act g g' → same_objs g g'.
Proof. unfold same_objs, same_but_act. by intros ->. Qed.
Lemma same_objs_pos g g' : same_but_pos g g' → same_objs g g'.
Proof. unfold same_objs, same_but_pos. by intros ->. Qed.
Lemma same_objs_user g g' : same_but_user g g' → same_objs g g'.
Proof. unfold same_objs, same_but_user. by intros ->. Qed.
Create HintDb objs discriminated.
#[export] Hint Resolve same_objs_refl same_objs_sds same_objs_act same_objs_pos
  same_objs_user : objs.

(** Only who leads the sessions differs. *)
Definition same_but_leader (g g' : cols) : Prop :=
  g' = g <| g_leader := g_leader g' |> <| g_lsrc := g_lsrc g' |> <| g_bypid := g_bypid g' |>.
Lemma same_but_leader_refl g : same_but_leader g g.
Proof. by destruct g. Qed.
Lemma same_but_leader_trans g g' g'' :
  same_but_leader g g' → same_but_leader g' g'' → same_but_leader g g''.
Proof. unfold same_but_leader. intros -> ->. done. Qed.
Lemma same_objs_leader g g' : same_but_leader g g' → same_objs g g'.
Proof. unfold same_objs, same_but_leader. by intros ->. Qed.
(** Only the watches of control groups differ. *)
Definition same_but_watch (g g' : cols) : Prop :=
  g' = g <| g_wd := g_wd g' |> <| g_wdmap := g_wdmap g' |>.
Lemma same_but_watch_refl g : same_but_watch g g.
Proof. by destruct g. Qed.
Lemma same_objs_watch g g' : same_but_watch g g' → same_objs g g'.
Proof. unfold same_objs, same_but_watch. by intros ->. Qed.
#[export] Hint Resolve same_but_leader_refl same_but_watch_refl same_objs_leader
  same_objs_watch : objs.

(** An update of fields outside the links. *)
Ltac soft_upd :=
  first [apply soft_upd_session | apply soft_upd_user];
  [intros ?; repeat split; reflexivity | eauto 6 with links].

Lemma soft_lookup_session g sid :
  soft g (gets (λ m, m_sessions m !! sid)) (λ o, is_Some o ↔ has_s g sid).
Proof. apply soft_gets. intros m <-. unfold has_s; cbn. by rewrite lookup_fmap, fmap_is_Some. Qed.

(** * Creating sessions *)

Definition exnew {Bt : Boot} (sid : string) : exempt := mkExempt None None None (Some sid) Bt.

Lemma wf_exnew {Bt : Boot} g sid : WF ex0 g → WF (exnew sid) g.
Proof. intros Hwf. destruct Hwf; constructor; try assumption. intros i Hi. destruct (wf_owner i Hi) as [?|?]; [done|by right]. Qed.
Lemma wf_put_new_session {Bt : Boot} g sid :
  WF ex0 g → coh g → ¬ has_s g sid → session_id_valid sid = true →
  WF (exnew sid) (put_s g sid new_session).
Proof.
  intros Hwf Hg Hs Hv.
  assert (Hu : ∀ i a, g_user g !! i = Some a → sid ≠ i) by (intros i a H <-; apply Hs; by eexists).
  assert (Hse : ∀ i a, g_seat g !! i = Some a → sid ≠ i).
  { intros i a H <-; apply Hs. by eapply coh_seat. }
  assert (Hsd : ∀ i a, g_sds g !! i = Some a → sid ≠ i).
  { intros i a H <-; apply Hs. by eapply coh_sds. }
  assert (Hp : ∀ i a, g_pos g !! i = Some a → sid ≠ i).
  { intros i a H <-; apply Hs. by eapply coh_pos. }
  assert (Hq : ∀ i a, g_squeued g !! i = Some a → sid ≠ i).
  { intros i a H <-; apply Hs. by eapply coh_squeued. }
  assert (Hl : ∀ i a, g_leader g !! i = Some a → sid ≠ i).
  { intros i a H <-; apply Hs. by eapply coh_leader. }
  assert (Hw : ∀ i a, g_wd g !! i = Some a → sid ≠ i).
  { intros i a H <-; apply Hs. by eapply coh_wd. }
  destruct Hwf; constructor; cbn; try assumption.
  - unfold has_s; cbn. intros i [<-|[_ Hi]]%lookup_insert_is_Some; [done|]. by apply wf_ids.
  - intros i [[<- _]|[_ Hi]]%lookup_insert_Some; [by left|]. destruct (wf_owner _ Hi) as [?|?]; [done|by right].
  - intros i uid [[_ [=]]|[_ Hi]]%lookup_insert_Some. eauto.
  - intros uid l Hul. destruct (wf_usess _ _ Hul) as [? Hin]. split; [done|]. intros i Hi%Hin.
    rewrite lookup_insert_ne; [done|eauto].
  - intros uid d Hd%wf_display. rewrite lookup_insert_ne; [done|eauto].
  - intros i k [[_ [=]]|[_ Hi]]%lookup_insert_Some. destruct (wf_seat _ _ Hi) as (?&uid&Hi').
    split; [done|]. exists uid. rewrite lookup_insert_ne; [done|eauto].
  - intros k l Hul. destruct (wf_tsess _ _ Hul) as [? Hin]. split; [done|]. intros i Hi%Hin.
    rewrite lookup_insert_ne; [done|eauto].
  - intros k a Ha%wf_active. rewrite lookup_insert_ne; [done|eauto].
  - intros k a Ha%wf_pending. rewrite lookup_insert_ne; [done|eauto].
  - intros k ps p i H1 H2. destruct (wf_positions _ _ _ _ H1 H2) as (?&?&?).
    split_and!; [done| |]; (rewrite lookup_insert_ne; [done|eauto]).
  - intros i p [[_ <-]|[_ Hi]]%lookup_insert_Some; [done|eauto].
  - intros i v k [[_ <-]|[_ Hi]]%lookup_insert_Some; [done|].
    intros [[_ [=]]|[_ ?]]%lookup_insert_Some. eauto.
  - destruct wf_sq as [? Hin]. split; [done|]. intros i Hi%Hin.
    rewrite lookup_insert_ne; [done|eauto].
  - intros pid i H1. destruct (wf_bypid _ _ H1). split; [|done]. rewrite lookup_insert_ne; [done|eauto].
  - intros i [[_ [=]]|[_ Hi]]%lookup_insert_Some. destruct (wf_lsrc _ Hi) as (pid&?&?).
    exists pid. split; [|done]. rewrite lookup_insert_ne; [done|eauto].
  - intros wd i H1. destruct (wf_wd _ _ H1) as (?&?&?). split_and!; [|done..]. rewrite lookup_insert_ne; [done|eauto].
  - intros i ds dev n [[_ <-]|[_ Hi]]%lookup_insert_Some Hn.
    { unfold sds_of in Hn; cbn in Hn. by rewrite fmap_empty, lookup_empty in Hn. }
    destruct (wf_sds _ _ _ _ Hi Hn) as (?&?&k&us&?&?&?&?). split_and!; [done..|].
    exists k, us. split_and!; [|done..]. rewrite lookup_insert_ne; [done|eauto].
  - intros d us Hd. destruct (wf_dusers _ _ Hd) as [? Hin]. split; [done|].
    intros i dev (ds&n&?&?&?)%Hin. exists ds, n. split_and!; [|done..]. rewrite lookup_insert_ne; [done|eauto].
  - intros i ds dev n [[_ <-]|[_ Hi]]%lookup_insert_Some Hn Ha.
    { unfold sds_of in Hn; cbn in Hn. by rewrite fmap_empty, lookup_empty in Hn. }
    destruct (wf_excl _ _ _ _ Hi Hn Ha) as [?|(k&?&?)]; [done|]. right. exists k.
    split; [|done]. rewrite lookup_insert_ne; [done|eauto].
Qed.

Section Session.
Context {E : Env} {Bt : Boot}.

Lemma hoare_session_new g sid :
  WF ex0 g → coh g → ¬ has_s g sid →
  hoare g (session_new sid) (λ r g', if r <? 0 then g' = g
    else WF (exnew sid) g' ∧ g' = put_s g sid new_session).
Proof.
  intros Hwf Hg Hs. unfold session_new. destruct (session_id_valid sid) eqn:Ev; cbn [negb];
    [|by apply hoare_ret].
  eapply (hoare_bind _ _ _ (λ _ g', g' = put_s g sid new_session)).
  { apply hoare_modify. intros m <-. unfold put_s, cols_of; cbn. by rewrite !fmap_insert. }
  intros _ g' ->. apply hoare_ret. split; [|done]. by apply wf_put_new_session.
Qed.

Lemma hoare_manager_add_session g sid :
  WF ex0 g → coh g →
  hoare g (manager_add_session sid) (λ r g',
    if r <? 0 then g' = g
    else (has_s g sid ∧ g' = g) ∨
         (¬ has_s g sid ∧ WF (exnew sid) g' ∧ g' = put_s g sid new_session)).
Proof.
  intros Hwf Hg. unfold manager_add_session.
  eapply hoare_soft_bind; [apply soft_lookup_session|]. intros [s|] Ho.
  - apply hoare_ret. left. split; [apply Ho; by eexists|done].
  - assert (Hs : ¬ has_s g sid) by (intros H; apply Ho in H; by destruct H).
    eapply hoare_mono; [by apply hoare_session_new|]. intros r g'.
    cbn beta. destruct (r <? 0); [done|]. intros [??]. by right.
Qed.

(** The session and its user point to each other. *)
Lemma wf_set_user g sid uid l :
  WF (exnew sid) g → g_user g !! sid = Some None → g_usess g !! uid = Some l →
  WF ex0 (g <| g_user := <[sid := Some uid]> (g_user g) |>
            <| g_usess := <[uid := sid :: l]> (g_usess g) |>).
Proof.
  intros Hwf Hn Hl.
  assert (Hmono : ∀ i uid', g_user g !! i = Some (Some uid') →
                            <[sid := Some uid]> (g_user g) !! i = Some (Some uid')).
  { intros i uid' Hi. rewrite lookup_insert_ne; [done|]. intros <-. congruence. }
  destruct Hwf; constructor; cbn; try assumption.
  - unfold has_s; cbn. intros i Hi%lookup_insert_is_Some'. apply wf_ids.
    destruct Hi as [<-|?]; [by eexists|done].
  - intros i [[_ [=]]|[Hne Hi]]%lookup_insert_Some. destruct (wf_owner _ Hi) as [Hx|?]; [cbn in Hx; congruence|by right].
  - intros i uid' [[<- [= <-]]|[Hne Hi]]%lookup_insert_Some.
    + exists (sid :: l). rewrite lookup_insert_eq. split; [done|]. right; left.
    + destruct (wf_user _ _ Hi) as (l'&Hl'&Hin). destruct (decide (uid = uid')) as [<-|].
      * exists (sid :: l). rewrite lookup_insert_eq. split; [done|].
        assert (l' = l) as -> by congruence. destruct Hin; [by left|right; by right].
      * exists l'. by rewrite lookup_insert_ne.
  - intros uid' l' [[<- <-]|[Hne Hl']]%lookup_insert_Some.
    + destruct (wf_usess _ _ Hl) as [Hnd Hin]. split.
      * constructor; [|done]. intros H%Hin. congruence.
      * intros i [->|Hi]%elem_of_cons; [by rewrite lookup_insert_eq|]. by apply Hmono, Hin.
    + destruct (wf_usess _ _ Hl'). eauto.
  - eauto.
  - intros i k Hi. destruct (wf_seat _ _ Hi) as (?&uid'&?). eauto.
Qed.

Context {Ok : EnvOk}.

Lemma hoare_session_set_user g sid uid :
  WF (exnew sid) g → coh g → g_user g !! sid = Some None → has_u g uid →
  hoare g (session_set_user sid uid) (λ _ g', WF ex0 g' ∧
    ∃ l, g_usess g !! uid = Some l ∧
    same_but_user (g <| g_user := <[sid := Some uid]> (g_user g) |>
                     <| g_usess := <[uid := sid :: l]> (g_usess g) |>) g').
Proof.
  intros Hwf Hg Hn [l Hl]. unfold session_set_user.
  assert (Hs : has_s g sid) by by eexists.
  eapply hoare_soft_bind; [by apply soft_get_session|]. intros s Hr.
  assert (s_user s = None) as Eu by (destruct Hr as (?&_); congruence).
  eapply hoare_soft_bind; [apply soft_assert; by rewrite Eu|]. intros _ _.
  eapply hoare_bind; [by apply hoare_upd_session|]. intros _ g1 (s1&Hr1&->).
  assert (put_s g sid (s1 <| s_user := Some uid |>)
    = g <| g_user := <[sid := Some uid]> (g_user g) |>) as -> by (clear Hr; same_row; done).
  eapply hoare_bind; [apply hoare_upd_user; by eexists|]. intros _ g2 (u2&Hr2&->).
  assert (u_sessions u2 = l) as El by (destruct Hr2 as (Hr2&_); cbn in Hr2; congruence).
  assert (put_u (g <| g_user := <[sid := Some uid]> (g_user g) |>) uid
      (u2 <| u_sessions := sid :: u_sessions u2 |>)
    = g <| g_user := <[sid := Some uid]> (g_user g) |>
        <| g_usess := <[uid := sid :: l]> (g_usess g) |>) as -> by (rewrite El; same_row; done).
  pose proof (wf_set_user _ _ _ _ Hwf Hn Hl) as Hwf2. apply hoare_coh; intros Hg2.
  eapply hoare_mono.
  - apply hoare_user_update_last_session_timer; [exact Hwf2|done|].
    unfold has_u; cbn. rewrite lookup_insert_eq. by eexists.
  - intros _ g' (?&?%same_but_timer_user). eauto.
Qed.
End Session.
