(* ===== verification/LinksLeader.v ===== *)
(** The leader of a session, its control group, its terminal and its fifo keep
    the links well-formed. *)
From stdpp Require Import pretty.
From S2P Require Import Prelude Time LoginTypes ActionTypes LoginState LoginEnv Objects SessionDevice Seat Device User Session Cols Links LinksObjects LinksDevice LinksSeat LinksPositions LinksAttach LinksUser LinksSession.

(** * The leader *)

(** The table of leaders without the entry of [sid]. *)
Definition forget_leader (g : cols) (sid : string) (pid : Z) : gmap Z string :=
  if bool_decide (g_bypid g !! pid = Some sid) then delete pid (g_bypid g) else g_bypid g.

Lemma forget_leader_Some g sid pid p i :
  forget_leader g sid pid !! p = Some i → g_bypid g !! p = Some i ∧ (i = sid → p ≠ pid).
Proof.
  unfold forget_leader. case_bool_decide as Hb.
  - intros [Hne Hp]%lookup_delete_Some. done.
  - intros Hp. split; [done|]. by intros -> ->.
Qed.

Lemma wf_reset_leader x g sid pid :
  WF x g → g_leader g !! sid = Some pid →
  let g' := g <| g_lsrc := <[sid := false]> (g_lsrc g) |>
              <| g_bypid := forget_leader g sid pid |>
              <| g_leader := <[sid := 0]> (g_leader g) |> in
  WF x g' ∧ ∀ p, g_bypid g' !! p ≠ Some sid.
Proof.
  intros Hwf Hl. assert (Hno : ∀ p, forget_leader g sid pid !! p ≠ Some sid).
  { intros p [Hp Hne]%forget_leader_Some. apply (wf_bypid _ _ Hwf) in Hp as [Hp _].
    apply Hne; [done|congruence]. }
  split; [|exact Hno]. destruct Hwf; constructor; cbn; try assumption.
  - intros p i Hp. assert (sid ≠ i) by (intros <-; by apply Hno in Hp).
    apply forget_leader_Some in Hp as [Hp _]. rewrite lookup_insert_ne by done. by apply wf_bypid.
  - intros i [[_ [=]]|[Hne Hi]]%lookup_insert_Some. rewrite lookup_insert_ne by done. by apply wf_lsrc.
Qed.

(** [sid] is no longer known by its leader, and has none that is watched. *)
Definition leaderless (g : cols) (sid : string) : Prop :=
  (∀ p, g_bypid g !! p ≠ Some sid) ∧ g_lsrc g !! sid = Some false.

Section Leader.
Context {E : Env} {Bt : Boot}.

Lemma soft_forget_fd g sid b :
  has_s g sid →
  soft g (when b (emit (FdRemoved (leader_fd_name sid)) ;;;
    upd_session sid (λ s, s <| s_leader_fd_saved := false |>))) (λ _, True).
Proof.
  intros Hs. apply soft_when. intros _. eapply soft_bind; [apply soft_emit|]. intros _ _. soft_upd.
Qed.

Lemma hoare_session_reset_leader x g sid b :
  WF x g → coh g → has_s g sid →
  hoare g (session_reset_leader sid b) (λ _ g', WF x g' ∧ same_but_leader g g' ∧ leaderless g' sid).
Proof.
  intros Hwf Hg Hs. unfold session_reset_leader.
  eapply hoare_soft_bind; [by apply soft_forget_fd|]. intros _ _.
  eapply hoare_soft_bind; [by apply soft_get_session|]. intros s Hr.
  assert (Hl : g_leader g !! sid = Some (leader_of s)) by apply Hr.
  destruct (pidref_is_set (s_leader s)) eqn:Eset; cbn [negb].
  - clear Hr. eapply hoare_bind; [by apply hoare_upd_session|]. intros _ g1 (s1&Hr1&->).
    assert (put_s g sid (s1 <| s_leader_pidfd_event_source := false |>)
      = g <| g_lsrc := <[sid := false]> (g_lsrc g) |>) as -> by (same_row; done).
    clear Hr1. eapply (hoare_bind _ _ _ (λ _ g', g' = g <| g_lsrc := <[sid := false]> (g_lsrc g) |>
      <| g_bypid := forget_leader g sid (leader_of s) |>)).
    { apply hoare_modify. intros m Hm.
      assert (m_sessions_by_leader m = g_bypid g) as Hb by exact (f_equal g_bypid Hm).
      rewrite Hb. unfold forget_leader, leader_of. case_bool_decide; [|by rewrite Hm; destruct g].
      transitivity ((cols_of m) <| g_bypid := delete (p_pid (s_leader s)) (g_bypid g) |>);
        [done|by rewrite Hm]. }
    intros _ ? ->. eapply hoare_mono; [by apply hoare_upd_session|]. intros _ g3 (s3&Hr3&->).
    set (g2 := g <| g_lsrc := _ |> <| g_bypid := _ |>) in *.
    assert (put_s g2 sid (s3 <| s_leader := PIDREF_NULL |>)
      = g2 <| g_leader := <[sid := 0]> (g_leader g2) |>) as -> by (clearbody g2; same_row; done).
    destruct (wf_reset_leader _ _ _ _ Hwf Hl) as [Hwf' Hno]. split; [exact Hwf'|].
    split; [by destruct g|]. split; [exact Hno|]. cbn. apply lookup_insert_eq.
  - apply hoare_ret. split; [done|]. split; [apply same_but_leader_refl|].
    apply Z.ltb_ge in Eset. split.
    + intros p Hp. apply (wf_bypid _ _ Hwf) in Hp as [Hp Hpos].
      assert (leader_of s = p) as <- by congruence. unfold leader_of in Hpos. lia.
    + assert (Hb : g_lsrc g !! sid = Some (s_leader_pidfd_event_source s)) by apply Hr.
      rewrite Hb. f_equal. apply not_true_is_false. intros Ht. rewrite Ht in Hb.
      apply (wf_lsrc _ _ Hwf) in Hb as (p&Hp&Hpos).
      assert (leader_of s = p) as <- by congruence. unfold leader_of in Hpos. lia.
Qed.

(** A session no process is known to lead may get one. *)
Lemma wf_set_leader x g sid pid :
  WF x g → leaderless g sid →
  WF x (g <| g_leader := <[sid := pid]> (g_leader g) |>).
Proof.
  intros Hwf [Hno Hsrc]. destruct Hwf; constructor; cbn; try assumption.
  - intros p i Hp. rewrite lookup_insert_ne; [by apply wf_bypid|]. intros <-. by apply Hno in Hp.
  - intros i Hi. rewrite lookup_insert_ne; [by apply wf_lsrc|]. intros <-. congruence.
Qed.
Lemma wf_watch_leader x g sid pid :
  WF x g → g_leader g !! sid = Some pid → 0 < pid →
  WF x (g <| g_lsrc := <[sid := true]> (g_lsrc g) |>).
Proof.
  intros Hwf Hl Hp. destruct Hwf; constructor; cbn; try assumption.
  intros i [[<- _]|[_ Hi]]%lookup_insert_Some; eauto.
Qed.
Lemma wf_enter_leader x g sid pid :
  WF x g → g_leader g !! sid = Some pid → 0 < pid →
  WF x (g <| g_bypid := <[pid := sid]> (g_bypid g) |>).
Proof.
  intros Hwf Hl Hp. destruct Hwf; constructor; cbn; try assumption.
  intros p i [[<- <-]|[_ Hi]]%lookup_insert_Some; [done|eauto].
Qed.

Lemma hoare_session_watch_pidfd x g sid pid :
  WF x g → coh g → g_leader g !! sid = Some pid → 0 < pid → g_lsrc g !! sid = Some false →
  hoare g (session_watch_pidfd sid) (λ _ g', WF x g' ∧
    g' = g <| g_lsrc := g_lsrc g' |>).
Proof.
  intros Hwf Hg Hl Hp Hsrc. assert (Hs : has_s g sid) by eauto with links.
  unfold session_watch_pidfd. eapply hoare_soft_bind; [by apply soft_get_session|]. intros s Hr.
  assert (leader_of s = pid) as El by (destruct Hr as (_&_&_&_&?&_); congruence).
  assert (s_leader_pidfd_event_source s = false) as Es
    by (destruct Hr as (_&_&_&_&_&?&_); congruence).
  eapply hoare_soft_bind.
  { apply soft_assert. unfold pidref_is_set. apply Z.ltb_lt. unfold leader_of in El. lia. }
  intros _ _. eapply hoare_soft_bind; [apply soft_assert; by rewrite Es|]. intros _ _.
  destruct (_ <? 0); [apply hoare_ret; split; [done|by destruct g]|].
  destruct (_ <? 0); [apply hoare_ret; split; [done|by destruct g]|].
  clear Hr. eapply hoare_bind; [by apply hoare_upd_session|]. intros _ g1 (s1&Hr1&->).
  assert (put_s g sid (s1 <| s_leader_pidfd_event_source := true |>)
    = g <| g_lsrc := <[sid := true]> (g_lsrc g) |>) as -> by (same_row; done).
  apply hoare_ret. split; [by eapply wf_watch_leader|done].
Qed.

Lemma hoare_session_set_leader_consume x g sid leader :
  WF x g → coh g → has_s g sid → pidref_is_set leader = true →
  hoare g (session_set_leader_consume sid leader) (λ _ g', WF x g' ∧ same_but_leader g g').
Proof.
  intros Hwf Hg Hs Hset. unfold session_set_leader_consume.
  eapply hoare_soft_bind; [by apply soft_get_session|]. intros s _.
  eapply hoare_soft_bind; [by apply soft_assert|]. intros _ _.
  destruct (pidref_equal _ _); [apply hoare_ret; split; [done|apply same_but_leader_refl]|].
  eapply hoare_bind; [by eapply hoare_session_reset_leader|].
  intros _ g1 (Hwf1&Hs1&Hno1). apply hoare_coh; intros Hg1.
  assert (Hin1 : has_s g1 sid) by (rewrite Hs1; exact Hs).
  eapply hoare_bind; [by apply hoare_upd_session|]. intros _ g2 (s2&Hr2&->).
  assert (put_s g1 sid (s2 <| s_leader := leader |>)
    = g1 <| g_leader := <[sid := p_pid leader]> (g_leader g1) |>) as -> by (same_row; done).
  clear Hr2. pose proof (wf_set_leader _ _ _ (p_pid leader) Hwf1 Hno1) as Hwf2.
  apply hoare_coh; intros Hg2. apply Z.ltb_lt in Hset as Hpos.
  set (g2 := g1 <| g_leader := _ |>) in *.
  assert (Hl2 : g_leader g2 !! sid = Some (p_pid leader)) by apply (lookup_insert_eq (g_leader g1)).
  assert (Hs2 : same_but_leader g g2).
  { eapply same_but_leader_trans; [exact Hs1|by destruct g1]. }
  eapply hoare_bind; [eapply hoare_session_watch_pidfd; [done..|apply Hno1]|].
  intros r g3 (Hwf3&Hs3). apply hoare_coh; intros Hg3.
  assert (Hs03 : same_but_leader g g3).
  { eapply same_but_leader_trans; [exact Hs2|]. unfold same_but_leader. by rewrite Hs3. }
  destruct (r <? 0); [by apply hoare_ret|].
  eapply (hoare_soft_bind _ _ _ (λ o, o = g_bypid g3 !! p_pid leader)).
  { apply soft_gets. by intros m <-. }
  intros [other|] Ho.
  - case_bool_decide as Hb; [|by apply hoare_ret]. subst other. exfalso.
    rewrite Hs3 in Ho. by apply (proj1 Hno1 (p_pid leader)).
  - eapply (hoare_bind _ _ _ (λ _ g', g' = g3 <| g_bypid :=
      <[p_pid leader := sid]> (g_bypid g3) |>)).
    { apply hoare_modify. by intros m <-. }
    intros _ g4 ->. set (g4 := g3 <| g_bypid := _ |>).
    assert (Hin4 : has_s g4 sid).
    { assert (has_s g3 sid) by (rewrite Hs3; exact Hin1). done. }
    eapply hoare_soft_bind.
    { apply soft_when. intros _. eapply soft_bind; [apply soft_emit|]. intros _ _. soft_upd. }
    intros _ _. eapply (hoare_soft_bind _ _ _ (λ _, True)).
    { destruct (e_audit_session leader); [soft_upd|by apply soft_ret]. }
    intros _ _. apply hoare_ret. split.
    + eapply wf_enter_leader; [done| |done]. rewrite Hs3. exact Hl2.
    + eapply same_but_leader_trans; [exact Hs03|by destruct g3].
Qed.

(** * The control group *)

Lemma soft_session_use_delegated_cgroup g : soft g session_use_delegated_cgroup (λ _, True).
Proof.
  unfold session_use_delegated_cgroup. eapply soft_bind; [apply soft_gets_true|].
  intros. by apply soft_ret.
Qed.

Lemma wf_watch_cgroup x g sid wd :
  WF x g → (∀ w, g_wd g !! sid = Some w → w < 0) → 0 ≤ wd → 0 ≤ g_inotify g →
  WF x (g <| g_wdmap := <[wd := sid]> (g_wdmap g) |> <| g_wd := <[sid := wd]> (g_wd g) |>).
Proof.
  intros Hwf Hno Hwd Hfd. destruct Hwf; constructor; cbn; try assumption.
  intros w i [[<- <-]|[_ Hi]]%lookup_insert_Some; [by rewrite lookup_insert_eq|].
  destruct (wf_wd _ _ Hi) as (Hw&?&?). rewrite lookup_insert_ne; [done|]. intros <-.
  apply Hno in Hw. lia.
Qed.
Lemma wf_release_cgroup x g sid wd :
  WF x g → g_wd g !! sid = Some wd →
  WF x (g <| g_wdmap := delete wd (g_wdmap g) |> <| g_wd := <[sid := -1]> (g_wd g) |>).
Proof.
  intros Hwf Hw. destruct Hwf; constructor; cbn; try assumption.
  intros w i [Hne Hi]%lookup_delete_Some. destruct (wf_wd _ _ Hi) as (Hw'&?&?).
  rewrite lookup_insert_ne; [done|]. intros <-. congruence.
Qed.

(** No watch leads to [sid]. *)
Definition unwatched (g : cols) (sid : string) : Prop := ∀ wd, g_wdmap g !! wd ≠ Some sid.

Lemma hoare_session_release_cgroup x g sid :
  WF x g → coh g → has_s g sid →
  hoare g (session_release_cgroup sid) (λ _ g', WF x g' ∧ same_but_watch g g' ∧ unwatched g' sid).
Proof.
  intros Hwf Hg Hs. unfold session_release_cgroup.
  eapply hoare_soft_bind; [by apply soft_get_session|]. intros s Hr.
  assert (Hw : g_wd g !! sid = Some (s_cgroup_control_inotify_wd s)) by apply Hr.
  eapply (hoare_soft_bind _ _ _ (λ fd, fd = g_inotify g)); [apply soft_gets; by intros m <-|].
  intros fd ->. cbv zeta. apply hoare_when; intros Hb.
  - eapply (hoare_bind _ _ _ (λ _ g', g' = g <| g_wdmap :=
      delete (s_cgroup_control_inotify_wd s) (g_wdmap g) |>)).
    { apply hoare_modify. by intros m <-. }
    intros _ g1 ->. clear Hr. eapply hoare_mono; [by apply hoare_upd_session|].
    intros _ g2 (s2&Hr2&->). set (g1 := g <| g_wdmap := _ |>) in *.
    assert (put_s g1 sid (s2 <| s_cgroup_control_inotify_wd := -1 |>)
      = g1 <| g_wd := <[sid := -1]> (g_wd g1) |>) as -> by (clearbody g1; same_row; done).
    split; [exact (wf_release_cgroup _ _ _ _ Hwf Hw)|]. split; [by destruct g|].
    intros wd. unfold g1; cbn. intros [Hne Hi]%lookup_delete_Some. apply (wf_wd _ _ Hwf) in Hi as (?&_). congruence.
  - split; [done|]. split; [apply same_but_watch_refl|]. intros wd Hi.
    apply (wf_wd _ _ Hwf) in Hi as (?&?&?).
    assert (s_cgroup_control_inotify_wd s = wd) as Ew by congruence. rewrite Ew in Hb.
    apply andb_false_iff in Hb as [Hb%Z.leb_gt|Hb%Z.leb_gt]; lia.
Qed.

Context {Ok : EnvOk}.

Lemma hoare_session_watch_cgroup x g sid :
  WF x g → coh g → has_s g sid →
  hoare g (session_watch_cgroup sid) (λ _ g', WF x g' ∧ same_but_watch g g').
Proof.
  intros Hwf Hg Hs. unfold session_watch_cgroup.
  assert (Hsame : WF x g ∧ same_but_watch g g) by (split; [done|apply same_but_watch_refl]).
  destruct (_ <? 0); [by apply hoare_ret|]. destruct (_ =? 0); [by apply hoare_ret|].
  eapply hoare_soft_bind; [by apply soft_get_session|]. intros s Hr.
  assert (Hw : g_wd g !! sid = Some (s_cgroup_control_inotify_wd s)) by apply Hr.
  destruct (-1 <? _) eqn:Ew; [by apply hoare_ret|]. apply Z.ltb_ge in Ew. cbv zeta.
  destruct (_ <? 0); [by apply hoare_ret|].
  eapply (hoare_soft_bind _ _ _ (λ fd, fd = g_inotify g)); [apply soft_gets; by intros m <-|].
  intros fd ->. set (wd := e_inotify_add_watch _ _).
  destruct (wd <? 0) eqn:Ewd; [by apply hoare_ret|]. apply Z.ltb_ge in Ewd.
  assert (Hfd : 0 ≤ g_inotify g).
  { apply Z.nlt_ge. intros Hlt. pose proof (e_inotify_ok _ (default sid (s_cgroup_path s)) Hlt).
    unfold wd in Ewd. lia. }
  eapply hoare_soft_bind; [apply soft_gets_true|]. intros o _.
  destruct (_ && _); [by apply hoare_ret|].
  eapply (hoare_bind _ _ _ (λ _ g', g' = g <| g_wdmap := <[wd := sid]> (g_wdmap g) |>)).
  { apply hoare_modify. by intros m <-. }
  intros _ g1 ->. clear Hr. eapply hoare_bind; [by apply hoare_upd_session|].
  intros _ g2 (s2&Hr2&->). set (g1 := g <| g_wdmap := _ |>) in *.
  assert (put_s g1 sid (s2 <| s_cgroup_control_inotify_wd := wd |>)
    = g1 <| g_wd := <[sid := wd]> (g_wd g1) |>) as -> by (clearbody g1; same_row; done).
  apply hoare_ret. split; [|by destruct g]. refine (wf_watch_cgroup _ _ _ _ Hwf _ Ewd Hfd).
  intros w Hw'. assert (w = s_cgroup_control_inotify_wd s) by congruence. lia.
Qed.
End Leader.
