(* ===== verification/LinksStart.v ===== *)
(** Starting, activating and switching between sessions, their terminals,
    hints, fifos and controllers keep the links well-formed. *)
From stdpp Require Import pretty.
From S2P Require Import Prelude Time LoginTypes ActionTypes LoginState LoginEnv Objects SessionDevice Seat Device User Session Cols Links LinksObjects LinksDevice LinksSeat LinksPositions LinksAttach LinksHotplug LinksUser LinksSession LinksLeader.

(** * Terminals *)

Section Soft.
Context {E : Env} {Bt : Boot} (x : exempt) (g : cols) (Hwf : WF x g) (Hg : coh g).

Lemma soft_session_vt_to_own sid : has_s g sid → soft g (session_vt_to_own sid) (λ _, True).
Proof.
  intros Hs. unfold session_vt_to_own. eapply soft_bind; [by apply soft_get_session|]. intros s _.
  destruct (negb _); [by apply soft_ret|]. destruct (s_seat s); [|by apply soft_ret].
  eapply soft_bind; [apply soft_seat_has_vts|]. intros. by apply soft_ret.
Qed.
Lemma soft_session_chown_tty sid uid :
  g_user g !! sid = Some (Some uid) → soft g (session_chown_tty sid) (λ _, True).
Proof.
  intros Hu. unfold session_chown_tty. eapply soft_bind; [apply soft_session_vt_to_own; eauto with links|].
  intros [v|] _; [|by apply soft_ret]. cbv zeta. destruct (_ <? 0); [by apply soft_ret|].
  eapply soft_bind; [by eapply soft_session_uid|]. intros ? _.
  destruct (_ <? 0); [by apply soft_ret|]. eapply soft_bind; [apply soft_emit|].
  intros. by apply soft_ret.
Qed.
Lemma soft_session_restore_tty sid uid :
  g_user g !! sid = Some (Some uid) → soft g (session_restore_tty sid) (λ _, True).
Proof.
  intros Hu. unfold session_restore_tty.
  eapply soft_bind; [apply soft_session_vt_to_own; eauto with links|].
  intros [v|] _; [|by apply soft_ret]. cbv zeta. destruct (_ <? 0); [by apply soft_ret|].
  destruct (e_tty_owner _); [by apply soft_ret|].
  eapply soft_bind; [by eapply soft_session_uid|]. intros ? _.
  destruct (negb _); [by apply soft_ret|].
  destruct (_ <? 0); [by apply soft_ret|]. eapply soft_bind; [apply soft_emit|].
  intros. by apply soft_ret.
Qed.

Lemma soft_session_open_vt sid b : has_s g sid → soft g (session_open_vt sid b) (λ _, True).
Proof.
  intros Hs. unfold session_open_vt. eapply soft_bind; [by apply soft_get_session|]. intros s _.
  destruct (_ <? 1); [by apply soft_ret|]. destruct (_ && _); [by apply soft_ret|].
  destruct (_ <? 0); [by apply soft_ret|]. eapply soft_bind; [soft_upd|]. intros. by apply soft_ret.
Qed.
Lemma soft_reopen_vt sid call :
  has_s g sid →
  soft g (fd <- session_open_vt sid true ;; when (0 <=? fd) (emit (VtCall call fd))) (λ _, True).
Proof.
  intros Hs. eapply soft_bind; [by apply soft_session_open_vt|]. intros fd _.
  apply soft_when. intros _. apply soft_emit.
Qed.
Lemma soft_session_restore_vt sid : has_s g sid → soft g (session_restore_vt sid) (λ _, True).
Proof.
  intros Hs. unfold session_restore_vt. eapply soft_bind; [by apply soft_get_session|]. intros s _.
  destruct (_ <? 0); [by apply soft_ret|]. eapply soft_bind; [apply soft_emit|]. intros _ _.
  eapply soft_bind; [apply soft_when; intros _; by apply soft_reopen_vt|]. intros _ _. soft_upd.
Qed.
Lemma soft_vt_calls l fd : soft g (vt_calls l fd) (λ _, True).
Proof.
  induction l as [|c l IH]; cbn; [by apply soft_ret|].
  eapply soft_bind; [apply soft_emit|]. intros _ _. destruct (_ <? 0); [by apply soft_ret|done].
Qed.
Lemma soft_session_prepare_vt sid uid :
  g_user g !! sid = Some (Some uid) → soft g (session_prepare_vt sid) (λ _, True).
Proof.
  intros Hu. assert (Hs : has_s g sid) by eauto with links. unfold session_prepare_vt.
  eapply soft_bind; [by apply soft_get_session|]. intros s _.
  destruct (_ <? 1); [by apply soft_ret|].
  eapply soft_bind; [by apply soft_session_open_vt|]. intros vt _.
  destruct (_ <? 0); [by apply soft_ret|].
  eapply soft_bind; [by eapply soft_session_uid|]. intros ? _.
  eapply soft_bind; [apply soft_vt_calls|]. intros r _.
  eapply soft_bind; [apply soft_when; intros _; by apply soft_session_restore_vt|].
  intros. by apply soft_ret.
Qed.

(** * Properties and hints *)

Lemma soft_save_and_tell sid props (f : session → session) :
  has_s g sid → soft_s f →
  soft g (upd_session sid f ;;; ignore (session_save sid) ;;; session_send_changed sid props)
    (λ _, True).
Proof.
  intros Hs Hf. eapply soft_bind; [by apply soft_upd_session|]. intros _ _.
  eapply soft_bind; [apply soft_ignore; by eapply soft_session_save|]. intros _ _.
  by apply soft_session_send_changed.
Qed.
Lemma soft_save_and_tell_1 sid props (f : session → session) :
  has_s g sid → soft_s f →
  soft g (upd_session sid f ;;; ignore (session_save sid) ;;; session_send_changed sid props ;;; ret 1)
    (λ _, True).
Proof.
  intros Hs Hf. eapply soft_bind; [by apply soft_upd_session|]. intros _ _.
  eapply soft_bind; [apply soft_ignore; by eapply soft_session_save|]. intros _ _.
  eapply soft_bind; [by apply soft_session_send_changed|]. intros. by apply soft_ret.
Qed.

Lemma soft_session_set_idle_hint sid b uid :
  g_user g !! sid = Some (Some uid) → soft g (session_set_idle_hint sid b) (λ _, True).
Proof.
  intros Hu. assert (Hs : has_s g sid) by eauto with links. unfold session_set_idle_hint.
  eapply soft_bind; [by apply soft_get_session|]. intros s Hr.
  destruct (negb _); [by apply soft_ret|]. destruct (negb _); [by apply soft_ret|].
  case_bool_decide; [by apply soft_ret|]. eapply soft_bind; [soft_upd|]. intros _ _.
  eapply soft_bind; [by apply soft_session_send_changed|]. intros _ _.
  eapply (soft_bind _ _ _ (λ _, True)).
  { destruct (s_seat s) as [k|] eqn:Ek; [|by apply soft_ret].
    apply soft_seat_send_changed. eauto with links. }
  intros _ _. assert (s_user s = Some uid) as -> by (destruct Hr as (?&_); congruence).
  eapply soft_bind; [by apply (soft_ret _ _ (λ z, z = uid))|]. intros ? ->.
  eapply soft_bind; [apply soft_user_send_changed; eauto with links|]. intros _ _.
  eapply soft_bind; [apply soft_emit|]. intros. by apply soft_ret.
Qed.
Lemma soft_session_set_locked_hint sid b :
  has_s g sid → soft g (session_set_locked_hint sid b) (λ _, True).
Proof.
  intros Hs. unfold session_set_locked_hint. eapply soft_bind; [by apply soft_get_session|].
  intros s _. destruct (negb _); [by apply soft_ret|]. case_bool_decide; [by apply soft_ret|].
  apply soft_save_and_tell_1; [done|intros ?; repeat split; reflexivity].
Qed.
Lemma soft_session_set_type sid t : has_s g sid → soft g (session_set_type sid t) (λ _, True).
Proof.
  intros Hs. unfold session_set_type. eapply soft_bind; [by apply soft_get_session|].
  intros s _. case_bool_decide; [by apply soft_ret|].
  apply soft_save_and_tell; [done|intros ?; repeat split; reflexivity].
Qed.
Lemma soft_session_set_class sid c : has_s g sid → soft g (session_set_class sid c) (λ _, True).
Proof.
  intros Hs. unfold session_set_class. eapply soft_bind; [by apply soft_get_session|].
  intros s _. case_bool_decide; [by apply soft_ret|].
  apply soft_save_and_tell; [done|intros ?; repeat split; reflexivity].
Qed.
Lemma soft_session_set_display sid d : has_s g sid → soft g (session_set_display sid d) (λ _, True).
Proof.
  intros Hs. unfold session_set_display. eapply soft_bind; [by apply soft_get_session|].
  intros s _. case_bool_decide; [by apply soft_ret|].
  apply soft_save_and_tell_1; [done|intros ?; repeat split; reflexivity].
Qed.
Lemma soft_session_set_tty sid t : has_s g sid → soft g (session_set_tty sid t) (λ _, True).
Proof.
  intros Hs. unfold session_set_tty. eapply soft_bind; [by apply soft_get_session|].
  intros s _. case_bool_decide; [by apply soft_ret|].
  apply soft_save_and_tell_1; [done|intros ?; repeat split; reflexivity].
Qed.

End Soft.

(** * The fields that WF does not speak of *)

Definition same_but_misc (g g' : cols) : Prop :=
  g' = g <| g_cg := g_cg g' |> <| g_fifo := g_fifo g' |>.
Lemma same_but_misc_refl g : same_but_misc g g.
Proof. by destruct g. Qed.
Lemma same_but_misc_trans g g' g'' :
  same_but_misc g g' → same_but_misc g' g'' → same_but_misc g g''.
Proof. unfold same_but_misc. intros -> ->. done. Qed.
Lemma same_objs_misc g g' : same_but_misc g g' → same_objs g g'.
Proof. unfold same_objs, same_but_misc. by intros ->. Qed.
#[export] Hint Resolve same_but_misc_refl same_objs_misc : objs.
Lemma wf_same_but_misc x g g' : WF x g → same_but_misc g g' → WF x g'.
Proof.
  intros Hwf Hs. unfold same_but_misc in Hs.
  destruct Hwf; constructor; rewrite Hs; assumption.
Qed.

Definition misc_s (f : session → session) : Prop := ∀ s,
  s_user (f s) = s_user s ∧ s_seat (f s) = s_seat s ∧ s_position (f s) = s_position s ∧
  s_in_gc_queue (f s) = s_in_gc_queue s ∧ leader_of (f s) = leader_of s ∧
  s_leader_pidfd_event_source (f s) = s_leader_pidfd_event_source s ∧
  s_cgroup_control_inotify_wd (f s) = s_cgroup_control_inotify_wd s ∧
  sds_of (f s) = sds_of s ∧ s_vtnr (f s) = s_vtnr s.
Lemma hoare_upd_misc x g sid f :
  WF x g → misc_s f → has_s g sid →
  hoare g (upd_session sid f) (λ _ g', WF x g' ∧ same_but_misc g g' ∧
    ∃ s, row_s g sid s ∧ g_cg g' !! sid = Some (cg_of (f s)) ∧
         g_fifo g' !! sid = Some (fifo_of (f s))).
Proof.
  intros Hwf Hf Hs. eapply hoare_mono; [by apply hoare_upd_session|]. intros _ g' (s&Hr&->).
  assert (Hm : same_but_misc g (put_s g sid (f s))).
  { destruct (Hf s) as (E1&E2&E3&E4&E5&E6&E7&E8&E9). unfold same_but_misc, put_s.
    rewrite E1, E2, E3, E4, E5, E6, E7, E8, E9. same_row. done. }
  split; [by eapply wf_same_but_misc|]. split; [done|]. exists s. split; [done|].
  unfold put_s; cbn. by rewrite !lookup_insert_eq.
Qed.

Section Start.
Context {E : Env} {Bt : Boot}.

(** * The fifo *)

Lemma hoare_session_create_fifo x g sid :
  WF x g → coh g → has_s g sid →
  hoare g (session_create_fifo sid) (λ _ g', WF x g' ∧ same_but_misc g g').
Proof.
  intros Hwf Hg Hs. unfold session_create_fifo.
  eapply hoare_soft_bind; [by apply soft_get_session|]. intros s Hr.
  eapply (hoare_bind _ _ _ (λ _ g', WF x g' ∧ same_but_misc g g' ∧ g_fifo g' !! sid = Some true)).
  { destruct (s_fifo_path s) as [p|] eqn:Ep.
    - apply hoare_ret. split_and!; [done|apply same_but_misc_refl|].
      assert (Hf : g_fifo g !! sid = Some (fifo_of s)) by apply Hr.
      rewrite Hf. unfold fifo_of. by rewrite Ep.
    - cbv zeta. eapply hoare_bind.
      { apply (hoare_upd_misc x); [done|intros ?; repeat split; reflexivity|done]. }
      intros _ g1 (?&?&s1&_&_&Hf). apply hoare_ret. done. }
  intros r g1 (Hwf1&Hs1&Hf1). apply hoare_coh; intros Hg1.
  destruct (r <? 0); [by apply hoare_ret|].
  assert (Hin1 : has_s g1 sid) by (rewrite Hs1; exact Hs).
  eapply hoare_soft_bind; [by apply soft_get_session|]. intros s1 Hr1.
  assert (Hp : is_Some (s_fifo_path s1)).
  { assert (Hf : g_fifo g1 !! sid = Some (fifo_of s1)) by apply Hr1.
    rewrite Hf in Hf1. unfold fifo_of in Hf1. destruct (s_fifo_path s1); [by eexists|done]. }
  eapply hoare_soft_bind; [by apply (soft_deref _ _ (λ _, True))|]. intros path _.
  eapply (hoare_soft_bind _ _ _ (λ _, True)).
  { destruct (_ <? 0); [|by apply soft_ret]. cbv zeta.
    eapply soft_bind; [soft_upd|]. intros. by apply soft_ret. }
  intros r1 _. destruct (r1 <? 0); [by apply hoare_ret|].
  eapply (hoare_soft_bind _ _ _ (λ _, True)).
  { destruct (s_fifo_event_source s1); [by apply soft_ret|]. cbv zeta.
    eapply soft_bind; [apply soft_when; intros _; soft_upd|]. intros. by apply soft_ret. }
  intros r2 _. destruct (r2 <? 0); by apply hoare_ret.
Qed.

Lemma hoare_session_remove_fifo x g sid :
  WF x g → coh g → has_s g sid →
  hoare g (session_remove_fifo sid) (λ _ g', WF x g' ∧ same_but_misc g g').
Proof.
  intros Hwf Hg Hs. unfold session_remove_fifo.
  eapply hoare_soft_bind; [by apply soft_get_session|]. intros s _. cbv zeta.
  eapply hoare_soft_bind; [soft_upd|]. intros _ _.
  eapply hoare_soft_bind; [apply soft_gets_true|]. intros i _.
  destruct (_ && _); [apply hoare_ret; split; [done|apply same_but_misc_refl]|].
  eapply (hoare_soft_bind _ _ _ (λ _, True)).
  { destruct (s_fifo_path s); [apply soft_emit|by apply soft_ret]. }
  intros _ _. eapply hoare_mono.
  - apply (hoare_upd_misc x); [done|intros ?; repeat split; reflexivity|done].
  - by intros _ g' (?&?&_).
Qed.

(** * The control group *)

Lemma row_cg g1 sid s p l :
  row_s g1 sid s → g_cg g1 !! sid = Some (p, l) →
  is_some (s_cgroup_path s) = p ∧ is_some (s_cgroup_leaf_path s) = l.
Proof.
  intros Hr Hc. assert (H : g_cg g1 !! sid = Some (cg_of s)) by apply Hr.
  rewrite Hc in H. injection H as -> ->. done.
Qed.
Lemma is_some_Some {A} (o : option A) : is_some o = true → is_Some o.
Proof. by destruct o. Qed.

Lemma hoare_session_setup_cgroup_paths x g sid :
  WF x g → coh g → has_s g sid →
  hoare g (session_setup_cgroup_paths sid) (λ r g', WF x g' ∧ same_but_misc g g' ∧
    (0 ≤ r → g_cg g' !! sid = Some (true, true))).
Proof.
  intros Hwf Hg Hs. unfold session_setup_cgroup_paths.
  eapply hoare_soft_bind; [by apply soft_get_session|]. intros s Hr.
  destruct (_ && _) eqn:Ec.
  { apply hoare_ret. split_and!; [done|apply same_but_misc_refl|]. intros _.
    assert (Hc : g_cg g !! sid = Some (cg_of s)) by apply Hr. rewrite Hc. unfold cg_of.
    by apply andb_prop in Ec as [-> ->]. }
  clear Hr s Ec. eapply hoare_bind.
  { apply (hoare_upd_misc x); [done|intros ?; repeat split; reflexivity|done]. }
  intros _ g1 (Hwf1&Hs1&s&_&Hc&_). apply hoare_coh; intros Hg1. cbn in Hc.
  assert (Hin1 : has_s g1 sid) by (rewrite Hs1; exact Hs).
  eapply hoare_soft_bind; [apply soft_session_use_delegated_cgroup|]. intros r _.
  destruct (r <? 0) eqn:Er; [apply Z.ltb_lt in Er; apply hoare_ret; split_and!; [done|done|lia]|].
  eapply hoare_bind.
  { apply (hoare_upd_misc x); [done|intros ?; repeat split; reflexivity|done]. }
  intros _ g2 (Hwf2&Hs2&s2&Hr2&Hc2&_). apply hoare_ret.
  split; [done|]. split; [by eapply same_but_misc_trans|]. intros _. rewrite Hc2.
  destruct (row_cg _ _ _ _ _ Hr2 Hc) as [Hp _]. unfold cg_of; cbn. by rewrite Hp.
Qed.

Lemma soft_until_error g l :
  (∀ c, c ∈ l → soft g c (λ _, True)) → soft g (until_error l) (λ _, True).
Proof.
  induction l as [|c l IH]; intros Hl; cbn; [by apply soft_ret|].
  eapply soft_bind; [apply Hl; left|]. intros r _. destruct (r <? 0); [by apply soft_ret|].
  apply IH. intros; apply Hl; by right.
Qed.
Lemma soft_cg_create g p : soft g (cg_create p) (λ _, True).
Proof. eapply soft_bind; [apply soft_emit|]. intros. by apply soft_ret. Qed.

Lemma soft_session_create_delegated_cgroup g sid uid :
  g_user g !! sid = Some (Some uid) → g_cg g !! sid = Some (true, true) →
  soft g (session_create_delegated_cgroup sid) (λ _, True).
Proof.
  intros Hu Hc. unfold session_create_delegated_cgroup.
  eapply soft_bind; [apply soft_get_session; by eexists|]. intros s Hr.
  destruct (row_cg _ _ _ _ _ Hr Hc) as [Hp%is_some_Some Hl%is_some_Some].
  eapply soft_bind.
  { apply soft_assert. by replace (s_user s) with (Some uid) by (destruct Hr as (?&_); congruence). }
  intros _ _. eapply soft_bind; [by apply (soft_deref _ _ (λ _, True))|]. intros path _.
  eapply soft_bind; [by apply (soft_deref _ _ (λ _, True))|]. intros leaf _.
  eapply soft_bind; [apply soft_session_use_delegated_cgroup|]. intros r _.
  destruct (r <=? 0); [by apply soft_ret|]. cbv zeta.
  eapply soft_bind; [|intros; by apply soft_ret]. apply soft_until_error.
  intros c Hin. repeat (apply elem_of_cons in Hin as [->|Hin];
    [first [apply soft_cg_create|by apply soft_ret]|]). by apply elem_of_nil in Hin.
Qed.

Context {Ok : EnvOk}.

Lemma hoare_session_start_cgroup x g sid uid :
  WF x g → coh g → g_user g !! sid = Some (Some uid) →
  hoare g (session_start_cgroup sid) (λ _ g', WF x g' ∧ same_objs g g').
Proof.
  intros Hwf Hg Hu. unfold session_start_cgroup.
  eapply hoare_soft_bind; [apply soft_get_session; by eexists|]. intros s Hr.
  eapply hoare_soft_bind.
  { apply soft_assert. by replace (s_user s) with (Some uid) by (destruct Hr as (?&_); congruence). }
  intros _ _. eapply hoare_bind; [apply (hoare_session_setup_cgroup_paths x); [done|done|by eexists]|].
  intros r g1 (Hwf1&Hs1&Hc1). apply hoare_coh; intros Hg1.
  assert (Ho1 : same_objs g g1) by eauto with objs.
  destruct (r <? 0) eqn:Er; [by apply hoare_ret|]. apply Z.ltb_ge in Er. specialize (Hc1 Er).
  assert (Hu1 : g_user g1 !! sid = Some (Some uid)) by (rewrite Hs1; exact Hu).
  eapply hoare_soft_bind; [by eapply soft_session_create_delegated_cgroup|]. intros r1 _.
  destruct (r1 <? 0); [by apply hoare_ret|]. clear Hr s.
  eapply hoare_soft_bind; [apply soft_get_session; by eexists|]. intros s Hr.
  destruct (row_cg _ _ _ _ _ Hr Hc1) as [Hp%is_some_Some Hl%is_some_Some].
  eapply hoare_soft_bind; [by apply (soft_deref _ _ (λ _, True))|]. intros path _.
  eapply hoare_soft_bind; [by apply (soft_deref _ _ (λ _, True))|]. intros leaf _.
  eapply (hoare_soft_bind _ _ _ (λ _, True)).
  { destruct (r1 =? 0); [apply soft_cg_create|by apply soft_ret]. }
  intros r2 _. destruct (r2 <? 0); [by apply hoare_ret|].
  eapply hoare_soft_bind; [apply soft_when; intros _; apply soft_emit|]. intros _ _.
  eapply (hoare_bind _ _ _ (λ _ g', WF x g' ∧ same_but_watch g1 g')).
  { apply hoare_ignore. apply hoare_session_watch_cgroup; [done|done|by eexists]. }
  intros _ g2 (?&Hs2). apply hoare_ret. split; [done|].
  eapply same_objs_trans; [exact Ho1|by apply same_objs_watch].
Qed.

(** * Starting *)

Lemma soft_session_setup_stop_on_idle_timer g sid :
  has_s g sid → soft g (session_setup_stop_on_idle_timer sid) (λ _, True).
Proof.
  intros Hs. unfold session_setup_stop_on_idle_timer.
  eapply soft_bind; [by apply soft_get_session|]. intros s _.
  eapply soft_bind; [apply soft_gets_true|]. intros stop _.
  destruct (_ || _); [by apply soft_ret|]. cbv zeta. destruct (_ <? 0); [by apply soft_ret|].
  eapply soft_bind; [soft_upd|]. intros. by apply soft_ret.
Qed.

Lemma hoare_session_start_finish g sid uid :
  WF ex0 g → coh g → g_user g !! sid = Some (Some uid) →
  hoare g (session_start_finish sid uid) (λ _ g', WF ex0 g' ∧ same_objs g g').
Proof.
  intros Hwf Hg Hu. assert (Hs : has_s g sid) by by eexists. unfold session_start_finish.
  eapply hoare_soft_bind.
  { apply soft_upd_session; [|done]. intros s. by destruct (dual_timestamp_is_set _). }
  intros _ _. eapply hoare_soft_bind; [by apply soft_get_session|]. intros s Hr.
  apply (hoare_bind _ _ _ (λ _ g1, WF ex0 g1 ∧ same_but_act g g1)).
  { destruct (s_seat s) as [k|] eqn:Ek; [|apply hoare_ret; split; [done|apply same_but_act_refl]].
    apply hoare_ignore, hoare_seat_read_active_vt; eauto with links. }
  intros _ g1 (Hwf1&Hs1). apply hoare_coh; intros Hg1.
  assert (Hu1 : g_user g1 !! sid = Some (Some uid)) by (rewrite Hs1; exact Hu).
  assert (Hin1 : has_s g1 sid) by by eexists.
  eapply hoare_soft_bind; [soft_upd|]. intros _ _.
  eapply hoare_soft_bind; [apply soft_ignore; by eapply soft_session_chown_tty|]. intros _ _.
  eapply hoare_bind; [apply (hoare_user_elect_display ex0); eauto with links|].
  intros _ g2 (Hwf2&Hs2). apply hoare_coh; intros Hg2.
  assert (Hu2 : g_user g2 !! sid = Some (Some uid)) by (rewrite Hs2; exact Hu1).
  assert (Hin2 : has_s g2 sid) by by eexists.
  assert (Ho2 : same_objs g g2).
  { eapply same_objs_trans; [by apply same_objs_act|by apply same_objs_user]. }
  assert (Hk2 : ∀ k, s_seat s = Some k → g_seat g2 !! sid = Some (Some k)).
  { intros k Ek. rewrite Ho2; cbn. eauto with links. }
  eapply hoare_mono with (Q := λ _ g', g' = g2 ∧ True); [|by intros _ ? [-> _]].
  eapply soft_bind; [apply soft_ignore; by eapply soft_session_save|]. intros _ _.
  eapply soft_bind; [apply soft_ignore; eapply soft_user_save; eauto with links|]. intros _ _.
  eapply (soft_bind _ _ _ (λ _, True)).
  { destruct (s_seat s) as [k|] eqn:Ek; [|by apply soft_ret]. specialize (Hk2 k eq_refl).
    apply soft_ignore. eapply soft_seat_save; eauto with links. }
  intros _ _. eapply soft_bind; [apply soft_emit|]. intros _ _.
  eapply soft_bind; [apply soft_user_send_changed; eauto with links|]. intros _ _.
  destruct (s_seat s) as [k|] eqn:Ek; [|by apply soft_ret]. specialize (Hk2 k eq_refl).
  eapply soft_bind; [apply soft_get_seat; eauto with links|]. intros st _.
  apply soft_when. intros _. apply soft_seat_send_changed. eauto with links.
Qed.

(** As [same_objs], but users may have been started. *)
Definition same_objs_live (g g' : cols) : Prop :=
  ∃ g1, same_but_live g g1 ∧ same_objs g1 g'.
Lemma same_objs_live_refl g : same_objs_live g g.
Proof. exists g. split; [apply same_but_live_refl|apply same_objs_refl]. Qed.
Lemma same_objs_live_trans g g' g'' :
  same_objs_live g g' → same_objs g' g'' → same_objs_live g g''.
Proof. intros (g1&?&H) H'. exists g1. split; [done|exact (same_objs_trans _ _ _ H H')]. Qed.
Lemma same_objs_live_user g g' : same_objs_live g g' → g_user g' = g_user g ∧ g_seat g' = g_seat g.
Proof. intros (g1&H1&H2). rewrite H2; cbn. by rewrite H1. Qed.

Lemma hoare_session_start g sid :
  WF ex0 g → coh g → has_s g sid →
  hoare g (session_start sid) (λ _ g', WF ex0 g' ∧ same_objs_live g g').
Proof.
  intros Hwf Hg Hs. unfold session_start. eapply hoare_soft_bind; [by apply soft_get_session|].
  intros s Hr. assert (Hsame : WF ex0 g ∧ same_objs_live g g) by (split; [done|apply same_objs_live_refl]).
  destruct (s_user s) as [uid|] eqn:Eu; [|by apply hoare_ret].
  destruct (s_stopping s); [by apply hoare_ret|]. destruct (s_started s); [by apply hoare_ret|].
  assert (Hu : g_user g !! sid = Some (Some uid)) by eauto with links.
  eapply (hoare_bind _ _ _ (λ _ g1, WF ex0 g1 ∧ same_objs_live g g1)).
  { cbn [until_error]. eapply hoare_bind; [eapply (hoare_user_start ex0); eauto with links|].
    intros r g1 (Hwf1&Hl1). apply hoare_coh; intros Hg1.
    assert (Ho1 : same_objs_live g g1) by (exists g1; split; [done|apply same_objs_refl]).
    assert (Hu1 : g_user g1 !! sid = Some (Some uid)) by (rewrite Hl1; exact Hu).
    destruct (r <? 0); [by apply hoare_ret|].
    eapply hoare_bind; [by eapply hoare_session_start_cgroup|]. intros r1 g2 (?&Ho2).
    assert (Ho2' : same_objs_live g g2) by exact (same_objs_live_trans _ _ _ Ho1 Ho2).
    destruct (r1 <? 0); [by apply hoare_ret|].
    eapply hoare_soft_bind.
    { apply soft_session_setup_stop_on_idle_timer. rewrite Ho2. by eexists. }
    intros r2 _. destruct (r2 <? 0); by apply hoare_ret. }
  intros r g1 (Hwf1&Ho1). apply hoare_coh; intros Hg1. destruct (r <? 0); [by apply hoare_ret|].
  eapply hoare_bind; [apply hoare_session_start_finish; [done|done|]|].
  { destruct (same_objs_live_user _ _ Ho1) as [-> _]. exact Hu. }
  intros _ g2 (?&Ho2). apply hoare_ret. split; [done|]. exact (same_objs_live_trans _ _ _ Ho1 Ho2).
Qed.

(** * The controller *)

Lemma hoare_session_release_controller x g sid b :
  WF x g → coh g → has_s g sid →
  hoare g (session_release_controller sid b) (λ _ g', WF x g' ∧ same_but_sds g g').
Proof.
  intros Hwf Hg Hs. unfold session_release_controller.
  eapply hoare_soft_bind; [by apply soft_get_session|]. intros s _.
  destruct (s_controller s); [|apply hoare_ret; split; [done|apply same_but_sds_refl]].
  eapply hoare_soft_bind; [apply soft_when; intros _; soft_upd|]. intros _ _.
  eapply hoare_bind; [by eapply hoare_session_free_devices|].
  intros _ g1 (?&Hs1&_). eapply hoare_mono.
  - apply soft_upd_session; [intros ?; repeat split; reflexivity|]. rewrite Hs1. exact Hs.
  - by intros _ g2 [-> _].
Qed.

Lemma hoare_session_drop_controller x g sid :
  WF x g → coh g → has_s g sid →
  hoare g (session_drop_controller sid) (λ _ g', WF x g' ∧ same_but_sds g g').
Proof.
  intros Hwf Hg Hs. unfold session_drop_controller.
  eapply hoare_soft_bind; [by apply soft_get_session|]. intros s _.
  destruct (s_controller s); [|apply hoare_ret; split; [done|apply same_but_sds_refl]].
  eapply hoare_soft_bind; [soft_upd|]. intros _ _.
  eapply hoare_soft_bind; [by eapply soft_session_set_type|]. intros _ _.
  eapply hoare_bind; [by eapply hoare_session_release_controller|].
  intros _ g1 (Hwf1&Hs1). apply hoare_coh; intros Hg1.
  assert (Hin1 : has_s g1 sid) by (rewrite Hs1; exact Hs).
  eapply hoare_soft_bind; [apply soft_ignore; by eapply soft_session_save|]. intros _ _.
  eapply hoare_mono; [by apply soft_session_restore_vt|]. by intros _ g2 [-> _].
Qed.

Lemma hoare_session_set_controller x g sid sender force prepare uid :
  WF x g → coh g → g_user g !! sid = Some (Some uid) →
  hoare g (session_set_controller sid sender force prepare)
    (λ _ g', WF x g' ∧ same_but_sds g g').
Proof.
  intros Hwf Hg Hu. assert (Hs : has_s g sid) by by eexists. unfold session_set_controller.
  assert (Hsame : WF x g ∧ same_but_sds g g) by (split; [done|apply same_but_sds_refl]).
  eapply (hoare_soft_bind _ _ _ (λ _, True)).
  { eapply soft_bind; [by apply soft_get_session|]. intros. by apply soft_ret. }
  intros mine _. destruct mine; [by apply hoare_ret|].
  eapply hoare_soft_bind; [by apply soft_get_session|]. intros s _.
  destruct (_ && _); [by apply hoare_ret|].
  eapply hoare_soft_bind; [soft_upd|]. intros _ _. destruct (_ <? 0); [by apply hoare_ret|].
  eapply hoare_soft_bind; [soft_upd|]. intros _ _. cbv zeta.
  destruct (_ <? 0); [by apply hoare_ret|].
  eapply hoare_soft_bind; [soft_upd|]. intros _ _.
  eapply (hoare_soft_bind _ _ _ (λ _, True)).
  { destruct prepare; [by eapply soft_session_prepare_vt|by apply soft_ret]. }
  intros r _. destruct (r <? 0).
  { eapply hoare_soft_bind; [soft_upd|]. intros _ _. by apply hoare_ret. }
  eapply hoare_bind; [by eapply hoare_session_release_controller|].
  intros _ g1 (Hwf1&Hs1). apply hoare_coh; intros Hg1.
  assert (Hin1 : has_s g1 sid) by (rewrite Hs1; exact Hs).
  eapply hoare_soft_bind; [soft_upd|]. intros _ _.
  eapply hoare_soft_bind; [apply soft_ignore; by eapply soft_session_save|]. intros _ _.
  by apply hoare_ret.
Qed.

Lemma hoare_session_leave_vt x g sid :
  WF x g → coh g → has_s g sid →
  hoare g (session_leave_vt sid) (λ _ g', WF x g' ∧ same_but_sds g g').
Proof.
  intros Hwf Hg Hs. unfold session_leave_vt.
  eapply hoare_soft_bind; [by apply soft_get_session|]. intros s _.
  destruct (_ <? 0); [apply hoare_ret; split; [done|apply same_but_sds_refl]|].
  destruct (coh_sds_of _ _ Hg Hs) as [ds Hds].
  eapply hoare_bind; [by eapply hoare_session_device_pause_all|].
  intros _ g1 (ds'&(->&Hsame&Hok)&Hin). apply hoare_coh; intros Hg1.
  assert (Hwf1 : WF x (put_sds g sid ds')).
  { eapply wf_pause_one; [done..|]. intros dev n Hn Ha. by rewrite (Hin _ _ Hn) in Ha. }
  eapply hoare_soft_bind; [apply soft_get_session; exact Hs|]. intros s1 _.
  eapply hoare_soft_bind; [apply soft_emit|]. intros _ _.
  eapply hoare_mono; [apply soft_when; intros _; by apply soft_reopen_vt|].
  intros _ g2 [-> _]. split; [done|by destruct g].
Qed.

(** * Activation *)

Lemma soft_chvt g v : soft g (chvt v) (λ _, True).
Proof. eapply soft_bind; [apply soft_emit|]. intros. by apply soft_ret. Qed.

Lemma soft_session_device_try_pause_all g sid :
  coh g → has_s g sid → soft g (session_device_try_pause_all sid) (λ _, True).
Proof.
  intros Hg Hs. unfold session_device_try_pause_all.
  destruct (coh_sds_of _ _ Hg Hs) as [ds Hds].
  eapply soft_bind; [by apply soft_get_session|]. intros s Hr.
  apply soft_fold_m; [done|]. intros n dev Hin _.
  apply device_order_elem in Hin as [nd Hnd].
  assert (Hsd : g_sds g !! sid = Some (sds_of s)) by apply Hr.
  unfold try_pause_one. eapply soft_bind; [by eapply soft_get_sd|]. intros d _.
  destruct (negb _); [by apply soft_ret|].
  eapply soft_bind; [by eapply soft_session_device_notify|]. intros. by apply soft_ret.
Qed.

Lemma hoare_session_activate g sid uid :
  WF ex0 g → coh g → g_user g !! sid = Some (Some uid) →
  hoare g (session_activate sid) (λ _ g', WF ex0 g' ∧ same_but_act g g').
Proof.
  intros Hwf Hg Hu. unfold session_activate. assert (Hs : has_s g sid) by by eexists.
  assert (Hsame : WF ex0 g ∧ same_but_act g g) by (split; [done|apply same_but_act_refl]).
  eapply hoare_soft_bind; [by apply soft_get_session|]. intros s Hr.
  eapply hoare_soft_bind.
  { apply soft_assert. assert (g_user g !! sid = Some (s_user s)) as Hu' by apply Hr. rewrite Hu in Hu'. by injection Hu' as <-. }
  intros _ _. destruct (s_seat s) as [k|] eqn:Ek; [|by apply hoare_ret].
  assert (Hk : g_seat g !! sid = Some (Some k)) by eauto with links.
  assert (Ht : has_t g k) by eauto with links.
  eapply hoare_soft_bind; [by apply soft_get_seat|]. intros st Hst.
  case_bool_decide; [by apply hoare_ret|].
  eapply hoare_soft_bind; [apply soft_seat_has_vts|]. intros vts _. destruct vts.
  { destruct (_ =? 0); [by apply hoare_ret|].
    eapply hoare_mono; [apply soft_chvt|]. by intros ? ? [-> _]. }
  clear Hst. eapply hoare_bind; [by apply hoare_upd_seat|]. intros _ g1 (st1&Hst1&->).
  assert (put_t g k (st1 <| se_pending_switch := Some sid |>)
    = g <| g_pending := <[k := Some sid]> (g_pending g) |>) as -> by (clear Hr; same_row; done).
  assert (Hwf1 : WF ex0 (g <| g_pending := <[k := Some sid]> (g_pending g) |>)).
  { destruct Hwf; constructor; cbn; try assumption.
    intros k' a [[<- [= <-]]|[? ?]]%lookup_insert_Some; eauto. }
  apply hoare_coh; intros Hg1.
  eapply hoare_soft_bind; [by apply soft_session_device_try_pause_all|]. intros n _.
  eapply (hoare_bind _ _ _ (λ _ g', WF ex0 g' ∧ same_but_act g g')).
  { apply hoare_when; [|intros _; split; [done|by destruct g]]. intros _.
    eapply hoare_mono; [by apply hoare_seat_complete_switch|]. intros _ g2 (?&Hs2).
    split; [done|]. eapply same_but_act_trans; [|exact Hs2]. by destruct g. }
  intros _ g2 ?. by apply hoare_ret.
Qed.

Lemma seat_get_position_elem s pos sid :
  seat_get_position s pos = Some sid → se_positions s !! Z.to_nat pos = Some (Some sid).
Proof.
  unfold seat_get_position. destruct (_ <=? _); [done|].
  destruct (se_positions s !! Z.to_nat pos) as [[?|]|]; cbn; congruence.
Qed.
Lemma first_occupied_elem s l sid :
  first_occupied s l = Some sid → ∃ pos, pos ∈ l ∧ seat_get_position s pos = Some sid.
Proof.
  induction l as [|i l IH]; cbn; [done|].
  destruct (seat_get_position s i) as [a|] eqn:Ea.
  - intros [= <-]. exists i. split; [left|done].
  - intros (pos&?&?)%IH. exists pos. split; [by right|done].
Qed.

(** Activating the session of a position. *)
Lemma hoare_activate_position g k s pos sid :
  WF ex0 g → coh g → row_t g k s → seat_get_position s pos = Some sid →
  hoare g (session_activate sid) (λ _ g', WF ex0 g' ∧ same_but_act g g').
Proof.
  intros Hwf Hg Hr Hp%seat_get_position_elem.
  destruct (wf_seat _ _ Hwf sid k) as (_&uid&Hu); [by eauto with links|]. by eapply hoare_session_activate.
Qed.

Lemma hoare_seat_switch_to g k num :
  WF ex0 g → coh g → has_t g k →
  hoare g (seat_switch_to k num) (λ _ g', WF ex0 g' ∧ same_but_act g g').
Proof.
  intros Hwf Hg Hk. unfold seat_switch_to.
  assert (Hsame : WF ex0 g ∧ same_but_act g g) by (split; [done|apply same_but_act_refl]).
  destruct (_ =? 0); [by apply hoare_ret|].
  eapply hoare_soft_bind; [by apply soft_get_seat|]. intros s Hr.
  destruct (seat_get_position s num) as [sid|] eqn:Ep; [by eapply hoare_activate_position|].
  eapply hoare_soft_bind; [apply soft_seat_has_vts|]. intros vts _.
  destruct (_ && _); [|by apply hoare_ret].
  eapply hoare_mono; [apply soft_chvt|]. by intros ? ? [-> _].
Qed.

Lemma soft_switch_start g k s :
  WF ex0 g → coh g → row_t g k s → soft g (switch_start s) (λ _, True).
Proof.
  intros Hwf Hg Hr. unfold switch_start. destruct (se_active s) as [a|] eqn:Ea; [|by apply soft_ret].
  eapply soft_bind; [apply soft_get_session; eauto with links|]. intros. by apply soft_ret.
Qed.
Lemma hoare_switch_first g k s l :
  WF ex0 g → coh g → row_t g k s →
  hoare g (match first_occupied s l with
           | Some sid => session_activate sid
           | None => ret (- EINVAL)
           end) (λ _ g', WF ex0 g' ∧ same_but_act g g').
Proof.
  intros Hwf Hg Hr. destruct (first_occupied s l) as [sid|] eqn:Ef.
  - apply first_occupied_elem in Ef as (pos&_&Hp). by eapply hoare_activate_position.
  - apply hoare_ret. split; [done|apply same_but_act_refl].
Qed.
Lemma hoare_seat_switch_to_next g k :
  WF ex0 g → coh g → has_t g k →
  hoare g (seat_switch_to_next k) (λ _ g', WF ex0 g' ∧ same_but_act g g').
Proof.
  intros Hwf Hg Hk. unfold seat_switch_to_next.
  eapply hoare_soft_bind; [by apply soft_get_seat|]. intros s Hr. cbv zeta.
  destruct (_ =? 0); [apply hoare_ret; split; [done|apply same_but_act_refl]|].
  eapply hoare_soft_bind; [by eapply soft_switch_start|]. intros start _.
  by eapply hoare_switch_first.
Qed.
Lemma hoare_seat_switch_to_previous g k :
  WF ex0 g → coh g → has_t g k →
  hoare g (seat_switch_to_previous k) (λ _ g', WF ex0 g' ∧ same_but_act g g').
Proof.
  intros Hwf Hg Hk. unfold seat_switch_to_previous.
  eapply hoare_soft_bind; [by apply soft_get_seat|]. intros s Hr. cbv zeta.
  destruct (_ =? 0); [apply hoare_ret; split; [done|apply same_but_act_refl]|].
  eapply hoare_soft_bind; [by eapply soft_switch_start|]. intros start _.
  by eapply hoare_switch_first.
Qed.

(** * Release, collection, killing *)

Lemma soft_session_release g sid : has_s g sid → soft g (session_release sid) (λ _, True).
Proof.
  intros Hs. unfold session_release. eapply soft_bind; [by apply soft_get_session|]. intros s _.
  destruct (_ || _); [by apply soft_ret|]. destruct (is_some _); [by apply soft_ret|]. cbv zeta.
  eapply soft_bind; [apply soft_when; intros _; soft_upd|]. intros. by apply soft_ret.
Qed.
(** A session without a user may go, unless those that have not been started are
    looked at more closely. *)
Lemma soft_session_may_gc g sid b : has_s g sid →
  soft g (session_may_gc sid b) (λ r, g_user g !! sid = Some None → b = false → r = true).
Proof.
  intros Hs. unfold session_may_gc. eapply soft_bind; [by apply soft_get_session|].
  intros s Hr. apply soft_ret. intros Hu ->. assert (g_user g !! sid = Some (s_user s)) as Hu' by apply Hr.
  rewrite Hu in Hu'. by injection Hu' as <-.
Qed.
Lemma soft_session_kill g sid w n : has_s g sid → soft g (session_kill sid w n) (λ _, True).
Proof.
  intros Hs. unfold session_kill. eapply soft_bind; [by apply soft_get_session|]. intros s _.
  destruct w; cbv zeta.
  - destruct (negb _); [by apply soft_ret|].
    eapply soft_bind; [apply soft_emit|]. intros. by apply soft_ret.
  - destruct (_ =? 0); [|by apply soft_ret].
    eapply soft_bind; [apply soft_emit|]. intros. by apply soft_ret.
Qed.
End Start.
