(* ===== verification/LinksLoad.v ===== *)
(** What is read when the daemon starts keeps the links well-formed: the users
    that were saved, and the sessions, which may end without a user. *)
From S2P Require Import Prelude Time LoginTypes ActionTypes LoginState LoginEnv Parse EnvFile Words WordsFacts Objects SessionDevice Seat Device User Session ManagerBus Inhibit Startup Moves Cols Links LinksObjects LinksDevice LinksSeat LinksPositions LinksAttach LinksHotplug LinksTake LinksUser LinksSession LinksLeader LinksStart.

(** * No device is taken *)

Section Moves.
Context {E : Env}.
Local Hint Resolve moves_seat_has_vts moves_seat_set_active moves_session_get_state moves_session_save
  moves_session_device_free : moves.
Lemma moves_set_position k p v : moves no_take (set_position k p v).
Proof. moves_by set_position. Qed.
Lemma moves_find_claimant p l : moves no_take (find_claimant p l).
Proof. induction l; cbn; solve_moves. Qed.
Local Hint Resolve moves_set_position moves_find_claimant : moves.
Lemma moves_seat_evict_position k sid : moves no_take (seat_evict_position k sid).
Proof. moves_by seat_evict_position. Qed.
Local Hint Resolve moves_seat_evict_position : moves.
Lemma moves_seat_claim_position k sid p : moves no_take (seat_claim_position k sid p).
Proof. moves_by seat_claim_position. Qed.
Local Hint Resolve moves_seat_claim_position : moves.
Lemma moves_seat_attach_session k sid : moves no_take (seat_attach_session k sid).
Proof. unfold seat_attach_session, seat_assign_position. solve_moves. Qed.
Lemma moves_free_session_devices fuel sid : moves no_take (free_session_devices fuel sid).
Proof. induction fuel; cbn; solve_moves. Qed.
Local Hint Resolve moves_free_session_devices : moves.
Lemma moves_session_set_controller sid sender force :
  moves no_take (session_set_controller sid sender force false).
Proof.
  unfold session_set_controller, session_is_controller, session_release_controller, session_free_devices. solve_moves.
Qed.
End Moves.

(** * Users *)

Section Users.
Context {E : Env} {Bt : Boot} {Ok : EnvOk}.

(** Nobody is waiting for a user to be stopped. *)
Definition no_timers (g : cols) : Prop := ∀ uid t, g_utimer g !! uid = Some t → t = None.
Lemma no_timers_set g g' uid :
  no_timers g → g_utimer g' = <[uid := None]> (g_utimer g) → no_timers g'.
Proof. intros Ht E' i t. rewrite E'. intros [[_ <-]|[_ Hi]]%lookup_insert_Some; [done|by eapply Ht]. Qed.
(** What loading users leaves alone. *)
Definition same_but_users (g g' : cols) : Prop :=
  g' = g <| g_usess := g_usess g' |> <| g_display := g_display g' |> <| g_ulast := g_ulast g' |>
         <| g_utimer := g_utimer g' |> <| g_uqueued := g_uqueued g' |> <| g_live := g_live g' |>
         <| g_uq := g_uq g' |>.
Lemma same_but_users_trans g g' g'' :
  same_but_users g g' → same_but_users g' g'' → same_but_users g g''.
Proof. unfold same_but_users. intros -> ->. done. Qed.
Lemma same_but_uq_users g g' : same_but_uq g g' → same_but_users g g'.
Proof. unfold same_but_uq, same_but_users. by intros ->. Qed.

Definition users_loaded (g g' : cols) : Prop := WF ex0 g' ∧ no_timers g' ∧ same_but_users g g'.
Lemma users_loaded_refl g : WF ex0 g → no_timers g → users_loaded g g.
Proof. intros. split; [done|]. split; [done|]. by destruct g. Qed.
Lemma users_loaded_trans g g' g'' : users_loaded g g' → users_loaded g' g'' → users_loaded g g''.
Proof. intros (_&_&H1) (?&?&H2). split_and!; [done..|exact (same_but_users_trans _ _ _ H1 H2)]. Qed.

Lemma hoare_user_load g uid :
  WF ex0 g → coh g → no_timers g → has_u g uid →
  hoare g (user_load uid) (λ _ g', users_loaded g g').
Proof.
  intros Hwf Hg Ht Hu. unfold user_load. eapply hoare_soft_bind; [by apply soft_get_user|]. intros _ _.
  destruct (parse_env_file_at _) as [r f]. pose proof (users_loaded_refl _ Hwf Ht) as Hsame.
  destruct (_ =? _); [by apply hoare_ret|]. destruct (_ <? 0); [by apply hoare_ret|]. cbv zeta.
  eapply hoare_bind; [by apply hoare_upd_user|]. intros _ g' (u&Hr&->). apply hoare_ret.
  set (u' := u <| u_stopping := _ |> <| u_timestamp := _ |> <| u_last_session_timestamp := _ |> <| u_gc_mode := _ |>).
  assert (Hn : g_utimer g !! uid = Some None).
  { assert (Hu' : g_utimer g !! uid = Some (u_timer_event_source u)) by apply Hr. by rewrite (Ht _ _ Hu') in Hu'. }
  assert (put_u g uid u' = g <| g_ulast := <[uid := u_last_session_timestamp u']> (g_ulast g) |>
    <| g_utimer := <[uid := None]> (g_utimer g) |> <| g_live := <[uid := live_of u']> (g_live g) |>) as ->.
  { rewrite (insert_id (g_utimer g)) by done. unfold put_u.
    change (u_sessions u') with (u_sessions u). change (u_display u') with (u_display u).
    change (u_timer_event_source u') with (u_timer_event_source u). change (u_in_gc_queue u') with (u_in_gc_queue u).
    clearbody u'. same_row. by destruct g. }
  pose proof (wf_set_timer _ _ uid (u_last_session_timestamp u') None Hwf (λ _, eq_refl)) as Hwf1.
  split_and!; [eapply wf_same_but_live; [exact Hwf1|done]|by eapply no_timers_set|by destruct g].
Qed.

(** A user that is found in the database. *)
Lemma hoare_add_user g ur :
  WF ex0 g → coh g → no_timers g →
  hoare g (manager_add_user ur) (λ r g', users_loaded g g' ∧ (0 ≤ r → has_u g' (ur_uid ur))).
Proof.
  intros Hwf Hg Ht. eapply hoare_mono; [by apply (hoare_manager_add_user ex0)|].
  intros r g' (Hwf'&[->| ->]&Hu); (split; [|done]).
  - by apply users_loaded_refl.
  - split_and!; [done|by eapply no_timers_set|by destruct g].
Qed.
Lemma hoare_add_user_by_name g name :
  WF ex0 g → coh g → no_timers g → hoare g (manager_add_user_by_name name) (λ _ g', users_loaded g g').
Proof.
  intros Hwf Hg Ht. unfold manager_add_user_by_name. destruct (e_userdb_by_name name).
  - apply hoare_ret. by apply users_loaded_refl.
  - eapply hoare_mono; [by apply hoare_add_user|]. by intros ? ? [? _].
Qed.
Lemma hoare_load_user_file g name :
  WF ex0 g → coh g → no_timers g →
  hoare g (match parse_uid name with
           | inl k => ret k
           | inr uid =>
               o <- manager_add_user_by_uid uid ;;
               match o with inl k => ret k | inr u => user_add_to_gc_queue u ;;; user_load u end
           end) (λ _ g', users_loaded g g').
Proof.
  intros Hwf Hg Ht. destruct (parse_uid name) as [k|uid] eqn:Ep; [by apply hoare_ret, users_loaded_refl|].
  apply parse_uid_valid in Ep. unfold manager_add_user_by_uid.
  eapply (hoare_bind _ _ _ (λ o g', users_loaded g g' ∧ ∀ u, o = inr u → has_u g' u)).
  { eapply hoare_soft_bind; [by apply soft_assert|]. intros _ _. destruct (e_userdb_by_uid uid) as [r|ur].
    - apply hoare_ret. split; [by apply users_loaded_refl|done].
    - eapply hoare_bind; [by apply hoare_add_user|]. intros r g1 [H1 Hu]. apply hoare_ret. split; [done|].
      intros u. destruct (Z.ltb_spec r 0); [done|]. intros [= <-]. by apply Hu. }
  intros o g1 [H1 Hu]. apply hoare_coh; intros Hg1. destruct o as [k|u]; [by apply hoare_ret|].
  destruct (H1) as (Hwf1&Ht1&_). specialize (Hu u eq_refl).
  eapply hoare_bind; [by apply (hoare_user_add_to_gc_queue ex0)|]. intros _ g2 (Hwf2&Hs2&_). apply hoare_coh; intros Hg2.
  assert (H2 : users_loaded g1 g2).
  { split_and!; [done|unfold no_timers; rewrite Hs2; exact Ht1|by apply same_but_uq_users]. }
  assert (Hu2 : has_u g2 u) by (rewrite Hs2; exact Hu).
  eapply hoare_mono; [apply hoare_user_load; [done|done|apply H2|done]|]. intros ? g3 H3.
  exact (users_loaded_trans _ _ _ H1 (users_loaded_trans _ _ _ H2 H3)).
Qed.
End Users.

(** * Sessions *)

Lemma parse_pid_positive s p : parse_pid s = inr p → 0 < p.
Proof. unfold parse_pid. intros H. repeat case_match; simplify_eq; lia. Qed.

Section Sessions.
Context {E : Env} {Bt : Boot} {Ok : EnvOk}.

(** A session that could not be loaded waits for the collector. *)
Lemma wf_not_loaded g sid : booting = true → WF (exnew sid) g → sid ∈ g_sq g → WF ex0 g.
Proof.
  intros Hb Hwf Hq. destruct Hwf; constructor; try assumption.
  intros i Hi. destruct (wf_owner _ Hi) as [[= ->]|[?|[? ?]]]; auto 6.
Qed.

(** The buttons, and which seat is seat0. *)
Definition kept (g : cols) : gmap string (bool * bool) * option string := (g_btn g, g_seat0 g).

(** ** Once the session has its user *)

Section Loading.
Context (sid : string) (uid : Z) (U : gmap string (option Z)) (B : gmap string (bool * bool) * option string)
  (HU : U !! sid = Some (Some uid)) (Hroom : Z.of_nat (size U) + 1 < UINT_MAX).

(** Between the steps, [untaken] until its devices are looked at. *)
Record loading (untaken : bool) (g : cols) : Prop := mkLoading {
  ld_wf : WF ex0 g;
  ld_user : g_user g = U;
  ld_kept : kept g = B;
  ld_leader : g_leader g !! sid = Some 0;
  ld_vtnr : ∀ v, g_vtnr g !! sid = Some v → 0 ≤ v < UINT_MAX;
  ld_taken : untaken = true → ∀ dev, ¬ g_taken g sid dev;
}.
Definition loads (t t' : bool) {A} (c : MM A) : Prop :=
  ∀ g, loading t g → coh g → hoare g c (λ _ g', loading t' g').

Lemma loads_ret t {A} (a : A) : loads t t (ret a).
Proof. intros g Hl _. by apply hoare_ret. Qed.
Lemma loads_bind t t' t'' {A B'} (c : MM A) (k : A → MM B') :
  loads t t' c → (∀ a, loads t' t'' (k a)) → loads t t'' (bind c k).
Proof.
  intros Hc Hk g Hl Hg. eapply hoare_bind; [by apply Hc|]. intros a g' Hl'. apply hoare_coh; intros Hg'. by apply Hk.
Qed.
Lemma loads_soft t {A} (c : MM A) :
  (∀ g, loading t g → coh g → soft g c (λ _, True)) → loads t t c.
Proof. intros Hc g Hl Hg. eapply hoare_mono; [by apply Hc|]. by intros ? ? [-> _]. Qed.
Lemma loads_ignore t t' {A} (c : MM A) : loads t t' c → loads t t' (ignore c).
Proof. intros Hc g Hl Hg. by apply hoare_ignore, Hc. Qed.
Lemma loads_when t (b : bool) c : loads t t c → loads t t (when b c).
Proof. intros Hc g Hl Hg. apply hoare_when; [intros _; by apply Hc|done]. Qed.

Lemma loading_has t g : loading t g → g_user g !! sid = Some (Some uid).
Proof. intros Hl. by rewrite (ld_user _ _ Hl). Qed.
Lemma loading_has_s t g : loading t g → has_s g sid.
Proof. intros Hl%loading_has. by eexists. Qed.

(** What a step may leave as it is. *)
Lemma loading_same t g g' :
  loading t g → WF ex0 g' → g_user g' = g_user g → kept g' = kept g → g_leader g' = g_leader g →
  g_vtnr g' = g_vtnr g → g_no_take g g' → loading t g'.
Proof.
  intros [] Hwf E1 E2 E3 E4 Hn. constructor; [done|by rewrite E1|by rewrite E2|by rewrite E3|by rewrite E4|].
  intros Ht dev Htk. by apply (ld_taken0 Ht dev), Hn.
Qed.
Local Ltac loading_by t g Hs := apply (loading_same t g); [done|done|by rewrite Hs..|done].
Lemma loads_soft_bind t t' {A B'} (c : MM A) (k : A → MM B') :
  (∀ g, loading t g → coh g → soft g c (λ _, True)) → (∀ a, loads t t' (k a)) → loads t t' (bind c k).
Proof. intros Hc Hk. eapply loads_bind; [by apply loads_soft|done]. Qed.
Lemma loads_get_session t t' {A} (k : session → MM A) :
  (∀ s g, row_s g sid s → loading t g → coh g → hoare g (k s) (λ _ g', loading t' g')) →
  loads t t' (bind (get_session sid) k).
Proof.
  intros Hk g Hl Hg. eapply hoare_soft_bind; [by apply soft_get_session, (loading_has_s t)|]. intros s Hr. by apply Hk.
Qed.
Lemma loads_upd_misc t f : misc_s f → loads t t (upd_session sid f).
Proof.
  intros Hf g Hl Hg. eapply hoare_mono; [by apply (hoare_upd_misc ex0), (loading_has_s t); first apply Hl|].
  intros _ g' (Hwf&Hs&_). unfold same_but_misc in Hs. apply (loading_same t g); [done..|rewrite Hs; done|rewrite Hs; done|by rewrite Hs|by rewrite Hs|].
  intros i dev. unfold g_taken. by rewrite Hs.
Qed.

(** ** The seat *)

Lemma hoare_set_vtnr t v g :
  0 ≤ v < UINT_MAX → loading t g → coh g →
  hoare g (upd_session sid (λ s, s <| s_vtnr := v |>)) (λ _ g', loading t g' ∧ g_seat g' = g_seat g).
Proof.
  intros Hv Hl Hg. eapply hoare_mono; [by apply hoare_upd_session, (loading_has_s t)|]. intros _ g' (s&Hr&->).
  assert (put_s g sid (s <| s_vtnr := v |>) = g <| g_vtnr := <[sid := v]> (g_vtnr g) |>) as -> by (same_row; done).
  split; [|done]. destruct Hl. constructor; try done.
  - destruct ld_wf0; constructor; cbn; try assumption.
    intros i w k [[<- <-]|[_ Hi]]%lookup_insert_Some Hk; [done|eauto].
  - intros w. cbn. rewrite lookup_insert_eq. by intros [= <-].
Qed.
Lemma loads_set_vtnr t v :
  0 ≤ v < UINT_MAX → loads t t (upd_session sid (λ s, s <| s_vtnr := v |>)).
Proof. intros Hv g Hl Hg. eapply hoare_mono; [by apply (hoare_set_vtnr t)|]. by intros ? ? [? _]. Qed.
Lemma loads_attach k g :
  has_t g k → g_seat g !! sid = Some None → loading true g → coh g →
  hoare g (seat_attach_session k sid) (λ _ g', loading true g').
Proof.
  intros Hk Hs Hl Hg. eapply hoare_mono.
  { apply hoare_no_take; [apply moves_seat_attach_session|].
    eapply hoare_seat_attach_session; [apply Hl|done| |done|apply Hl|done|by eapply loading_has].
    unfold has_room. by rewrite (ld_user _ _ Hl). }
  intros r g' [[Hwf Hs'] Hn]. unfold same_but_seating in Hs'. loading_by true g Hs'.
Qed.
Lemma loads_claim_position t k p g :
  0 ≤ p < UINT_MAX → g_seat g !! sid = Some (Some k) → loading t g → coh g →
  hoare g (seat_claim_position k sid p) (λ _ g', loading t g').
Proof.
  intros Hp Hk Hl Hg. eapply hoare_mono.
  { apply hoare_no_take; [apply moves_seat_claim_position|]. by eapply (hoare_seat_claim_position ex0); [apply Hl|..]. }
  intros r g' [[Hwf Hs] Hn]. unfold same_but_pos in Hs. loading_by t g Hs.
Qed.

Lemma loads_load_seat f : session_file_ok f → loads true true (load_seat sid f).
Proof.
  intros Hf. unfold load_seat. eapply (loads_bind true true).
  { destruct (parse_boolean <$> f "REMOTE") as [[r|b]|]; [apply loads_ret| |apply loads_ret].
    apply loads_soft. intros g1 Hl1 Hg1. pose proof (loading_has_s _ _ Hl1). soft_upd. }
  intros _. eapply (loads_bind true true).
  { destruct (f "VTNR") as [x|] eqn:Ex; [|apply loads_ret]. change (safe_atou <$> Some x) with (Some (safe_atou x)).
    destruct (safe_atou x) as [r|v] eqn:Ev; [apply loads_ret|]. apply loads_set_vtnr.
    pose proof (safe_atou_range _ _ Ev). pose proof (saved_vtnr _ Hf _ _ Ex Ev). lia. }
  intros _. apply loads_get_session. intros s g Hr Hl Hg.
  eapply (hoare_bind _ _ _ (λ _ g', loading true g')).
  { destruct (f "SEAT") as [k|]; [|by apply hoare_ret].
    destruct (s_seat s) as [k'|] eqn:Es; [by apply hoare_ret|]. cbn [is_some].
    eapply (hoare_soft_bind _ _ _ (λ o, is_Some o → has_t g k)).
    { apply soft_gets. intros m <- H. unfold has_t; cbn. by rewrite lookup_fmap, fmap_is_Some. }
    intros [t|] Ho; [|by apply hoare_ret]. apply loads_attach; [by apply Ho|rewrite <- Es; apply Hr|done..]. }
  intros r g1 Hl1. apply hoare_coh. revert g1 Hl1. change (loads true true (s <- get_session sid ;;
    vts <- (match s_seat s with Some k => seat_has_vts k | None => ret false end) ;;
    when (negb vts) (upd_session sid (λ s, s <| s_vtnr := 0 |>)) ;;;
    (match f "POSITION", s_seat s with
     | Some position, Some k =>
         seat_claim_position k sid (match safe_atou position with inr npos => npos | inl _ => u32 e_uninit_int end)
     | _, _ => ret tt
     end) ;;; ret r)).
  apply loads_get_session. clear s g Hr Hl Hg. intros s g Hr Hl Hg.
  assert (Hk : g_seat g !! sid = Some (s_seat s)) by apply Hr.
  eapply (hoare_soft_bind _ _ _ (λ _, True)).
  { destruct (s_seat s); [eapply soft_true, soft_seat_has_vts|by apply soft_ret]. }
  intros vts _. eapply (hoare_bind _ _ _ (λ _ g', loading true g' ∧ g_seat g' = g_seat g)).
  { apply hoare_when; [|done]. intros _. by apply hoare_set_vtnr. }
  intros _ g1 [Hl1 Ek]. apply hoare_coh; intros Hg1. eapply (hoare_bind _ _ _ (λ _ g', loading true g')); [|intros ? ? ?; by apply hoare_ret].
  destruct (f "POSITION") as [x|] eqn:Ex; [|by apply hoare_ret]. destruct (s_seat s) as [k|]; [|by apply hoare_ret].
  destruct (saved_position _ Hf _ Ex) as (p&Ep&Hp). rewrite Ep. apply loads_claim_position; [|by rewrite Ek|done..].
  apply safe_atou_range in Ep. lia.
Qed.

(** ** The other fields *)

Lemma loads_load_kind t f : loads t t (load_kind sid f).
Proof.
  apply loads_upd_misc. intros s. cbv zeta.
  destruct (f "TTY_VALIDITY" ≫= _); case_bool_decide; by split_and!.
Qed.
Lemma loads_load_times t f : loads t t (load_times sid f).
Proof. apply loads_upd_misc. intros s. by split_and!. Qed.
Lemma loads_fifo t : loads t t (load_session_fifo sid).
Proof.
  apply loads_get_session. intros s g Hr Hl Hg. destruct (s_fifo_path s) as [path|]; [|by apply hoare_ret].
  revert g Hr Hl Hg. enough (H : loads t t (when ((e_mkfifo path <? 0) && negb (e_mkfifo path =? - EEXIST))
    (upd_session sid (λ s, s <| s_fifo_path := None |>)) ;;; ignore (session_create_fifo sid))) by (intros; by apply H).
  eapply loads_bind; [by apply loads_when, loads_upd_misc|]. intros _. apply loads_ignore. intros g Hl Hg.
  eapply hoare_mono; [apply (hoare_session_create_fifo ex0); [apply Hl|done|by eapply loading_has_s]|].
  intros _ g' [Hwf Hs]. unfold same_but_misc in Hs. apply (loading_same t g); [done|done|by rewrite Hs..|].
  intros i dev. unfold g_taken. by rewrite Hs.
Qed.
Lemma loads_load_display t f : loads t t (load_display sid f).
Proof.
  unfold load_display. destruct (parse_boolean <$> f "IS_DISPLAY") as [[r|[]]|]; try apply loads_ret.
  apply loads_get_session. intros s g Hr Hl Hg. pose proof (loading_has _ _ Hl) as Hu.
  assert (s_user s = Some uid) as -> by (destruct Hr as (Hr&_); congruence).
  eapply hoare_soft_bind; [by apply (soft_ret _ _ (λ z, z = uid))|]. intros ? ->.
  pose proof (follow_user _ _ (ld_wf _ _ Hl) _ _ Hu) as Huid.
  eapply hoare_mono; [by apply hoare_upd_user|]. intros _ g' (u&Hru&->).
  assert (put_u g uid (u <| u_display := Some sid |>)
    = g <| g_display := <[uid := Some sid]> (g_display g) |>) as -> by (clear Hr; same_row; done).
  apply (loading_same t g); [done|apply wf_set_display; [apply Hl|done]|done..|]. by intros i dev.
Qed.

(** ** The controller and its devices *)

(** [device_numbers] is what is left to be taken. *)
Lemma hoare_load_devices_loop fuel p r g :
  (to_read p < fuel)%nat → NoDup (device_numbers fuel p) → loading false g → coh g →
  (∀ dev, dev ∈ device_numbers fuel p → ¬ g_taken g sid dev) →
  hoare g (load_devices_loop fuel sid p r) (λ _ g', loading false g').
Proof.
  revert p r g. induction fuel as [|fuel IH]; intros p r g Hf Hnd Hl Hg Hin; [lia|].
  cbn [load_devices_loop device_numbers] in *.
  assert (Hp : ∀ word p', extract_first_word WHITESPACE no_extract_flags p = ExtractWord word p' → (to_read p' < fuel)%nat).
  { intros word p' Ew. destruct p as [p|]; [|done].
    pose proof (extract_first_word_leaves WHITESPACE no_extract_flags p eq_refl) as Hlv. rewrite Ew in Hlv.
    destruct p' as [p'|]; cbn in *; lia. }
  destruct (extract_first_word _ _ p) as [k| |word p'] eqn:Ep; [by apply hoare_ret..|].
  specialize (Hp _ _ eq_refl). destruct (parse_devnum word) as [k|dev]; [by apply IH|]. cbn [app] in *.
  apply NoDup_cons in Hnd as [Hni Hnd].
  eapply hoare_bind; [apply hoare_session_device_new; [apply Hl|done|by eapply loading_has_s|apply Hin; left]|].
  intros k g1 (Hwf1&Hs1&_&Ht1). apply hoare_coh; intros Hg1. apply IH; [done|done| |done|].
  - unfold same_but_plug in Hs1. destruct Hl. constructor; [done|by rewrite Hs1..|done].
  - intros dev' Hd [->|Ht]%Ht1; [done|]. apply (Hin dev'); [by right|done].
Qed.
Lemma loads_load_controller f : session_file_ok f → loads true false (load_controller sid f).
Proof.
  intros Hf. unfold load_controller. assert (Hweak : ∀ g, loading true g → loading false g) by (intros g []; by constructor).
  destruct (f "CONTROLLER") as [sender|]; [|intros g Hl Hg; by apply hoare_ret, Hweak]. destruct (0 <? _).
  - eapply (loads_bind true true).
    { apply loads_ignore. intros g Hl Hg. eapply hoare_mono.
      { apply hoare_no_take; [apply moves_session_set_controller|].
        by eapply (hoare_session_set_controller ex0); [apply Hl|done|eapply loading_has]. }
      intros r g' [[Hwf Hs] Hn]. unfold same_but_sds in Hs. loading_by true g Hs. }
    intros _. apply loads_ignore. intros g Hl Hg. apply hoare_load_devices_loop; [|apply Hf|by apply Hweak|done|].
    + unfold devices_fuel. destruct (f "DEVICES"); cbn; lia.
    + intros dev _. by apply (ld_taken _ _ Hl).
  - intros g Hl Hg. eapply hoare_mono; [apply soft_session_restore_vt; by eapply loading_has_s|].
    intros _ g' [-> _]. by apply Hweak.
Qed.

(** ** The leader *)

Definition loaded (g : cols) : Prop := WF ex0 g ∧ g_user g = U ∧ kept g = B.
Lemma hoare_load_leader f r g : loading false g → coh g → hoare g (load_leader sid f r) (λ _ g', loaded g').
Proof.
  assert (Hdone : ∀ g, loading false g → loaded g) by (intros g' []; done).
  intros Hl Hg. unfold load_leader. destruct (f "LEADER") as [x|]; [|by apply hoare_ret, Hdone].
  assert (Hs : has_s g sid) by by eapply loading_has_s.
  eapply hoare_soft_bind; [by apply soft_get_session|]. intros s Hr.
  eapply hoare_soft_bind.
  { apply soft_assert. assert (Hld : g_leader g !! sid = Some (leader_of s)) by apply Hr.
    rewrite (ld_leader _ _ Hl) in Hld. injection Hld as Hld. unfold pidref_is_set. unfold leader_of in Hld. by rewrite <- Hld. }
  intros _ _. destruct (parse_pid x) as [k|pid] eqn:Epid; [by apply hoare_ret, Hdone|]. apply parse_pid_positive in Epid as Hpid.
  eapply hoare_soft_bind; [soft_upd|]. intros _ _. cbv zeta.
  assert (Hset : hoare g (match e_pidref_set_pid pid with inl r => ret r | inr p => session_set_leader_consume sid p end)
    (λ _ g', loaded g')).
  { destruct (e_pidref_set_pid pid) as [k|p] eqn:Ep; [by apply hoare_ret, Hdone|].
    eapply hoare_mono; [apply (hoare_session_set_leader_consume ex0); [apply Hl|done|done|]|].
    { apply Z.ltb_lt. by rewrite (e_pidref_set_pid_ok _ _ Hpid Ep). }
    intros _ g' [Hwf' Hs']. unfold same_but_leader in Hs'. destruct Hl. split; [done|]. by rewrite Hs'. }
  destruct (parse_boolean <$> f "LEADER_FD_SAVED") as [[k|b]|]; [by apply hoare_ret, Hdone| |done].
  eapply hoare_soft_bind; [soft_upd|]. intros _ _. destruct b; [by apply hoare_ret, Hdone|done].
Qed.

(** All of it. *)
Lemma hoare_load_rest f g :
  session_file_ok f → loading true g → coh g →
  hoare g (r <- load_seat sid f ;;
           load_kind sid f ;;; load_session_fifo sid ;;; load_times sid f ;;; load_display sid f ;;;
           load_controller sid f ;;; load_leader sid f r) (λ _ g', loaded g').
Proof.
  intros Hf. revert g. assert (Hnext : ∀ t t' {A B'} (c : MM A) (k : A → MM B'), loads t t' c →
    (∀ a g, loading t' g → coh g → hoare g (k a) (λ _ g', loaded g')) →
    ∀ g, loading t g → coh g → hoare g (bind c k) (λ _ g', loaded g')).
  { intros t t' A B' c k Hc Hk g Hl Hg. eapply hoare_bind; [by apply Hc|]. intros a g' Hl'. apply hoare_coh. auto. }
  apply (Hnext true true); [by apply loads_load_seat|]. intros r.
  apply (Hnext true true); [apply loads_load_kind|]. intros _.
  apply (Hnext true true); [apply loads_fifo|]. intros _.
  apply (Hnext true true); [apply loads_load_times|]. intros _.
  apply (Hnext true true); [apply loads_load_display|]. intros _.
  apply (Hnext true false); [by apply loads_load_controller|]. intros _ g. apply hoare_load_leader.
Qed.
End Loading.

(** ** A session file *)

(** The session [sid] is new. *)
Record fresh (sid : string) (g : cols) : Prop := mkFresh {
  fr_wf : WF (exnew sid) g;
  fr_user : g_user g !! sid = Some None;
  fr_seat : g_seat g !! sid = Some None;
  fr_leader : g_leader g !! sid = Some 0;
  fr_vtnr : g_vtnr g !! sid = Some 0;
  fr_sds : g_sds g !! sid = Some ∅;
}.
Lemma fresh_new_session g sid : WF (exnew sid) (put_s g sid new_session) → fresh sid (put_s g sid new_session).
Proof. intros Hwf. by constructor; cbn; rewrite ?lookup_insert_eq. Qed.
Lemma fresh_same sid g g' :
  fresh sid g → WF (exnew sid) g' → g_user g' = g_user g → g_seat g' = g_seat g → g_leader g' = g_leader g →
  g_vtnr g' = g_vtnr g → g_sds g' = g_sds g → fresh sid g'.
Proof. intros [] Hwf E1 E2 E3 E4 E5. constructor; congruence. Qed.

Lemma fresh_same_sq sid g g' : fresh sid g → WF (exnew sid) g' → same_but_sq g g' → fresh sid g'.
Proof. unfold same_but_sq. intros Hfr Hwf Hs. apply (fresh_same sid g); [done|done|by rewrite Hs..]. Qed.

Lemma hoare_load_user sid f g :
  fresh sid g → coh g →
  hoare g (load_user sid f) (λ r g', if r <? 0 then g' = g else
    ∃ uid, loading sid (<[sid := Some uid]> (g_user g)) (kept g) true g').
Proof.
  intros [] Hg. unfold load_user. eapply hoare_soft_bind; [apply soft_get_session; by eexists|]. intros s Hr.
  assert (s_user s = None) as -> by (destruct Hr as (Hr&_); congruence).
  destruct (f "UID") as [x|]; [|by apply hoare_ret]. destruct (parse_uid x) as [k|u] eqn:Ep.
  { apply hoare_ret. unfold parse_uid in Ep. pose proof (safe_atou_full_fits x 10 (mkAtouFlags true true true)) as Hfit.
    assert (k < 0); [|by destruct (Z.ltb_spec k 0); [|lia]].
    unfold EINVAL, ERANGE, ENXIO in *. repeat case_match; simplify_eq; lia. }
  eapply (hoare_soft_bind _ _ _ (λ o, is_Some o → has_u g u)).
  { apply soft_gets. intros m <- H. unfold has_u; cbn. by rewrite lookup_fmap, fmap_is_Some. }
  intros [y|] Ho; [|by apply hoare_ret]. eapply hoare_bind; [by apply hoare_session_set_user; auto|].
  intros _ g' (Hwf'&l&Hl&Hs'). apply hoare_ret. change (0 <? 0) with false. cbv iota. exists u.
  unfold same_but_user in Hs'. constructor; [done|rewrite Hs'; done..| | |].
  - by rewrite Hs'.
  - intros v. rewrite Hs'. cbn. rewrite fr_vtnr0. intros [= <-]. unfold UINT_MAX. lia.
  - intros _ dev (ds&Hds&Hdev). rewrite Hs' in Hds. cbn in Hds. rewrite fr_sds0 in Hds. injection Hds as <-. by destruct Hdev.
Qed.

(** At most the session [sid] is new, and nothing else that counts has changed. *)
Definition one_more (sid : string) (g g' : cols) : Prop :=
  WF ex0 g' ∧ dom (g_user g') ⊆ {[sid]} ∪ dom (g_user g) ∧ kept g' = kept g.

Lemma hoare_session_load sid g :
  booting = true → session_file_ok (parse_env_file_at ("/run/systemd/sessions/" +:+ sid)).2 →
  Z.of_nat (size (g_user g)) + 1 < UINT_MAX → fresh sid g → sid ∈ g_sq g → coh g →
  hoare g (session_load sid) (λ _ g', WF ex0 g' ∧ dom (g_user g') = dom (g_user g) ∧ kept g' = kept g).
Proof.
  intros Hb Hf Hroom Hfr Hq Hg. unfold session_load. destruct (parse_env_file_at _) as [r f]. cbn [snd] in Hf.
  eapply hoare_bind; [apply (hoare_upd_misc (exnew sid)); [apply Hfr|by intros s; split_and!|eexists; by apply (fr_user _ _ Hfr)]|].
  intros _ g1 (Hwf1&Hs1&_). apply hoare_coh; intros Hg1. unfold same_but_misc in Hs1.
  assert (Hfr1 : fresh sid g1) by (apply (fresh_same sid g); [done|done|by rewrite Hs1..]).
  assert (Hq1 : sid ∈ g_sq g1) by (rewrite Hs1; exact Hq).
  assert (Eu1 : g_user g1 = g_user g) by by rewrite Hs1.
  assert (Eb1 : kept g1 = kept g) by (unfold kept; by rewrite Hs1).
  assert (Hbad : ∀ k : Z, hoare g1 (ret k) (λ _ g', WF ex0 g' ∧ dom (g_user g') = dom (g_user g) ∧ kept g' = kept g)).
  { intros k. apply hoare_ret. split; [by eapply wf_not_loaded|]. by rewrite Eu1. }
  destruct (r <? 0); [done|]. eapply hoare_bind; [by apply hoare_load_user|]. intros k g2 H2. cbv beta in H2. apply hoare_coh; intros Hg2.
  destruct (k <? 0); [by rewrite H2; apply Hbad|]. destruct H2 as [uid Hl].
  assert (Hd : dom (<[sid := Some uid]> (g_user g1)) = dom (g_user g)).
  { rewrite dom_insert_L, Eu1. pose proof (elem_of_dom_2 _ _ _ (fr_user _ _ Hfr)). set_solver. }
  eapply hoare_mono; [eapply hoare_load_rest; [by rewrite lookup_insert_eq| |done|exact Hl|done]|].
  - rewrite <- size_dom, Hd, size_dom. done.
  - intros _ g' (Hwf'&Eu'&Eb'). split; [done|]. by rewrite Eu', Hd, Eb'.
Qed.

Lemma hoare_load_session_file sid g :
  booting = true → session_file_ok (parse_env_file_at ("/run/systemd/sessions/" +:+ sid)).2 →
  Z.of_nat (S (size (g_user g))) + 1 < UINT_MAX → WF ex0 g → ¬ has_s g sid → coh g →
  hoare g (load_session_file sid) (λ _ g', one_more sid g g').
Proof.
  intros Hb Hf Hroom Hwf Hno Hg. unfold load_session_file. eapply hoare_bind; [by apply hoare_manager_add_session|].
  intros k g1 H1. cbv beta in H1. apply hoare_coh; intros Hg1.
  destruct (k <? 0). { subst g1. apply hoare_ret. split; [done|]. split; [set_solver|done]. }
  destruct H1 as [[? _]|(_&Hwf1&->)]; [done|]. apply fresh_new_session in Hwf1 as Hfr1.
  set (g1 := put_s g sid new_session) in *.
  eapply hoare_bind; [apply (hoare_session_add_to_gc_queue (exnew sid)); [done|done|eexists; by apply (fr_user _ _ Hfr1)]|].
  intros _ g2 (Hwf2&Hs2&Hp2). apply hoare_coh; intros Hg2.
  assert (Hfr2 : fresh sid g2) by by eapply fresh_same_sq.
  unfold same_but_sq in Hs2. assert (Hd : dom (g_user g2) = {[sid]} ∪ dom (g_user g)) by (rewrite Hs2; cbn; by rewrite dom_insert_L).
  assert (Hsz : size (g_user g2) = S (size (g_user g))).
  { rewrite Hs2. cbn. apply map_size_insert_None. apply eq_None_not_Some. exact Hno. }
  eapply hoare_mono; [apply hoare_session_load; [done|done|lia| | |done]|].
  - done.
  - destruct Hp2 as [_ [[Hfl _]|[_ ->]]]; [|left]. unfold g1 in Hfl; cbn in Hfl. rewrite lookup_insert_eq in Hfl. done.
  - intros _ g' (Hwf'&Hd'&Eb'). split; [done|]. rewrite Hd', Hd, Eb'. split; [done|]. by rewrite Hs2.
Qed.
End Sessions.
