(* ===== verification/LinksStop.v ===== *)
(** Stopping, finalizing and freeing a session keeps the links well-formed; a
    freed session leaves no reference behind. *)
From S2P Require Import Prelude Time LoginTypes ActionTypes LoginState LoginEnv Objects SessionDevice Seat Device User Session Lifecycle Cols Links LinksObjects LinksDevice LinksSeat LinksPositions LinksAttach LinksHotplug LinksUser LinksSession LinksLeader LinksStart.

(** * Stopping and finalizing *)

(** As [same_objs], but objects may have been queued and stopped. *)
Definition same_objs_q (g g' : cols) : Prop :=
  g' = g <| g_pos := g_pos g' |> <| g_leader := g_leader g' |> <| g_lsrc := g_lsrc g' |>
         <| g_wd := g_wd g' |> <| g_sds := g_sds g' |> <| g_display := g_display g' |>
         <| g_ulast := g_ulast g' |> <| g_utimer := g_utimer g' |>
         <| g_active := g_active g' |> <| g_pending := g_pending g' |>
         <| g_positions := g_positions g' |> <| g_dusers := g_dusers g' |>
         <| g_bypid := g_bypid g' |> <| g_wdmap := g_wdmap g' |> <| g_cg := g_cg g' |>
         <| g_fifo := g_fifo g' |>
         <| g_squeued := g_squeued g' |> <| g_sq := g_sq g' |>
         <| g_uqueued := g_uqueued g' |> <| g_uq := g_uq g' |>
         <| g_live := g_live g' |>.
Lemma same_objs_q_refl g : same_objs_q g g.
Proof. by destruct g. Qed.
Lemma same_objs_q_trans g g' g'' : same_objs_q g g' → same_objs_q g' g'' → same_objs_q g g''.
Proof. unfold same_objs_q. intros -> ->. done. Qed.
Lemma same_objs_q_objs g g' : same_objs g g' → same_objs_q g g'.
Proof. unfold same_objs, same_objs_q. by intros ->. Qed.
Lemma same_objs_q_sq g g' : same_but_sq g g' → same_objs_q g g'.
Proof. unfold same_but_sq, same_objs_q. by intros ->. Qed.
Lemma same_objs_q_uq g g' : same_but_uq g g' → same_objs_q g g'.
Proof. unfold same_but_uq, same_objs_q. by intros ->. Qed.

Lemma same_objs_q_live g g' : same_but_live g g' → same_objs_q g g'.
Proof. unfold same_but_live, same_objs_q. by intros ->. Qed.

(** The sessions of [S] and the users of [U] may have been queued, and users may
    have been stopped. *)
Definition grew (S : string → Prop) (U : Z → Prop) (g g' : cols) : Prop :=
  same_objs_q g g' ∧ (∀ i, i ∈ g_sq g' → i ∈ g_sq g ∨ S i) ∧
  (∀ i, i ∈ g_uq g' → i ∈ g_uq g ∨ U i) ∧
  ∀ i, g_live g' !! i = Some true → g_live g !! i = Some true.
Lemma grew_refl S U g : grew S U g g.
Proof. split; [apply same_objs_q_refl|]. split_and!; by left || done. Qed.
Lemma grew_trans S U g g' g'' : grew S U g g' → grew S U g' g'' → grew S U g g''.
Proof.
  intros (H1&H2&H3&H7) (H4&H5&H6&H8). split; [exact (same_objs_q_trans _ _ _ H1 H4)|].
  split_and!.
  - intros i [Hi|Hi]%H5; [by apply H2|by right].
  - intros i [Hi|Hi]%H6; [by apply H3|by right].
  - intros i Hi. by apply H7, H8.
Qed.
Lemma grew_objs S U g g' : same_objs g g' → grew S U g g'.
Proof.
  intros H. split; [by apply same_objs_q_objs|]. unfold same_objs in H. rewrite H.
  split_and!; by left || done.
Qed.
Lemma grew_sq (S : string → Prop) U g g' i :
  same_but_sq g g' → pushed (g_squeued g) (g_sq g) i (g_squeued g') (g_sq g') → S i → grew S U g g'.
Proof.
  intros H Hp Hi. split; [by apply same_objs_q_sq|]. split.
  - intros j [->|?]%(pushed_elem _ _ _ _ _ _ Hp); [by right|by left].
  - unfold same_but_sq in H. rewrite H. split; by left || done.
Qed.
Lemma grew_uq S (U : Z → Prop) g g' i :
  same_but_uq g g' → pushed (g_uqueued g) (g_uq g) i (g_uqueued g') (g_uq g') → U i → grew S U g g'.
Proof.
  intros H Hp Hi. split; [by apply same_objs_q_uq|]. split_and!.
  - unfold same_but_uq in H. rewrite H. by left.
  - intros j [->|?]%(pushed_elem _ _ _ _ _ _ Hp); [by right|by left].
  - unfold same_but_uq in H. by rewrite H.
Qed.
Lemma grew_live S U g g' :
  same_but_live g g' → (∀ i, g_live g' !! i = Some true → g_live g !! i = Some true) →
  grew S U g g'.
Proof.
  intros H Hl. split; [by apply same_objs_q_live|]. unfold same_but_live in H.
  split_and!; [rewrite H; by left..|exact Hl].
Qed.
Lemma grew_mono (S S' : string → Prop) (U U' : Z → Prop) g g' :
  grew S U g g' → (∀ i, S i → S' i) → (∀ i, U i → U' i) → grew S' U' g g'.
Proof.
  intros (H1&H2&H3&H4) HS HU. split; [done|]. split_and!; [| |done].
  - intros i [?|?]%H2; auto.
  - intros i [?|?]%H3; auto.
Qed.
(** What can be read off. *)
Lemma grew_user S U g g' : grew S U g g' → g_user g' = g_user g.
Proof. intros [H _]. by rewrite H. Qed.
Lemma grew_usess S U g g' : grew S U g g' → g_usess g' = g_usess g.
Proof. intros [H _]. by rewrite H. Qed.

Lemma wf_unwatch_leader x g sid :
  WF x g → WF x (g <| g_lsrc := <[sid := false]> (g_lsrc g) |>).
Proof.
  intros Hwf. destruct Hwf; constructor; cbn; try assumption.
  intros i [[_ [=]]|[_ Hi]]%lookup_insert_Some; eauto.
Qed.

Section Stop.
Context {E : Env} {Bt : Boot}.

Lemma soft_session_stop_scope x g sid uid b :
  WF x g → coh g → g_user g !! sid = Some (Some uid) →
  soft g (session_stop_scope sid b) (λ _, True).
Proof.
  intros Hwf Hg Hu. unfold session_stop_scope.
  eapply soft_bind; [apply soft_get_session; by eexists|]. intros s Hr.
  assert (s_user s = Some uid) as -> by (destruct Hr as (?&_); congruence).
  eapply soft_bind; [by apply (soft_ret _ _ (λ z, z = uid))|]. intros ? ->.
  eapply soft_bind; [apply soft_get_user; eauto with links|]. intros u _.
  eapply soft_bind; [apply soft_gets_true|]. intros c _. cbv zeta.
  destruct (_ || _); [|by apply soft_ret]. destruct (_ || _); [|by apply soft_ret].
  eapply soft_bind; [apply soft_session_kill; by eexists|]. intros. by apply soft_ret.
Qed.

(** Evicting the session from its seat, if it has one. *)
Lemma hoare_evict_if_seated x g sid (o : option string) :
  WF x g → coh g → g_seat g !! sid = Some o →
  hoare g (match o with Some k => seat_evict_position k sid | None => ret tt end)
    (λ _ g', WF x g' ∧ same_but_pos g g').
Proof.
  intros Hwf Hg Ho. destruct o as [k|]; [|apply hoare_ret; split; [done|apply same_but_pos_refl]].
  eapply hoare_mono; [by eapply hoare_seat_evict_position|]. by intros _ g' (?&?&_).
Qed.

Lemma hoare_session_stop x g sid b :
  WF x g → coh g → has_s g sid →
  hoare g (session_stop sid b) (λ _ g', WF x g' ∧ same_objs g g').
Proof.
  intros Hwf Hg Hs. unfold session_stop.
  assert (Hsame : WF x g ∧ same_objs g g) by (split; [done|apply same_objs_refl]).
  eapply hoare_soft_bind; [by apply soft_get_session|]. intros s Hr.
  destruct (s_user s) as [uid|] eqn:Eu; [|by apply hoare_ret].
  destruct (negb _); [by apply hoare_ret|]. destruct (s_stopping s); [by apply hoare_ret|].
  assert (Hu : g_user g !! sid = Some (Some uid)) by eauto with links.
  assert (Hseat : g_seat g !! sid = Some (s_seat s)) by apply Hr. clear Hr.
  eapply hoare_bind; [by apply hoare_upd_session|]. intros _ g1 (s1&Hr1&->).
  assert (put_s g sid (s1 <| s_timer_event_source := None |> <| s_leader_pidfd_event_source := false |>)
    = g <| g_lsrc := <[sid := false]> (g_lsrc g) |>) as -> by (same_row; done).
  pose proof (wf_unwatch_leader _ _ sid Hwf) as Hwf1. clear Hr1.
  set (g1 := g <| g_lsrc := _ |>) in *.
  assert (Ho1 : same_objs g g1) by by destruct g. apply hoare_coh; intros Hg1.
  eapply hoare_soft_bind; [apply soft_ignore; by eapply soft_session_restore_tty|]. intros _ _.
  eapply hoare_bind; [by apply (hoare_evict_if_seated x)|].
  intros _ g2 (Hwf2&Hs2). apply hoare_coh; intros Hg2.
  assert (Ho2 : same_objs g1 g2) by by apply same_objs_pos.
  eapply hoare_bind; [apply (hoare_session_remove_fifo x); [done..|rewrite Hs2; exact Hs]|].
  intros _ g3 (Hwf3&Hs3). apply hoare_coh; intros Hg3.
  assert (Ho3 : same_objs g g3).
  { apply (same_objs_trans _ g1); [exact Ho1|]. apply (same_objs_trans _ g2); [exact Ho2|].
    by apply same_objs_misc. }
  assert (Hu3 : g_user g3 !! sid = Some (Some uid)) by (rewrite Ho3; exact Hu).
  eapply hoare_soft_bind; [by eapply soft_session_stop_scope|]. intros r _.
  eapply hoare_soft_bind; [apply soft_upd_session; [intros ?; repeat split; reflexivity|by eexists]|].
  intros _ _.
  eapply hoare_bind; [apply (hoare_user_elect_display x); eauto with links|].
  intros _ g4 (Hwf4&Hs4). apply hoare_coh; intros Hg4.
  assert (Hu4 : g_user g4 !! sid = Some (Some uid)) by (rewrite Hs4; exact Hu3).
  eapply hoare_soft_bind; [apply soft_ignore; eapply soft_session_save; eauto with links|].
  intros _ _. eapply hoare_soft_bind; [apply soft_ignore; eapply soft_user_save; eauto with links|].
  intros _ _. apply hoare_ret. split; [done|].
  apply (same_objs_trans _ g3); [exact Ho3|by apply same_objs_user].
Qed.

Context {Ok : EnvOk}.

(** The seat of a session that is finalized. *)
Lemma hoare_leave_seat g sid o :
  WF ex0 g → coh g → g_seat g !! sid = Some o →
  hoare g (match o with
           | None => ret tt
           | Some k =>
               st <- get_seat k ;;
               when (bool_decide (se_active st = Some sid)) (seat_set_active k None) ;;;
               ignore (seat_save k)
           end) (λ _ g', WF ex0 g' ∧ same_but_act g g').
Proof.
  intros Hwf Hg Ho. destruct o as [k|]; [|apply hoare_ret; split; [done|apply same_but_act_refl]].
  assert (Hk : has_t g k) by eauto with links.
  eapply hoare_soft_bind; [by apply soft_get_seat|]. intros st _.
  apply (hoare_bind _ _ _ (λ _ g1, WF ex0 g1 ∧ same_but_act g g1)).
  { apply hoare_when; [|intros _; split; [done|apply same_but_act_refl]]. intros _.
    eapply hoare_mono; [by apply hoare_seat_set_active|]. by intros _ g1 (?&?&_). }
  intros _ g1 (Hwf1&Hs1). apply hoare_coh; intros Hg1. eapply hoare_mono.
  - apply soft_ignore. eapply soft_seat_save; [exact Hwf1|done|]. rewrite Hs1. exact Hk.
  - by intros _ ? [-> _].
Qed.

(** The second half of [session_finalize], from the queues on. *)
Definition session_finalize_tail (sid : string) (s : session) (uid : Z) : MM Z :=
  session_add_to_gc_queue sid ;;;
  user_add_to_gc_queue uid ;;;
  when (s_started s)
    (session_send_signal sid false ;;;
     upd_session sid (λ s, s <| s_started := false |>)) ;;;
  (match s_seat s with
   | None => ret tt
   | Some k =>
       st <- get_seat k ;;
       when (bool_decide (se_active st = Some sid)) (seat_set_active k None) ;;;
       ignore (seat_save k)
   end) ;;;
  session_reset_leader sid false ;;;
  ignore (user_save uid) ;;;
  user_send_changed uid ["Display"%string] ;;;
  ret 0.

(** [sid] and its user are queued. *)
Definition finalized (g g' : cols) (sid : string) (uid : Z) : Prop :=
  grew (λ i, i = sid) (λ i, i = uid) g g'.

Lemma hoare_session_finalize_tail g sid s uid :
  WF ex0 g → coh g → g_user g !! sid = Some (Some uid) → g_seat g !! sid = Some (s_seat s) →
  hoare g (session_finalize_tail sid s uid) (λ _ g', WF ex0 g' ∧ finalized g g' sid uid).
Proof.
  intros Hwf Hg Hu Hseat. unfold session_finalize_tail.
  eapply hoare_bind; [apply (hoare_session_add_to_gc_queue ex0); [done..|by eexists]|].
  intros _ g1 (Hwf1&Hs1&Hp1). apply hoare_coh; intros Hg1.
  eapply hoare_bind; [apply (hoare_user_add_to_gc_queue ex0); [done..|]|].
  { rewrite Hs1. assert (has_u g uid) by eauto with links. done. }
  intros _ g2 (Hwf2&Hs2&Hp2). apply hoare_coh; intros Hg2.
  assert (Hf2 : finalized g g2 sid uid).
  { apply (grew_trans _ _ _ g1); [by eapply grew_sq|by eapply grew_uq]. }
  pose proof (proj1 Hf2) as Ho2.
  assert (Hu2 : g_user g2 !! sid = Some (Some uid)) by (rewrite Ho2; exact Hu).
  assert (Hseat2 : g_seat g2 !! sid = Some (s_seat s)) by (rewrite Ho2; exact Hseat).
  eapply hoare_soft_bind.
  { apply soft_when. intros _. eapply soft_bind; [apply soft_emit|]. intros _ _.
    apply soft_upd_session; [intros ?; repeat split; reflexivity|by eexists]. }
  intros _ _. eapply hoare_bind; [by apply hoare_leave_seat|].
  intros _ g3 (Hwf3&Hs3). apply hoare_coh; intros Hg3.
  assert (Hu3 : g_user g3 !! sid = Some (Some uid)) by (rewrite Hs3; exact Hu2).
  eapply hoare_bind; [apply (hoare_session_reset_leader ex0); [done..|by eexists]|].
  intros _ g4 (Hwf4&Hs4&_). apply hoare_coh; intros Hg4.
  assert (Hu4 : g_user g4 !! sid = Some (Some uid)) by (rewrite Hs4; exact Hu3).
  eapply hoare_soft_bind; [apply soft_ignore; eapply soft_user_save; eauto with links|].
  intros _ _. eapply hoare_soft_bind; [apply soft_user_send_changed; eauto with links|].
  intros _ _. apply hoare_ret. split; [done|].
  apply (grew_trans _ _ _ g2); [exact Hf2|]. apply grew_objs.
  apply (same_objs_trans _ g3); [by apply same_objs_act|by apply same_objs_leader].
Qed.

Lemma hoare_session_finalize g sid uid :
  WF ex0 g → coh g → g_user g !! sid = Some (Some uid) →
  hoare g (session_finalize sid) (λ _ g', WF ex0 g' ∧ finalized g g' sid uid).
Proof.
  intros Hwf Hg Hu. assert (Hs : has_s g sid) by by eexists. unfold session_finalize.
  eapply hoare_soft_bind; [by apply soft_get_session|]. intros s Hr.
  assert (Hseat : g_seat g !! sid = Some (s_seat s)) by apply Hr.
  assert (s_user s = Some uid) as -> by (destruct Hr as (?&_); congruence). clear Hr.
  eapply hoare_soft_bind; [apply soft_ignore; by eapply soft_session_restore_tty|]. intros _ _.
  eapply hoare_bind; [by apply (hoare_session_release_cgroup ex0)|].
  intros _ g1 (Hwf1&Hs1&_). apply hoare_coh; intros Hg1.
  eapply hoare_soft_bind; [apply soft_emit|]. intros _ _.
  assert (Hu1 : g_user g1 !! sid = Some (Some uid)) by (rewrite Hs1; exact Hu).
  eapply hoare_soft_bind; [apply soft_upd_session; [intros ?; repeat split; reflexivity|by eexists]|].
  intros _ _.
  eapply hoare_bind; [apply (hoare_evict_if_seated ex0); [done|done|rewrite Hs1; exact Hseat]|].
  intros _ g2 (Hwf2&Hs2). apply hoare_coh; intros Hg2.
  assert (Hu2 : g_user g2 !! sid = Some (Some uid)) by (rewrite Hs2; exact Hu1).
  eapply hoare_bind; [apply (hoare_session_free_devices ex0); [done|done|by eexists]|].
  intros _ g3 (Hwf3&Hs3&_). apply hoare_coh; intros Hg3.
  assert (Ho3 : same_objs g g3).
  { apply (same_objs_trans _ g1); [by apply same_objs_watch|].
    apply (same_objs_trans _ g2); [by apply same_objs_pos|by apply same_objs_sds]. }
  eapply hoare_soft_bind; [apply soft_emit|]. intros _ _.
  eapply hoare_mono; [apply (hoare_session_finalize_tail g3 sid s uid); [done|done|..]|].
  - rewrite Ho3. exact Hu.
  - rewrite Ho3. exact Hseat.
  - intros _ g4 (?&Hf4). split; [done|].
    apply (grew_trans _ _ _ g3); [by apply grew_objs|exact Hf4].
Qed.
End Stop.
