(* ===== verification/LinksFree.v ===== *)
(** Freeing a session keeps the links well-formed: no list, queue, table or
    device refers to it afterwards. *)
From S2P Require Import Prelude Time LoginTypes ActionTypes LoginState LoginEnv Objects SessionDevice Seat Device User Session Lifecycle Cols Links LinksObjects LinksDevice LinksSeat LinksPositions LinksAttach LinksHotplug LinksUser LinksSession LinksLeader LinksStart LinksStop.

(** * The invariant while a session is being freed *)

Definition unlinked {Bt : Boot} (sid : string) : exempt := mkExempt None (Some sid) None None Bt.

(** [o] without [sid]. *)
Definition but_not (sid : string) (o : option string) : option string :=
  if bool_decide (o = Some sid) then None else o.
Lemma but_not_Some sid o a : but_not sid o = Some a → o = Some a ∧ a ≠ sid.
Proof. unfold but_not. case_bool_decide; [done|]. intros ->. split; congruence. Qed.

(** The queue of the sessions without [sid]. *)
Lemma wf_unqueue {Bt : Boot} g sid :
  WF (exnew sid) g → WF (unlinked sid) (g <| g_sq := list_remove_all sid (g_sq g) |>).
Proof.
  intros Hwf. destruct Hwf; constructor; cbn; try assumption.
  - intros i Hi. destruct (decide (i = sid)) as [->|Hne]; [auto|].
    destruct (wf_owner _ Hi) as [[= ?]|[?|[? ?]]]; [done..|]. rewrite elem_of_list_remove_all. auto.
  - intros i uid Hi. destruct (wf_user _ _ Hi) as (l&?&[[=]|?]). eauto.
  - intros i k Hi. destruct (wf_seat _ _ Hi) as ((l&?&[[=]|?])&?). eauto 6.
  - destruct wf_sq as [? Hin]. split; [by apply NoDup_list_remove_all|].
    by intros i [Hi _]%elem_of_list_remove_all; apply Hin.
Qed.

(** Its user forgets it. *)
Lemma wf_unlink_user {Bt : Boot} g sid uid l d :
  WF (unlinked sid) g → g_user g !! sid = Some (Some uid) → g_usess g !! uid = Some l →
  g_display g !! uid = Some d →
  WF (unlinked sid) (g <| g_usess := <[uid := list_remove_all sid l]> (g_usess g) |>
                       <| g_display := <[uid := but_not sid d]> (g_display g) |>).
Proof.
  intros Hwf Hu Hl Hd. destruct Hwf; constructor; cbn; try assumption.
  - intros i uid' Hi. destruct (wf_user _ _ Hi) as (l'&Hl'&Hin).
    destruct (decide (i = sid)) as [->|Hne].
    + assert (uid' = uid) as -> by congruence. eexists. rewrite lookup_insert_eq.
      split; [done|by left].
    + destruct (decide (uid = uid')) as [<-|].
      * eexists. rewrite lookup_insert_eq. split; [done|]. right.
        apply elem_of_list_remove_all. assert (l' = l) as -> by congruence.
        destruct Hin as [[= ?]|?]; [congruence|done].
      * exists l'. rewrite lookup_insert_ne by done. auto.
  - intros uid' l' [[<- <-]|[Hne Hl']]%lookup_insert_Some; [|eauto].
    destruct (wf_usess _ _ Hl) as [? Hin]. split; [by apply NoDup_list_remove_all|].
    by intros i [Hi _]%elem_of_list_remove_all; apply Hin.
  - intros uid' d' [[<- Hd']|[Hne Hd']]%lookup_insert_Some; [|eauto].
    apply but_not_Some in Hd' as [-> _]. eauto.
Qed.

(** Its seat forgets it: first as its active session, then as one of its
    sessions. *)
Lemma wf_forget_active x g sid k a p :
  WF x g → g_sds g !! sid = Some ∅ → g_active g !! k = Some a → g_pending g !! k = Some p →
  WF x (g <| g_active := <[k := but_not sid a]> (g_active g) |>
          <| g_pending := <[k := but_not sid p]> (g_pending g) |>).
Proof.
  intros Hwf Hds Ha Hp. destruct Hwf; constructor; cbn; try assumption.
  - intros k' a' [[<- Ha']|[? ?]]%lookup_insert_Some; [|eauto].
    apply but_not_Some in Ha' as [-> _]. eauto.
  - intros k' a' [[<- Ha']|[? ?]]%lookup_insert_Some; [|eauto].
    apply but_not_Some in Ha' as [-> _]. eauto.
  - intros i ds dev n H1 H2 H3. destruct (wf_excl _ _ _ _ H1 H2 H3) as [?|(k'&Hk&Hact)]; [by left|].
    right. exists k'. split; [done|]. destruct (decide (k = k')) as [<-|];
      [|by rewrite lookup_insert_ne].
    rewrite lookup_insert_eq. assert (a = Some i) as -> by congruence.
    unfold but_not. rewrite bool_decide_false; [done|]. intros [= ->].
    assert (ds = ∅) as -> by congruence. by rewrite lookup_empty in H2.
Qed.
Lemma wf_unlist {Bt : Boot} g sid k l :
  WF (unlinked sid) g → g_tsess g !! k = Some l →
  WF (unlinked sid) (g <| g_tsess := <[k := list_remove_all sid l]> (g_tsess g) |>).
Proof.
  intros Hwf Hl. destruct Hwf; constructor; cbn; try assumption.
  - intros i k' Hi. destruct (wf_seat _ _ Hi) as ((l'&Hl'&Hin)&?). split; [|done].
    destruct (decide (k = k')) as [<-|]; [|exists l'; by rewrite lookup_insert_ne].
    eexists. rewrite lookup_insert_eq. split; [done|].
    destruct (decide (i = sid)) as [->|Hne]; [by left|]. right.
    apply elem_of_list_remove_all. assert (l' = l) as -> by congruence.
    destruct Hin as [[= ?]|?]; [congruence|done].
  - intros k' l' [[<- <-]|[Hne Hl']]%lookup_insert_Some; [|eauto].
    destruct (wf_tsess _ _ Hl) as [? Hin]. split; [by apply NoDup_list_remove_all|].
    by intros i [Hi _]%elem_of_list_remove_all; apply Hin.
Qed.

(** Nothing refers to [sid]. *)
Record unreferenced (g : cols) (sid : string) : Prop := mkUnreferenced {
  un_usess : ∀ uid l, g_usess g !! uid = Some l → sid ∉ l;
  un_display : ∀ uid, g_display g !! uid ≠ Some (Some sid);
  un_tsess : ∀ k l, g_tsess g !! k = Some l → sid ∉ l;
  un_active : ∀ k, g_active g !! k ≠ Some (Some sid);
  un_pending : ∀ k, g_pending g !! k ≠ Some (Some sid);
  un_positions : ∀ k ps p, g_positions g !! k = Some ps → ps !! p ≠ Some (Some sid);
  un_sq : sid ∉ g_sq g;
  un_bypid : ∀ p, g_bypid g !! p ≠ Some sid;
  un_wd : ∀ wd, g_wdmap g !! wd ≠ Some sid;
  un_dusers : ∀ d us dev, g_dusers g !! d = Some us → (sid, dev) ∉ us;
}.

(** The links without the row of [sid]. *)
Definition del_s (g : cols) (sid : string) : cols :=
  g <| g_user := delete sid (g_user g) |> <| g_seat := delete sid (g_seat g) |>
    <| g_pos := delete sid (g_pos g) |> <| g_squeued := delete sid (g_squeued g) |>
    <| g_leader := delete sid (g_leader g) |> <| g_lsrc := delete sid (g_lsrc g) |>
    <| g_wd := delete sid (g_wd g) |> <| g_sds := delete sid (g_sds g) |>
    <| g_vtnr := delete sid (g_vtnr g) |> <| g_cg := delete sid (g_cg g) |>
    <| g_fifo := delete sid (g_fifo g) |>.

Lemma wf_del_s {Bt : Boot} g sid :
  WF (unlinked sid) g → unreferenced g sid → WF ex0 (del_s g sid).
Proof.
  intros Hwf Hun. destruct Hwf, Hun; constructor; cbn; try assumption.
  - unfold has_s; cbn. intros i [_ Hi]%lookup_delete_is_Some. by apply wf_ids.
  - intros i [Hne Hi]%lookup_delete_Some. destruct (wf_owner _ Hi) as [?|[[= ?]|?]]; [done|done|auto].
  - intros i uid [Hne Hi]%lookup_delete_Some. destruct (wf_user _ _ Hi) as (l&Hl&[[= ?]|?]);
      [congruence|eauto].
  - intros uid l Hl. destruct (wf_usess _ _ Hl) as [? Hin]. split; [done|]. intros i Hi.
    rewrite lookup_delete_ne; [by apply Hin|]. intros <-. by apply un_usess0 in Hl.
  - intros uid d Hd. rewrite lookup_delete_ne; [by apply wf_display|]. intros <-. by apply un_display0 in Hd.
  - intros i k [Hne Hi]%lookup_delete_Some. destruct (wf_seat _ _ Hi) as ((l&Hl&Hin)&uid&Hu).
    split; [exists l; split; [done|]; destruct Hin as [[= ?]|?]; [congruence|auto]|].
    exists uid. by rewrite lookup_delete_ne.
  - intros k l Hl. destruct (wf_tsess _ _ Hl) as [? Hin]. split; [done|]. intros i Hi.
    rewrite lookup_delete_ne; [by apply Hin|]. intros <-. by apply un_tsess0 in Hl.
  - intros k a Ha. rewrite lookup_delete_ne; [by apply wf_active|]. intros <-. by apply un_active0 in Ha.
  - intros k a Ha. rewrite lookup_delete_ne; [by apply wf_pending|]. intros <-. by apply un_pending0 in Ha.
  - intros k ps p i H1 H2. assert (sid ≠ i) by (intros <-; by eapply un_positions0).
    rewrite !lookup_delete_ne by done. eauto.
  - intros i p [Hne Hi]%lookup_delete_Some. eauto.
  - intros i p k [Hne Hi]%lookup_delete_Some [_ ?]%lookup_delete_Some. eauto.
  - destruct wf_sq as [? Hin]. split; [done|]. intros i Hi.
    rewrite lookup_delete_ne; [by apply Hin|]. by intros <-.
  - intros p i Hi. rewrite lookup_delete_ne; [by apply wf_bypid|]. intros <-. by apply un_bypid0 in Hi.
  - intros i [Hne Hi]%lookup_delete_Some. rewrite lookup_delete_ne by done. by apply wf_lsrc.
  - intros wd i Hi. rewrite lookup_delete_ne; [by apply wf_wd|]. intros <-. by apply un_wd0 in Hi.
  - intros i ds dev n [Hne Hi]%lookup_delete_Some Hn. rewrite lookup_delete_ne by done. eauto.
  - intros d us Hd. destruct (wf_dusers _ _ Hd) as [? Hin]. split; [done|]. intros i dev Hi.
    rewrite lookup_delete_ne; [by apply Hin|]. intros <-. by eapply un_dusers0.
  - intros i ds dev n [Hne Hi]%lookup_delete_Some Hn Ha.
    destruct (wf_excl _ _ _ _ Hi Hn Ha) as [?|(k&?&?)]; [done|]. right. exists k.
    by rewrite lookup_delete_ne.
Qed.

(** What freeing [sid] leaves. *)
Definition session_freed (g g' : cols) (sid : string) : Prop :=
  g_user g' = delete sid (g_user g) ∧ g_seat g' = delete sid (g_seat g) ∧
  g_usess g' = list_remove_all sid <$> g_usess g ∧
  g_tsess g' = list_remove_all sid <$> g_tsess g ∧
  g_dseat g' = g_dseat g ∧ g_tdevs g' = g_tdevs g ∧
  g_sq g' = list_remove_all sid (g_sq g) ∧ g_uq g' = g_uq g ∧ g_tq g' = g_tq g ∧
  g_uqueued g' = g_uqueued g ∧ g_tqueued g' = g_tqueued g ∧ g_seat0 g' = g_seat0 g ∧
  g_live g' = g_live g ∧ g_btn g' = g_btn g.

(** Removing [sid] from one list of a column whose other lists do not have it. *)
Lemma remove_from_column `{Countable K} (c : gmap K (list string)) k l sid :
  c !! k = Some l → (∀ k' l', c !! k' = Some l' → sid ∈ l' → k' = k) →
  <[k := list_remove_all sid l]> c = list_remove_all sid <$> c.
Proof.
  intros Hk Hother. apply map_eq. intros k'. rewrite lookup_fmap.
  destruct (decide (k = k')) as [<-|Hne]; [by rewrite lookup_insert_eq, Hk|].
  rewrite lookup_insert_ne by done. destruct (c !! k') as [l'|] eqn:E; [|done]. cbn.
  rewrite list_remove_all_id; [done|]. intros Hin. by specialize (Hother _ _ E Hin).
Qed.
Lemma remove_from_no_column `{Countable K} (c : gmap K (list string)) sid :
  (∀ k' l', c !! k' = Some l' → sid ∉ l') → list_remove_all sid <$> c = c.
Proof.
  intros Hother. apply map_eq. intros k'. rewrite lookup_fmap.
  destruct (c !! k') as [l'|] eqn:E; [|done]. cbn.
  rewrite list_remove_all_id; [done|]. by eapply Hother.
Qed.

Lemma unlisted_eq g g2 a p T :
  same_but_pos (g <| g_active := a |> <| g_pending := p |>) g2 →
  g2 <| g_tsess := T |> = g <| g_tsess := T |> <| g_active := g_active g2 |>
    <| g_pending := g_pending g2 |> <| g_pos := g_pos g2 |> <| g_positions := g_positions g2 |>.
Proof. unfold same_but_pos. intros ->. done. Qed.

Section Free.
Context {E : Env} {Bt : Boot} {Ok : EnvOk}.

(** Only what refers to [sid] from its user differs. *)
Lemma hoare_session_unlink_user g sid uid :
  WF (unlinked sid) g → coh g → g_user g !! sid = Some (Some uid) →
  hoare g (session_unlink_user sid uid) (λ _ g', WF (unlinked sid) g' ∧
    g' = g <| g_usess := list_remove_all sid <$> g_usess g |> <| g_display := g_display g' |>
           <| g_ulast := g_ulast g' |> <| g_utimer := g_utimer g' |> ∧
    (∀ uid', g_display g' !! uid' ≠ Some (Some sid))).
Proof.
  intros Hwf Hg Hu. unfold session_unlink_user.
  eapply hoare_bind; [apply hoare_upd_user; eauto with links|]. intros _ g1 (u&Hr&->).
  assert (Hl : g_usess g !! uid = Some (u_sessions u)) by apply Hr.
  assert (Hd : g_display g !! uid = Some (u_display u)) by apply Hr.
  set (d' := if bool_decide (u_display u = Some sid) then None else u_display u).
  assert (put_u g uid (u <| u_sessions := list_remove_all sid (u_sessions u) |> <| u_display := d' |>)
    = g <| g_usess := <[uid := list_remove_all sid (u_sessions u)]> (g_usess g) |>
        <| g_display := <[uid := d']> (g_display g) |>) as -> by (same_row; done).
  pose proof (wf_unlink_user _ _ _ _ _ Hwf Hu Hl Hd) as Hwf1.
  change (but_not sid (u_display u)) with d' in Hwf1. apply hoare_coh; intros Hg1.
  eapply hoare_mono.
  - apply hoare_user_update_last_session_timer; [exact Hwf1|done|].
    unfold has_u; cbn. rewrite lookup_insert_eq. by eexists.
  - intros _ g2 (Hwf2&Hs2). split; [done|]. split.
    + rewrite Hs2. cbn. f_equal. apply remove_from_column; [done|].
      intros k' l' Hl' Hin. destruct (wf_usess _ _ Hwf _ _ Hl') as [_ Hall].
      apply Hall in Hin. congruence.
    + intros uid' Hd'. rewrite Hs2 in Hd'. cbn in Hd'.
      apply lookup_insert_Some in Hd' as [[<- Hd']|[Hne Hd']].
      * by apply but_not_Some in Hd' as [_ ?].
      * apply (wf_display _ _ Hwf) in Hd'. congruence.
Qed.

(** The same, if [sid] has a user. *)
Lemma hoare_session_unlink_user' g sid o :
  WF (unlinked sid) g → coh g → g_user g !! sid = Some o →
  hoare g (match o with Some uid => session_unlink_user sid uid | None => ret tt end) (λ _ g', WF (unlinked sid) g' ∧
    g' = g <| g_usess := list_remove_all sid <$> g_usess g |> <| g_display := g_display g' |>
           <| g_ulast := g_ulast g' |> <| g_utimer := g_utimer g' |> ∧
    (∀ uid', g_display g' !! uid' ≠ Some (Some sid))).
Proof.
  intros Hwf Hg Hu. destruct o as [uid|]; [by apply hoare_session_unlink_user|]. apply hoare_ret.
  split; [done|]. split.
  - rewrite remove_from_no_column; [by destruct g|]. intros k l Hl Hin.
    destruct (wf_usess _ _ Hwf _ _ Hl) as [_ Hall]. apply Hall in Hin. congruence.
  - intros uid' Hd%(wf_display _ _ Hwf). congruence.
Qed.
Lemma hoare_session_unlink_seat g sid k :
  WF (unlinked sid) g → coh g → g_seat g !! sid = Some (Some k) → g_sds g !! sid = Some ∅ →
  hoare g (session_unlink_seat sid k) (λ _ g', WF (unlinked sid) g' ∧
    g' = g <| g_tsess := list_remove_all sid <$> g_tsess g |> <| g_active := g_active g' |>
           <| g_pending := g_pending g' |> <| g_pos := g_pos g' |>
           <| g_positions := g_positions g' |> ∧
    (∀ k', g_active g' !! k' ≠ Some (Some sid)) ∧ (∀ k', g_pending g' !! k' ≠ Some (Some sid)) ∧
    g_pos g' !! sid = Some 0).
Proof.
  intros Hwf Hg Hk Hds. unfold session_unlink_seat.
  eapply hoare_bind; [apply hoare_upd_seat; eauto with links|]. intros _ g1 (t&Hr&->).
  assert (Ha : g_active g !! k = Some (se_active t)) by apply Hr.
  assert (Hp : g_pending g !! k = Some (se_pending_switch t)) by apply Hr.
  assert (put_t g k (t
      <| se_active := if bool_decide (se_active t = Some sid) then None else se_active t |>
      <| se_pending_switch := if bool_decide (se_pending_switch t = Some sid) then None
                              else se_pending_switch t |>)
    = g <| g_active := <[k := but_not sid (se_active t)]> (g_active g) |>
        <| g_pending := <[k := but_not sid (se_pending_switch t)]> (g_pending g) |>) as ->
    by (same_row; done).
  pose proof (wf_forget_active _ _ _ _ _ _ Hwf Hds Ha Hp) as Hwf1. apply hoare_coh; intros Hg1.
  eapply hoare_bind; [eapply hoare_seat_evict_position; [exact Hwf1|done|exact Hk]|].
  intros _ g2 (Hwf2&Hs2&Hpos2&_). apply hoare_coh; intros Hg2.
  eapply hoare_mono.
  { apply hoare_upd_seat. assert (Ht : has_t g k) by eauto with links. rewrite Hs2. exact Ht. }
  intros _ g3 (t3&Hr3&->).
  assert (put_t g2 k (t3 <| se_sessions := list_remove_all sid (se_sessions t3) |>)
    = g2 <| g_tsess := <[k := list_remove_all sid (se_sessions t3)]> (g_tsess g2) |>) as ->
    by (clear Hr; same_row; done).
  assert (Hl : g_tsess g2 !! k = Some (se_sessions t3)) by apply Hr3.
  split; [by apply wf_unlist|]. split_and!.
  - assert (Et : g_tsess g2 = g_tsess g) by by rewrite Hs2.
    assert (<[k := list_remove_all sid (se_sessions t3)]> (g_tsess g2)
      = list_remove_all sid <$> g_tsess g) as Eq;
      [rewrite Et in *|rewrite Eq; exact (unlisted_eq g g2 _ _ _ Hs2)].
    apply remove_from_column; [done|].
    intros k' l' Hl' Hin. destruct (wf_tsess _ _ Hwf _ _ Hl') as [_ Hall].
    apply Hall in Hin. congruence.
  - rewrite Hs2; cbn. intros k' [[<- Ha']|[Hne Ha']]%lookup_insert_Some.
    + by apply but_not_Some in Ha' as [_ ?].
    + apply (wf_active _ _ Hwf) in Ha'. congruence.
  - rewrite Hs2; cbn. intros k' [[<- Ha']|[Hne Ha']]%lookup_insert_Some.
    + by apply but_not_Some in Ha' as [_ ?].
    + apply (wf_pending _ _ Hwf) in Ha'. congruence.
  - cbn. rewrite Hpos2. apply lookup_insert_eq.
Qed.

(** The same, if [sid] has a seat. *)
Definition unseated (g g' : cols) (sid : string) : Prop :=
  g' = g <| g_tsess := list_remove_all sid <$> g_tsess g |> <| g_active := g_active g' |>
         <| g_pending := g_pending g' |> <| g_pos := g_pos g' |>
         <| g_positions := g_positions g' |> ∧
  (∀ k', g_active g' !! k' ≠ Some (Some sid)) ∧ (∀ k', g_pending g' !! k' ≠ Some (Some sid)) ∧
  ∀ k ps p, g_positions g' !! k = Some ps → ps !! p ≠ Some (Some sid).

Lemma hoare_session_unlink_seat' g sid o :
  WF (unlinked sid) g → coh g → g_seat g !! sid = Some o → g_sds g !! sid = Some ∅ →
  hoare g (match o with Some k => session_unlink_seat sid k | None => ret tt end)
    (λ _ g', WF (unlinked sid) g' ∧ unseated g g' sid).
Proof.
  intros Hwf Hg Ho Hds. destruct o as [k|].
  - eapply hoare_mono; [by apply hoare_session_unlink_seat|]. intros _ g' (Hwf'&?&?&?&Hp).
    split; [done|]. split_and!; [done..|]. intros k' ps p Hps Hin.
    destruct (wf_positions _ _ Hwf' _ _ _ _ Hps Hin) as (?&_&Hp').
    assert (Z.of_nat p = 0) by congruence. lia.
  - apply hoare_ret. split; [done|].
    assert (Hno : ∀ k, g_seat g !! sid ≠ Some (Some k)) by congruence. split_and!.
    + rewrite remove_from_no_column; [by destruct g|]. intros k l Hl Hin.
      destruct (wf_tsess _ _ Hwf _ _ Hl) as [_ Hall]. by apply (Hno k), Hall.
    + intros k Ha%(wf_active _ _ Hwf). by apply Hno in Ha.
    + intros k Ha%(wf_pending _ _ Hwf). by apply Hno in Ha.
    + intros k ps p H1 H2. destruct (wf_positions _ _ Hwf _ _ _ _ H1 H2) as (_&Hk&_).
      by apply Hno in Hk.
Qed.

(** Taking [sid] out of the queue, if it is there. *)
Lemma hoare_session_unqueue x g sid s :
  WF x g → row_s g sid s →
  hoare g (when (s_in_gc_queue s)
    (modify (λ m, m <| m_session_gc_queue := list_remove_all sid (m_session_gc_queue m) |>)))
    (λ _ g', g' = g <| g_sq := list_remove_all sid (g_sq g) |>).
Proof.
  intros Hwf Hr. apply hoare_when; intros Eq.
  - apply hoare_modify. by intros m <-.
  - rewrite list_remove_all_id; [by destruct g|]. intros Hin.
    destruct (wf_sq _ _ Hwf) as [_ Hall]. apply Hall in Hin.
    assert (g_squeued g !! sid = Some (s_in_gc_queue s)) by apply Hr. congruence.
Qed.

Lemma unreferenced_freed g g4 g5 g7 sid :
  WF (unlinked sid) g7 →
  g_usess g7 = list_remove_all sid <$> g_usess g → g_display g7 = g_display g4 →
  (∀ uid', g_display g4 !! uid' ≠ Some (Some sid)) → unseated g4 g5 sid →
  g_tsess g7 = g_tsess g5 → g_active g7 = g_active g5 → g_pending g7 = g_pending g5 →
  g_positions g7 = g_positions g5 → g_sq g7 = list_remove_all sid (g_sq g) →
  (∀ p, g_bypid g7 !! p ≠ Some sid) → unwatched g7 sid → g_sds g7 !! sid = Some ∅ →
  unreferenced g7 sid.
Proof.
  intros Hwf El Ed Hd (Eu&Ha&Hp&Hps) Et Ea Epe Epo Eq Hb Hw Hds.
  constructor; rewrite ?El, ?Ed, ?Et, ?Ea, ?Epe, ?Epo, ?Eq; try done.
  - intros uid' l. rewrite lookup_fmap. intros (l'&_&->)%fmap_Some.
    by intros [_ ?]%elem_of_list_remove_all.
  - intros k l. rewrite Eu; cbn. rewrite lookup_fmap. intros (l'&_&->)%fmap_Some.
    by intros [_ ?]%elem_of_list_remove_all.
  - by intros [_ ?]%elem_of_list_remove_all.
  - intros d us dev Hus Hin. destruct (wf_dusers _ _ Hwf _ _ Hus) as [_ Hall].
    destruct (Hall _ _ Hin) as (ds&n&H1&H2&_). assert (ds = ∅) as -> by congruence.
    by rewrite lookup_empty in H2.
Qed.

Lemma hoare_session_free_new g sid :
  WF (exnew sid) g → coh g → has_s g sid →
  hoare g (session_free sid) (λ _ g', WF ex0 g' ∧ session_freed g g' sid).
Proof.
  intros Hwf Hg Hs. unfold session_free.
  eapply hoare_soft_bind; [by apply soft_get_session|]. intros s Hr.
  assert (Hu : g_user g !! sid = Some (s_user s)) by apply Hr.
  assert (Hseat : g_seat g !! sid = Some (s_seat s)) by apply Hr.
  eapply hoare_bind; [by eapply hoare_session_unqueue|]. intros _ g1 ->. clear Hr.
  pose proof (wf_unqueue _ sid Hwf) as Hwf1. set (g1 := g <| g_sq := _ |>) in *.
  apply hoare_coh; intros Hg1.
  eapply hoare_bind; [by apply (hoare_session_drop_controller (unlinked sid))|].
  intros _ g2 (Hwf2&Hs2). apply hoare_coh; intros Hg2.
  assert (Hin2 : has_s g2 sid) by (rewrite Hs2; exact Hs).
  eapply hoare_bind; [by apply (hoare_session_free_devices (unlinked sid))|].
  intros _ g3 (Hwf3&Hs3&Hds3). apply hoare_coh; intros Hg3.
  assert (Hs13 : same_but_sds g1 g3) by exact (same_but_sds_trans _ _ _ Hs2 Hs3).
  assert (Hu3 : g_user g3 !! sid = Some (s_user s)) by (rewrite Hs13; exact Hu).
  eapply hoare_bind; [by apply hoare_session_unlink_user'|].
  intros _ g4 (Hwf4&Hs4&Hd4). apply hoare_coh; intros Hg4.
  eapply hoare_bind; [apply hoare_session_unlink_seat'; [done|done|..]|].
  { rewrite Hs4; cbn. rewrite Hs13. exact Hseat. }
  { rewrite Hs4; cbn. rewrite Hds3. apply lookup_insert_eq. }
  intros _ g5 (Hwf5&Hun5). apply hoare_coh; intros Hg5.
  assert (Hu5 : g_user g5 !! sid = Some (s_user s)) by (rewrite (proj1 Hun5), Hs4; exact Hu3).
  eapply hoare_bind; [eapply hoare_session_reset_leader; [done|done|by eexists]|].
  intros _ g6 (Hwf6&Hs6&Hl6). apply hoare_coh; intros Hg6.
  eapply hoare_bind; [eapply hoare_session_release_cgroup; [done|done|]|].
  { rewrite Hs6. by eexists. }
  intros _ g7 (Hwf7&Hs7&Hw7).
  assert (Hs57 : g7 = g5 <| g_leader := g_leader g7 |> <| g_lsrc := g_lsrc g7 |>
    <| g_bypid := g_bypid g7 |> <| g_wd := g_wd g7 |> <| g_wdmap := g_wdmap g7 |>).
  { unfold same_but_leader, same_but_watch in *. rewrite Hs7, Hs6. done. }
  assert (Hun : unreferenced g7 sid).
  { eapply (unreferenced_freed g g4 g5); try done.
    - rewrite Hs57, (proj1 Hun5), Hs4; cbn. by rewrite Hs13.
    - by rewrite Hs57, (proj1 Hun5).
    - by rewrite Hs57.
    - by rewrite Hs57.
    - by rewrite Hs57.
    - by rewrite Hs57.
    - rewrite Hs57, (proj1 Hun5), Hs4; cbn. by rewrite Hs13.
    - rewrite Hs7; cbn. apply Hl6.
    - rewrite Hs57, (proj1 Hun5), Hs4; cbn. rewrite Hds3. apply lookup_insert_eq. }
  eapply (hoare_mono _ _ (λ _ g', g' = del_s g7 sid)).
  { apply hoare_modify. intros m <-. unfold cols_of, del_s; cbn. by rewrite !fmap_delete. }
  intros _ ? ->. split; [by apply wf_del_s|].
  unfold session_freed, del_s; cbn. rewrite Hs57, (proj1 Hun5), Hs4; cbn. rewrite Hs13. done.
Qed.
Lemma hoare_session_free g sid :
  WF ex0 g → coh g → has_s g sid →
  hoare g (session_free sid) (λ _ g', WF ex0 g' ∧ session_freed g g' sid).
Proof. intros Hwf. by apply hoare_session_free_new, wf_exnew. Qed.
End Free.
