(* ===== verification/LinksGc.v ===== *)
(** Stopping and freeing users and seats, and the garbage collector, keep the
    links well-formed: every round of the collector's loops ([manager_gc]) makes a
    measure smaller, so that with enough fuel they end, with empty queues. *)
From S2P Require Import Prelude Time LoginTypes ActionTypes LoginState LoginEnv Objects SessionDevice Seat Device User Session Lifecycle Cols Links LinksObjects LinksDevice LinksSeat LinksPositions LinksAttach LinksHotplug LinksUser LinksSession LinksLeader LinksStart LinksStop LinksFree.

(** * Users *)

(** A user without sessions who is not queued can be deleted. *)
Definition del_u (g : cols) (uid : Z) : cols :=
  g <| g_usess := delete uid (g_usess g) |> <| g_display := delete uid (g_display g) |>
    <| g_ulast := delete uid (g_ulast g) |> <| g_utimer := delete uid (g_utimer g) |>
    <| g_uqueued := delete uid (g_uqueued g) |> <| g_live := delete uid (g_live g) |>.
Lemma wf_del_u {Bt : Boot} g uid :
  WF ex0 g → g_usess g !! uid = Some [] → uid ∉ g_uq g → WF ex0 (del_u g uid).
Proof.
  intros Hwf Hl Hq. destruct Hwf; constructor; cbn; try assumption.
  - intros i uid' Hi. destruct (wf_user _ _ Hi) as (l&Hl'&[[=]|Hin]). exists l. split; [|by right].
    rewrite lookup_delete_ne; [done|]. intros <-. assert (l = []) as -> by congruence.
    by apply elem_of_nil in Hin.
  - intros uid' l [_ Hl']%lookup_delete_Some. eauto.
  - intros uid' d [_ Hd]%lookup_delete_Some. eauto.
  - intros uid' [Hne Hd]%lookup_delete_Some. rewrite lookup_delete_ne by done. eauto.
  - destruct wf_uq as [? Hin]. split; [done|]. intros i Hi. rewrite lookup_delete_ne; [auto|].
    by intros <-.
Qed.
Lemma wf_unqueue_user x g uid :
  WF x g → WF x (g <| g_uq := list_remove_all uid (g_uq g) |>).
Proof.
  intros Hwf. destruct Hwf; constructor; cbn; try assumption.
  destruct wf_uq as [? Hin]. split; [by apply NoDup_list_remove_all|].
  by intros i [Hi _]%elem_of_list_remove_all; apply Hin.
Qed.

(** Sessions may have gone, with their places in the queue. *)
Definition fewer (g g' : cols) : Prop :=
  g_user g' ⊆ g_user g ∧ g_seat g' ⊆ g_seat g ∧ (∀ i, i ∈ g_sq g' → i ∈ g_sq g) ∧
  g_dseat g' = g_dseat g ∧ g_tdevs g' = g_tdevs g ∧ g_uq g' = g_uq g ∧ g_tq g' = g_tq g ∧
  g_uqueued g' = g_uqueued g ∧ g_tqueued g' = g_tqueued g ∧ g_seat0 g' = g_seat0 g ∧
  dom (g_usess g') = dom (g_usess g) ∧ dom (g_tsess g') = dom (g_tsess g) ∧
  g_live g' = g_live g ∧ g_btn g' = g_btn g.
Lemma fewer_refl g : fewer g g.
Proof. by split_and!. Qed.
Lemma fewer_trans g g' g'' : fewer g g' → fewer g' g'' → fewer g g''.
Proof.
  intros (H1&H2&H3&H4&H5&H6&H7&H8&H9&H10&H11&H12&H13&H14)
    (J1&J2&J3&J4&J5&J6&J7&J8&J9&J10&J11&J12&J13&J14).
  split_and!; [by etransitivity|by etransitivity|by auto|congruence..].
Qed.
Lemma session_freed_fewer g g' sid : session_freed g g' sid → fewer g g'.
Proof.
  intros (E1&E2&E3&E4&E5&E6&E7&E8&E9&E10&E11&E12&E13&E14).
  split_and!; [rewrite E1; apply delete_subseteq|rewrite E2; apply delete_subseteq| |done..| | |done|done].
  - intros i. rewrite E7. by intros [? _]%elem_of_list_remove_all.
  - by rewrite E3, dom_fmap_L.
  - by rewrite E4, dom_fmap_L.
Qed.

(** Nothing has been created or revived; the buttons are as they were, and so is
    which seat is seat0. *)
Definition shrunk (g g' : cols) : Prop :=
  g_user g' ⊆ g_user g ∧ dom (g_usess g') ⊆ dom (g_usess g) ∧
  (∀ i, g_live g' !! i = Some true → g_live g !! i = Some true) ∧ g_btn g' = g_btn g ∧ g_seat0 g' = g_seat0 g.
Lemma shrunk_refl g : shrunk g g.
Proof. by split_and!. Qed.
Lemma shrunk_trans g g' g'' : shrunk g g' → shrunk g' g'' → shrunk g g''.
Proof. intros (?&?&?&?&?) (?&?&?&?&?). split_and!; [by etransitivity|set_solver|auto|congruence..]. Qed.
Lemma grew_shrunk S U g g' : grew S U g g' → shrunk g g'.
Proof.
  intros (H&_&_&Hl). split_and!; [| |exact Hl| |]; unfold same_objs_q in H; by rewrite H.
Qed.
Lemma fewer_shrunk g g' : fewer g g' → shrunk g g'.
Proof.
  intros (H1&_&_&_&_&_&_&_&_&H10&H11&_&H13&H14). split_and!; [done|by rewrite H11|by rewrite H13|done..].
Qed.
Lemma session_freed_shrunk g g' sid : session_freed g g' sid → shrunk g g'.
Proof. intros H. by eapply fewer_shrunk, session_freed_fewer. Qed.

Section Gc.
Context {E : Env} {Bt : Boot}.

Lemma hoare_gather g (f : string → MM Z) l (I : list string → cols → Prop) :
  I l g → (∀ sid l' g', I (sid :: l') g' → hoare g' (f sid) (λ _ g'', I l' g'')) →
  hoare g (gather f l) (λ _ g', I [] g').
Proof.
  intros H0 Hf. apply (hoare_fold_m _ _ _ _ I); [done|]. intros r sid l' g' HI.
  eapply hoare_bind; [by apply Hf|]. intros k g'' ?. by apply hoare_ret.
Qed.

(** Stopping the sessions of a list. *)
Lemma hoare_stop_sessions g (b : bool) l :
  WF ex0 g → coh g → (∀ i, i ∈ l → has_s g i) →
  hoare g (gather (λ sid, session_stop sid b) l) (λ _ g', WF ex0 g' ∧ same_objs g g').
Proof.
  intros Hwf Hg Hl.
  set (I := λ (l : list string) g', WF ex0 g' ∧ same_objs g g' ∧ ∀ i, i ∈ l → has_s g i).
  eapply hoare_mono; [apply (hoare_gather _ _ _ I)|].
  - split; [done|]. split; [apply same_objs_refl|done].
  - intros sid l' g1 (Hwf1&Ho1&Hl1). apply hoare_coh; intros Hg1.
    eapply hoare_mono; [apply (hoare_session_stop ex0); [done|done|]|].
    + rewrite Ho1. apply Hl1. left.
    + intros _ g2 (?&Ho2). split; [done|]. split; [exact (same_objs_trans _ _ _ Ho1 Ho2)|].
      intros; apply Hl1; by right.
  - by intros _ g' (?&?&_).
Qed.

(** A user that is queued by being stopped is no longer live. *)
Definition user_stopped (g g' : cols) (uid : Z) : Prop :=
  grew (λ _, False) (λ i, i = uid) g g' ∧
  (uid ∈ g_uq g' → uid ∉ g_uq g → g_live g !! uid = Some true ∧ g_live g' !! uid = Some false).

Lemma hoare_user_stop g uid b :
  WF ex0 g → coh g → has_u g uid →
  hoare g (user_stop uid b) (λ _ g', WF ex0 g' ∧ user_stopped g g' uid).
Proof.
  intros Hwf Hg Hu. unfold user_stop.
  assert (Hsame : WF ex0 g ∧ user_stopped g g uid).
  { split; [done|]. split; [apply grew_refl|done]. }
  eapply hoare_soft_bind; [by apply soft_get_user|]. intros u Hr.
  destruct (u_started u) eqn:Est; cbn [negb]; [|by apply hoare_ret].
  destruct (u_stopping u) eqn:Esp.
  { eapply hoare_soft_bind; [apply soft_ignore; by eapply soft_user_save|]. intros. by apply hoare_ret. }
  assert (Hlive : g_live g !! uid = Some true).
  { replace true with (live_of u) by (unfold live_of; by rewrite Est, Esp). apply Hr. }
  eapply hoare_bind; [apply hoare_stop_sessions; [done|done|]; eauto with links|].
  intros r g1 (Hwf1&Ho1). apply hoare_coh; intros Hg1.
  assert (Hu1 : has_u g1 uid) by (rewrite Ho1; exact Hu).
  eapply hoare_bind; [by apply (hoare_user_add_to_gc_queue ex0)|].
  intros _ g2 (Hwf2&Hs2&Hp2). apply hoare_coh; intros Hg2.
  assert (Hgr2 : grew (λ _, False) (λ i, i = uid) g g2).
  { apply (grew_trans _ _ _ g1); [by apply grew_objs|by eapply grew_uq]. }
  assert (Hu2 : has_u g2 uid) by (rewrite Hs2; exact Hu1).
  eapply hoare_bind; [by apply (hoare_upd_live ex0)|]. intros _ g3 (Hwf3&u3&_&->).
  replace (live_of _) with false in *; [|unfold live_of; cbn; by rewrite andb_false_r].
  set (g3 := g2 <| g_live := _ |>) in *. apply hoare_coh; intros Hg3.
  eapply hoare_soft_bind; [apply soft_ignore; by eapply soft_user_save|].
  intros _ _. apply hoare_ret. split; [done|]. split.
  - apply (grew_trans _ _ _ g2); [exact Hgr2|]. apply grew_live; [by destruct g2|].
    intros i. unfold g3; cbn. intros [[_ [=]]|[_ ?]]%lookup_insert_Some. done.
  - intros _ _. split; [done|]. apply (lookup_insert_eq (g_live g2)).
Qed.

Context {Ok : EnvOk}.

Lemma hoare_user_finalize g uid :
  WF ex0 g → coh g → has_u g uid →
  hoare g (user_finalize uid) (λ _ g', WF ex0 g' ∧
    grew (λ i, g_user g !! i = Some (Some uid)) (λ i, i = uid) g g').
Proof.
  intros Hwf Hg Hu. unfold user_finalize. eapply hoare_soft_bind; [by apply soft_get_user|].
  intros u Hr. set (S := λ i, g_user g !! i = Some (Some uid)). set (U := λ i : Z, i = uid).
  set (I := λ (l : list string) g', WF ex0 g' ∧ grew S U g g' ∧ ∀ i, i ∈ l → S i).
  eapply (hoare_bind _ _ _ (λ _ g', I [] g')).
  { apply (hoare_gather _ _ _ I).
    - split; [done|]. split; [apply grew_refl|]. unfold S. eauto with links.
    - intros sid l' g1 (Hwf1&Hgr1&Hl1). apply hoare_coh; intros Hg1.
      assert (HS : S sid) by (apply Hl1; left).
      eapply hoare_mono; [apply (hoare_session_finalize _ _ uid); [done|done|]|].
      + rewrite (grew_user _ _ _ _ Hgr1). exact HS.
      + intros _ g2 (?&Hf2). split; [done|]. split.
        * apply (grew_trans _ _ _ g1); [done|]. eapply grew_mono; [exact Hf2|by intros i ->|done].
        * intros; apply Hl1; by right. }
  intros r g1 (Hwf1&Hgr1&_). apply hoare_coh; intros Hg1.
  assert (Hu1 : has_u g1 uid).
  { unfold has_u. rewrite (grew_usess _ _ _ _ Hgr1). exact Hu. }
  eapply hoare_soft_bind; [apply soft_gets_true|]. intros ipc _. cbv zeta.
  eapply (hoare_soft_bind _ _ _ (λ _, True)).
  { destruct (_ && _); [|by apply soft_ret]. eapply soft_bind; [apply soft_emit|].
    intros. by apply soft_ret. }
  intros r' _. eapply hoare_soft_bind; [apply soft_emit|]. intros _ _.
  eapply hoare_bind; [by apply (hoare_user_add_to_gc_queue ex0)|].
  intros _ g2 (Hwf2&Hs2&Hp2). apply hoare_coh; intros Hg2.
  assert (Hgr2 : grew S U g g2).
  { apply (grew_trans _ _ _ g1); [done|by eapply grew_uq]. }
  assert (Hu2 : has_u g2 uid) by (rewrite Hs2; exact Hu1).
  apply (hoare_bind _ _ _ (λ _ g3, WF ex0 g3 ∧ grew S U g g3)).
  { apply hoare_when; [|done]. intros _. eapply hoare_soft_bind; [apply soft_emit|]. intros _ _.
    eapply hoare_mono; [by apply (hoare_upd_live ex0)|]. intros _ g3 (?&u3&_&->). split; [done|].
    apply (grew_trans _ _ _ g2); [done|]. apply grew_live; [by destruct g2|].
    cbn. intros i [[_ [=]]|[_ ?]]%lookup_insert_Some. done. }
  intros _ g3 ?. by apply hoare_ret.
Qed.

(** The sessions of a user are freed one after the other. *)
Lemma hoare_free_user_sessions fuel g uid l :
  WF ex0 g → coh g → g_usess g !! uid = Some l → (length l ≤ fuel)%nat →
  hoare g (free_user_sessions fuel uid) (λ _ g', WF ex0 g' ∧ fewer g g' ∧
    g_usess g' !! uid = Some []).
Proof.
  revert g l. induction fuel as [|fuel IH]; intros g l Hwf Hg Hl Hf;
    cbn [free_user_sessions];
    (eapply hoare_soft_bind; [apply soft_get_user; by eexists|]);
    intros u Hr; assert (u_sessions u = l) as -> by (destruct Hr as (?&_); congruence);
    clear Hr u; destruct l as [|sid l].
  1,3: apply hoare_ret; split; [done|]; split; [apply fewer_refl|done].
  - cbn in Hf. lia.
  - destruct (wf_usess _ _ Hwf _ _ Hl) as [Hnd Hin].
    assert (Hu : g_user g !! sid = Some (Some uid)) by (apply Hin; left).
    eapply hoare_bind; [apply hoare_session_free; eauto with links|].
    intros _ g1 (Hwf1&Hfr). apply hoare_coh; intros Hg1.
    pose proof (session_freed_fewer _ _ _ Hfr) as Hfew.
    assert (Hl1 : g_usess g1 !! uid = Some l).
    { destruct Hfr as (_&_&->&_). rewrite lookup_fmap, Hl. cbn. f_equal.
      apply list_remove_all_cons. by apply NoDup_cons in Hnd as [? _]. }
    eapply hoare_mono; [eapply IH; [done|done|exact Hl1|cbn in Hf; lia]|].
    intros _ g2 (?&Hfew2&?). split; [done|]. split; [|done].
    exact (fewer_trans _ _ _ Hfew Hfew2).
Qed.

(** Freeing a user: its sessions go with it, and the queues lose it. *)
Definition user_freed (g g' : cols) (uid : Z) : Prop :=
  (∀ i, i ∈ g_sq g' → i ∈ g_sq g ∧ g_user g !! i ≠ Some (Some uid)) ∧
  (∀ i, i ∈ g_uq g' → i ∈ g_uq g ∧ i ≠ uid) ∧ g_tq g' = g_tq g ∧
  ¬ has_u g' uid ∧ (∀ i, g_user g' !! i ≠ Some (Some uid)) ∧ shrunk g g'.

Lemma hoare_user_unqueue g uid u :
  WF ex0 g → row_u g uid u →
  hoare g (when (u_in_gc_queue u)
    (modify (λ m, m <| m_user_gc_queue := list_remove_all uid (m_user_gc_queue m) |>)))
    (λ _ g', g' = g <| g_uq := list_remove_all uid (g_uq g) |>).
Proof.
  intros Hwf Hr. apply hoare_when; intros Eq.
  - apply hoare_modify. by intros m <-.
  - rewrite list_remove_all_id; [by destruct g|]. intros Hin.
    destruct (wf_uq _ _ Hwf) as [_ Hall]. apply Hall in Hin.
    assert (g_uqueued g !! uid = Some (u_in_gc_queue u)) by apply Hr. congruence.
Qed.

Lemma hoare_user_free g uid :
  WF ex0 g → coh g → has_u g uid →
  hoare g (user_free uid) (λ _ g', WF ex0 g' ∧ user_freed g g' uid).
Proof.
  intros Hwf Hg Hu. unfold user_free. eapply hoare_soft_bind; [by apply soft_get_user|].
  intros u Hr. assert (Hl : g_usess g !! uid = Some (u_sessions u)) by apply Hr.
  eapply hoare_bind; [by eapply hoare_user_unqueue|]. intros _ g1 ->. clear Hr.
  pose proof (wf_unqueue_user _ _ uid Hwf) as Hwf1. set (g1 := g <| g_uq := _ |>) in *.
  apply hoare_coh; intros Hg1.
  eapply hoare_bind; [by eapply (hoare_free_user_sessions _ g1)|].
  intros _ g2 (Hwf2&Hfew&Hnil). apply hoare_coh; intros Hg2.
  pose proof (fewer_shrunk _ _ Hfew) as (Sh1&Sh2&Sh3&Sh4&Sh5).
  destruct Hfew as (Eu&_&Esq&_&_&Euq&Etq&_). cbn in Eu, Esq, Euq, Etq.
  eapply (hoare_bind _ _ _ (λ _ g', g' = del_u g2 uid)).
  { apply hoare_modify. intros m <-. unfold cols_of, del_u; cbn. by rewrite !fmap_delete. }
  intros _ ? ->.
  assert (Hno : ∀ i, g_user g2 !! i ≠ Some (Some uid)).
  { intros i Hi. destruct (wf_user _ _ Hwf2 _ _ Hi) as (l&Hl'&[[=]|Hin]).
    assert (l = []) as -> by congruence. by apply elem_of_nil in Hin. }
  assert (Hwf3 : WF ex0 (del_u g2 uid)).
  { apply wf_del_u; [done..|]. rewrite Euq. by intros [_ ?]%elem_of_list_remove_all. }
  eapply hoare_mono; [apply soft_ignore; eapply soft_bind; [apply soft_emit|]; intros; by apply soft_ret|].
  intros _ ? [-> _]. split; [done|]. split_and!.
  - cbn. intros i Hi. split; [by apply Esq|]. intros Hui.
    destruct (wf_sq _ _ Hwf2) as [_ Hall]. specialize (Hall _ Hi).
    destruct (coh_squeued _ Hg2 _ _ Hall) as [a Ha].
    pose proof (lookup_weaken _ _ _ _ Ha Eu). apply (Hno i). congruence.
  - cbn. intros i. rewrite Euq. by intros ?%elem_of_list_remove_all.
  - done.
  - unfold has_u; cbn. rewrite lookup_delete_eq. by intros [? ?].
  - done.
  - split_and!; [done|cbn; rewrite dom_delete; set_solver| |done|done].
    cbn. intros i [_ Hi]%lookup_delete_Some. by apply Sh3.
Qed.

(** * Seats *)

Lemma wf_unqueue_seat x g k :
  WF x g → WF x (g <| g_tq := list_remove_all k (g_tq g) |>).
Proof.
  intros Hwf. destruct Hwf; constructor; cbn; try assumption.
  destruct wf_tq as [? Hin]. split; [by apply NoDup_list_remove_all|].
  by intros i [Hi _]%elem_of_list_remove_all; apply Hin.
Qed.
Lemma wf_seat_stopped x g k :
  WF x g → g_seat0 g ≠ Some k → WF x (g <| g_tstarted := <[k := false]> (g_tstarted g) |>).
Proof.
  intros Hwf Hk. destruct Hwf; constructor; cbn; try assumption.
  destruct wf_seat0 as (k'&b&?&?&?). exists k', b. rewrite lookup_insert_ne; [done|]. congruence.
Qed.

(** An empty seat that is not seat0 can be deleted. *)
Definition del_t (g : cols) (k : string) : cols :=
  g <| g_tsess := delete k (g_tsess g) |> <| g_active := delete k (g_active g) |>
    <| g_pending := delete k (g_pending g) |> <| g_positions := delete k (g_positions g) |>
    <| g_tdevs := delete k (g_tdevs g) |> <| g_tqueued := delete k (g_tqueued g) |>
    <| g_tstarted := delete k (g_tstarted g) |>.
Lemma wf_del_t g k :
  WF ex0 g → g_tsess g !! k = Some [] → g_tdevs g !! k = Some [] → k ∉ g_tq g →
  g_seat0 g ≠ Some k → WF ex0 (del_t g k).
Proof.
  intros Hwf Hl Hd Hq H0.
  assert (Hno : ∀ i, g_seat g !! i ≠ Some (Some k)).
  { intros i Hi. destruct (wf_seat _ _ Hwf _ _ Hi) as ((l&Hl'&[[=]|Hin])&_).
    assert (l = []) as -> by congruence. by apply elem_of_nil in Hin. }
  assert (Hnd : ∀ d, g_dseat g !! d ≠ Some (Some k)).
  { intros d Hi. destruct (wf_dseat _ _ Hwf _ _ Hi) as (l&Hl'&Hin).
    assert (l = []) as -> by congruence. by apply elem_of_nil in Hin. }
  destruct Hwf; constructor; cbn; try assumption.
  - intros i k' Hi. assert (k ≠ k') by (intros <-; by apply Hno in Hi).
    rewrite lookup_delete_ne by done. eauto.
  - intros k' l [_ Hl']%lookup_delete_Some. eauto.
  - intros k' a [_ Ha]%lookup_delete_Some. eauto.
  - intros k' a [_ Ha]%lookup_delete_Some. eauto.
  - intros k' ps p i [_ Hp]%lookup_delete_Some. eauto.
  - destruct wf_tq as [? Hin]. split; [done|]. intros i Hi. rewrite lookup_delete_ne; [auto|].
    by intros <-.
  - intros d k' Hi. assert (k ≠ k') by (intros <-; by apply Hnd in Hi).
    rewrite lookup_delete_ne by done. eauto.
  - intros k' l [_ Hl']%lookup_delete_Some. eauto.
  - intros i ds dev n H1 H2 H3. destruct (wf_excl _ _ _ _ H1 H2 H3) as [?|(k'&Hk&?)]; [by left|].
    right. exists k'. assert (k ≠ k') by (intros <-; by apply Hno in Hk).
    by rewrite lookup_delete_ne.
  - destruct wf_seat0 as (k'&b&?&?&?). exists k', b. rewrite lookup_delete_ne; [done|]. congruence.
Qed.

(** The seat is queued; its sessions and devices stay. *)
Definition seat_stopped (g g' : cols) (k : string) : Prop :=
  shrunk g g' ∧ has_t g' k ∧ g_seat0 g' = g_seat0 g ∧ g_sq g' = g_sq g ∧ g_uq g' = g_uq g ∧
  g_tqueued g' !! k = Some true ∧ ∀ i, i ∈ g_tq g' → i = k ∨ i ∈ g_tq g.

Lemma hoare_seat_stop g k b :
  WF ex0 g → coh g → has_t g k → g_seat0 g ≠ Some k →
  hoare g (seat_stop k b) (λ _ g', WF ex0 g' ∧ seat_stopped g g' k).
Proof.
  intros Hwf Hg Hk H0. unfold seat_stop. eapply hoare_soft_bind; [by apply soft_get_seat|].
  intros t Hr. apply (hoare_bind _ _ _ (λ _ g1, WF ex0 g1 ∧ same_objs g g1)).
  { unfold seat_stop_sessions. eapply hoare_soft_bind; [by apply soft_get_seat|]. intros t1 Hr1.
    set (I := λ (l : list string) g', WF ex0 g' ∧ same_objs g g' ∧ ∀ i, i ∈ l → has_s g i).
    eapply hoare_mono; [apply (hoare_fold_m _ _ _ _ I)|].
    - split; [done|]. split; [apply same_objs_refl|]. eauto with links.
    - intros r sid l' g1 (Hwf1&Ho1&Hl1). apply hoare_coh; intros Hg1.
      eapply hoare_bind; [apply (hoare_session_stop ex0); [done|done|]|].
      + rewrite Ho1. apply Hl1. left.
      + intros k' g2 (?&Ho2). apply hoare_ret. split; [done|].
        split; [exact (same_objs_trans _ _ _ Ho1 Ho2)|]. intros; apply Hl1; by right.
    - by intros _ g' (?&?&_). }
  intros r g1 (Hwf1&Ho1). apply hoare_coh; intros Hg1.
  assert (Hk1 : has_t g1 k) by (rewrite Ho1; exact Hk).
  eapply hoare_soft_bind; [apply soft_emit|]. intros _ _.
  eapply hoare_bind; [by apply (hoare_seat_add_to_gc_queue ex0)|].
  intros _ g2 (Hwf2&Hs2&Hp2). apply hoare_coh; intros Hg2.
  assert (Hk2 : has_t g2 k) by (rewrite Hs2; exact Hk1).
  eapply hoare_soft_bind; [apply soft_when; intros _; apply soft_emit|]. intros _ _.
  eapply hoare_bind; [by apply hoare_upd_seat|]. intros _ g3 (t3&Hr3&->).
  assert (put_t g2 k (t3 <| se_started := false |>)
    = g2 <| g_tstarted := <[k := false]> (g_tstarted g2) |>) as -> by (clear Hr; same_row; done).
  apply hoare_ret. split.
  { apply wf_seat_stopped; [done|]. rewrite Hs2; cbn. rewrite Ho1. exact H0. }
  assert (Hsh : shrunk g g2).
  { apply (shrunk_trans _ g1); [by eapply (grew_shrunk (λ _, False) (λ _, False)), grew_objs|].
    unfold same_but_tq in Hs2. rewrite Hs2. by split_and!. }
  split; [done|]. split; [done|]. split_and!; cbn.
  - rewrite Hs2; cbn. by rewrite Ho1.
  - rewrite Hs2; cbn. by rewrite Ho1.
  - rewrite Hs2; cbn. by rewrite Ho1.
  - destruct Hp2 as [-> _]. apply lookup_insert_eq.
  - intros i [->|Hi]%(pushed_elem _ _ _ _ _ _ Hp2); [by left|right].
    rewrite Ho1 in Hi. done.
Qed.

Lemma hoare_free_seat_sessions fuel g k l :
  WF ex0 g → coh g → g_tsess g !! k = Some l → (length l ≤ fuel)%nat →
  hoare g (free_seat_sessions fuel k) (λ _ g', WF ex0 g' ∧ fewer g g' ∧
    g_tsess g' !! k = Some []).
Proof.
  revert g l. induction fuel as [|fuel IH]; intros g l Hwf Hg Hl Hf;
    cbn [free_seat_sessions];
    (eapply hoare_soft_bind; [apply soft_get_seat; by eexists|]);
    intros t Hr; assert (se_sessions t = l) as -> by (destruct Hr as (?&_); congruence);
    clear Hr t; destruct l as [|sid l].
  1,3: apply hoare_ret; split; [done|]; split; [apply fewer_refl|done].
  - cbn in Hf. lia.
  - destruct (wf_tsess _ _ Hwf _ _ Hl) as [Hnd Hin].
    assert (Hk : g_seat g !! sid = Some (Some k)) by (apply Hin; left).
    eapply hoare_bind; [apply hoare_session_free; eauto with links|].
    intros _ g1 (Hwf1&Hfr). apply hoare_coh; intros Hg1.
    pose proof (session_freed_fewer _ _ _ Hfr) as Hfew.
    assert (Hl1 : g_tsess g1 !! k = Some l).
    { destruct Hfr as (_&_&_&->&_). rewrite lookup_fmap, Hl. cbn. f_equal.
      apply list_remove_all_cons. by apply NoDup_cons in Hnd as [? _]. }
    eapply hoare_mono; [eapply IH; [done|done|exact Hl1|cbn in Hf; lia]|].
    intros _ g2 (?&Hfew2&?). split; [done|]. split; [|done].
    exact (fewer_trans _ _ _ Hfew Hfew2).
Qed.

(** The devices of a seat whose flag is set are freed without queueing it. *)
Lemma hoare_free_seat_devices fuel g k l :
  WF ex0 g → coh g → g_tdevs g !! k = Some l → g_tqueued g !! k = Some true →
  (length l ≤ fuel)%nat →
  hoare g (free_seat_devices fuel k) (λ _ g', WF ex0 g' ∧ same_but_devs g g' ∧
    (∀ i, i ∈ g_tq g' → i ∈ g_tq g) ∧ g_tdevs g' !! k = Some []).
Proof.
  revert g l. induction fuel as [|fuel IH]; intros g l Hwf Hg Hl Hq Hf;
    cbn [free_seat_devices];
    (eapply hoare_soft_bind; [apply soft_get_seat; by eapply coh_tdevs|]);
    intros t Hr; assert (se_devices t = l) as -> by (destruct Hr as (_&_&_&_&?&_); congruence);
    clear Hr t; destruct l as [|d l].
  1,3: apply hoare_ret; split; [done|]; split; [apply same_but_devs_refl|done].
  - cbn in Hf. lia.
  - destruct (wf_tdevs _ _ Hwf _ _ Hl) as [Hnd Hin].
    assert (Hk : g_dseat g !! d = Some (Some k)) by (apply Hin; left).
    eapply hoare_bind; [apply (hoare_device_free ex0); [done|done|by eexists|by left]|].
    intros _ g1 (Hwf1&Hs1&[Hq1 Hfl1]&_&Ht1). apply hoare_coh; intros Hg1.
    specialize (Ht1 _ _ Hl). rewrite bool_decide_true in Ht1 by done.
    rewrite list_remove_all_cons in Ht1 by (by apply NoDup_cons in Hnd as [? _]).
    assert (Hq1' : ∀ i, i ∈ g_tq g1 → i ∈ g_tq g).
    { intros i [?|[Hi ?]]%Hq1; [done|]. assert (i = k) as -> by congruence. congruence. }
    eapply hoare_mono; [eapply IH; [exact Hwf1|done|exact Ht1|by apply Hfl1|cbn in Hf; lia]|].
    intros _ g2 (?&Hs2&Hq2&?). split; [done|]. split; [exact (same_but_devs_trans _ _ _ Hs1 Hs2)|].
    split; [auto|done].
Qed.

(** Freeing a seat: the queues lose it and its sessions. *)
Definition seat_freed (g g' : cols) (k : string) : Prop :=
  shrunk g g' ∧ (∀ i, i ∈ g_sq g' → i ∈ g_sq g) ∧ g_uq g' = g_uq g ∧
  (∀ i, i ∈ g_tq g' → i ∈ g_tq g ∧ i ≠ k) ∧ ¬ has_t g' k.

Lemma hoare_seat_free g k :
  WF ex0 g → coh g → has_t g k → g_seat0 g ≠ Some k → g_tqueued g !! k = Some true →
  hoare g (seat_free k) (λ _ g', WF ex0 g' ∧ seat_freed g g' k).
Proof.
  intros Hwf Hg Hk H0 Hq. unfold seat_free. eapply hoare_soft_bind; [by apply soft_get_seat|].
  intros t Hr. assert (se_in_gc_queue t = true) as ->
    by (destruct Hr as (_&_&_&_&_&?&_); congruence).
  assert (Hl : g_tsess g !! k = Some (se_sessions t)) by apply Hr. clear Hr.
  eapply (hoare_bind _ _ _ (λ _ g', g' = g <| g_tq := list_remove_all k (g_tq g) |>)).
  { apply hoare_modify. by intros m <-. }
  intros _ g1 ->. pose proof (wf_unqueue_seat _ _ k Hwf) as Hwf1.
  set (g1 := g <| g_tq := _ |>) in *. apply hoare_coh; intros Hg1.
  eapply hoare_bind; [by eapply (hoare_free_seat_sessions _ g1)|].
  intros _ g2 (Hwf2&Hfew&Hnil). apply hoare_coh; intros Hg2.
  eapply hoare_soft_bind; [apply soft_get_seat; by eexists|]. intros t2 Hr2.
  eapply hoare_soft_bind.
  { apply soft_assert. assert (Ha : g_active g2 !! k = Some (se_active t2)) by apply Hr2.
    destruct (se_active t2) as [a|]; [|done].
    apply (wf_active _ _ Hwf2) in Ha.
    destruct (wf_seat _ _ Hwf2 _ _ Ha) as ((l&Hl'&[[=]|Hin])&_).
    assert (l = []) as -> by congruence. by apply elem_of_nil in Hin. }
  intros _ _. pose proof (fewer_shrunk _ _ Hfew) as Hsh.
  destruct Hfew as (_&_&Esq&_&_&Euq&Etq&_&Efl&Es0&_). cbn in Esq, Euq, Etq, Efl, Es0.
  assert (Hd : g_tdevs g2 !! k = Some (se_devices t2)) by apply Hr2.
  eapply hoare_bind; [eapply hoare_free_seat_devices; [done|done|exact Hd|by rewrite Efl|done]|].
  intros _ g3 (Hwf3&Hs3&Hq3&Hd3).
  eapply hoare_mono; [apply (hoare_modify _ _ (λ _ g', g' = del_t g3 k))|].
  { intros m <-. unfold cols_of, del_t; cbn. by rewrite !fmap_delete. }
  intros _ ? ->. split.
  - apply wf_del_t; [done| |done| |].
    + by rewrite Hs3.
    + intros Hi%Hq3. rewrite Etq in Hi. by apply elem_of_list_remove_all in Hi as [_ ?].
    + rewrite Hs3; cbn. by rewrite Es0.
  - split_and!; cbn.
    + apply (shrunk_trans _ g2); [exact Hsh|]. unfold same_but_devs in Hs3. rewrite Hs3. by split_and!.
    + rewrite Hs3; cbn. exact Esq.
    + rewrite Hs3; cbn. exact Euq.
    + intros i Hi%Hq3. rewrite Etq in Hi. by apply elem_of_list_remove_all in Hi.
    + unfold has_t; cbn. rewrite lookup_delete_eq. by intros [? ?].
Qed.
End Gc.

(** * The loop *)

Section Loop.
Context {K : Type} (queue : manager → list K) (set_queue : list K → manager → manager)
  (body : K → MM unit).
Context (Q : cols → list K) (put : list K → cols → cols) (mu : cols → nat) (P : cols → Prop).
Context (HQ : ∀ m, queue m = Q (cols_of m)).
Context (Hput : ∀ q m, cols_of (set_queue q m) = put q (cols_of m)).
Context (Hmu : ∀ g, Q g ≠ [] → (0 < mu g)%nat).
Context (Hbody : ∀ g x q, P g → coh g → coh (put q g) → Q g = x :: q →
  hoare (put q g) (body x) (λ _ g', P g' ∧ (mu g' < mu g)%nat)).

Lemma hoare_gc_loop fuel g :
  P g → coh g → (mu g ≤ fuel)%nat →
  hoare g (gc_loop queue set_queue body fuel) (λ _ g', P g' ∧ Q g' = []).
Proof.
  revert g. induction fuel as [|fuel IH]; intros g HP Hg Hf; cbn [gc_loop];
    (eapply (hoare_soft_bind _ _ _ (λ q, q = Q g)); [apply soft_gets; by intros m <-|]);
    intros q Hq; destruct q as [|x q]; try (by apply hoare_ret).
  - assert (Q g ≠ []) as Hne%Hmu by congruence. lia.
  - eapply (hoare_bind _ _ _ (λ _ g', g' = put q g)).
    { apply hoare_modify. intros m <-. apply Hput. }
    intros _ g1 ->. apply hoare_coh; intros Hg1.
    eapply hoare_bind; [by apply Hbody|]. intros _ g2 [HP2 Hmu2]. apply hoare_coh; intros Hg2.
    apply IH; [done|done|lia].
Qed.
End Loop.

(** A list without duplicates whose members are in another is no longer. *)
Lemma length_subset {A} (l k : list A) :
  NoDup l → (∀ x, x ∈ l → x ∈ k) → (length l ≤ length k)%nat.
Proof. intros Hnd Hin. apply submseteq_length, NoDup_submseteq; [done|]. by intros x; apply Hin. Qed.

(** Clearing the flag of what has just left the queue. *)
Section Pop.
Context (g : cols).
Lemma wf_pop_seat {Bt : Boot} k q :
  WF ex0 g → g_tq g = k :: q →
  WF ex0 (g <| g_tq := q |> <| g_tqueued := <[k := false]> (g_tqueued g) |>).
Proof.
  intros Hwf Hq. destruct Hwf; constructor; cbn; try assumption.
  rewrite Hq in wf_tq. destruct wf_tq as [[Hnin Hnd]%NoDup_cons Hin].
  apply queue_drop; [|done]. split; [done|]. intros; apply Hin; by right.
Qed.
Lemma wf_pop_session {Bt : Boot} k q :
  WF ex0 g → g_sq g = k :: q →
  let g' := g <| g_sq := q |> <| g_squeued := <[k := false]> (g_squeued g) |> in
  WF (exnew k) g' ∧ (g_user g !! k ≠ Some None → WF ex0 g').
Proof.
  intros Hwf Hq g'. assert (Hex : ∀ x, ex_paused x = None ∧ ex_unlinked x = None ∧ ex_unseated x = None ∧ ex_boot x = Bt →
    (g_user g !! k = Some None → ex_new x = Some k) → WF x g').
  { intros [x1 x2 x3 x4 x5] (E1&E2&E3&E4) Hk. cbn in E1, E2, E3, E4, Hk. subst x1 x2 x3 x5 g'.
    destruct Hwf; constructor; cbn; try assumption.
    - intros i Hi. destruct (decide (i = k)) as [->|Hne]; [auto|].
      destruct (wf_owner _ Hi) as [?|[?|[? Hin]]]; [done..|]. rewrite Hq in Hin. apply elem_of_cons in Hin as [?|?]; [congruence|auto].
    - rewrite Hq in wf_sq. destruct wf_sq as [[Hnin Hnd]%NoDup_cons Hin].
      apply queue_drop; [|done]. split; [done|]. intros; apply Hin; by right. }
  split; [by apply Hex|]. intros Hk. apply Hex; [done|]. by intros ?%Hk.
Qed.
Lemma wf_pop_user {Bt : Boot} k q :
  WF ex0 g → g_uq g = k :: q →
  WF ex0 (g <| g_uq := q |> <| g_uqueued := <[k := false]> (g_uqueued g) |>).
Proof.
  intros Hwf Hq. destruct Hwf; constructor; cbn; try assumption.
  rewrite Hq in wf_uq. destruct wf_uq as [[Hnin Hnd]%NoDup_cons Hin].
  apply queue_drop; [|done]. split; [done|]. intros; apply Hin; by right.
Qed.
End Pop.

Section Collect.
Context {E : Env} {Bt : Boot} {Ok : EnvOk}.

(** * One round *)

Lemma hoare_gc_seat drop g k q :
  (drop = true → booting = false) → WF ex0 g → coh g → coh (g <| g_tq := q |>) → g_tq g = k :: q →
  hoare (g <| g_tq := q |>) (gc_seat drop k) (λ _ g', WF ex0 g' ∧ shrunk g g' ∧
    (length (g_tq g') < length (g_tq g))%nat).
Proof.
  intros Hdrop Hwf Hg Hg0 Hq. unfold gc_seat. pose proof (wf_pop_seat _ _ _ Hwf Hq) as Hwf1.
  assert (Hk : has_t g k).
  { destruct (wf_tq _ _ Hwf) as [_ Hin]. eapply coh_tqueued; [done|]. apply Hin. rewrite Hq. left. }
  eapply hoare_bind; [by apply hoare_upd_seat|]. intros _ g1 (t&Hr&->).
  assert (put_t (g <| g_tq := q |>) k (t <| se_in_gc_queue := false |>)
    = g <| g_tq := q |> <| g_tqueued := <[k := false]> (g_tqueued g) |>) as ->
    by (same_row; done).
  set (g1 := g <| g_tq := _ |> <| g_tqueued := _ |>) in *. apply hoare_coh; intros Hg1.
  eapply hoare_soft_bind; [by apply (soft_seat_may_gc ex0)|]. intros b Hb.
  assert (Hlen : ∀ g', WF ex0 g' → (∀ i, i ∈ g_tq g' → i ∈ q) → (length (g_tq g') < length (g_tq g))%nat).
  { intros g' Hwf' Hin. rewrite Hq. cbn. apply Nat.lt_succ_r, length_subset; [|done].
    apply (wf_tq _ _ Hwf'). }
  apply hoare_when; intros ->.
  - assert (H0 : g_seat0 g1 ≠ Some k).
    { intros H0. destruct (Hb eq_refl) as [[Hd Hs]|?]; [|done].
      destruct (wf_seat0 _ _ Hwf1) as (k'&b&?&?&[?|Hboot]); [congruence|].
      apply Hdrop in Hd. unfold booting in Hd. cbn in Hboot. congruence. }
    apply (hoare_bind _ _ _ (λ _ g2, WF ex0 g2 ∧ seat_stopped g1 g2 k)).
    { apply hoare_ignore. by apply hoare_seat_stop. }
    intros _ g2 (Hwf2&Sh2&Hk2&Hz2&Hs2&Hu2&Hf2&Hq2). apply hoare_coh; intros Hg2.
    eapply hoare_mono; [apply hoare_seat_free; [done|done|done|by rewrite Hz2|done]|].
    intros _ g3 (Hwf3&Sh3&_&_&Hq3&_). split; [done|].
    split; [exact (shrunk_trans g1 _ _ Sh2 Sh3)|]. apply Hlen; [done|].
    intros i [Hi Hne]%Hq3. apply Hq2 in Hi as [?|?]; done.
  - split; [done|]. split; [by split_and!|]. by apply Hlen.
Qed.

(** Sessions may go from the queues; the seats' queue is left alone. *)
Lemma hoare_gc_owned_session drop g sid q :
  g_user g !! sid ≠ Some None → WF ex0 g → coh g → coh (g <| g_sq := q |>) → g_sq g = sid :: q →
  hoare (g <| g_sq := q |>) (gc_session drop sid) (λ _ g', WF ex0 g' ∧ shrunk g g' ∧
    g_tq g' = g_tq g ∧ (length (g_sq g') < length (g_sq g))%nat).
Proof.
  intros Hown Hwf Hg Hg0 Hq. unfold gc_session. pose proof (proj2 (wf_pop_session _ _ _ Hwf Hq) Hown) as Hwf1.
  assert (Hs : has_s g sid).
  { destruct (wf_sq _ _ Hwf) as [_ Hin]. eapply coh_squeued; [done|]. apply Hin. rewrite Hq. left. }
  eapply hoare_bind; [by apply hoare_upd_session|]. intros _ g1 (s&Hr&->).
  assert (put_s (g <| g_sq := q |>) sid (s <| s_in_gc_queue := false |>)
    = g <| g_sq := q |> <| g_squeued := <[sid := false]> (g_squeued g) |>) as ->
    by (same_row; done).
  set (g1 := g <| g_sq := _ |> <| g_squeued := _ |>) in *. apply hoare_coh; intros Hg1.
  assert (Hlen : ∀ g', WF ex0 g' → (∀ i, i ∈ g_sq g' → i ∈ q) → (length (g_sq g') < length (g_sq g))%nat).
  { intros g' Hwf' Hin. rewrite Hq. cbn. apply Nat.lt_succ_r, length_subset; [|done].
    apply (wf_sq _ _ Hwf'). }
  assert (Hs1 : has_s g1 sid) by exact Hs.
  eapply hoare_soft_bind; [by apply soft_session_may_gc|]. intros b1 _.
  eapply hoare_soft_bind; [by eapply soft_session_get_state|]. intros st _.
  apply (hoare_bind _ _ _ (λ _ g2, WF ex0 g2 ∧ same_objs g1 g2)).
  { apply hoare_when; [|intros _; split; [done|apply same_objs_refl]]. intros _.
    apply hoare_ignore. by apply (hoare_session_stop ex0). }
  intros _ g2 (Hwf2&Ho2). apply hoare_coh; intros Hg2.
  assert (Hs2 : has_s g2 sid) by (rewrite Ho2; exact Hs1).
  pose proof (grew_objs (λ _, False) (λ _, False) _ _ Ho2) as Hgr2.
  assert (Esq2 : g_sq g2 = q) by by rewrite Ho2. assert (Etq2 : g_tq g2 = g_tq g) by by rewrite Ho2.
  eapply hoare_soft_bind; [by apply soft_session_may_gc|]. intros b2 _.
  apply hoare_when; intros ->.
  - destruct Hs2 as [[uid|] Hu2]; [|by rewrite Ho2 in Hu2].
    apply (hoare_bind _ _ _ (λ _ g3, WF ex0 g3 ∧ finalized g2 g3 sid uid)).
    { apply hoare_ignore. by apply hoare_session_finalize. }
    intros _ g3 (Hwf3&Hf3). apply hoare_coh; intros Hg3.
    eapply hoare_mono; [apply hoare_session_free; [done|done|]|].
    { unfold has_s. rewrite (grew_user _ _ _ _ Hf3). by eexists. }
    intros _ g4 (Hwf4&Hfr). split; [done|]. split; [|split].
    + apply (shrunk_trans g1 g2); [by eapply grew_shrunk|].
      apply (shrunk_trans _ g3); [by eapply grew_shrunk|by eapply session_freed_shrunk].
    + destruct Hfr as (_&_&_&_&_&_&_&_&->&_). destruct Hf3 as [Ho3 _]. rewrite Ho3. exact Etq2.
    + apply Hlen; [done|]. destruct Hfr as (_&_&_&_&_&_&->&_).
      intros i [Hi Hne]%elem_of_list_remove_all. destruct Hf3 as (_&Hq3&_).
      apply Hq3 in Hi as [Hi|?]; [by rewrite Esq2 in Hi|done].
  - split; [done|]. split; [by eapply (grew_shrunk _ _ g1)|]. split; [done|].
    apply Hlen; [done|]. by rewrite Esq2.
Qed.

(** A session without a user is freed. *)
Lemma hoare_gc_new_session g sid q :
  g_user g !! sid = Some None → WF ex0 g → coh g → coh (g <| g_sq := q |>) → g_sq g = sid :: q →
  hoare (g <| g_sq := q |>) (gc_session false sid) (λ _ g', WF ex0 g' ∧ shrunk g g' ∧
    g_tq g' = g_tq g ∧ (length (g_sq g') < length (g_sq g))%nat).
Proof.
  intros Hu Hwf Hg Hg0 Hq. unfold gc_session. pose proof (proj1 (wf_pop_session _ _ _ Hwf Hq)) as Hwf1.
  assert (Hs : has_s g sid) by by eexists.
  eapply hoare_bind; [by apply hoare_upd_session|]. intros _ g1 (s&Hr&->).
  assert (put_s (g <| g_sq := q |>) sid (s <| s_in_gc_queue := false |>)
    = g <| g_sq := q |> <| g_squeued := <[sid := false]> (g_squeued g) |>) as ->
    by (same_row; done).
  set (g1 := g <| g_sq := _ |> <| g_squeued := _ |>) in *. apply hoare_coh; intros Hg1.
  assert (Hs1 : has_s g1 sid) by exact Hs. assert (Hu1 : g_user g1 !! sid = Some None) by exact Hu.
  eapply hoare_soft_bind; [by apply soft_session_may_gc|]. intros b1 _.
  eapply hoare_soft_bind; [by eapply soft_session_get_state|]. intros st _.
  assert (Hrow : ∀ s, row_s g1 sid s → s_user s = None).
  { intros s1 Hr1. assert (g_user g1 !! sid = Some (s_user s1)) by apply Hr1. congruence. }
  apply (hoare_soft_bind _ _ _ (λ _, True)).
  { apply soft_when; intros _. apply soft_ignore. unfold session_stop.
    eapply soft_bind; [by apply soft_get_session|]. intros s1 ->%Hrow. by apply soft_ret. }
  intros _ _. eapply hoare_soft_bind; [by apply soft_session_may_gc|]. intros b2 Hb2. rewrite (Hb2 Hu1 eq_refl). cbn [when].
  apply (hoare_soft_bind _ _ _ (λ _, True)).
  { apply soft_ignore. unfold session_finalize.
    eapply soft_bind; [by apply soft_get_session|]. intros s1 ->%Hrow. by apply soft_ret. }
  intros _ _. eapply hoare_mono; [by apply hoare_session_free_new|].
  intros _ g4 (Hwf4&Hfr). split; [done|]. split; [by eapply (session_freed_shrunk g1)|]. split.
  - by destruct Hfr as (_&_&_&_&_&_&_&_&->&_).
  - rewrite Hq. cbn. apply Nat.lt_succ_r, length_subset; [apply (wf_sq _ _ Hwf4)|].
    destruct Hfr as (_&_&_&_&_&_&->&_). by intros i [Hi _]%elem_of_list_remove_all.
Qed.
Lemma hoare_gc_session drop g sid q :
  (drop = true → booting = false) → WF ex0 g → coh g → coh (g <| g_sq := q |>) → g_sq g = sid :: q →
  hoare (g <| g_sq := q |>) (gc_session drop sid) (λ _ g', WF ex0 g' ∧ shrunk g g' ∧
    g_tq g' = g_tq g ∧ (length (g_sq g') < length (g_sq g))%nat).
Proof.
  intros Hdrop Hwf Hg Hg0 Hq. destruct (decide (g_user g !! sid = Some None)) as [Hu|Hu]; [|by apply hoare_gc_owned_session].
  destruct drop; [|by apply hoare_gc_new_session].
  destruct (wf_owner _ _ Hwf _ Hu) as [?|[?|[Hboot _]]]; [done..|]. specialize (Hdrop eq_refl).
  unfold booting in Hdrop. cbn in Hboot. congruence.
Qed.

(** The users that are live. *)
Definition live_users (g : cols) : gset Z := dom (filter (λ p, p.2 = true) (g_live g)).
Lemma elem_of_live g uid : uid ∈ live_users g ↔ g_live g !! uid = Some true.
Proof.
  unfold live_users. rewrite elem_of_dom. split.
  - intros [b Hb]. apply map_lookup_filter_Some in Hb as [? Hb]. cbn in Hb. by subst b.
  - intros H. exists true. by apply map_lookup_filter_Some.
Qed.
(** Rounds the loop over users may still take: a user that is stopped is queued
    once more. *)
Definition user_rounds (g : cols) : nat := (length (g_uq g) + size (live_users g))%nat.

Lemma user_rounds_less g g' uid q :
  g_uq g = uid :: q → NoDup (g_uq g') → shrunk g g' →
  (∀ i, i ∈ g_uq g' → i = uid ∨ i ∈ q) →
  (uid ∈ g_uq g' → g_live g !! uid = Some true ∧ g_live g' !! uid = Some false) →
  (user_rounds g' < user_rounds g)%nat.
Proof.
  intros Hq Hnd (_&_&Hsh&_) Hin Hlive. unfold user_rounds. rewrite Hq. cbn.
  assert (Hsub : live_users g' ⊆ live_users g).
  { intros i. rewrite !elem_of_live. apply Hsh. }
  destruct (decide (uid ∈ g_uq g')) as [Hi|Hi].
  - destruct (Hlive Hi) as [H1 H2].
    assert (size (live_users g') < size (live_users g))%nat.
    { apply subset_size. split; [done|]. intros Hc.
      assert (Hc' : uid ∈ live_users g') by (by apply Hc, elem_of_live).
      apply elem_of_live in Hc'. congruence. }
    assert (length (g_uq g') ≤ length (uid :: q))%nat.
    { apply length_subset; [done|]. intros i [->|?]%Hin; [left|by right]. }
    cbn in *. lia.
  - apply subseteq_size in Hsub.
    assert (length (g_uq g') ≤ length q)%nat; [|lia].
    apply length_subset; [done|]. intros i Hi'. destruct (Hin _ Hi') as [->|?]; done.
Qed.

Lemma hoare_gc_user drop g uid q :
  WF ex0 g → coh g → coh (g <| g_uq := q |>) → g_uq g = uid :: q →
  hoare (g <| g_uq := q |>) (gc_user drop uid) (λ _ g', WF ex0 g' ∧ shrunk g g' ∧
    g_tq g' = g_tq g ∧ (∀ i, i ∈ g_sq g' → i ∈ g_sq g) ∧ (user_rounds g' < user_rounds g)%nat).
Proof.
  intros Hwf Hg Hg0 Hq. unfold gc_user. pose proof (wf_pop_user _ _ _ Hwf Hq) as Hwf1.
  assert (Hu : has_u g uid).
  { destruct (wf_uq _ _ Hwf) as [_ Hin]. eapply coh_uqueued; [done|]. apply Hin. rewrite Hq. left. }
  assert (Hnq : uid ∉ q).
  { destruct (wf_uq _ _ Hwf) as [Hnd _]. rewrite Hq in Hnd. by apply NoDup_cons in Hnd as [? _]. }
  eapply hoare_bind; [by apply hoare_upd_user|]. intros _ g1 (u&Hr&->).
  assert (put_u (g <| g_uq := q |>) uid (u <| u_in_gc_queue := false |>)
    = g <| g_uq := q |> <| g_uqueued := <[uid := false]> (g_uqueued g) |>) as ->.
  { unfold put_u; cbn. change (live_of (u <| u_in_gc_queue := false |>)) with (live_of u).
    same_row. done. }
  set (g1 := g <| g_uq := _ |> <| g_uqueued := _ |>) in *. apply hoare_coh; intros Hg1.
  assert (Hu1 : has_u g1 uid) by exact Hu.
  eapply hoare_soft_bind; [by apply (soft_user_may_gc ex0)|]. intros b1 _.
  apply (hoare_bind _ _ _ (λ _ g2, WF ex0 g2 ∧ user_stopped g1 g2 uid)).
  { apply hoare_when; [|intros _; split; [done|split; [apply grew_refl|done]]]. intros _.
    apply hoare_ignore. by apply hoare_user_stop. }
  intros _ g2 (Hwf2&Hgr2&Hl2). apply hoare_coh; intros Hg2.
  pose proof (grew_shrunk _ _ _ _ Hgr2) as Hsh2.
  destruct Hgr2 as (Ho2&Hsq2&Huq2&_). cbn in Hsq2, Huq2.
  assert (Hu2 : has_u g2 uid) by (rewrite Ho2; exact Hu1).
  assert (Etq2 : g_tq g2 = g_tq g) by by rewrite Ho2.
  eapply hoare_soft_bind; [by apply (soft_user_may_gc ex0)|]. intros b2 _.
  apply hoare_when; intros ->.
  - apply (hoare_bind _ _ _ (λ _ g3, WF ex0 g3 ∧
      grew (λ i, g_user g2 !! i = Some (Some uid)) (λ i, i = uid) g2 g3)).
    { apply hoare_ignore. by apply hoare_user_finalize. }
    intros _ g3 (Hwf3&Hgr3). apply hoare_coh; intros Hg3.
    eapply hoare_mono; [apply hoare_user_free; [done|done|]|].
    { unfold has_u. rewrite (grew_usess _ _ _ _ Hgr3). exact Hu2. }
    intros _ g4 (Hwf4&Hsq4&Huq4&Etq4&_&_&Hsh4).
    assert (Hsh : shrunk g g4).
    { apply (shrunk_trans g1 g2); [done|].
      apply (shrunk_trans _ g3); [by eapply grew_shrunk|exact Hsh4]. }
    pose proof (grew_user _ _ _ _ Hgr3) as Eu3. destruct Hgr3 as (Ho3&Hsq3&Huq3&_).
    split; [done|]. split; [done|]. split; [rewrite Etq4, Ho3; exact Etq2|]. split.
    + intros i [Hi Hne]%Hsq4. apply Hsq3 in Hi as [Hi|?]; [|congruence].
      by apply Hsq2 in Hi as [?|?].
    + eapply user_rounds_less; [done|apply (wf_uq _ _ Hwf4)|done|..].
      * intros i [Hi Hne]%Huq4. apply Huq3 in Hi as [Hi|?]; [|done].
        apply Huq2 in Hi as [?|?]; [by right|by left].
      * by intros [_ ?]%Huq4.
  - split; [done|]. split; [exact Hsh2|]. split; [done|]. split.
    + intros i Hi. by apply Hsq2 in Hi as [?|?].
    + eapply user_rounds_less; [done|apply (wf_uq _ _ Hwf2)|done|..].
      * intros i Hi. apply Huq2 in Hi as [?|?]; [by right|by left].
      * intros Hi. by apply Hl2.
Qed.

(** * The collector *)

(** Fuel that is enough for all three loops. *)
Definition gc_fuel (g : cols) : nat :=
  (length (g_tq g) + size (g_user g) + 2 * size (g_usess g))%nat.

Lemma length_sq g : WF ex0 g → coh g → (length (g_sq g) ≤ size (g_user g))%nat.
Proof.
  intros Hwf Hg. destruct (wf_sq _ _ Hwf) as [Hnd Hin].
  rewrite <- (size_dom (g_user g)), <- (size_list_to_set (C := gset string) (g_sq g)) by done.
  apply subseteq_size. intros i Hi%elem_of_list_to_set%Hin. apply elem_of_dom.
  by eapply coh_squeued.
Qed.
Lemma user_rounds_bound g : WF ex0 g → coh g → (user_rounds g ≤ 2 * size (g_usess g))%nat.
Proof.
  intros Hwf Hg. destruct (wf_uq _ _ Hwf) as [Hnd Hin]. unfold user_rounds.
  assert (length (g_uq g) ≤ size (g_usess g))%nat.
  { rewrite <- (size_dom (g_usess g)), <- (size_list_to_set (C := gset Z) (g_uq g)) by done.
    apply subseteq_size. intros i Hi%elem_of_list_to_set%Hin. apply elem_of_dom.
    by eapply coh_uqueued. }
  assert (size (live_users g) ≤ size (g_usess g))%nat; [|lia].
  rewrite <- (size_dom (g_usess g)). apply subseteq_size. intros i Hi%elem_of_live.
  apply elem_of_dom. destruct Hg as [m <-]. cbn in Hi. rewrite lookup_fmap in Hi.
  cbn. rewrite lookup_fmap. destruct (m_users m !! i); [by eexists|done].
Qed.
Lemma shrunk_sizes g g' :
  shrunk g g' → (size (g_user g') ≤ size (g_user g))%nat ∧ (size (g_usess g') ≤ size (g_usess g))%nat.
Proof.
  intros (H1&H2&_&_). split.
  - rewrite <- !size_dom. by apply subseteq_size, subseteq_dom.
  - rewrite <- !size_dom. by apply subseteq_size.
Qed.

Lemma hoare_manager_gc drop fuel g :
  (drop = true → booting = false) → WF ex0 g → coh g → (gc_fuel g ≤ fuel)%nat →
  hoare g (manager_gc drop fuel) (λ _ g', WF ex0 g' ∧ shrunk g g' ∧
    g_tq g' = [] ∧ g_sq g' = [] ∧ g_uq g' = []).
Proof.
  intros Hdrop Hwf Hg Hf. unfold gc_fuel in Hf. unfold manager_gc.
  eapply hoare_bind.
  { apply (hoare_gc_loop _ _ _ g_tq (λ q g, g <| g_tq := q |>) (λ g, length (g_tq g))
      (λ g', WF ex0 g' ∧ shrunk g g')); [done|done| | | |done|lia].
    - intros g1. destruct (g_tq g1); [done|cbn; lia].
    - intros g1 k q [Hwf1 Hsh1] ???. eapply hoare_mono; [by apply hoare_gc_seat|].
      intros _ g2 (?&Hsh2&?). split; [|done]. split; [done|exact (shrunk_trans _ _ _ Hsh1 Hsh2)].
    - split; [done|apply shrunk_refl]. }
  intros _ g1 [[Hwf1 Hsh1] Etq1]. apply hoare_coh; intros Hg1.
  pose proof (shrunk_sizes _ _ Hsh1) as [Hz1 Hy1].
  eapply hoare_bind.
  { apply (hoare_gc_loop _ _ _ g_sq (λ q g, g <| g_sq := q |>) (λ g, length (g_sq g))
      (λ g', WF ex0 g' ∧ shrunk g g' ∧ g_tq g' = [])); [done|done| | | |done|].
    - intros g2. destruct (g_sq g2); [done|cbn; lia].
    - intros g2 k q (Hwf2&Hsh2&Et) ???. eapply hoare_mono; [by apply hoare_gc_session|].
      intros _ g3 (?&Hsh3&Et3&?). split; [|done]. split; [done|].
      split; [exact (shrunk_trans _ _ _ Hsh2 Hsh3)|congruence].
    - done.
    - pose proof (length_sq _ Hwf1 Hg1). lia. }
  intros _ g2 [(Hwf2&Hsh2&Etq2) Esq2]. apply hoare_coh; intros Hg2.
  pose proof (shrunk_sizes _ _ Hsh2) as [Hz2 Hy2].
  eapply hoare_mono.
  { apply (hoare_gc_loop _ _ _ g_uq (λ q g, g <| g_uq := q |>) user_rounds
      (λ g', WF ex0 g' ∧ shrunk g g' ∧ g_tq g' = [] ∧ g_sq g' = [])); [done|done| | | |done|].
    - intros g3. unfold user_rounds. destruct (g_uq g3); [done|cbn; lia].
    - intros g3 k q (Hwf3&Hsh3&Et&Es) ???. eapply hoare_mono; [by apply hoare_gc_user|].
      intros _ g4 (?&Hsh4&Et4&Es4&?). split; [|done]. split; [done|].
      split; [exact (shrunk_trans _ _ _ Hsh3 Hsh4)|]. split; [congruence|].
      rewrite Es in Es4. destruct (g_sq g4) as [|i l]; [done|].
      exfalso. apply (elem_of_nil i), Es4. left.
    - done.
    - pose proof (user_rounds_bound _ Hwf2 Hg2). lia. }
  intros _ g3 [(?&?&?&?) ?]. done.
Qed.
End Collect.
