(* ===== verification/LinksBus.v ===== *)
(** The D-Bus methods of sessions, seats and users never crash and keep the
    links well-formed. *)
From S2P Require Import Prelude Time LoginTypes ActionTypes LoginState LoginEnv Bus Objects SessionDevice Seat Device User Session Lifecycle SessionBus Moves Cols Links LinksObjects LinksDevice LinksSeat LinksPositions LinksAttach LinksHotplug LinksTake LinksUser LinksSession LinksLeader LinksStart LinksStop LinksFree LinksGc.

(** [safe g c]: from links [g], [c] ends, in well-formed links. *)
Definition safe {Bt : Boot} {A} (g : cols) (c : MM A) : Prop := hoare g c (λ _ g', WF ex0 g').

Section Safe.
Context {Bt : Boot} (g : cols) (Hwf : WF ex0 g).

Lemma safe_ret {A} (a : A) : safe g (ret a).
Proof. by apply hoare_ret. Qed.
Lemma safe_soft {A} (c : MM A) R : soft g c R → safe g c.
Proof. intros H. eapply hoare_mono; [exact H|]. by intros ? ? [-> _]. Qed.
Lemma safe_bind {A B} (c : MM A) (k : A → MM B) :
  safe g c → (∀ a g', WF ex0 g' → coh g' → safe g' (k a)) → safe g (bind c k).
Proof.
  intros Hc Hk. eapply hoare_bind; [exact Hc|]. intros a g' Hwf'.
  apply hoare_coh. intros Hg'. by apply Hk.
Qed.
Lemma safe_soft_bind {A B} (c : MM A) (k : A → MM B) R :
  soft g c R → (∀ a, R a → safe g (k a)) → safe g (bind c k).
Proof. apply hoare_soft_bind. Qed.
(** A call followed by the computation of a result. *)
Lemma safe_result {A B} (c : MM A) (f : A → B) : safe g c → safe g (r <- c ;; ret (f r)).
Proof. intros Hc. eapply hoare_bind; [exact Hc|]. intros a g' ?. by apply hoare_ret. Qed.
Lemma safe_ignore {A} (c : MM A) : safe g c → safe g (ignore c).
Proof. apply safe_result. Qed.
Lemma safe_polkit msg a k : safe g k → safe g (polkit msg a k).
Proof.
  intros Hk. unfold polkit. cbv zeta.
  destruct (_ <? 0); [by apply safe_ret|]. destruct (_ =? 0); [by apply safe_ret|done].
Qed.
Lemma safe_attempt {A} (c : Z + A) k : (∀ a, safe g (k a)) → safe g (attempt c k).
Proof. intros Hk. destruct c; [by apply safe_ret|apply Hk]. Qed.
Lemma safe_try {A} (c : MM (outcome + A)) k R :
  soft g c R → (∀ a, R (inr a) → safe g (k a)) → safe g (try c k).
Proof.
  intros Hc Hk. eapply safe_soft_bind; [exact Hc|].
  intros [o|a] Ha; [by apply safe_ret|by apply Hk].
Qed.
Lemma safe_source {A} (c : MM A) : safe g c → safe g (ignore c ;;; ret Reply).
Proof. intros Hc. eapply hoare_bind; [by apply safe_ignore|]. intros ? ? ?. by apply hoare_ret. Qed.
End Safe.

(** From here on the start is over. *)
#[export] Instance running : Boot := false.

(** [hoare] lemmas that promise more than [WF]. *)
Ltac safe_by H := eapply hoare_mono; [eapply H; eauto with links|]; cbn; intros; intuition.

Section SessionBus.
Context {E : Env} {Ok : EnvOk}.
Context (g : cols) (Hwf : WF ex0 g) (Hg : coh g).

Lemma has_owner sid : has_s g sid → ∃ uid, g_user g !! sid = Some (Some uid).
Proof. intros [[uid|] H]; [by exists uid|]. by destruct (wf_owner _ _ Hwf _ H) as [?|[?|[? _]]]. Qed.
Lemma soft_owner_uid sid : has_s g sid → soft g (session_uid sid) (λ _, True).
Proof. intros [uid Hu]%has_owner. by eapply soft_session_uid. Qed.

Lemma soft_session_is_controller sid sender :
  has_s g sid → soft g (session_is_controller sid sender) (λ _, True).
Proof.
  intros Hs. unfold session_is_controller. eapply soft_bind; [by apply soft_get_session|].
  intros. by apply soft_ret.
Qed.
Lemma safe_controller_only sid msg k : has_s g sid → safe g k → safe g (controller_only sid msg k).
Proof.
  intros Hs Hk. eapply safe_soft_bind; [by apply soft_session_is_controller|]. intros [] _; [done|].
  by apply safe_ret.
Qed.
Lemma soft_not_owner sid uid : has_s g sid → soft g (not_owner sid uid) (λ _, True).
Proof.
  intros Hs. unfold not_owner. destruct (uid =? 0); [by apply soft_ret|].
  eapply soft_bind; [by apply soft_owner_uid|]. intros. by apply soft_ret.
Qed.
(** A method for the session's owner. *)
Lemma safe_owner_only {A} sid uid (k : bool → MM A) :
  has_s g sid → (∀ b, safe g (k b)) → safe g (bind (not_owner sid uid) k).
Proof. intros Hs Hk. eapply safe_soft_bind; [by apply soft_not_owner|]. intros b _. apply Hk. Qed.

Lemma safe_method_terminate sid msg : has_s g sid → safe g (bus_session_method_terminate sid msg).
Proof.
  intros Hs. eapply safe_soft_bind; [by apply soft_owner_uid|]. intros _ _.
  apply safe_polkit; [done|]. apply safe_result. safe_by (hoare_session_stop ex0).
Qed.
Lemma safe_method_activate sid msg : has_s g sid → safe g (bus_session_method_activate sid msg).
Proof.
  intros [uid Hu]%has_owner. apply safe_polkit; [done|]. apply safe_result. safe_by hoare_session_activate.
Qed.
Lemma soft_session_send_lock sid b : has_s g sid → soft g (session_send_lock sid b) (λ _, True).
Proof.
  intros Hs. unfold session_send_lock. eapply soft_bind; [by apply soft_get_session|]. intros s _.
  destruct (negb _); [by apply soft_ret|]. eapply soft_bind; [apply soft_emit|].
  intros. by apply soft_ret.
Qed.
Lemma safe_method_lock sid msg : has_s g sid → safe g (bus_session_method_lock sid msg).
Proof.
  intros Hs. eapply safe_soft_bind; [by apply soft_owner_uid|]. intros _ _.
  apply safe_polkit; [done|]. apply safe_result. by eapply safe_soft, soft_session_send_lock.
Qed.
(** The sessions that a loop over the table visits. *)
Lemma soft_session_ids :
  soft g (gets (λ m, e_order_ids (fst <$> map_to_list (m_sessions m)))) (λ ids, ∀ i, i ∈ ids → has_s g i).
Proof.
  apply soft_gets. intros m <- i. rewrite (e_order_ids_ok (EnvOk := Ok)).
  intros ([j s]&->&Hj%elem_of_map_to_list)%list_elem_of_fmap. unfold has_s; cbn.
  rewrite lookup_fmap, Hj. by eexists.
Qed.
Lemma soft_session_send_lock_all b : soft g (session_send_lock_all b) (λ _, True).
Proof.
  unfold session_send_lock_all.
  eapply soft_bind; [by apply soft_session_ids|]. intros ids Hids. apply soft_fold_m; [done|]. intros r i Hin%Hids _.
  eapply soft_bind; [by apply soft_get_session|]. intros s _. destruct (negb _); [by apply soft_ret|].
  eapply soft_bind; [by apply soft_session_send_lock|]. intros. by apply soft_ret.
Qed.

Lemma safe_method_set_idle_hint sid b msg : has_s g sid → safe g (method_set_idle_hint sid b msg).
Proof.
  intros Hs. destruct (has_owner _ Hs) as [uid Hu]. apply safe_attempt; [done|]. intros u.
  apply safe_owner_only; [done|]. intros []; [by apply safe_ret|]. apply safe_result.
  by eapply safe_soft, soft_session_set_idle_hint.
Qed.
Lemma safe_method_set_locked_hint sid b msg :
  has_s g sid → safe g (method_set_locked_hint sid b msg).
Proof.
  intros Hs. apply safe_attempt; [done|]. intros u.
  apply safe_owner_only; [done|]. intros []; [by apply safe_ret|]. apply safe_result.
  by eapply safe_soft, soft_session_set_locked_hint.
Qed.
Lemma safe_method_kill sid w n msg : has_s g sid → safe g (bus_session_method_kill sid w n msg).
Proof.
  intros Hs. unfold bus_session_method_kill. destruct (if isempty w then _ else _); [|by apply safe_ret].
  destruct (negb _); [by apply safe_ret|]. eapply safe_soft_bind; [by apply soft_owner_uid|].
  intros _ _. apply safe_polkit; [done|]. apply safe_result. by eapply safe_soft, soft_session_kill.
Qed.
Lemma safe_method_take_control sid f msg : has_s g sid → safe g (method_take_control sid f msg).
Proof.
  intros Hs. destruct (has_owner _ Hs) as [uid Hu]. apply safe_attempt; [done|]. intros u.
  eapply (safe_soft_bind _ _ _ (λ _, True)).
  { destruct (u =? 0); [by apply soft_ret|]. destruct f; [by apply soft_ret|by apply soft_not_owner]. }
  intros [] _; [by apply safe_ret|]. apply safe_result. safe_by (hoare_session_set_controller ex0).
Qed.
Lemma safe_method_release_control sid msg : has_s g sid → safe g (method_release_control sid msg).
Proof.
  intros Hs. apply safe_controller_only; [done|]. eapply hoare_bind.
  - by apply (hoare_session_drop_controller ex0).
  - intros _ g' (?&_). by apply hoare_ret.
Qed.
Lemma safe_then_reply (c : MM unit) R : soft g c R → safe g (c ;;; ret Reply).
Proof. intros Hc. eapply safe_soft_bind; [exact Hc|]. intros. by apply safe_ret. Qed.
Lemma safe_method_set_type sid t msg : has_s g sid → safe g (method_set_type sid t msg).
Proof.
  intros Hs. unfold method_set_type. destruct (from_string _) as [ty|]; [|by apply safe_ret].
  eapply safe_soft_bind; [by apply soft_get_session|]. intros s _.
  destruct (negb _); [by apply safe_ret|]. apply safe_controller_only; [done|].
  by eapply safe_then_reply, soft_session_set_type.
Qed.
Lemma soft_session_send_upgrade_reply sid e :
  has_s g sid → soft g (session_send_upgrade_reply sid e) (λ _, True).
Proof.
  intros Hs. unfold session_send_upgrade_reply. eapply soft_bind; [by apply soft_get_session|].
  intros s _. destruct (negb _); [by apply soft_ret|]. eapply soft_bind; [soft_upd|]. intros _ _.
  destruct e; [by apply soft_ret|].
  eapply soft_bind; [apply soft_ignore; by eapply soft_session_save|]. intros. by apply soft_ret.
Qed.
Lemma safe_method_set_class sid c msg : has_s g sid → safe g (method_set_class sid c msg).
Proof.
  intros Hs. unfold method_set_class. destruct (from_string _) as [cl|]; [|by apply safe_ret].
  destruct (negb _); [by apply safe_ret|]. eapply safe_soft_bind; [by apply soft_get_session|].
  intros s _. case_bool_decide; [by apply safe_ret|]. destruct (negb _); [by apply safe_ret|].
  destruct (s_upgrade_message s); [by apply safe_ret|]. apply safe_attempt; [done|]. intros u.
  apply safe_owner_only; [done|]. intros []; [by apply safe_ret|].
  eapply safe_soft_bind; [by eapply soft_session_set_class|]. intros _ _.
  eapply safe_soft_bind; [soft_upd|]. intros _ _. by eapply safe_soft, soft_session_send_upgrade_reply.
Qed.
Lemma safe_method_set_display sid d msg : has_s g sid → safe g (method_set_display sid d msg).
Proof.
  intros Hs. apply safe_controller_only; [done|].
  eapply safe_soft_bind; [by apply soft_get_session|]. intros s _.
  destruct (negb _); [by apply safe_ret|]. apply safe_result. by eapply safe_soft, soft_session_set_display.
Qed.
Lemma safe_method_set_tty sid fd msg : has_s g sid → safe g (method_set_tty sid fd msg).
Proof.
  intros Hs. apply safe_controller_only; [done|].
  destruct (_ <? 0); [by apply safe_ret|]. destruct (negb _); [by apply safe_ret|].
  destruct (fd_path fd); [by apply safe_ret|]. apply safe_attempt; [done|]. intros q.
  apply safe_result. by eapply safe_soft, soft_session_set_tty.
Qed.
End SessionBus.

(** * Devices *)

Section Devices.
Context {E : Env} {Ok : EnvOk}.
Context (g : cols) (Hwf : WF ex0 g) (Hg : coh g).

(** Whether a session has taken a device is a matter of the links. *)
Lemma row_taken sid s dev : row_s g sid s → is_some (s_devices s !! dev) = true ↔ g_taken g sid dev.
Proof.
  intros Hr. assert (Hds : g_sds g !! sid = Some (sds_of s)) by apply Hr.
  unfold g_taken. rewrite Hds. unfold sds_of. split.
  - intros H. exists (sds_of s). split; [done|]. unfold sds_of. rewrite lookup_fmap.
    destruct (s_devices s !! dev); [by eexists|done].
  - intros (ds&[= <-]&H). rewrite lookup_fmap, fmap_is_Some in H. by destruct H as [? ->].
Qed.

Lemma safe_session_device_free sid dev :
  g_taken g sid dev → hoare g (session_device_free sid dev) (λ _ g', WF ex0 g' ∧ same_but_sds g g' ∧
    ¬ g_taken g' sid dev).
Proof.
  intros (ds&Hds&[n Hn]). eapply hoare_mono; [by eapply (hoare_session_device_free' ex0)|].
  intros _ g' (?&?&Hds'&_). split_and!; [done..|]. intros (ds'&Hd&Ht). rewrite Hds', lookup_insert_eq in Hd.
  injection Hd as <-. rewrite lookup_delete_eq in Ht. by destruct Ht.
Qed.
Lemma has_s_same_sds g' sid : same_but_sds g g' → has_s g sid → has_s g' sid.
Proof. intros ->. done. Qed.
Lemma safe_free_and_say sid dev (o : outcome) : g_taken g sid dev → safe g (session_device_free sid dev ;;; ret o).
Proof.
  intros Ht. eapply hoare_bind; [by apply safe_session_device_free|]. intros _ g' (?&_).
  by apply hoare_ret.
Qed.

Lemma safe_with_taken sid major minor msg k :
  has_s g sid → (∀ dev, g_taken g sid dev → safe g (k dev)) →
  safe g (with_taken_device sid major minor msg k).
Proof.
  intros Hs Hk. unfold with_taken_device. destruct (negb _); [by apply safe_ret|].
  apply safe_controller_only; [done..|]. eapply safe_soft_bind; [by apply soft_get_session|].
  intros s Hr. cbv zeta. destruct (is_some _) eqn:Et; [|by apply safe_ret].
  apply Hk. by apply (row_taken _ s).
Qed.
Lemma safe_method_release_device sid major minor msg :
  has_s g sid → safe g (method_release_device sid major minor msg).
Proof.
  intros Hs. apply safe_with_taken; [done|]. intros dev Ht.
  eapply hoare_bind; [by apply safe_session_device_free|]. intros _ g' (?&Hsame&_).
  apply hoare_coh; intros Hg'. pose proof (has_s_same_sds _ _ Hsame Hs).
  eapply safe_then_reply; [done|]. apply soft_ignore. by eapply soft_session_save.
Qed.
Lemma safe_method_pause_device_complete sid major minor msg :
  has_s g sid → safe g (method_pause_device_complete sid major minor msg).
Proof.
  intros Hs. apply safe_with_taken; [done|]. intros dev Ht.
  eapply hoare_bind; [by apply hoare_session_device_complete_pause|]. intros _ g' (?&_).
  by apply hoare_ret.
Qed.
End Devices.

Section TakeDevice.
Context {E : Env} {Ok : EnvOk}.

(** Once the device is taken: it stays, or goes again on an error. *)
Definition take_tail (sid : string) (dev : Z) (msg : message) : MM outcome :=
  r <- session_device_save sid dev ;;
  if r <? 0 then session_device_free sid dev ;;; ret (Errno r)
  else if msg_reply msg <? 0 then session_device_free sid dev ;;; ret (Errno (msg_reply msg))
  else
    sd <- get_sd sid dev ;;
    ignore (session_save sid) ;;;
    ret (ReplyDevice (sd_fd sd) (negb (sd_active sd))).

(** An answer to TakeDevice says whether the device is taken. *)
Definition answers_taken (o : outcome) (taken : Prop) : Prop :=
  match o with ReplyDevice _ _ => taken | Errno _ => ¬ taken | _ => False end.

Lemma hoare_take_tail g sid dev msg :
  WF ex0 g → coh g → g_taken g sid dev →
  hoare g (take_tail sid dev msg) (λ o g', WF ex0 g' ∧
    answers_taken o (g_taken g' sid dev)).
Proof.
  intros Hwf Hg Ht. pose proof Ht as (ds&Hds&[n Hn]). unfold take_tail.
  eapply hoare_bind; [by eapply hoare_session_device_save|]. intros r g' ->.
  assert (Hfree : ∀ r, hoare g (session_device_free sid dev ;;; ret (Errno r)) (λ o g', WF ex0 g' ∧
    answers_taken o (g_taken g' sid dev))).
  { intros r'. eapply hoare_bind; [by apply safe_session_device_free|]. intros _ g' (?&_&?). by apply hoare_ret. }
  destruct (r <? 0); [done|]. destruct (_ <? 0); [done|].
  eapply hoare_soft_bind; [by eapply soft_get_sd|]. intros sd _.
  eapply hoare_soft_bind; [apply soft_ignore; eapply soft_session_save; eauto with links|].
  intros _ _. by apply hoare_ret.
Qed.

Lemma safe_method_take_device g sid major minor msg :
  WF ex0 g → coh g → has_s g sid → safe g (method_take_device sid major minor msg).
Proof.
  intros Hwf Hg Hs. unfold method_take_device. destruct (negb _); [by apply safe_ret|].
  eapply safe_soft_bind; [by apply soft_get_session|]. intros s Hr.
  destruct (negb _); [by apply safe_ret|]. apply safe_controller_only; [done..|]. cbv zeta.
  destruct (is_some _) eqn:Et.
  { apply safe_free_and_say; [done..|]. by apply (row_taken _ _ s). }
  assert (Hnt : ¬ g_taken g sid (makedev major minor)).
  { intros Ht. apply (row_taken _ _ s) in Ht; [congruence|done]. }
  eapply hoare_bind; [by apply hoare_session_device_new|]. intros r g' (Hwf'&_&Ht&_).
  apply hoare_coh; intros Hg'. destruct (r <? 0) eqn:Er; [by apply safe_ret|].
  apply Z.ltb_ge in Er. eapply hoare_mono; [apply hoare_take_tail; [done..|by apply Ht]|]. by intros ? ? [? _].
Qed.
End TakeDevice.

(** * Seats and users *)

Section SeatUserBus.
Context {E : Env} {Ok : EnvOk}.
Context (g : cols) (Hwf : WF ex0 g) (Hg : coh g).

Lemma safe_seat_stop_sessions k b : has_t g k → safe g (seat_stop_sessions k b).
Proof.
  intros Hk. unfold seat_stop_sessions. eapply safe_soft_bind; [by apply soft_get_seat|]. intros t Hr.
  set (I := λ (l : list string) g', WF ex0 g' ∧ same_objs g g' ∧ ∀ i, i ∈ l → has_s g i).
  eapply hoare_mono; [apply (hoare_fold_m _ _ _ _ I)|].
  - split; [done|]. split; [apply same_objs_refl|]. intros i Hi. eauto with links.
  - intros r sid l' g1 (Hwf1&Ho1&Hl1). apply hoare_coh; intros Hg1.
    eapply hoare_bind; [eapply (hoare_session_stop ex0); [done|done|]|].
    { unfold same_objs in Ho1. rewrite Ho1. apply (Hl1 sid). left. }
    intros x g2 (?&Ho2). apply hoare_ret. split; [done|].
    split; [exact (same_objs_trans _ _ _ Ho1 Ho2)|]. intros i Hi. apply Hl1. by right.
  - by intros _ g' (?&_).
Qed.
Lemma safe_method_seat_terminate k msg : has_t g k → safe g (bus_seat_method_terminate k msg).
Proof.
  intros Hk. apply safe_polkit; [done|]. apply safe_result. by apply safe_seat_stop_sessions.
Qed.
Lemma safe_activate_on_seat k name msg : safe g (seat_method_activate_session k name msg).
Proof.
  eapply safe_soft_bind; [apply soft_lookup_session|]. intros [s|] Ho; [|by apply safe_ret].
  destruct (has_owner g Hwf name) as [uid Hu]; [apply Ho; by eexists|].
  destruct (negb _); [by apply safe_ret|]. apply safe_polkit; [done|]. apply safe_result.
  safe_by hoare_session_activate.
Qed.
Lemma safe_method_switch_to k n msg : has_t g k → safe g (method_switch_to k n msg).
Proof.
  intros Hk. unfold method_switch_to. destruct (n <=? 0); [by apply safe_ret|].
  apply safe_polkit; [done|]. apply safe_result. safe_by hoare_seat_switch_to.
Qed.
Lemma safe_method_switch_to_next k msg : has_t g k → safe g (method_switch_to_next k msg).
Proof.
  intros Hk. apply safe_polkit; [done|]. apply safe_result. safe_by hoare_seat_switch_to_next.
Qed.
Lemma safe_method_switch_to_previous k msg : has_t g k → safe g (method_switch_to_previous k msg).
Proof.
  intros Hk. apply safe_polkit; [done|]. apply safe_result. safe_by hoare_seat_switch_to_previous.
Qed.
Lemma safe_method_user_terminate uid msg : has_u g uid → safe g (bus_user_method_terminate uid msg).
Proof.
  intros Hu. eapply safe_soft_bind; [by apply soft_get_user|]. intros u _.
  apply safe_polkit; [done|]. apply safe_result. safe_by hoare_user_stop.
Qed.
Lemma soft_user_kill uid n : has_u g uid → soft g (user_kill uid n) (λ _, True).
Proof.
  intros Hu. unfold user_kill. eapply soft_bind; [by apply soft_get_user|]. intros u Hr.
  apply soft_fold_m; [done|]. intros r sid Hin _.
  eapply soft_bind; [apply soft_session_kill; eauto with links|]. intros. by apply soft_ret.
Qed.
Lemma safe_method_user_kill uid n msg : has_u g uid → safe g (bus_user_method_kill uid n msg).
Proof.
  intros Hu. eapply safe_soft_bind; [by apply soft_get_user|]. intros u _.
  apply safe_polkit; [done|]. destruct (negb _); [by apply safe_ret|].
  apply safe_result. by eapply safe_soft, soft_user_kill.
Qed.
End SeatUserBus.
