(* ===== verification/LinksCreate.v ===== *)
(** CreateSession never crashes and keeps the links well-formed; the search for
    a free session id terminates. *)
From Stdlib Require Import Ascii.
From stdpp Require Import pretty.
From S2P Require Import Prelude Time LoginTypes ActionTypes LoginState LoginEnv Bus Escape Parse Objects SessionDevice Seat Device User Session Lifecycle SessionBus ManagerBus Moves Cols Links LinksObjects LinksDevice LinksSeat LinksPositions LinksAttach LinksHotplug LinksTake LinksUser LinksSession LinksLeader LinksStart LinksStop LinksFree LinksGc LinksBus.

(** * A free session id *)

Lemma counter_id_inj a b : counter_id a = counter_id b → a = b.
Proof. unfold counter_id. intros H. apply (inj pretty). by injection H. Qed.

(** The ids tried from the counter [n] on, when a number is written with [f]. *)
Section Tried.
Context (f : Z → string).
Definition tried (n : Z) (k : nat) : list string := (λ i, f (u64 (n + 1 + Z.of_nat i))) <$> seq 0 k.
Lemma tried_S n k : tried n (S k) = f (u64 (n + 1)) :: tried (u64 (n + 1)) k.
Proof.
  unfold tried. cbn. f_equal; [f_equal; f_equal; lia|]. rewrite <- seq_shift, <- list_fmap_compose.
  apply list_fmap_ext. intros _ i _. cbn. f_equal. unfold u64.
  rewrite <- (Z.add_assoc (_ mod _)), Zplus_mod_idemp_l. f_equal. lia.
Qed.
Context (Hf : ∀ a b, f a = f b → a = b).
Lemma NoDup_tried n k : Z.of_nat k ≤ 2 ^ 64 → NoDup (tried n k).
Proof.
  intros Hk. unfold tried. apply NoDup_fmap_2_strong; [|apply NoDup_seq].
  intros i j Hi%elem_of_seq Hj%elem_of_seq H%Hf. unfold u64 in H.
  assert (Hd : (Z.of_nat i - Z.of_nat j) mod 2 ^ 64 = 0).
  { replace (Z.of_nat i - Z.of_nat j) with ((n + 1 + Z.of_nat i) - (n + 1 + Z.of_nat j)) by lia.
    rewrite Zminus_mod, H, Z.sub_diag. done. }
  apply Z.mod_divide in Hd as [q Hq]; [|done]. nia.
Qed.
(** More ids than sessions: one of them is free. *)
Lemma tried_free {A} (s : gmap string A) n k :
  (size s < k)%nat → Z.of_nat k ≤ 2 ^ 64 → ∃ id, id ∈ tried n k ∧ s !! id = None.
Proof.
  intros Hs Hk.
  destruct (decide (Forall (λ id, id ∈ dom s) (tried n k))) as [Hall|Hex].
  - exfalso. assert (Hsub : (list_to_set (tried n k) : gset string) ⊆ dom s).
    { intros i Hi%elem_of_list_to_set. by eapply Forall_forall in Hall. }
    apply subseteq_size in Hsub. rewrite size_list_to_set in Hsub by by apply NoDup_tried.
    rewrite size_dom in Hsub. unfold tried in Hsub. rewrite length_fmap, length_seq in Hsub. lia.
  - apply not_Forall_Exists in Hex; [|apply _]. apply Exists_exists in Hex as (id&Hin&Hid).
    exists id. split; [done|]. by apply not_elem_of_dom in Hid.
Qed.
End Tried.

Section Create.
Context {E : Env} {Ok : EnvOk}.

(** [do ... while (hashmap_contains(m->sessions, id))] ends. *)
Lemma wp_next_session_id k m :
  (∃ id, id ∈ tried counter_id (m_session_counter m) k ∧ m_sessions m !! id = None) →
  wp (next_session_id k) (λ id m', m_sessions m' !! id = None ∧ cols_of m' = cols_of m ∧
    id ∈ tried counter_id (m_session_counter m) k ∧
    ∃ n, m_session_counter m' = n ∧ id = counter_id n) m.
Proof.
  revert m. induction k as [|k IH]; intros m (id&Hin&Hid).
  { by apply elem_of_nil in Hin. }
  rewrite tried_S in *. cbn [next_session_id]. apply wp_bind, wp_modify.
  set (m1 := m <| m_session_counter := u64 (m_session_counter m + 1) |>).
  change (u64 (m_session_counter m + 1)) with (m_session_counter m1) in Hin |- *.
  apply wp_bind, wp_gets, wp_bind, wp_gets.
  destruct (m_sessions m1 !! counter_id (m_session_counter m1)) as [s|] eqn:Es.
  - eapply wp_mono; [apply (IH m1)|].
    + exists id. split; [|done]. apply elem_of_cons in Hin as [->|Hin]; [|done].
      change (m_sessions m1) with (m_sessions m) in Es. congruence.
    + intros id' m' (?&?&?&?). split_and!; [done..|by right|done].
  - apply wp_ret. split_and!; [done..|left|eauto].
Qed.

(** The ids that are made up are neither "self" nor "auto". *)
Definition plain_id (id : string) : Prop := SESSION_IS_SELF id = false ∧ SESSION_IS_AUTO id = false.
Lemma plain_counter_id n : plain_id (counter_id n).
Proof.
  unfold plain_id, SESSION_IS_SELF, SESSION_IS_AUTO, isempty, counter_id.
  rewrite !bool_decide_false by by intros [=]. done.
Qed.
Lemma plain_audit_id n : 0 < n → plain_id (pretty n).
Proof.
  intros (c&t&->&Hc&_)%pretty_pos_head.
  assert (c ≠ "s"%char ∧ c ≠ "a"%char) as [? ?].
  { apply (nonzero_digit_cases (λ c, negb (bool_decide (c = "s"%char)) && negb (bool_decide (c = "a"%char))))
      in Hc; [|done]. split; intros ->; done. }
  unfold plain_id, SESSION_IS_SELF, SESSION_IS_AUTO, isempty.
  rewrite !bool_decide_false by by intros [=]. done.
Qed.

Lemma soft_create_id g leader :
  Z.of_nat (size (g_user g)) < UINT_MAX →
  soft g (create_id leader) (λ id, ¬ has_s g id ∧ plain_id id).
Proof.
  intros Hroom. unfold create_id.
  eapply (soft_bind _ _ _ (λ o, ∀ id, o = Some id → ¬ has_s g id ∧ plain_id id)).
  { unfold create_audit_id. cbv zeta. destruct (audit_session_is_valid _) eqn:Ev; [|by apply soft_ret].
    eapply soft_bind; [apply soft_lookup_session|]. intros [s|] Ho; apply soft_ret; [done|].
    intros id [= <-]. split; [intros H%Ho; by destruct H|]. apply plain_audit_id.
    by apply andb_prop in Ev as [?%Z.ltb_lt _]. }
  intros [id|] Hid; [apply soft_ret; by apply Hid|].
  intros m <-. cbn in Hroom. rewrite map_size_fmap in Hroom. apply wp_bind, wp_gets.
  eapply wp_mono; [apply wp_next_session_id, (tried_free _ counter_id_inj); [lia|]|].
  { unfold UINT_MAX in Hroom. lia. }
  cbn. intros id' m' (Hn&Hc&_&n&_&->). rewrite Hc. split; [done|]. split; [|apply plain_counter_id].
  intros [? Hu]. rewrite <- Hc in Hu. cbn in Hu. rewrite lookup_fmap, Hn in Hu. done.
Qed.

(** ** The new session's user and fields *)

Definition same_but_users (g g' : cols) : Prop :=
  g' = g <| g_usess := g_usess g' |> <| g_display := g_display g' |> <| g_ulast := g_ulast g' |>
         <| g_utimer := g_utimer g' |> <| g_uqueued := g_uqueued g' |> <| g_live := g_live g' |>.

Lemma hoare_manager_add_user_by_uid g uid :
  WF ex0 g → coh g → uid_is_valid uid = true →
  hoare g (manager_add_user_by_uid uid) (λ r g', WF ex0 g' ∧ same_but_users g g' ∧
    ∀ i, r = inr i → has_u g' i).
Proof.
  intros Hwf Hg Hv. unfold manager_add_user_by_uid.
  eapply hoare_soft_bind; [by apply soft_assert|]. intros _ _.
  destruct (e_userdb_by_uid uid) as [r|ur].
  { apply hoare_ret. split_and!; [done|by destruct g|done]. }
  eapply hoare_bind; [by apply (hoare_manager_add_user ex0)|]. intros r g' (?&Hs&Hu).
  apply hoare_ret. split; [done|]. split.
  - destruct Hs as [-> | ->]; by destruct g.
  - destruct (r <? 0) eqn:Er; [done|]. intros i [= <-]. apply Hu. by apply Z.ltb_ge.
Qed.

Lemma hoare_set_fields g sid a t c v :
  WF ex0 g → has_s g sid → g_seat g !! sid = Some None →
  hoare g (upd_session sid (create_set_fields a t c v)) (λ _ g', WF ex0 g' ∧
    g' = g <| g_vtnr := <[sid := v]> (g_vtnr g) |>).
Proof.
  intros Hwf Hs Hn. eapply hoare_mono; [by apply hoare_upd_session|]. intros _ g' (s&Hr&->).
  assert (put_s g sid (create_set_fields a t c v s) = g <| g_vtnr := <[sid := v]> (g_vtnr g) |>)
    as -> by (same_row; done).
  split; [|done]. destruct Hwf; constructor; cbn; try assumption.
  intros i w k [[<- _]|[_ ?]]%lookup_insert_Some ?; [congruence|eauto].
Qed.

Lemma safe_create_fail g session user r :
  WF ex0 g → coh g → (∀ sid, session = Some sid → has_s g sid) → (∀ uid, user = Some uid → has_u g uid) →
  safe g (create_fail session user r).
Proof.
  intros Hwf Hg Hs Hu. unfold create_fail.
  apply (hoare_bind _ _ _ (λ _ g1, WF ex0 g1 ∧ g_usess g1 = g_usess g)).
  { destruct session as [sid|]; [|by apply hoare_ret].
    eapply hoare_mono; [apply (hoare_session_add_to_gc_queue ex0); auto|].
    intros _ g1 (?&Hsq&_). split; [done|]. by rewrite Hsq. }
  intros _ g1 (?&Eu). apply hoare_coh; intros Hg1. apply safe_bind.
  - destruct user as [uid|]; [|by apply safe_ret].
    safe_by (hoare_user_add_to_gc_queue ex0). unfold has_u. rewrite Eu. by apply Hu.
  - intros _ g2 ? _. by apply safe_ret.
Qed.

(** ** The reply *)

Lemma safe_session_send_create_reply g sid e :
  WF ex0 g → coh g → has_s g sid → safe g (session_send_create_reply sid e).
Proof.
  intros Hwf Hg Hs. unfold session_send_create_reply.
  eapply safe_soft_bind; [by apply soft_get_session|]. intros s _.
  destruct (negb _); [by apply safe_ret|]. eapply safe_soft_bind; [soft_upd|]. intros _ _.
  destruct e; [by apply safe_ret|].
  eapply hoare_bind; [by apply (hoare_session_create_fifo ex0)|]. intros fd g1 (Hwf1&Hsm).
  apply hoare_coh; intros Hg1. destruct (fd <? 0); [by apply safe_ret|].
  assert (Hs1 : has_s g1 sid) by (rewrite Hsm; exact Hs).
  destruct (has_owner _ Hwf1 _ Hs1) as [uid Hu].
  eapply safe_soft_bind; [apply soft_ignore; by eapply soft_session_save|]. intros _ _.
  eapply safe_soft_bind; [by apply soft_get_session|]. intros s1 Hr1.
  assert (s_user s1 = Some uid) as -> by (destruct Hr1 as (?&_); congruence).
  eapply safe_soft_bind; [by apply (soft_ret _ _ (λ z, z = uid))|]. intros ? ->.
  eapply safe_soft_bind; [apply soft_ignore; eapply soft_user_save; eauto with links|]. intros _ _.
  eapply safe_soft_bind; [apply soft_get_user; eauto with links|]. intros u _. by apply safe_ret.
Qed.

(** ** Setting the new session up *)

(** [k] is a seat the session with this VT can be put on. *)
Definition seat_for (g : cols) (seat : option string) (vtnr : Z) : Prop :=
  ∀ k, seat = Some k → has_t g k ∧ 0 ≤ vtnr < UINT_MAX.

Lemma hoare_attach_if g seat sid uid vtnr :
  WF ex0 g → coh g → has_room g → seat_for g seat vtnr → g_vtnr g !! sid = Some vtnr →
  g_seat g !! sid = Some None → g_user g !! sid = Some (Some uid) →
  hoare g (match seat with Some k => seat_attach_session k sid | None => ret 0 end)
    (λ _ g', WF ex0 g' ∧ same_but_seating g g').
Proof.
  intros Hwf Hg Hroom Hseat Hv Hn Hu. destruct seat as [k|].
  - destruct (Hseat k eq_refl) as [? ?]. eapply hoare_seat_attach_session; eauto.
    intros v Hv'. congruence.
  - apply hoare_ret. split; [done|apply same_but_seating_refl].
Qed.

Lemma safe_create_session_setup g a t c seat vtnr leader sid uid msg :
  WF ex0 g → coh g → has_room g → seat_for g seat vtnr → pidref_is_set leader = true →
  g_seat g !! sid = Some None → g_user g !! sid = Some (Some uid) →
  safe g (create_session_setup a t c seat vtnr leader sid uid msg).
Proof.
  intros Hwf Hg Hroom Hseat Hl Hn Hu. unfold create_session_setup.
  assert (Hfail : ∀ g' r, WF ex0 g' → coh g' → g_user g' !! sid = Some (Some uid) →
    safe g' (create_fail (Some sid) (Some uid) r)).
  { intros g' r Hwf' Hg' Hu'. apply safe_create_fail; [done..| |]; intros ? [= <-]; eauto with links. }
  eapply hoare_bind; [apply (hoare_session_set_leader_consume ex0); eauto with links|].
  intros r g1 (Hwf1&Hs1). apply hoare_coh; intros Hg1.
  assert (Hu1 : g_user g1 !! sid = Some (Some uid)) by (rewrite Hs1; exact Hu).
  destruct (r <? 0); [by apply Hfail|]. clear r.
  eapply hoare_bind.
  { eapply (hoare_set_fields g1 sid); [done|eauto with links|]. rewrite Hs1. exact Hn. }
  intros _ g2 (Hwf2&E2). apply hoare_coh; intros Hg2.
  assert (Hu2 : g_user g2 !! sid = Some (Some uid)) by (rewrite E2; exact Hu1).
  eapply hoare_soft_bind; [apply soft_when; intros _; soft_upd|]. intros _ _.
  eapply hoare_bind.
  { apply (hoare_attach_if g2 seat sid uid vtnr); try done.
    - rewrite E2, Hs1. exact Hroom.
    - intros k Hk. rewrite E2, Hs1. by apply Hseat.
    - rewrite E2. cbn. by rewrite lookup_insert_eq.
    - rewrite E2, Hs1. exact Hn. }
  intros r g3 (Hwf3&Hs3). apply hoare_coh; intros Hg3.
  assert (Hu3 : g_user g3 !! sid = Some (Some uid)) by (rewrite Hs3; exact Hu2).
  destruct (r <? 0); [by apply Hfail|]. clear r. destruct (_ <? 0); [by apply Hfail|].
  eapply hoare_bind; [apply hoare_session_start; eauto with links|]. intros r g4 (Hwf4&Hs4).
  apply hoare_coh; intros Hg4. destruct (same_objs_live_user _ _ Hs4) as [Eu4 _].
  assert (Hu4 : g_user g4 !! sid = Some (Some uid)) by by rewrite Eu4.
  destruct (r <? 0); [by apply Hfail|]. clear r. destruct (_ <? 0); [by apply Hfail|].
  eapply safe_soft_bind; [soft_upd|]. intros _ _.
  apply safe_session_send_create_reply; eauto with links.
Qed.

Lemma safe_create_session_register g a t c seat vtnr leader id msg :
  WF ex0 g → coh g → Z.of_nat (size (g_user g)) < g_limit g → seat_for g seat vtnr →
  pidref_is_set leader = true → uid_is_valid (ca_uid a) = true → ¬ has_s g id →
  safe g (create_session_register a t c seat vtnr leader id msg).
Proof.
  intros Hwf Hg Hroom Hseat Hl Hv Hid. unfold create_session_register.
  eapply hoare_bind; [by apply hoare_manager_add_user_by_uid|]. intros u g1 (Hwf1&Hs1&Hu1).
  apply hoare_coh; intros Hg1. destruct u as [r|uid]; [by apply safe_create_fail|].
  specialize (Hu1 uid eq_refl).
  assert (Hid1 : ¬ has_s g1 id) by (rewrite Hs1; exact Hid).
  eapply hoare_bind; [by apply hoare_manager_add_session|]. intros r g2 Hr2.
  apply hoare_coh; intros Hg2. cbv beta in Hr2. destruct (r <? 0).
  { subst g2. apply safe_create_fail; [done..|]. by intros ? [= <-]. }
  destruct Hr2 as [[? _]|(_&Hwf2&E2)]; [done|].
  assert (Hn2 : g_user g2 !! id = Some None) by (rewrite E2; cbn; by rewrite lookup_insert_eq).
  eapply hoare_soft_bind; [apply soft_get_session; by eexists|]. intros s Hr.
  assert (s_user s = None) as -> by (destruct Hr as (?&_); congruence). cbn [is_some].
  eapply hoare_bind.
  { apply (hoare_session_set_user g2 id uid); [done..|]. by rewrite E2. }
  intros _ g3 (Hwf3&l&_&Hs3). apply hoare_coh; intros Hg3.
  assert (Hsize : size (g_user g3) = S (size (g_user g))).
  { rewrite Hs3; cbn. rewrite map_size_insert_Some by by rewrite Hn2. rewrite E2; cbn.
    rewrite map_size_insert_None; [by rewrite Hs1|]. apply eq_None_not_Some. exact Hid1. }
  apply safe_create_session_setup; try done.
  - unfold has_room. pose proof (wf_limit _ _ Hwf). rewrite Hsize. lia.
  - intros k Hk. destruct (Hseat k Hk). split; [|done]. rewrite Hs3; cbn. rewrite E2; cbn. by rewrite Hs1.
  - rewrite Hs3; cbn. rewrite E2; cbn. by rewrite lookup_insert_eq.
  - rewrite Hs3; cbn. by rewrite lookup_insert_eq.
Qed.
End Create.
