(* ===== verification/LinksManager.v ===== *)
(** Every method of the manager's D-Bus object and every event source keeps the
    links well-formed and never crashes, and so does a round of the main loop. *)
From stdpp Require Import pretty.
From S2P Require Import Prelude Time LoginTypes ActionTypes LoginState LoginEnv Bus Escape Parse Objects SessionDevice Seat Device User Session Lifecycle SessionBus ManagerBus Events Moves Cols Links LinksObjects LinksDevice LinksSeat LinksPositions LinksAttach LinksHotplug LinksTake LinksUser LinksSession LinksLeader LinksStart LinksStop LinksFree LinksGc LinksBus LinksCreate.

Section Find.
Context {E : Env} {Ok : EnvOk} (g : cols) (Hwf : WF ex0 g) (Hg : coh g).

(** * Finding the objects a message names *)

Definition found {A} (P : A → Prop) (o : outcome + A) : Prop := match o with inl _ => True | inr a => P a end.

Lemma soft_lookup_user uid :
  soft g (gets (λ m, m_users m !! uid)) (λ o, (is_Some o → has_u g uid) ∧
    ∀ u sid, o = Some u → u_display u = Some sid → has_s g sid).
Proof.
  apply soft_gets. intros m <-. unfold has_u; cbn. rewrite lookup_fmap, fmap_is_Some. split; [done|].
  intros u sid Hu Hd. apply (has_s_user _ _ (Some uid)), (wf_display _ _ Hwf). cbn.
  by rewrite lookup_fmap, Hu; cbn; rewrite Hd.
Qed.
Lemma soft_get_sender_session msg b : soft g (get_sender_session msg b) (found (has_s g)).
Proof.
  unfold get_sender_session. destruct (msg_session msg) as [r|name].
  - destruct (negb _); [by apply soft_ret|]. destruct b; [|by apply soft_ret]. cbn [negb].
    destruct (msg_owner_uid msg) as [r'|uid].
    { apply soft_ret. by destruct (negb _). }
    eapply soft_bind; [apply soft_lookup_user|]. intros [u|] [_ Hd]; apply soft_ret; [|done].
    destruct (u_display u) as [sid|] eqn:Eu; [|done]. by eapply Hd.
  - eapply soft_bind; [apply soft_lookup_session|]. intros [s|] Ho; apply soft_ret; [|done].
    apply Ho. by eexists.
Qed.
Lemma soft_get_session_from_creds msg name :
  soft g (manager_get_session_from_creds msg name) (found (has_s g)).
Proof.
  unfold manager_get_session_from_creds. destruct (SESSION_IS_SELF _); [apply soft_get_sender_session|].
  destruct (SESSION_IS_AUTO _); [apply soft_get_sender_session|].
  eapply soft_bind; [apply soft_lookup_session|]. intros [s|] Ho; apply soft_ret; [|done].
  apply Ho. by eexists.
Qed.
Lemma soft_get_user_from_creds msg uid :
  soft g (manager_get_user_from_creds msg uid) (found (has_u g)).
Proof.
  unfold manager_get_user_from_creds, get_sender_user. destruct (negb _).
  - destruct (msg_owner_uid msg); [by apply soft_ret|].
    eapply soft_bind; [apply soft_lookup_user|]. intros [u|] [Hu _]; apply soft_ret; [|done].
    apply Hu. by eexists.
  - eapply soft_bind; [apply soft_lookup_user|]. intros [u|] [Hu _]; apply soft_ret; [|done].
    apply Hu. by eexists.
Qed.
Lemma soft_get_seat_from_creds msg name :
  soft g (manager_get_seat_from_creds msg name) (found (has_t g)).
Proof.
  unfold manager_get_seat_from_creds. destruct (_ || _).
  - unfold try_out. eapply soft_bind; [apply soft_get_session_from_creds|].
    intros [o|sid] Hs; [by apply soft_ret|]. eapply soft_bind; [by apply soft_get_session|].
    intros s Hr. apply soft_ret. destruct (s_seat s) as [k|] eqn:Ek; [|done]. cbn. eauto with links.
  - eapply soft_bind; [apply soft_lookup_seat|]. intros [s|] Ho; apply soft_ret; [|done].
    apply Ho. by eexists.
Qed.
Lemma safe_on_session msg name k :
  (∀ sid, has_s g sid → safe g (k sid)) → safe g (try (manager_get_session_from_creds msg name) k).
Proof. intros Hk. eapply safe_try; [done|apply soft_get_session_from_creds|apply Hk]. Qed.
Lemma safe_on_seat msg name k :
  (∀ i, has_t g i → safe g (k i)) → safe g (try (manager_get_seat_from_creds msg name) k).
Proof. intros Hk. eapply safe_try; [done|apply soft_get_seat_from_creds|apply Hk]. Qed.
Lemma safe_on_user msg uid k :
  (∀ i, has_u g i → safe g (k i)) → safe g (try (manager_get_user_from_creds msg uid) k).
Proof. intros Hk. eapply safe_try; [done|apply soft_get_user_from_creds|apply Hk]. Qed.

(** * CreateSession *)

Lemma soft_seat0 : soft g (gets m_seat0) (λ o, o = g_seat0 g).
Proof. apply soft_gets. by intros m <-. Qed.
Lemma has_seat0 k : g_seat0 g = Some k → has_t g k.
Proof. destruct (wf_seat0 _ _ Hwf) as (k'&b'&->&?&_). intros [= <-]. by eapply coh_tstarted. Qed.

Lemma soft_create_find_seat cseat :
  soft g (create_find_seat cseat) (found (λ seat, ∀ k, seat = Some k → has_t g k)).
Proof.
  unfold create_find_seat. destruct (isempty _); [by apply soft_ret|].
  eapply soft_bind; [apply soft_lookup_seat|]. intros [s|] Ho; apply soft_ret; [|done].
  cbn. intros k [= <-]. apply Ho. by eexists.
Qed.
Lemma soft_create_tty_seat seat vtnr tty :
  (∀ k, seat = Some k → has_t g k) →
  soft g (create_tty_seat seat vtnr tty) (found (λ p, ∀ k, fst p = Some k → has_t g k)).
Proof.
  intros Hs. unfold create_tty_seat. eapply soft_bind; [apply soft_seat0|]. intros o ->.
  apply soft_ret. cbv zeta.
  assert (Hs' : ∀ k, (match seat with Some _ => seat | None => g_seat0 g end) = Some k → has_t g k).
  { destruct seat; [done|apply has_seat0]. }
  repeat case_match; cbn; naive_solver.
Qed.
Lemma soft_create_check_vtnr seat vtnr :
  soft g (create_check_vtnr seat vtnr) (found (λ _, ∀ k, seat = Some k → 0 ≤ vtnr < UINT_MAX)).
Proof.
  unfold create_check_vtnr. destruct seat as [k|]; [|by apply soft_ret].
  eapply soft_bind; [apply soft_seat_has_vts|]. intros b _. apply soft_ret. unfold UINT_MAX.
  destruct b.
  - destruct (_ || _) eqn:Eb; cbn; [done|]. lia.
  - destruct (negb _) eqn:Eb; cbn; [done|]. lia.
Qed.
Lemma soft_get_session_by_pidref pid :
  soft g (manager_get_session_by_pidref pid)
    (λ r, ∀ o, r = inr o → pidref_is_set pid = true ∧ ∀ sid, o = Some sid → has_s g sid).
Proof.
  unfold manager_get_session_by_pidref. destruct (pidref_is_set pid); cbn [negb]; [|by apply soft_ret; intros ? [=]].
  eapply (soft_bind _ _ _ (λ o, g_bypid g !! p_pid pid = o)); [apply soft_gets; by intros m <-|].
  intros [sid|] Ho.
  { apply (wf_bypid _ _ Hwf) in Ho as [Hl _]. apply soft_ret. intros o Eo. split; [done|].
    intros i ->. destruct (_ <? 0); [done|]. injection Eo as ->. by eapply coh_leader. }
  destruct (e_cg_pid_get_session _) as [name|]; [|by apply soft_ret; intros ? [= <-]].
  eapply (soft_bind _ _ _ (λ o, is_Some o → has_s g name)).
  { apply soft_gets. intros m <- [s Hs]. unfold has_s; cbn. rewrite lookup_fmap, Hs. by eexists. }
  intros o Hname. apply soft_ret. intros o' Eo. split; [done|]. intros i ->.
  destruct o; [|done]. injection Eo as ->. by apply Hname.
Qed.
Lemma soft_create_vt_occupied c vtnr : soft g (create_vt_occupied c vtnr) (λ _, True).
Proof.
  unfold create_vt_occupied. destruct (_ || _); [by apply soft_ret|].
  eapply soft_bind; [apply soft_seat0|]. intros o ->. destruct (wf_seat0 _ _ Hwf) as (k&b0&Ek&_&_).
  rewrite Ek. eapply soft_bind; [by apply (soft_ret _ _ (λ z, z = k))|]. intros ? ->.
  eapply soft_bind; [by apply soft_get_seat, has_seat0|]. intros s Hr.
  destruct (seat_get_position s vtnr) as [other|] eqn:Ep; [|by apply soft_ret].
  apply seat_get_position_elem in Ep.
  eapply soft_bind; [apply soft_get_session; eauto with links|]. intros. by apply soft_ret.
Qed.

Lemma safe_create_session a msg : safe g (create_session a msg).
Proof.
  unfold create_session. destruct (uid_is_valid (ca_uid a)) eqn:Ev; [|by apply safe_ret]. cbn [negb].
  destruct (negb _); [by apply safe_ret|].
  eapply safe_try; [done|by apply (soft_ret _ _ (λ _, True))|]. intros leader _.
  eapply safe_try; [done|by apply (soft_ret _ _ (λ _, True))|]. intros t _.
  eapply safe_try; [done|by apply (soft_ret _ _ (λ _, True))|]. intros c _.
  destruct (_ && _); [by apply safe_ret|].
  eapply safe_try; [done|apply soft_create_find_seat|]. intros seat Hseat.
  eapply safe_try; [done|by apply soft_create_tty_seat|]. intros [seat' vtnr] Hseat'. cbn in Hseat'.
  eapply safe_try; [done|apply soft_create_check_vtnr|]. intros z Hv. cbn in Hv. cbv zeta.
  eapply safe_soft_bind; [apply soft_get_session_by_pidref|]. intros [r|[other|]] Hl;
    [by apply safe_ret..|]. destruct (Hl _ eq_refl) as [Hl' _].
  eapply safe_soft_bind; [apply soft_create_vt_occupied|]. intros [] _; [by apply safe_ret|].
  eapply (safe_soft_bind _ _ _ (λ n, n = Z.of_nat (size (g_user g)))).
  { apply soft_gets. intros m <-. cbn. by rewrite map_size_fmap. }
  intros n ->. eapply (safe_soft_bind _ _ _ (λ n, n = g_limit g)); [apply soft_gets; by intros m <-|].
  intros ? ->. destruct (_ <=? _) eqn:El; [by apply safe_ret|]. apply Z.leb_gt in El.
  pose proof (wf_limit _ _ Hwf) as Hlim.
  eapply safe_soft_bind; [apply soft_create_id; lia|]. intros id (Hid&Hself&Hauto).
  eapply safe_soft_bind; [apply soft_assert; by rewrite Hself|]. intros _ _.
  eapply safe_soft_bind; [apply soft_assert; by rewrite Hauto|]. intros _ _.
  apply safe_create_session_register; try done. intros k Hk. eauto.
Qed.
End Find.

(** * The other methods of the manager *)

Section Manager.
Context {E : Env} {Ok : EnvOk} (g : cols) (Hwf : WF ex0 g) (Hg : coh g).

Lemma safe_method_release_session name msg : safe g (method_release_session name msg).
Proof.
  apply safe_on_session; [done..|]. intros sid Hs.
  eapply safe_try; [done|by apply soft_get_sender_session|]. intros sender _.
  destruct (negb _); [by apply safe_ret|]. apply safe_result. by eapply safe_soft, soft_session_release.
Qed.
Lemma safe_method_activate_session_on_seat sn kn msg :
  safe g (method_activate_session_on_seat sn kn msg).
Proof.
  apply safe_on_session; [done..|]. intros sid Hs. apply safe_on_seat; [done..|]. intros k Hk.
  eapply safe_soft_bind; [by apply soft_get_session|]. intros s _.
  destruct (negb _); [by apply safe_ret|]. by apply safe_method_activate.
Qed.
Lemma safe_method_lock_sessions msg : safe g (method_lock_sessions msg).
Proof.
  apply safe_polkit; [done|]. apply safe_result. by eapply safe_soft, soft_session_send_lock_all.
Qed.
Lemma safe_linger_on uid :
  uid_is_valid uid = true →
  safe g (u <- manager_add_user_by_uid uid ;;
          match u with
          | inl _ => ret Reply
          | inr uid =>
              r <- user_start uid ;;
              if r <? 0 then user_add_to_gc_queue uid ;;; ret (Errno r) else ret Reply
          end).
Proof.
  intros Hv. eapply hoare_bind; [by apply hoare_manager_add_user_by_uid|]. intros u g1 (Hwf1&_&Hu).
  apply hoare_coh; intros Hg1. destruct u as [r|i]; [by apply safe_ret|]. specialize (Hu i eq_refl).
  eapply hoare_bind; [by apply (hoare_user_start ex0)|]. intros r g2 (Hwf2&Hl).
  apply hoare_coh; intros Hg2. destruct (r <? 0); [|by apply safe_ret].
  apply safe_bind; [|intros _ g3 ? _; by apply safe_ret].
  safe_by (hoare_user_add_to_gc_queue ex0). unfold has_u. rewrite Hl. exact Hu.
Qed.
Lemma safe_linger_off uid :
  safe g (o <- gets (λ m, m_users m !! uid) ;;
          match o with
          | Some _ =>
              upd_user uid (λ u, u <| u_gc_mode := USER_GC_BY_PIN |>) ;;;
              user_add_to_gc_queue uid ;;;
              ret Reply
          | None => ret Reply
          end).
Proof.
  eapply safe_soft_bind; [by apply soft_lookup_user|]. intros [u|] [Hu _]; [|by apply safe_ret].
  assert (has_u g uid) by (apply Hu; by eexists).
  eapply safe_soft_bind; [soft_upd|]. intros _ _.
  apply safe_bind; [safe_by (hoare_user_add_to_gc_queue ex0)|intros _ g3 ? _; by apply safe_ret].
Qed.
Lemma safe_method_set_user_linger uid0 b pw msg :
  owner_ok msg → safe g (method_set_user_linger uid0 b pw msg).
Proof.
  intros Hok. unfold method_set_user_linger.
  destruct (if uid_is_valid uid0 then inr uid0 else msg_owner_uid msg) as [r|uid] eqn:Eu;
    cbn [attempt]; [by apply safe_ret|].
  assert (Hv : uid_is_valid uid = true).
  { destruct (uid_is_valid uid0) eqn:E0; [by injection Eu as <-|by apply Hok]. }
  apply safe_attempt; [done|]. intros auth. apply safe_attempt; [done|]. intros name.
  apply safe_polkit; [done|]. destruct (_ <? 0); [by apply safe_ret|]. cbv zeta. destruct b.
  - destruct (_ <? 0); [by apply safe_ret|]. by apply safe_linger_on.
  - destruct (_ && _); [by apply safe_ret|]. apply safe_linger_off.
Qed.

(** * The event sources *)

Lemma soft_find_open_vt vtnr l :
  (∀ i, i ∈ l → has_s g i) → soft g (find_open_vt vtnr l) (λ o, ∀ i, o = Some i → has_s g i).
Proof.
  induction l as [|i l IH]; intros Hl; cbn; [by apply soft_ret|].
  eapply soft_bind; [apply soft_get_session, Hl; left|]. intros s _.
  destruct (_ && _); [apply soft_ret; intros ? [= <-]; apply Hl; left|].
  apply IH. intros; apply Hl; by right.
Qed.
Lemma safe_leave_vt sid : has_s g sid → safe g (session_leave_vt sid).
Proof. intros. safe_by (hoare_session_leave_vt ex0). Qed.
Lemma safe_session_release_fifo sid :
  has_s g sid → safe g (session_remove_fifo sid ;;; ignore (session_stop sid false) ;;; ret 1).
Proof.
  intros Hs. eapply hoare_bind; [by apply (hoare_session_remove_fifo ex0)|]. intros _ g1 (?&Hm).
  apply hoare_coh; intros Hg1. assert (has_s g1 sid) by (rewrite Hm; exact Hs).
  eapply safe_bind; [apply safe_ignore; safe_by (hoare_session_stop ex0)|].
  intros _ g2 ? _. by apply safe_ret.
Qed.
Lemma safe_stop_then {A} sid (r : A) : has_s g sid → safe g (ignore (session_stop sid false) ;;; ret r).
Proof.
  intros Hs. eapply safe_bind; [apply safe_ignore; safe_by (hoare_session_stop ex0)|].
  intros _ g2 ? _. by apply safe_ret.
Qed.
Lemma safe_release_timeout sid : has_s g sid → safe g (release_timeout_callback sid).
Proof.
  intros Hs. unfold release_timeout_callback.
  apply (hoare_bind _ _ _ (λ _ g1, WF ex0 g1 ∧ same_objs g g1));
    [apply hoare_ignore; by apply (hoare_session_stop ex0)|]. intros _ g1 (?&Ho).
  apply hoare_coh; intros Hg1. assert (has_s g1 sid) by (unfold has_s; rewrite Ho; exact Hs).
  eapply safe_bind; [safe_by (hoare_session_add_to_gc_queue ex0)|].
  intros _ g2 ? _. by apply safe_ret.
Qed.
Lemma safe_stop_on_idle sid : has_s g sid → safe g (session_dispatch_stop_on_idle sid).
Proof.
  intros Hs. unfold session_dispatch_stop_on_idle.
  eapply safe_soft_bind; [by apply soft_get_session|]. intros s _.
  destruct (s_stopping s); [by apply safe_ret|].
  eapply safe_soft_bind; [by eapply soft_session_get_idle_hint|]. intros [idle ts] _.
  destruct idle; [safe_by (hoare_session_stop ex0)|].
  eapply safe_soft_bind; [apply soft_gets_true|]. intros stop _.
  destruct (_ <? 0); [by apply safe_ret|]. eapply safe_soft_bind; [soft_upd|]. intros _ _.
  by apply safe_ret.
Qed.
Lemma safe_notify_cgroup_empty path : safe g (manager_notify_cgroup_empty path).
Proof.
  eapply safe_soft_bind; [apply soft_lookup_session|]. intros [s|] Ho; [|by apply safe_ret].
  destruct (_ <=? 0); [by apply safe_ret|]. eapply safe_soft, soft_session_release; [done|].
  apply Ho. by eexists.
Qed.
Lemma safe_check_cgroup_events sid p : has_s g sid → safe g (session_check_cgroup_events sid p).
Proof.
  intros Hs. unfold session_check_cgroup_events.
  eapply safe_soft_bind; [by apply soft_get_session|]. intros s _. destruct p as [r|p].
  - destruct (_ =? _); [|by apply safe_ret]. destruct (_ <? 0); [|by apply safe_ret].
    apply safe_notify_cgroup_empty.
  - case_bool_decide.
    + eapply safe_soft_bind; [apply soft_when; intros _; soft_upd|]. intros _ _. by apply safe_ret.
    + case_bool_decide; [apply safe_notify_cgroup_empty|by apply safe_ret].
Qed.
End Manager.

Section Sources.
Context {E : Env} {Ok : EnvOk}.

Lemma safe_manager_vt_switch g : WF ex0 g → coh g → safe g manager_vt_switch.
Proof.
  intros Hwf Hg. unfold manager_vt_switch. eapply safe_soft_bind; [by apply soft_seat0|]. intros o ->. 
  destruct (wf_seat0 _ _ Hwf) as (k&b0&Ek&_&_). rewrite Ek.
  eapply safe_soft_bind; [by apply (soft_ret _ _ (λ z, z = k))|]. intros ? ->.
  pose proof (has_seat0 _ Hwf Hg _ Ek) as Hk.
  apply (hoare_bind _ _ _ (λ _ g1, WF ex0 g1 ∧ same_but_act g g1));
    [apply hoare_ignore; by apply hoare_seat_read_active_vt|]. intros _ g1 (Hwf1&Hact). apply hoare_coh; intros Hg1.
  assert (Hk1 : has_t g1 k) by (unfold has_t; rewrite Hact; exact Hk).
  eapply safe_soft_bind; [by apply soft_get_seat|]. intros st Hr.
  assert (Hlist : ∀ i, i ∈ se_sessions st → has_s g1 i) by eauto with links.
  eapply (safe_soft_bind _ _ _ (λ o, ∀ a s, o = Some (a, s) → has_s g1 a)).
  { destruct (se_active st) as [a|] eqn:Ea; [|by apply soft_ret].
    eapply soft_bind; [apply soft_get_session; eauto with links|]. intros s Hs. apply soft_ret.
    destruct (_ <? 1); [done|]. intros ? ? [= <- <-]. eauto with links. }
  intros [[a s]|] Ha.
  - specialize (Ha a s eq_refl). eapply safe_bind; [|intros _ g2 ? _; by apply safe_ret].
    destruct (0 <=? _); [by apply safe_leave_vt|].
    eapply safe_soft_bind; [by apply soft_find_open_vt|]. intros [i|] Hi; [|by apply safe_ret].
    apply safe_leave_vt; auto.
  - cbv zeta. eapply safe_soft_bind; [apply soft_when; intros _; apply soft_emit|]. intros _ _.
    by apply safe_ret.
Qed.

Lemma safe_handle_session g sid c msg :
  WF ex0 g → coh g → has_s g sid → safe g (handle_session sid c msg).
Proof.
  intros Hwf Hg Hs. destruct c; cbn [handle_session].
  - by apply safe_method_terminate.
  - by apply safe_method_activate.
  - by apply safe_method_lock.
  - by apply safe_method_set_idle_hint.
  - by apply safe_method_set_locked_hint.
  - by apply safe_method_kill.
  - by apply safe_method_take_control.
  - by apply safe_method_release_control.
  - by apply safe_method_set_type.
  - by apply safe_method_set_class.
  - by apply safe_method_set_display.
  - by apply safe_method_set_tty.
  - by apply safe_method_take_device.
  - by apply safe_method_release_device.
  - by apply safe_method_pause_device_complete.
Qed.
Lemma safe_handle_seat g k c msg : WF ex0 g → coh g → has_t g k → safe g (handle_seat k c msg).
Proof.
  intros Hwf Hg Hk. destruct c; cbn [handle_seat].
  - by apply safe_method_seat_terminate.
  - by apply safe_activate_on_seat.
  - by apply safe_method_switch_to.
  - by apply safe_method_switch_to_next.
  - by apply safe_method_switch_to_previous.
Qed.
Lemma safe_handle_user g uid c msg : WF ex0 g → coh g → has_u g uid → safe g (handle_user uid c msg).
Proof.
  intros Hwf Hg Hu. destruct c; cbn [handle_user];
    [by apply safe_method_user_terminate|by apply safe_method_user_kill].
Qed.

Lemma safe_handle_manager g c msg :
  WF ex0 g → coh g → (∀ m, event_ok (ManagerMethod c msg) m) → safe g (handle_manager c msg).
Proof.
  intros Hwf Hg Hok. destruct c; cbn [handle_manager].
  - by apply safe_create_session.
  - by apply safe_method_release_session.
  - apply safe_on_session; [done..|]. intros. by apply safe_method_activate.
  - by apply safe_method_activate_session_on_seat.
  - apply safe_on_session; [done..|]. intros. by apply safe_method_lock.
  - by apply safe_method_lock_sessions.
  - apply safe_on_session; [done..|]. intros. by apply safe_method_kill.
  - apply safe_on_user; [done..|]. intros. by apply safe_method_user_kill.
  - apply safe_on_session; [done..|]. intros. by apply safe_method_terminate.
  - apply safe_on_user; [done..|]. intros. by apply safe_method_user_terminate.
  - apply safe_on_seat; [done..|]. intros. by apply safe_method_seat_terminate.
  - apply safe_method_set_user_linger; [done..|]. destruct Hg as [m _]. apply (Hok m).
Qed.
End Sources.
