(* ===== verification/LinksPower.v ===== *)
(** Power actions, inhibitors and the schedule never crash and keep the
    invariant: what they change of the links is the node of the power actions. *)
From stdpp Require Import pretty.
From S2P Require Import Prelude Time LoginTypes ActionTypes LoginState LoginEnv Bus Objects Session SessionBus ManagerBus Inhibit Wall Power Schedule Buttons User Events Cols Links LinksObjects LinksSession LinksBus LinksCreate LinksManager.
#[local] Open Scope Z_scope.

(** * The node of the power actions *)

Lemma wf_set_keys x g p : WF x g → pow_ok p →
  (∀ name, name ∈ pn_keys p → is_Some (g_btn g !! name) ∧ ex_boot x = false) → WF x (g <| g_pow := p |>).
Proof. intros Hwf Hp Hk. destruct Hwf. constructor; cbn; assumption. Qed.
Lemma wf_set_pow x g p : WF x g → pn_keys p = pn_keys (g_pow g) → pow_ok p → WF x (g <| g_pow := p |>).
Proof. intros Hwf Hk Hp. apply wf_set_keys; [done..|]. rewrite Hk. apply (wf_keys _ _ Hwf). Qed.

Section Node.
Context (g : cols).
Lemma soft_act : soft g (gets m_act) (λ a, pnode_of a = g_pow g).
Proof. apply soft_gets. by intros m <-. Qed.
Lemma soft_conf {A} (f : config → A) : soft g (gets (λ m, f (m_conf m))) (λ a, a = f (g_conf g)).
Proof. apply soft_gets. by intros m <-. Qed.
Lemma soft_upd_act f : (∀ a, pnode_of (f a) = pnode_of a) → soft g (upd_act f) (λ _, True).
Proof. intros H. apply soft_modify. intros m. unfold cols_of; cbn. by rewrite H. Qed.
Lemma hoare_upd_act f (F : pnode → pnode) :
  (∀ a, pnode_of (f a) = F (pnode_of a)) → hoare g (upd_act f) (λ _ g', g' = g <| g_pow := F (g_pow g) |>).
Proof. intros H. apply hoare_modify. intros m <-. unfold cols_of; cbn. by rewrite H. Qed.

(** An update of the node that keeps it in order, before anything safe. *)
Lemma safe_upd_act {A} f (F : pnode → pnode) (k : MM A) :
  (∀ a, pnode_of (f a) = F (pnode_of a)) → WF ex0 g → coh g → pn_keys (F (g_pow g)) = pn_keys (g_pow g) → pow_ok (F (g_pow g)) →
  (let g' := g <| g_pow := F (g_pow g) |> in WF ex0 g' → coh g' → safe g' k) → safe g (upd_act f ;;; k).
Proof.
  intros H Hwf Hg Hkeys Hp Hk. eapply hoare_bind; [by apply hoare_upd_act|]. intros _ g' ->.
  apply hoare_coh. intros Hg'. apply Hk; [by apply wf_set_pow|done].
Qed.
End Node.
#[export] Hint Extern 1 (∀ a, pnode_of _ = pnode_of a) => (intros; reflexivity) : core.

(** * Inhibitors *)

(** The links are [g], and the inhibitor [id] is there and satisfies [P]. *)
Definition inh_is (g : cols) (id : string) (P : inhibitor → Prop) (m : manager) : Prop :=
  cols_of m = g ∧ ∃ i, m_inhibitors m !! id = Some i ∧ P i.
Definition any_inh : inhibitor → Prop := λ _, True.
Definition with_path (i : inhibitor) : Prop := is_Some (i_fifo_path i).

Section Inhibitor.
Context (g : cols) (id : string).
Lemma wp_get_inhibitor P (Q : inhibitor → manager → Prop) m :
  inh_is g id P m → (∀ i, P i → Q i m) → wp (get_inhibitor id) Q m.
Proof.
  intros (Hc&i&Hi&HP) HQ. unfold get_inhibitor. apply wp_bind, wp_gets. eapply wp_deref; [done|]. by apply HQ.
Qed.
Lemma wp_upd_inhibitor P P' f (Q : unit → manager → Prop) m :
  inh_is g id P m → (∀ i, P i → P' (f i)) → (∀ m', inh_is g id P' m' → Q tt m') → wp (upd_inhibitor id f) Q m.
Proof.
  intros (Hc&i&Hi&HP) Hf HQ. unfold upd_inhibitor, get_inhibitor. apply wp_bind, wp_bind, wp_gets.
  eapply wp_deref; [done|]. apply wp_modify, HQ. split; [done|]. exists (f i). cbn.
  rewrite lookup_insert_eq. auto.
Qed.
Lemma wp_inh_emit P ev (Q : unit → manager → Prop) m :
  inh_is g id P m → (∀ m', inh_is g id P m' → Q tt m') → wp (emit ev) Q m.
Proof. intros H HQ. apply wp_modify, HQ. exact H. Qed.
Lemma wp_send_inhibited_change P m :
  inh_is g id P m → wp (bus_manager_send_inhibited_change id) (λ _, inh_is g id P) m.
Proof.
  intros H. unfold bus_manager_send_inhibited_change. apply wp_bind. eapply wp_get_inhibitor; [done|].
  intros i _. by eapply wp_inh_emit.
Qed.
Lemma wp_inhibitor_free P m : inh_is g id P m → wp (inhibitor_free id) (λ _ m', cols_of m' = g) m.
Proof. intros H. apply wp_bind. eapply wp_get_inhibitor; [done|]. intros i _. apply wp_modify. apply H. Qed.

Context {E : Env}.
Lemma wp_fifo_make m : inh_is g id any_inh m → wp (fifo_make id) (λ _, inh_is g id with_path) m.
Proof.
  intros H. unfold fifo_make. apply wp_bind. destruct H as (Hc&i&Hi&_).
  eapply (wp_get_inhibitor (λ j, j = i)); [split; [done|by exists i]|]. intros ? ->.
  destruct (i_fifo_path i) as [p|] eqn:Ep; cbn [is_some].
  - apply wp_ret. split; [done|]. exists i. split; [done|]. by eexists.
  - apply wp_bind. eapply (wp_upd_inhibitor any_inh with_path); [split; [done|by exists i]|by eexists|].
    intros m' H'. by apply wp_ret.
Qed.
Lemma wp_fifo_open m : inh_is g id with_path m → wp (fifo_open id) (λ _, inh_is g id with_path) m.
Proof.
  intros H. unfold fifo_open. apply wp_bind. eapply wp_get_inhibitor; [done|]. intros i [p Hp].
  apply wp_bind. eapply wp_deref; [done|]. destruct (_ <=? _); [by apply wp_ret|].
  apply wp_bind. eapply (wp_upd_inhibitor with_path with_path); [done|done|]. intros. by apply wp_ret.
Qed.
Lemma wp_fifo_watch m : inh_is g id with_path m → wp (fifo_watch id) (λ _, inh_is g id with_path) m.
Proof.
  intros H. unfold fifo_watch. apply wp_bind. eapply wp_get_inhibitor; [done|]. intros i _.
  destruct (i_event_source i); [by apply wp_ret|]. destruct (_ <? 0); [by apply wp_ret|].
  apply wp_bind. eapply (wp_upd_inhibitor with_path with_path); [done|done|]. intros. by apply wp_ret.
Qed.
Lemma wp_inhibitor_create_fifo m :
  inh_is g id any_inh m → wp (inhibitor_create_fifo id) (λ _, inh_is g id any_inh) m.
Proof.
  assert (Hany : ∀ m, inh_is g id with_path m → inh_is g id any_inh m) by (intros ? (?&i&?&_); split; [done|by exists i]).
  intros H. unfold inhibitor_create_fifo. apply wp_bind. eapply wp_mono; [by apply wp_fifo_make|]. intros r m1 H1.
  destruct (r <? 0); [apply wp_ret; auto|]. apply wp_bind. eapply wp_mono; [by apply wp_fifo_open|]. intros r2 m2 H2.
  destruct (r2 <? 0); [apply wp_ret; auto|]. apply wp_bind. eapply wp_mono; [by apply wp_fifo_watch|]. intros r3 m3 H3.
  destruct (r3 <? 0); [apply wp_ret; auto|]. apply wp_bind. eapply wp_get_inhibitor; [exact H3|]. intros i [p Hp].
  apply wp_bind. eapply wp_deref; [done|]. apply wp_ret. auto.
Qed.
Lemma wp_inhibitor_start m : inh_is g id any_inh m → wp (inhibitor_start id) (λ _, inh_is g id any_inh) m.
Proof.
  intros H. unfold inhibitor_start. apply wp_bind. eapply wp_get_inhibitor; [done|]. intros i _.
  destruct (i_started i); [by apply wp_ret|].
  apply wp_bind. eapply (wp_upd_inhibitor any_inh any_inh); [done|done|]. intros m1 H1.
  apply wp_bind, wp_ignore. unfold inhibitor_save. apply wp_bind. eapply wp_get_inhibitor; [done|]. intros j _.
  apply wp_bind. eapply wp_inh_emit; [done|]. intros m2 H2. apply wp_ret.
  apply wp_bind. eapply wp_mono; [by apply wp_send_inhibited_change|]. intros ? m3 H3. by apply wp_ret.
Qed.
Lemma wp_inhibitor_stop m : inh_is g id any_inh m → wp (inhibitor_stop id) (λ _, inh_is g id any_inh) m.
Proof.
  intros H. unfold inhibitor_stop. apply wp_bind. eapply wp_get_inhibitor; [done|]. intros _ _.
  assert (Hend : ∀ m, inh_is g id any_inh m → wp (emit (InhibitorRemoved id) ;;;
    upd_inhibitor id (λ i, i <| i_started := false |>) ;;; bus_manager_send_inhibited_change id) (λ _, inh_is g id any_inh) m).
  { intros m1 H1. apply wp_bind. eapply wp_inh_emit; [done|]. intros m2 H2.
    apply wp_bind. eapply (wp_upd_inhibitor any_inh any_inh); [done|done|]. intros m3 H3.
    by apply wp_send_inhibited_change. }
  apply wp_bind. unfold inhibitor_remove_fifo. apply wp_bind. eapply wp_get_inhibitor; [done|]. intros i _.
  apply wp_bind. eapply (wp_upd_inhibitor any_inh any_inh); [done|done|]. intros m1 H1.
  destruct (i_fifo_path i) as [p|]; [|by apply wp_ret, Hend].
  apply wp_bind, wp_gets. destruct (_ && _); [by apply wp_ret, Hend|].
  apply wp_bind. eapply wp_inh_emit; [done|]. intros m2 H2.
  eapply (wp_upd_inhibitor any_inh any_inh); [done|done|]. intros m3 H3. by apply Hend.
Qed.
End Inhibitor.

Section Inhibiting.
Context {E : Env} {Ok : EnvOk}.
Context (g : cols) (Hwf : WF ex0 g) (Hg : coh g).

Lemma soft_pidref_is_active_session pid : soft g (pidref_is_active_session pid) (λ _, True).
Proof.
  unfold pidref_is_active_session. eapply soft_bind; [by apply soft_get_session_by_pidref|].
  intros [r|[sid|]] H; [by apply soft_ret| |by apply soft_ret].
  destruct (H _ eq_refl) as [_ Hs]. eapply soft_bind; [eapply (soft_session_is_active' ex0); eauto|].
  intros. by apply soft_ret.
Qed.
Lemma soft_is_inhibited w block inactive own uid :
  0 < w < _INHIBIT_WHAT_MAX →
  soft g (manager_is_inhibited w block inactive own uid) (λ x, x.1.1 = is_some x.2).
Proof.
  intros [H1%Z.ltb_lt H2%Z.ltb_lt]. unfold manager_is_inhibited. rewrite H1, H2.
  eapply soft_bind; [by apply soft_assert|]. intros _ _. eapply soft_bind; [by apply soft_assert|]. intros _ _.
  eapply soft_bind; [apply soft_gets_true|]. intros l _. apply soft_fold_m; [done|].
  intros acc i _ Hacc. unfold inhibited_step. destruct (negb _); [by apply soft_ret|].
  eapply (soft_bind _ _ _ (λ _, True)).
  { destruct inactive; [apply soft_pidref_is_active_session|by apply soft_ret]. }
  intros r _. destruct (r <=? 0); [by apply soft_ret|]. destruct (weak_and_own _ _ _); [by apply soft_ret|].
  apply soft_ret. destruct acc as [[b ts] [o|]]; cbn; [by case_match|done].
Qed.

Lemma safe_polkit_bits msg mode bits k : safe g k → safe g (polkit_bits msg mode bits k).
Proof. intros Hk. induction bits as [|v bits IH]; [done|]. by apply safe_polkit. Qed.

(** The search for an id ends when there are fewer inhibitors than ids. *)
Lemma pretty_Z_inj (a b : Z) : pretty a = pretty b → a = b.
Proof. apply (inj pretty). Qed.
Lemma wp_next_inhibitor_id k m :
  (∃ id, id ∈ tried pretty (m_inhibit_counter m) k ∧ m_inhibitors m !! id = None) →
  wp (next_inhibitor_id k) (λ id m', m_inhibitors m' !! id = None ∧ cols_of m' = cols_of m) m.
Proof.
  revert m. induction k as [|k IH]; intros m (id&Hin&Hid).
  { by apply elem_of_nil in Hin. }
  rewrite tried_S in *. cbn [next_inhibitor_id]. apply wp_bind, wp_modify.
  set (m1 := m <| m_inhibit_counter := u64 (m_inhibit_counter m + 1) |>).
  change (u64 (m_inhibit_counter m + 1)) with (m_inhibit_counter m1) in Hin.
  apply wp_bind, wp_gets, wp_bind, wp_gets.
  destruct (m_inhibitors m1 !! pretty (m_inhibit_counter m1)) as [s|] eqn:Es; [|by apply wp_ret].
  eapply wp_mono; [apply (IH m1)|done]. exists id. split; [|done].
  apply elem_of_cons in Hin as [->|Hin]; [|done]. change (m_inhibitors m1) with (m_inhibitors m) in Es. congruence.
Qed.
Lemma wp_inhibit_with id what w who why mode pid uid m :
  cols_of m = g → m_inhibitors m !! id = None →
  wp (inhibit_with id what w who why mode pid uid) (λ _ m', cols_of m' = g) m.
Proof.
  intros Hm Hid. unfold inhibit_with. apply wp_bind. unfold manager_add_inhibitor.
  apply wp_bind, wp_gets. rewrite Hid. unfold inhibitor_new. apply wp_bind, wp_modify, wp_ret. cbn [Z.ltb Z.compare].
  set (m0 := m <| m_inhibitors := _ |>).
  assert (H0 : inh_is g id any_inh m0).
  { split; [done|]. exists new_inhibitor. cbn. by rewrite lookup_insert_eq. }
  apply wp_bind. eapply (wp_upd_inhibitor g id any_inh any_inh); [done|done|]. intros m1 H1.
  apply wp_bind. eapply wp_mono; [by apply wp_inhibitor_create_fifo|]. intros fd m2 H2.
  destruct (fd <? 0). { apply wp_bind. eapply wp_mono; [eapply wp_inhibitor_free; exact H2|]. intros ? m3 H3. by apply wp_ret. }
  apply wp_bind. eapply wp_mono; [apply wp_inhibitor_start; exact H2|]. intros r m3 H3.
  destruct (r <? 0); [|apply wp_ret, H3].
  apply wp_bind. eapply wp_mono; [eapply wp_inhibitor_free; exact H3|]. intros ? m4 H4. by apply wp_ret.
Qed.

Lemma safe_method_inhibit what who why mode msg : safe g (method_inhibit what who why mode msg).
Proof.
  unfold method_inhibit. cbv zeta. destruct (_ <=? 0); [by apply safe_ret|].
  destruct (from_string _) as [mm|]; [|by apply safe_ret]. destruct (_ && _); [by apply safe_ret|].
  eapply safe_soft_bind; [apply soft_gets_true|]. intros d _. case_match; [by apply safe_ret|].
  apply safe_polkit_bits. apply safe_attempt; [done|]. intros uid. apply safe_attempt; [done|]. intros pid.
  intros m Hm. apply wp_bind, wp_gets, wp_bind, wp_gets.
  destruct (Z.leb_spec (c_inhibitors_max (m_conf m)) (Z.of_nat (size (m_inhibitors m)))) as [Hle|Hlt]; [by apply wp_ret; rewrite Hm|].
  apply wp_bind, wp_gets. pose proof (wf_conf _ _ Hwf) as [_ Hmax].
  assert (Hc : g_conf g = m_conf m) by by rewrite <-Hm. rewrite Hc in Hmax.
  apply wp_bind. eapply wp_mono; [apply wp_next_inhibitor_id, (tried_free _ pretty_Z_inj); lia|].
  intros id m1 [Hid Hc1]. eapply wp_mono; [apply wp_inhibit_with; [by rewrite Hc1|done]|]. intros ? m2 ->. done.
Qed.
Lemma wp_inhibitor_dispatch_fifo id fd m :
  cols_of m = g → (∃ i, m_inhibitors m !! id = Some i ∧ fd = i_fifo_fd i) →
  wp (inhibitor_dispatch_fifo id fd) (λ _ m', cols_of m' = g) m.
Proof.
  intros Hm (i&Hi&->). unfold inhibitor_dispatch_fifo. apply wp_bind.
  eapply (wp_get_inhibitor g id (λ j, j = i)); [split; [done|by exists i]|]. intros ? ->.
  apply wp_bind, wp_assert; [by rewrite Z.eqb_refl|]. apply wp_bind.
  eapply wp_mono; [apply (wp_inhibitor_stop g id); split; [done|by exists i]|]. intros ? m1 H1.
  apply wp_bind. eapply wp_mono; [eapply wp_inhibitor_free; exact H1|]. intros ? m2 H2. by apply wp_ret.
Qed.
End Inhibiting.

(** * Power actions *)

Lemma executable_what h : executable h = true →
  let w := hd_inhibit_what (handle_action_lookup h) in
  (w = INHIBIT_SHUTDOWN ∨ w = INHIBIT_SLEEP) ∧ 0 < w < _INHIBIT_WHAT_MAX.
Proof. destruct h; cbn; try done; intros _; (split; [auto|by split]). Qed.
(** The node while the action [h] is put off, and while it is executed. *)
Definition put_off (h : HandleAction) (p : pnode) : pnode := p <| pn_delayed := Some h |>.
Definition under_way (o : option HandleAction) (p : pnode) : pnode := p <| pn_job := is_some o |> <| pn_fork := o |>.

Lemma pow_ok_put_off h p : pow_ok p → executable h = true → pow_ok (put_off h p).
Proof. intros [] Hh. constructor; cbn; [by eexists|done|done|by intros ? [= <-]|done]. Qed.
Lemma pow_ok_idle p : pow_ok p → pow_ok (under_way None p).
Proof. intros []. by constructor. Qed.

Section PowerActions.
Context {E : Env} {Ok : EnvOk}.

Lemma soft_send_prepare_for g h b : 
  (let w := hd_inhibit_what (handle_action_lookup h) in w = INHIBIT_SHUTDOWN ∨ w = INHIBIT_SLEEP) →
  soft g (send_prepare_for h b) (λ _, True).
Proof.
  intros Hw. unfold send_prepare_for. eapply soft_bind; [apply soft_assert; by destruct Hw as [-> | ->]|].
  intros _ _. destruct (_ =? _); [|apply soft_emit]. eapply soft_bind; [apply soft_emit|]. intros. apply soft_emit.
Qed.
Lemma soft_set_lid_switch_ignore g t : soft g (manager_set_lid_switch_ignore t) (λ _, True).
Proof.
  unfold manager_set_lid_switch_ignore. destruct (_ <=? _); [by apply soft_ret|].
  eapply soft_bind; [apply soft_act|]. intros a _. destruct (a_lid_switch_ignore_event_source a) as [s|].
  - destruct (_ <=? _); [by apply soft_ret|]. destruct (_ <? 0); [by apply soft_ret|].
    eapply soft_bind; [by apply soft_upd_act|]. intros. by apply soft_ret.
  - destruct (_ <? 0); [by apply soft_ret|]. eapply soft_bind; [by apply soft_upd_act|]. intros. by apply soft_ret.
Qed.

(** Either the child works on it, or nothing happened. *)
Lemma hoare_elogind_execute g h : executable h = true →
  hoare g (elogind_execute_shutdown_or_sleep h)
    (λ r g', (r = 1 ∧ g' = g <| g_pow := under_way (Some h) (g_pow g) |>) ∨ g' = g <| g_pow := under_way None (g_pow g) |>).
Proof.
  intros Hh. destruct (executable_what h Hh) as [_ Hw].
  unfold elogind_execute_shutdown_or_sleep. cbv zeta.
  eapply hoare_soft_bind; [apply soft_assert; lia|]. intros _ _.
  eapply hoare_soft_bind; [apply soft_assert; lia|]. intros _ _.
  eapply hoare_soft_bind; [apply soft_when; intros _; apply soft_emit|]. intros _ _.
  eapply hoare_bind; [apply (hoare_upd_act _ _ (under_way (Some h))); intros a; by destruct h|].
  intros _ g1 ->. destruct (e_fork _) as [t|pid].
  - eapply hoare_bind; [by apply (hoare_upd_act _ _ (under_way None))|]. intros _ g2 ->. apply hoare_ret. by right.
  - eapply hoare_soft_bind; [by apply soft_upd_act|]. intros _ _.
    eapply hoare_soft_bind; [apply soft_emit|]. intros _ _. apply hoare_ret. by left.
Qed.
Lemma hoare_execute g h :
  WF ex0 g → coh g → executable h = true → pn_job (g_pow g) = false →
  hoare g (execute_shutdown_or_sleep h) (λ r g', WF ex0 g' ∧ (r < 0 → pn_job (g_pow g') = false)).
Proof.
  intros Hwf Hg Hh Hj. pose proof (wf_pow _ _ Hwf) as Hp. unfold execute_shutdown_or_sleep.
  eapply hoare_soft_bind; [apply soft_act|]. intros a Ha.
  assert (Hja : is_some (a_action_job a) = false) by (by rewrite <-Hj, <-Ha).
  eapply hoare_soft_bind; [apply soft_assert; by rewrite Hja|]. intros _ _.
  assert (Hf : is_some (a_sleep_fork_action a) = false) by (rewrite <-Hj, <-(po_fork _ Hp), <-Ha; done). rewrite Hf.
  eapply hoare_bind; [by apply hoare_elogind_execute|]. intros r g1 [[-> ->]| ->].
  - cbn [Z.ltb Z.compare]. eapply hoare_bind; [by apply (hoare_upd_act _ _ (put_off h))|]. intros _ g2 ->.
    eapply hoare_soft_bind; [apply soft_conf|]. intros holdoff _.
    eapply hoare_soft_bind; [apply soft_ignore, soft_set_lid_switch_ignore|]. intros _ _.
    apply hoare_ret. split; [|done].
    match goal with |- WF _ ?x => change x with (g <| g_pow := put_off h (under_way (Some h) (g_pow g)) |>) end.
    apply wf_set_pow; [done..|]. destruct Hp. constructor; cbn; [by eexists|done|by intros ? [= <-]|by intros ? [= <-]|done].
  - assert (Hwf1 : WF ex0 (g <| g_pow := under_way None (g_pow g) |>)) by by apply wf_set_pow, pow_ok_idle.
    destruct (r <? 0) eqn:Er.
    + eapply hoare_soft_bind; [apply soft_send_prepare_for, executable_what, Hh|]. intros _ _. apply hoare_ret. done.
    + eapply hoare_bind; [by apply (hoare_upd_act _ _ (put_off h))|]. intros _ g2 ->.
      eapply hoare_soft_bind; [apply soft_conf|]. intros holdoff _.
      eapply hoare_soft_bind; [apply soft_ignore, soft_set_lid_switch_ignore|]. intros _ _.
      apply hoare_ret. split; [|done]. apply wf_set_pow; [done..|]. by apply pow_ok_put_off, Hh; apply Hwf1.
Qed.
Lemma safe_delay g h : WF ex0 g → coh g → executable h = true → safe g (delay_shutdown_or_sleep h).
Proof.
  intros Hwf Hg Hh. unfold delay_shutdown_or_sleep. eapply safe_soft_bind; [apply soft_act|]. intros a _.
  eapply safe_soft_bind; [apply soft_conf|]. intros mx _. destruct (event_reset_time_relative _ _ _) as [r t].
  eapply safe_soft_bind; [by apply soft_upd_act|]. intros _ _. destruct (r <? 0); [by apply safe_ret|].
  apply (safe_upd_act _ _ (put_off h)); [done..|by apply pow_ok_put_off, Hh; apply Hwf|].
  intros g' Hwf' _. by apply safe_ret.
Qed.
Lemma soft_is_delayed g h : WF ex0 g → coh g → executable h = true → soft g (is_delayed h) (λ _, True).
Proof.
  intros Hwf Hg Hh. unfold is_delayed. eapply soft_bind; [by apply soft_is_inhibited; try done; apply executable_what|].
  intros. by apply soft_ret.
Qed.
Lemma safe_now_or_later g h :
  WF ex0 g → coh g → executable h = true → pn_job (g_pow g) = false →
  safe g (bus_manager_shutdown_or_sleep_now_or_later h).
Proof.
  intros Hwf Hg Hh Hj. unfold bus_manager_shutdown_or_sleep_now_or_later.
  eapply safe_soft_bind; [apply soft_act|]. intros a Ha.
  assert (Hja : is_some (a_action_job a) = false) by (by rewrite <-Hj, <-Ha).
  eapply safe_soft_bind; [apply soft_assert; by rewrite Hja|]. intros _ _.
  destruct e_sleep_config as [r|[p q]]; [by apply safe_ret|]. cbv zeta.
  eapply safe_soft_bind; [apply soft_when; intros _; apply soft_send_prepare_for, executable_what, Hh|]. intros _ _.
  eapply safe_soft_bind; [apply soft_conf|]. intros mx _.
  eapply (safe_soft_bind _ _ _ (λ _, True)).
  { destruct (_ <? _); [by apply soft_is_delayed|by apply soft_ret]. }
  intros [] _; [by apply safe_delay|]. eapply hoare_mono; [by apply hoare_execute|]. by intros ? ? [? _].
Qed.
Lemma safe_dispatch_delayed g timeout : WF ex0 g → coh g → safe g (manager_dispatch_delayed timeout).
Proof.
  intros Hwf Hg. unfold manager_dispatch_delayed. eapply safe_soft_bind; [apply soft_act|]. intros a Ha.
  pose proof (wf_pow _ _ Hwf) as Hp. destruct (a_delayed_action a) as [h|] eqn:Ed; [|by apply safe_ret].
  assert (Hh : executable h = true) by (apply (po_delayed _ Hp); by rewrite <-Ha).
  destruct (is_some (a_action_job a)) eqn:Ej; [by apply safe_ret|].
  assert (Hj : pn_job (g_pow g) = false) by by rewrite <-Ha.
  eapply safe_soft_bind; [by apply soft_is_delayed|]. intros b _. destruct (_ && _); [by apply safe_ret|].
  eapply hoare_bind; [by apply hoare_execute|]. intros r g1 [Hwf1 Hr]. apply hoare_coh. intros Hg1.
  destruct (r <? 0) eqn:Er; [|by apply safe_ret].
  apply (safe_upd_act _ _ (λ p, p <| pn_delayed := None |>)); [done..| |intros g2 Hwf2 _; by apply safe_ret].
  apply Z.ltb_lt in Er. specialize (Hr Er). destruct (wf_pow _ _ Hwf1). constructor; cbn; [congruence|done..].
Qed.
Lemma safe_inhibit_timeout g :
  WF ex0 g → coh g → (∀ m, cols_of m = g → is_some (a_inhibit_timeout_source (m_act m)) = true →
  wp manager_inhibit_timeout_handler (λ _ m', WF ex0 (cols_of m')) m).
Proof.
  intros Hwf Hg m Hm Ht. apply wp_bind, wp_gets, wp_bind, wp_assert; [done|]. by apply (safe_dispatch_delayed g).
Qed.
Lemma safe_sigchld g : WF ex0 g → coh g → safe g elogind_sigchld_handler.
Proof.
  intros Hwf Hg. unfold elogind_sigchld_handler. destruct e_event_finished; [by apply safe_ret|].
  eapply safe_soft_bind; [apply soft_act|]. intros a Ha. cbv zeta.
  eapply safe_soft_bind; [apply soft_when; intros _; by apply soft_upd_act|]. intros _ _.
  destruct (0 <? _); [|by apply safe_ret].
  eapply safe_soft_bind; [apply soft_when; intros _; by apply soft_upd_act|]. intros _ _.
  destruct (a_sleep_fork_action a) as [h|] eqn:Ef; [|by apply safe_ret].
  destruct (is_some (hd_sleep_operation _)) eqn:Eh; [|by apply safe_ret].
  assert (Hh : executable h = true) by (apply (po_forked _ (wf_pow _ _ Hwf)); rewrite <-Ha; exact Ef).
  eapply safe_soft_bind; [apply soft_send_prepare_for; by destruct h; try done; right|]. intros _ _.
  apply (safe_upd_act _ _ (λ p, under_way None p <| pn_delayed := None |>)); [done..| |intros g2 Hwf2 _; by apply safe_ret].
  destruct (wf_pow _ _ Hwf). by constructor.
Qed.
End PowerActions.
