(* ===== verification/LinksSchedule.v ===== *)
(** What keys, timers and clients ask of the power part, and the schedule: no
    handler crashes, and all keep the invariant. *)
From S2P Require Import Prelude Time LoginTypes ActionTypes LoginState LoginEnv Bus Objects Session SessionBus ManagerBus Inhibit Wall Power Schedule Events Cols Links LinksObjects LinksBus LinksPower.
#[local] Open Scope Z_scope.

(** Nothing is executed while nothing is asked for. *)
Lemma no_job_yet x g a :
  WF x g → pnode_of a = g_pow g → is_some (a_delayed_action a) = false → pn_job (g_pow g) = false.
Proof.
  intros Hwf Ha Ed. destruct (pn_job (g_pow g)) eqn:Ej; [|done]. apply (po_job _ (wf_pow _ _ Hwf)) in Ej as [d Hd].
  rewrite <-Ha in Hd. cbn in Hd. by rewrite Hd in Ed.
Qed.

Section Schedule.
Context {E : Env} {Ok : EnvOk}.

(** * Keys *)

Lemma safe_handle_action_execute g h ignored edge :
  WF ex0 g → coh g → executable h = true → safe g (handle_action_execute h ignored edge).
Proof.
  intros Hwf Hg Hh. unfold handle_action_execute.
  eapply safe_soft_bind; [apply soft_assert; by destruct h|]. intros _ _.
  destruct (_ && _); [by apply safe_ret|].
  eapply safe_soft_bind; [apply soft_act|]. intros a Ha.
  destruct (is_some (a_delayed_action a)) eqn:Ed; [by apply safe_ret|]. cbv zeta.
  pose proof (no_job_yet _ _ _ Hwf Ha Ed) as Hj.
  eapply (safe_soft_bind _ _ _ (λ x, x.1.1 = is_some x.2)).
  { destruct (_ && _); [|by apply soft_ret]. apply soft_is_inhibited; [done..|]. by apply executable_what. }
  intros [[b ts] o] Hx. cbn in Hx. cbn [fst snd]. destruct b.
  - eapply (safe_soft_bind _ _ _ (λ _, True)); [|intros; by apply safe_ret].
    apply soft_deref; [|done]. by destruct o.
  - apply safe_result; by apply safe_now_or_later.
Qed.

Lemma soft_sleep_supported g h : HANDLE_ACTION_IS_SLEEP h = true → executable h = true →
  soft g (sleep_supported (hd_sleep_operation (handle_action_lookup h))) (λ _, True).
Proof.
  intros Hs Hh. unfold sleep_supported. eapply (soft_bind _ _ _ (λ _, True)).
  - apply soft_deref; [|done]. destruct h; try done; by eexists.
  - intros. by apply soft_ret.
Qed.
(** An action to sleep with that is not a mere choice of one. *)
Definition sleeps (h : HandleAction) : Prop := executable h = true ∧ HANDLE_ACTION_IS_SLEEP h = true.
Lemma soft_sleep_select g mask l : Forall sleeps l →
  soft g (sleep_select mask l) (λ o, ∀ h, o = Some h → sleeps h).
Proof.
  induction 1 as [|h l [Hh Hs] _ IH]; simpl; [by apply soft_ret|].
  destruct (negb _); [done|]. eapply soft_bind; [by apply soft_sleep_supported|]. intros r _.
  destruct (r <=? 0); [done|]. apply soft_ret. by intros ? [= <-].
Qed.
Lemma soft_handle_action_sleep_select g :
  soft g handle_action_sleep_select (λ o, ∀ h, o = Some h → sleeps h).
Proof.
  unfold handle_action_sleep_select. eapply soft_bind; [apply soft_conf|]. intros mask _.
  apply soft_sleep_select. by repeat constructor.
Qed.
Lemma safe_sleep_one g h ignored edge :
  WF ex0 g → coh g → sleeps h → safe g (handle_action_sleep_one h ignored edge).
Proof.
  intros Hwf Hg [Hh Hs]. unfold handle_action_sleep_one, handle_action_sleep_supported.
  eapply (safe_soft_bind _ _ _ (λ _, True)).
  { eapply soft_bind; [apply soft_assert; by destruct h|]. intros _ _.
    eapply soft_bind; [by apply soft_sleep_supported|]. intros. by apply soft_ret. }
  intros [] _; [by apply safe_handle_action_execute|].
  destruct (_ && _); [by apply safe_handle_action_execute|by apply safe_ret].
Qed.
Lemma safe_handle_action_sleep_execute g h ignored edge :
  WF ex0 g → coh g → HANDLE_ACTION_IS_SLEEP h = true → safe g (handle_action_sleep_execute h ignored edge).
Proof.
  intros Hwf Hg Hs. unfold handle_action_sleep_execute.
  eapply safe_soft_bind; [by apply soft_assert|]. intros _ _. case_bool_decide as Eh.
  - eapply safe_soft_bind; [apply soft_handle_action_sleep_select|]. intros [a|] Ha; [|by apply safe_ret].
    apply safe_sleep_one; [done..|]. by apply Ha.
  - apply safe_sleep_one; [done..|]. split; [|done]. by destruct h.
Qed.

Lemma safe_manager_handle_action g key h ignored edge seat :
  WF ex0 g → coh g → 0 ≤ key < _INHIBIT_WHAT_MAX → h ≠ HANDLE_FACTORY_RESET →
  safe g (manager_handle_action key h ignored edge seat).
Proof.
  intros Hwf Hg Hk Hh. unfold manager_handle_action. case_bool_decide as E1; [by apply safe_ret|].
  eapply safe_soft_bind; [apply soft_act|]. intros a _. destruct (_ && _); [by apply safe_ret|].
  eapply (safe_soft_bind _ _ _ (λ _, True)).
  { destruct (Z.ltb_spec 0 key); [|by apply soft_ret]. eapply soft_true, soft_is_inhibited; [done..|lia]. }
  intros x _. destruct x.1.1; [by apply safe_ret|].
  case_bool_decide as E2.
  { destruct (negb edge); [by apply safe_ret|].
    eapply safe_soft_bind; [by apply soft_ignore, soft_session_send_lock_all|]. intros. by apply safe_ret. }
  case_bool_decide as E3.
  { unfold manager_handle_action_secure_attention_key. destruct (negb edge); [by apply safe_ret|].
    destruct seat as [k|]; [|by apply safe_ret]. eapply safe_soft_bind; [apply soft_gets_true|].
    intros [s|] _; [|by apply safe_ret]. eapply safe_soft_bind; [apply soft_emit|]. intros. by apply safe_ret. }
  destruct (HANDLE_ACTION_IS_SLEEP h) eqn:E4; [by apply safe_handle_action_sleep_execute|].
  apply safe_handle_action_execute; [done..|]. by destruct h.
Qed.

(** * The schedule *)

(** Nothing is scheduled; [h] is, without and with a timer. *)
Definition scheduled (o : option HandleAction) (t : bool) (p : pnode) : pnode :=
  p <| pn_scheduled := o |> <| pn_timer := t |>.
Lemma pow_ok_unscheduled o p : pow_ok p → pow_ok (scheduled o false p).
Proof. intros []. by constructor. Qed.
Lemma pow_ok_scheduled h t p : pow_ok p → executable h = true → pow_ok (scheduled (Some h) t p).
Proof. intros [] Hh. constructor; cbn; eauto. Qed.

Lemma hoare_reset_scheduled_shutdown g :
  hoare g reset_scheduled_shutdown (λ _ g', g' = g <| g_pow := scheduled None false (g_pow g) |>).
Proof.
  unfold reset_scheduled_shutdown. eapply hoare_soft_bind; [apply soft_act|]. intros a _.
  eapply hoare_bind; [by apply (hoare_upd_act _ _ (scheduled None false))|]. intros _ g1 ->.
  eapply hoare_soft_bind; [apply soft_when; intros _; apply soft_emit|]. intros _ _.
  eapply hoare_soft_bind; [apply soft_emit|]. intros _ _. eapply hoare_mono; [apply soft_emit|]. by intros ? ? [-> _].
Qed.
Lemma safe_reset_then {A} g (k : MM A) : WF ex0 g → 
  (let g' := g <| g_pow := scheduled None false (g_pow g) |> in WF ex0 g' → coh g' → safe g' k) →
  safe g (reset_scheduled_shutdown ;;; k).
Proof.
  intros Hwf Hk. eapply hoare_bind; [apply hoare_reset_scheduled_shutdown|]. intros _ g' ->.
  apply hoare_coh. intros Hg'. apply Hk; [|done]. apply wf_set_pow; [done..|]. by apply pow_ok_unscheduled, Hwf.
Qed.
Lemma safe_reset_ret {A} g (a : A) : WF ex0 g → safe g (reset_scheduled_shutdown ;;; ret a).
Proof. intros Hwf. apply safe_reset_then; [done|]. intros g' Hwf' _. by apply safe_ret. Qed.

Lemma safe_scheduled_shutdown_handler g :
  WF ex0 g → coh g → pn_timer (g_pow g) = true → safe g manager_scheduled_shutdown_handler.
Proof.
  intros Hwf Hg Ht. destruct (po_timer _ (wf_pow _ _ Hwf) Ht) as (h&Hs&Hh).
  unfold manager_scheduled_shutdown_handler. eapply safe_soft_bind; [apply soft_act|]. intros a Ha.
  assert (Has : a_scheduled_shutdown_action a = Some h) by by rewrite <-Hs, <-Ha.
  rewrite Has. eapply safe_soft_bind; [by apply (soft_ret _ _ (λ x, x = h))|]. intros ? ->.
  destruct (is_some (a_delayed_action a)) eqn:Ed; [by apply safe_reset_ret|].
  destruct (a_shutdown_dry_run a); [by apply safe_reset_ret|].
  pose proof (no_job_yet _ _ _ Hwf Ha Ed) as Hj.
  eapply hoare_bind; [by apply safe_now_or_later|]. intros r g1 Hwf1. apply hoare_coh. intros Hg1.
  destruct (r <? 0); [by apply safe_reset_ret|by apply safe_ret].
Qed.

Lemma soft_warn_wall g n : soft g (warn_wall n) (λ _, True).
Proof.
  unfold warn_wall. eapply soft_bind; [apply soft_act|]. intros a _.
  destruct (a_scheduled_shutdown_action a); [|by apply soft_ret]. cbv zeta.
  eapply soft_bind; [apply soft_when; intros _; apply soft_emit|]. intros. by apply soft_ret.
Qed.
Lemma soft_wall_message_timeout_handler g : soft g wall_message_timeout_handler (λ _, True).
Proof.
  unfold wall_message_timeout_handler. cbv zeta. eapply soft_bind; [apply soft_warn_wall|]. intros r _.
  destruct (r =? 0); [by apply soft_ret|]. eapply soft_bind; [apply soft_act|]. intros a _.
  destruct (_ <? _); [|by apply soft_ret]. destruct (_ <? _); [by apply soft_ret|].
  eapply soft_bind; [by apply soft_upd_act|]. intros. by apply soft_ret.
Qed.
Lemma soft_setup_wall_message_timer g : soft g manager_setup_wall_message_timer (λ _, True).
Proof.
  unfold manager_setup_wall_message_timer. cbv zeta. eapply soft_bind; [apply soft_act|]. intros a _.
  destruct (negb _); [by apply soft_ret|]. destruct (_ && _); [by apply soft_ret|].
  eapply (soft_bind _ _ _ (λ _, True)). { destruct (_ || _); [apply soft_warn_wall|by apply soft_ret]. }
  intros r _. destruct (r =? 0); [by apply soft_ret|]. destruct (_ =? 0); [by apply soft_ret|].
  eapply soft_bind; [apply soft_act|]. intros a' _. destruct (event_reset_time _ _ _) as [r' t].
  eapply soft_bind; [by apply soft_upd_act|]. intros. by apply soft_ret.
Qed.
Lemma soft_nologin_timeout_handler g : soft g nologin_timeout_handler (λ _, True).
Proof. eapply soft_bind; [by apply soft_upd_act|]. intros. by apply soft_ret. Qed.

(** The timers: set, or both gone. *)
Lemma hoare_setup_shutdown_timers g h :
  pn_scheduled (g_pow g) = Some h →
  hoare g manager_setup_shutdown_timers
    (λ r g', ∃ t, g' = g <| g_pow := scheduled (Some h) t (g_pow g) |>).
Proof.
  intros Hs. unfold manager_setup_shutdown_timers. cbv zeta. eapply hoare_soft_bind; [apply soft_act|]. intros a Ha.
  assert (Hfail : ∀ g1 t r, g1 = g <| g_pow := scheduled (Some h) t (g_pow g) |> →
    hoare g1 (upd_act (λ a, a <| a_scheduled_shutdown_timeout_source := None |> <| a_nologin_timeout_source := None |>) ;;; ret r)
      (λ (_ : Z) g', ∃ t, g' = g <| g_pow := scheduled (Some h) t (g_pow g) |>)).
  { intros g1 t r ->. eapply hoare_bind; [by apply (hoare_upd_act _ _ (λ p, p <| pn_timer := false |>))|].
    intros _ g2 ->. apply hoare_ret. by exists false. }
  assert (Hsame : g = g <| g_pow := scheduled (Some h) (pn_timer (g_pow g)) (g_pow g) |>).
  { unfold scheduled. rewrite <-Hs. by destruct g as [? ? ? ? ? ? ? ? ? ? ? ? ? ? ? ? ? ? ? ? ? ? ? ? ? ? ? ? ? ? ? ? ? ? ? []]. }
  destruct (event_reset_time _ _ _) as [r t]. destruct (r <? 0); [by eapply Hfail|].
  eapply (hoare_bind _ _ _ (λ _ g', g' = g <| g_pow := scheduled (Some h) (is_some t) (g_pow g) |>)).
  { eapply hoare_mono; [by apply (hoare_upd_act _ _ (λ p, p <| pn_timer := is_some t |>))|].
    intros _ g1 ->. unfold scheduled. by rewrite <-Hs. }
  intros _ g1 Eg1. destruct (event_reset_time _ _ _) as [r' t']. destruct (r' <? 0); [by eapply Hfail|].
  eapply hoare_soft_bind; [by apply soft_upd_act|]. intros _ _. apply hoare_ret. by eexists.
Qed.
Lemma soft_update_schedule_file g h :
  pn_scheduled (g_pow g) = Some h → soft g update_schedule_file (λ _, True).
Proof.
  intros Hs. unfold update_schedule_file. eapply soft_bind; [apply soft_act|]. intros a Ha.
  assert (Has : a_scheduled_shutdown_action a = Some h) by by rewrite <-Hs, <-Ha.
  rewrite Has. eapply soft_bind; [by apply (soft_ret _ _ (λ x, x = h))|]. intros ? ->.
  destruct (_ <? 0); [by apply soft_ret|]. destruct (schedule_lines a h) as [r lines].
  destruct (_ <? 0); (eapply soft_bind; [apply soft_emit|]); intros; by apply soft_ret.
Qed.

(** * The methods *)

Lemma soft_have_multiple_sessions g uid : WF ex0 g → coh g → soft g (have_multiple_sessions uid) (λ _, True).
Proof.
  intros Hwf Hg. unfold have_multiple_sessions.
  eapply soft_bind; [by apply soft_session_ids|]. intros ids Hids.
  induction ids as [|i ids IH]; simpl; [by apply soft_ret|].
  eapply soft_bind; [apply soft_get_session, Hids; left|]. intros s Hr.
  assert (Hrec : soft g (other_user uid ids) (λ _, True)) by (apply IH; intros; apply Hids; by right).
  destruct (in_set _ _); [|done]. destruct (has_owner g Hwf i) as [o Ho]; [by eapply has_s_row|].
  assert (Es : s_user s = Some o) by (destruct Hr as (Hu&_); congruence). rewrite Es.
  eapply soft_bind; [by apply (soft_ret _ _ (λ x, x = o))|]. intros ? ->.
  eapply soft_bind; [eapply soft_get_user; eauto with links|]. intros u _.
  destruct (negb _); [by apply soft_ret|done].
Qed.
Lemma polkit_rows h : executable h = true →
  let d := handle_action_lookup h in
  is_Some (hd_polkit_action d) ∧ is_Some (hd_polkit_action_multiple_sessions d) ∧ is_Some (hd_polkit_action_ignore_inhibit d).
Proof. destruct h; cbn; intros H; try discriminate H; split_and!; by eexists. Qed.
Lemma safe_polkit_row_check g msg o k : WF ex0 g → is_Some o → safe g k → safe g (polkit_row_check msg o k).
Proof.
  intros Hwf Ho Hk. unfold polkit_row_check. eapply (safe_soft_bind _ _ _ (λ _, True)); [by apply soft_deref|].
  intros p _. by apply safe_polkit.
Qed.
Lemma safe_verify g msg h flags k :
  WF ex0 g → coh g → executable h = true → safe g k → safe g (verify_shutdown_creds msg h flags k).
Proof.
  intros Hwf Hg Hh Hk. destruct (polkit_rows h Hh) as (H1&H2&H3). unfold verify_shutdown_creds. cbv zeta.
  apply safe_attempt; [done|]. intros uid. eapply safe_soft_bind; [by apply soft_have_multiple_sessions|]. intros multiple _.
  eapply safe_soft_bind; [apply soft_is_inhibited; [done..|by apply executable_what]|]. intros [[blocked ts] o] Hx.
  cbn in Hx. cbn [fst snd].
  assert (Hin : safe g (if blocked then
      offending <- deref o ;;
      if negb (FLAGS_SET flags SD_LOGIND_SKIP_INHIBITORS)
         && (negb (bool_decide (i_mode offending = Some INHIBIT_BLOCK_WEAK))
             || ((uid =? 0) && FLAGS_SET flags SD_LOGIND_ROOT_CHECK_INHIBITORS))
      then ret (BusError SD_BUS_ERROR_ACCESS_DENIED)
      else polkit_row_check msg (hd_polkit_action_ignore_inhibit (handle_action_lookup h)) k
    else if multiple then k else polkit_row_check msg (hd_polkit_action (handle_action_lookup h)) k)).
  { destruct blocked; [|destruct multiple; [done|by apply safe_polkit_row_check]].
    eapply (safe_soft_bind _ _ _ (λ _, True)); [apply soft_deref; [by destruct o|done]|]. intros i _.
    destruct (_ && _); [by apply safe_ret|by apply safe_polkit_row_check]. }
  destruct multiple; [by apply safe_polkit_row_check|done].
Qed.

Lemma soft_setup_wall_timer g msg : soft g (setup_wall_message_timer msg) (λ _, True).
Proof.
  unfold setup_wall_message_timer. eapply (soft_bind _ _ _ (λ _, True)).
  { destruct (msg_creds msg) as [r|[uid tty]]; [by apply soft_ret|by apply soft_upd_act]. }
  intros _ _. eapply soft_bind; [apply soft_setup_wall_message_timer|]. intros. by apply soft_ret.
Qed.
Lemma soft_set_scheduled_sleep_uid g msg : soft g (set_scheduled_sleep_uid msg) (λ _, True).
Proof.
  unfold set_scheduled_sleep_uid. eapply (soft_bind _ _ _ (λ _, True)).
  { destruct (msg_creds msg) as [r|[[uid|] tty]]; [by apply soft_ret|by apply soft_upd_act|by apply soft_ret]. }
  intros _ _. eapply soft_bind; [apply soft_act|]. intros a _. apply soft_when. intros _.
  destruct e_active_uid; [by apply soft_upd_act|by apply soft_ret].
Qed.
Lemma safe_do_shutdown_or_sleep g action h msg :
  WF ex0 g → coh g → executable h = true → safe g (do_shutdown_or_sleep action h msg).
Proof.
  intros Hwf Hg Hh. unfold do_shutdown_or_sleep. eapply safe_soft_bind; [apply soft_set_scheduled_sleep_uid|]. intros _ _.
  eapply safe_soft_bind; [apply soft_act|]. intros a Ha.
  destruct (is_some (a_delayed_action a)) eqn:Ed; [by apply safe_ret|].
  pose proof (no_job_yet _ _ _ Hwf Ha Ed) as Hj.
  eapply safe_soft_bind; [by apply soft_upd_act|]. intros _ _.
  apply safe_reset_then; [done|]. intros g1 Hwf1 Hg1.
  eapply (safe_upd_act _ _ (λ p, p <| pn_scheduled := Some action |>)); [done..|by apply (pow_ok_unscheduled (Some action)), Hwf|].
  intros g2 Hwf2 Hg2. eapply safe_soft_bind; [apply soft_ignore, soft_setup_wall_timer|]. intros _ _.
  apply safe_result. by apply safe_now_or_later.
Qed.
Lemma soft_choose_action g action flags :
  HANDLE_ACTION_IS_SHUTDOWN action || HANDLE_ACTION_IS_SLEEP action = true →
  soft g (choose_action action flags) (λ r, ∀ h, r = inr h → executable h = true).
Proof.
  intros Ha. unfold choose_action. case_bool_decide as Es.
  { eapply soft_bind; [apply soft_handle_action_sleep_select|]. intros [h|] Hh; apply soft_ret; [|done].
    intros ? [= <-]. by apply Hh. }
  destruct (HANDLE_ACTION_IS_SLEEP action) eqn:E1.
  { assert (He : executable action = true) by by destruct action.
    eapply soft_bind; [by apply soft_sleep_supported|]. intros r _. apply soft_ret.
    intros h Hh. repeat case_match; simplify_eq; done. }
  apply soft_ret. intros h [= <-]. destruct (_ && _); [done|by destruct action].
Qed.
Lemma safe_method_do_shutdown_or_sleep g action arg msg :
  WF ex0 g → coh g → HANDLE_ACTION_IS_SHUTDOWN action || HANDLE_ACTION_IS_SLEEP action = true →
  safe g (method_do_shutdown_or_sleep action arg msg).
Proof.
  intros Hwf Hg Ha. unfold method_do_shutdown_or_sleep. eapply safe_soft_bind; [by apply soft_assert|]. intros _ _.
  eapply (safe_try _ Hwf _ _ (λ _, True)); [by apply soft_ret|]. intros flags _.
  eapply safe_try; [done|by apply soft_choose_action|]. intros h Hh. specialize (Hh _ eq_refl).
  apply safe_verify; [done..|]. by apply safe_do_shutdown_or_sleep.
Qed.
Lemma safe_do_schedule_shutdown g h dry elapse msg :
  WF ex0 g → coh g → executable h = true → safe g (do_schedule_shutdown h dry elapse msg).
Proof.
  intros Hwf Hg Hh. unfold do_schedule_shutdown.
  eapply (safe_upd_act _ _ (λ p, scheduled (Some h) (pn_timer p) p)); [done..|by apply pow_ok_scheduled; [apply Hwf|]|].
  intros g1 Hwf1 Hg1. eapply hoare_bind; [by apply (hoare_setup_shutdown_timers g1 h)|].
  intros r g2 [t ->]. set (g2 := g1 <| g_pow := _ |>).
  assert (Hwf2 : WF ex0 g2) by (apply wf_set_pow; [done|done|apply pow_ok_scheduled; [apply Hwf1|done]]).
  destruct (r <? 0); [by apply safe_ret|].
  eapply safe_soft_bind; [apply soft_setup_wall_timer|]. intros r1 _.
  eapply (safe_soft_bind _ _ _ (λ _, True)).
  { destruct (_ <=? _); [by apply (soft_update_schedule_file _ h)|by apply soft_ret]. }
  intros r2 _. destruct (r2 <? 0); [by apply safe_reset_ret|].
  eapply safe_soft_bind; [apply soft_emit|]. intros. by apply safe_ret.
Qed.
Lemma safe_method_schedule_shutdown g type elapse msg :
  WF ex0 g → coh g → safe g (method_schedule_shutdown type elapse msg).
Proof.
  intros Hwf Hg. unfold method_schedule_shutdown. destruct (shutdown_type type) as [t dry].
  destruct (from_string _) as [h|]; [|by apply safe_ret].
  destruct (HANDLE_ACTION_IS_SHUTDOWN h) eqn:Es; [|by apply safe_ret]. cbn [negb].
  assert (Hh : executable h = true) by by destruct h. apply safe_verify; [done..|].
  eapply (safe_try _ Hwf _ _ (λ _, True)); [by apply soft_ret|]. intros el _. by apply safe_do_schedule_shutdown.
Qed.
Lemma safe_method_cancel g msg : WF ex0 g → coh g → safe g (method_cancel_scheduled_shutdown msg).
Proof.
  intros Hwf Hg. unfold method_cancel_scheduled_shutdown. eapply safe_soft_bind; [apply soft_act|]. intros a Ha.
  assert (Hp : ∀ p, safe g (polkit msg p (
      when (a_enable_wall_messages a) (emit (Wall (cancel_message a))) ;;;
      cancel_delayed_action ;;; reset_scheduled_shutdown ;;; ret (ReplyBool true)))).
  { intros p. apply safe_polkit; [done|]. eapply safe_soft_bind; [apply soft_when; intros _; apply soft_emit|]. intros _ _.
    unfold cancel_delayed_action.
    apply (safe_upd_act _ _ (λ p, p <| pn_delayed := if pn_job p then pn_delayed p else None |>)); [done..| |].
    - destruct (wf_pow _ _ Hwf) as [H1 H2 H3 H4 H5]. constructor; cbn;
        [intros Hj; rewrite Hj; by apply H1|done|done|destruct (pn_job (g_pow g)); [done|by intros ? [=]]|done].
    - intros g1 Hwf1 Hg1. by apply safe_reset_ret. }
  destruct (a_scheduled_shutdown_action a) as [[]|];
    try (by apply safe_ret); destruct (hd_polkit_action _); try (by apply safe_ret); apply Hp.
Qed.
Lemma safe_method_set_wall_message g w b msg : WF ex0 g → safe g (method_set_wall_message w b msg).
Proof.
  intros Hwf. unfold method_set_wall_message. destruct (_ <? _); [by apply safe_ret|].
  eapply safe_soft_bind; [apply soft_act|]. intros a _. destruct (_ && _); [by apply safe_ret|].
  apply safe_polkit; [done|]. eapply safe_soft_bind; [by apply soft_upd_act|]. intros. by apply safe_ret.
Qed.

Lemma soft_can_result g test o f old : is_Some o → soft g (can_result test o f old) (λ _, True).
Proof. intros Ho. unfold can_result. eapply (soft_bind _ _ _ (λ _, True)); [by apply soft_deref|]. intros. by apply soft_ret. Qed.
Lemma soft_and_then g c k : soft g c (λ _, True) → (∀ o, soft g (k o) (λ _, True)) → soft g (and_then c k) (λ _, True).
Proof. intros Hc Hk. unfold and_then. eapply soft_bind; [exact Hc|]. intros [r|o] _; [by apply soft_ret|apply Hk]. Qed.
Lemma safe_can_answer g h test msg : WF ex0 g → coh g → executable h = true → safe g (can_answer h test msg).
Proof.
  intros Hwf Hg Hh. destruct (polkit_rows h Hh) as (H1&H2&H3). unfold can_answer. cbv zeta.
  apply safe_attempt; [done|]. intros uid. eapply safe_soft_bind; [by apply soft_have_multiple_sessions|]. intros multiple _.
  eapply safe_soft_bind; [eapply soft_true, soft_is_inhibited; [done..|by apply executable_what]|]. intros x _.
  eapply (safe_soft_bind _ _ _ (λ _, True)); [|intros; by apply safe_ret].
  apply soft_and_then; [destruct multiple; [by apply soft_can_result|by apply soft_ret]|]. intros o.
  apply soft_and_then; [destruct x.1.1; [by apply soft_can_result|by apply soft_ret]|]. intros o'.
  destruct (_ && _); [by apply soft_can_result|by apply soft_ret].
Qed.
Lemma safe_method_can g action test msg :
  WF ex0 g → coh g → HANDLE_ACTION_IS_SHUTDOWN action || HANDLE_ACTION_IS_SLEEP action = true →
  safe g (method_can_shutdown_or_sleep action test msg).
Proof.
  intros Hwf Hg Ha. unfold method_can_shutdown_or_sleep. eapply safe_soft_bind; [by apply soft_assert|]. intros _ _.
  case_bool_decide as Es.
  { eapply safe_soft_bind; [apply soft_handle_action_sleep_select|]. intros [h|] Hh; [|by apply safe_ret].
    apply safe_can_answer; [done..|]. by apply Hh. }
  destruct (HANDLE_ACTION_IS_SLEEP action) eqn:E1; [|by apply safe_can_answer; try done; destruct action].
  eapply (safe_soft_bind _ _ _ (λ _, True)); [apply soft_deref; [destruct action; try done; by eexists|done]|]. intros op _.
  destruct (_ <? 0); [by apply safe_ret|]. destruct (_ =? 0); [by apply safe_ret|].
  apply safe_can_answer; [done..|by destruct action].
Qed.
End Schedule.
