(* ===== verification/LinksKeys.v ===== *)
(** Keys, the lid and the idle timer: no handler crashes, as long as the button
    that a key's timer is for is still there, and all keep the invariant. *)
From S2P Require Import Prelude Time LoginTypes ActionTypes LoginState LoginEnv Bus Objects Session User SessionBus ManagerBus Inhibit Wall Power Schedule Buttons Events Cols Links LinksObjects LinksBus LinksPower LinksSchedule.
#[local] Open Scope Z_scope.

(** * What a power action leaves alone: all but the power actions and the trace *)

Definition power_only (m m' : manager) : Prop :=
  m' = m <| m_act := m_act m' |> <| m_trace := m_trace m' |>.
#[export] Instance power_only_preorder : PreOrder power_only.
Proof.
  split; [by intros []|]. unfold power_only. intros m1 m2 m3 H1 H2. rewrite H2, H1. by destruct m1.
Qed.
Lemma power_only_buttons m m' : power_only m m' → m_buttons m' = m_buttons m.
Proof. by intros ->. Qed.
Lemma moves_power_modify f : (∀ m, power_only m (f m)) → moves power_only (modify f).
Proof. apply moves_modify. Qed.
#[export] Hint Extern 2 (moves power_only (modify _)) => apply moves_power_modify; intros []; reflexivity : moves.
Lemma power_emit ev : moves power_only (emit ev).
Proof. apply moves_modify. by intros []. Qed.
Lemma power_upd_act f : moves power_only (upd_act f).
Proof. apply moves_modify. by intros []. Qed.
Lemma power_get_session sid : moves power_only (get_session sid).
Proof. unfold get_session. solve_moves. Qed.
Lemma power_get_seat k : moves power_only (get_seat k).
Proof. unfold get_seat. solve_moves. Qed.
#[export] Hint Resolve power_emit power_upd_act power_get_session power_get_seat : moves.

Section Frame.
Context {E : Env}.
Lemma power_is_inhibited w b i o u : moves power_only (manager_is_inhibited w b i o u).
Proof.
  unfold manager_is_inhibited, all_inhibitors, inhibited_step, pidref_is_active_session,
    manager_get_session_by_pidref, session_is_active. solve_moves.
Qed.
Lemma power_lock_all b : moves power_only (session_send_lock_all b).
Proof. unfold session_send_lock_all, session_send_lock. solve_moves. Qed.
Hint Resolve power_is_inhibited power_lock_all : moves.
Lemma power_set_lid_switch_ignore t : moves power_only (manager_set_lid_switch_ignore t).
Proof. unfold manager_set_lid_switch_ignore. solve_moves. Qed.
Hint Resolve power_set_lid_switch_ignore : moves.
Lemma power_now_or_later h : moves power_only (bus_manager_shutdown_or_sleep_now_or_later h).
Proof.
  unfold bus_manager_shutdown_or_sleep_now_or_later, is_delayed, delay_shutdown_or_sleep,
    execute_shutdown_or_sleep, elogind_execute_shutdown_or_sleep, send_prepare_for. solve_moves.
Qed.
Hint Resolve power_now_or_later : moves.
Lemma power_execute h i e : moves power_only (handle_action_execute h i e).
Proof. unfold handle_action_execute. solve_moves. Qed.
Hint Resolve power_execute : moves.
Lemma power_sleep_select mask l : moves power_only (sleep_select mask l).
Proof. induction l as [|h l IH]; simpl; unfold sleep_supported; solve_moves. Qed.
Hint Resolve power_sleep_select : moves.
Lemma power_handle_action k h i e s : moves power_only (manager_handle_action k h i e s).
Proof.
  unfold manager_handle_action, manager_handle_action_secure_attention_key, handle_action_sleep_execute,
    handle_action_sleep_one, handle_action_sleep_supported, handle_action_sleep_select, sleep_supported. solve_moves.
Qed.
Hint Resolve power_handle_action : moves.
Lemma power_dispatch_idle : moves power_only manager_dispatch_idle_action.
Proof.
  unfold manager_dispatch_idle_action, idle_elapse, act_on_idle, manager_get_idle_hint, user_idle_step,
    session_get_idle_hint. solve_moves.
Qed.
Lemma power_reset_schedule : moves power_only reset_scheduled_shutdown.
Proof. unfold reset_scheduled_shutdown. solve_moves. Qed.
End Frame.
#[export] Hint Resolve power_set_lid_switch_ignore power_dispatch_idle power_reset_schedule : moves.

(** * Buttons *)

Definition has_b (g : cols) (name : string) : Prop := is_Some (g_btn g !! name).
Lemma wf_set_btn x g name n : WF x g → button_ok n → WF x (g <| g_btn := <[name := n]> (g_btn g) |>).
Proof.
  intros Hwf Hn. destruct Hwf. constructor; cbn; try assumption; [by apply map_Forall_insert_2|].
  intros name' Hin. destruct (wf_keys name' Hin) as [Hb ?]. split; [|done].
  destruct (decide (name = name')) as [<-|]; [rewrite lookup_insert_eq; by eexists|by rewrite lookup_insert_ne].
Qed.

Section Rules.
Context {Bt : Boot} (g : cols).
Lemma soft_get_button name : has_b g name → soft g (get_button name) (λ b, g_btn g !! name = Some (bnode_of b)).
Proof.
  intros Hb m <-. unfold has_b in Hb; cbn in Hb. rewrite lookup_fmap in Hb. unfold get_button. apply wp_bind, wp_gets.
  destruct (m_buttons m !! name) as [b|] eqn:Eb; [|by destruct Hb]. eapply wp_deref; [done|].
  split; [done|]. cbn. by rewrite lookup_fmap, Eb.
Qed.
Lemma hoare_upd_button name f :
  has_b g name → hoare g (upd_button name f)
    (λ _ g', ∃ b, g_btn g !! name = Some (bnode_of b) ∧ g' = g <| g_btn := <[name := bnode_of (f b)]> (g_btn g) |>).
Proof.
  intros Hb. unfold upd_button. eapply hoare_soft_bind; [by apply soft_get_button|]. intros b Hr.
  apply hoare_modify. intros m <-. exists b. split; [done|]. unfold cols_of; cbn. by rewrite fmap_insert.
Qed.
(** An update that keeps the lid watched only while it is closed. *)
Lemma safe_upd_button {A} name f (k : MM A) :
  WF ex0 g → has_b g name → (∀ b, button_ok (bnode_of b) → button_ok (bnode_of (f b))) →
  (∀ g', WF ex0 g' → coh g' → has_b g' name → safe g' k) → safe g (upd_button name f ;;; k).
Proof.
  intros Hwf Hb Hf Hk. eapply hoare_bind; [by apply hoare_upd_button|]. intros _ g' (b&Hr&->).
  apply hoare_coh. intros Hg'. apply Hk; [|done|].
  - apply wf_set_btn; [done|]. apply Hf. by eapply (wf_btn _ _ Hwf).
  - unfold has_b; cbn. rewrite lookup_insert_eq. by eexists.
Qed.
Lemma safe_upd_button_end name f :
  WF ex0 g → has_b g name → (∀ b, button_ok (bnode_of b) → button_ok (bnode_of (f b))) → safe g (upd_button name f).
Proof.
  intros Hwf Hb Hf. eapply hoare_mono; [by apply hoare_upd_button|]. intros _ g' (b&Hr&->).
  apply wf_set_btn; [done|]. apply Hf. by eapply (wf_btn _ _ Hwf).
Qed.
End Rules.

(** The keys that are being timed. *)
Lemma timed_elem k a t name : key_timer k a = Some (t, name) → name ∈ timed_buttons a.
Proof.
  unfold timed_buttons. rewrite list_elem_of_omap. intros H. exists (Some (t, name)).
  split; [|done]. destruct k; cbn in H; rewrite H; set_solver.
Qed.
Lemma timed_inv a name : name ∈ timed_buttons a → ∃ k t, key_timer k a = Some (t, name).
Proof.
  unfold timed_buttons. rewrite list_elem_of_omap. intros ([[t n]|]&Hin&H); [|done]. injection H as <-.
  rewrite !elem_of_cons in Hin. destruct Hin as [H|[H|[H|[H|H]]]]; [exists PowerKey|exists RebootKey|exists SuspendKey|exists HibernateKey|by apply elem_of_nil in H];
    by exists t.
Qed.
(** Setting the timer of a key to a button that is there, or dropping it. *)
Lemma timed_after_set k o a name :
  name ∈ timed_buttons (set_key_timer k o a) → name ∈ timed_buttons a ∨ snd <$> o = Some name.
Proof.
  unfold timed_buttons. destruct k; cbn; destruct o as [[]|], (a_power_key_long_press a) as [[]|], (a_reboot_key_long_press a) as [[]|],
    (a_suspend_key_long_press a) as [[]|], (a_hibernate_key_long_press a) as [[]|]; cbn; set_solver.
Qed.

Section Keys.
Context {E : Env} {Ok : EnvOk}.

(** A key's action, and what follows it, which finds the buttons as they were. *)
Lemma hoare_handle_action g key h ignored edge seat :
  WF ex0 g → coh g → 0 ≤ key < _INHIBIT_WHAT_MAX → h ≠ HANDLE_FACTORY_RESET →
  hoare g (manager_handle_action key h ignored edge seat) (λ _ g', WF ex0 g' ∧ g_btn g' = g_btn g).
Proof.
  intros Hwf Hg Hk Hh m Hm. pose proof (safe_manager_handle_action g key h ignored edge seat Hwf Hg Hk Hh m Hm) as Hs.
  eapply wp_mono; [eapply wp_moves; [apply power_handle_action|exact Hs]|].
  intros a m' [Hwf' Hp]. split; [done|]. cbn. rewrite (power_only_buttons _ _ Hp). by rewrite <-Hm.
Qed.
Lemma conf_action g (f : config → HandleAction) :
  WF ex0 g → (∀ c, f c ∈ handled_actions c) → f (g_conf g) ≠ HANDLE_FACTORY_RESET.
Proof. intros Hwf Hf Ef. pose proof (wf_conf _ _ Hwf) as [Hn _]. apply Hn. rewrite <-Ef. apply Hf. Qed.
Lemma key_short_in k c : key_short k c ∈ handled_actions c.
Proof. unfold handled_actions. destruct k; cbn [key_short]; set_solver. Qed.
Lemma key_long_in k c : key_long k c ∈ handled_actions c.
Proof. unfold handled_actions. destruct k; cbn [key_long]; set_solver. Qed.
Lemma key_inhibit_range k : 0 ≤ key_inhibit k < _INHIBIT_WHAT_MAX.
Proof. by destruct k. Qed.

Lemma soft_lid_action g : WF ex0 g → soft g (gets lid_action) (λ h, h ≠ HANDLE_FACTORY_RESET).
Proof.
  intros Hwf. apply soft_gets. intros m Hm Eh. pose proof (wf_conf _ _ Hwf) as [Hn _]. apply Hn.
  rewrite <-Eh, <-Hm. unfold lid_action, handled_actions; cbn. repeat case_match; simplify_eq/=; set_solver.
Qed.
Lemma hoare_lid_action g edge seat :
  WF ex0 g → coh g → hoare g (button_lid_switch_handle_action edge seat) (λ _ g', WF ex0 g' ∧ g_btn g' = g_btn g).
Proof.
  intros Hwf Hg. unfold button_lid_switch_handle_action.
  eapply hoare_soft_bind; [by apply soft_lid_action|]. intros h Hh.
  eapply hoare_soft_bind; [apply soft_conf|]. intros i _. apply hoare_ignore. by apply hoare_handle_action.
Qed.
Lemma safe_key_action g k h seat :
  WF ex0 g → coh g → h ≠ HANDLE_FACTORY_RESET → safe g (key_action k h seat).
Proof.
  intros Hwf Hg Hh. unfold key_action. eapply safe_soft_bind; [apply (soft_conf _ (key_ignore_inhibited k))|].
  intros i _. apply safe_ignore. apply safe_manager_handle_action; [done..|apply key_inhibit_range|done].
Qed.

(** A check source is there while the lid is closed. *)
Lemma hoare_install_check g name :
  WF ex0 g → coh g → has_b g name → (∀ n, g_btn g !! name = Some n → n.2 = true) →
  safe g (button_install_check_event_source name).
Proof.
  intros Hwf Hg Hb Hn. unfold button_install_check_event_source.
  eapply safe_soft_bind; [by apply soft_get_button|]. intros b Hr. destruct (b_check_event_source b); [by apply safe_ret|].
  destruct (_ <? 0); [by apply safe_ret|].
  eapply hoare_bind; [by apply hoare_upd_button|]. intros _ g' (b'&Hr'&->). apply hoare_ret.
  apply wf_set_btn; [done|]. intros _. by apply (Hn _ Hr').
Qed.
Lemma safe_button_recheck g name :
  WF ex0 g → coh g → (∃ n, g_btn g !! name = Some n ∧ n.1 = true) → safe g (button_recheck name).
Proof.
  intros Hwf Hg (n&Hn&Hc). assert (Hl : n.2 = true) by by apply (wf_btn _ _ Hwf) in Hn; apply Hn.
  unfold button_recheck. eapply safe_soft_bind; [apply soft_get_button; by eexists|]. intros b Hr.
  rewrite Hn in Hr. injection Hr as ->. eapply safe_soft_bind; [by apply soft_assert|]. intros _ _.
  eapply hoare_bind; [by apply hoare_lid_action|]. intros _ g' [? _]. by apply hoare_ret.
Qed.

(** ** Events *)

Lemma hoare_set_key_timer g k o :
  WF ex0 g → (∀ name, snd <$> o = Some name → has_b g name) →
  hoare g (upd_act (set_key_timer k o)) (λ _ g', WF ex0 g' ∧ g_btn g' = g_btn g).
Proof.
  intros Hwf Ho. apply hoare_modify. intros m <-. split; [|done].
  assert (Hc : cols_of (m <| m_act := set_key_timer k o (m_act m) |>) =
    (cols_of m) <| g_pow := pnode_of (set_key_timer k o (m_act m)) |>) by done.
  rewrite Hc. apply wf_set_keys; [done| |].
  - replace (pnode_of (set_key_timer k o (m_act m))) with
      ((pnode_of (m_act m)) <| pn_keys := timed_buttons (set_key_timer k o (m_act m)) |>) by by destruct k.
    by destruct (wf_pow _ _ Hwf).
  - intros name [Hin|Hn]%timed_after_set; [by apply (wf_keys _ _ Hwf)|]. split; [by apply Ho|done].
Qed.
Lemma safe_drop_key_timer {A} g k (c : MM A) :
  WF ex0 g → (∀ g', WF ex0 g' → coh g' → safe g' c) → safe g (upd_act (set_key_timer k None) ;;; c).
Proof.
  intros Hwf Hk. eapply hoare_bind; [by apply hoare_set_key_timer|]. intros _ g' [Hwf' _].
  apply hoare_coh. intros Hg'. by apply Hk.
Qed.

Lemma safe_key_pressed g k name seat : WF ex0 g → coh g → has_b g name → safe g (key_pressed k name seat).
Proof.
  intros Hwf Hg Hb. unfold key_pressed. eapply safe_soft_bind; [apply (soft_conf _ (λ c, c))|]. intros c ->.
  destruct (_ && _).
  - unfold start_long_press. eapply safe_soft_bind; [apply soft_act|]. intros a _.
    destruct (is_some _); [by apply safe_ret|]. destruct (_ <? 0); [by apply safe_ret|].
    eapply hoare_mono; [apply hoare_set_key_timer; [done|by intros ? [= <-]]|]. by intros _ g' [? _].
  - apply safe_key_action; [done..|]. apply (conf_action g (key_short k)); [done|apply key_short_in].
Qed.
Lemma safe_key_released g k seat : WF ex0 g → coh g → safe g (key_released k seat).
Proof.
  intros Hwf Hg. unfold key_released. eapply safe_soft_bind; [apply soft_act|]. intros a _.
  destruct (is_some _); [|by apply safe_ret]. cbn [when]. apply safe_drop_key_timer; [done|]. intros g' Hwf' Hg'.
  eapply safe_soft_bind; [apply (soft_conf _ (key_short k))|]. intros h ->.
  apply safe_key_action; [done..|]. apply (conf_action g' (key_short k)); [done|apply key_short_in].
Qed.
Lemma safe_long_press_handler g k name : WF ex0 g → coh g → has_b g name → safe g (long_press_handler k name).
Proof.
  intros Hwf Hg Hb. unfold long_press_handler. eapply safe_soft_bind; [by apply soft_get_button|]. intros b _.
  apply safe_drop_key_timer; [done|]. intros g' Hwf' Hg'.
  eapply safe_soft_bind; [apply (soft_conf _ (key_long k))|]. intros h ->.
  eapply safe_bind; [apply safe_key_action; [done..|]|by intros; apply safe_ret].
  apply (conf_action g' (key_long k)); [done|apply key_long_in].
Qed.
Lemma safe_escape_pressed g b : WF ex0 g → coh g → safe g (escape_pressed b).
Proof.
  intros Hwf Hg. unfold escape_pressed. eapply safe_soft_bind; [apply (soft_conf _ c_handle_secure_attention_key)|]. intros h ->.
  case_bool_decide; [by apply safe_ret|]. destruct (_ || _); [by apply safe_ret|].
  apply safe_ignore, safe_manager_handle_action; [done..|].
  apply (conf_action g c_handle_secure_attention_key); [done|]. intros c. unfold handled_actions. set_solver.
Qed.
Lemma safe_change_modifiers g name code f :
  WF ex0 g → has_b g name → 0 < code → safe g (change_modifiers name code f).
Proof.
  intros Hwf Hb Hc. unfold change_modifiers. eapply safe_soft_bind; [apply soft_assert; lia|]. intros _ _.
  by apply safe_upd_button_end.
Qed.
Lemma safe_lid_closed g name b : WF ex0 g → coh g → has_b g name → safe g (lid_closed_event name b).
Proof.
  intros Hwf Hg Hb. unfold lid_closed_event. eapply hoare_bind; [by apply hoare_upd_button|].
  intros _ g1 (b1&Hr1&->). set (g1 := g <| g_btn := _ |>).
  assert (Hwf1 : WF ex0 g1) by by apply wf_set_btn. apply hoare_coh. intros Hg1.
  assert (H1 : g_btn g1 !! name = Some (bnode_of (b1 <| b_lid_closed := true |>))) by (cbn; by rewrite lookup_insert_eq).
  eapply hoare_bind; [by apply hoare_lid_action|]. intros _ g2 [Hwf2 Eb]. apply hoare_coh. intros Hg2.
  eapply safe_bind; [apply safe_ignore, hoare_install_check; [done..|unfold has_b; rewrite Eb, H1; by eexists|]|].
  - rewrite Eb, H1. by intros ? [= <-].
  - intros _ g3 Hwf3 _. eapply safe_soft; [exact Hwf3|apply soft_emit].
Qed.

Lemma safe_button_event g name ev :
  WF ex0 g → coh g → has_b g name → key_ok ev → safe g (button_event name ev).
Proof.
  intros Hwf Hg Hb Hk. unfold button_event. eapply safe_soft_bind; [by apply soft_get_button|]. intros b _. cbv zeta.
  destruct ((ev_type ev =? EV_KEY) && (0 <? ev_value ev)) eqn:E1.
  { apply andb_prop in E1 as [Ht%Z.eqb_eq _]. destruct (key_of_code _); [by apply safe_key_pressed|].
    destruct (ev_code ev =? KEY_ESC); [by apply safe_escape_pressed|]. apply safe_change_modifiers; auto. }
  destruct ((ev_type ev =? EV_KEY) && (ev_value ev =? 0)) eqn:E2.
  { apply andb_prop in E2 as [Ht%Z.eqb_eq _]. destruct (key_of_code _); [by apply safe_key_released|].
    destruct (ev_code ev =? KEY_ESC); [by apply safe_ret|]. apply safe_change_modifiers; auto. }
  destruct ((ev_type ev =? EV_SW) && (0 <? ev_value ev)).
  { destruct (ev_code ev =? SW_LID); [by apply safe_lid_closed|]. destruct (ev_code ev =? SW_DOCK); [|by apply safe_ret].
    by apply safe_upd_button_end. }
  destruct ((ev_type ev =? EV_SW) && (ev_value ev =? 0)); [|by apply safe_ret]. destruct (ev_code ev =? SW_LID).
  - unfold lid_opened_event. apply safe_upd_button; [done..|]. intros g' Hwf' _ _. eapply safe_soft; [done|apply soft_emit].
  - destruct (ev_code ev =? SW_DOCK); [|by apply safe_ret]. by apply safe_upd_button_end.
Qed.
Lemma safe_button_dispatch g name fd l m :
  WF ex0 g → coh g → cols_of m = g → (∃ b, m_buttons m !! name = Some b ∧ fd = b_fd b) →
  (∀ ev, l = inr (Some ev) → key_ok ev) → wp (button_dispatch name fd l) (λ _ m', WF ex0 (cols_of m')) m.
Proof.
  intros Hwf Hg Hm (b&Hb&->) Hl. unfold button_dispatch, get_button. apply wp_bind, wp_bind, wp_gets.
  eapply wp_deref; [done|]. apply wp_bind, wp_assert; [apply Z.eqb_refl|]. destruct l as [err|[ev|]]; [by apply wp_ret; rewrite Hm| |by apply wp_ret; rewrite Hm].
  apply wp_bind. eapply wp_mono; [apply (safe_button_event g); [done..| |by apply Hl|done]|].
  { rewrite <-Hm. unfold has_b; cbn. rewrite lookup_fmap, Hb. by eexists. }
  intros ? m' ?. by apply wp_ret.
Qed.

End Keys.

(** * Buttons that come and go *)

Section Plug.
Context {E : Env} {Bt : Boot} {Ok : EnvOk}.

(** No key of the button is being timed. *)
Definition untimed (g : cols) (name : string) : Prop := name ∉ pn_keys (g_pow g).
Lemma safe_button_free g name : WF ex0 g → untimed g name → safe g (button_free name).
Proof.
  intros Hwf Hun. apply hoare_modify. intros m <-.
  enough (Hc : cols_of (m <| m_buttons := delete name (m_buttons m) |>) = (cols_of m) <| g_btn := delete name (g_btn (cols_of m)) |>).
  { rewrite Hc. pose proof (wf_btn _ _ Hwf) as Hb. destruct Hwf. constructor; cbn; try assumption.
    - by apply map_Forall_delete.
    - intros name' Hin. rewrite lookup_delete_ne by (by intros ->). by apply wf_keys. }
  unfold cols_of; cbn. by rewrite fmap_delete.
Qed.
(** The button after opening it: the power actions are not touched, and the
    result is what the device alone decides. *)
Lemma button_open_result name m r m' : button_open name m = Some (r, m') → opens name = true → 0 ≤ r.
Proof.
  unfold button_open, opens. intros ([]&m1&_&H)%bind_Some. revert H. cbv zeta. set (fd := e_open _).
  rewrite !andb_true_iff, !Z.leb_le, Z.ltb_lt. intros H ((((H1&H2)&H3)&H4)&H5). revert H.
  rewrite (proj2 (Z.ltb_ge fd 0)), (proj2 (Z.ltb_ge (button_suitable fd) 0)), (proj2 (Z.eqb_neq _ 0)),
    (proj2 (Z.ltb_ge (e_input_name fd) 0)) by lia. intros ([]&m2&_&H)%bind_Some. revert H.
  rewrite (proj2 (Z.ltb_ge (e_event_add _) 0)) by lia. intros ([]&m3&Hu&(k&m4&Hm&H)%bind_Some)%bind_Some. injection H as <- <-.
  assert (Hb : ∃ b, m_buttons m3 !! name = Some b ∧ b_fd b = fd).
  { unfold upd_button in Hu. apply bind_Some in Hu as (b&m5&_&Hu). injection Hu as <-. eexists. split; [apply lookup_insert_eq|done]. }
  destruct Hb as (b&Hb&Hfd). unfold button_initialize_modifier_mask in Hm. apply bind_Some in Hm as (b'&m5&Hg&Hm).
  assert (b' = b) as -> by (unfold get_button, bind, gets in Hg; rewrite Hb in Hg; by injection Hg).
  rewrite Hfd in Hm. destruct (e_input_keys fd) as [e|keys].
  - injection Hm as <- <-. apply Z.leb_le in H5. by rewrite (proj2 (Z.ltb_ge _ 0)).
  - apply bind_Some in Hm as ([]&m6&_&Hm). by injection Hm as <- <-.
Qed.
Lemma safe_button_open g name : WF ex0 g → coh g → has_b g name →
  hoare g (button_open name) (λ r g', (WF ex0 g' ∧ has_b g' name ∧ g_pow g' = g_pow g) ∧ (opens name = true → 0 ≤ r)).
Proof.
  assert (Hupd : ∀ {A} g f (k : MM A) p, WF ex0 g → has_b g name → g_pow g = p → (∀ b, bnode_of (f b) = bnode_of b) →
    (∀ g', WF ex0 g' → has_b g' name → g_pow g' = p → hoare g' k (λ _ g', WF ex0 g' ∧ has_b g' name ∧ g_pow g' = p)) →
    hoare g (upd_button name f ;;; k) (λ _ g', WF ex0 g' ∧ has_b g' name ∧ g_pow g' = p)).
  { intros A g0 f k p Hwf Hb Hp Hf Hk. eapply hoare_bind; [by apply hoare_upd_button|]. intros _ g' (b&Hr&->).
    rewrite Hf. apply Hk; [|by unfold has_b; cbn; rewrite lookup_insert_eq; eexists|done].
    apply wf_set_btn; [done|]. by apply (wf_btn _ _ Hwf) in Hr. }
  intros Hwf Hg Hb. enough (H : hoare g (button_open name) (λ _ g', WF ex0 g' ∧ has_b g' name ∧ g_pow g' = g_pow g)).
  { intros m Hm. specialize (H m Hm). pose proof (button_open_result name m) as Hres. unfold wp in *.
    destruct (button_open name m) as [[r m']|]; [|done]. split; [done|]. by apply (Hres r m'). }
  unfold button_open. apply Hupd; [done..|]. intros g1 Hwf1 Hb1 Hp1. cbv zeta.
  destruct (_ <? 0); [by apply hoare_ret|]. destruct (_ <? 0); [by apply hoare_ret|].
  destruct (_ =? 0); [by apply hoare_ret|]. destruct (_ <? 0); [by apply hoare_ret|].
  apply Hupd; [done..|]. intros g2 Hwf2 Hb2 Hp2. destruct (_ <? 0); [by apply hoare_ret|].
  apply Hupd; [done..|]. intros g3 Hwf3 Hb3 Hp3. unfold button_initialize_modifier_mask.
  eapply (hoare_bind _ _ _ (λ _ g', WF ex0 g' ∧ has_b g' name ∧ g_pow g' = g_pow g)); [|by intros r g' H; apply hoare_ret].
  eapply hoare_soft_bind; [by apply soft_get_button|]. intros b _.
  destruct (e_input_keys _); [by apply hoare_ret|]. apply Hupd; [done..|]. intros g4 Hwf4 Hb4 Hp4. by apply hoare_ret.
Qed.
(** No key of the device's button is being timed unless the button stays. *)
Definition may_go (g : cols) (d : button_device) : Prop :=
  ∀ name, bd_sysname d = Some name → button_stays d name = false → untimed g name.
Lemma boot_may_go g d : booting = true → WF ex0 g → may_go g d.
Proof. intros Hb Hwf name _ _ Hin. destruct (wf_keys _ _ Hwf _ Hin) as [_ H]. unfold booting in Hb. cbn in H. congruence. Qed.
Lemma safe_process_button_device g d : WF ex0 g → coh g → may_go g d → safe g (manager_process_button_device d).
Proof.
  intros Hwf Hg Hgo. unfold manager_process_button_device. destruct (bd_sysname d) as [name|] eqn:En; [|by apply safe_ret].
  specialize (Hgo name En). unfold button_stays in Hgo.
  destruct (bd_remove d || negb (bd_tag d)) eqn:Er.
  { eapply safe_bind; [apply safe_button_free; [done|apply Hgo]|intros; by apply safe_ret].
    by destruct (bd_remove d), (bd_tag d). }
  eapply (hoare_bind _ _ _ (λ _ g', WF ex0 g' ∧ has_b g' name ∧ g_pow g' = g_pow g)).
  { unfold manager_add_button. eapply (hoare_soft_bind _ _ _ (λ o, is_Some o → has_b g name)).
    - apply soft_gets. intros m <- [b Hb]. unfold has_b; cbn. rewrite lookup_fmap, Hb. by eexists.
    - intros [b|] Ho; [by apply hoare_ret; auto|].
      eapply (hoare_bind _ _ _ (λ _ g', g' = g <| g_btn := <[name := bnode_of new_button]> (g_btn g) |>)).
      + apply hoare_modify. intros m <-. unfold cols_of; cbn. by rewrite fmap_insert.
      + intros _ g' ->. apply hoare_ret. split; [by apply wf_set_btn|]. split; [|done].
        unfold has_b; cbn. rewrite lookup_insert_eq. by eexists. }
  intros r g1 (Hwf1&Hb1&Hp1). destruct (r <? 0); [by apply safe_ret|].
  unfold button_set_seat. eapply hoare_bind; [by apply hoare_upd_button|]. intros _ g2 (b&Hr&->).
  set (g2 := g1 <| g_btn := _ |>).
  assert (Hwf2 : WF ex0 g2) by (apply wf_set_btn; [done|by apply (wf_btn _ _ Hwf1) in Hr]).
  assert (Hb2 : has_b g2 name) by (unfold has_b; cbn; rewrite lookup_insert_eq; by eexists).
  apply hoare_coh. intros Hg2. eapply hoare_bind; [by eapply safe_button_open|]. intros r' g3 ((Hwf3&Hb3&Hp3)&Hopen).
  destruct (r' <? 0) eqn:E0; [|by apply safe_ret]. cbn [when].
  eapply safe_bind; [apply safe_button_free; [done|]|intros; by apply safe_ret].
  unfold untimed. rewrite Hp3. change (g_pow g2) with (g_pow g1). rewrite Hp1. apply Hgo.
  destruct (opens name); [|by rewrite andb_false_r]. specialize (Hopen eq_refl). lia.
Qed.
End Plug.

(** * The idle timer *)

Section Idle.
Context {E : Env} {Ok : EnvOk}.

Lemma soft_manager_get_idle_hint g : WF ex0 g → coh g → soft g manager_get_idle_hint (λ _, True).
Proof.
  intros Hwf Hg. unfold manager_get_idle_hint. eapply soft_bind; [by eapply soft_true, soft_is_inhibited|]. intros x _.
  eapply soft_bind; [by apply soft_session_ids|]. intros ids Hids. apply soft_fold_m; [done|]. intros [h t] i Hi _. unfold user_idle_step.
  eapply soft_bind; [by apply soft_get_session, Hids|]. intros s _. destruct (negb _); [by apply soft_ret|].
  eapply soft_bind; [by apply soft_session_get_idle_hint, Hids|]. intros [b k] _. by apply soft_ret.
Qed.
Lemma safe_idle_elapse g n : WF ex0 g → coh g → safe g (idle_elapse n).
Proof.
  intros Hwf Hg. unfold idle_elapse. eapply safe_soft_bind; [apply soft_conf|]. intros usec _.
  eapply safe_soft_bind; [by apply soft_manager_get_idle_hint|]. intros [idle since] _. destruct (negb idle).
  { eapply safe_soft_bind; [by apply soft_upd_act|]. intros. by apply safe_ret. }
  eapply safe_soft_bind; [apply soft_act|]. intros a _.
  eapply (safe_bind _ (when _ _)); [|intros ? g' ? _; eapply safe_soft_bind; [apply soft_act|]; intros; by apply safe_ret].
  destruct (idle_time_has_come _ _ _ _); [|by apply safe_ret]. unfold act_on_idle. cbn [when].
  eapply safe_soft_bind; [apply soft_act|]. intros a' _. cbv zeta.
  eapply safe_soft_bind; [apply soft_when; intros _; by apply soft_upd_act|]. intros _ _.
  eapply safe_soft_bind; [apply (soft_conf _ c_idle_action)|]. intros h ->.
  eapply safe_bind; [apply safe_ignore, safe_manager_handle_action; [done..|]|].
  - apply (conf_action g c_idle_action); [done|]. intros c. unfold handled_actions. set_solver.
  - intros _ g' Hwf' _. eapply safe_soft; [done|by apply soft_upd_act].
Qed.
Lemma safe_dispatch_idle_action g : WF ex0 g → coh g → safe g manager_dispatch_idle_action.
Proof.
  intros Hwf Hg. unfold manager_dispatch_idle_action. eapply safe_soft_bind; [apply (soft_conf _ (λ c, c))|]. intros c _.
  destruct (_ || _); [by apply safe_ret|]. eapply safe_bind; [by apply safe_idle_elapse|]. intros el g1 Hwf1 Hg1.
  eapply safe_soft_bind; [apply soft_act|]. intros a _.
  destruct (a_idle_action_event_source a); (destruct (_ <? 0); [by apply safe_ret|]);
    (eapply safe_soft_bind; [by apply soft_upd_act|]; intros; by apply safe_ret).
Qed.
End Idle.
