(* ===== verification/LinksRun.v ===== *)
(** The main loop: whatever state the daemon has got to, a round of it neither
    crashes nor runs out of objects to collect, and keeps the links
    well-formed. *)
From S2P Require Import Prelude Time LoginTypes ActionTypes LoginState LoginEnv Bus Escape Parse Objects SessionDevice Seat Device User Session Lifecycle SessionBus ManagerBus Inhibit Wall Power Schedule Buttons Startup Events Moves Cols Links LinksObjects LinksDevice LinksSeat LinksPositions LinksAttach LinksHotplug LinksTake LinksUser LinksSession LinksLeader LinksStart LinksStop LinksFree LinksGc LinksBus LinksCreate LinksManager LinksPower LinksSchedule LinksKeys.

(** The links of a manager are well-formed. *)
Definition wf (m : manager) : Prop := WF ex0 (cols_of m).

Lemma wp_safe {A} (c : MM A) m : safe (cols_of m) c → wp c (λ _, wf) m.
Proof. intros H. eapply wp_mono; [by apply (H m)|]. done. Qed.
Lemma wp_source {A} (c : MM A) m : wp c (λ _, wf) m → wp (source c) (λ _, wf) m.
Proof.
  intros H. apply wp_bind, wp_ignore. eapply wp_mono; [exact H|]. intros a m' ?. by apply wp_ret.
Qed.
Lemma coh_cols m : coh (cols_of m).
Proof. by exists m. Qed.
#[export] Hint Resolve coh_cols : core.

Lemma on_session_true m sid p :
  on_session m sid p = true → ∃ s, m_sessions m !! sid = Some s ∧ p s = true ∧ has_s (cols_of m) sid.
Proof.
  unfold on_session, has_s; cbn. rewrite lookup_fmap.
  destruct (m_sessions m !! sid) as [s|]; [|done]. intros Hp. exists s. split_and!; [done..|by eexists].
Qed.

Lemma on_button_true m name p :
  on_button m name p = true → ∃ b, m_buttons m !! name = Some b ∧ p b = true ∧ g_btn (cols_of m) !! name = Some (bnode_of b).
Proof.
  unfold on_button. cbn. rewrite lookup_fmap.
  destruct (m_buttons m !! name) as [b|]; [|done]. intros Hp. by exists b.
Qed.
Lemma on_button_has m name b : m_buttons m !! name = Some b → has_b (cols_of m) name.
Proof. intros Hb. unfold has_b; cbn. rewrite lookup_fmap, Hb. by eexists. Qed.

(** The settings are read again. *)
Lemma wf_reloaded m c : wf m → sane c → wf (m <| m_conf := c |>).
Proof. intros Hwf [Hl Hc]. destruct Hwf. by constructor. Qed.

Section Run.
Context {E : Env} {Ok : EnvOk}.

Lemma safe_handle_power g c msg : WF ex0 g → coh g → (∀ m, event_ok (PowerMethod c msg) m) → safe g (handle_power c msg).
Proof.
  intros Hwf Hg Hok. destruct (Hg) as [m0 _]. specialize (Hok m0). destruct c; cbn [handle_power].
  - by apply safe_method_do_shutdown_or_sleep.
  - by apply safe_method_can.
  - by apply safe_method_schedule_shutdown.
  - by apply safe_method_cancel.
  - by apply safe_method_set_wall_message.
  - by apply safe_method_inhibit.
Qed.
Lemma wp_handle ev m :
  wf m → event_ok ev m → enabled ev m = true → wp (handle ev) (λ _, wf) m.
Proof.
  intros Hwf Hok Hen. assert (Hg : coh (cols_of m)) by done. destruct ev; cbn [handle].
  - apply wp_safe, safe_on_session; [done..|]. intros. by apply safe_handle_session.
  - apply wp_safe, safe_on_seat; [done..|]. intros. by apply safe_handle_seat.
  - apply wp_safe, safe_on_user; [done..|]. intros. by apply safe_handle_user.
  - apply wp_safe, safe_handle_manager; [done..|]. by destruct c.
  - by eapply wp_safe, safe_handle_power.
  - apply on_session_true in Hen as (s&Hs&[_ Hfd]%andb_prop&Hh). apply wp_source.
    apply wp_bind. eapply wp_get_session; [done|]. apply wp_bind, wp_assert; [done|].
    by apply wp_safe, safe_stop_then.
  - apply on_session_true in Hen as (s&Hs&[_ Hfd]%andb_prop&Hh). apply wp_source.
    apply wp_bind. eapply wp_get_session; [done|]. apply wp_bind, wp_assert; [done|].
    by apply wp_safe, safe_session_release_fifo.
  - apply on_session_true in Hen as (s&_&_&Hh). by apply wp_source, wp_safe, safe_release_timeout.
  - apply on_session_true in Hen as (s&_&_&Hh). by apply wp_source, wp_safe, safe_stop_on_idle.
  - apply on_session_true in Hen as (s&_&_&Hh). apply wp_source, wp_safe.
    eapply safe_bind; [safe_by (hoare_session_drop_controller ex0)|]. intros _ g' ? _. by apply safe_ret.
  - apply on_session_true in Hen as (s&_&_&Hh). by apply wp_source, wp_safe, safe_check_cgroup_events.
  - by apply wp_source, wp_safe, safe_notify_cgroup_empty.
  - apply wp_source, wp_safe, (hoare_user_stop_timeout_callback ex0); [done..|].
    unfold enabled in Hen. unfold has_u; cbn. rewrite lookup_fmap. destruct (m_users m !! uid); [by eexists|done].
  - apply wp_source, wp_safe. safe_by hoare_manager_process_seat_device.
  - apply wp_safe. eapply safe_soft_bind; [by apply soft_seat0|]. intros o ->.
    destruct (wf_seat0 _ _ Hwf) as (k&b0&Ek&_&_). pose proof (has_seat0 _ Hwf Hg _ Ek). rewrite Ek.
    eapply safe_soft_bind; [by apply (soft_ret _ _ (λ z, z = k))|]. intros ? ->.
    apply safe_source. safe_by hoare_seat_read_active_vt.
  - by apply wp_source, wp_safe, safe_manager_vt_switch.
  - apply wp_source. eapply wp_mono; [apply (wp_inhibitor_dispatch_fifo (cols_of m)); [done|]|unfold wf; by intros _ m' ->].
    unfold enabled in Hen. destruct (m_inhibitors m !! id) as [i|]; [|done]. exists i. split; [done|]. lia.
  - by apply wp_source, (safe_inhibit_timeout (cols_of m)).
  - apply wp_source, wp_safe. eapply safe_soft_bind; [by apply soft_upd_act|]. intros. by apply safe_ret.
  - by apply wp_source, wp_safe, safe_sigchld.
  - by apply wp_source, wp_safe, safe_scheduled_shutdown_handler.
  - apply wp_source, wp_safe. eapply safe_soft; [done|apply soft_wall_message_timeout_handler].
  - apply wp_source, wp_safe. eapply safe_soft; [done|apply soft_nologin_timeout_handler].
  - by apply wp_source, wp_safe, safe_dispatch_idle_action.
  - apply on_button_true in Hen as (b&Hb&Hp&_). apply wp_source, (safe_button_dispatch (cols_of m)); [done..| |].
    + exists b. split; [done|]. lia.
    + by intros ev ->.
  - apply on_button_true in Hen as (b&Hb&Hp&Hr). apply wp_source, wp_safe, safe_button_recheck; [done..|]. by eexists.
  - unfold long_press. apply wp_bind, wp_gets. destruct (key_timer k (m_act m)) as [[t name]|] eqn:Ek; [|by apply wp_ret].
    apply wp_source, wp_safe, safe_long_press_handler; [done..|].
    by apply (wf_keys _ _ Hwf), (timed_elem k _ t).
  - apply wp_source, wp_safe, safe_process_button_device; [done..|]. intros name Hname Hst Hin.
    apply timed_inv in Hin as (k&t&Hk). by rewrite (Hok k t name Hk Hname) in Hst.
  - apply wp_source, wp_bind, wp_modify, wp_ret. by apply wf_reloaded.
Qed.

Lemma gc_fuel_cols m : gc_rounds m = gc_fuel (cols_of m).
Proof. unfold gc_rounds, gc_fuel; cbn. by rewrite !map_size_fmap. Qed.

Definition collected (m : manager) : Prop :=
  m_seat_gc_queue m = [] ∧ m_session_gc_queue m = [] ∧ m_user_gc_queue m = [].
Lemma wp_gc drop m : wf m → wp (manager_gc drop (gc_rounds m)) (λ _ m', wf m' ∧ collected m') m.
Proof.
  intros Hwf. eapply wp_mono; [apply (hoare_manager_gc drop _ (cols_of m)); [done..|by rewrite gc_fuel_cols|done]|].
  intros _ m' (?&_&?&?&?). done.
Qed.
Lemma wp_before_event m : wf m → wp before_event (λ _, wf) m.
Proof.
  intros Hwf. unfold before_event. apply wp_bind, wp_gets, wp_bind.
  eapply wp_mono; [by apply wp_gc|]. intros _ m1 [Hwf1 _]. by apply wp_safe, safe_dispatch_delayed.
Qed.
Lemma wp_run_once ev m : wf m → event_fits ev m → wp (manager_run_once ev) (λ _, wf) m.
Proof.
  intros Hwf Hok. destruct (wp_run _ _ _ (wp_before_event m Hwf)) as (r&m1&Hb&Hwf1).
  unfold manager_run_once. apply wp_bind. eapply wp_intro; [exact Hb|].
  destruct (0 <? r); [by apply wp_ret|]. apply wp_bind, wp_gets.
  destruct (enabled ev m1) eqn:En; [|by apply wp_ret]. apply wp_handle; [done| |done]. by eapply Hok.
Qed.
End Run.
