(* ===== verification/LinksEnumerate.v ===== *)
(** The enumerations of the start ([deserialize_state]) keep the links
    well-formed, and find no lid that is watched. *)
From S2P Require Import Prelude Time LoginTypes ActionTypes LoginState LoginEnv Escape Parse EnvFile Objects SessionDevice Seat Device User Session ManagerBus Inhibit Power Schedule Buttons Startup Moves Cols Links LinksObjects LinksHotplug LinksUser LinksSession LinksLoad LinksBus LinksPower LinksSchedule LinksKeys.

(** * Loops over a list and over a directory *)

Section Loops.
Context {E : Env} {X : Type} (body : X → MM Z).
Lemma hoare_gather_all (I : list X → cols → Prop) r l g :
  I l g → (∀ x l' g', I (x :: l') g' → coh g' → hoare g' (body x) (λ _ g'', I l' g'')) →
  hoare g (gather_all body r l) (λ _ g', I [] g').
Proof.
  intros HI Hb. unfold gather_all. apply hoare_fold_m; [done|]. intros a x l' g' HI'. apply hoare_coh; intros Hg'.
  eapply hoare_bind; [by apply Hb|]. intros k g2 HI2. by apply hoare_ret.
Qed.
Lemma soft_gather_all r l g :
  (∀ x, x ∈ l → soft g (body x) (λ _, True)) → soft g (gather_all body r l) (λ _, True).
Proof.
  intros Hb. unfold gather_all. apply soft_fold_m; [done|]. intros a x Hx _.
  eapply soft_bind; [by apply Hb|]. intros. by apply soft_ret.
Qed.
End Loops.
Section Directory.
Context {E : Env} (path : string) (body : string → MM Z).
Lemma hoare_for_each_file (I : list string → cols → Prop) r g :
  I (files_of path) g → (∀ x l' g', I (x :: l') g' → coh g' → hoare g' (body x) (λ _ g'', I l' g'')) →
  hoare g (for_each_file path r body) (λ _ g', I [] g').
Proof.
  unfold for_each_file, files_of. destruct (e_directory path) as [err|[entries err]]; intros HI Hb.
  - by apply hoare_ret.
  - eapply hoare_bind; [by apply hoare_gather_all|]. intros k g' HI'. by apply hoare_ret.
Qed.
Lemma soft_for_each_file r g :
  (∀ x, soft g (body x) (λ _, True)) → soft g (for_each_file path r body) (λ _, True).
Proof.
  intros Hb. unfold for_each_file. destruct (e_directory path) as [err|[entries err]]; [by apply soft_ret|].
  eapply soft_bind; [by apply soft_gather_all|]. intros. by apply soft_ret.
Qed.
End Directory.

(** * Buttons: the lid of none is watched *)

Definition unchecked (g : cols) : Prop := map_Forall (λ _ n, n.1 = false) (g_btn g).
(** No button is watched that was not; seat0 is the same. *)
Definition watched (m : manager) (name : string) : Prop :=
  ∃ b, m_buttons m !! name = Some b ∧ b_check_event_source b = true.
Definition no_watch (m m' : manager) : Prop :=
  (∀ name, watched m' name → watched m name) ∧ m_seat0 m' = m_seat0 m.
#[export] Instance no_watch_preorder : PreOrder no_watch.
Proof. split; [by split|]. intros m1 m2 m3 [H1 E1] [H2 E2]. split; [auto|congruence]. Qed.
Lemma unchecked_no_watch m m' : no_watch m m' → unchecked (cols_of m) → unchecked (cols_of m').
Proof.
  intros [Hw _] Hu name n. cbn. rewrite lookup_fmap. destruct (m_buttons m' !! name) as [b|] eqn:Eb; [|done].
  intros [= <-]. cbn. destruct (b_check_event_source b) eqn:Ec; [|done].
  destruct (Hw name) as (b0&Hb0&Hc0); [by exists b|].
  assert (g_btn (cols_of m) !! name = Some (bnode_of b0)) as H0 by (cbn; by rewrite lookup_fmap, Hb0).
  apply Hu in H0. cbn in H0. congruence.
Qed.
Section Watch.
Context {E : Env}.
Lemma watch_get_button name : moves no_watch (get_button name).
Proof. unfold get_button. solve_moves. Qed.
Lemma watch_upd_button name f :
  (∀ b, b_check_event_source (f b) = b_check_event_source b) → moves no_watch (upd_button name f).
Proof.
  intros Hf m a m' H. unfold upd_button, get_button, bind, gets in H.
  destruct (m_buttons m !! name) as [b|] eqn:Eb; cbn in H; [|done]. injection H as <- <-.
  split; [|done]. intros i (b'&Hb'&Hc). cbn in Hb'. apply lookup_insert_Some in Hb' as [[<- <-]|[_ Hb']]; [|by exists b'].
  exists b. by rewrite <- Hf.
Qed.
Lemma watch_button_free name : moves no_watch (button_free name).
Proof.
  apply moves_modify. intros m. split; [|done]. intros i (b&Hb&Hc). cbn in Hb. apply lookup_delete_Some in Hb as [_ Hb]. by exists b.
Qed.
Lemma watch_add_button name : moves no_watch (manager_add_button name).
Proof.
  intros m a m' H. unfold manager_add_button, bind, gets in H.
  destruct (m_buttons m !! name) as [b|] eqn:Eb; cbn in H; injection H as <- <-; [done|].
  split; [|done]. intros i (b&Hb&Hc). cbn in Hb. apply lookup_insert_Some in Hb as [[<- <-]|[_ Hb]]; [done|by exists b].
Qed.
Hint Resolve watch_get_button watch_button_free watch_add_button : moves.
Hint Extern 2 (moves no_watch (upd_button _ _)) => apply watch_upd_button; reflexivity : moves.
Lemma watch_process_button_device d : moves no_watch (manager_process_button_device d).
Proof.
  unfold manager_process_button_device, button_set_seat, button_open, button_initialize_modifier_mask. solve_moves.
Qed.
End Watch.

Section Enumerate.
Context {E : Env} {Bt : Boot} {Ok : EnvOk} (seat0 : option string).

(** What holds after every enumeration. *)
Record booted (g : cols) : Prop := mkBooted {
  bo_wf : WF ex0 g; bo_unchecked : unchecked g; bo_seat0 : g_seat0 g = seat0 }.
Lemma booted_kept g g' : booted g → WF ex0 g' → kept g' = kept g → booted g'.
Proof. intros [] Hwf [= Eb Es]. constructor; [done|unfold unchecked; by rewrite Eb|by rewrite Es]. Qed.

(** * Devices, users, sessions *)

Definition no_sessions (g : cols) : Prop := g_user g = ∅.
Lemma hoare_enumerate_devices g :
  booted g → no_timers g → no_sessions g →
  hoare g (ignore manager_enumerate_devices) (λ _ g', booted g' ∧ no_timers g' ∧ no_sessions g').
Proof.
  intros Hbo Ht Hns. apply hoare_ignore. unfold manager_enumerate_devices.
  destruct e_seat_devices as [r|l]; [by apply hoare_ret|].
  apply (hoare_gather_all _ (λ _ g', booted g' ∧ no_timers g' ∧ no_sessions g')); [done|].
  intros d l' g1 (Hbo1&Ht1&Hns1) Hg1.
  eapply hoare_mono; [apply hoare_manager_process_seat_device; [apply Hbo1|done]|].
  intros _ g2 [Hwf2 Hs2]. unfold same_but_plug in Hs2.
  split; [apply (booted_kept g1); [done|done|unfold kept; by rewrite Hs2]|].
  unfold no_timers, no_sessions. by rewrite Hs2.
Qed.
Lemma soft_enumerate_seats g : soft g (ignore manager_enumerate_seats) (λ _, True).
Proof.
  apply soft_ignore, soft_for_each_file. intros name. eapply soft_bind; [apply soft_gets_true|].
  intros [s|] _; [by apply soft_ret|]. eapply soft_bind; [apply soft_emit|]. intros. by apply soft_ret.
Qed.

Lemma booted_users g g' : booted g → users_loaded g g' → booted g' ∧ no_timers g' ∧ g_user g' = g_user g.
Proof.
  intros Hbo (Hwf&Ht&Hs). unfold same_but_users in Hs. split; [|by rewrite Hs].
  apply (booted_kept g); [done|done|unfold kept; by rewrite Hs].
Qed.
Lemma hoare_enumerate_users g :
  booted g → no_timers g → no_sessions g →
  hoare g (ignore manager_enumerate_users) (λ _ g', booted g' ∧ no_sessions g').
Proof.
  intros Hbo Ht Hns. apply hoare_ignore. unfold manager_enumerate_users, manager_enumerate_linger_users.
  set (I := λ (_ : list string) g', booted g' ∧ no_timers g' ∧ no_sessions g').
  assert (Hstep : ∀ (c : MM Z) (l : list string) g1, (WF ex0 g1 → no_timers g1 → hoare g1 c (λ _ g', users_loaded g1 g')) →
    I l g1 → hoare g1 c (λ _ g', I l g')).
  { intros c l g1 Hc (Hbo1&Ht1&Hns1). eapply hoare_mono; [apply Hc; [apply Hbo1|done]|].
    intros _ g2 (?&?&Eu)%(booted_users g1); [|done]. split_and!; [done..|]. unfold no_sessions. by rewrite Eu. }
  eapply hoare_bind; [apply (hoare_for_each_file _ _ I); [done|]|].
  - intros name l g1 HI Hg1. destruct (cunescape_loop_total (S (String.length name)) false false name) as [x Hx]; [lia|].
    unfold cunescape. rewrite Hx. destruct x as [k|n]; [by apply hoare_ret|].
    apply (Hstep _ l); [|done]. intros. by apply hoare_add_user_by_name.
  - intros r g1 HI. eapply hoare_mono; [apply (hoare_for_each_file _ _ I); [done|]|].
    + intros name l g2 HI2 Hg2. apply (Hstep _ l); [|done]. intros. by apply hoare_load_user_file.
    + by intros ? g2 (?&_&?).
Qed.

(** The files that are left name no session, and there is room for them. *)
Record unread (l : list string) (g : cols) : Prop := mkUnread {
  un_booted : booted g; un_nodup : NoDup l;
  un_new : ∀ sid, sid ∈ l → ¬ has_s g sid;
  un_room : Z.of_nat (size (g_user g) + length l) + 1 < UINT_MAX;
  un_files : ∀ sid, sid ∈ l → session_file_ok (parse_env_file_at ("/run/systemd/sessions/" +:+ sid)).2 }.
Lemma unread_next sid l g g' : unread (sid :: l) g → one_more sid g g' → unread l g'.
Proof.
  intros [? [Hni Hnd]%NoDup_cons Hnew Hroom Hf] (Hwf'&Hd&Eb). constructor; [by eapply booted_kept|done| | |].
  - intros i Hi Ha%elem_of_dom. apply Hd in Ha. apply elem_of_union in Ha as [->%elem_of_singleton|Ha%elem_of_dom]; [done|].
    apply (Hnew i); [by right|done].
  - apply subseteq_size in Hd. rewrite size_union in Hd.
    + rewrite size_singleton, !size_dom in Hd. cbn in Hroom. lia.
    + intros i ->%elem_of_singleton Hi%elem_of_dom. apply (Hnew sid); [left|done].
  - intros i Hi. apply Hf. by right.
Qed.
Lemma hoare_enumerate_sessions g :
  booting = true → saved_ok → booted g → no_sessions g →
  hoare g (ignore manager_enumerate_sessions) (λ _ g', booted g').
Proof.
  intros Hb Hs Hbo Hns. apply hoare_ignore. unfold manager_enumerate_sessions.
  assert (Hend : ∀ r, hoare g (r <- for_each_file "/run/systemd/sessions" r (λ name,
        k <- manager_add_session name ;;
        if k <? 0 then ret k else session_add_to_gc_queue name ;;; session_load name) ;;
      match e_directory "/run/systemd/sessions" with
      | inr (_, err) =>
          if err <? 0 then ret r
          else match e_listen_fds with
               | inl n => ret n
               | inr l => gather_all (λ '(fdname, fd), manager_attach_session_fd_one_consume fdname fd) r l
               end
      | inl _ => ret r
      end) (λ _ g', booted g')).
  { intros r. eapply hoare_bind; [apply (hoare_for_each_file _ _ unread)|].
    - destruct Hs. constructor; [done|done| | |done].
      + intros sid _ [a Ha]. by rewrite Hns in Ha.
      + rewrite Hns. cbn. done.
    - intros sid l g1 Hun Hg1. eapply hoare_mono; [apply hoare_load_session_file|].
      + done.
      + apply Hun. left.
      + pose proof (un_room _ _ Hun) as Hroom. cbn in Hroom. lia.
      + apply (un_booted _ _ Hun).
      + apply Hun. left.
      + done.
      + intros ? g2 H2. by eapply unread_next.
    - intros k g1 Hun. pose proof (un_booted _ _ Hun) as Hbo1.
      destruct (e_directory _) as [?|[? err]]; [by apply hoare_ret|].
      destruct (err <? 0); [by apply hoare_ret|]. rewrite (saved_descriptors Hs). by apply hoare_ret. }
  destruct (e_directory "/run/systemd/sessions"); [by apply hoare_ret|apply Hend].
Qed.

(** * Inhibitors and buttons *)

Lemma wp_inhibitor_load g id m :
  inh_is g id any_inh m → wp (inhibitor_load id) (λ _ m', cols_of m' = g) m.
Proof.
  intros H. unfold inhibitor_load. destruct (parse_env_file_at _) as [r f].
  assert (Hend : ∀ m, inh_is g id any_inh m → wp (load_fifo id) (λ _ m', cols_of m' = g) m).
  { intros m0 H0. unfold load_fifo. apply wp_bind. eapply wp_get_inhibitor; [done|]. intros i _.
    destruct (i_fifo_path i) as [path|]; [|apply wp_ret; apply H0]. apply wp_bind.
    apply (wp_mono _ (λ _ m', inh_is g id any_inh m')).
    - apply wp_when; [intros _|done]. by eapply (wp_upd_inhibitor g id any_inh any_inh).
    - intros _ m1 H1. apply wp_bind. eapply wp_mono; [by apply wp_inhibitor_create_fifo|].
      intros k m2 H2. apply wp_ret. apply H2. }
  assert (Htext : ∀ o h k m, (∀ m, inh_is g id any_inh m → wp k (λ _ m', cols_of m' = g) m) →
    inh_is g id any_inh m → wp (load_text id o h k) (λ _ m', cols_of m' = g) m).
  { intros o h k m1 Hk H1. unfold load_text. destruct o as [s|]; [|by apply Hk].
    destruct (cunescape_value s); [apply wp_ret; apply H1|]. apply wp_bind.
    by eapply (wp_upd_inhibitor g id any_inh any_inh); [| |apply Hk]. }
  apply wp_bind, (wp_mono _ (λ _ m', inh_is g id any_inh m')).
  { apply wp_when; [intros _|done]. by eapply (wp_upd_inhibitor g id any_inh any_inh). }
  intros _ m1 H1. destruct (r <? 0); [apply wp_ret; apply H1|]. cbv zeta. apply wp_bind.
  eapply (wp_upd_inhibitor g id any_inh any_inh); [done|done|]. intros m2 H2.
  apply Htext; [|done]. intros m3 H3. by apply Htext.
Qed.
Lemma soft_enumerate_inhibitors g : soft g (ignore manager_enumerate_inhibitors) (λ _, True).
Proof.
  apply soft_ignore, soft_for_each_file. intros id m <-. apply wp_bind. unfold manager_add_inhibitor, inhibitor_new.
  apply wp_bind, wp_gets.
  assert (Hload : ∀ m1, inh_is (cols_of m) id any_inh m1 →
    wp (if 0 <? 0 then ret 0 else inhibitor_load id) (λ _ m', cols_of m' = cols_of m ∧ True) m1).
  { intros m1 H1. change (0 <? 0) with false. eapply wp_mono; [by apply wp_inhibitor_load|]. done. }
  destruct (m_inhibitors m !! id) as [i|] eqn:Ei.
  - apply wp_ret, Hload. split; [done|]. by exists i.
  - apply wp_bind, wp_modify, wp_ret, Hload. split; [done|]. exists new_inhibitor. cbn. by rewrite lookup_insert_eq.
Qed.

Lemma hoare_no_watch {A} g (c : MM A) Q :
  moves no_watch c → hoare g c Q → hoare g c (λ a g', Q a g' ∧ (unchecked g → unchecked g') ∧ g_seat0 g' = g_seat0 g).
Proof.
  intros Hc HQ m <-. pose proof (HQ m eq_refl) as Hm. specialize (Hc m). unfold wp in *.
  destruct (c m) as [[a m']|]; [|done]. specialize (Hc a m' eq_refl). split; [done|].
  split; [by apply unchecked_no_watch|apply Hc].
Qed.
Lemma hoare_enumerate_buttons g :
  booting = true → booted g → hoare g (ignore manager_enumerate_buttons) (λ _ g', booted g').
Proof.
  intros Hbt Hbo. apply hoare_ignore. unfold manager_enumerate_buttons.
  eapply hoare_soft_bind; [apply soft_gets_true|]. intros c _. destruct (manager_all_buttons_ignored c); [by apply hoare_ret|].
  destruct e_button_devices as [r|l]; [by apply hoare_ret|].
  apply (hoare_gather_all _ (λ _ g', booted g')); [done|]. intros d l' g1 [Hwf1 Hu1 Es1] Hg1.
  eapply hoare_mono; [apply hoare_no_watch; [apply watch_process_button_device|by apply safe_process_button_device, boot_may_go]|].
  intros _ g2 (Hwf2&Hu2&Es2). constructor; [done|auto|congruence].
Qed.

(** * The schedule, and all of it *)

Lemma hoare_load_schedule r f g :
  (∀ h, 0 ≤ r → from_string (A := HandleAction) (f "MODE") = Some h → executable h = true) → WF ex0 g →
  hoare g (load_schedule r f) (λ _ g', WF ex0 g' ∧ kept g' = kept g).
Proof.
  intros Hf Hwf. unfold load_schedule. eapply hoare_bind; [apply hoare_reset_scheduled_shutdown|]. intros _ g1 ->.
  set (g1 := g <| g_pow := _ |>). assert (Hp1 : pow_ok (g_pow g1)) by apply pow_ok_unscheduled, Hwf.
  assert (Hdone : WF ex0 g1 ∧ kept g1 = kept g) by (split; [by apply wf_set_pow|done]).
  destruct (Z.ltb_spec r 0); [by apply hoare_ret|].
  destruct (from_string (f "MODE")) as [h|] eqn:Eh; [|by apply hoare_ret].
  destruct (deserialize_usec <$> f "USEC") as [[k|usec]|]; [by apply hoare_ret| |by apply hoare_ret].
  specialize (Hf h). eapply hoare_bind.
  { apply (hoare_upd_act _ _ (λ p, p <| pn_scheduled := Some h |>)). intros a. unfold load_fields. cbv zeta.
    by repeat case_match. }
  intros _ g2 ->. set (g2 := g1 <| g_pow := _ |>). eapply hoare_bind; [by apply (hoare_setup_shutdown_timers g2 h)|].
  intros k g3 [t ->]. assert (Hwf3 : ∀ o t, (o = None ∧ t = false ∨ o = Some h) → WF ex0 (g <| g_pow := scheduled o t (g_pow g) |>)).
  { intros o t' [[-> ->]| ->]; (apply wf_set_pow; [done..|]).
    - by apply pow_ok_unscheduled, Hwf.
    - apply pow_ok_scheduled; [apply Hwf|by apply Hf]. }
  destruct (k <? 0).
  - eapply hoare_mono; [apply hoare_reset_scheduled_shutdown|]. intros _ g4 ->. split; [|done]. apply (Hwf3 None false). by left.
  - eapply hoare_soft_bind; [apply soft_ignore, soft_setup_wall_message_timer|]. intros _ _.
    eapply hoare_mono; [apply soft_ignore; by apply (soft_update_schedule_file _ h)|]. intros _ g4 [-> _].
    split; [|done]. apply (Hwf3 (Some h) t). by right.
Qed.

Lemma hoare_deserialize_state g :
  booting = true → saved_ok → booted g → no_timers g → no_sessions g →
  hoare g deserialize_state (λ _ g', booted g').
Proof.
  intros Hb Hs Hbo Ht Hns. unfold deserialize_state.
  eapply hoare_bind; [by apply hoare_enumerate_devices|]. intros _ g1 (Hbo1&Ht1&Hns1).
  eapply hoare_soft_bind; [apply soft_enumerate_seats|]. intros _ _.
  eapply hoare_bind; [by apply hoare_enumerate_users|]. intros _ g2 [Hbo2 Hns2].
  eapply hoare_bind; [by apply hoare_enumerate_sessions|]. intros ? g3 Hbo3.
  eapply hoare_soft_bind; [apply soft_enumerate_inhibitors|]. intros _ _.
  eapply hoare_bind; [by apply hoare_enumerate_buttons|]. intros ? g4 Hbo4.
  unfold manager_load_scheduled_shutdown. pose proof (saved_schedule Hs) as Hsch.
  destruct (parse_env_file_at _) as [r f]. eapply hoare_mono; [apply hoare_load_schedule; [done|apply Hbo4]|].
  intros _ g5 [Hwf5 Eb]. by apply (booted_kept g4).
Qed.
End Enumerate.
