(* ===== verification/LinksBoot.v ===== *)
(** The start ends in a state with well-formed links, and so does everything that
    follows: no reachable state is ill-formed. *)
From S2P Require Import Prelude Time LoginTypes ActionTypes LoginState LoginEnv Bus Objects SessionDevice Seat Device User Session Lifecycle SessionBus ManagerBus Inhibit Wall Power Schedule Buttons Startup Events Moves Cols Links LinksObjects LinksHotplug LinksAttach LinksUser LinksSession LinksStart LinksStop LinksFree LinksGc LinksLoad LinksBus LinksPower LinksSchedule LinksKeys LinksEnumerate LinksRun.

Definition seat0_name : string := "seat0".
(** The manager once seat0 is there. *)
Definition with_seat0 (m : manager) (started : bool) (tr : list effect) : manager :=
  m <| m_seats := {[seat0_name := new_seat <| se_started := started |>]} |>
    <| m_seat0 := Some seat0_name |> <| m_trace := tr |>.

Definition blank (m : manager) : Prop :=
  m_devices m = ∅ ∧ m_sessions m = ∅ ∧ m_sessions_by_leader m = ∅ ∧ m_users m = ∅ ∧
  m_cgroup_control_inotify_wd_session m = ∅ ∧ m_session_gc_queue m = [] ∧
  m_user_gc_queue m = [] ∧ m_seat_gc_queue m = [] ∧ m_buttons m = ∅ ∧
  pow_ok (pnode_of (m_act m)) ∧ timed_buttons (m_act m) = [] ∧ sane (m_conf m).

Lemma wf_boot m tr : blank m → WF (ex0 (Bt := true)) (cols_of (with_seat0 m false tr)).
Proof.
  intros (Ed&Es&El&Eu&Ec&Eq1&Eq2&Eq3&Eb&Hpow&Hkeys&Hlim&Hconf).
  remember (m_seats (with_seat0 m false tr)) as ss eqn:Ess.
  assert (Hk : ∀ {A} (f : seat → A) k a, (f <$> ss) !! k = Some a →
    k = seat0_name ∧ a = f (new_seat <| se_started := false |>)).
  { intros A f k a. rewrite Ess.
    change (m_seats (with_seat0 m false tr)) with ({[seat0_name := new_seat <| se_started := false |>]} : gmap string seat).
    rewrite map_fmap_singleton. by intros [<- <-]%lookup_singleton_Some. }
  assert (H0 : (se_started <$> ss) !! seat0_name = Some false) by (by rewrite Ess).
  constructor; cbn [cols_of g_user g_seat g_pos g_squeued g_leader g_lsrc g_wd g_sds g_vtnr g_cg g_fifo
    g_usess g_display g_ulast g_utimer g_uqueued g_live g_tsess g_active g_pending g_positions g_tdevs
    g_tqueued g_tstarted g_dseat g_dusers g_bypid g_wdmap g_sq g_uq g_tq g_seat0 g_console g_inotify
    g_limit g_pow g_conf g_btn]; rewrite <-?Ess; unfold has_s; cbn; rewrite ?Eb, ?Es, ?Eu, ?Ed, ?El, ?Ec, ?Eq1, ?Eq2, ?Eq3, ?fmap_empty;
    try (intros *; rewrite ?lookup_empty; intros; by simplify_eq).
  - intros k l [-> ->]%Hk. split; [constructor|]. by intros ? ?%elem_of_nil.
  - by intros k l [-> [=]]%Hk.
  - by intros k l [-> [=]]%Hk.
  - by intros k l p i [-> ->]%Hk.
  - split; [constructor|]. by intros ? ?%elem_of_nil.
  - split; [constructor|]. by intros ? ?%elem_of_nil.
  - split; [constructor|]. by intros ? ?%elem_of_nil.
  - intros k l [-> ->]%Hk. split; [constructor|]. by intros ? ?%elem_of_nil.
  - exists seat0_name, false. auto.
  - intros name Hin. change (name ∈ timed_buttons (m_act m)) in Hin. rewrite Hkeys in Hin. by apply elem_of_nil in Hin.
Qed.


(** Once seat0 is started and every session has its user, the start is over. *)
Lemma wf_started g :
  WF (ex0 (Bt := true)) g → (∀ sid, g_user g !! sid ≠ Some None) →
  (∀ k b, g_tstarted g !! k = Some b → b = true) → WF (ex0 (Bt := false)) g.
Proof.
  intros Hwf Hu Ht. destruct Hwf; constructor; try assumption.
  - intros sid Hs. by apply Hu in Hs.
  - destruct wf_seat0 as (k&b&Hk&Hs&_). exists k, b. split_and!; [done..|]. left. eauto.
  - intros name Hin. by destruct (wf_keys name Hin).
Qed.

(** * Everything is started *)

Section Start.
Context {E : Env} {Ok : EnvOk}.

Lemma soft_seat_order g :
  soft g (gets (λ m, e_order_ids (fst <$> map_to_list (m_seats m)))) (λ ids, ∀ k, k ∈ ids ↔ has_t g k).
Proof.
  apply soft_gets. intros m <- k. rewrite (e_order_ids_ok (EnvOk := Ok)), list_elem_of_fmap.
  unfold has_t; cbn. rewrite lookup_fmap, fmap_is_Some. split.
  - intros ([j s]&->&Hj%elem_of_map_to_list). by exists s.
  - intros [s Hs]. exists (k, s). split; [done|]. by apply elem_of_map_to_list.
Qed.
Lemma soft_user_order g :
  soft g (gets (λ m, e_order (fst <$> map_to_list (m_users m)))) (λ ids, ∀ u, u ∈ ids → has_u g u).
Proof.
  apply soft_gets. intros m <- k. rewrite (e_order_ok (EnvOk := Ok)), list_elem_of_fmap.
  unfold has_u; cbn. rewrite lookup_fmap, fmap_is_Some. intros ([j s]&->&Hj%elem_of_map_to_list). by exists s.
Qed.

(** The seats: those that are not in what is left of the list are started. *)
Lemma hoare_start_seats g seats :
  WF (ex0 (Bt := true)) g → coh g → (∀ sid, g_user g !! sid ≠ Some None) → (∀ k, k ∈ seats ↔ has_t g k) →
  hoare g (for_each (λ k, ignore (seat_start k)) seats) (λ _ g', WF ex0 g' ∧ kept g' = kept g).
Proof.
  intros Hwf Hg Hown Hseats.
  eapply hoare_mono; [apply (hoare_for_each _ _ _ (λ l g', WF (ex0 (Bt := true)) g' ∧ g_user g' = g_user g ∧
    kept g' = kept g ∧ (∀ k, k ∈ l → has_t g' k) ∧ ∀ k b, g_tstarted g' !! k = Some b → k ∈ l ∨ b = true))|].
  - split_and!; [done..| |].
    + intros k. by apply Hseats.
    + intros k b Hk. left. apply Hseats. by eapply coh_tstarted.
  - intros k l g1 (Hwf1&Eu1&Ek1&Hin1&Ht1). apply hoare_coh; intros Hg1. apply hoare_ignore.
    eapply hoare_mono; [apply (hoare_seat_start (Bt := true)); [done|done|apply Hin1; left]|]. intros _ g2 (Hwf2&Hs2&Et2).
    unfold same_but_start in Hs2. split; [done|]. split; [by rewrite Hs2|]. split; [rewrite <-Ek1; by rewrite Hs2|]. split.
    + intros k' Hk'. assert (has_t g1 k') by (apply Hin1; by right). by rewrite Hs2.
    + intros k' b. rewrite Et2. intros [[<- <-]|[Hne Hb]]%lookup_insert_Some; [by right|].
      destruct (Ht1 _ _ Hb) as [Hk%elem_of_cons|?]; [|by right]. left. by destruct Hk as [->|?].
  - intros _ g' (Hwf'&Eu'&Ek'&_&Ht'). split; [|done]. apply wf_started; [done|by rewrite Eu'|].
    intros k b Hk. destruct (Ht' _ _ Hk) as [?%elem_of_nil|?]; done.
Qed.

Lemma hoare_start_users g users :
  WF ex0 g → (∀ u, u ∈ users → has_u g u) →
  hoare g (for_each (λ uid, ignore (user_start uid)) users) (λ _ g', WF ex0 g' ∧ kept g' = kept g).
Proof.
  intros Hwf Hin.
  eapply hoare_mono; [apply (hoare_for_each _ _ _ (λ l g', WF ex0 g' ∧ kept g' = kept g ∧ ∀ u, u ∈ l → has_u g' u))|].
  - done.
  - intros u l g1 (Hwf1&Ek1&Hin1). apply hoare_coh; intros Hg1. apply hoare_ignore.
    eapply hoare_mono; [apply (hoare_user_start ex0); [done|done|apply Hin1; left]|]. intros _ g2 [Hwf2 Hs2].
    unfold same_but_live in Hs2. split; [done|]. split; [rewrite <-Ek1; by rewrite Hs2|].
    intros v Hv. assert (has_u g1 v) by (apply Hin1; by right). by rewrite Hs2.
  - by intros _ g' (?&?&_).
Qed.
Lemma hoare_start_sessions g sessions :
  WF ex0 g → (∀ sid, sid ∈ sessions → has_s g sid) →
  hoare g (for_each (λ sid, ignore (session_start sid)) sessions) (λ _ g', WF ex0 g' ∧ kept g' = kept g).
Proof.
  intros Hwf Hin.
  eapply hoare_mono; [apply (hoare_for_each _ _ _ (λ l g', WF ex0 g' ∧ kept g' = kept g ∧ ∀ u, u ∈ l → has_s g' u))|].
  - done.
  - intros u l g1 (Hwf1&Ek1&Hin1). apply hoare_coh; intros Hg1. apply hoare_ignore.
    eapply hoare_mono; [apply hoare_session_start; [done|done|apply Hin1; left]|]. intros _ g2 [Hwf2 (g'&Hl2&Ho2)].
    unfold same_but_live in Hl2. unfold same_objs in Ho2. split; [done|]. split; [rewrite <-Ek1, Ho2, Hl2; done|].
    intros v Hv. assert (has_s g1 v) by (apply Hin1; by right). by rewrite Ho2, Hl2.
  - by intros _ g' (?&?&_).
Qed.

(** An inhibitor goes with its owner; the others stay. *)
Definition others_stay (id : string) (m m' : manager) : Prop :=
  ∀ i, i ≠ id → is_Some (m_inhibitors m !! i) → is_Some (m_inhibitors m' !! i).
#[export] Instance others_stay_preorder id : PreOrder (others_stay id).
Proof. split; [by intros ???|]. intros m1 m2 m3 H1 H2 i Hi H. auto. Qed.
Lemma others_keep id f : (∀ m, m_inhibitors (f m) = m_inhibitors m) → moves (others_stay id) (modify f).
Proof. intros H. apply moves_modify. intros m i _. by rewrite H. Qed.
Lemma others_get id : moves (others_stay id) (get_inhibitor id).
Proof. unfold get_inhibitor. solve_moves. Qed.
Lemma others_upd id f : moves (others_stay id) (upd_inhibitor id f).
Proof.
  intros m a m' H. unfold upd_inhibitor, get_inhibitor, bind, gets in H.
  destruct (m_inhibitors m !! id) as [i|] eqn:Ei; cbn in H; [|done]. injection H as <- <-.
  intros j Hj [x Hx]. exists x. cbn. by rewrite lookup_insert_ne.
Qed.
Lemma others_free id : moves (others_stay id) (inhibitor_free id).
Proof.
  unfold inhibitor_free. apply moves_bind; [exact _|apply others_get|]. intros _. apply moves_modify.
  intros m j Hj [x Hx]. exists x. cbn. by rewrite lookup_delete_ne.
Qed.
Hint Resolve others_get others_upd others_free : moves.
Hint Extern 2 (moves (others_stay _) (modify _)) => apply others_keep; reflexivity : moves.
Lemma others_start id : moves (others_stay id) (start_inhibitor id).
Proof.
  unfold start_inhibitor, inhibitor_start, inhibitor_stop, inhibitor_save, bus_manager_send_inhibited_change,
    manager_send_changed, inhibitor_remove_fifo, emit. solve_moves.
Qed.
Lemma wp_start_inhibitor g id m : inh_is g id any_inh m → wp (start_inhibitor id) (λ _ m', cols_of m' = g) m.
Proof.
  intros H. unfold start_inhibitor. apply wp_bind, wp_ignore. eapply wp_mono; [by apply (wp_inhibitor_start g id)|].
  intros ? m1 H1. apply wp_bind. eapply wp_get_inhibitor; [exact H1|]. intros i _. apply wp_when; [|intros _; apply H1].
  intros _. apply wp_bind. eapply wp_mono; [apply (wp_inhibitor_stop g id); exact H1|]. intros ? m2 H2. exact (wp_inhibitor_free g id _ _ H2).
Qed.
Lemma soft_start_inhibitors g :
  soft g start_inhibitors (λ _, True).
Proof.
  intros m <-. apply wp_bind, wp_gets.
  eapply wp_mono; [apply (wp_for_each _ (λ l m', cols_of m' = cols_of m ∧ NoDup l ∧
    ∀ id, id ∈ l → is_Some (m_inhibitors m' !! id)))|].
  - split; [done|]. split.
    + rewrite (e_order_ids_ok (EnvOk := Ok)). apply NoDup_fst_map_to_list.
    + intros id. rewrite (e_order_ids_ok (EnvOk := Ok)), list_elem_of_fmap.
      intros ([j i]&->&Hj%elem_of_map_to_list). by exists i.
  - intros id l m1 (Hc&[Hni Hnd]%NoDup_cons&Hin). destruct (Hin id) as [i Hi]; [left|].
    eapply wp_mono; [apply wp_moves; [apply others_start|apply (wp_start_inhibitor (cols_of m) id)]|].
    + split; [done|]. by exists i.
    + intros _ m2 [Hc2 Hst]. split_and!; [done|done|]. intros j Hj. apply Hst; [by intros ->|]. apply Hin. by right.
  - by intros _ m' (?&_).
Qed.

(** The lid of each button is looked at once. *)
Lemma hoare_check_switches g name :
  WF ex0 g → coh g → has_b g name → (∀ n, g_btn g !! name = Some n → n.1 = false) →
  hoare g (button_check_switches name) (λ _ g', WF ex0 g' ∧ g_seat0 g' = g_seat0 g ∧ ∀ i, i ≠ name → g_btn g' !! i = g_btn g !! i).
Proof.
  intros Hwf Hg Hb Hn. unfold button_check_switches. eapply hoare_soft_bind; [by apply soft_get_button|]. intros b Hr.
  destruct (b_fd b <? 0); [by apply hoare_ret|]. destruct (e_input_switches (b_fd b)) as [k|sw]; [by apply hoare_ret|].
  eapply hoare_bind; [by apply hoare_upd_button|]. intros _ g1 (b1&Hr1&->).
  set (n1 := bnode_of _). assert (Hn1 : n1.1 = false) by exact (Hn _ Hr1).
  set (g1 := g <| g_btn := _ |>). assert (Hwf1 : WF ex0 g1) by (apply wf_set_btn; [done|unfold button_ok; by rewrite Hn1]).
  apply hoare_coh; intros Hg1. assert (Eb1 : g_btn g1 !! name = Some n1) by apply (lookup_insert_eq (g_btn g)).
  assert (Hne1 : ∀ i, i ≠ name → g_btn g1 !! i = g_btn g !! i) by (intros i Hi; by apply (lookup_insert_ne (g_btn g))).
  eapply hoare_soft_bind; [apply soft_emit|]. intros _ _.
  apply (hoare_bind _ _ _ (λ _ g', WF ex0 g' ∧ g_seat0 g' = g_seat0 g ∧ ∀ i, i ≠ name → g_btn g' !! i = g_btn g !! i)); [|intros ? ? ?; by apply hoare_ret].
  apply hoare_when; [|done]. intros Hlid. apply hoare_ignore.
  unfold button_install_check_event_source. eapply hoare_soft_bind; [apply soft_get_button; by eexists|]. intros b2 Hr2.
  destruct (b_check_event_source b2); [by apply hoare_ret|]. destruct (_ <? 0); [by apply hoare_ret|].
  eapply hoare_bind; [apply hoare_upd_button; by eexists|]. intros _ g2 (b3&Hr3&->). apply hoare_ret. split_and!; [|done|].
  - apply wf_set_btn; [done|]. intros _. assert (H3 : bnode_of b3 = n1) by congruence.
    change ((bnode_of b3).2 = true). rewrite H3. exact Hlid.
  - intros i Hi. cbn. by rewrite lookup_insert_ne, Hne1.
Qed.
Lemma hoare_check_buttons g buttons :
  WF ex0 g → unchecked g → NoDup buttons → (∀ b, b ∈ buttons → has_b g b) →
  hoare g (for_each (λ b, ignore (button_check_switches b)) buttons) (λ _ g', WF ex0 g' ∧ g_seat0 g' = g_seat0 g).
Proof.
  intros Hwf Hu Hnd Hin.
  eapply hoare_mono; [apply (hoare_for_each _ _ _ (λ l g', WF ex0 g' ∧ g_seat0 g' = g_seat0 g ∧ NoDup l ∧
    ∀ b, b ∈ l → ∃ n, g_btn g' !! b = Some n ∧ n.1 = false))|].
  - split_and!; [done..|]. intros b Hb. destruct (Hin _ Hb) as [n Hn]. exists n. split; [done|]. by apply (Hu b).
  - intros b l g1 (Hwf1&Es1&[Hni1 Hnd1]%NoDup_cons&Hin1). apply hoare_coh; intros Hg1. apply hoare_ignore.
    destruct (Hin1 b) as (n&Hb&Hn); [left|].
    eapply hoare_mono; [apply hoare_check_switches; [done|done|by eexists|]|].
    + intros n' Hn'. congruence.
    + intros _ g2 (Hwf2&Es2&Hne). split_and!; [done|congruence|done|]. intros b' Hb'. rewrite Hne by (by intros ->). apply Hin1. by right.
  - by intros _ g' (?&?&_).
Qed.
Lemma soft_button_order g :
  soft g (gets (λ m, e_order_ids (fst <$> map_to_list (m_buttons m)))) (λ ids, NoDup ids ∧ ∀ b, b ∈ ids → has_b g b).
Proof.
  apply soft_gets. intros m <-. split.
  - rewrite (e_order_ids_ok (EnvOk := Ok)). apply NoDup_fst_map_to_list.
  - intros b. rewrite (e_order_ids_ok (EnvOk := Ok)), list_elem_of_fmap. unfold has_b; cbn.
    rewrite lookup_fmap, fmap_is_Some. intros ([j s]&->&Hj%elem_of_map_to_list). by exists s.
Qed.

Lemma unchecked_kept g g' : unchecked g → kept g' = kept g → unchecked g'.
Proof. unfold unchecked. by intros ? [= -> _]. Qed.
Lemma hoare_start_everything g :
  WF (ex0 (Bt := true)) g → coh g → unchecked g → (∀ sid, g_user g !! sid ≠ Some None) →
  hoare g start_everything (λ _ g', WF ex0 g' ∧ g_seat0 g' = g_seat0 g).
Proof.
  intros Hwf Hg Hu Hown. unfold start_everything.
  eapply hoare_soft_bind; [apply soft_seat_order|]. intros seats Hseats.
  eapply hoare_bind; [by apply hoare_start_seats|]. intros _ g1 [Hwf1 Ek1].
  eapply hoare_soft_bind; [apply soft_user_order|]. intros users Husers.
  eapply hoare_bind; [by apply hoare_start_users|]. intros _ g2 [Hwf2 Ek2].
  apply hoare_coh; intros Hg2. eapply hoare_soft_bind; [by apply soft_session_ids|]. intros ids Hids.
  eapply hoare_bind; [by apply hoare_start_sessions|]. intros _ g3 [Hwf3 Ek3].
  assert (Ek : kept g3 = kept g) by congruence.
  eapply hoare_soft_bind; [apply soft_start_inhibitors|]. intros _ _.
  eapply hoare_soft_bind; [apply soft_button_order|]. intros buttons [Hnd Hbuttons].
  eapply hoare_mono; [apply hoare_check_buttons; [done|by eapply unchecked_kept|done..]|].
  intros _ g4 [Hwf4 Es4]. split; [done|]. rewrite Es4. by injection Ek.
Qed.

(** * From nothing to a daemon that runs *)

Lemma moves_seat0_idle m m' : power_only m m' → m_seat0 m' = m_seat0 m.
Proof. by intros ->. Qed.

Lemma wp_startup c fd1 fd2 :
  sane c → saved_ok →
  wp manager_startup (λ r m, r = 0 ∧ wf m ∧ m_seat0 m = Some seat0_name) (initial_manager c fd1 fd2).
Proof.
  intros Hc Hsaved. unfold manager_startup, manager_add_seat, seat_new.
  set (m0 := initial_manager c fd1 fd2).
  apply wp_bind, wp_bind, wp_gets. change (m_seats m0 !! "seat0"%string) with (@None seat).
  change (negb (seat_name_is_valid "seat0")) with false. cbv iota.
  apply wp_bind, wp_modify, wp_ret. change (0 <? 0) with false. cbv iota.
  apply wp_bind, wp_modify.
  match goal with |- wp _ _ ?x => change x with (with_seat0 m0 false []) end.
  assert (Hwf0 : WF (ex0 (Bt := true)) (cols_of (with_seat0 m0 false []))) by by apply wf_boot.
  set (g0 := cols_of (with_seat0 m0 false [])) in *.
  apply wp_bind, wp_gets. set (t := c_holdoff_timeout_usec _). clearbody t.
  enough (H : hoare g0 (ignore (manager_set_lid_switch_ignore t) ;;; deserialize_state ;;;
    fuel <- gets gc_rounds ;; manager_gc false fuel ;;; start_everything ;;;
    ignore manager_dispatch_idle_action ;;; ret 0) (λ r g', r = 0 ∧ WF ex0 g' ∧ g_seat0 g' = Some seat0_name)).
  { apply (H _ eq_refl). }
  eapply hoare_soft_bind; [apply soft_ignore, soft_set_lid_switch_ignore|]. intros _ _.
  eapply hoare_bind; [apply (hoare_deserialize_state (Bt := true) (Some seat0_name)); [done|done| | |done]|].
  - by constructor.
  - intros uid t' Hn. cbn in Hn. by rewrite lookup_fmap in Hn.
  - intros ? g1 Hbo1. apply hoare_coh; intros Hg1.
    eapply (hoare_soft_bind _ _ _ (λ n, n = gc_fuel g1)); [apply soft_gets; by intros m <-; apply gc_fuel_cols|].
    intros fuel ->. eapply hoare_bind; [apply (hoare_manager_gc (Bt := true)); [done|apply Hbo1|done|done]|].
    intros _ g2 (Hwf2&(_&_&_&Eb2&Es2)&_&Eq2&_). apply hoare_coh; intros Hg2.
    eapply hoare_bind; [apply hoare_start_everything; [done|done| |]|].
    + unfold unchecked. rewrite Eb2. apply Hbo1.
    + intros sid Hs. destruct (wf_owner _ _ Hwf2 _ Hs) as [?|[?|[_ Hin]]]; [done..|]. rewrite Eq2 in Hin. by apply elem_of_nil in Hin.
    + intros _ g3 [Hwf3 Es3]. apply hoare_coh; intros Hg3.
      assert (Es : g_seat0 g3 = Some seat0_name) by (rewrite Es3, Es2; apply Hbo1).
      eapply (hoare_bind _ _ _ (λ _ g', WF ex0 g' ∧ g_seat0 g' = Some seat0_name)); [|intros _ g4 [? ?]; by apply hoare_ret].
      apply hoare_ignore. intros m <-. eapply wp_mono;
        [eapply wp_moves; [apply power_dispatch_idle|exact (safe_dispatch_idle_action _ Hwf3 Hg3 m eq_refl)]|].
      intros _ m' [Hwf' Hp]. split; [done|]. cbn. rewrite (moves_seat0_idle _ _ Hp). exact Es.
Qed.
End Start.

(** Every reachable state has well-formed links. *)
Lemma reachable_wf c m : sane c → reachable c m → wf m.
Proof.
  intros Hc. induction 1 as [E Ok fd1 fd2 m Hs H|E Ok ev m o m' _ IH Hev H].
  - pose proof (wp_startup c fd1 fd2 Hc Hs) as Hw. unfold wp in Hw. rewrite H in Hw. by destruct Hw as (_&?&_).
  - pose proof (wp_run_once ev m IH Hev) as Hw. unfold wp in Hw. by rewrite H in Hw.
Qed.
