(* ===== verification/Partial.v ===== *)
(** Partial correctness, for the properties that need not show again that a
    computation ends: what holds if it does; and the relations between the
    state before and after that many operations preserve: the tables of
    sessions stays, or one field of a session does. *)
From S2P Require Import Prelude Time LoginTypes ActionTypes LoginState LoginEnv Objects SessionDevice Seat Device User Session.

Definition may {S A} (c : M S A) (Q : A → S → Prop) (s : S) : Prop :=
  ∀ a s', c s = Some (a, s') → Q a s'.

Section May.
  Context {S : Type}.
  Implicit Types s : S.

Lemma may_ret {A} (a : A) (Q : A → S → Prop) s : Q a s → may (ret a) Q s.
  Proof. by intros H b s' [= <- <-]. Qed.
Lemma may_bind {A B} (c : M S A) (k : A → M S B) Q s :
    may c (λ a, may (k a) Q) s → may (bind c k) Q s.
  Proof. intros H b s' (a&s1&H1&H2)%bind_Some. by eapply H. Qed.
Lemma may_moves {A} (R : relation S) (c : M S A) s : moves R c → may c (λ _, R s) s.
  Proof. intros H a s'. apply H. Qed.
Lemma may_mono {A} (c : M S A) (P Q : A → S → Prop) s :
    may c P s → (∀ a s', P a s' → Q a s') → may c Q s.
  Proof. intros Hc HP a s' H. auto. Qed.
Lemma may_gets {A} (f : S → A) (Q : A → S → Prop) s : Q (f s) s → may (gets f) Q s.
  Proof. by intros H b s' [= <- <-]. Qed.
Lemma may_modify f (Q : unit → S → Prop) s : Q tt (f s) → may (modify f) Q s.
  Proof. by intros H b s' [= <- <-]. Qed.
Lemma may_deref {A} (o : option A) (Q : A → S → Prop) s :
    (∀ a, o = Some a → Q a s) → may (deref o) Q s.
  Proof. destruct o; intros H; [apply may_ret; auto | by intros ? ? [=]]. Qed.
Lemma may_assert b (Q : unit → S → Prop) s : (b = true → Q tt s) → may (assert_se b) Q s.
  Proof. destruct b; intros H; [apply may_ret; auto | by intros ? ? [=]]. Qed.
Lemma wp_may {A} (c : M S A) (P Q : A → S → Prop) s :
    wp c P s → may c Q s → ∃ a s', c s = Some (a, s') ∧ P a s' ∧ Q a s'.
  Proof. intros (a&s'&H&HP)%wp_run HQ. exists a, s'. auto. Qed.
End May.

(** [c ;;; k] where [c] moves along [R] and [k] works after any such move. *)
Lemma may_after {S A B} (R : relation S) (c : M S A) (k : A → M S B) Q s :
  moves R c → (∀ a s1, R s s1 → may (k a) Q s1) → may (bind c k) Q s.
Proof. intros Hc Hk. apply may_bind. eapply may_mono; [by apply may_moves|]. auto. Qed.

(** A step whose run is known. *)
Lemma bind_run {S A B} (c : M S A) (k : A → M S B) s a s' :
  c s = Some (a, s') → bind c k s = k a s'.
Proof. unfold bind. by intros ->. Qed.
Lemma get_session_run m sid s : m_sessions m !! sid = Some s → get_session sid m = Some (s, m).
Proof. intros H. unfold get_session, bind, gets. by rewrite H. Qed.
Lemma get_seat_run m k s : m_seats m !! k = Some s → get_seat k m = Some (s, m).
Proof. intros H. unfold get_seat, bind, gets. by rewrite H. Qed.
Lemma get_user_run m uid u : m_users m !! uid = Some u → get_user uid m = Some (u, m).
Proof. intros H. unfold get_user, bind, gets. by rewrite H. Qed.

(** The state of a session can be read when its seat is there. *)
Lemma session_state_run m sid s :
  m_sessions m !! sid = Some s → (∀ k, s_seat s = Some k → is_Some (m_seats m !! k)) →
  ∃ st, session_get_state sid m = Some (st, m).
Proof.
  intros Hs Hk. assert (Hw : wp (session_get_state sid) (λ _ m', m' = m) m).
  { unfold session_get_state, session_is_active. apply wp_bind. eapply wp_get_session; [done|].
    destruct (_ || _); [by apply wp_ret|]. destruct (_ && _); [by apply wp_ret|].
    apply wp_bind, wp_bind. eapply wp_get_session; [done|].
    destruct (s_seat s) as [k|] eqn:Ek; [|by apply wp_ret, wp_ret].
    destruct (Hk k eq_refl) as [t Ht].
    apply wp_bind. eapply wp_get_seat; [done|]. by apply wp_ret, wp_ret. }
  destruct (wp_run _ _ _ Hw) as (st&m'&H&->). by exists st.
Qed.

Section Lookups.
  Context (m : manager).
Lemma may_get_session sid (Q : session → manager → Prop) :
    (∀ s, m_sessions m !! sid = Some s → Q s m) → may (get_session sid) Q m.
  Proof. intros H. apply may_bind, may_gets, may_deref. auto. Qed.
Lemma may_upd_session sid f (Q : unit → manager → Prop) :
    (∀ s, m_sessions m !! sid = Some s → Q tt (m <| m_sessions := <[sid := f s]> (m_sessions m) |>)) →
    may (upd_session sid f) Q m.
  Proof. intros H. apply may_bind, may_get_session. intros s Hs. apply may_modify. auto. Qed.
End Lookups.

(** * Sessions that stay as they are *)

Definition same_sessions (m m' : manager) : Prop := m_sessions m' = m_sessions m.
#[export] Instance same_sessions_preorder : PreOrder same_sessions.
Proof. split; [done|]. unfold same_sessions. intros m1 m2 m3 H1 H2. congruence. Qed.

(** The field [p] of session [sid], and that it stays. *)
Definition field {A} (p : session → A) (sid : string) (m : manager) : option A := p <$> m_sessions m !! sid.
Definition keeps {A} (p : session → A) (sid : string) (m m' : manager) : Prop :=
  field p sid m' = field p sid m.
#[export] Instance keeps_preorder {A} (p : session → A) sid : PreOrder (keeps p sid).
Proof. split; [done|]. unfold keeps. intros m1 m2 m3 H1 H2. congruence. Qed.
Lemma same_sessions_keeps {A} (p : session → A) sid m m' : same_sessions m m' → keeps p sid m m'.
Proof. unfold keeps, field. by intros ->. Qed.

Lemma same_modify f : (∀ m, m_sessions (f m) = m_sessions m) → moves same_sessions (modify f).
Proof. intros H. apply moves_modify, H. Qed.
#[export] Hint Extern 2 (moves same_sessions (modify _)) => apply same_modify; reflexivity : moves.
Lemma same_emit ev : moves same_sessions (emit ev).
Proof. by apply same_modify. Qed.
Lemma same_get_session sid : moves same_sessions (get_session sid).
Proof. unfold get_session. solve_moves. Qed.
Lemma same_get_seat k : moves same_sessions (get_seat k).
Proof. unfold get_seat. solve_moves. Qed.
Lemma same_get_user uid : moves same_sessions (get_user uid).
Proof. unfold get_user. solve_moves. Qed.
Lemma same_get_device d : moves same_sessions (get_device d).
Proof. unfold get_device. solve_moves. Qed.
#[export] Hint Resolve same_emit same_get_session same_get_seat same_get_user same_get_device : moves.
Lemma same_upd_user uid f : moves same_sessions (upd_user uid f).
Proof. unfold upd_user. solve_moves. Qed.
Lemma same_upd_seat k f : moves same_sessions (upd_seat k f).
Proof. unfold upd_seat. solve_moves. Qed.
#[export] Hint Resolve same_upd_user same_upd_seat : moves.
Lemma same_session_is_active sid : moves same_sessions (session_is_active sid).
Proof. unfold session_is_active. solve_moves. Qed.
#[export] Hint Resolve same_session_is_active : moves.
Lemma same_session_get_state sid : moves same_sessions (session_get_state sid).
Proof. unfold session_get_state. solve_moves. Qed.
Lemma same_session_uid sid : moves same_sessions (session_uid sid).
Proof. unfold session_uid. solve_moves. Qed.
Lemma same_seat_has_vts k : moves same_sessions (seat_has_vts k).
Proof. unfold seat_has_vts, seat_is_seat0. solve_moves. Qed.
#[export] Hint Resolve same_session_get_state same_session_uid same_seat_has_vts : moves.
Lemma same_map_m {A B} (f : A → MM B) l : (∀ x, moves same_sessions (f x)) → moves same_sessions (map_m f l).
Proof. intros Hf. induction l as [|x l IH]; simpl; solve_moves. Qed.

Section Same.
Context {E : Env}.
Lemma same_user_state_loop mode b l : moves same_sessions (user_state_loop mode b l).
Proof. revert b. induction l as [|i l IH]; intros b; simpl; solve_moves. Qed.
Hint Resolve same_user_state_loop : moves.
Lemma same_user_save_internal uid : moves same_sessions (user_save_internal uid).
Proof.
  unfold user_save_internal, user_get_state. solve_moves.
  apply same_map_m. intros i. unfold user_session_info. solve_moves.
Qed.
Hint Resolve same_user_save_internal : moves.
Lemma same_user_save uid : moves same_sessions (user_save uid).
Proof. unfold user_save. solve_moves. Qed.
Lemma same_session_save sid : moves same_sessions (session_save sid).
Proof. unfold session_save. solve_moves. Qed.
Lemma same_user_elect_display uid : moves same_sessions (user_elect_display uid).
Proof. unfold user_elect_display, elect_one. solve_moves. Qed.
End Same.
#[export] Hint Resolve same_user_save_internal same_user_save same_session_save same_user_elect_display : moves.

(** Along [keeps p sid]. *)
Section Keeps.
Context {A : Type} (p : session → A) (sid : string).

Lemma keeps_same {B} (c : MM B) : moves same_sessions c → moves (keeps p sid) c.
Proof. intros H m a m' Hm. by eapply same_sessions_keeps, H. Qed.
Lemma keeps_upd_session i f : (∀ s, p (f s) = p s) → moves (keeps p sid) (upd_session i f).
Proof.
  intros Hf m a m'. unfold upd_session. intros (s&m1&H1&H2)%bind_Some.
  unfold get_session in H1. apply bind_Some in H1 as (o&m2&[= <- <-]&H1).
  destruct (m_sessions m !! i) as [s1|] eqn:Ei; [|done]. injection H1 as <- <-. injection H2 as _ <-.
  unfold keeps, field. cbn. destruct (decide (i = sid)) as [->|Hne].
  - by rewrite lookup_insert_eq, Ei; cbn; rewrite Hf.
  - by rewrite lookup_insert_ne.
Qed.
End Keeps.
#[export] Hint Extern 3 (moves (keeps _ _) (upd_session _ _)) =>
  apply keeps_upd_session; reflexivity : moves.
#[export] Hint Extern 4 (moves (keeps _ _) _) => apply keeps_same; solve [eauto with moves typeclass_instances] : moves.
