(* ===== verification/Sample.v ===== *)
(** A concrete environment, configuration and caller, in which the theorems
    are tried on concrete inputs: every system call succeeds, the calling
    process is in no session, and the user database knows every uid. *)
From stdpp Require Import pretty.
From S2P Require Import Prelude Time LoginTypes ActionTypes LoginState LoginEnv Bus Objects SessionDevice Seat Device User Session Lifecycle SessionBus ManagerBus Startup Events.

Definition sample_record (uid : Z) : user_record :=
  mkUserRecord uid (Some ("user" +:+ pretty uid)) 0 UINT64_MAX 0.

(** A graphics card on seat0, as sd-device tells of it. *)
Definition sample_card : sd_device_info :=
  mkSdDevice false (Some "/sys/card0"%string) (Some "/dev/dri/card0"%string) (Some "card0"%string)
    "drm" None true true.

(** The directories and the files of a system, and otherwise the same. *)
Definition sample_env_with (directory : string → Z + (list (string * bool) * Z)) (read_file : string → Z + string) : Env := {|
  e_now_monotonic := 1000; e_now_realtime := 2000; e_now_boottime := 3000;
  e_order := id; e_order_ids := id; e_usable := Some;
  e_chvt _ := 0; e_open_terminal _ := 7; e_fchown _ := 0; e_tty_owner _ := inr 0;
  e_vt_ioctl _ _ := 0; e_vt_restore _ := 0; e_vt_release _ := 0;
  e_lstat_atime _ := None; e_ctty _ := None; e_open _ := 8; e_drm_set_master _ _ := 0;
  e_mkfifo _ := 0; e_open_fifo_read _ := 9; e_open_fifo_write _ := 10; e_pipe_eof _ := 0;
  e_console_lseek := 0; e_console_read := 0; e_console_vtnr := 1;
  e_device_from_devnum _ := inr (sample_card, None);
  e_uninit_timestamp := DUAL_TIMESTAMP_NULL;
  e_pid_is_alive _ := 1; e_pidref_kill _ _ := 0; e_audit_session _ := None;
  e_linger _ := - ENOENT; e_user_runtime_dir _ _ := 0; e_clean_ipc _ := 0;
  e_uid_is_system uid := uid <? 1000;
  e_cg_is_empty_recursive _ := 0; e_cg_all_unified := 0; e_cg_unified_controller := 0;
  e_cg_create _ := 0; e_cg_set_access _ := 0; e_cg_attach _ _ := 0; e_cg_get_path _ := 0;
  e_cg_kill_recursive _ _ := 0; e_inotify_add_watch fd _ := if fd <? 0 then - EBADF else 1;
  e_event_add _ := 0; e_event_set_time := 0; e_event_finished := false;
  e_bus_track_new := 0; e_bus_track_add_name _ := 0; e_notify_push_fd _ := 0;
  e_userdb_by_uid uid := inr (sample_record uid);
  e_pidref_set_pid pid := inr (mkPidref pid 11 0); e_pidref_set_pidfd fd := inr (mkPidref 300 fd 0);
  e_pidref_verify _ := 0; e_getpid := 50; e_process_ppid _ := inr 1; e_cg_pid_get_session _ := None;
  e_mkdir_linger := 0; e_touch _ := 0; e_unlink _ := 0;
  e_read_file := read_file; e_uninit_int := 77; e_fork _ := inr 400; e_waitpid _ := Some 0;
  e_sleep_supported _ := 1; e_sleep_disabled _ := false; e_sleep_config := inr (false, false); e_kexec := 0; e_kexec_loaded := false;
  e_run_nologin := 0; e_maintenance_time := None; e_active_uid := None; e_format_timestamp := pretty;
  e_schedule_open := 0; e_schedule_close := 0;
  e_input_bits _ _ := inr 0; e_input_keys _ := inr 0; e_input_switches _ := inr 0; e_input_name _ := 5; e_input_set_mask _ _ := 0;
  e_drm_devices := inr []; e_on_ac_power := 1; e_kill_user_processes := false;
  e_directory := directory; e_seat_devices := inr []; e_button_devices := inr [];
  e_userdb_by_name _ := inl (- ESRCH); e_name_has_owner _ := 1; e_listen_fds := inr []; e_fstat_rdev _ := inl (- EBADF);
|}.

(** Nothing was saved. *)
Definition sample_env : Env := sample_env_with (λ _, inl (- ENOENT)) (λ _, inl (- ENOENT)).

Lemma sample_env_with_ok directory read_file : @EnvOk (sample_env_with directory read_file).
Proof.
  split; cbn; try done.
  - intros n k [= ->]. lia.
  - intros fd _ H. by apply Z.ltb_lt in H as ->.
  - by intros pid p _ [= <-].
Qed.
Lemma sample_env_ok : @EnvOk sample_env.
Proof. apply sample_env_with_ok. Qed.

(** No key is handled, no session is stopped for being idle. *)
Definition sample_config : config :=
  mkConfig [] [] false false 5000000 10000000 0 HANDLE_IGNORE USEC_INFINITY 0
    HANDLE_POWEROFF HANDLE_IGNORE HANDLE_REBOOT HANDLE_POWEROFF HANDLE_SUSPEND HANDLE_HIBERNATE
    HANDLE_HIBERNATE HANDLE_IGNORE HANDLE_SECURE_ATTENTION_KEY HANDLE_SUSPEND None HANDLE_IGNORE
    false false false true false true 30000000 8192 8192.
Definition sample_initial : manager := @initial_manager sample_env sample_config (-1) 3.

(** The state a computation ends in, [m] itself if it crashes. *)
Definition after {A} (c : MM A) (m : manager) : manager :=
  match c m with Some (_, m') => m' | None => m end.
Definition sample_started : manager := after (@manager_startup sample_env) sample_initial.
Definition run (evs : list event) (m : manager) : manager :=
  foldl (λ m ev, after (@manager_run_once sample_env ev) m) m evs.

(** A message from a process of the user [uid], as [sender], polkit saying [verdict]. *)
Definition sample_message (uid verdict : Z) (sender : string) : message :=
  mkMessage sender "" (inr uid) (inl (- ENXIO)) (inr uid) (inr (mkPidref 300 12 0)) (λ _, verdict) 0 0 0 (inr (Some uid, None)).
Definition root_message : message := sample_message 0 1 ":1.1".

(** CreateSession for user [uid] on seat0, as a display manager calls it. *)
Definition sample_args (uid leader : Z) : create_args :=
  mkCreateArgs uid leader (-1) "sddm" "x11" "user" "" "seat0" 0 "" ":0" false "" "" 0.

(** What an earlier instance of the daemon saved: a user who is logged in on a
    display and in the background, the latter session being about to close, and
    an inhibitor. *)
Definition text_lines (l : list string) : string := foldr (λ x t, x +:+ String (Ascii.ascii_of_nat 10) t) EmptyString l.
Definition saved_directory (path : string) : Z + (list (string * bool) * Z) :=
  if bool_decide (path = "/run/systemd/users"%string) then inr ([("1000"%string, true); ("fifos"%string, false)], 0)
  else if bool_decide (path = "/run/systemd/sessions"%string)
    then inr ([("c1"%string, true); ("c1.ref"%string, false); ("c7"%string, true)], 0)
  else if bool_decide (path = "/run/systemd/inhibit"%string) then inr ([("1"%string, true)], 0)
  else inl (- ENOENT).
Definition saved_file (path : string) : Z + string :=
  if bool_decide (path = "/run/systemd/users/1000"%string) then
    inr (text_lines ["NAME=user1000"; "STATE=active"; "STOPPING=no"; "DISPLAY=c1"; "REALTIME=2000"; "MONOTONIC=1000"])
  else if bool_decide (path = "/run/systemd/sessions/c1"%string) then
    inr (text_lines ["UID=1000"; "USER=user1000"; "ACTIVE=1"; "IS_DISPLAY=1"; "STATE=active"; "REMOTE=0"; "LEADER_FD_SAVED=0";
                     "TYPE=x11"; "ORIGINAL_TYPE=x11"; "CLASS=user"; "SEAT=seat0"; "DISPLAY=:0"; "SERVICE=sddm"; "POSITION=1";
                     "LEADER=100"; "REALTIME=2000"; "MONOTONIC=1000"; "CONTROLLER=:1.1"; "DEVICES=226:0 13:64 bad "])
  else if bool_decide (path = "/run/systemd/sessions/c7"%string) then
    inr (text_lines ["UID=1000"; "USER=user1000"; "ACTIVE=0"; "IS_DISPLAY=0"; "STATE=closing"; "REMOTE=1"; "TYPE=tty";
                     "CLASS=user"; "LEADER=101"; "VTNR=x"; "FIFO=/run/systemd/sessions/c7.ref"])
  else if bool_decide (path = "/run/systemd/inhibit/1"%string) then
    inr (text_lines ["WHAT=sleep"; "MODE=delay"; "UID=0"; "PID=5"; "WHO=me"; "FIFO=/run/systemd/inhibit/1.ref"])
  else inl (- ENOENT).
Definition restart_env : Env := sample_env_with saved_directory saved_file.
Definition sample_restarted : manager :=
  after (@manager_startup restart_env) (@initial_manager restart_env sample_config (-1) 3).
Example sample_restarted_holds :
  (fst <$> map_to_list (m_sessions sample_restarted), fst <$> map_to_list (m_users sample_restarted),
   (λ s, (s_user s, s_seat s, s_type s, s_controller s, fst <$> map_to_list (s_devices s))) <$> m_sessions sample_restarted !! "c1"%string,
   (λ s, (s_started s, s_stopping s, s_remote s)) <$> m_sessions sample_restarted !! "c7"%string,
   u_display <$> m_users sample_restarted !! 1000, se_active <$> m_seats sample_restarted !! "seat0"%string,
   fst <$> map_to_list (m_inhibitors sample_restarted))
  = (["c7"; "c1"], [1000], Some (Some 1000, Some "seat0", SESSION_X11, Some ":1.1", [3392; 57856]),
     Some (false, true, true), Some (Some "c1"), Some (Some "c1"), ["1"])%string.
Proof. vm_compute. reflexivity. Qed.

(** Two users log in on seat0, which has a graphics card. *)
Definition sample_events : list event :=
  [SeatDevice sample_card;
   ManagerMethod (CreateSession (sample_args 1000 100)) root_message;
   ManagerMethod (CreateSession (sample_args 1001 101)) root_message].
Definition sample_busy : manager := run sample_events sample_started.
(** The daemon after a display server took control of the session in the foreground. *)
Definition sample_controlled : manager :=
  run (sample_events ++ [SessionMethod "c2" (TakeControl false) root_message]) sample_started.
Definition sample_taken : manager :=
  run (sample_events ++ [SessionMethod "c2" (TakeControl false) root_message;
                         SessionMethod "c2" (TakeDevice 226 0) root_message]) sample_started.
