(* ===== verification/Safety.v ===== *)
(** The daemon as a whole: whatever it has been asked to do, the next round of
    its loop ends and the links between its objects agree.  The theorems read
    off the manager's tables what the invariant of Links.v says of the columns
    of its links. *)
From S2P Require Import Prelude Time LoginTypes ActionTypes LoginState LoginEnv Bus Objects SessionDevice Seat Device User Session Lifecycle SessionBus ManagerBus Buttons Startup Events Cols Links LinksFree LinksKeys LinksRun LinksBoot Sample.

(** * Concrete reachable states *)

Lemma sample_sane : sane sample_config.
Proof. split; [done|]. by apply (bool_decide_unpack _). Qed.
#[export] Hint Resolve sample_sane : core.
Lemma sample_saved : @saved_ok sample_env.
Proof. constructor; cbn; try done; [constructor|intros ? ?%elem_of_nil; done]. Qed.
#[export] Hint Resolve sample_saved : core.
Lemma started_reachable c :
  sane c →
  reachable c (after (@manager_startup sample_env) (@initial_manager sample_env c (-1) 3)).
Proof.
  intros Hc. pose proof (wp_startup (Ok := sample_env_ok) c (-1) 3 Hc sample_saved) as H.
  destruct (wp_run _ _ _ H) as (r&m&Hr&->&_).
  eapply (reach_start _ sample_env sample_env_ok (-1) 3); [done|]. unfold after. by rewrite Hr.
Qed.
Lemma sample_started_reachable : reachable sample_config sample_started.
Proof. by apply started_reachable. Qed.
Lemma fits_always {E : Env} ev m : (∀ m, event_ok ev m) → event_fits ev m.
Proof. by intros H r m1 _. Qed.
Lemma run_reachable c evs m :
  reachable c m → Forall (λ ev, ∀ m, @event_ok sample_env ev m) evs → reachable c (run evs m).
Proof.
  intros Hm Hevs. revert m Hm. induction Hevs as [|ev evs Hev _ IH]; intros m Hm; [done|].
  apply IH. unfold after.
  destruct (manager_run_once ev m) as [[o m']|] eqn:Er; [|done].
  by apply (reach_run _ sample_env sample_env_ok ev m o); [|apply fits_always|].
Qed.
Lemma sample_reachable evs :
  Forall (λ ev, ∀ m, @event_ok sample_env ev m) evs → reachable sample_config (run evs sample_started).
Proof. apply run_reachable, sample_started_reachable. Qed.
(** The events of the examples come at any time. *)
Ltac events_ok := repeat (constructor; [done|]); constructor.
Lemma sample_busy_reachable : reachable sample_config sample_busy.
Proof. apply sample_reachable. events_ok. Qed.
Lemma sample_controlled_reachable : reachable sample_config sample_controlled.
Proof. apply sample_reachable. events_ok. Qed.
Lemma sample_taken_reachable : reachable sample_config sample_taken.
Proof. apply sample_reachable. events_ok. Qed.
#[export] Hint Resolve sample_started_reachable sample_busy_reachable
  sample_controlled_reachable sample_taken_reachable : core.

(** * The loop never fails *)

(** C1: from every state the daemon can get to, in every environment and for
    every event that [event_ok] admits, a round of the main loop ends: no assertion
    fails, no dangling pointer is followed, and no loop of the code goes on for
    ever. That the button of a long press is still there when the time is up is
    shown, not assumed. What [sane] and [event_ok] leave out, here and on the way to
    the state, is this: settings with an action set to factory-reset, with a
    SessionsMax= or InhibitorsMax= near the end of its type, a key of code 0, and
    the case that a button goes - is unplugged, loses its tag or cannot be opened
    when it is announced again - while a long press of one of its keys is being
    timed. ButtonFacts.v shows that factory-reset and that case bring the daemon
    down. *)
Theorem main_loop_never_fails c m (E : Env) ev :
  sane c → reachable c m → EnvOk → event_fits ev m →
  ∃ o m', manager_run_once ev m = Some (o, m') ∧ reachable c m'.
Proof.
  intros Hc Hm Ok Hev. pose proof (reachable_wf c m Hc Hm) as Hwf.
  destruct (wp_run _ _ _ (wp_run_once ev m Hwf Hev)) as (o&m'&H&_).
  exists o, m'. split; [done|]. by apply (reach_run c E Ok ev m o).
Qed.
Lemma main_loop_never_fails_witness :
  sane sample_config ∧ ∃ o m', @manager_run_once sample_env (SeatMethod "seat0" SwitchToNext root_message)
    sample_busy = Some (o, m') ∧ reachable sample_config m'.
Proof.
  split; [done|].
  apply (main_loop_never_fails sample_config sample_busy sample_env); [done|done|apply sample_env_ok|by apply fits_always].
Defined.

(** C35: whatever was saved when the daemon went down, it starts: no file of a
    user, a session or an inhibitor, no device and no button makes the start fail
    or follow a dangling pointer; seat0 is there and started, and the daemon runs
    its loop from there. *)
Theorem startup_succeeds c (E : Env) console_fd inotify_fd :
  sane c → EnvOk → saved_ok →
  ∃ m, manager_startup (initial_manager c console_fd inotify_fd) = Some (0, m) ∧ reachable c m ∧
       m_seat0 m = Some "seat0"%string ∧ se_started <$> m_seats m !! "seat0"%string = Some true.
Proof.
  intros Hc Ok Hs. destruct (wp_run _ _ _ (wp_startup c console_fd inotify_fd Hc Hs)) as (r&m&H&->&Hwf&H0).
  exists m. split; [done|]. split; [by eapply (reach_start c E Ok)|]. split; [done|].
  destruct (wf_seat0 _ _ Hwf) as (k&b&Hk&Hb&[->|?]); [|done]. cbn in Hk, Hb. rewrite H0 in Hk. injection Hk as <-.
  by rewrite lookup_fmap in Hb.
Qed.
Lemma restart_saved : @saved_ok restart_env.
Proof.
  constructor.
  - apply (bool_decide_eq_true_1 (NoDup _)). by vm_compute.
  - by vm_compute.
  - intros sid H. vm_compute in H.
    apply elem_of_cons in H as [->|H]; [|apply elem_of_cons in H as [->|H]; [|by apply elem_of_nil in H]].
    + constructor; [intros ? ? H; by vm_compute in H| |].
      * intros s H. vm_compute in H. injection H as <-. by exists 1.
      * apply (bool_decide_eq_true_1 (NoDup _)). by vm_compute.
    + constructor.
      * intros s v H Hv. vm_compute in H. injection H as <-. vm_compute in Hv. discriminate Hv.
      * intros s H. by vm_compute in H.
      * vm_compute. constructor.
  - intros h. by vm_compute.
  - done.
Qed.
Lemma startup_succeeds_witness :
  ∃ m, @manager_startup restart_env (@initial_manager restart_env sample_config (-1) 3) = Some (0, m) ∧
       reachable sample_config m ∧
       m_seat0 m = Some "seat0"%string ∧ se_started <$> m_seats m !! "seat0"%string = Some true.
Proof. apply startup_succeeds; [done|apply sample_env_with_ok|apply restart_saved]. Defined.

(** C9: the garbage collector, run as the loop runs it, ends with its three
    queues empty: it looks at no object more often than there are seats in its
    queue, sessions, and twice the users. *)
Theorem gc_terminates_with_empty_queues c m (E : Env) drop :
  sane c → reachable c m → EnvOk →
  ∃ m', manager_gc drop (gc_rounds m) m = Some (tt, m') ∧
    m_seat_gc_queue m' = [] ∧ m_session_gc_queue m' = [] ∧ m_user_gc_queue m' = [].
Proof.
  intros Hc Hm Ok. pose proof (reachable_wf c m Hc Hm) as Hwf.
  destruct (wp_run _ _ _ (wp_gc drop m Hwf)) as ([]&m'&H&_&Hq). by exists m'.
Qed.
Lemma gc_terminates_with_empty_queues_witness :
  ∃ m', @manager_gc sample_env true (gc_rounds sample_busy) sample_busy = Some (tt, m') ∧
    m_seat_gc_queue m' = [] ∧ m_session_gc_queue m' = [] ∧ m_user_gc_queue m' = [].
Proof. by apply (gc_terminates_with_empty_queues sample_config sample_busy sample_env); [..|apply sample_env_ok]. Defined.

(** * The links agree *)

(** What the pointers between sessions, users and seats promise each other. *)
Record links_agree (m : manager) : Prop := {
  session_has_user : ∀ sid s, m_sessions m !! sid = Some s →
    ∃ uid u, s_user s = Some uid ∧ m_users m !! uid = Some u ∧ sid ∈ u_sessions u;
  user_has_sessions : ∀ uid u sid, m_users m !! uid = Some u → sid ∈ u_sessions u →
    ∃ s, m_sessions m !! sid = Some s ∧ s_user s = Some uid;
  session_on_seat : ∀ sid s k, m_sessions m !! sid = Some s → s_seat s = Some k →
    ∃ t, m_seats m !! k = Some t ∧ sid ∈ se_sessions t;
  seat_has_sessions : ∀ k t sid, m_seats m !! k = Some t → sid ∈ se_sessions t →
    ∃ s, m_sessions m !! sid = Some s ∧ s_seat s = Some k;
  seat_active : ∀ k t a, m_seats m !! k = Some t → se_active t = Some a ∨ se_pending_switch t = Some a →
    a ∈ se_sessions t;
  user_display : ∀ uid u d, m_users m !! uid = Some u → u_display u = Some d → d ∈ u_sessions u;
  lists_distinct : (∀ uid u, m_users m !! uid = Some u → NoDup (u_sessions u)) ∧
    ∀ k t, m_seats m !! k = Some t → NoDup (se_sessions t);
  position_taken : ∀ k t p sid, m_seats m !! k = Some t → se_positions t !! p = Some (Some sid) →
    (0 < p)%nat ∧ ∃ s, m_sessions m !! sid = Some s ∧ s_seat s = Some k ∧ s_position s = Z.of_nat p;
  leader_found : ∀ pid sid, m_sessions_by_leader m !! pid = Some sid →
    0 < pid ∧ ∃ s, m_sessions m !! sid = Some s ∧ p_pid (s_leader s) = pid;
}.

(** Reading a column. *)
Lemma col_in {K A B} `{Countable K} (f : A → B) (l : gmap K A) k a :
  l !! k = Some a → (f <$> l) !! k = Some (f a).
Proof. intros Hl. by rewrite lookup_fmap, Hl. Qed.
Ltac col_out H := cbn in H; apply lookup_fmap_Some in H as (?&?&?); simplify_eq/=.
Ltac col_done := repeat match goal with H : (_ <$> _) !! _ = Some _ |- _ => col_out H end;
  simplify_eq/=; eauto 10.

Lemma wf_links_agree m : wf m → links_agree m.
Proof.
  intros Hwf. constructor.
  - intros sid s Hs. pose proof (col_in s_user _ _ _ Hs) as Hu. destruct (s_user s) as [uid|] eqn:Eu;
      [|by destruct (wf_owner _ _ Hwf _ Hu) as [?|[?|[? _]]]].
    destruct (wf_user _ _ Hwf _ _ Hu) as (l&Hl&[?|Hin]); [done|]. col_out Hl; col_done.
  - intros uid u sid Hu Hin. pose proof (col_in u_sessions _ _ _ Hu) as Hl.
    apply (proj2 (wf_usess _ _ Hwf _ _ Hl)) in Hin. col_out Hin; col_done.
  - intros sid s k Hs Hk. pose proof (col_in s_seat _ _ _ Hs) as Hu. rewrite Hk in Hu.
    destruct (wf_seat _ _ Hwf _ _ Hu) as [(l&Hl&[?|Hin]) _]; [done|]. col_out Hl; col_done.
  - intros k t sid Ht Hin. pose proof (col_in se_sessions _ _ _ Ht) as Hl.
    apply (proj2 (wf_tsess _ _ Hwf _ _ Hl)) in Hin. col_out Hin; col_done.
  - intros k t a Ht Ha.
    assert (Hs : g_seat (cols_of m) !! a = Some (Some k)).
    { destruct Ha as [Ha|Ha].
      - apply (wf_active _ _ Hwf). rewrite <-Ha. by apply col_in.
      - apply (wf_pending _ _ Hwf). rewrite <-Ha. by apply col_in. }
    destruct (wf_seat _ _ Hwf _ _ Hs) as [(l&Hl&[?|Hin]) _]; [done|]. col_out Hl; col_done.
  - intros uid u d Hu Hd. assert (Hs : g_user (cols_of m) !! d = Some (Some uid)).
    { apply (wf_display _ _ Hwf). rewrite <-Hd. by apply col_in. }
    destruct (wf_user _ _ Hwf _ _ Hs) as (l&Hl&[?|Hin]); [done|]. col_out Hl; col_done.
  - split.
    + intros uid u Hu. by apply (wf_usess _ _ Hwf uid), col_in.
    + intros k t Ht. by apply (wf_tsess _ _ Hwf k), col_in.
  - intros k t p sid Ht Hp.
    destruct (wf_positions _ _ Hwf k _ p sid (col_in se_positions _ _ _ Ht) Hp) as (H0&Hs&Hpos).
    split; [done|]. col_out Hs. col_out Hpos. col_done.
  - intros pid sid Hp. destruct (wf_bypid _ _ Hwf pid sid Hp) as (Hl&H0). col_out Hl; col_done.
Qed.

(** C2: between two events the links agree: a session has a user that lists
    it, the seat of a session lists it, what a seat or a user lists points back,
    the active session, the pending one and the display session are listed; an
    entry of a seat's table of positions is a session of this seat that claims
    the position, and none is at position 0; an entry of the index of leaders is
    the session whose leader the process is, so no process leads two. *)
Theorem reachable_links_agree c m : sane c → reachable c m → links_agree m.
Proof. intros Hc Hm. by apply wf_links_agree, (reachable_wf c). Qed.
Lemma reachable_links_agree_witness : links_agree sample_busy.
Proof. by apply (reachable_links_agree sample_config). Defined.

(** The table of positions of a seat says where the sessions are. *)
Theorem reachable_positions c m k t p sid :
  sane c → reachable c m → m_seats m !! k = Some t → se_positions t !! p = Some (Some sid) →
  (0 < p)%nat ∧ ∃ s, m_sessions m !! sid = Some s ∧ s_seat s = Some k ∧ s_position s = Z.of_nat p.
Proof. intros Hc Hm. by apply (position_taken _ (wf_links_agree m (reachable_wf c m Hc Hm))). Qed.
Example sample_position :
  ∃ t, m_seats sample_busy !! "seat0"%string = Some t ∧
  (0 < 2)%nat ∧ ∃ s, m_sessions sample_busy !! "c2"%string = Some s ∧
    s_seat s = Some "seat0"%string ∧ s_position s = Z.of_nat 2.
Proof.
  eexists. split; [vm_compute; reflexivity|].
  eapply (reachable_positions sample_config); [done|done|vm_compute; reflexivity|reflexivity].
Qed.

(** A process leads one session at most, and the index of leaders finds it. *)
Theorem reachable_leaders c m pid sid :
  sane c → reachable c m → m_sessions_by_leader m !! pid = Some sid →
  0 < pid ∧ ∃ s, m_sessions m !! sid = Some s ∧ p_pid (s_leader s) = pid.
Proof. intros Hc Hm. by apply (leader_found _ (wf_links_agree m (reachable_wf c m Hc Hm))). Qed.
Example sample_leader :
  0 < 101 ∧ ∃ s, m_sessions sample_busy !! "c2"%string = Some s ∧ p_pid (s_leader s) = 101.
Proof. apply (reachable_leaders sample_config); [done|done|vm_compute; reflexivity]. Qed.

(** C4: only the foreground session of a seat has working devices: when a
    session has an active device, it is the active session of its seat; so a
    session in the background cannot read a keyboard or drive a display. *)
Theorem active_devices_are_foreground c m sid s dev sd :
  sane c → reachable c m → m_sessions m !! sid = Some s → s_devices s !! dev = Some sd →
  sd_active sd = true →
  ∃ k t, s_seat s = Some k ∧ m_seats m !! k = Some t ∧ se_active t = Some sid ∧
         sd_device sd ∈ se_devices t.
Proof.
  intros Hc Hm Hs Hd Ha. pose proof (reachable_wf c m Hc Hm) as Hwf.
  assert (Hds : g_sds (cols_of m) !! sid = Some (sds_of s)) by by apply col_in.
  assert (Hn : sds_of s !! dev = Some (sdnode_of sd)) by by apply col_in.
  destruct (wf_excl _ _ Hwf _ _ _ _ Hds Hn Ha) as [?|(k&Hk&Hact)]; [done|].
  destruct (wf_sds _ _ Hwf _ _ _ _ Hds Hn) as (_&_&k'&us&Hk'&Hds'&_).
  destruct (wf_dseat _ _ Hwf _ _ Hds') as (l&Hl&Hin).
  col_out Hk. col_out Hk'. col_out Hact. col_out Hl. col_done.
Qed.
Lemma active_devices_are_foreground_witness :
  let m := run (sample_events ++ [SessionMethod "c2" (TakeControl false) root_message;
                                  SessionMethod "c2" (TakeDevice 226 0) root_message]) sample_started in
  ∃ s sd, m_sessions m !! "c2"%string = Some s ∧ s_devices s !! makedev 226 0 = Some sd ∧
  ∃ k t, s_seat s = Some k ∧ m_seats m !! k = Some t ∧ se_active t = Some "c2"%string ∧
         sd_device sd ∈ se_devices t.
Proof.
  intros m. eexists _, _. split; [vm_compute; reflexivity|]. split; [vm_compute; reflexivity|].
  eapply (active_devices_are_foreground sample_config _ "c2" _ (makedev 226 0)); [done|apply sample_reachable; events_ok| | |].
  - vm_compute. reflexivity.
  - vm_compute. reflexivity.
  - reflexivity.
Defined.

(** * The power actions *)

(** An action that can be carried out: a power-off or a reboot of one kind or
    another, or a sleep of one kind. *)
Definition carried_out (h : HandleAction) : Prop :=
  hd_inhibit_what (handle_action_lookup h) ∈ [INHIBIT_SHUTDOWN; INHIBIT_SLEEP] ∧
  is_Some (to_string (hd_handle (handle_action_lookup h))).
Record power_agrees (m : manager) : Prop := {
  job_was_asked_for : is_Some (a_action_job (m_act m)) → is_Some (a_delayed_action (m_act m));
  job_has_a_child : is_Some (a_action_job (m_act m)) ↔ is_Some (a_sleep_fork_action (m_act m));
  asked_for : ∀ h, a_delayed_action (m_act m) = Some h ∨ a_sleep_fork_action (m_act m) = Some h → carried_out h;
  timer_has_a_plan : is_Some (a_scheduled_shutdown_timeout_source (m_act m)) →
    ∃ h, a_scheduled_shutdown_action (m_act m) = Some h ∧ carried_out h;
  settings_sane : sane (m_conf m);
  lid_is_closed : ∀ name b, m_buttons m !! name = Some b → b_check_event_source b = true → b_lid_closed b = true;
  button_is_there : ∀ k t name, key_timer k (m_act m) = Some (t, name) → is_Some (m_buttons m !! name);
}.
Lemma executable_carried_out h : executable h = true → carried_out h.
Proof. by destruct h; intros H; try done; (split; [set_unfold; vm_compute; tauto|by eexists]). Qed.
Lemma is_Some_true {A} (o : option A) : is_Some o ↔ is_some o = true.
Proof. destruct o; cbn; split; intros H; try done; by destruct H. Qed.

(** C3: between two events the power actions hang together: what a child
    process is working on was asked for and is there exactly while a job is
    noted, what is asked for or scheduled can be carried out, the settings are
    in their range, the lid is only polled while it is closed, and the button of a
    long press that is being timed is there. *)
Theorem reachable_power_agrees c m : sane c → reachable c m → power_agrees m.
Proof.
  intros Hc Hm. pose proof (reachable_wf c m Hc Hm) as Hwf.
  destruct (wf_pow _ _ Hwf) as [Hj Hf Hfk Hd Ht]. cbn in *. constructor.
  - by intros [? E]; apply Hj; rewrite E.
  - by rewrite !is_Some_true, Hf.
  - intros h [H|H]; apply executable_carried_out; auto.
  - intros Hs%is_Some_true. destruct (Ht Hs) as (h&Eh&Hh). exists h. eauto using executable_carried_out.
  - split; [apply (wf_limit _ _ Hwf)|apply (wf_conf _ _ Hwf)].
  - intros name b Hb. apply (wf_btn _ _ Hwf name (bnode_of b)). by apply col_in.
  - intros k t name Hk. apply timed_elem in Hk. destruct (wf_keys _ _ Hwf name Hk) as [[b Hb] _]. col_out Hb. by eexists.
Qed.
(** Root puts the machine to sleep: the child has been forked. *)
Definition sample_asleep : manager :=
  run [PowerMethod (ShutdownOrSleep HANDLE_SUSPEND (inl false)) root_message] sample_busy.
Lemma sample_asleep_reachable : reachable sample_config sample_asleep.
Proof. apply run_reachable; [apply sample_busy_reachable|events_ok]. Qed.
Lemma reachable_power_agrees_witness :
  a_sleep_fork_action (m_act sample_asleep) = Some HANDLE_SUSPEND ∧ power_agrees sample_asleep.
Proof. split; [vm_compute; reflexivity|]. by apply (reachable_power_agrees sample_config), sample_asleep_reachable. Defined.

(** * A freed session is forgotten *)

(** Nothing of the manager points to [sid]. *)
Record forgotten (m : manager) (sid : string) : Prop := {
  not_of_user : ∀ uid u, m_users m !! uid = Some u → sid ∉ u_sessions u ∧ u_display u ≠ Some sid;
  not_on_seat : ∀ k t, m_seats m !! k = Some t →
    sid ∉ se_sessions t ∧ se_active t ≠ Some sid ∧ se_pending_switch t ≠ Some sid ∧
    ∀ p : nat, se_positions t !! p ≠ Some (Some sid);
  not_on_device : ∀ d v dev, m_devices m !! d = Some v → (sid, dev) ∉ d_session_devices v;
  not_a_leader : ∀ pid, m_sessions_by_leader m !! pid ≠ Some sid;
  not_watched : ∀ wd, m_cgroup_control_inotify_wd_session m !! wd ≠ Some sid;
  not_queued : sid ∉ m_session_gc_queue m;
}.

Lemma wf_forgotten m sid : wf m → m_sessions m !! sid = None → forgotten m sid.
Proof.
  intros Hwf Hs. pose proof (wf_links_agree m Hwf) as Hl.
  assert (Hcol : ∀ {A} (f : session → A) a, (f <$> m_sessions m) !! sid ≠ Some a).
  { intros A f a. by rewrite lookup_fmap, Hs. }
  constructor.
  - intros uid u Hu. assert (Hn : sid ∉ u_sessions u).
    { intros Hin. destruct (user_has_sessions _ Hl _ _ _ Hu Hin) as (?&?&_). congruence. }
    split; [done|]. intros Hd. by apply Hn, (user_display _ Hl _ _ _ Hu).
  - intros k t Ht. assert (Hn : sid ∉ se_sessions t).
    { intros Hin. destruct (seat_has_sessions _ Hl _ _ _ Ht Hin) as (?&?&_). congruence. }
    split_and!; [done|intros Ha; apply Hn; eapply (seat_active _ Hl _ _ _ Ht); tauto..|].
    intros p Hp. destruct (wf_positions _ _ Hwf _ _ _ _ (col_in se_positions _ _ _ Ht) Hp) as (_&Hx&_).
    by apply Hcol in Hx.
  - intros d v dev Hv Hin.
    destruct (proj2 (wf_dusers _ _ Hwf _ _ (col_in d_session_devices _ _ _ Hv)) _ _ Hin) as (ds&n&Hx&_).
    by apply Hcol in Hx.
  - intros pid Hp. apply (wf_bypid _ _ Hwf) in Hp as [Hx _]. by apply Hcol in Hx.
  - intros wd Hw. apply (wf_wd _ _ Hwf) in Hw as [Hx _]. by apply Hcol in Hx.
  - intros Hin. apply (proj2 (wf_sq _ _ Hwf)) in Hin. by apply Hcol in Hin.
Qed.

(** C8: session_free() of any session of any reachable state ends, frees this
    session and no other, and leaves no pointer to it: not in the lists of its
    user and its seat, not as the active, pending or display session, not in the
    table of positions, in the devices, in the indices or in the queue. *)
Theorem session_free_leaves_no_reference c m (E : Env) sid s :
  sane c → reachable c m → EnvOk → m_sessions m !! sid = Some s →
  ∃ m', session_free sid m = Some (tt, m') ∧ forgotten m' sid ∧ links_agree m' ∧
        dom (m_sessions m') = dom (m_sessions m) ∖ {[sid]}.
Proof.
  intros Hc Hm Ok Hs. pose proof (reachable_wf c m Hc Hm) as Hwf.
  assert (Hh : has_s (cols_of m) sid) by (eexists; by apply col_in).
  destruct (wp_run _ _ _ (hoare_session_free (cols_of m) sid Hwf (coh_cols m) Hh m eq_refl))
    as ([]&m'&H&Hwf'&Hfr&_).
  assert (Hd : dom (m_sessions m') = dom (m_sessions m) ∖ {[sid]}).
  { apply (f_equal dom) in Hfr. cbn in Hfr. by rewrite dom_delete_L, !dom_fmap_L in Hfr. }
  exists m'. split_and!; [done| |by apply wf_links_agree|done].
  apply wf_forgotten; [done|]. apply not_elem_of_dom. set_solver.
Qed.
Lemma session_free_leaves_no_reference_witness :
  ∃ m', @session_free sample_env "c2" sample_busy = Some (tt, m') ∧ forgotten m' "c2" ∧ links_agree m' ∧
        dom (m_sessions m') = dom (m_sessions sample_busy) ∖ {["c2"%string]}.
Proof.
  eapply (session_free_leaves_no_reference sample_config);
    [done|done|apply sample_env_ok|vm_compute; reflexivity].
Defined.
