(* ===== verification/Access.v ===== *)
(** Who may do what over D-Bus: a caller who is neither root nor the owner of a
    session, who controls none and to whom polkit says no, changes nothing. *)
From S2P Require Import Prelude Time LoginTypes ActionTypes LoginState LoginEnv Bus Objects SessionDevice Seat Device User Session Lifecycle SessionBus ManagerBus Inhibit WordsFacts Wall Power Schedule Events Moves Cols Links LinksRun LinksBoot Sample Safety.

(** [quiet m c Q]: if [c] ends from [m] it has changed nothing, and its result
    satisfies [Q]. *)
Definition quiet {A} (m : manager) (c : MM A) (Q : A → Prop) : Prop :=
  ∀ a m', c m = Some (a, m') → m' = m ∧ Q a.

Section Quiet.
  Context (m : manager).

Lemma quiet_ret {A} (a : A) (Q : A → Prop) : Q a → quiet m (ret a) Q.
  Proof. by intros H b m' [= <- <-]. Qed.
Lemma quiet_gets {A} (f : manager → A) (Q : A → Prop) : Q (f m) → quiet m (gets f) Q.
  Proof. by intros H b m' [= <- <-]. Qed.
Lemma quiet_bind {A B} (c : MM A) (k : A → MM B) Q R :
    quiet m c Q → (∀ a, Q a → quiet m (k a) R) → quiet m (bind c k) R.
  Proof.
    intros Hc Hk b m' (a&m1&H1&H2)%bind_Some. destruct (Hc _ _ H1) as [-> HQ]. by eapply Hk.
  Qed.
Lemma quiet_mono {A} (c : MM A) (Q R : A → Prop) :
    quiet m c Q → (∀ a, Q a → R a) → quiet m c R.
  Proof. intros Hc H a m' Ha. destruct (Hc _ _ Ha). auto. Qed.
Lemma quiet_deref {A} (o : option A) (Q : A → Prop) : (∀ a, o = Some a → Q a) → quiet m (deref o) Q.
  Proof. destruct o; intros H; [apply quiet_ret; auto | by intros ? ? [=]]. Qed.
Lemma quiet_get_session sid : quiet m (get_session sid) (λ s, m_sessions m !! sid = Some s).
  Proof. eapply quiet_bind; [by apply (quiet_gets _ (λ o, o = m_sessions m !! sid))|]. intros o ->. by apply quiet_deref. Qed.
Lemma quiet_get_seat k : quiet m (get_seat k) (λ s, m_seats m !! k = Some s).
  Proof. eapply quiet_bind; [by apply (quiet_gets _ (λ o, o = m_seats m !! k))|]. intros o ->. by apply quiet_deref. Qed.
Lemma quiet_get_user uid : quiet m (get_user uid) (λ u, m_users m !! uid = Some u).
  Proof. eapply quiet_bind; [by apply (quiet_gets _ (λ o, o = m_users m !! uid))|]. intros o ->. by apply quiet_deref. Qed.
(** What never changes the state is quiet. *)
Lemma quiet_moves {A} (c : MM A) : moves eq c → quiet m c (λ _, True).
  Proof. intros H a m' Ha. split; [|done]. symmetry. by eapply H. Qed.
End Quiet.

(** Steps through a computation that only reads, when nothing is to be known of
    what it has read. *)
Ltac quiet_step :=
  match goal with
  | |- quiet _ (ret _) _ => apply quiet_ret; try done
  | |- quiet _ (gets _) _ => by apply quiet_gets
  | |- quiet _ (deref _) _ => by apply quiet_deref
  | |- quiet _ (get_session _) _ => by eapply quiet_mono; [apply quiet_get_session|]
  | |- quiet _ (get_seat _) _ => by eapply quiet_mono; [apply quiet_get_seat|]
  | |- quiet _ (get_user _) _ => by eapply quiet_mono; [apply quiet_get_user|]
  | |- quiet _ (bind _ _) _ => eapply (quiet_bind _ _ _ (λ _, True)); [|intros ? _]
  | |- quiet _ (try _ _) _ => eapply (quiet_bind _ _ _ (λ _, True)); [|intros ? _]
  | |- quiet _ (try_out _ _) _ => eapply (quiet_bind _ _ _ (λ _, True)); [|intros ? _]
  | |- quiet _ (if ?b then _ else _) _ => destruct b eqn:?
  | |- quiet _ (match ?x with _ => _ end) _ => destruct x eqn:?
  | |- quiet _ (attempt ?x _) _ => unfold attempt
  end.
Ltac solve_quiet := cbv zeta; repeat quiet_step.

Section Access.
Context {E : Env}.

(** The caller of [msg] is nobody to this manager. *)
Record stranger (m : manager) (msg : message) (uid : Z) : Prop := {
  st_uid : msg_euid msg = inr uid;
  st_root : uid ≠ 0;
  st_polkit : ∀ action, msg_polkit msg action ≤ 0;
  st_controller : ∀ sid s, m_sessions m !! sid = Some s → s_controller s ≠ Some (msg_sender msg);
  st_owner : ∀ sid s o u, m_sessions m !! sid = Some s → s_user s = Some o →
    m_users m !! o = Some u → ur_uid (u_user_record u) ≠ uid;
}.

Context (m : manager) (msg : message) (uid : Z) (Hst : stranger m msg uid).
Abbreviation quiet_T c := (quiet m c (λ _, True)).

Lemma quiet_polkit action k : quiet_T (polkit msg action k).
Proof.
  unfold polkit. cbv zeta. pose proof (st_polkit _ _ _ Hst action) as Hp.
  destruct (_ <? 0) eqn:E1; [by apply quiet_ret|]. destruct (_ =? 0) eqn:E2; [by apply quiet_ret|]. lia.
Qed.
Lemma quiet_session_uid sid : quiet m (session_uid sid) (λ o, o ≠ uid).
Proof.
  unfold session_uid. eapply quiet_bind; [apply quiet_get_session|]. intros s Hs.
  eapply quiet_bind; [by apply (quiet_deref _ _ (λ o, s_user s = Some o))|]. intros o Ho.
  eapply quiet_bind; [apply quiet_get_user|]. intros u Hu. apply quiet_ret.
  by apply (st_owner _ _ _ Hst sid s o u).
Qed.
Lemma quiet_not_owner sid : quiet m (not_owner sid uid) (λ b, b = true).
Proof.
  unfold not_owner. rewrite (proj2 (Z.eqb_neq _ _) (st_root _ _ _ Hst)).
  eapply quiet_bind; [apply quiet_session_uid|]. intros o Ho. apply quiet_ret.
  by rewrite (proj2 (Z.eqb_neq _ _) (not_eq_sym Ho)).
Qed.
Lemma quiet_controller_only sid k : quiet_T (controller_only sid msg k).
Proof.
  unfold controller_only, session_is_controller.
  eapply (quiet_bind _ _ _ (λ b, b = false)); [|intros ? ->; by apply quiet_ret].
  eapply quiet_bind; [apply quiet_get_session|]. intros s Hs. apply quiet_ret.
  apply bool_decide_false. by apply (st_controller _ _ _ Hst sid).
Qed.

Lemma quiet_handle_session sid c : quiet_T (handle_session sid c msg).
Proof.
  pose proof (st_uid _ _ _ Hst) as Hu. destruct c; cbn [handle_session].
  - eapply quiet_bind; [apply quiet_session_uid|]. intros ? _. apply quiet_polkit.
  - apply quiet_polkit.
  - eapply quiet_bind; [apply quiet_session_uid|]. intros ? _. apply quiet_polkit.
  - unfold method_set_idle_hint. rewrite Hu. cbn [attempt].
    eapply quiet_bind; [apply quiet_not_owner|]. intros ? ->. by apply quiet_ret.
  - unfold method_set_locked_hint. rewrite Hu. cbn [attempt].
    eapply quiet_bind; [apply quiet_not_owner|]. intros ? ->. by apply quiet_ret.
  - unfold bus_session_method_kill; cbv zeta. match goal with |- context [if isempty whom then ?a else ?b] => destruct (if isempty whom then a else b) end; [|by apply quiet_ret].
    destruct (negb _); [by apply quiet_ret|].
    eapply quiet_bind; [apply quiet_session_uid|]. intros ? _. apply quiet_polkit.
  - unfold method_take_control. rewrite Hu. cbn [attempt].
    rewrite (proj2 (Z.eqb_neq _ _) (st_root _ _ _ Hst)).
    eapply (quiet_bind _ _ _ (λ b : bool, b = true)); [|intros ? ->; by apply quiet_ret].
    destruct force; [by apply quiet_ret|apply quiet_not_owner].
  - apply quiet_controller_only.
  - unfold method_set_type. destruct (from_string _); [|by apply quiet_ret].
    eapply quiet_bind; [apply quiet_get_session|]. intros s0 _.
    destruct (negb _); [by apply quiet_ret|apply quiet_controller_only].
  - unfold method_set_class. destruct (from_string _) as [cl|]; [|by apply quiet_ret].
    destruct (negb _); [by apply quiet_ret|].
    eapply quiet_bind; [apply quiet_get_session|]. intros s _.
    destruct (bool_decide _); [by apply quiet_ret|]. destruct (negb _); [by apply quiet_ret|].
    rewrite Hu. cbn [attempt]. destruct (s_upgrade_message s); [by apply quiet_ret|].
    eapply quiet_bind; [apply quiet_not_owner|]. intros ? ->. by apply quiet_ret.
  - apply quiet_controller_only.
  - apply quiet_controller_only.
  - unfold method_take_device. destruct (negb _); [by apply quiet_ret|].
    eapply quiet_bind; [apply quiet_get_session|]. intros s _.
    destruct (negb _); [by apply quiet_ret|apply quiet_controller_only].
  - unfold method_release_device, with_taken_device. destruct (negb _); [by apply quiet_ret|].
    apply quiet_controller_only.
  - unfold method_pause_device_complete, with_taken_device. destruct (negb _); [by apply quiet_ret|].
    apply quiet_controller_only.
Qed.

Lemma quiet_handle_seat k c : quiet_T (handle_seat k c msg).
Proof.
  destruct c; cbn [handle_seat]; try apply quiet_polkit.
  - unfold seat_method_activate_session. solve_quiet; apply quiet_polkit.
  - unfold method_switch_to. solve_quiet; apply quiet_polkit.
Qed.
Lemma quiet_handle_user u c : quiet_T (handle_user u c msg).
Proof.
  destruct c; cbn [handle_user]; unfold bus_user_method_terminate, bus_user_method_kill.
  - eapply quiet_bind; [apply quiet_get_user|]. intros ? _. apply quiet_polkit.
  - solve_quiet; apply quiet_polkit.
Qed.

(** Finding the objects reads only. *)
Lemma quiet_session_from_creds name : quiet_T (manager_get_session_from_creds msg name).
Proof. unfold manager_get_session_from_creds, get_sender_session. solve_quiet. Qed.
Lemma quiet_user_from_creds u : quiet_T (manager_get_user_from_creds msg u).
Proof. unfold manager_get_user_from_creds, get_sender_user. solve_quiet. Qed.
Lemma quiet_seat_from_creds name : quiet_T (manager_get_seat_from_creds msg name).
Proof. unfold manager_get_seat_from_creds. solve_quiet; apply quiet_session_from_creds. Qed.
Lemma quiet_try {A} (c : MM (outcome + A)) k :
  quiet_T c → (∀ a, quiet_T (k a)) → quiet_T (try c k).
Proof.
  intros Hc Hk. eapply quiet_bind; [exact Hc|]. intros [o|a] _; [by apply quiet_ret|apply Hk].
Qed.
Hint Resolve quiet_session_from_creds quiet_user_from_creds quiet_seat_from_creds : core.

(** A caller in no session cannot release one. *)
Lemma quiet_release_session name :
  (∀ sid, msg_session msg = inr sid → m_sessions m !! sid = None) → quiet_T (method_release_session name msg).
Proof.
  intros Hno. unfold method_release_session. apply quiet_try; [done|]. intros sid.
  eapply (quiet_bind _ _ _ (λ r, ∃ o, r = inl o)); [|by intros ? [o ->]; apply quiet_ret].
  unfold get_sender_session. destruct (msg_session msg) as [r|s] eqn:Es.
  - destruct (negb (r =? - ENXIO)); apply quiet_ret; by eexists.
  - eapply quiet_bind; [by apply (quiet_gets _ _ (λ o, o = m_sessions m !! s))|]. intros o ->.
    rewrite (Hno s eq_refl). apply quiet_ret. by eexists.
Qed.

Lemma quiet_handle_manager c :
  (∀ a, c ≠ CreateSession a) →
  (∀ n, c = ReleaseSession n → ∀ sid, msg_session msg = inr sid → m_sessions m !! sid = None) →
  quiet_T (handle_manager c msg).
Proof.
  intros Hc Hr. destruct c; cbn [handle_manager]; try (by destruct (Hc a));
    try (by apply quiet_release_session, (Hr name)); try (apply quiet_polkit);
    try (apply quiet_try; [done|]; intros x;
         first [apply (quiet_handle_session x Activate)|apply (quiet_handle_session x Lock)
               |apply (quiet_handle_session x (Kill whom signo))|apply (quiet_handle_session x Terminate)
               |apply (quiet_handle_user x (UserKill signo))|apply (quiet_handle_user x UserTerminate)
               |apply (quiet_handle_seat x SeatTerminate)]).
  - unfold method_activate_session_on_seat. repeat (apply quiet_try; [done|]; intros ?).
    eapply quiet_bind; [apply quiet_get_session|]. intros s _.
    destruct (negb _); [by apply quiet_ret|apply quiet_polkit].
  - unfold method_set_user_linger, attempt.
    repeat (case_match; try (by apply quiet_ret)); apply quiet_polkit.
Qed.

(** The state of the power actions is read by anyone. *)
Lemma quiet_is_inhibited w b i o u : quiet_T (manager_is_inhibited w b i o u).
Proof.
  apply quiet_moves. unfold manager_is_inhibited, all_inhibitors, inhibited_step, pidref_is_active_session,
    manager_get_session_by_pidref, session_is_active, get_session, get_seat. solve_moves.
Qed.
Lemma quiet_have_multiple_sessions u : quiet_T (have_multiple_sessions u).
Proof.
  apply quiet_moves. unfold have_multiple_sessions, get_session, get_user. apply moves_bind; [exact _|solve_moves|].
  intros l. induction l as [|sid l IH]; cbn [other_user]; unfold get_session, get_user; solve_moves.
Qed.
Lemma quiet_sleep_select : quiet_T handle_action_sleep_select.
Proof.
  apply quiet_moves. unfold handle_action_sleep_select. apply moves_bind; [exact _|solve_moves|].
  intros mask. generalize sleep_actions. intros l. induction l as [|h l IH]; cbn; unfold sleep_supported; solve_moves.
Qed.
Lemma quiet_row_check o k : quiet_T (polkit_row_check msg o k).
Proof. eapply quiet_bind; [by apply (quiet_deref _ _ (λ _, True))|]. intros ? _. apply quiet_polkit. Qed.
Lemma quiet_verify h flags k : quiet_T (verify_shutdown_creds msg h flags k).
Proof.
  unfold verify_shutdown_creds. cbv zeta. rewrite (st_uid _ _ _ Hst). cbn [attempt].
  eapply quiet_bind; [apply quiet_have_multiple_sessions|]. intros multiple _.
  eapply quiet_bind; [apply quiet_is_inhibited|]. intros x _.
  destruct multiple; [apply quiet_row_check|]. destruct (x.1.1); [|apply quiet_row_check].
  eapply quiet_bind; [by apply (quiet_deref _ _ (λ _, True))|]. intros i _.
  destruct (_ && _); [by apply quiet_ret|apply quiet_row_check].
Qed.
Lemma quiet_choose_action h flags : quiet_T (choose_action h flags).
Proof. unfold choose_action. solve_quiet; try apply quiet_sleep_select. unfold sleep_supported. solve_quiet. Qed.
Lemma quiet_can_answer h test : quiet_T (can_answer h test msg).
Proof.
  unfold can_answer. cbv zeta. rewrite (st_uid _ _ _ Hst). cbn [attempt].
  eapply quiet_bind; [apply quiet_have_multiple_sessions|]. intros multiple _.
  eapply quiet_bind; [apply quiet_is_inhibited|]. intros x _. unfold and_then, can_result. solve_quiet.
Qed.
(** A word is at least one bit, and each bit is asked for. *)
Lemma bits_of_some w : 0 < w < 256 → bits_of w ≠ [].
Proof.
  intros Hw. assert (H : Forall (λ w, bits_of w ≠ []) (seqZ 1 255)) by (apply (bool_decide_unpack _); vm_compute; exact I).
  rewrite Forall_forall in H. apply H, elem_of_seqZ. lia.
Qed.
Lemma quiet_handle_power c : quiet_T (handle_power c msg).
Proof.
  destruct c; cbn [handle_power].
  - unfold method_do_shutdown_or_sleep. eapply quiet_bind; [apply quiet_moves; solve_moves|]. intros _ _.
    eapply quiet_bind; [by apply (quiet_ret _ _ (λ _, True))|]. intros [?|?] _; [by apply quiet_ret|].
    eapply quiet_bind; [apply quiet_choose_action|]. intros [?|?] _; [by apply quiet_ret|apply quiet_verify].
  - unfold method_can_shutdown_or_sleep. eapply quiet_bind; [apply quiet_moves; solve_moves|]. intros _ _.
    solve_quiet; try apply quiet_sleep_select; apply quiet_can_answer.
  - unfold method_schedule_shutdown. destruct (shutdown_type type). solve_quiet. apply quiet_verify.
  - unfold method_cancel_scheduled_shutdown. solve_quiet; apply quiet_polkit.
  - unfold method_set_wall_message. solve_quiet; apply quiet_polkit.
  - unfold method_inhibit. cbv zeta. destruct (Z.leb_spec (inhibit_what_from_string what) 0) as [|Hw]; [by apply quiet_ret|].
    pose proof (inhibit_what_from_string_range what) as Hr. pose proof (bits_of_some _ (conj Hw Hr)) as Hb.
    destruct (from_string _) as [mm|]; [|by apply quiet_ret]. destruct (_ && _); [by apply quiet_ret|].
    eapply quiet_bind; [by apply (quiet_gets _ _ (λ _, True))|]. intros d _. case_match; [by apply quiet_ret|].
    destruct (bits_of _) as [|v bits]; [done|apply quiet_polkit].
Qed.
End Access.

(** The calls over D-Bus of the modelled methods, all but CreateSession, which
    the bus reserves to root. ReleaseSession releases the session that the calling
    process is in, whoever owns it; it counts only for a caller that is in none. *)
Definition dbus_call (ev : event) (m : manager) (msg : message) : Prop :=
  match ev with
  | SessionMethod _ _ msg' | SeatMethod _ _ msg' | UserMethod _ _ msg' => msg' = msg
  | ManagerMethod (CreateSession _) _ => False
  | ManagerMethod (ReleaseSession _) msg' =>
      msg' = msg ∧ ∀ sid, msg_session msg = inr sid → m_sessions m !! sid = None
  | ManagerMethod _ msg' | PowerMethod _ msg' => msg' = msg
  | _ => False
  end.

(** C6: a stranger cannot do anything: when the caller is not root, owns no
    session and controls none, and polkit grants it no action, the methods of the
    session, seat, user and manager objects that [dbus_call] admits end and leave
    the daemon as it was; not a field, not a signal, not a file. These are all
    modelled methods, those that shut down, sleep, schedule and inhibit included,
    except CreateSession, and except ReleaseSession by a process that is inside a
    session of another user. *)
Theorem strangers_change_nothing c m (E : Env) ev msg uid :
  sane c → reachable c m → EnvOk → event_ok ev m → dbus_call ev m msg → stranger m msg uid →
  ∃ o, handle ev m = Some (o, m).
Proof.
  intros Hc Hm Ok Hev Hcall Hst. pose proof (reachable_wf c m Hc Hm) as Hwf.
  assert (Hen : enabled ev m = true) by by destruct ev.
  destruct (wp_run _ _ _ (wp_handle ev m Hwf Hev Hen)) as (o&m'&H&_).
  exists o. rewrite H. do 2 f_equal.
  assert (Hq : quiet m (handle ev) (λ _, True)); [|by apply (Hq _ _ H)].
  destruct ev; cbn [dbus_call] in Hcall; try done; assert (msg0 = msg) as -> by (first [done|destruct c0; first [done|apply Hcall]]); cbn [handle].
  - apply quiet_try; [by apply quiet_session_from_creds|]. intros. by eapply quiet_handle_session.
  - apply quiet_try; [by apply quiet_seat_from_creds|]. intros. by eapply quiet_handle_seat.
  - apply quiet_try; [by apply quiet_user_from_creds|]. intros. by eapply quiet_handle_user.
  - eapply quiet_handle_manager; [exact Hst|intros a ->; done|intros n -> sid; apply Hcall].
  - by eapply quiet_handle_power.
Qed.
Definition intruder : message := sample_message 1002 (- EACCES) ":1.9".
Lemma intruder_is_stranger : stranger sample_busy intruder 1002.
Proof.
  assert (Hc : map_Forall (λ _ s, s_controller s ≠ Some ":1.9"%string) (m_sessions sample_busy))
    by (apply (bool_decide_eq_true_1 _); vm_compute; reflexivity).
  assert (Ho : map_Forall (λ (_ : Z) u, ur_uid (u_user_record u) ≠ 1002) (m_users sample_busy))
    by (apply (bool_decide_eq_true_1 _); vm_compute; reflexivity).
  constructor; [reflexivity|discriminate|intros a; by cbn|intros sid s Hs; exact (Hc sid s Hs)|].
  intros sid s o u _ _ Hu. exact (Ho o u Hu).
Qed.
Lemma strangers_change_nothing_witness :
  ∃ o, @handle sample_env (SessionMethod "c2" Terminate intruder) sample_busy = Some (o, sample_busy).
Proof.
  apply (strangers_change_nothing sample_config _ _ _ intruder 1002);
    [done|done|apply sample_env_ok|done|done|apply intruder_is_stranger].
Defined.
