(* ===== verification/DeviceControl.v ===== *)
(** Taking and releasing devices over D-Bus: what each answer means for the
    table of the session's devices. *)
From S2P Require Import Prelude Time LoginTypes ActionTypes LoginState LoginEnv Bus Objects SessionDevice Seat Device User Session Lifecycle SessionBus ManagerBus Events Moves Cols Links LinksTake LinksBus LinksRun LinksBoot Sample Safety.

(** The caller of [msg] may take a device of session [sid]. *)
Record may_take (m : manager) (sid : string) (s : session) (msg : message) (major minor : Z) : Prop := {
  mt_session : m_sessions m !! sid = Some s;
  mt_controller : s_controller s = Some (msg_sender msg);
  mt_class : SESSION_CLASS_CAN_TAKE_DEVICE (s_class s) = true;
  mt_numbers : DEVICE_MAJOR_VALID major && DEVICE_MINOR_VALID minor = true;
}.

Section DeviceControl.
Context {E : Env} {Ok : EnvOk}.

Lemma wp_controller_only (m : manager) sid s msg k Q :
  m_sessions m !! sid = Some s → s_controller s = Some (msg_sender msg) →
  wp k Q m → wp (controller_only sid msg k) Q m.
Proof.
  intros Hs Hc Hk. unfold controller_only, session_is_controller.
  apply wp_bind, wp_bind. eapply wp_get_session; [done|]. apply wp_ret.
  by rewrite bool_decide_true.
Qed.

(** The branch of TakeDevice for a device that is not taken. *)
Lemma wp_take_new m sid s msg major minor :
  wf m → may_take m sid s msg major minor → ¬ taken m sid (makedev major minor) →
  wp (method_take_device sid major minor msg) (λ o m', wf m' ∧
    answers_taken o (taken m' sid (makedev major minor))) m.
Proof.
  intros Hwf [Hs Hc Hcl Hn] Ht. unfold method_take_device. rewrite Hn. cbn [negb].
  apply wp_bind. eapply wp_get_session; [done|]. rewrite Hcl. cbn [negb].
  eapply wp_controller_only; [done..|]. cbv zeta. set (dev := makedev major minor) in *.
  destruct (is_some _) eqn:Et.
  { exfalso. apply Ht. exists s. split; [done|]. by destruct (s_devices s !! dev). }
  assert (Hh : has_s (cols_of m) sid) by (eexists; by apply col_in).
  apply wp_bind. eapply wp_mono.
  { apply (hoare_session_device_new (cols_of m) sid dev true); [done|done|done| |done].
    by rewrite <-taken_cols. }
  intros r m1 (Hwf1&_&Hr&_). destruct (r <? 0) eqn:Er.
  { apply wp_ret. split; [done|]. cbn. rewrite taken_cols, <-Hr. lia. }
  apply Z.ltb_ge in Er. apply Hr in Er.
  eapply wp_mono; [apply (hoare_take_tail _ sid dev msg Hwf1 (coh_cols m1) Er m1 eq_refl)|].
  intros o m' [? Ho]. split; [done|]. destruct o; try done; cbn in *; by rewrite taken_cols.
Qed.

(** Freeing a device that is taken, in a method that then answers [o]. *)
Lemma wp_free_taken {A} m sid s dev (o : A) :
  wf m → m_sessions m !! sid = Some s → is_Some (s_devices s !! dev) →
  wp (session_device_free sid dev ;;; ret o) (λ r m', r = o ∧ wf m' ∧ ¬ taken m' sid dev) m.
Proof.
  intros Hwf Hs Ht. apply wp_bind.
  assert (Hg : g_taken (cols_of m) sid dev) by (rewrite <-taken_cols; by exists s).
  eapply wp_mono; [apply (safe_session_device_free (cols_of m) Hwf (coh_cols m) sid dev Hg m eq_refl)|].
  intros _ m' (?&_&Hn). apply wp_ret. by rewrite taken_cols.
Qed.
End DeviceControl.

(** C7: TakeDevice for a device the session does not have yet is all or
    nothing: the method ends, and it either answers with the descriptor and the
    device is in the session's table, or it answers with an errno and it is
    not, whatever failed on the way: no such device, a device of another seat,
    the node not opened, the descriptor not stored, the reply not sent. *)
Theorem take_device_all_or_nothing c m (E : Env) sid s msg major minor :
  sane c → reachable c m → EnvOk → may_take m sid s msg major minor →
  ¬ taken m sid (makedev major minor) →
  ∃ o m', method_take_device sid major minor msg m = Some (o, m') ∧
    answers_taken o (taken m' sid (makedev major minor)).
Proof.
  intros Hc Hm Ok Hmay Ht. pose proof (reachable_wf c m Hc Hm) as Hwf.
  destruct (wp_run _ _ _ (wp_take_new m sid s msg major minor Hwf Hmay Ht)) as (o&m'&H&_&?). eauto.
Qed.

Lemma take_device_all_or_nothing_witness :
  ∃ s, may_take sample_controlled "c2" s root_message 226 0 ∧
  ∃ o m', @method_take_device sample_env "c2" 226 0 root_message sample_controlled = Some (o, m') ∧
    answers_taken o (taken m' "c2" (makedev 226 0)).
Proof.
  assert (Hmay : ∃ s, may_take sample_controlled "c2" s root_message 226 0 ∧ s_devices s = ∅).
  { eexists. split; [split; [vm_compute; reflexivity|reflexivity..]|reflexivity]. }
  destruct Hmay as (s&Hmay&Hd). exists s. split; [exact Hmay|].
  apply (take_device_all_or_nothing sample_config _ _ _ s);
    [apply sample_sane|apply sample_controlled_reachable|apply sample_env_ok|exact Hmay|].
  intros (s'&Hs'&Ht). rewrite (mt_session _ _ _ _ _ _ Hmay) in Hs'. injection Hs' as <-.
  rewrite Hd, lookup_empty in Ht. by destruct Ht.
Defined.

(** A second TakeDevice of the same device is answered DeviceIsTaken, as
    documented, but it also takes the device away: the caller's first
    descriptor is revoked and the device is out of the session's table, because
    the cleanup handler of the local variable frees the device that was found. *)
Theorem second_take_device_frees_the_first c m (E : Env) sid s msg major minor :
  sane c → reachable c m → EnvOk → may_take m sid s msg major minor →
  is_Some (s_devices s !! makedev major minor) →
  ∃ m', method_take_device sid major minor msg m = Some (BusError BUS_ERROR_DEVICE_IS_TAKEN, m') ∧
    ¬ taken m' sid (makedev major minor).
Proof.
  intros Hc Hm Ok [Hs Hctl Hcl Hn] Ht. pose proof (reachable_wf c m Hc Hm) as Hwf.
  assert (Hw : wp (method_take_device sid major minor msg)
    (λ o m', o = BusError BUS_ERROR_DEVICE_IS_TAKEN ∧ wf m' ∧ ¬ taken m' sid (makedev major minor)) m).
  { unfold method_take_device. rewrite Hn. cbn [negb].
    apply wp_bind. eapply wp_get_session; [done|]. rewrite Hcl. cbn [negb].
    eapply wp_controller_only; [done..|]. cbv zeta.
    destruct (s_devices s !! _) eqn:Ed; [|by destruct Ht]. by apply (wp_free_taken m sid s). }
  destruct (wp_run _ _ _ Hw) as (o&m'&H&->&_&?). eauto.
Qed.
Lemma second_take_device_frees_the_first_witness :
  ∃ m', @method_take_device sample_env "c2" 226 0 root_message sample_taken
    = Some (BusError BUS_ERROR_DEVICE_IS_TAKEN, m') ∧ ¬ taken m' "c2" (makedev 226 0).
Proof.
  eapply (second_take_device_frees_the_first sample_config);
    [apply sample_sane|apply sample_taken_reachable|apply sample_env_ok| |].
  - split; [vm_compute; reflexivity|reflexivity..].
  - eexists. reflexivity.
Defined.
