(* ===== verification/SwitchOrder.v ===== *)
(** The order of what a change of the active session does to the devices: the
    session that goes to the background has lost all of its devices before the
    one that comes to the foreground gets any. *)
From S2P Require Import Prelude Time LoginTypes ActionTypes LoginState LoginEnv Bus Objects SessionDevice Seat Device User Session SessionBus Events Cols Links LinksDevice LinksSeat LinksRun LinksBoot Partial Sample Safety.

(** An effect that gives a session access to a device, and one that takes it away. *)
Definition grants (ev : effect) : bool :=
  match ev with ResumeDevice _ _ _ _ | DrmSetMaster _ | Opened _ _ => true | _ => false end.
Definition withdraws (ev : effect) : bool :=
  match ev with PauseDevice _ _ _ _ | DrmDropMaster _ | Revoked _ _ => true | _ => false end.

(** The trace grows, by effects of one sort. *)
Definition emits (P : effect → bool) (m m' : manager) : Prop :=
  ∃ l, m_trace m' = m_trace m ++ l ∧ Forall (λ ev, P ev = true) l.
#[export] Instance emits_preorder P : PreOrder (emits P).
Proof.
  split.
  - intros m. exists []. by rewrite app_nil_r.
  - intros m1 m2 m3 (l1&H1&F1) (l2&H2&F2). exists (l1 ++ l2).
    rewrite H2, H1, app_assoc. split; [done|]. by apply Forall_app.
Qed.
(** What may follow once the old session has lost its devices: nothing is taken
    away, and only the devices of the new session are resumed. *)
Definition only_grants (session : option string) (ev : effect) : bool :=
  negb (withdraws ev) &&
  match ev with ResumeDevice sid _ _ _ => bool_decide (session = Some sid) | _ => true end.

Section Emits.
  Context (P : effect → bool).

Lemma emits_emit ev : P ev = true → moves (emits P) (emit ev).
  Proof. intros H. apply moves_modify. intros m. exists [ev]. split; [done|]. by constructor. Qed.
Lemma emits_modify f : (∀ m, m_trace (f m) = m_trace m) → moves (emits P) (modify f).
  Proof. intros H. apply moves_modify. intros m. exists []. by rewrite H, app_nil_r. Qed.
Lemma emits_get_session sid : moves (emits P) (get_session sid).
  Proof. unfold get_session. solve_moves. Qed.
Lemma emits_get_seat k : moves (emits P) (get_seat k).
  Proof. unfold get_seat. solve_moves. Qed.
Lemma emits_get_user uid : moves (emits P) (get_user uid).
  Proof. unfold get_user. solve_moves. Qed.
Lemma emits_get_device d : moves (emits P) (get_device d).
  Proof. unfold get_device. solve_moves. Qed.
End Emits.
#[export] Hint Resolve emits_get_session emits_get_seat emits_get_user emits_get_device : moves.
#[export] Hint Extern 2 (moves (emits _) (modify _)) => apply emits_modify; reflexivity : moves.
#[export] Hint Extern 2 (moves (emits _) (emit _)) => apply emits_emit; reflexivity : moves.

Section Order.
Context {E : Env}.
Context (P : effect → bool).
(** Neither signals of properties, nor state files, nor ACLs of the device
    nodes matter. *)
Hypothesis P_quiet : ∀ ev, grants ev = false → withdraws ev = false → P ev = true.
Local Hint Extern 3 (moves (emits P) (emit _)) => apply emits_emit, P_quiet; reflexivity : moves.

Lemma emits_upd_session sid f : moves (emits P) (upd_session sid f).
Proof. unfold upd_session. solve_moves. Qed.
Lemma emits_upd_seat k f : moves (emits P) (upd_seat k f).
Proof. unfold upd_seat. solve_moves. Qed.
Lemma emits_get_sd sid dev : moves (emits P) (get_sd sid dev).
Proof. unfold get_sd. solve_moves. Qed.
Local Hint Resolve emits_upd_session emits_upd_seat emits_get_sd : moves.
Lemma emits_upd_sd sid dev f : moves (emits P) (upd_sd sid dev f).
Proof. unfold upd_sd. solve_moves. Qed.
Lemma emits_session_is_active sid : moves (emits P) (session_is_active sid).
Proof. unfold session_is_active. solve_moves. Qed.
Lemma emits_session_get_state sid : moves (emits P) (session_get_state sid).
Proof. unfold session_get_state, session_is_active. solve_moves. Qed.
Lemma emits_session_uid sid : moves (emits P) (session_uid sid).
Proof. unfold session_uid. solve_moves. Qed.
Local Hint Resolve emits_upd_sd emits_session_is_active emits_session_get_state emits_session_uid : moves.
Lemma emits_map_m {A B} (f : A → MM B) l : (∀ x, moves (emits P) (f x)) → moves (emits P) (map_m f l).
Proof. intros Hf. induction l as [|x l IH]; simpl; solve_moves. Qed.
Lemma emits_user_state_loop mode b l : moves (emits P) (user_state_loop mode b l).
Proof. revert b. induction l as [|i l IH]; intros b; simpl; solve_moves. Qed.
Local Hint Resolve emits_user_state_loop : moves.
Lemma emits_user_get_state uid : moves (emits P) (user_get_state uid).
Proof. unfold user_get_state. solve_moves. Qed.
Lemma emits_user_session_info i : moves (emits P) (user_session_info i).
Proof. unfold user_session_info. solve_moves. Qed.
Local Hint Resolve emits_user_get_state emits_user_session_info : moves.
Lemma emits_user_save uid : moves (emits P) (user_save uid).
Proof. unfold user_save, user_save_internal. solve_moves. apply emits_map_m, emits_user_session_info. Qed.
Lemma emits_seat_has_master_device k : moves (emits P) (seat_has_master_device k).
Proof. unfold seat_has_master_device. solve_moves. Qed.
Lemma emits_session_save sid : moves (emits P) (session_save sid).
Proof. unfold session_save, seat_has_vts, seat_is_seat0. solve_moves. Qed.
Lemma emits_seat_save k : moves (emits P) (seat_save k).
Proof.
  unfold seat_save, seat_can_tty, seat_has_vts, seat_is_seat0, seat_can_graphical. solve_moves;
    [apply emits_seat_has_master_device|apply emits_map_m, emits_session_uid..].
Qed.
Lemma emits_seat_apply_acls k o : moves (emits P) (seat_apply_acls k o).
Proof. unfold seat_apply_acls. solve_moves. Qed.
Lemma emits_session_send_changed sid l : moves (emits P) (session_send_changed sid l).
Proof. unfold session_send_changed. solve_moves. Qed.
Lemma emits_seat_send_changed k l : moves (emits P) (seat_send_changed k l).
Proof. unfold seat_send_changed. solve_moves. Qed.
Lemma emits_session_device_save sid dev : moves (emits P) (session_device_save sid dev).
Proof. unfold session_device_save. solve_moves. Qed.
Lemma emits_session_user_save sid : moves (emits P) (session_user_save sid).
Proof. unfold session_user_save. solve_moves. apply emits_user_save. Qed.
End Order.

Lemma bind_bind_run {A B C} (c : MM A) (k : A → MM B) (h : B → MM C) m a m' :
  c m = Some (a, m') → bind (bind c k) h m = bind (k a) h m'.
Proof. unfold bind. by intros ->. Qed.

(** * Taking the devices away *)

(** What is done to the device [dev] of a session that goes to the background: a
    working graphics device loses its mastership, a working input device is
    revoked, and the session's controller is told. *)
Definition withdrawal (sid : string) (s : session) (dev : Z) : list effect :=
  match s_devices s !! dev with
  | Some sd =>
      if sd_active sd then
        match sd_type sd with
        | DEVICE_TYPE_DRM => [DrmDropMaster (sd_fd sd)]
        | DEVICE_TYPE_EVDEV | DEVICE_TYPE_HIDRAW => [Revoked (sd_type sd) (sd_fd sd)]
        | DEVICE_TYPE_UNKNOWN => []
        end ++ match s_controller s with Some dest => [PauseDevice sid dest dev "force"] | None => [] end
      else []
  | None => []
  end.
Lemma withdrawal_grants_nothing sid s dev : Forall (λ ev, grants ev = false) (withdrawal sid s dev).
Proof. unfold withdrawal. repeat case_match; cbn; repeat constructor. Qed.

(** The state after a device has been replaced and some effects have happened. *)
Definition with_device (m : manager) (sid : string) (s : session) (dev : Z) (sd : session_device) (l : list effect) : manager :=
  m <| m_sessions := <[sid := s <| s_devices := <[dev := sd]> (s_devices s) |>]> (m_sessions m) |>
    <| m_trace := m_trace m ++ l |>.
Lemma with_device_same m sid s dev sd : m_sessions m !! sid = Some s → s_devices s !! dev = Some sd →
  with_device m sid s dev sd [] = m.
Proof.
  intros Hs Hd. unfold with_device.
  assert (Es : s <| s_devices := <[dev := sd]> (s_devices s) |> = s) by (cbn; rewrite insert_id by done; by destruct s).
  rewrite Es, insert_id by done. cbn. rewrite app_nil_r. by destruct m.
Qed.
Lemma get_sd_run m sid s dev sd : m_sessions m !! sid = Some s → s_devices s !! dev = Some sd →
  get_sd sid dev m = Some (sd, m).
Proof. intros Hs Hd. unfold get_sd. rewrite (bind_run _ _ _ _ _ (get_session_run m sid s Hs)). by rewrite Hd. Qed.

Lemma pause_one_run m sid s dev sd :
  m_sessions m !! sid = Some s → s_devices s !! dev = Some sd → (sd_active sd = true → 0 ≤ sd_fd sd) →
  ∃ sd', pause_one sid dev m = Some (tt, with_device m sid s dev sd' (withdrawal sid s dev)).
Proof.
  intros Hs Hd Hfd. unfold pause_one. rewrite (bind_run _ _ _ _ _ (get_sd_run m sid s dev sd Hs Hd)).
  unfold withdrawal. rewrite Hd. destruct (sd_active sd) eqn:Ea; cbn [negb].
  2: { exists sd. by rewrite (with_device_same m sid s dev sd). }
  specialize (Hfd eq_refl). set (sd' := sd <| sd_active := false |>).
  set (stop := match sd_type sd with
    | DEVICE_TYPE_DRM => [DrmDropMaster (sd_fd sd)]
    | DEVICE_TYPE_EVDEV | DEVICE_TYPE_HIDRAW => [Revoked (sd_type sd) (sd_fd sd)]
    | DEVICE_TYPE_UNKNOWN => [] end).
  assert (Hst : session_device_stop sid dev m = Some (tt, with_device m sid s dev sd' stop)).
  { unfold session_device_stop. rewrite (bind_run _ _ _ _ _ (get_sd_run m sid s dev sd Hs Hd)), Ea. cbn [negb]. cbv zeta.
    assert (Hup : ∀ l, upd_sd sid dev (λ d, d <| sd_active := false |>) (m <| m_trace := m_trace m ++ l |>)
      = Some (tt, with_device m sid s dev sd' l)).
    { intros l. set (m1 := m <| m_trace := _ |>). unfold upd_sd, upd_session.
      rewrite (bind_run _ _ _ _ _ (get_session_run m1 sid s Hs)), Hd. cbn [deref].
      rewrite (bind_run _ _ m1 sd m1) by done. by rewrite (bind_run _ _ _ _ _ (get_session_run m1 sid s Hs)). }
    unfold stop, sd_drmdropmaster, sd_revoke. rewrite (proj2 (Z.leb_le 0 _)) by done. rewrite (proj2 (Z.ltb_ge _ 0)) by done.
    destruct (sd_type sd); try exact (Hup [_]).
    rewrite <-(Hup []), app_nil_r. by destruct m. }
  rewrite (bind_run _ _ _ _ _ Hst). exists sd'. unfold session_device_notify.
  assert (Hs1 : m_sessions (with_device m sid s dev sd' stop) !! sid = Some (s <| s_devices := <[dev := sd']> (s_devices s) |>))
    by apply lookup_insert_eq.
  rewrite (bind_run _ _ _ _ _ (get_session_run _ sid _ Hs1)), (bind_run _ _ _ _ _ (get_sd_run _ sid _ dev sd' Hs1 (lookup_insert_eq _ _ _))).
  cbn [s_controller upd]. destruct (s_controller s); unfold with_device, emit, modify; [|by rewrite app_nil_r].
  cbn. by rewrite <-app_assoc.
Qed.

Lemma pause_loop_run sid l : NoDup l → ∀ m s, m_sessions m !! sid = Some s →
  (∀ dev, dev ∈ l → ∃ sd, s_devices s !! dev = Some sd ∧ (sd_active sd = true → 0 ≤ sd_fd sd)) →
  ∃ m', for_each (pause_one sid) l m = Some (tt, m') ∧ m_trace m' = m_trace m ++ concat (withdrawal sid s <$> l).
Proof.
  induction 1 as [|dev l Hnew _ IH]; intros m s Hs Hl; [exists m; by rewrite app_nil_r|].
  destruct (Hl dev ltac:(left)) as (sd&Hd&Hfd). destruct (pause_one_run m sid s dev sd Hs Hd Hfd) as (sd'&Hp).
  set (s1 := s <| s_devices := <[dev := sd']> (s_devices s) |>).
  destruct (IH (with_device m sid s dev sd' (withdrawal sid s dev)) s1) as (m'&Hr&Ht).
  - apply lookup_insert_eq.
  - intros dev' Hin. destruct (Hl dev' ltac:(by right)) as (sd2&?&?). exists sd2. split; [|done].
    unfold s1. cbn. rewrite lookup_insert_ne; [done|]. by intros ->.
  - exists m'. cbn [for_each]. rewrite (bind_run _ _ _ _ _ Hp). split; [done|]. rewrite Ht. cbn. rewrite <-app_assoc.
    do 2 f_equal. f_equal. apply list_fmap_ext. intros i dev' Hi. apply list_elem_of_lookup_2 in Hi.
    unfold withdrawal, s1. cbn. rewrite lookup_insert_ne; [done|]. by intros ->.
Qed.

Section Switch.
Context {E : Env}.

(** All of it, in the order in which the devices are visited. *)
Definition withdrawals (sid : string) (s : session) : list effect := concat (withdrawal sid s <$> device_order s).

Lemma pause_all_run {Ok : EnvOk} m sid s : m_sessions m !! sid = Some s →
  (∀ dev sd, s_devices s !! dev = Some sd → sd_active sd = true → 0 ≤ sd_fd sd) →
  ∃ m', session_device_pause_all sid m = Some (tt, m') ∧ m_trace m' = m_trace m ++ withdrawals sid s.
Proof.
  intros Hs Hfd. unfold session_device_pause_all. rewrite (bind_run _ _ _ _ _ (get_session_run m sid s Hs)).
  apply pause_loop_run; [|done|].
  - unfold device_order. rewrite (e_order_ok _). apply NoDup_fst_map_to_list.
  - intros dev. unfold device_order. rewrite (e_order_ok _).
    intros ([d sd]&->&Hin%elem_of_map_to_list)%list_elem_of_fmap. exists sd. split; [done|]. by apply (Hfd d).
Qed.
Lemma active_has_fd m sid s dev sd : wf m → m_sessions m !! sid = Some s → s_devices s !! dev = Some sd →
  sd_active sd = true → 0 ≤ sd_fd sd.
Proof.
  intros Hwf Hs Hd Ha. assert (Hds : g_sds (cols_of m) !! sid = Some (sds_of s)) by by apply col_in.
  assert (Hn : sds_of s !! dev = Some (sdnode_of sd)) by by apply col_in.
  destruct (wf_sds_ok _ _ _ _ Hwf Hds _ _ Hn) as [_ Hok]. apply Z.leb_le. by apply Hok.
Qed.

(** * Giving them to the new session *)

Section Grant.
Context (session : option string).
Local Abbreviation P := (only_grants session).

Lemma quiet_only_grants ev : grants ev = false → withdraws ev = false → P ev = true.
Proof. intros Hg Hw. unfold only_grants. rewrite Hw. by destruct ev. Qed.
Ltac quiet_emits :=
  first [apply emits_upd_session|apply emits_upd_seat|apply emits_get_sd|apply emits_upd_sd
        |apply emits_session_is_active|apply emits_user_save|apply emits_session_save
        |apply emits_seat_save|apply emits_seat_apply_acls|apply emits_session_send_changed
        |apply emits_seat_send_changed|apply emits_session_device_save|apply emits_session_user_save];
  exact quiet_only_grants.
Local Hint Extern 1 (moves (emits _) _) => quiet_emits : moves.

Lemma drm_set_master_grants fuel fd i : moves (emits P) (drm_set_master_loop fuel fd i).
Proof. revert i. induction fuel as [|fuel IH]; intros i; simpl; solve_moves. Qed.
Lemma open_active_grants type node : moves (emits P) (session_device_open type node true).
Proof.
  unfold session_device_open, sd_drmsetmaster. cbn [negb when]. solve_moves.
  apply drm_set_master_grants.
Qed.
Lemma resume_all_grants sid : session = Some sid → moves (emits P) (session_device_resume_all sid).
Proof.
  intros Es. assert (Hr : ∀ dest dev fd, P (ResumeDevice sid dest dev fd) = true).
  { intros. unfold only_grants. cbn. by apply bool_decide_true. }
  unfold session_device_resume_all, resume_one, session_device_start, sd_drmsetmaster,
    session_device_notify.
  solve_moves; try apply drm_set_master_grants; try apply open_active_grants. apply emits_emit, Hr.
Qed.

(** What follows the withdrawals. *)
Lemma seat_set_active_rest k old new : session = new →
  moves (emits P) (
    (match old with Some o => session_send_changed o ["Active"] | None => ret tt end) ;;;
    seat_apply_acls k old ;;;
    started <- (match new with
                | None => ret false
                | Some sid => x <- get_session sid ;; ret (s_started x)
                end) ;;
    (match new with
     | Some sid => when started (session_send_changed sid ["Active"] ;;; session_device_resume_all sid)
     | None => ret tt
     end) ;;;
    when (negb (is_some new) || started) (seat_send_changed k ["ActiveSession"]) ;;;
    ignore (seat_save k) ;;;
    (match new with
     | None => ret tt
     | Some sid => ignore (session_save sid) ;;; session_user_save sid
     end) ;;;
    match old with
    | None => ret tt
    | Some old =>
        ignore (session_save old) ;;;
        o <- get_session old ;;
        new_user <- (match new with
                     | None => ret None
                     | Some sid => x <- get_session sid ;; ret (Some (s_user x))
                     end) ;;
        when (negb (bool_decide (new_user = Some (s_user o)))) (session_user_save old)
    end).
Proof. intros Es. destruct new as [sid|]; solve_moves; by apply resume_all_grants. Qed.
End Grant.

Definition taken_away (m : manager) (t : seat) (session : option string) : list effect :=
  if bool_decide (session = se_active t) then []
  else match se_active t with
       | Some old => match m_sessions m !! old with Some s => withdrawals old s | None => [] end
       | None => []
       end.

Lemma taken_away_grants_nothing m t session : Forall (λ ev, grants ev = false) (taken_away m t session).
Proof.
  unfold taken_away. case_bool_decide; [constructor|]. repeat case_match; try constructor.
  unfold withdrawals. apply Forall_concat, Forall_fmap, Forall_forall. intros dev _. apply withdrawal_grants_nothing.
Qed.
Lemma wf_seat_of_active m k t old : wf m → m_seats m !! k = Some t → se_active t = Some old →
  g_seat (cols_of m) !! old = Some (Some k).
Proof.
  intros Hwf Ht Ha. destruct (seat_has_sessions _ (wf_links_agree m Hwf) k t old Ht) as (s&Hs&<-).
  - eapply (seat_active _ (wf_links_agree m Hwf)); [exact Ht|by left].
  - by apply col_in.
Qed.

(** The effects of the whole function, when it ends. *)
Lemma seat_set_active_effects {Ok : EnvOk} m k t session m' :
  wf m → m_seats m !! k = Some t →
  (∀ sid, session = Some sid → ∃ s, m_sessions m !! sid = Some s ∧ s_seat s = Some k) →
  seat_set_active k session m = Some (tt, m') →
  ∃ gained, m_trace m' = m_trace m ++ taken_away m t session ++ gained ∧ Forall (λ ev, only_grants session ev = true) gained.
Proof.
  intros Hwf Ht Hs. unfold seat_set_active, taken_away. rewrite (bind_run _ _ _ _ _ (get_seat_run m k t Ht)).
  assert (Hcheck : match session with None => ret tt
    | Some sid => x <- get_session sid ;; assert_se (bool_decide (s_seat x = Some k)) end m = Some (tt, m)).
  { destruct session as [sid|]; [|done]. destruct (Hs sid eq_refl) as (s&Hsid&Hk).
    rewrite (bind_run _ _ _ _ _ (get_session_run m sid s Hsid)). by rewrite bool_decide_true. }
  rewrite (bind_run _ _ _ _ _ Hcheck). case_bool_decide as Eact.
  { destruct session as [sid|]; intros H; [|injection H as <-; exists []; by rewrite app_nil_r].
    destruct (resume_all_grants _ sid eq_refl _ _ _ H) as (l&Hl&?). by exists l. }
  cbv zeta. set (m1 := m <| m_seats := <[k := t <| se_active := session |>]> (m_seats m) |>).
  assert (Hupd : upd_seat k (λ s, s <| se_active := session |>) m = Some (tt, m1))
    by (unfold upd_seat; by rewrite (bind_run _ _ _ _ _ (get_seat_run m k t Ht))).
  rewrite (bind_run _ _ _ _ _ Hupd).
  pose proof (seat_set_active_rest session k (se_active t) session eq_refl) as Hrest. destruct (se_active t) as [old|] eqn:Eo.
  - destruct (seat_has_sessions _ (wf_links_agree m Hwf) k t old Ht) as (s&Hold&_).
    { eapply (seat_active _ (wf_links_agree m Hwf)); [exact Ht|by left]. }
    destruct (pause_all_run m1 old s Hold) as (m2&Hp&Htr); [intros; by eapply (active_has_fd m)|].
    rewrite Hold, (bind_bind_run _ _ _ _ _ _ Hp). intros H. destruct (Hrest _ _ _ H) as (l&Hl&?).
    exists l. split; [|done]. by rewrite Hl, Htr, <-app_assoc.
  - intros H. destruct (Hrest _ _ _ H) as (l&Hl&?). by exists l.
Qed.
End Switch.

(** C5: when the active session of a seat changes, the session that goes to the
    background loses its devices before the one that comes to the foreground is
    given any: the effects of the change begin with [taken_away] - for each
    working device of the old session, in the order of its table, the mastership
    is dropped or the device revoked, and the controller told - and in what
    follows nothing is taken away and no session but the new one has a device
    resumed. In the end the seat's active session is the new one and no device of
    the old one works. *)
Theorem switch_withdraws_before_it_grants c m (E : Env) k t session :
  sane c → reachable c m → EnvOk → m_seats m !! k = Some t →
  (∀ sid, session = Some sid → ∃ s, m_sessions m !! sid = Some s ∧ s_seat s = Some k) →
  ∃ m' gained, seat_set_active k session m = Some (tt, m') ∧
    m_trace m' = m_trace m ++ taken_away m t session ++ gained ∧
    Forall (λ ev, grants ev = false) (taken_away m t session) ∧
    Forall (λ ev, only_grants session ev = true) gained ∧
    se_active <$> m_seats m' !! k = Some session ∧
    ∀ old s' dev sd, se_active t = Some old → session ≠ Some old →
      m_sessions m' !! old = Some s' → s_devices s' !! dev = Some sd → sd_active sd = false.
Proof.
  intros Hc Hm Ok Ht Hs. pose proof (reachable_wf c m Hc Hm) as Hwf.
  assert (Hk : has_t (cols_of m) k) by (eexists; by apply col_in).
  assert (Hs' : ∀ sid, session = Some sid → g_seat (cols_of m) !! sid = Some (Some k)).
  { intros sid ->. destruct (Hs sid eq_refl) as (s&Hl&<-). by apply col_in. }
  destruct (wp_run _ _ _ (hoare_seat_set_active _ k session Hwf (coh_cols m) Hk Hs' m eq_refl))
    as ([]&m'&H&Hwf'&Hsame&Hact&_).
  destruct (seat_set_active_effects m k t session m' Hwf Ht Hs H) as (gained&Htr&Hg).
  exists m', gained. split_and!; [done|done|apply taken_away_grants_nothing|done| |].
  - apply (f_equal (lookup k)) in Hact. cbn in Hact. by rewrite lookup_insert_eq, lookup_fmap in Hact.
  - intros old s' dev sd Hold Hne Hs2 Hd. apply not_true_is_false. intros Ha.
    assert (Hds : g_sds (cols_of m') !! old = Some (sds_of s')) by by apply col_in.
    assert (Hn : sds_of s' !! dev = Some (sdnode_of sd)) by by apply col_in.
    destruct (wf_excl _ _ Hwf' _ _ _ _ Hds Hn Ha) as [?|(k'&Hk'&Hact')]; [done|].
    assert (Ek : g_seat (cols_of m') !! old = Some (Some k)).
    { rewrite Hsame. cbn. apply (wf_seat_of_active m k t old Hwf Ht Hold). }
    rewrite Ek in Hk'. injection Hk' as <-. rewrite Hact, lookup_insert_eq in Hact'. congruence.
Qed.
Lemma switch_withdraws_before_it_grants_witness :
  ∃ m' gained t, m_seats sample_taken !! "seat0" = Some t ∧
    @seat_set_active sample_env "seat0" (Some "c1") sample_taken = Some (tt, m') ∧
    m_trace m' = m_trace sample_taken ++ @taken_away sample_env sample_taken t (Some "c1") ++ gained ∧
    Forall (λ ev, only_grants (Some "c1") ev = true) gained ∧
    se_active <$> m_seats m' !! "seat0" = Some (Some "c1").
Proof.
  destruct (m_seats sample_taken !! "seat0") as [t|] eqn:Et; [|by vm_compute in Et].
  destruct (switch_withdraws_before_it_grants sample_config sample_taken sample_env "seat0" t (Some "c1"))
    as (m'&gained&H1&H2&_&H3&H4&_); [apply sample_sane|apply sample_taken_reachable|apply sample_env_ok|exact Et| |].
  - intros sid [= <-]. eexists. split; [vm_compute; reflexivity|reflexivity].
  - exists m', gained, t. exact (conj eq_refl (conj H1 (conj H2 (conj H3 H4)))).
Defined.
(** A display server of session c2 has the graphics card. *)
Example taken_from_the_display_server :
  (λ t, @taken_away sample_env sample_taken t (Some "c1"%string)) <$> m_seats sample_taken !! "seat0"%string =
  Some [DrmDropMaster 8; PauseDevice "c2" ":1.1" (makedev 226 0) "force"].
Proof. vm_compute. reflexivity. Qed.
