(* ===== verification/SessionFacts.v ===== *)
(** What the life-cycle operations of a session achieve: stopping, taking
    control by force, activation without virtual terminals. *)
From S2P Require Import Prelude Time LoginTypes ActionTypes LoginState LoginEnv Bus Objects SessionDevice Seat Device User Session Lifecycle SessionBus ManagerBus Events Cols Links LinksObjects LinksDevice LinksSeat LinksStart LinksStop LinksBus LinksRun LinksBoot Partial Sample Safety.

Section Stop.
Context {E : Env}.

(** From the moment the flag is set, a session is closing. *)
Lemma stopping_is_closing m sid s :
  m_sessions m !! sid = Some s → s_stopping s = true →
  session_get_state sid m = Some (SESSION_CLOSING, m).
Proof.
  intros Hs Hst. unfold session_get_state, get_session, bind, gets. rewrite Hs. cbn. by rewrite Hst.
Qed.

Lemma may_session_stop m sid s force :
  m_sessions m !! sid = Some s → s_started s = true → is_Some (s_user s) →
  may (session_stop sid force) (λ _ m', field s_stopping sid m' = Some true) m.
Proof.
  intros Hs Hst [uid Hu]. unfold session_stop. apply may_bind, may_get_session.
  intros s' Hs'. rewrite Hs in Hs'. injection Hs' as <-. rewrite Hu, Hst. cbn [negb].
  destruct (s_stopping s) eqn:Estop.
  { apply may_ret. unfold field. rewrite Hs. cbn. by rewrite Estop. }
  do 5 (eapply (may_after (λ _ _, True)); [done|]; intros ? ? _).
  apply may_bind, may_upd_session. intros x Hx.
  eapply may_mono; [apply (may_moves same_sessions); solve_moves|].
  intros r m' Hm'. unfold field. rewrite Hm'. cbn. by rewrite lookup_insert_eq.
Qed.
End Stop.

(** C11: stopping takes effect at once: after session_stop() of a started
    session the session is closing, whichever of the steps on the way failed
    (restoring the terminal, stopping the scope), and its owner's other sessions
    and the seats still agree with it. *)
Theorem session_stop_closes c m (E : Env) sid s force :
  sane c → reachable c m → EnvOk → m_sessions m !! sid = Some s → s_started s = true →
  ∃ r m', session_stop sid force m = Some (r, m') ∧
    session_get_state sid m' = Some (SESSION_CLOSING, m') ∧ links_agree m'.
Proof.
  intros Hc Hm Ok Hs Hst. pose proof (reachable_wf c m Hc Hm) as Hwf.
  destruct (session_has_user _ (wf_links_agree m Hwf) _ _ Hs) as (uid&u&Hu&_).
  assert (Hh : has_s (cols_of m) sid) by (eexists; by apply col_in).
  destruct (wp_may _ _ _ _ (hoare_session_stop ex0 (cols_of m) sid force Hwf (coh_cols m) Hh m eq_refl)
    (may_session_stop m sid s force Hs Hst (mk_is_Some _ _ Hu))) as (r&m'&H&[Hwf' _]&Hf).
  exists r, m'. split_and!; [done| |by apply wf_links_agree].
  unfold field in Hf. destruct (m_sessions m' !! sid) as [s'|] eqn:Es'; [|done]. injection Hf as Hf.
  by apply (stopping_is_closing m' sid s').
Qed.
Lemma session_stop_closes_witness :
  ∃ r m', @session_stop sample_env "c2" true sample_busy = Some (r, m') ∧
    session_get_state "c2" m' = Some (SESSION_CLOSING, m') ∧ links_agree m'.
Proof.
  eapply (session_stop_closes sample_config);
    [apply sample_sane|apply sample_busy_reachable|apply sample_env_ok|vm_compute; reflexivity|reflexivity].
Defined.

(** * Taking control *)

Section Control.
Context {E : Env}.

Lemma keeps_restore_vt sid : moves (keeps s_controller sid) (session_restore_vt sid).
Proof. unfold session_restore_vt, session_open_vt. solve_moves. Qed.
Hint Resolve keeps_restore_vt : moves.
Lemma keeps_vt_calls l fd sid : moves (keeps s_controller sid) (vt_calls l fd).
Proof. induction l as [|c l IH]; simpl; solve_moves. Qed.
Hint Resolve keeps_vt_calls : moves.
Lemma keeps_prepare_vt sid : moves (keeps s_controller sid) (session_prepare_vt sid).
Proof. unfold session_prepare_vt, session_open_vt. solve_moves. Qed.
Hint Resolve keeps_prepare_vt : moves.

Lemma may_take_over m sid s old sender :
  m_sessions m !! sid = Some s → s_controller s = Some old → old ≠ sender →
  may (session_set_controller sid sender true true) (λ r m', r = 0 →
    field s_controller sid m' = Some (Some sender) ∧ field s_track sid m' = Some None) m.
Proof.
  intros Hs Hold Hne. unfold session_set_controller, session_is_controller.
  apply may_bind, may_bind, may_get_session. intros x Hx. rewrite Hs in Hx. injection Hx as <-.
  apply may_ret. rewrite Hold, bool_decide_false by congruence.
  apply may_bind, may_get_session. intros x _. rewrite andb_false_r. cbv iota.
  assert (Hf : field s_controller sid m = Some (Some old)) by (unfold field; rewrite Hs; cbn; by rewrite Hold).
  eapply (may_after (keeps s_controller sid)); [solve_moves|]. intros _ m1 H1.
  destruct (e_bus_track_new <? 0) eqn:Eb; [apply may_ret; lia|].
  eapply (may_after (keeps s_controller sid)); [solve_moves|]. intros _ m2 H2. cbv zeta.
  destruct (e_bus_track_add_name sender <? 0) eqn:En; [apply may_ret; lia|].
  eapply (may_after (keeps s_controller sid)); [solve_moves|]. intros _ m3 H3.
  eapply (may_after (keeps s_controller sid)); [solve_moves|]. intros r m4 H4.
  destruct (r <? 0) eqn:E3.
  { eapply (may_after (λ _ _, True)); [done|]. intros _ m5 _. apply may_ret. lia. }
  assert (Hf4 : field s_controller sid m4 = Some (Some old)) by congruence.
  apply may_bind. unfold session_release_controller. apply may_bind, may_get_session. intros s4 Hs4.
  unfold field in Hf4. rewrite Hs4 in Hf4. injection Hf4 as ->.
  do 2 (eapply (may_after (λ _ _, True)); [done|]; intros ? ? _).
  apply may_upd_session. intros s5 Hs5. apply may_bind, may_upd_session. intros s6 Hs6.
  cbn in Hs6. rewrite lookup_insert_eq in Hs6. injection Hs6 as <-.
  eapply (may_after same_sessions); [solve_moves|]. intros _ m7 H7. apply may_ret. intros _.
  unfold field. rewrite H7. cbn. by rewrite lookup_insert_eq.
Qed.
End Control.

(** Control taken by force is not watched: when a session has a controller
    and another caller takes over with force, the call succeeds with the new
    controller in place but without the bus track that was made for it, because
    releasing the old controller drops the track; so the daemon is never told
    that the new controller's connection is gone. *)
Theorem forced_controller_is_not_tracked (E : Env) m sid s old sender m' :
  m_sessions m !! sid = Some s → s_controller s = Some old → old ≠ sender →
  session_set_controller sid sender true true m = Some (0, m') →
  ∃ s', m_sessions m' !! sid = Some s' ∧ s_controller s' = Some sender ∧ s_track s' = None.
Proof.
  intros Hs Hold Hne H. destruct (may_take_over m sid s old sender Hs Hold Hne _ _ H eq_refl) as [H1 H2].
  unfold field in *. destruct (m_sessions m' !! sid) as [s'|]; [|done].
  injection H1 as H1. injection H2 as H2. by exists s'.
Qed.
Lemma forced_controller_is_not_tracked_witness :
  ∃ s', m_sessions (after (@session_set_controller sample_env "c2" ":1.2" true true) sample_controlled)
      !! "c2"%string = Some s' ∧ s_controller s' = Some ":1.2"%string ∧ s_track s' = None.
Proof.
  eapply (forced_controller_is_not_tracked sample_env sample_controlled "c2" _ ":1.1");
    [vm_compute; reflexivity|reflexivity|discriminate|vm_compute; reflexivity].
Defined.

(** * Activation without virtual terminals *)

Section Activate.
Context {E : Env} {Ok : EnvOk}.
Context {Bt : Boot} (g : cols) (Hwf : WF ex0 g) (Hg : coh g).

(** A session in the background has no active device to pause. *)
Lemma soft_try_pause_background sid k :
  g_seat g !! sid = Some (Some k) → g_active g !! k ≠ Some (Some sid) →
  soft g (session_device_try_pause_all sid) (λ n, n = 0).
Proof.
  intros Hk Hna. assert (Hs : has_s g sid) by eauto with links.
  destruct (coh_sds_of _ _ Hg Hs) as [ds Hds]. unfold session_device_try_pause_all.
  eapply soft_bind; [by apply soft_get_session|]. intros s Hr.
  apply soft_fold_m; [done|]. intros n dev Hin ->.
  apply device_order_elem in Hin as [nd Hnd].
  assert (Hsd : g_sds g !! sid = Some (sds_of s)) by apply Hr.
  unfold try_pause_one. eapply soft_bind; [by eapply soft_get_sd|]. intros d Hd.
  assert (Hi : sd_active d = false).
  { destruct (sd_active d) eqn:Ea; [|done]. exfalso.
    destruct (wf_excl _ _ Hwf _ _ _ _ Hsd Hnd) as [?|(k'&Hk'&Ha')]; [|done|].
    - rewrite <-Hd. exact Ea.
    - rewrite Hk in Hk'. simplify_eq. }
  rewrite Hi. by apply soft_ret.
Qed.

(** The pending session becomes the active one. *)
Lemma hoare_complete_pending k sid :
  has_t g k → g_pending g !! k = Some (Some sid) →
  hoare g (seat_complete_switch k) (λ _ g', WF ex0 g' ∧
    g_active g' !! k = Some (Some sid) ∧ g_pending g' !! k = Some None).
Proof.
  intros Hk Hp. unfold seat_complete_switch.
  eapply hoare_soft_bind; [by apply soft_get_seat|]. intros s Hr.
  assert (Ep : se_pending_switch s = Some sid).
  { assert (Hx : g_pending g !! k = Some (se_pending_switch s)) by apply Hr. congruence. }
  rewrite Ep. assert (Hsid : g_seat g !! sid = Some (Some k)) by eauto with links.
  eapply hoare_bind; [by apply hoare_upd_seat|]. intros _ g1 (s1&Hr1&->).
  assert (Hg1 : put_t g k (s1 <| se_pending_switch := None |>)
                = g <| g_pending := <[k := None]> (g_pending g) |>) by (clear Hr; same_row; done).
  rewrite Hg1. apply hoare_coh; intros Hc1.
  eapply hoare_mono; [eapply hoare_seat_set_active; [by apply wf_take_pending|done|done|]|].
  - intros ? [= <-]. done.
  - intros _ g' (?&_&Ha&Hpe). split; [done|]. rewrite Ha, Hpe; cbn. by rewrite !lookup_insert_eq.
Qed.

End Activate.

Lemma hoare_activate_background {E : Env} {Ok : EnvOk} g sid k :
  WF ex0 g → coh g → g_seat g !! sid = Some (Some k) → g_active g !! k ≠ Some (Some sid) → has_vts g k = false →
  hoare g (session_activate sid) (λ r g', r = 0 ∧ WF ex0 g' ∧
    g_active g' !! k = Some (Some sid) ∧ g_pending g' !! k = Some None).
Proof.
  intros Hwf Hg Hk Hna Hvt. assert (Hs : has_s g sid) by eauto with links.
  assert (Ht : has_t g k) by eauto with links. unfold session_activate.
  eapply hoare_soft_bind; [by apply soft_get_session|]. intros s Hr.
  assert (Es : s_seat s = Some k).
  { assert (Hx : g_seat g !! sid = Some (s_seat s)) by apply Hr. congruence. }
  eapply hoare_soft_bind.
  { apply soft_assert. assert (Hu : g_user g !! sid = Some (s_user s)) by apply Hr.
    destruct (s_user s); [done|]. by destruct (wf_owner _ _ Hwf _ Hu) as [?|[?|[? _]]]. }
  intros _ _. rewrite Es. clear Hr.
  eapply hoare_soft_bind; [by apply soft_get_seat|]. intros st Hst.
  assert (Hact : g_active g !! k = Some (se_active st)) by apply Hst.
  rewrite bool_decide_false by congruence.
  eapply hoare_soft_bind; [apply soft_seat_has_vts|]. intros vts ->. rewrite Hvt.
  clear Hst. eapply hoare_bind; [by apply hoare_upd_seat|]. intros _ g1 (st1&Hst1&->).
  assert (put_t g k (st1 <| se_pending_switch := Some sid |>)
    = g <| g_pending := <[k := Some sid]> (g_pending g) |>) as -> by (same_row; done).
  assert (Hwf1 : WF ex0 (g <| g_pending := <[k := Some sid]> (g_pending g) |>)).
  { destruct Hwf; constructor; cbn; try assumption.
    intros k' a [[<- [= <-]]|[? ?]]%lookup_insert_Some; eauto. }
  apply hoare_coh; intros Hg1.
  eapply hoare_soft_bind; [by eapply soft_try_pause_background|]. intros n ->.
  cbn [when Z.eqb]. eapply hoare_bind.
  { apply hoare_complete_pending; [done..|]. cbn. apply lookup_insert_eq. }
  intros a g2 ?. by apply hoare_ret.
Qed.

(** On a seat without virtual terminals a session is activated at once:
    session_activate() of a session in the background returns 0 with the session
    active and no switch pending.  It does not wait for the controller of the
    session in the foreground to give up its devices, as the comment in the code
    says it does: it asks the session to be activated, which has none running. *)
Theorem activation_does_not_wait c m (E : Env) sid s k t :
  sane c → reachable c m → EnvOk → m_sessions m !! sid = Some s → s_seat s = Some k →
  m_seats m !! k = Some t → se_active t ≠ Some sid → m_seat0 m ≠ Some k ∨ m_console_active_fd m < 0 →
  ∃ m' t', session_activate sid m = Some (0, m') ∧ m_seats m' !! k = Some t' ∧
    se_active t' = Some sid ∧ se_pending_switch t' = None.
Proof.
  intros Hc Hm Ok Hs Hk Ht Hna Hvt. pose proof (reachable_wf c m Hc Hm) as Hwf.
  assert (Hseat : g_seat (cols_of m) !! sid = Some (Some k)) by (rewrite <-Hk; by apply col_in).
  assert (Hact : g_active (cols_of m) !! k ≠ Some (Some sid)).
  { cbn. rewrite lookup_fmap, Ht. cbn. congruence. }
  assert (Hno : has_vts (cols_of m) k = false).
  { unfold has_vts. cbn. destruct Hvt; [by rewrite bool_decide_false|].
    rewrite (proj2 (Z.leb_gt _ _)) by done. apply andb_false_r. }
  destruct (wp_run _ _ _ (hoare_activate_background _ sid k Hwf (coh_cols m) Hseat Hact Hno m eq_refl))
    as (r&m'&H&->&_&Ha&Hp).
  col_out Ha. col_out Hp. eauto 10.
Qed.
Lemma activation_does_not_wait_witness :
  ∃ m' t', @session_activate sample_env "c1" sample_taken = Some (0, m') ∧
    m_seats m' !! "seat0"%string = Some t' ∧ se_active t' = Some "c1"%string ∧ se_pending_switch t' = None.
Proof.
  eapply (activation_does_not_wait sample_config);
    [apply sample_sane|apply sample_taken_reachable|apply sample_env_ok|vm_compute; reflexivity|reflexivity
    |vm_compute; reflexivity|discriminate|right; reflexivity].
Defined.
