(* ===== verification/UserFacts.v ===== *)
(** What the daemon derives for a user from its sessions: the display session,
    the state and the idle hint. *)
From S2P Require Import Prelude Time LoginTypes ActionTypes LoginState LoginEnv Bus Objects SessionDevice Seat Device User Session Lifecycle SessionBus ManagerBus Events Cols Links LinksRun LinksBoot Partial Sample Safety.

(** * The display session *)

(** The order of preference as a number, smaller is better: a session beats no
    session, one that runs one that is stopping, one of class user one of
    another class, early user sessions the rest, and then the type counts. *)
Definition display_key (s : option session) : Z :=
  match s with
  | None => 1000
  | Some s => 200 * Z.b2z (s_stopping s) + 100 * Z.b2z (negb (bool_decide (s_class s = SESSION_USER)))
              + 50 * Z.b2z (negb (bool_decide (s_class s = SESSION_USER_EARLY))) + type_rank (s_type s)
  end.

Lemma elect_display_compare_key s1 s2 :
  Z.sgn (elect_display_compare s1 s2) = Z.sgn (display_key s1 - display_key s2).
Proof.
  destruct s1 as [s1|], s2 as [s2|]; cbn [elect_display_compare display_key]; [| | |done].
  - unfold bool_diff. cbv zeta.
    generalize (bool_decide (s_class s1 = SESSION_USER)) (bool_decide (s_class s2 = SESSION_USER))
      (bool_decide (s_class s1 = SESSION_USER_EARLY)) (bool_decide (s_class s2 = SESSION_USER_EARLY)).
    intros [] [] [] []; destruct (s_stopping s1), (s_stopping s2); cbn; try done;
      destruct (s_type s1), (s_type s2); done.
  - destruct (s_stopping s1), (s_class s1), (s_type s1); vm_compute; reflexivity.
  - destruct (s_stopping s2), (s_class s2), (s_type s2); vm_compute; reflexivity.
Qed.

(** elect_display_compare() is a total preorder on sessions: it is
    the comparison of one number per session, so it is transitive, two
    sessions are never both better than each other, and the election does not
    depend on how ties are broken. *)
Theorem elect_display_compare_is_an_order s1 s2 :
  Z.sgn (elect_display_compare s1 s2) = Z.sgn (display_key s1 - display_key s2).
Proof. apply elect_display_compare_key. Qed.

Section Display.

(** The session that is looked up behind the display pointer. *)
Definition display_of (m : manager) (d : option string) : option session := d ≫= λ i, m_sessions m !! i.

(** User [uid] is [u] but for its display session. *)
Definition with_display (m : manager) (uid : Z) (u : user) (d : option string) : manager :=
  m <| m_users := <[uid := u <| u_display := d |>]> (m_users m) |>.

Lemma wp_elect_one m uid u d sid s Q :
  m_sessions m !! sid = Some s → (∀ i, d = Some i → is_Some (m_sessions m !! i)) →
  Q tt (with_display m uid u
    (if elect_display_filter s && (elect_display_compare (Some s) (display_of m d) <? 0)
     then Some sid else d)) →
  wp (elect_one uid sid) Q (with_display m uid u d).
Proof.
  intros Hs Hd HQ. unfold elect_one. apply wp_bind. eapply wp_get_session; [exact Hs|].
  destruct (elect_display_filter s); cbn [negb andb] in *; [|by apply wp_ret].
  apply wp_bind. eapply wp_get_user; [apply lookup_insert_eq|]. cbn [u_display upd].
  apply wp_bind. assert (Hx : wp (match d with
      | None => ret None
      | Some d => x <- get_session d ;; ret (Some x) end)
      (λ x m', x = display_of m d ∧ m' = with_display m uid u d) (with_display m uid u d)).
  { destruct d as [i|]; [|by apply wp_ret]. destruct (Hd i eq_refl) as [x Hx].
    apply wp_bind. eapply wp_get_session; [exact Hx|]. apply wp_ret. cbn. by rewrite Hx. }
  eapply wp_mono; [exact Hx|]. intros x m' [-> ->].
  apply wp_when; intros Hc; rewrite Hc in HQ; [|exact HQ].
  eapply wp_upd_user; [apply lookup_insert_eq|]. unfold with_display in *. cbn [m_users upd] in *.
  rewrite insert_insert_eq. exact HQ.
Qed.

(** [d] is at least as good as what was there and as the sessions [l]. *)
Record good_display (m : manager) (u : user) (l : list string) (d : option string) : Prop := {
  gd_keeps : display_key (display_of m d) ≤ display_key (display_of m (u_display u));
  gd_best : ∀ sid s, sid ∈ l → m_sessions m !! sid = Some s → elect_display_filter s = true →
    display_key (display_of m d) ≤ display_key (Some s);
  gd_from : d = u_display u ∨ ∃ sid s, d = Some sid ∧ sid ∈ u_sessions u ∧
    m_sessions m !! sid = Some s ∧ elect_display_filter s = true;
}.

Lemma good_display_step m u l d sid s :
  good_display m u l d → sid ∈ u_sessions u → m_sessions m !! sid = Some s →
  good_display m u (l ++ [sid])
    (if elect_display_filter s && (elect_display_compare (Some s) (display_of m d) <? 0)
     then Some sid else d).
Proof.
  intros [Hk Hb Hf] Hin Hs. pose proof (elect_display_compare_key (Some s) (display_of m d)) as Hc.
  assert (Hsid : display_of m (Some sid) = Some s) by (cbn; by rewrite Hs).
  destruct (elect_display_filter s) eqn:Ef; cbn [andb].
  - destruct (_ <? 0) eqn:El.
    + apply Z.ltb_lt in El. assert (Hlt : display_key (Some s) < display_key (display_of m d)) by lia.
      constructor; rewrite ?Hsid; [lia| |right; eauto 10].
      intros i x [Hi| ->%list_elem_of_singleton]%elem_of_app Hx Hfx; [|by simplify_eq].
      specialize (Hb i x Hi Hx Hfx). lia.
    + apply Z.ltb_ge in El. constructor; [done| |done].
      intros i x [Hi| ->%list_elem_of_singleton]%elem_of_app Hx Hfx; [by eapply Hb|]. simplify_eq. lia.
  - constructor; [done| |done].
    intros i x [Hi| ->%list_elem_of_singleton]%elem_of_app Hx Hfx; [by eapply Hb|]. simplify_eq. congruence.
Qed.

Lemma wp_user_elect_display m uid u :
  links_agree m → m_users m !! uid = Some u →
  wp (user_elect_display uid) (λ _ m', ∃ d, m' = with_display m uid u d ∧
    good_display m u (u_sessions u) d) m.
Proof.
  intros Hl Hu. unfold user_elect_display. apply wp_bind. eapply wp_get_user; [done|].
  assert (Hsess : ∀ i, i ∈ u_sessions u → is_Some (m_sessions m !! i)).
  { intros i Hi. destruct (user_has_sessions _ Hl _ _ _ Hu Hi) as (s&Hs&_). eauto. }
  set (I := λ (l : list string) (m' : manager), ∃ pre d, u_sessions u = pre ++ l ∧
    m' = with_display m uid u d ∧ good_display m u pre d).
  eapply wp_mono; [apply (wp_for_each _ I)|].
  - exists [], (u_display u). split; [done|]. split.
    + unfold with_display. destruct m; cbn in *. rewrite insert_id; [done|]. rewrite Hu. by destruct u.
    + constructor; [done|by intros ? ? ?%elem_of_nil|by left].
  - intros sid l m' (pre&d&Epre&->&Hgd).
    assert (Hin : sid ∈ u_sessions u) by (rewrite Epre; apply elem_of_app; right; left).
    destruct (Hsess sid Hin) as [s Hs]. eapply wp_elect_one; [exact Hs| |].
    + intros i ->. destruct (gd_from _ _ _ _ Hgd) as [Hi|(i'&s'&[= <-]&_&Hi&_)]; [|eauto].
      apply Hsess. by eapply (user_display _ Hl).
    + exists (pre ++ [sid]). eexists. split; [by rewrite <-app_assoc|]. split; [reflexivity|].
      by apply good_display_step.
  - intros _ m' (pre&d&Epre&->&Hgd). rewrite app_nil_r in Epre. subst pre. eauto.
Qed.
End Display.

(** C12: user_elect_display() elects the best: afterwards no session of the user
    that may be a display (it is of a class with a display, started and not
    stopping) is better than the display session, which is the one from before
    or such a session itself; nothing else changes. *)
Theorem elected_display_is_best c m uid u :
  sane c → reachable c m → m_users m !! uid = Some u →
  ∃ d, user_elect_display uid m = Some (tt, with_display m uid u d) ∧
    good_display m u (u_sessions u) d.
Proof.
  intros Hc Hm Hu. pose proof (wf_links_agree m (reachable_wf c m Hc Hm)) as Hl.
  destruct (wp_run _ _ _ (wp_user_elect_display m uid u Hl Hu)) as ([]&m'&H&d&->&?). eauto.
Qed.
Lemma elected_display_is_best_witness :
  ∃ u, m_users sample_busy !! 1001 = Some u ∧
  ∃ d, user_elect_display 1001 sample_busy = Some (tt, with_display sample_busy 1001 u d) ∧
    good_display sample_busy u (u_sessions u) d.
Proof.
  eexists. split; [vm_compute; reflexivity|].
  eapply (elected_display_is_best sample_config);
    [apply sample_sane|apply sample_busy_reachable|vm_compute; reflexivity].
Defined.

(** * The state of a user *)

(** The state of a session as a function of the manager, and the session's part
    in the state of its user. *)
Definition state_of (m : manager) (sid : string) : option SessionState := fst <$> session_get_state sid m.
Definition pins (m : manager) (sid : string) : bool :=
  match m_sessions m !! sid with Some s => SESSION_CLASS_PIN_USER (s_class s) | None => false end.
Definition active_pinning (m : manager) (sid : string) : bool :=
  pins m sid && bool_decide (state_of m sid = Some SESSION_ACTIVE).
Definition closing_or_ignored (m : manager) (mode : UserGCMode) (sid : string) : bool :=
  (bool_decide (mode = USER_GC_BY_PIN) && negb (pins m sid))
  || bool_decide (state_of m sid = Some SESSION_CLOSING).

(** The state of a user by the sessions it has, without a loop: one active
    session that pins the user makes it active; otherwise lingering counts,
    and then whether all sessions that count are closing. *)
Definition user_state_of {E : Env} (m : manager) (u : user) : UserState :=
  if u_stopping u then USER_CLOSING
  else if negb (u_started u) then USER_OPENING
  else if existsb (active_pinning m) (u_sessions u) then USER_ACTIVE
  else if 0 <? user_check_linger_file u then USER_LINGERING
  else if forallb (closing_or_ignored m (u_gc_mode u)) (u_sessions u) then USER_CLOSING
  else USER_ONLINE.

Section UserState.
Context {E : Env}.

Lemma session_get_state_reads m sid :
  links_agree m → is_Some (m_sessions m !! sid) → ∃ st, session_get_state sid m = Some (st, m).
Proof.
  intros Hl [s Hs]. apply (session_state_run m sid s Hs). intros k Ek.
  destruct (session_on_seat _ Hl _ _ _ Hs Ek) as (t&Ht&_). eauto.
Qed.

Lemma user_state_loop_run m mode b l :
  links_agree m → (∀ i, i ∈ l → is_Some (m_sessions m !! i)) →
  user_state_loop mode b l m =
    Some (if existsb (active_pinning m) l then inl USER_ACTIVE
          else inr (b && forallb (closing_or_ignored m mode) l), m).
Proof.
  intros Hl. revert b. induction l as [|i l IH]; intros b Hin; cbn [user_state_loop existsb forallb].
  { by rewrite andb_true_r. }
  destruct (Hin i ltac:(left)) as [s Hs].
  assert (Hin' : ∀ j, j ∈ l → is_Some (m_sessions m !! j)) by (intros; apply Hin; by right).
  destruct (session_get_state_reads m i Hl (mk_is_Some _ _ Hs)) as [st Hst].
  assert (Est : state_of m i = Some st) by (unfold state_of; by rewrite Hst).
  assert (Ep : pins m i = SESSION_CLASS_PIN_USER (s_class s)) by (unfold pins; by rewrite Hs).
  unfold bind at 1, get_session at 1, gets, bind at 1. rewrite Hs. cbn [deref ret].
  unfold active_pinning at 1, closing_or_ignored at 1. rewrite Ep, Est.
  assert (Hd : ∀ st', bool_decide (Some st = Some st') = bool_decide (st = st')).
  { intros st'. apply bool_decide_ext. split; congruence. }
  rewrite !Hd. set (A := bool_decide (st = SESSION_ACTIVE)). set (C := bool_decide (st = SESSION_CLOSING)).
  destruct (SESSION_CLASS_PIN_USER (s_class s)), (bool_decide (mode = USER_GC_BY_PIN));
    cbn [negb andb orb]; unfold bind; rewrite ?Hst; rewrite ?IH by done; fold A C;
    destruct A, C; cbn [andb orb]; rewrite ?IH by done; rewrite ?andb_false_r; reflexivity.
Qed.
End UserState.

(** C33: the loop of user_get_state(), with its early return and its flag,
    computes this rule, which is the code's: active with an active session that
    pins the user, else lingering when the linger file is there, else closing when
    every session that counts is closing, else online. So a user with a linger
    file whose sessions are all in the background is lingering, logged in or not:
    sd_uid_get_state(3) ("lingering: user not logged in") and the comment at the
    loop (lingering is for users without pinning sessions) say otherwise. *)
Theorem user_get_state_follows_its_rule c m (E : Env) uid u :
  sane c → reachable c m → m_users m !! uid = Some u →
  user_get_state uid m = Some (user_state_of m u, m) ∧
  (u_stopping u = false → u_started u = true → 0 < user_check_linger_file u →
   (∀ i, i ∈ u_sessions u → state_of m i = Some SESSION_ONLINE) → user_state_of m u = USER_LINGERING).
Proof.
  intros Hc Hm Hu. pose proof (wf_links_agree m (reachable_wf c m Hc Hm)) as Hl. split.
  2: { intros Hst Hs Hlinger Hon. unfold user_state_of. rewrite Hst, Hs. cbn [negb].
       rewrite (proj2 (Z.ltb_lt _ _) Hlinger). destruct (existsb _ _) eqn:Ee; [|done].
       apply existsb_exists in Ee as (i&Hi%list_elem_of_In&[_ Ha]%andb_prop). rewrite (Hon i Hi) in Ha. done. }
  unfold user_get_state, user_state_of. unfold bind at 1, get_user, gets, bind at 1. rewrite Hu. cbn [deref ret].
  destruct (u_stopping u); [done|]. destruct (negb (u_started u)); [done|].
  unfold bind. rewrite (user_state_loop_run m _ true); [|done|].
  - destruct (existsb _ _); [done|]. cbn [andb]. destruct (0 <? _); [done|]. by destruct (forallb _ _).
  - intros i Hi. destruct (user_has_sessions _ Hl _ _ _ Hu Hi) as (s&Hs&_). eauto.
Qed.
Lemma user_get_state_follows_its_rule_witness :
  ∃ u, m_users sample_busy !! 1000 = Some u ∧
  @user_get_state sample_env 1000 sample_busy = Some (@user_state_of sample_env sample_busy u, sample_busy).
Proof.
  eexists. split; [vm_compute; reflexivity|].
  apply (user_get_state_follows_its_rule sample_config);
    [apply sample_sane|apply sample_busy_reachable|vm_compute; reflexivity].
Defined.

(** * The idle hint of a user *)

(** What a session that can idle says: whether it is idle, and since when it is
    what it is; [None] for a class that cannot idle. *)
Definition idle_of {E : Env} (m : manager) (sid : string) : option (bool * dual_timestamp) :=
  match m_sessions m !! sid with
  | None => None
  | Some s => if SESSION_CLASS_CAN_IDLE (s_class s)
              then fst <$> session_get_idle_hint sid DUAL_TIMESTAMP_NULL m else None
  end.

(** The answer to [user_get_idle_hint] for the sessions [l]: idle when all are,
    since the last became idle; else busy, since the first became busy. *)
Definition idle_answer {E : Env} (m : manager) (l : list string) (hint : bool) (ts : dual_timestamp) : Prop :=
  if hint then
    ∀ sid b k, sid ∈ l → idle_of m sid = Some (b, k) → b = true ∧ monotonic k ≤ monotonic ts
  else
    (∃ sid, sid ∈ l ∧ idle_of m sid = Some (false, ts)) ∧
    ∀ sid k, sid ∈ l → idle_of m sid = Some (false, k) → monotonic ts ≤ monotonic k.

Section IdleHint.
Context {E : Env}.

(** A session that can idle answers the same whatever the caller passes. *)
Lemma session_get_idle_hint_run m sid s t :
  m_sessions m !! sid = Some s → SESSION_CLASS_CAN_IDLE (s_class s) = true →
  ∃ b k, session_get_idle_hint sid t m = Some ((b, k), m) ∧ idle_of m sid = Some (b, k).
Proof.
  intros Hs Hi. unfold idle_of. rewrite Hs, Hi. unfold session_get_idle_hint, get_session, bind, gets.
  rewrite Hs. cbn [deref ret]. rewrite Hi. cbn [negb].
  destruct (SESSION_TYPE_IS_GRAPHICAL _); [by do 2 eexists|].
  destruct (session_tty_atime s); by do 2 eexists.
Qed.

(** The step of the loop on the answers alone. *)
Definition idle_step (hint : bool) (ts : dual_timestamp) (o : option (bool * dual_timestamp))
  : bool * dual_timestamp :=
  match o with
  | None => (hint, ts)
  | Some (false, k) => (false, if hint then k else if monotonic k <? monotonic ts then k else ts)
  | Some (true, k) => (hint, if hint then (if monotonic ts <? monotonic k then k else ts) else ts)
  end.

Lemma idle_answer_step m l hint ts sid :
  idle_answer m l hint ts →
  let '(hint', ts') := idle_step hint ts (idle_of m sid) in idle_answer m (l ++ [sid]) hint' ts'.
Proof.
  intros Ha. destruct (idle_of m sid) as [[[] k]|] eqn:Eo; destruct hint; cbn [idle_step idle_answer] in *.
  - intros i b k' [Hi| ->%list_elem_of_singleton]%elem_of_app Hk.
    + destruct (Ha i b k' Hi Hk). split; [done|]. destruct (_ <? _) eqn:El; lia.
    + rewrite Eo in Hk. injection Hk as <- <-. split; [done|]. destruct (_ <? _) eqn:El; lia.
  - destruct Ha as [(j&Hj&Hjk) Ha]. split; [exists j; split; [by apply elem_of_app; left|done]|].
    intros i k' [Hi| ->%list_elem_of_singleton]%elem_of_app Hk; [by eapply Ha|congruence].
  - split; [exists sid; split; [apply elem_of_app; right; left|done]|].
    intros i k' [Hi| ->%list_elem_of_singleton]%elem_of_app Hk; [by destruct (Ha i false k' Hi Hk)|].
    rewrite Eo in Hk. by simplify_eq.
  - destruct Ha as [(j&Hj&Hjk) Ha]. split.
    + destruct (_ <? _); [exists sid|exists j]; (split; [apply elem_of_app|done]); [right; left|by left].
    + intros i k' [Hi| ->%list_elem_of_singleton]%elem_of_app Hk.
      * specialize (Ha i k' Hi Hk). destruct (_ <? _) eqn:El; lia.
      * rewrite Eo in Hk. injection Hk as <-. destruct (_ <? _) eqn:El; lia.
  - intros i b k' [Hi| ->%list_elem_of_singleton]%elem_of_app Hk; [by eapply Ha|congruence].
  - destruct Ha as [(j&Hj&Hjk) Ha]. split; [exists j; split; [by apply elem_of_app; left|done]|].
    intros i k' [Hi| ->%list_elem_of_singleton]%elem_of_app Hk; [by eapply Ha|congruence].
Qed.

Lemma wp_user_idle_step m hint ts sid Q :
  is_Some (m_sessions m !! sid) → Q (idle_step hint ts (idle_of m sid)) m →
  wp (user_idle_step (hint, ts) sid) Q m.
Proof.
  intros [s Hs] HQ. unfold user_idle_step. apply wp_bind. eapply wp_get_session; [exact Hs|].
  destruct (SESSION_CLASS_CAN_IDLE (s_class s)) eqn:Ei; cbn [negb].
  - destruct (session_get_idle_hint_run m sid s e_uninit_timestamp Hs Ei) as (b&k&Hr&Ho).
    apply wp_bind. eapply wp_intro; [exact Hr|]. apply wp_ret. rewrite Ho in HQ. by destruct b, hint.
  - apply wp_ret. unfold idle_of in HQ. by rewrite Hs, Ei in HQ.
Qed.

Lemma wp_user_get_idle_hint m uid u :
  links_agree m → m_users m !! uid = Some u →
  wp (user_get_idle_hint uid)
    (λ r m', m' = m ∧ idle_answer m (u_sessions u) (fst r) (snd r)) m.
Proof.
  intros Hl Hu. unfold user_get_idle_hint. apply wp_bind. eapply wp_get_user; [done|].
  set (I := λ (r : bool * dual_timestamp) (l : list string) (m' : manager),
    m' = m ∧ ∃ pre, u_sessions u = pre ++ l ∧ idle_answer m pre (fst r) (snd r)).
  eapply wp_mono; [apply (wp_fold_m _ I)|].
  - split; [done|]. exists []. split; [done|]. by intros ? ? ? ?%elem_of_nil.
  - intros [h t] sid l m' (->&pre&Epre&Ha). apply wp_user_idle_step.
    + destruct (user_has_sessions _ Hl _ _ sid Hu) as (s&Hs&_); [|eauto].
      rewrite Epre. apply elem_of_app. right. left.
    + split; [done|]. exists (pre ++ [sid]). split; [by rewrite <-app_assoc|].
      pose proof (idle_answer_step m pre h t sid Ha) as Hs. by destruct (idle_step _ _ _).
  - intros r m' (->&pre&Epre&Ha). rewrite app_nil_r in Epre. by subst pre.
Qed.
End IdleHint.

(** The idle hint of a user is the conjunction of the hints of the sessions
    that can idle, and its time is the right one of theirs: of an idle user the
    time at which the last of them became idle, of a busy user the time at which
    the first became busy, which is the time of one of its busy sessions. *)
Theorem user_idle_hint_summarises_sessions c m (E : Env) uid u :
  sane c → reachable c m → m_users m !! uid = Some u →
  ∃ hint ts, user_get_idle_hint uid m = Some ((hint, ts), m) ∧ idle_answer m (u_sessions u) hint ts.
Proof.
  intros Hc Hm Hu. pose proof (wf_links_agree m (reachable_wf c m Hc Hm)) as Hl.
  destruct (wp_run _ _ _ (wp_user_get_idle_hint m uid u Hl Hu)) as ([h t]&m'&H&->&?). eauto.
Qed.
Lemma user_idle_hint_summarises_sessions_witness :
  ∃ u, m_users sample_busy !! 1000 = Some u ∧
  ∃ hint ts, @user_get_idle_hint sample_env 1000 sample_busy = Some ((hint, ts), sample_busy) ∧
    @idle_answer sample_env sample_busy (u_sessions u) hint ts.
Proof.
  eexists. split; [vm_compute; reflexivity|].
  eapply (user_idle_hint_summarises_sessions sample_config);
    [apply sample_sane|apply sample_busy_reachable|vm_compute; reflexivity].
Defined.

(** A finding: the idle hint of a seat is computed from a variable that was never
    written: for a seat whose only session is of a class that cannot idle
    (a background session's, say), session_get_idle_hint() says "not
    idle" without storing a time, and seat_get_idle_hint(), which unlike
    user_get_idle_hint() does not skip such sessions, returns what happened to
    be in [k]. *)
Theorem seat_idle_hint_reads_uninitialised (E : Env) m k t sid s :
  m_seats m !! k = Some t → se_sessions t = [sid] → m_sessions m !! sid = Some s →
  SESSION_CLASS_CAN_IDLE (s_class s) = false →
  seat_get_idle_hint k m = Some ((false, e_uninit_timestamp), m).
Proof.
  intros Ht Hl Hs Hi. unfold seat_get_idle_hint, get_seat, bind at 1, bind at 1, gets. rewrite Ht.
  cbn [deref ret]. rewrite Hl. cbn [fold_m seat_idle_step].
  unfold session_get_idle_hint, get_session, bind, gets. rewrite Hs. cbn [deref ret]. by rewrite Hi.
Qed.
Lemma seat_idle_hint_reads_uninitialised_witness :
  let background := mkCreateArgs 1000 100 (-1) "gdm" "x11" "background" "" "seat0" 0 "" ":0" false "" "" 0 in
  let m := run [SeatDevice sample_card; ManagerMethod (CreateSession background) root_message] sample_started in
  @seat_get_idle_hint sample_env "seat0" m = Some ((false, @e_uninit_timestamp sample_env), m).
Proof.
  intros background m. eapply (seat_idle_hint_reads_uninitialised sample_env m "seat0" _ "c1");
    [vm_compute; reflexivity|reflexivity|vm_compute; reflexivity|reflexivity].
Defined.
