(* ===== verification/SeatFacts.v ===== *)
(** Seats: which session the "next" and "previous" switches choose, and which
    position a session gets and gives up. *)
From S2P Require Import Prelude Time LoginTypes ActionTypes LoginState LoginEnv Bus Objects SessionDevice Seat Device User Session Lifecycle SessionBus ManagerBus Events Cols Links LinksObjects LinksPositions LinksRun LinksBoot Partial Sample Safety.

(** * Switching *)

Lemma first_occupied_app s l l' :
  first_occupied s (l ++ l') =
    match first_occupied s l with Some sid => Some sid | None => first_occupied s l' end.
Proof. induction l as [|p l IH]; cbn; [done|]. by destruct (seat_get_position s p). Qed.

Lemma up_from_cons lo hi : lo < hi → up_from lo hi = lo :: up_from (lo + 1) hi.
Proof. intros H. unfold up_from. rewrite seqZ_cons by lia. do 2 f_equal; lia. Qed.
Lemma up_from_nil lo hi : hi ≤ lo → up_from lo hi = [].
Proof. intros H. unfold up_from. by rewrite seqZ_nil by lia. Qed.
Lemma down_from_cons hi lo : lo < hi → down_from hi lo = hi :: down_from (hi - 1) lo.
Proof.
  intros H. unfold down_from. replace (hi - lo) with (Z.succ (hi - 1 - lo)) by lia.
  rewrite <-(Z2Nat.id (hi - 1 - lo)) by lia. rewrite <-Nat2Z.inj_succ, seqZ_S, rev_app_distr.
  cbn. f_equal. lia.
Qed.
Lemma down_from_nil hi lo : hi ≤ lo → down_from hi lo = [].
Proof. intros H. unfold down_from. by rewrite seqZ_nil by lia. Qed.

(** The loops over a range find the first occupied position, in their order. *)
Lemma first_occupied_up s lo hi :
  match first_occupied s (up_from lo hi) with
  | Some sid => ∃ p, lo ≤ p < hi ∧ seat_get_position s p = Some sid ∧
      ∀ q, lo ≤ q < p → seat_get_position s q = None
  | None => ∀ q, lo ≤ q < hi → seat_get_position s q = None
  end.
Proof.
  remember (Z.to_nat (hi - lo)) as n eqn:En. revert lo En. induction n as [|n IH]; intros lo En.
  { rewrite up_from_nil by lia. cbn. intros; lia. }
  rewrite up_from_cons by lia. cbn [first_occupied].
  destruct (seat_get_position s lo) as [sid|] eqn:El; [exists lo; split_and!; [lia|lia|done|intros; lia]|].
  specialize (IH (lo + 1) ltac:(lia)). destruct (first_occupied s _) as [sid|].
  - destruct IH as (p&?&?&Hq). exists p. split_and!; [lia|lia|done|]. intros q ?.
    destruct (decide (q = lo)) as [->|]; [done|]. apply Hq. lia.
  - intros q ?. destruct (decide (q = lo)) as [->|]; [done|]. apply IH. lia.
Qed.
Lemma first_occupied_down s hi lo :
  match first_occupied s (down_from hi lo) with
  | Some sid => ∃ p, lo < p ≤ hi ∧ seat_get_position s p = Some sid ∧
      ∀ q, p < q ≤ hi → seat_get_position s q = None
  | None => ∀ q, lo < q ≤ hi → seat_get_position s q = None
  end.
Proof.
  remember (Z.to_nat (hi - lo)) as n eqn:En. revert hi En. induction n as [|n IH]; intros hi En.
  { rewrite down_from_nil by lia. cbn. intros; lia. }
  rewrite down_from_cons by lia. cbn [first_occupied].
  destruct (seat_get_position s hi) as [sid|] eqn:El; [exists hi; split_and!; [lia|lia|done|intros; lia]|].
  specialize (IH (hi - 1) ltac:(lia)). destruct (first_occupied s _) as [sid|].
  - destruct IH as (p&?&?&Hq). exists p. split_and!; [lia|lia|done|]. intros q ?.
    destruct (decide (q = hi)) as [->|]; [done|]. apply Hq. lia.
  - intros q ?. destruct (decide (q = hi)) as [->|]; [done|]. apply IH. lia.
Qed.

(** How many steps it takes from position [start] to [q], upwards or downwards,
    around the [n] positions. *)
Definition steps (up : bool) (n start q : Z) : Z :=
  if up then (q - start) mod n else (start - q) mod n.

Lemma steps_up n start q : 1 ≤ start < n → 1 ≤ q < n →
  steps true n start q = if start <=? q then q - start else q - start + n.
Proof.
  intros. unfold steps. destruct (start <=? q) eqn:E.
  - rewrite Z.mod_small; lia.
  - rewrite <-(Z.mod_add _ 1) by lia. rewrite Z.mod_small; lia.
Qed.
Lemma steps_down n start q : 1 ≤ start < n → 1 ≤ q < n →
  steps false n start q = if q <=? start then start - q else start - q + n.
Proof.
  intros. unfold steps. destruct (q <=? start) eqn:E.
  - rewrite Z.mod_small; lia.
  - rewrite <-(Z.mod_add _ 1) by lia. rewrite Z.mod_small; lia.
Qed.

(** [sid] is in the occupied position nearest to [start], in one direction. *)
Definition nearest (up : bool) (s : seat) (start : Z) (sid : string) : Prop :=
  let n := Z.of_nat (length (se_positions s)) in
  ∃ p, 1 ≤ p < n ∧ p ≠ start ∧ seat_get_position s p = Some sid ∧
    ∀ q other, 1 ≤ q < n → q ≠ start → seat_get_position s q = Some other →
      steps up n start p ≤ steps up n start q.

Lemma next_is_nearest s start :
  let n := Z.of_nat (length (se_positions s)) in
  1 ≤ start < n →
  match first_occupied s (up_from (start + 1) n ++ up_from 1 start) with
  | Some sid => nearest true s start sid
  | None => ∀ q, 1 ≤ q < n → q ≠ start → seat_get_position s q = None
  end.
Proof.
  intros n Hs. rewrite first_occupied_app. pose proof (first_occupied_up s (start + 1) n) as H1.
  pose proof (first_occupied_up s 1 start) as H2.
  destruct (first_occupied s (up_from (start + 1) n)) as [sid|].
  - destruct H1 as (p&Hp&Hsid&Hq). exists p. fold n. split_and!; [lia|lia|lia|done|].
    intros q o Hq1 Hne Ho. rewrite !steps_up by lia.
    destruct (start <=? p) eqn:Ep; [|lia]. destruct (start <=? q) eqn:Eq; [|lia].
    destruct (decide (q < p)); [|lia]. rewrite Hq in Ho by lia. done.
  - destruct (first_occupied s (up_from 1 start)) as [sid|].
    + destruct H2 as (p&Hp&Hsid&Hq). exists p. fold n. split_and!; [lia|lia|lia|done|].
      intros q o Hq1 Hne Ho. rewrite !steps_up by lia.
      destruct (start <=? q) eqn:Eq; [rewrite H1 in Ho by lia; done|].
      destruct (start <=? p) eqn:Ep; [lia|].
      destruct (decide (q < p)); [|lia]. rewrite Hq in Ho by lia. done.
    + intros q Hq Hne. destruct (decide (q < start)); [apply H2|apply H1]; lia.
Qed.
Lemma previous_is_nearest s start :
  let n := Z.of_nat (length (se_positions s)) in
  1 ≤ start < n →
  match first_occupied s (down_from (start - 1) 0 ++ down_from (n - 1) start) with
  | Some sid => nearest false s start sid
  | None => ∀ q, 1 ≤ q < n → q ≠ start → seat_get_position s q = None
  end.
Proof.
  intros n Hs. rewrite first_occupied_app. pose proof (first_occupied_down s (start - 1) 0) as H1.
  pose proof (first_occupied_down s (n - 1) start) as H2.
  destruct (first_occupied s (down_from (start - 1) 0)) as [sid|].
  - destruct H1 as (p&Hp&Hsid&Hq). exists p. fold n. split_and!; [lia|lia|lia|done|].
    intros q o Hq1 Hne Ho. rewrite !steps_down by lia.
    destruct (p <=? start) eqn:Ep; [|lia]. destruct (q <=? start) eqn:Eq; [|lia].
    destruct (decide (p < q)); [|lia]. rewrite Hq in Ho by lia. done.
  - destruct (first_occupied s (down_from (n - 1) start)) as [sid|].
    + destruct H2 as (p&Hp&Hsid&Hq). exists p. fold n. split_and!; [lia|lia|lia|done|].
      intros q o Hq1 Hne Ho. rewrite !steps_down by lia.
      destruct (q <=? start) eqn:Eq; [rewrite H1 in Ho by lia; done|].
      destruct (p <=? start) eqn:Ep; [lia|].
      destruct (decide (p < q)); [|lia]. rewrite Hq in Ho by lia. done.
    + intros q Hq Hne. destruct (decide (q < start)); [apply H1|apply H2]; lia.
Qed.

(** C15: SwitchToNext and SwitchToPrevious go to the nearest session: of the
    occupied positions other than the one of the active session (position 1
    when there is none), they activate the session in the one that is the fewest
    steps away in their direction, going around at the end of the table; when
    there is no other, they fail with EINVAL and change nothing. *)
Theorem switch_goes_to_the_nearest (E : Env) m k s start (up : bool) :
  m_seats m !! k = Some s → switch_start s m = Some (start, m) →
  1 ≤ start < Z.of_nat (length (se_positions s)) →
  let r := (if up then seat_switch_to_next k else seat_switch_to_previous k) m in
  (∃ sid, nearest up s start sid ∧ r = session_activate sid m) ∨
  ((∀ q, 1 ≤ q < Z.of_nat (length (se_positions s)) → q ≠ start → seat_get_position s q = None) ∧
   r = Some (- EINVAL, m)).
Proof.
  intros Hk Hst Hs r. subst r.
  assert (Hn : (Z.of_nat (length (se_positions s)) =? 0) = false) by lia.
  destruct up.
  - assert (Hr : seat_switch_to_next k m = match first_occupied s
          (up_from (start + 1) (Z.of_nat (length (se_positions s))) ++ up_from 1 start) with
        | Some sid => session_activate sid | None => ret (- EINVAL) end m).
    { unfold seat_switch_to_next. rewrite (bind_run _ _ _ _ _ (get_seat_run m k s Hk)). cbv zeta.
      rewrite Hn. by rewrite (bind_run _ _ _ _ _ Hst). }
    rewrite Hr. pose proof (next_is_nearest s start Hs) as Hne. cbv zeta in Hne.
    destruct (first_occupied s _) as [sid|]; [left; eauto|right; by split].
  - assert (Hr : seat_switch_to_previous k m = match first_occupied s
          (down_from (start - 1) 0 ++ down_from (Z.of_nat (length (se_positions s)) - 1) start) with
        | Some sid => session_activate sid | None => ret (- EINVAL) end m).
    { unfold seat_switch_to_previous. rewrite (bind_run _ _ _ _ _ (get_seat_run m k s Hk)). cbv zeta.
      rewrite Hn. by rewrite (bind_run _ _ _ _ _ Hst). }
    rewrite Hr. pose proof (previous_is_nearest s start Hs) as Hne. cbv zeta in Hne.
    destruct (first_occupied s _) as [sid|]; [left; eauto|right; by split].
Qed.
Lemma switch_goes_to_the_nearest_witness :
  ∃ s, m_seats sample_busy !! "seat0"%string = Some s ∧
  ((∃ sid, nearest true s 2 sid ∧
      @seat_switch_to_next sample_env "seat0" sample_busy = @session_activate sample_env sid sample_busy) ∨
   ((∀ q, 1 ≤ q < Z.of_nat (length (se_positions s)) → q ≠ 2 → seat_get_position s q = None) ∧
    @seat_switch_to_next sample_env "seat0" sample_busy = Some (- EINVAL, sample_busy))).
Proof.
  eexists. split; [vm_compute; reflexivity|].
  apply (switch_goes_to_the_nearest sample_env sample_busy "seat0" _ 2 true);
    [vm_compute; reflexivity|vm_compute; reflexivity|split; vm_compute; congruence].
Defined.

(** * Positions *)

(** The first position that a table leaves free, from 1 on. *)
Lemma first_free_spec ps p :
  (p ≤ first_free ps p)%nat ∧
  (∀ i, (i < first_free ps p - p)%nat → ∃ sid, ps !! i = Some (Some sid)) ∧
  (ps !! (first_free ps p - p)%nat = Some None ∨ first_free ps p = (p + length ps)%nat).
Proof.
  revert p. induction ps as [|[sid|] ps IH]; intros p; cbn [first_free length].
  - split_and!; [done|intros; lia|right; lia].
  - destruct (IH (S p)) as (Hle&Hocc&Hend). split_and!; [lia| |].
    + intros [|i] Hi; [eauto|]. apply Hocc. lia.
    + destruct Hend as [Hend|Hend]; [left|right; lia].
      by replace (first_free ps (S p) - p)%nat with (S (first_free ps (S p) - S p)) by lia.
  - split_and!; [done|intros; lia|left]. by rewrite Nat.sub_diag.
Qed.
Lemma free_position_spec ps :
  let p := free_position ps in
  1 ≤ p ∧ (∀ q, 1 ≤ q < p → ∃ sid, ps !! Z.to_nat q = Some (Some sid)) ∧
  (ps !! Z.to_nat p = Some None ∨ ps !! Z.to_nat p = None).
Proof.
  unfold free_position. cbv zeta. destruct (first_free_spec (drop 1 ps) 1) as (Hle&Hocc&Hend).
  split_and!; [lia| |].
  - intros q Hq. destruct (Hocc (Z.to_nat q - 1)%nat ltac:(lia)) as (sid&Hs). exists sid.
    rewrite lookup_drop in Hs. by replace (1 + (Z.to_nat q - 1))%nat with (Z.to_nat q) in Hs by lia.
  - rewrite Nat2Z.id. destruct Hend as [Hend|Hend].
    + left. rewrite lookup_drop in Hend. by replace (1 + (first_free (drop 1 ps) 1 - 1))%nat with (first_free (drop 1 ps) 1) in Hend by lia.
    + right. apply lookup_ge_None. rewrite Hend, length_drop. lia.
Qed.

Lemma seat_has_vts_run m k : seat_has_vts k m = Some (bool_decide (m_seat0 m = Some k) && (0 <=? m_console_active_fd m), m).
Proof. reflexivity. Qed.

Section Assign.
Context {E : Env} {Ok : EnvOk}.

(** What [m'] has after session [sid] got position [p] of seat [k]. *)
Record got_position (m m' : manager) (k sid : string) (t : seat) (p : Z) : Prop := {
  gp_field : field s_position sid m' = Some p;
  gp_table : ∃ t', m_seats m' !! k = Some t' ∧ se_positions t' !! Z.to_nat p = Some (Some sid) ∧
    ∀ q, q ≠ p → 0 ≤ q → seat_get_position t' q = seat_get_position t q;
}.

Lemma get_position_lookup t p : 0 ≤ p → seat_get_position t p = mjoin (se_positions t !! Z.to_nat p).
Proof.
  intros Hp. unfold seat_get_position. destruct (_ <=? _) eqn:El; [|done].
  rewrite lookup_ge_None_2; [done|]. lia.
Qed.

(** The table of seat [t] has an entry for position [p], or memory for one. *)
Definition has_room (t : seat) (p : Z) : Prop :=
  p < Z.of_nat (length (se_positions t)) ∨ e_usable (Z.max (2 * (p + 1)) 8) ≠ None.

Lemma room_is_made ps p : 1 ≤ p →
  greedy_realloc0 ps (p + 1) = None ↔ ¬ (p < Z.of_nat (length ps)) ∧ e_usable (Z.max (2 * (p + 1)) 8) = None.
Proof.
  intros Hp. unfold greedy_realloc0. cbv zeta. destruct (negb _ && _) eqn:E0.
  - apply andb_prop in E0 as [_ H%Z.leb_le]. split; [done|]. intros [? _]. lia.
  - assert (¬ (p < Z.of_nat (length ps))) by (apply andb_false_iff in E0 as [E0|E0]; lia).
    destruct (e_usable _); naive_solver.
Qed.

(** A session without a position gets the first free one exactly when the table
    has room for it; otherwise nothing changes. *)
Lemma wp_assign_position m k sid x t :
  m_sessions m !! sid = Some x → s_position x = 0 → m_seats m !! k = Some t →
  m_seat0 m ≠ Some k ∨ m_console_active_fd m < 0 → free_position (se_positions t) + 1 < 2 ^ 32 →
  wp (seat_assign_position k sid) (λ _ m',
    (has_room t (free_position (se_positions t)) → got_position m m' k sid t (free_position (se_positions t))) ∧
    (¬ has_room t (free_position (se_positions t)) → m' = m)) m.
Proof.
  intros Hx Hpos Ht Hvt Hroom. destruct (free_position_spec (se_positions t)) as (Hp1&_&_).
  set (p := free_position (se_positions t)) in *.
  unfold seat_assign_position. apply wp_bind. eapply wp_get_session; [exact Hx|]. rewrite Hpos. cbn [Z.ltb Z.compare].
  apply wp_bind. eapply wp_get_seat; [exact Ht|]. fold p.
  unfold seat_claim_position. apply wp_bind. eapply wp_intro; [apply seat_has_vts_run|].
  assert (Hno : bool_decide (m_seat0 m = Some k) && (0 <=? m_console_active_fd m) = false).
  { destruct Hvt; [by rewrite bool_decide_false|]. rewrite (proj2 (Z.leb_gt _ _)) by done. apply andb_false_r. }
  rewrite Hno. apply wp_bind. eapply wp_get_session; [exact Hx|]. cbv zeta.
  apply wp_bind. eapply wp_get_seat; [exact Ht|].
  assert (Hu : u32 (p + 1) = p + 1) by (unfold u32; rewrite Z.mod_small; lia). rewrite Hu.
  pose proof (room_is_made (se_positions t) p ltac:(done)) as Hnoroom.
  destruct (greedy_realloc0 (se_positions t) (p + 1)) as [ps|] eqn:Eg.
  2: { apply wp_ret. destruct (proj1 Hnoroom eq_refl) as [Hn1 Hn2]. split; [|done].
       intros [?|Hu2]; [done|by rewrite Hn2 in Hu2]. }
  destruct (greedy_realloc0_spec _ _ _ Eg) as (Hlen&n&->). set (ps := se_positions t ++ _) in *.
  apply wp_bind. eapply wp_upd_seat; [exact Ht|]. apply wp_bind. unfold seat_evict_position.
  apply wp_bind. eapply wp_get_session; [exact Hx|]. cbv zeta. rewrite Hpos.
  apply wp_bind. eapply wp_upd_session; [exact Hx|]. cbn [Z.eqb]. apply wp_ret.
  apply wp_bind. eapply wp_upd_session; [apply lookup_insert_eq|].
  rewrite (proj2 (Z.ltb_lt 0 p)) by lia. cbn [when].
  unfold set_position. apply wp_bind. eapply wp_get_seat; [apply lookup_insert_eq|].
  cbn [se_positions upd].
  rewrite (proj2 (Z.leb_le 0 p)), (proj2 (Z.ltb_lt p _)) by lia. cbn [andb].
  eapply wp_upd_seat; [apply lookup_insert_eq|]. split.
  2: { intros Hnr. exfalso. assert (Hx0 : Some ps = None); [|discriminate Hx0]. apply Hnoroom. unfold has_room in Hnr.
       split; [tauto|]. destruct (e_usable _); [|done]. exfalso. apply Hnr. by right. }
  intros _. constructor.
  - unfold field; cbn. by rewrite lookup_insert_eq.
  - eexists. split; [cbn; apply lookup_insert_eq|]. cbn [se_positions upd]. split.
    + apply list_lookup_insert_eq. lia.
    + intros q Hq H0. rewrite !get_position_lookup by lia. cbn [se_positions upd].
      rewrite list_lookup_insert_ne by lia. unfold ps.
      destruct (decide (Z.to_nat q < length (se_positions t))%nat).
      * by rewrite lookup_app_l.
      * rewrite lookup_app_r, (lookup_ge_None_2 (se_positions t)) by lia.
        destruct (replicate _ _ !! _) as [o|] eqn:Eo; [|done]. by apply lookup_replicate in Eo as [-> _].
Qed.
End Assign.

(** C13: on a seat without virtual terminals a session without a position gets
    the first free one: 1 is the smallest, every smaller position is taken,
    the one it gets was free, its entry of the table names it, and nobody else's
    entry changes, also when the table had to grow. It gets it whenever the table
    has an entry for it or can be given one; only when the table would have to
    grow and there is no memory for it, nothing changes. *)
Theorem assign_takes_first_free_position (E : Env) m k sid x t :
  EnvOk → m_sessions m !! sid = Some x → s_position x = 0 → m_seats m !! k = Some t →
  m_seat0 m ≠ Some k ∨ m_console_active_fd m < 0 → free_position (se_positions t) + 1 < 2 ^ 32 →
  let p := free_position (se_positions t) in
  (∃ m', seat_assign_position k sid m = Some (tt, m') ∧
     (has_room t p → got_position m m' k sid t p) ∧ (¬ has_room t p → m' = m)) ∧
  1 ≤ p ∧ seat_get_position t p = None ∧ ∀ q, 1 ≤ q < p → seat_get_position t q ≠ None.
Proof.
  intros Ok Hx Hpos Ht Hvt Hroom p. destruct (free_position_spec (se_positions t)) as (Hp1&Hocc&Hfree).
  split_and!; [|done| |].
  - destruct (wp_run _ _ _ (wp_assign_position m k sid x t Hx Hpos Ht Hvt Hroom)) as ([]&m'&?&?&?). eauto.
  - rewrite get_position_lookup by (fold p in Hp1; lia). unfold p. by destruct Hfree as [->| ->].
  - intros q Hq. destruct (Hocc q Hq) as (s&Hs). rewrite get_position_lookup by lia. by rewrite Hs.
Qed.
Lemma assign_takes_first_free_position_witness :
  let m := after (upd_session "c1" (λ s, s <| s_position := 0 |>)) sample_busy in
  ∃ t, m_seats m !! "seat0"%string = Some t ∧ @has_room sample_env t (free_position (se_positions t)) ∧
  let p := free_position (se_positions t) in
  (∃ m', @seat_assign_position sample_env "seat0" "c1" m = Some (tt, m') ∧
     (@has_room sample_env t p → got_position m m' "seat0" "c1" t p) ∧ (¬ @has_room sample_env t p → m' = m)) ∧
  1 ≤ p ∧ seat_get_position t p = None ∧ ∀ q, 1 ≤ q < p → seat_get_position t q ≠ None.
Proof.
  intros m. eexists. split; [vm_compute; reflexivity|]. split; [left; vm_compute; reflexivity|].
  eapply (assign_takes_first_free_position sample_env m "seat0" "c1");
    [apply sample_env_ok|vm_compute; reflexivity|reflexivity|vm_compute; reflexivity|right; reflexivity|reflexivity].
Defined.

Section Evict.

(** A session that claims the position and is not closing. *)
Definition claims (m : manager) (pos : Z) (i : string) : Prop :=
  field s_position i m = Some pos ∧ ∃ st, session_get_state i m = Some (st, m) ∧ st ≠ SESSION_CLOSING.

(** Whether a session is closing depends on two of its own fields only. *)
Lemma not_closing_spec m i s : m_sessions m !! i = Some s →
  (∀ k, s_seat s = Some k → is_Some (m_seats m !! k)) →
  (∃ st, session_get_state i m = Some (st, m) ∧ st ≠ SESSION_CLOSING) ↔
  s_stopping s || is_some (s_timer_event_source s) = false.
Proof.
  intros Hs Hk. destruct (session_state_run m i s Hs Hk) as (st&Hst).
  assert (Hc : st = SESSION_CLOSING ↔ s_stopping s || is_some (s_timer_event_source s) = true).
  { assert (Ha : ∃ b, session_is_active i m = Some (b, m)).
    { unfold session_is_active. rewrite (bind_run _ _ _ _ _ (get_session_run m i s Hs)).
      destruct (s_seat s) as [k|]; [|by eexists]. destruct (Hk k eq_refl) as [t Ht].
      rewrite (bind_run _ _ _ _ _ (get_seat_run m k t Ht)). by eexists. }
    destruct Ha as [b Ha]. revert Hst. unfold session_get_state.
    rewrite (bind_run _ _ _ _ _ (get_session_run m i s Hs)).
    destruct (_ || _); [by intros [= <-]|]. destruct (_ && _); [by intros [= <-]|].
    rewrite (bind_run _ _ _ _ _ Ha). by destruct b; intros [= <-]. }
  split; [intros (st'&Hst'&Hne); rewrite Hst in Hst'; injection Hst' as <-|intros Hf; exists st; split; [done|]].
  - destruct (_ || _); [|done]. by destruct Hne, Hc as [_ ->].
  - rewrite Hf in Hc. intros Hcl. by apply Hc in Hcl.
Qed.

(** The list up to the first claimant: those before it do not claim. *)
Definition first_claimant (m : manager) (pos : Z) (l : list string) (o : option string) : Prop :=
  match o with
  | Some i => ∃ before behind, l = before ++ i :: behind ∧ claims m pos i ∧ ∀ j, j ∈ before → ¬ claims m pos j
  | None => ∀ j, j ∈ l → ¬ claims m pos j
  end.

Lemma find_claimant_run m pos l :
  (∀ i, i ∈ l → ∃ st, session_get_state i m = Some (st, m) ∧ is_Some (m_sessions m !! i)) →
  ∃ o, find_claimant pos l m = Some (o, m) ∧ first_claimant m pos l o.
Proof.
  induction l as [|i l IH]; intros Hin; cbn [find_claimant].
  { exists None. split; [done|]. by intros i ?%elem_of_nil. }
  destruct (Hin i ltac:(left)) as (st&Hst&s&Hs).
  destruct IH as (o&Ho&Hsp); [intros; apply Hin; by right|].
  rewrite (bind_run _ _ _ _ _ (get_session_run m i s Hs)).
  assert (Hskip : ¬ claims m pos i → find_claimant pos l m = Some (o, m) ∧ first_claimant m pos (i :: l) o).
  { intros Hni. split; [done|]. destruct o as [j|].
    - destruct Hsp as (l1&l2& -> &?&Hb). exists (i :: l1), l2. split_and!; [done|done|].
      by intros j' [->|?]%elem_of_cons; [|apply Hb].
    - by intros j' [->|?]%elem_of_cons; [|apply Hsp]. }
  destruct (s_position s =? pos) eqn:Ep.
  - rewrite (bind_run _ _ _ _ _ Hst). case_bool_decide as Ec.
    + exists o. apply Hskip. intros (_&st'&Hst'&Hne). rewrite Hst in Hst'. by injection Hst' as <-.
    + exists (Some i). split; [done|]. exists [], l. split_and!; [done| |by intros j ?%elem_of_nil].
      split; [|by exists st]. apply Z.eqb_eq in Ep. unfold field. rewrite Hs. cbn. by rewrite Ep.
  - exists o. apply Hskip. intros (Hp&_). unfold field in Hp. rewrite Hs in Hp. injection Hp as Hp. lia.
Qed.

(** Who inherits position [p] of seat [t] from session [sid]: the first other
    session in the seat's list that claims it, if there is one. *)
Definition heir (m : manager) (sid : string) (t : seat) (p : Z) (o : option string) : Prop :=
  match o with
  | Some i => i ≠ sid ∧ ∃ before behind, se_sessions t = before ++ i :: behind ∧ claims m p i ∧
      ∀ j, j ∈ before → j ≠ sid → ¬ claims m p j
  | None => ∀ j, j ∈ se_sessions t → j ≠ sid → ¬ claims m p j
  end.

(** What [m'] has after session [sid] lost position [p] of seat [k] in [m]. *)
Record lost_position (m m' : manager) (k sid : string) (t : seat) (p : Z) : Prop := {
  lp_field : field s_position sid m' = Some 0;
  lp_table : ∃ t', m_seats m' !! k = Some t' ∧ heir m sid t p (seat_get_position t' p) ∧
    ∀ q, q ≠ p → 0 ≤ q → seat_get_position t' q = seat_get_position t q;
}.

(** Claims of other sessions do not depend on the position of [sid] and the
    table of the seat. *)
Lemma claims_kept m sid x k t t2 p j :
  links_agree m → m_sessions m !! sid = Some x → m_seats m !! k = Some t →
  j ∈ se_sessions t → j ≠ sid →
  let m2 := m <| m_sessions := <[sid := x <| s_position := 0 |>]> (m_sessions m) |>
              <| m_seats := <[k := t2]> (m_seats m) |> in
  claims m2 p j ↔ claims m p j.
Proof.
  intros Hl Hx Ht Hj Hne m2. destruct (seat_has_sessions _ Hl k t j Ht Hj) as (y&Hy&Hyk).
  assert (Hy2 : m_sessions m2 !! j = Some y) by (cbn; by rewrite lookup_insert_ne).
  assert (Hfp : field s_position j m2 = field s_position j m) by (unfold field; by rewrite Hy, Hy2).
  unfold claims. rewrite Hfp, (not_closing_spec m2 j y Hy2), (not_closing_spec m j y Hy); [done|..].
  - intros k' Hk'. rewrite Hyk in Hk'. injection Hk' as <-. by eexists.
  - intros k' Hk'. rewrite Hyk in Hk'. injection Hk' as <-. exists t2. cbn. apply lookup_insert_eq.
Qed.

Lemma evicted_states m sid x k t t2 :
  links_agree m → m_sessions m !! sid = Some x → m_seats m !! k = Some t →
  let m2 := m <| m_sessions := <[sid := x <| s_position := 0 |>]> (m_sessions m) |>
              <| m_seats := <[k := t2]> (m_seats m) |> in
  ∀ i, i ∈ se_sessions t → ∃ st, session_get_state i m2 = Some (st, m2) ∧ is_Some (m_sessions m2 !! i).
Proof.
  intros Hl Hx Ht m2 i Hi. destruct (seat_has_sessions _ Hl k t i Ht Hi) as (y&Hy&Hyk).
  assert (Hy2 : ∃ y', m_sessions m2 !! i = Some y' ∧ s_seat y' = Some k).
  { cbn. destruct (decide (sid = i)) as [<-|]; [rewrite lookup_insert_eq|rewrite lookup_insert_ne by done].
    - eexists. split; [done|]. cbn. congruence.
    - by exists y. }
  destruct Hy2 as (y'&Hy2&Hk2). destruct (session_state_run m2 i y' Hy2) as (st&Hst); [|eauto].
  intros k' Hk'. rewrite Hk2 in Hk'. injection Hk' as <-. exists t2. cbn. apply lookup_insert_eq.
Qed.

(** The evicted session itself claims nothing any more, so the first claimant of
    the state in which the loop runs is the heir. *)
Lemma heir_of_first m m2 sid t p o :
  field s_position sid m2 = Some 0 → 0 < p →
  (∀ j, j ∈ se_sessions t → j ≠ sid → claims m2 p j ↔ claims m p j) →
  first_claimant m2 p (se_sessions t) o → heir m sid t p o.
Proof.
  intros Hf H0 Hiff. assert (Hno : ¬ claims m2 p sid) by (intros [Hp _]; rewrite Hf in Hp; injection Hp; lia).
  destruct o as [i|]; cbn.
  - intros (l1&l2&El&Hc&Hb). assert (i ≠ sid) by (by intros ->). split; [done|]. exists l1, l2.
    split_and!; [done|apply Hiff; [rewrite El; set_solver|done..]|].
    intros j Hj Hne Hcj. apply (Hb j Hj), Hiff; [rewrite El; set_solver|done..].
  - intros Hn j Hj Hne Hcj. apply (Hn j Hj). by apply Hiff.
Qed.

Lemma wp_evict m k sid x t p :
  links_agree m → m_sessions m !! sid = Some x → s_position x = p → 0 < p → m_seats m !! k = Some t →
  se_positions t !! Z.to_nat p = Some (Some sid) →
  wp (seat_evict_position k sid) (λ _ m', lost_position m m' k sid t p) m.
Proof.
  intros Hl Hx Hp H0 Ht Hsid. unfold seat_evict_position.
  apply wp_bind. eapply wp_get_session; [exact Hx|]. cbv zeta. rewrite Hp.
  apply wp_bind. eapply wp_upd_session; [exact Hx|]. set (m1 := m <| m_sessions := _ |>).
  rewrite (proj2 (Z.eqb_neq p 0)) by lia.
  assert (Ht1 : m_seats m1 !! k = Some t) by done.
  apply wp_bind. eapply wp_get_seat; [exact Ht1|].
  assert (Hlen : (Z.to_nat p < length (se_positions t))%nat) by (by eapply lookup_lt_Some).
  rewrite (proj2 (Z.ltb_lt p _)), bool_decide_true by (lia || done). cbn [andb].
  apply wp_bind. unfold set_position at 1. apply wp_bind. eapply wp_get_seat; [exact Ht1|].
  rewrite (proj2 (Z.leb_le 0 p)), (proj2 (Z.ltb_lt p _)) by lia. cbn [andb].
  eapply wp_upd_seat; [exact Ht1|]. set (t2 := t <| se_positions := _ |>).
  set (m2 := m1 <| m_seats := _ |>).
  assert (Hf : field s_position sid m2 = Some 0) by (unfold field; cbn; by rewrite lookup_insert_eq).
  assert (Ht2 : m_seats m2 !! k = Some t2) by (cbn; apply lookup_insert_eq).
  destruct (find_claimant_run m2 p (se_sessions t2)) as (o&Ho&Hcl); [by apply (evicted_states _ _ _ _ _ _ Hl Hx Ht)|].
  change (se_sessions t2) with (se_sessions t) in *.
  assert (Hheir : heir m sid t p o).
  { apply (heir_of_first m m2 sid t p o Hf H0); [|done]. intros j Hj Hne. by apply (claims_kept m sid x k t). }
  apply wp_bind. eapply wp_intro; [exact Ho|].
  assert (Hother : ∀ q (v : option string), q ≠ p → 0 ≤ q →
    mjoin (<[Z.to_nat p := v]> (se_positions t) !! Z.to_nat q) = mjoin (se_positions t !! Z.to_nat q)).
  { intros q v Hq Hq0. by rewrite list_lookup_insert_ne by lia. }
  destruct o as [i|].
  - unfold set_position. apply wp_bind. eapply wp_get_seat; [exact Ht2|].
    cbn [t2 se_positions upd]. rewrite length_insert.
    rewrite (proj2 (Z.leb_le 0 p)), (proj2 (Z.ltb_lt p _)) by lia. cbn [andb].
    eapply wp_upd_seat; [exact Ht2|]. constructor; [exact Hf|].
    eexists. split; [cbn; apply lookup_insert_eq|]. cbn [se_positions upd t2]. split.
    + rewrite get_position_lookup by lia. cbn [se_positions upd].
      by rewrite list_lookup_insert_eq by (rewrite length_insert; lia).
    + intros q Hq Hq0. rewrite !get_position_lookup by lia. cbn [se_positions upd].
      rewrite list_insert_insert_eq. by apply Hother.
  - apply wp_ret. constructor; [exact Hf|]. exists t2. split; [exact Ht2|]. split.
    + rewrite get_position_lookup by lia. cbn [se_positions upd t2].
      by rewrite list_lookup_insert_eq by lia.
    + intros q Hq Hq0. rewrite !get_position_lookup by lia. cbn [se_positions upd t2]. by apply Hother.
Qed.
End Evict.

(** C14: giving up a position hands it on: after seat_evict_position() of a
    session that holds a position it claims none; the entry of the table names
    the first other session in the seat's list that claims this position and is
    not closing, whenever there is such a session, and is empty only when there
    is none; nobody else's entry has changed. *)
Theorem evicted_position_is_handed_on c m k sid x t p :
  sane c → reachable c m → m_sessions m !! sid = Some x → s_position x = p → 0 < p →
  m_seats m !! k = Some t → se_positions t !! Z.to_nat p = Some (Some sid) →
  ∃ m', seat_evict_position k sid m = Some (tt, m') ∧ lost_position m m' k sid t p.
Proof.
  intros Hc Hm Hx Hp H0 Ht Hsid. pose proof (wf_links_agree m (reachable_wf c m Hc Hm)) as Hl.
  destruct (wp_run _ _ _ (wp_evict m k sid x t p Hl Hx Hp H0 Ht Hsid)) as ([]&m'&?&?). eauto.
Qed.
Lemma evicted_position_is_handed_on_witness :
  ∃ t, m_seats sample_busy !! "seat0"%string = Some t ∧
  ∃ m', seat_evict_position "seat0" "c1" sample_busy = Some (tt, m') ∧ lost_position sample_busy m' "seat0" "c1" t 1.
Proof.
  eexists. split; [vm_compute; reflexivity|].
  eapply (evicted_position_is_handed_on sample_config);
    [apply sample_sane|apply sample_busy_reachable|vm_compute; reflexivity|reflexivity|reflexivity
    |vm_compute; reflexivity|reflexivity].
Defined.
