(* ===== verification/Identity.v ===== *)
(** What a session is: the user it belongs to and the properties it was created
    with and its seat; giving it a position, starting it and answering its creation leave
    that alone, and so does giving it back its controller, devices and leader when
    it is loaded. *)
From S2P Require Import Prelude Time LoginTypes ActionTypes LoginState LoginEnv Bus Objects SessionDevice Seat Device User Session Lifecycle SessionBus ManagerBus Partial.

(** The owner; and the fields that CreateSession fills in. *)
Record identity_of_session := mkIdentity {
  id_user : option Z; id_type : SessionType; id_original_type : SessionType; id_class : SessionClass;
  id_vtnr : Z; id_remote : bool; id_tty : option string; id_display : option string;
  id_remote_user : option string; id_remote_host : option string; id_service : option string;
  id_desktop : option string; id_seat : option string;
}.
#[export] Instance eta_identity : Eta identity_of_session := fun i =>
  mkIdentity (id_user i) (id_type i) (id_original_type i) (id_class i) (id_vtnr i) (id_remote i)
    (id_tty i) (id_display i) (id_remote_user i) (id_remote_host i) (id_service i) (id_desktop i) (id_seat i).
Definition identity (s : session) : identity_of_session :=
  mkIdentity (s_user s) (s_type s) (s_original_type s) (s_class s) (s_vtnr s) (s_remote s) (s_tty s)
    (s_display s) (s_remote_user s) (s_remote_host s) (s_service s) (s_desktop s) (s_seat s).

(** What else is read back from its file: whether it is stopping, whether it was
    in the foreground, and when it began. *)
Definition restored (s : session) : identity_of_session * (bool * bool * dual_timestamp) :=
  (identity s, (s_stopping s, s_was_active s, s_timestamp s)).
Lemma field_identity sid m : field identity sid m = fst <$> field restored sid m.
Proof. unfold field. by destruct (m_sessions m !! sid). Qed.
Lemma keeps_identity sid m m' : keeps restored sid m m' → keeps identity sid m m'.
Proof. unfold keeps. rewrite !field_identity. by intros ->. Qed.

Section Identity.
Context {E : Env} (sid : string).
Abbreviation idem c := (moves (keeps restored sid) c).

Lemma idem_get_sd i dev : idem (get_sd i dev).
Proof. unfold get_sd. solve_moves. Qed.
Lemma idem_upd_sd i dev f : idem (upd_sd i dev f).
Proof. unfold upd_sd. solve_moves. Qed.
Lemma idem_get_session i : idem (get_session i).
Proof. solve_moves. Qed.
Hint Resolve idem_get_sd idem_upd_sd : moves.
Lemma idem_notify i dev n : idem (session_device_notify i dev n).
Proof. unfold session_device_notify. solve_moves. Qed.
Lemma idem_drm_loop fuel fd n : idem (drm_set_master_loop fuel fd n).
Proof. revert n. induction fuel as [|fuel IH]; intros n; simpl; solve_moves. Qed.
Hint Resolve idem_notify idem_drm_loop : moves.
Lemma idem_open t n a : idem (session_device_open t n a).
Proof. unfold session_device_open, sd_drmsetmaster, sd_drmdropmaster, sd_revoke. solve_moves. Qed.
Hint Resolve idem_open : moves.
Lemma idem_device_start i dev : idem (session_device_start i dev).
Proof. unfold session_device_start, sd_drmsetmaster. solve_moves. Qed.
Lemma idem_device_stop i dev : idem (session_device_stop i dev).
Proof. unfold session_device_stop, sd_drmdropmaster, sd_revoke. solve_moves. Qed.
Lemma idem_device_save i dev : idem (session_device_save i dev).
Proof. unfold session_device_save. solve_moves. Qed.
Hint Resolve idem_device_start idem_device_stop idem_device_save : moves.
Lemma idem_resume_all i : idem (session_device_resume_all i).
Proof. unfold session_device_resume_all, resume_one. solve_moves. Qed.
Lemma idem_pause_all i : idem (session_device_pause_all i).
Proof. unfold session_device_pause_all, pause_one. solve_moves. Qed.
Hint Resolve idem_resume_all idem_pause_all : moves.

Lemma same_send_changed i l : moves same_sessions (session_send_changed i l).
Proof. unfold session_send_changed. solve_moves. Qed.
Lemma same_seat_send_changed k l : moves same_sessions (seat_send_changed k l).
Proof. unfold seat_send_changed. solve_moves. Qed.
Lemma same_user_send_changed u l : moves same_sessions (user_send_changed u l).
Proof. unfold user_send_changed. solve_moves. Qed.
Lemma same_seat_save k : moves same_sessions (seat_save k).
Proof.
  unfold seat_save, seat_can_tty, seat_can_graphical, seat_has_master_device, seat_is_seat0. solve_moves;
    apply same_map_m; intros; solve_moves.
Qed.
Lemma same_apply_acls k o : moves same_sessions (seat_apply_acls k o).
Proof. unfold seat_apply_acls. solve_moves. Qed.
Lemma same_session_user_save i : moves same_sessions (session_user_save i).
Proof. unfold session_user_save. solve_moves. Qed.
Hint Resolve same_send_changed same_seat_send_changed same_user_send_changed same_seat_save
  same_apply_acls same_session_user_save : moves.

Lemma idem_seat_set_active k o : idem (seat_set_active k o).
Proof. unfold seat_set_active. solve_moves. Qed.
Hint Resolve idem_seat_set_active : moves.
Lemma same_find_claimant pos l : moves same_sessions (find_claimant pos l).
Proof. induction l as [|i l IH]; simpl; solve_moves. Qed.
Hint Resolve same_find_claimant : moves.
Lemma same_set_position k p v : moves same_sessions (set_position k p v).
Proof. unfold set_position. solve_moves. Qed.
Hint Resolve same_set_position : moves.
Lemma idem_assign_position k i : idem (seat_assign_position k i).
Proof. unfold seat_assign_position, seat_claim_position, seat_evict_position. solve_moves. Qed.
Hint Resolve idem_assign_position : moves.
(** Attaching gives the session its seat. *)
Lemma may_attach_restored k m :
  may (seat_attach_session k sid) (λ r m', 0 ≤ r →
    field restored sid m' = prod_map (λ x, x <| id_seat := Some k |>) id <$> field restored sid m) m.
Proof.
  unfold seat_attach_session. apply may_bind, may_get_session. intros x Hx.
  apply may_bind, may_assert. intros _.
  eapply (may_after same_sessions); [solve_moves|]. intros vts m1 H1.
  destruct (negb _); [apply may_ret; unfold EINVAL; lia|].
  apply may_bind, may_upd_session. intros y Hy. rewrite H1 in Hy. simplify_eq.
  set (m2 := m1 <| m_sessions := _ |>).
  assert (Hm2 : field restored sid m2 = prod_map (λ x, x <| id_seat := Some k |>) id <$> field restored sid m).
  { unfold field, m2; cbn. by rewrite lookup_insert_eq, Hx. }
  eapply may_mono; [apply (may_moves (keeps restored sid)); solve_moves|].
  intros r m' Hk _. transitivity (field restored sid m2); [exact Hk|exact Hm2].
Qed.
Lemma may_attach_session k m :
  may (seat_attach_session k sid) (λ r m', 0 ≤ r →
    field identity sid m' = (λ x, x <| id_seat := Some k |>) <$> field identity sid m) m.
Proof.
  eapply may_mono; [apply may_attach_restored|]. intros r m' H Hr. rewrite !field_identity, H by done.
  by destruct (field restored sid m).
Qed.

Lemma same_find_on_vt p v l : moves same_sessions (find_on_vt p v l).
Proof. induction l as [|i l IH]; simpl; solve_moves. Qed.
Hint Resolve same_find_on_vt : moves.
Lemma idem_read_active_vt k : idem (seat_read_active_vt k).
Proof. unfold seat_read_active_vt, seat_active_vt_changed. solve_moves. Qed.
Hint Resolve idem_read_active_vt : moves.
Lemma idem_user_start uid : idem (user_start uid).
Proof. unfold user_start, user_runtime_dir, user_send_signal, send_signal. solve_moves. Qed.
Lemma idem_setup_cgroup i : idem (session_setup_cgroup_paths i).
Proof. unfold session_setup_cgroup_paths, session_use_delegated_cgroup. solve_moves. Qed.
Lemma same_until_error l :
  (∀ c, c ∈ l → moves same_sessions c) → moves same_sessions (until_error l).
Proof.
  induction l as [|c l IH]; intros Hl; simpl; [solve_moves|].
  apply moves_bind; [apply _|apply Hl; left|]. intros r. destruct (r <? 0); [solve_moves|].
  apply IH. intros c' Hc'. apply Hl. by right.
Qed.
Lemma same_delegated i : moves same_sessions (session_create_delegated_cgroup i).
Proof.
  unfold session_create_delegated_cgroup, session_use_delegated_cgroup. solve_moves.
  apply same_until_error. unfold cg_create, cg_set_access.
  intros c Hc. rewrite !elem_of_cons in Hc. destruct_or! Hc; [subst c; solve_moves..|by apply elem_of_nil in Hc].
Qed.
Lemma idem_watch_cgroup i : idem (session_watch_cgroup i).
Proof. unfold session_watch_cgroup. solve_moves. Qed.
Hint Resolve idem_setup_cgroup same_delegated idem_watch_cgroup : moves.
Lemma idem_start_cgroup i : idem (session_start_cgroup i).
Proof. unfold session_start_cgroup, cg_create. solve_moves. Qed.
Lemma idem_idle_timer i : idem (session_setup_stop_on_idle_timer i).
Proof. unfold session_setup_stop_on_idle_timer. solve_moves. Qed.
Lemma same_chown_tty i : moves same_sessions (session_chown_tty i).
Proof. unfold session_chown_tty, session_vt_to_own. solve_moves. Qed.
Lemma idem_create_fifo i : idem (session_create_fifo i).
Proof. unfold session_create_fifo. solve_moves. Qed.
Hint Resolve idem_create_fifo : moves.
Lemma idem_set_leader i p : idem (session_set_leader_consume i p).
Proof.
  unfold session_set_leader_consume, session_reset_leader, remove_leader_entry, session_watch_pidfd.
  solve_moves; apply keeps_same, moves_modify; intros m; by case_match.
Qed.

(** Starting it sets the time if there is none. *)
Abbreviation same_identity c := (moves (keeps identity sid) c).
Lemma identity_idem {A} (c : MM A) : idem c → same_identity c.
Proof. intros H m a m' Hm. apply keeps_identity. by eapply H. Qed.
Lemma identity_until_error l : (∀ c, c ∈ l → same_identity c) → same_identity (until_error l).
Proof.
  induction l as [|c l IH]; intros Hl; simpl; [solve_moves|].
  apply moves_bind; [apply _|apply Hl; left|]. intros r. destruct (r <? 0); [solve_moves|].
  apply IH. intros c' Hc'. apply Hl. by right.
Qed.
Hint Extern 5 (moves (keeps identity _) _) => apply identity_idem; solve [eauto with moves typeclass_instances] : moves.
Hint Resolve idem_user_start idem_start_cgroup idem_idle_timer same_chown_tty : moves.
Lemma idem_start_finish i uid : same_identity (session_start_finish i uid).
Proof.
  unfold session_start_finish, session_send_signal, send_signal. cbv zeta.
  apply moves_bind; [apply _|apply keeps_upd_session; intros s; by destruct (dual_timestamp_is_set _)|].
  intros _. solve_moves.
Qed.
Hint Resolve idem_start_finish : moves.
Lemma idem_session_start i : same_identity (session_start i).
Proof.
  unfold session_start. solve_moves. apply identity_until_error.
  intros c Hc. rewrite !elem_of_cons in Hc. destruct_or! Hc; [subst c; solve_moves..|by apply elem_of_nil in Hc].
Qed.
Lemma idem_send_create_reply i e : same_identity (session_send_create_reply i e).
Proof. unfold session_send_create_reply. solve_moves. Qed.
End Identity.
#[export] Hint Resolve idem_session_start idem_send_create_reply idem_set_leader : moves.
#[export] Hint Extern 5 (moves (keeps identity _) _) => apply identity_idem; solve [eauto with moves typeclass_instances] : moves.
