(* ===== verification/CreateFacts.v ===== *)
(** CreateSession: the id of a new session is free, a refusal creates nothing,
    and an answer names a new session that is what the caller asked for. *)
From stdpp Require Import pretty.
From S2P Require Import Prelude Time LoginTypes ActionTypes LoginState LoginEnv Bus Escape Parse Objects SessionDevice Seat Device User Session Lifecycle SessionBus ManagerBus Events Cols Links LinksCreate LinksManager LinksRun LinksBoot Startup Partial Identity Sample Safety Access.

(** C32: the search for a session id ends, also when the 64-bit counter wraps
    around: below the limit on sessions, create_session() finds an id that no
    session has, that is neither "self" nor "auto", and changes no session, seat
    or user while looking. *)
Theorem session_id_is_free c m (E : Env) leader :
  sane c → reachable c m → Z.of_nat (size (m_sessions m)) < c_sessions_max (m_conf m) →
  ∃ id m', create_id leader m = Some (id, m') ∧ m_sessions m !! id = None ∧
    SESSION_IS_SELF id = false ∧ SESSION_IS_AUTO id = false ∧ cols_of m' = cols_of m.
Proof.
  intros Hc Hm Hsz. pose proof (reachable_wf c m Hc Hm) as Hwf.
  assert (Hroom : Z.of_nat (size (g_user (cols_of m))) < UINT_MAX).
  { cbn. rewrite map_size_fmap. pose proof (wf_limit _ _ Hwf) as Hl. cbn in Hl. lia. }
  destruct (wp_run _ _ _ (soft_create_id (cols_of m) leader Hroom m eq_refl))
    as (id&m'&H&Hcols&Hid&Hs&Ha). exists id, m'. split_and!; try done.
  apply eq_None_not_Some. intros [x Hx]. apply Hid. eexists. by apply (col_in s_user _ _ x).
Qed.
Lemma session_id_is_free_witness :
  ∃ id m', @create_id sample_env (mkPidref 300 12 0) sample_busy = Some (id, m') ∧
    m_sessions sample_busy !! id = None ∧
    SESSION_IS_SELF id = false ∧ SESSION_IS_AUTO id = false ∧ cols_of m' = cols_of sample_busy.
Proof.
  apply (session_id_is_free sample_config); [apply sample_sane|apply sample_busy_reachable|vm_compute; reflexivity].
Defined.

(** * Refusals *)

(** Did the method create a session? *)
Definition created (o : outcome) : bool := match o with ReplySession _ _ _ _ _ => true | _ => false end.

(** A step that reads the arguments: it refuses, or gives what [P] says. *)
Definition checked {A} (P : A → Prop) (r : outcome + A) : Prop :=
  match r with inl o => created o = false | inr a => P a end.

Section Refuse.
Context {E : Env} (m : manager).

Lemma quiet_try_keep {A} (P : A → Prop) (c : MM (outcome + A)) k :
  quiet m c (checked P) → (∀ a, quiet m (k a) (λ o, created o = false)) →
  quiet m (try c k) (λ o, created o = false).
Proof.
  intros Hc Hk. eapply quiet_bind; [exact Hc|]. intros [o|a] Ho; [by apply quiet_ret|apply Hk].
Qed.
Lemma may_try {A} (P : A → Prop) (c : MM (outcome + A)) k Q :
  quiet m c (checked P) → (∀ o, created o = false → Q o m) → (∀ a, P a → may (k a) Q m) →
  may (try c k) Q m.
Proof.
  intros Hc Ho Hk o' m' ([o|a]&m1&H1&H2)%bind_Some; destruct (Hc _ _ H1) as [-> HP].
  - injection H2 as <- <-. by apply Ho.
  - by eapply Hk.
Qed.

Lemma quiet_leader a msg : quiet m (ret (create_leader a msg)) (checked (λ _, True)).
Proof.
  apply quiet_ret. unfold create_leader, invalid_args. cbv zeta.
  repeat case_match; simplify_eq/=; done.
Qed.
Lemma quiet_enum {A} `{StringTable A} arg :
  quiet m (ret (create_enum (A := A) arg)) (checked (λ t, create_enum arg = inr t)).
Proof. apply quiet_ret. unfold create_enum, invalid_args. by repeat case_match. Qed.
Lemma quiet_find_seat name :
  quiet m (create_find_seat name) (checked (λ k, k = if isempty name then None else Some name)).
Proof.
  unfold create_find_seat. destruct (isempty name) eqn:En.
  { by apply quiet_ret. }
  eapply quiet_bind; [by apply (quiet_gets _ _ (λ o, o = m_seats m !! name))|]. intros o _.
  apply quiet_ret. by destruct o.
Qed.
(** The seat that a session without a requested seat gets: that of the virtual
    terminals when its terminal is one of them or the console, none otherwise;
    and the VT: that of its terminal, or the requested one. *)
Definition seat_or_default (seat0 seat : option string) (tty : string) : option string :=
  match seat with
  | Some k => Some k
  | None => if tty_is_vc tty || tty_is_console tty then seat0 else None
  end.
Definition vt_or_default (vtnr : Z) (tty : string) : Z :=
  if tty_is_vc tty then vtnr_from_tty tty else vtnr.

Lemma quiet_tty_seat k vtnr tty :
  quiet m (create_tty_seat k vtnr tty)
    (checked (λ r, r.1 = seat_or_default (m_seat0 m) k tty ∧ r.2 = vt_or_default vtnr tty ∧ (vtnr ≠ 0 → r.2 = vtnr))).
Proof.
  unfold create_tty_seat, invalid_args, seat_or_default, vt_or_default.
  eapply quiet_bind; [by apply (quiet_gets _ _ (λ o, o = m_seat0 m))|]. intros o ->. cbv zeta.
  apply quiet_ret. cbn [checked]. destruct (tty_is_vc tty) eqn:Ev; cbn [orb]; [|destruct (tty_is_console tty)].
  - destruct (negb _); [done|]. destruct (_ <=? 0); [done|]. destruct (vtnr =? 0) eqn:E0; cbn; [destruct k; split_and!; first [done|lia]|].
    destruct (negb (_ =? _)) eqn:E1; [done|]. cbn. apply negb_false_iff, Z.eqb_eq in E1. by destruct k; split_and!.
  - destruct (negb _); [done|]. destruct (negb _); [done|]. by destruct k; split_and!.
  - by destruct k.
Qed.
Lemma quiet_check_vtnr k vtnr : quiet m (create_check_vtnr k vtnr) (checked (λ _, True)).
Proof.
  unfold create_check_vtnr, invalid_args, seat_has_vts, seat_is_seat0. solve_quiet; by repeat case_match.
Qed.
Lemma quiet_by_pidref leader : quiet m (manager_get_session_by_pidref leader) (λ _, True).
Proof. unfold manager_get_session_by_pidref. solve_quiet. Qed.
Lemma quiet_vt_occupied c vtnr : quiet m (create_vt_occupied c vtnr) (λ _, True).
Proof. unfold create_vt_occupied. solve_quiet. Qed.

Lemma quiet_create_over_limit a msg :
  c_sessions_max (m_conf m) ≤ Z.of_nat (size (m_sessions m)) →
  quiet m (create_session a msg) (λ o, created o = false).
Proof.
  intros Hlim. unfold create_session.
  destruct (negb (uid_is_valid _)); [by apply quiet_ret|]. destruct (negb _); [by apply quiet_ret|].
  eapply quiet_try_keep; [apply quiet_leader|]. intros leader.
  eapply quiet_try_keep; [apply quiet_enum|]. intros t.
  eapply quiet_try_keep; [apply quiet_enum|]. intros cl.
  destruct (_ && _); [by apply quiet_ret|].
  eapply quiet_try_keep; [apply quiet_find_seat|]. intros seat.
  eapply quiet_try_keep; [apply quiet_tty_seat|]. intros [seat' vtnr].
  eapply quiet_try_keep; [apply quiet_check_vtnr|]. intros _. cbv zeta.
  eapply quiet_bind; [apply quiet_by_pidref|]. intros [r|[o|]] _; [by apply quiet_ret..|].
  eapply quiet_bind; [apply quiet_vt_occupied|]. intros [] _; [by apply quiet_ret|].
  eapply quiet_bind; [by apply (quiet_gets _ _ (λ n, n = Z.of_nat (size (m_sessions m))))|]. intros n ->.
  eapply quiet_bind; [by apply (quiet_gets _ _ (λ n, n = c_sessions_max (m_conf m)))|]. intros n ->.
  rewrite (proj2 (Z.leb_le _ _) Hlim). by apply quiet_ret.
Qed.
End Refuse.

(** C16: the limit on sessions holds: once there are as many sessions as
    [SessionsMax=] allows, CreateSession ends without creating one and leaves
    the daemon as it was, whatever the arguments are. *)
Theorem create_session_respects_limit c m (E : Env) a msg :
  sane c → reachable c m → EnvOk → c_sessions_max (m_conf m) ≤ Z.of_nat (size (m_sessions m)) →
  ∃ o, create_session a msg m = Some (o, m) ∧ created o = false.
Proof.
  intros Hc Hm Ok Hlim. pose proof (reachable_wf c m Hc Hm) as Hwf.
  destruct (wp_run _ _ _ (wp_safe _ m (safe_create_session _ Hwf (coh_cols m) a msg))) as (o&m'&H&_).
  destruct (quiet_create_over_limit m a msg Hlim _ _ H) as [-> Ho]. eauto.
Qed.
(** The limit at one session. *)
Definition small_config : config := sample_config <| c_sessions_max := 1 |>.
Definition small_manager : manager :=
  run [ManagerMethod (CreateSession (sample_args 1000 100)) root_message]
    (after (@manager_startup sample_env) (@initial_manager sample_env small_config (-1) 3)).
Lemma create_session_respects_limit_witness :
  ∃ o, @create_session sample_env (sample_args 1001 101) root_message small_manager = Some (o, small_manager) ∧
    created o = false.
Proof.
  apply (create_session_respects_limit small_config); [split; [done|]; by apply (bool_decide_unpack _)| |apply sample_env_ok|].
  - apply run_reachable; [apply started_reachable; split; [done|]; by apply (bool_decide_unpack _)|events_ok].
  - vm_compute. congruence.
Defined.

Section Created.
Context {E : Env}.

(** The answer names a new session with these properties. *)
Definition names_new (m : manager) (P : identity_of_session → Prop) (o : outcome) (m' : manager) : Prop :=
  ∀ sid fd u k v, o = ReplySession sid fd u k v →
    m_sessions m !! sid = None ∧ ∃ s, m_sessions m' !! sid = Some s ∧ P (identity s) ∧ v = s_vtnr s ∧
      k = default "" (s_seat s).

Lemma names_new_other m P o m' : created o = false → names_new m P o m'.
Proof. intros Ho sid fd u k v ->. done. Qed.
Lemma may_create_fail m P s u r m1 : may (create_fail s u r) (names_new m P) m1.
Proof.
  unfold create_fail. do 2 (eapply (may_after (λ _ _, True)); [done|]; intros ? ? _).
  apply may_ret. by apply names_new_other.
Qed.

(** The identity after the fields are filled in. *)
Definition filled (a : create_args) (t : SessionType) (c : SessionClass) (vtnr : Z) (uid : Z) (k : option string)
  : identity_of_session :=
  let given (arg : string) := if isempty arg then None else Some arg in
  mkIdentity (Some uid) t t c vtnr (ca_remote a) (given (ca_tty a)) (given (ca_display a))
    (given (ca_remote_user a)) (given (ca_remote_host a)) (given (ca_service a)) (given (ca_desktop a)) k.

Lemma may_send_reply m m1 sid (i : identity_of_session) (P : identity_of_session → Prop) :
  m_sessions m !! sid = None → field identity sid m1 = Some i → P i →
  may (session_send_create_reply sid None) (names_new m P) m1.
Proof.
  intros Hnew Hi HP. intros o m' H sid' fd u k v ->.
  pose proof (idem_send_create_reply sid sid None m1 _ _ H) as Hk. unfold keeps in Hk. rewrite Hi in Hk.
  unfold field in Hk. destruct (m_sessions m' !! sid) as [s|] eqn:Es; [|done]. injection Hk as Hk.
  enough (sid' = sid ∧ v = s_vtnr s ∧ k = default "" (s_seat s)) as (->&->&->).
  { split; [done|]. exists s. by rewrite Hk. }
  revert H. unfold session_send_create_reply. intros (s0&m0&_&H)%bind_Some.
  destruct (negb _); [by injection H|]. apply bind_Some in H as ([]&m2&_&H).
  apply bind_Some in H as (fd0&m3&_&H). destruct (fd0 <? 0); [by injection H|].
  apply bind_Some in H as ([]&m4&_&H). apply bind_Some in H as (s4&m5&Hs4&H).
  apply bind_Some in H as (uid&m6&Hu&H). apply bind_Some in H as ([]&m7&Hsv&H).
  apply bind_Some in H as (u0&m8&Hu0&H). injection H as -> _ _ <- <- ->.
  assert (Hsame : m_sessions m' = m_sessions m5).
  { transitivity (m_sessions m7); [by eapply (same_get_user uid)|].
    transitivity (m_sessions m6); [by eapply (moves_ignore same_sessions (user_save uid) (same_user_save uid))|].
    by eapply (moves_deref same_sessions (s_user s4)). }
  unfold get_session in Hs4. apply bind_Some in Hs4 as (o&m9&[= <- <-]&Hs4).
  destruct (m_sessions m4 !! sid') as [s5|] eqn:E5; [|done]. injection Hs4 as -> <-.
  rewrite Hsame, E5 in Es. by simplify_eq.
Qed.

(** What the arguments ask for; the user is the one that the user database
    gives for the uid. *)
Definition as_requested (m : manager) (a : create_args) (i : identity_of_session) : Prop :=
  ∃ ur t c,
    e_userdb_by_uid (ca_uid a) = inr ur ∧ create_enum (ca_type a) = inr t ∧ create_enum (ca_class a) = inr c ∧
    let vtnr := vt_or_default (ca_vtnr a) (ca_tty a) in
    let k := seat_or_default (m_seat0 m) (if isempty (ca_cseat a) then None else Some (ca_cseat a)) (ca_tty a) in
    let t' := create_type t (ca_display a) (ca_tty a) in
    (ca_vtnr a ≠ 0 → vtnr = ca_vtnr a) ∧
    i = filled a t' (create_class c t') vtnr (ur_uid ur) k.

Definition blank (uid : Z) : identity_of_session := identity (new_session <| s_user := Some uid |>).

Lemma may_setup m m1 a t c k vtnr leader sid uid msg (P : identity_of_session → Prop) :
  m_sessions m !! sid = None → field identity sid m1 = Some (blank uid) → P (filled a t c vtnr uid k) →
  may (create_session_setup a t c k vtnr leader sid uid msg) (names_new m P) m1.
Proof.
  intros Hnew Hi HP. unfold create_session_setup.
  eapply (may_after (keeps identity sid)); [solve_moves|]. intros r m2 H2.
  destruct (r <? 0); [apply may_create_fail|].
  apply may_bind, may_upd_session. intros s Hs.
  set (m3 := m2 <| m_sessions := _ |>).
  assert (H3 : field identity sid m3 = Some (filled a t c vtnr uid None)).
  { unfold keeps in H2. rewrite Hi in H2. unfold field, m3 in *. cbn. rewrite lookup_insert_eq. cbn.
    rewrite Hs in H2. cbn in H2. unfold blank, new_session, identity in H2. cbn in H2.
    injection H2 as Hu _ _ _ _ _ Htty Hd Hru Hrh Hsv Hde Hk. f_equal. unfold identity, filled, create_set_fields. cbn.
    by rewrite Hu, Htty, Hd, Hru, Hrh, Hsv, Hde, Hk. }
  clearbody m3. eapply (may_after same_sessions); [solve_moves|]. intros _ m4 H4.
  assert (Hk : field identity sid m4 = Some (filled a t c vtnr uid None)) by (unfold field; rewrite H4; exact H3).
  clear H3 H4. apply may_bind.
  assert (Hseat : may (match k with Some k => seat_attach_session k sid | None => ret 0 end)
    (λ r m', 0 ≤ r → field identity sid m' = Some (filled a t c vtnr uid k)) m4).
  { destruct k as [k|]; [|by apply may_ret]. eapply may_mono; [apply may_attach_session|].
    cbn. intros r' m' H' Hr. rewrite H' by done. by rewrite Hk. }
  eapply may_mono; [exact Hseat|]. intros r5 m5 H5. cbn beta.
  destruct (r5 <? 0) eqn:E5; [apply may_create_fail|]. apply Z.ltb_ge in E5. specialize (H5 E5).
  destruct (_ <? 0); [apply may_create_fail|].
  eapply (may_after (keeps identity sid)); [solve_moves|]. intros r6 m6 H6.
  destruct (r6 <? 0); [apply may_create_fail|]. destruct (_ <? 0); [apply may_create_fail|].
  eapply (may_after (keeps identity sid)); [solve_moves|]. intros _ m7 H7.
  eapply may_send_reply; [done| |exact HP]. unfold keeps in *. congruence.
Qed.

Definition fresh (m : manager) (sid : string) (m' : manager) : Prop :=
  same_sessions m m' ∧ m_sessions m !! sid = None.
Lemma may_next_session_id fuel m m1 :
  same_sessions m m1 → may (next_session_id fuel) (fresh m) m1.
Proof.
  revert m1. induction fuel as [|fuel IH]; intros m1 H; simpl; [by intros ? ? ?|].
  eapply (may_after same_sessions); [solve_moves|]. intros _ m2 H2.
  do 2 apply may_bind, may_gets. destruct (_ !! _) eqn:Es; [apply IH|apply may_ret; split].
  all: first [by etransitivity | by rewrite <-Es, H2, H].
Qed.
Lemma may_create_id m leader : may (create_id leader) (fresh m) m.
Proof.
  unfold create_id. apply may_bind. apply (may_mono _ (λ o m', m' = m ∧ ∀ id, o = Some id → m_sessions m !! id = None)).
  - unfold create_audit_id. cbv zeta. destruct (audit_session_is_valid _); [|by apply may_ret].
    apply may_bind, may_gets, may_ret. split; [done|]. intros id. by case_match; intros; simplify_eq.
  - intros [id|] m' [-> Hid]; [apply may_ret; split; auto; done|].
    apply may_bind, may_gets, may_next_session_id. done.
Qed.
Lemma same_add_user ur : moves same_sessions (manager_add_user ur).
Proof. unfold manager_add_user, user_new. solve_moves. Qed.
Hint Resolve same_add_user : moves.

Lemma may_add_user m uid :
  may (manager_add_user_by_uid uid) (λ u m', same_sessions m m' ∧
    ∀ uid', u = inr uid' → ∃ ur, e_userdb_by_uid uid = inr ur ∧ uid' = ur_uid ur) m.
Proof.
  unfold manager_add_user_by_uid. apply may_bind, may_assert. intros _.
  destruct (e_userdb_by_uid uid) as [r|ur]; [by apply may_ret|].
  eapply (may_after same_sessions); [solve_moves|]. intros r m1 H1. apply may_ret. split; [done|].
  intros uid' Hr. case_match; simplify_eq. eauto.
Qed.

Lemma same_any_pinning l : moves same_sessions (any_pinning l).
Proof. induction l as [|i l IH]; simpl; solve_moves. Qed.
Hint Resolve same_any_pinning : moves.
Lemma same_last_session_timer uid : moves same_sessions (user_update_last_session_timer uid).
Proof. unfold user_update_last_session_timer, user_pinned_by_sessions, user_get_stop_delay. solve_moves. Qed.
Hint Resolve same_last_session_timer : moves.
Lemma may_set_user m sid uid :
  m_sessions m !! sid = Some new_session →
  may (session_set_user sid uid) (λ _ m', field identity sid m' = Some (blank uid)) m.
Proof.
  intros Hs. unfold session_set_user. apply may_bind, may_get_session. intros s _.
  apply may_bind, may_assert. intros _. apply may_bind, may_upd_session. intros x Hx. simplify_eq.
  eapply may_mono; [apply (may_moves same_sessions); solve_moves|]. intros r m' H. unfold field. rewrite H. cbn. by rewrite lookup_insert_eq.
Qed.

Lemma may_register m m1 a t c k vtnr leader sid msg (P : identity_of_session → Prop) :
  fresh m sid m1 →
  (∀ ur, e_userdb_by_uid (ca_uid a) = inr ur → P (filled a t c vtnr (ur_uid ur) k)) →
  may (create_session_register a t c k vtnr leader sid msg) (names_new m P) m1.
Proof.
  intros [Hm Hnew] HP. unfold create_session_register. apply may_bind.
  eapply may_mono; [apply may_add_user|]. cbn beta. intros [r|uid] m2 [H2 Hu]; [apply may_create_fail|].
  destruct (Hu uid eq_refl) as (ur&Hur&->). apply may_bind, may_bind, may_gets.
  assert (Hn2 : m_sessions m2 !! sid = None) by congruence. rewrite Hn2. unfold session_new.
  destruct (negb _); [apply may_ret, may_create_fail|]. apply may_bind, may_modify, may_ret. cbn.
  apply may_bind, may_get_session. intros s Hs. cbn in Hs. rewrite lookup_insert_eq in Hs.
  injection Hs as <-. cbn. apply may_bind.
  eapply may_mono; [apply may_set_user; cbn; by rewrite lookup_insert_eq|]. intros ? m4 H4. by apply may_setup; [|done|apply HP].
Qed.

Lemma may_create_session m a msg :
  may (create_session a msg) (names_new m (as_requested m a)) m.
Proof.
  unfold create_session.
  destruct (negb (uid_is_valid _)); [by apply may_ret, names_new_other|].
  destruct (negb _); [by apply may_ret, names_new_other|].
  eapply may_try; [apply quiet_leader|intros o Ho; exact (names_new_other _ _ _ _ Ho)|]. intros leader _.
  eapply may_try; [apply quiet_enum|intros o Ho; exact (names_new_other _ _ _ _ Ho)|]. intros t Ht.
  eapply may_try; [apply quiet_enum|intros o Ho; exact (names_new_other _ _ _ _ Ho)|]. intros cl Hcl.
  destruct (_ && _); [by apply may_ret, names_new_other|].
  eapply may_try; [apply quiet_find_seat|intros o Ho; exact (names_new_other _ _ _ _ Ho)|]. intros k0 Hk0.
  eapply may_try; [apply quiet_tty_seat|intros o Ho; exact (names_new_other _ _ _ _ Ho)|]. intros [k vtnr] (Hk&Hv&Hv0). cbn in Hk, Hv, Hv0.
  eapply may_try; [apply quiet_check_vtnr|intros o Ho; exact (names_new_other _ _ _ _ Ho)|]. intros _ _. cbv zeta.
  apply may_bind. intros r m1 Hr. destruct (quiet_by_pidref m leader _ _ Hr) as [-> _]. clear Hr. revert r.
  intros [r|[o|]]; [by apply may_ret, names_new_other..|].
  apply may_bind. intros busy m1 Hr. destruct (quiet_vt_occupied m _ _ _ _ Hr) as [-> _]. clear Hr.
  destruct busy; [by apply may_ret, names_new_other|]. do 2 apply may_bind, may_gets.
  destruct (_ <=? _); [by apply may_ret, names_new_other|].
  apply may_bind. eapply may_mono; [apply may_create_id|]. intros sid m2 H2.
  do 2 (apply may_bind, may_assert; intros _). apply may_register; [done|].
  intros ur Hur. exists ur, t, cl. cbv zeta. rewrite <-Hk0, <-Hk, <-Hv. by split_and!.
Qed.
End Created.

(** C10: what CreateSession answers is what was asked for: the id it names was
    not in use, and the session under it belongs to the requested user and has
    the requested type, class, terminal, display, remote host and user, service
    and desktop, or the default of each: the type follows from the display and
    the terminal, the class from the type. It is on the requested seat, or, if
    none is requested, on seat0 when its terminal is a virtual one or the console
    and on no seat otherwise; its VT is that of a virtual terminal, which is the
    requested one if there is one, and the requested one on other terminals. The
    answer names this seat and this VT. *)
Theorem created_session_is_as_requested (E : Env) a msg m sid fd u k v m' :
  create_session a msg m = Some (ReplySession sid fd u k v, m') →
  m_sessions m !! sid = None ∧
  ∃ s, m_sessions m' !! sid = Some s ∧ as_requested m a (identity s) ∧ v = s_vtnr s ∧ k = default "" (s_seat s).
Proof. intros H. by eapply may_create_session. Qed.
Lemma created_session_is_as_requested_witness :
  ∃ sid fd u k v m', @create_session sample_env (sample_args 1002 102) root_message sample_busy =
    Some (ReplySession sid fd u k v, m') ∧
  m_sessions sample_busy !! sid = None ∧
  ∃ s, m_sessions m' !! sid = Some s ∧ @as_requested sample_env sample_busy (sample_args 1002 102) (identity s) ∧
    v = s_vtnr s ∧ k = default "" (s_seat s).
Proof.
  destruct (@create_session sample_env (sample_args 1002 102) root_message sample_busy) as [[o m']|] eqn:H;
    [|exfalso; revert H; vm_compute; congruence].
  destruct o; try (exfalso; assert (Hf := f_equal (fmap fst) H); revert Hf; vm_compute; congruence).
  eexists _, _, _, _, _, _. split; [reflexivity|]. exact (created_session_is_as_requested _ _ _ _ _ _ _ _ _ _ H).
Defined.
