(* ===== verification/EnvFileFacts.v ===== *)
(** Reading state files back: which values survive, and what becomes of values
    with backslashes. *)
From Stdlib Require Import Ascii.
From stdpp Require Import pretty.
From S2P Require Import Prelude Time LoginTypes Escape Parse EnvFile.
Open Scope string_scope.
Open Scope Z_scope.

(** * What the parser makes of the text after the equals sign *)

(** Text in which every backslash is followed by a character, and which has
    neither a newline nor a NUL. *)
Definition line_char (c : ascii) : Prop := code c ≠ 0 ∧ is_newline c = false.
Inductive line_text : string → Prop :=
| text_nil : line_text ""
| text_plain c w : line_char c → c ≠ backslash → line_text w → line_text (String c w)
| text_escape c w : line_char c → line_text w → line_text (String backslash (String c w)).

(** Each backslash goes, the character after it stays. *)
Fixpoint unbackslash (w : string) : string :=
  match w with
  | EmptyString => ""
  | String c w' =>
      if bool_decide (c = backslash) then
        match w' with String d w'' => String d (unbackslash w'') | EmptyString => "" end
      else String c (unbackslash w')
  end.
Lemma unbackslash_plain c w : c ≠ backslash → unbackslash (String c w) = String c (unbackslash w).
Proof. intros H. simpl. by rewrite bool_decide_false. Qed.
Lemma unbackslash_escape c w : unbackslash (String backslash (String c w)) = String c (unbackslash w).
Proof. done. Qed.

Fixpoint ends_white (w : string) : bool :=
  match w with
  | EmptyString => false
  | String c EmptyString => is_white c
  | String _ w' => ends_white w'
  end.
Lemma ends_white_cons c w : w ≠ "" → ends_white (String c w) = ends_white w.
Proof. by destruct w. Qed.

Definition with_value (v : string) (last : option nat) (e : env_parser) : env_parser :=
  e <| ep_value := Some v |> <| ep_last_value_whitespace := last |>.

Lemma app_char v c w : (v +:+ char1 c) +:+ w = v +:+ String c w.
Proof. by rewrite string_app_assoc. Qed.
Lemma app_empty v : v +:+ "" = v.
Proof. induction v as [|d v IH]; [done|]. by rewrite string_app_cons, IH. Qed.
Lemma step_line c w e : code c ≠ 0 → env_loop (String c w) e = env_loop w (env_step c e).
Proof. intros H. simpl. by rewrite (proj2 (Z.eqb_neq _ _) H). Qed.

Lemma env_loop_value w rest v last e :
  line_text w → ep_state e = VALUE →
  ∃ last', env_loop (w +:+ rest) (with_value v last e) =
           env_loop rest (with_value (v +:+ unbackslash w) last' e) ∧
           (w = "" → last' = last) ∧ (w ≠ "" → ends_white w = false → last' = None).
Proof.
  intros Hw He. revert v last. induction Hw as [|c w [H0 Hn] Hb Hw IH|c w [H0 Hn] Hw IH]; intros v last.
  - exists last. simpl. by rewrite app_empty.
  - pose (l1 := note_whitespace c (String.length v) last).
    destruct (IH (v +:+ char1 c) l1) as (last'&Hl&H1&H2). exists last'. split_and!; [|done|].
    + change (String c w +:+ rest) with (String c (w +:+ rest)). rewrite step_line by done.
      rewrite unbackslash_plain by done. rewrite app_char in Hl. rewrite <-Hl. f_equal.
      unfold env_step, with_value at 1. cbn. rewrite He, Hn, bool_decide_false by done.
      unfold add_value, with_value, l1, value_len. by destruct e; simplify_eq/=.
    + intros _. destruct (decide (w = "")) as [->|Hne].
      * simpl. intros Hwh. rewrite H1 by done. unfold l1, note_whitespace. by rewrite Hwh.
      * rewrite ends_white_cons by done. by apply H2.
  - destruct (IH (v +:+ char1 c) None) as (last'&Hl&H1&H2). exists last'. split_and!; [|done|].
    + change (String backslash (String c w) +:+ rest) with (String backslash (String c (w +:+ rest))).
      rewrite step_line by done. rewrite step_line by done.
      rewrite unbackslash_escape. rewrite app_char in Hl. rewrite <-Hl. f_equal.
      unfold env_step at 2. unfold with_value at 1. cbn. rewrite He. cbn.
      unfold env_step. cbn. rewrite Hn. unfold add_value, with_value. by destruct e; simplify_eq/=.
    + intros _. destruct (decide (w = "")) as [->|Hne]; [intros _; by apply H1|].
      rewrite !ends_white_cons by done. by apply H2.
Qed.

(** * One line *)

Definition key_char (c : ascii) : Prop := code c ≠ 0 ∧ is_white c = false ∧ c ≠ "="%char.
Inductive key_text : string → Prop :=
| key_nil : key_text ""
| key_cons c k : key_char c → key_text k → key_text (String c k).
(** Keys: not empty, no white space, no equals sign, not a comment. *)
Definition key_ok (k : string) : Prop :=
  ∃ c k', k = String c k' ∧ in_set c COMMENTS = false ∧ key_text k.

(** Values that begin neither with white space nor with a quote, and do not
    end with white space. *)
Definition value_ok (v : string) : Prop :=
  line_text v ∧ ends_white v = false ∧
  head_is (λ c, is_white c || in_set c [squote; dquote]) v = false.
Definition read_value (v : string) : option string :=
  match v with EmptyString => None | _ => Some (unbackslash v) end.

(** Between two lines. *)
Definition between (l : list (string * option string)) (e : env_parser) : Prop :=
  ep_state e = PRE_KEY ∧ ep_key e = "" ∧ ep_value e = None ∧ ep_pushed e = l.

Lemma newline_is_white c : is_newline c = true → is_white c = true.
Proof. unfold is_newline, is_white, in_set. intros H. destruct c as [[] [] [] [] [] [] [] []]; try done; exact H. Qed.

Lemma env_loop_key k rest e :
  key_text k → ep_state e = KEY → ep_last_key_whitespace e = None →
  env_loop (k +:+ rest) e = env_loop rest (e <| ep_key := ep_key e +:+ k |>).
Proof.
  intros Hk. revert e. induction Hk as [|c k (H0&Hw&Heq) Hk IH]; intros e He Hl.
  - rewrite app_empty. by destruct e.
  - rewrite string_app_cons, step_line by done.
    assert (Hn : is_newline c = false).
    { destruct (is_newline c) eqn:Hn; [|done]. apply newline_is_white in Hn. congruence. }
    assert (Hs : env_step c e = e <| ep_key := ep_key e +:+ char1 c |>).
    { unfold env_step. rewrite He, Hn, bool_decide_false by done.
      unfold add_key, note_whitespace. rewrite Hw. destruct e; by simplify_eq/=. }
    rewrite Hs, IH by done. f_equal. cbn. rewrite app_char. by destruct e.
Qed.

Lemma env_loop_assign k rest l e :
  key_ok k → between l e →
  ∃ e', env_loop (k +:+ String "=" rest) e = env_loop rest e' ∧
    ep_state e' = PRE_VALUE ∧ ep_key e' = k ∧ ep_value e' = None ∧ ep_pushed e' = l ∧
    ep_last_value_whitespace e' = None ∧ ep_last_key_whitespace e' = None.
Proof.
  intros (c&k'&->&Hc&Hk) (Hs&Hkey&Hv&Hp). inversion Hk as [|? ? (H0&Hw&Heq) Hk']; subst.
  set (e1 := e <| ep_state := KEY |> <| ep_last_key_whitespace := None |> <| ep_key := char1 c |>).
  exists (e1 <| ep_key := String c k' |> <| ep_state := PRE_VALUE |> <| ep_last_value_whitespace := None |>).
  split; [|done]. rewrite string_app_cons, step_line by done.
  replace (env_step c e) with e1.
  - rewrite env_loop_key by done. by rewrite step_line.
  - unfold env_step, add_key, goto. rewrite Hs, Hc, Hw. cbn. unfold e1. by rewrite Hkey.
Qed.

(** A newline after the value ends the line. *)
Lemma env_step_end v last e :
  ep_state e = VALUE → ep_last_key_whitespace e = None → (last = None) →
  between ((ep_key e, Some v) :: ep_pushed e) (env_step (ascii_of_nat 10) (with_value v last e)).
Proof. intros He Hk ->. unfold env_step, with_value. cbn. rewrite He. cbn. by rewrite Hk. Qed.

(** A space before it is dropped. *)
Definition one_space (sp : string) : Prop := sp = "" ∨ sp = " ".
Lemma substring_app (v w : string) : String.substring 0 (String.length v) (v +:+ w) = v.
Proof. induction v as [|c v IH]; [by destruct w|]. rewrite string_app_cons. cbn. by rewrite IH. Qed.
Lemma env_step_space_end v e :
  ep_state e = VALUE → ep_last_key_whitespace e = None →
  between ((ep_key e, Some v) :: ep_pushed e) (env_step (ascii_of_nat 10) (env_step " " (with_value v None e))).
Proof.
  intros He Hk.
  assert (Hs : env_step " " (with_value v None e) = with_value (v +:+ " ") (Some (String.length v)) e).
  { unfold env_step, with_value. cbn. rewrite He. cbn. by destruct e. }
  rewrite Hs. unfold env_step, with_value. cbn. rewrite He. cbn. rewrite Hk. change (is_newline (ascii_of_nat 10)) with true. cbn.
  unfold between. cbn. by rewrite substring_app.
Qed.

Lemma env_loop_rest k c w sp rest l e :
  line_text w → ends_white w = false → one_space sp →
  ep_state e = PRE_VALUE → ep_key e = k → ep_pushed e = l → ep_last_key_whitespace e = None →
  ∃ e', env_loop (w +:+ sp +:+ newline +:+ rest) (with_value (char1 c) None (goto VALUE e)) = env_loop rest e' ∧
    between ((k, Some (String c (unbackslash w))) :: l) e'.
Proof.
  intros Hw Hend Hsp Hs <- <- Hlk.
  destruct (env_loop_value w (sp +:+ newline +:+ rest) (char1 c) None (goto VALUE e) Hw eq_refl) as (last&->&H1&H2).
  assert (last = None) as -> by (destruct (decide (w = "")) as [Hne|Hne]; [by apply H1|by apply H2]).
  set (e1 := with_value (char1 c +:+ unbackslash w) None (goto VALUE e)). destruct Hsp as [->| ->].
  - exists (env_step (ascii_of_nat 10) e1). split; [|by apply (env_step_end _ _ (goto VALUE e))].
    change ("" +:+ newline +:+ rest) with (String (ascii_of_nat 10) rest). by rewrite step_line.
  - exists (env_step (ascii_of_nat 10) (env_step " " e1)). split; [|by apply (env_step_space_end _ (goto VALUE e))].
    change (" " +:+ newline +:+ rest) with (String " " (String (ascii_of_nat 10) rest)). by rewrite !step_line.
Qed.

Lemma ends_white_tail c w : ends_white (String c w) = false → ends_white w = false.
Proof. by destruct w. Qed.

Lemma step_pre_backslash e : ep_state e = PRE_VALUE → env_step backslash e = goto VALUE_ESCAPE e.
Proof. intros H. unfold env_step. by rewrite H. Qed.

Lemma env_loop_line k v sp rest l e :
  key_ok k → value_ok v → one_space sp → between l e →
  ∃ e', env_loop (item (k, v +:+ sp) +:+ rest) e = env_loop rest e' ∧ between ((k, read_value v) :: l) e'.
Proof.
  intros Hk (Ht&He&Hh) Hsp Hb. unfold item. cbn [fst snd]. rewrite !string_app_assoc.
  change ("=" +:+ v +:+ sp +:+ newline +:+ rest) with (String "=" (v +:+ sp +:+ newline +:+ rest)).
  destruct (env_loop_assign k (v +:+ sp +:+ newline +:+ rest) l e Hk Hb) as (e1&->&Hs&Hkey&Hv&Hp&Hlv&Hlk).
  destruct Ht as [|c w [H0 Hn] Hne Ht|c w [H0 Hn] Ht].
  - exists (env_step (ascii_of_nat 10) e1). split.
    + destruct Hsp as [->| ->].
      * change ("" +:+ "" +:+ newline +:+ rest) with (String (ascii_of_nat 10) rest). by rewrite step_line.
      * change ("" +:+ " " +:+ newline +:+ rest) with (String " " (String (ascii_of_nat 10) rest)).
        rewrite !step_line by done. do 2 f_equal. unfold env_step. by rewrite Hs.
    + unfold env_step. rewrite Hs. change (is_newline (ascii_of_nat 10)) with true. cbn.
      unfold between. cbn. by rewrite Hlk, Hkey, Hv, Hp.
  - cbn [read_value]. rewrite unbackslash_plain by done. rewrite string_app_cons, step_line by done.
    cbn in Hh. apply orb_false_iff in Hh as [Hw Hq].
    apply ends_white_tail in He. replace (env_step c e1) with (with_value (char1 c) None (goto VALUE e1)).
    + apply env_loop_rest; auto.
    + unfold in_set in Hq. apply bool_decide_eq_false in Hq. rewrite !not_elem_of_cons in Hq.
      destruct Hq as (Hq1&Hq2&_). unfold env_step. rewrite Hs, Hn, !bool_decide_false, Hw by done.
      unfold add_value, with_value. cbn. by rewrite Hv, Hlv.
  - cbn [read_value]. rewrite unbackslash_escape. rewrite !string_app_cons, !step_line by done.
    do 2 apply ends_white_tail in He.
    replace (env_step c (env_step backslash e1)) with (with_value (char1 c) None (goto VALUE e1)).
    + apply env_loop_rest; auto.
    + rewrite step_pre_backslash by done. unfold env_step. cbn. rewrite Hn.
      unfold add_value, with_value. cbn. by rewrite Hv, Hlv.
Qed.

(** * Whole files *)

Definition value_read (kv : string * string) : string * option string := (kv.1, read_value kv.2).
Lemma env_loop_items_then its l e rest :
  Forall (λ kv, key_ok kv.1 ∧ value_ok kv.2) its → between l e →
  ∃ e', env_loop (items its +:+ rest) e = env_loop rest e' ∧ between (reverse (value_read <$> its) ++ l) e'.
Proof.
  intros H. revert l e. induction H as [|[k v] its [Hk Hv] _ IH]; intros l e Hb; [by exists e|].
  cbn [items fmap list_fmap]. rewrite reverse_cons, <-(assoc_L (++)), string_app_assoc.
  destruct (env_loop_line k v "" (items its +:+ rest) l e Hk Hv (or_introl eq_refl) Hb) as (e'&He&He').
  rewrite app_empty in He. rewrite He. by apply IH.
Qed.

Lemma env_loop_items its l e :
  Forall (λ kv, key_ok kv.1 ∧ value_ok kv.2) its → between l e →
  between (reverse (value_read <$> its) ++ l) (env_loop (items its) e).
Proof.
  intros H Hb. destruct (env_loop_items_then its l e "" H Hb) as (e'&He&He'). rewrite app_empty in He. by rewrite He.
Qed.

(** The comment at the head of the files. *)
Definition private_header : string := "# This is private data. Do not parse." +:+ newline.
Lemma env_loop_header rest : ∃ e, env_loop (private_header +:+ rest) env_parser0 = env_loop rest e ∧ between [] e.
Proof. by eexists. Qed.

Definition item_ok (kv : string * string) : Prop :=
  key_ok kv.1 ∧ value_ok kv.2 ∧ utf8_is_valid kv.1 = true ∧ utf8_is_valid (unbackslash kv.2) = true.
Lemma push_valid_all l : Forall (λ kv, check_utf8ness kv = true) l → push_valid l = (l, 0).
Proof. induction 1 as [|kv l Hkv _ IH]; [done|]. simpl. by rewrite Hkv, IH. Qed.
(** A text that is read as the items [its]. *)
Lemma parse_env_file_text text its :
  (∀ e, between [] e → between (reverse (value_read <$> its)) (env_loop text e)) → Forall item_ok its →
  parse_env_file (private_header +:+ text) = (0, λ key, last_value key (reverse (value_read <$> its))).
Proof.
  intros Ht H. unfold parse_env_file. destruct (env_loop_header text) as (e&->&He).
  destruct (Ht e He) as (Hs&_&_&Hp). unfold env_finish. rewrite Hs, Hp, reverse_involutive.
  rewrite push_valid_all; [done|]. apply Forall_fmap. eapply Forall_impl; [exact H|].
  intros [k v] (_&_&Hk&Hv). unfold check_utf8ness, value_read, read_value, compose. cbn [fst snd] in *.
  rewrite Hk. destruct v; [done|]. exact Hv.
Qed.
Lemma item_ok_read its : Forall item_ok its → Forall (λ kv, key_ok kv.1 ∧ value_ok kv.2) its.
Proof. intros H. eapply Forall_impl; [exact H|]. by intros kv (?&?&_). Qed.
Lemma parse_env_file_items its :
  Forall item_ok its →
  parse_env_file (private_header +:+ items its) = (0, λ key, last_value key (reverse (value_read <$> its))).
Proof.
  intros H. apply parse_env_file_text; [|done]. intros e He.
  rewrite <-(app_nil_r (reverse _)). apply env_loop_items; [|done]. by apply item_ok_read.
Qed.
(** The last line may end with a space. *)
Lemma parse_env_file_space its k v :
  Forall item_ok (its ++ [(k, v)])%list →
  parse_env_file (private_header +:+ items (its ++ [(k, v +:+ " ")])%list) =
    (0, λ key, last_value key (reverse (value_read <$> (its ++ [(k, v)])%list))).
Proof.
  intros H. apply parse_env_file_text; [|done]. intros e He.
  apply Forall_app in H as [H [Hk [Hv _]]%Forall_inv].
  assert (Hi : items (its ++ [(k, v +:+ " ")])%list = items its +:+ item (k, v +:+ " ") +:+ "").
  { clear. induction its as [|kv its IH]; [reflexivity|]. rewrite <-app_comm_cons. cbn [items]. by rewrite IH, string_app_assoc. }
  rewrite Hi. destruct (env_loop_items_then its [] e (item (k, v +:+ " ") +:+ "")) as (e1&->&He1); [by apply item_ok_read|done|].
  destruct (env_loop_line k v " " "" _ e1 Hk Hv (or_intror eq_refl) He1) as (e2&->&He2).
  rewrite fmap_app, reverse_app. cbn. by rewrite app_nil_r in He2.
Qed.

(** With distinct keys each key gives its value. *)
Lemma last_value_elem k v l : NoDup l.*1 → (k, v) ∈ l → last_value k (reverse (value_read <$> l)) = read_value v.
Proof.
  intros Hnd Hin. assert (Hnd' : NoDup (reverse (value_read <$> l)).*1).
  { rewrite fmap_reverse, <-list_fmap_compose. by rewrite reverse_Permutation. }
  assert (Hin' : (k, read_value v) ∈ reverse (value_read <$> l)).
  { apply elem_of_reverse, list_elem_of_fmap. by exists (k, v). }
  revert Hnd' Hin'. generalize (reverse (value_read <$> l)). intros l'. induction l' as [|[k' v'] l' IH].
  - by intros _ ?%elem_of_nil.
  - cbn. rewrite NoDup_cons, elem_of_cons. intros [Hn Hnd'] [[= -> ->]|Hin'].
    + by rewrite bool_decide_true.
    + rewrite bool_decide_false; [auto|]. intros ->. apply Hn, list_elem_of_fmap. by exists (k, read_value v).
Qed.
Lemma last_value_absent k l : k ∉ l.*1 → last_value k (reverse (value_read <$> l)) = None.
Proof.
  intros H. assert (H' : k ∉ (reverse (value_read <$> l)).*1).
  { rewrite fmap_reverse, <-list_fmap_compose. by rewrite elem_of_reverse. }
  revert H'. generalize (reverse (value_read <$> l)). intros l'. induction l' as [|[k' v'] l' IH]; [done|].
  cbn. rewrite not_elem_of_cons. intros [Hne Hn]. rewrite bool_decide_false; auto.
Qed.

(** The first item of a key; with distinct keys it is the only one. *)
Fixpoint find_item (k : string) (l : list (string * string)) : option string :=
  match l with [] => None | (k', v) :: l' => if bool_decide (k' = k) then Some v else find_item k l' end.
Lemma find_item_app k l1 l2 :
  find_item k (l1 ++ l2) = match find_item k l1 with Some v => Some v | None => find_item k l2 end.
Proof. induction l1 as [|[k' v] l1 IH]; [done|]. cbn. by case_bool_decide. Qed.
Lemma find_item_elem k v l : find_item k l = Some v → (k, v) ∈ l.
Proof.
  induction l as [|[k' v'] l IH]; [done|]. cbn. case_bool_decide; [intros [= ->]; subst; by left|]. right. auto.
Qed.
Lemma find_item_absent k l : find_item k l = None → k ∉ l.*1.
Proof.
  induction l as [|[k' v'] l IH]; [by intros _ ?%elem_of_nil|]. cbn. case_bool_decide; [done|].
  intros Hf. rewrite not_elem_of_cons. auto.
Qed.
(** A file gives each key the value of its item. *)
Lemma last_value_finds its k :
  NoDup its.*1 → last_value k (reverse (value_read <$> its)) = find_item k its ≫= read_value.
Proof.
  intros Hnd. destruct (find_item k its) as [v|] eqn:Ef; cbn.
  - by apply last_value_elem, find_item_elem.
  - by apply last_value_absent, find_item_absent.
Qed.
Lemma parse_env_file_finds its :
  Forall item_ok its → NoDup its.*1 →
  ∃ f, parse_env_file (private_header +:+ items its) = (0, f) ∧ ∀ k, f k = find_item k its ≫= read_value.
Proof.
  intros Hok Hnd. eexists. split; [by apply parse_env_file_items|]. intros k. by apply last_value_finds.
Qed.

(** * Values without backslashes are read as they were written *)

Definition no_backslash (s : string) : Prop := string_forallb (λ c, negb (bool_decide (c = backslash))) s = true.
Lemma unbackslash_id s : no_backslash s → unbackslash s = s.
Proof.
  unfold no_backslash. induction s as [|c s IH]; [done|]. cbn.
  case_bool_decide; [done|]. cbn. intros H'. by rewrite IH.
Qed.

(** C25: what the daemon writes to a state file as it is, it reads back: in a file
    of items with distinct keys, every value without backslashes, quotes
    or white space at its ends and newlines is what parse_env_file() stores
    for its key, and a key that is not in the file stays NULL. *)
Theorem state_file_roundtrip its k v :
  Forall item_ok its → NoDup its.*1 → (k, v) ∈ its → v ≠ "" → no_backslash v →
  ∃ f, parse_env_file (private_header +:+ items its) = (0, f) ∧ f k = Some v ∧
       ∀ k', k' ∉ its.*1 → f k' = None.
Proof.
  intros Hok Hnd Hin Hv Hb. eexists. split; [by apply parse_env_file_items|]. split.
  - rewrite (last_value_elem _ _ _ Hnd Hin). destruct v as [|c v]; [done|]. cbn [read_value].
    by rewrite unbackslash_id.
  - intros k' Hk. by apply last_value_absent.
Qed.
(** A test for items without backslashes. *)
Definition line_charb (c : ascii) : bool := negb (code c =? 0) && negb (is_newline c).
Definition simple_item (kv : string * string) : bool :=
  match kv.1 with EmptyString => false | String c _ => negb (in_set c COMMENTS) end
  && string_forallb (λ c, negb (code c =? 0) && negb (is_white c) && negb (bool_decide (c = "="%char))) kv.1
  && string_forallb (λ c, line_charb c && negb (bool_decide (c = backslash))) kv.2
  && negb (ends_white kv.2) && negb (head_is (λ c, is_white c || in_set c [squote; dquote]) kv.2)
  && utf8_is_valid kv.1 && utf8_is_valid kv.2.
Lemma key_text_simple k :
  string_forallb (λ c, negb (code c =? 0) && negb (is_white c) && negb (bool_decide (c = "="%char))) k = true →
  key_text k.
Proof.
  induction k as [|c k IH]; [constructor|]. cbn. intros [[[H1 H2]%andb_prop H3]%andb_prop H]%andb_prop.
  constructor; [|by apply IH]. split_and!.
  - by apply negb_true_iff, Z.eqb_neq in H1.
  - by apply negb_true_iff in H2.
  - by apply negb_true_iff, bool_decide_eq_false in H3.
Qed.
Lemma line_text_simple w :
  string_forallb (λ c, line_charb c && negb (bool_decide (c = backslash))) w = true →
  line_text w ∧ no_backslash w.
Proof.
  unfold no_backslash. induction w as [|c w IH]; [split; constructor|].
  cbn. intros [[[H1 H2]%andb_prop H3]%andb_prop H]%andb_prop. destruct (IH H) as [IH1 IH2].
  split; [|by rewrite H3]. apply text_plain; [|by apply negb_true_iff, bool_decide_eq_false in H3|done].
  split; [by apply negb_true_iff, Z.eqb_neq in H1|by apply negb_true_iff in H2].
Qed.
Lemma simple_item_ok kv : simple_item kv = true → item_ok kv.
Proof.
  unfold simple_item. intros [[[[[[H1 H2]%andb_prop H3]%andb_prop H4]%andb_prop H5]%andb_prop H6]%andb_prop H7]%andb_prop.
  apply line_text_simple in H3 as [H3 Hb]. apply key_text_simple in H2.
  apply negb_true_iff in H4, H5. split_and!; [|split_and!; done|done|by rewrite unbackslash_id].
  destruct (kv.1) as [|c k]; [done|]. exists c, k. split_and!; [done|by apply negb_true_iff in H1|done].
Qed.
Lemma simple_items_ok its : forallb simple_item its = true → Forall item_ok its.
Proof.
  induction its as [|kv its IH]; [constructor|]. cbn. intros [H1 H2]%andb_prop.
  constructor; [by apply simple_item_ok|by apply IH].
Qed.
Definition sample_items : list (string * string) :=
  [("UID", "1000"); ("STATE", "active"); ("CONTROLLER", ":1.7"); ("VTNR", "2")].
Lemma state_file_roundtrip_witness :
  ∃ f, parse_env_file (private_header +:+ items sample_items) = (0, f) ∧ f "CONTROLLER" = Some ":1.7" ∧
       ∀ k', k' ∉ sample_items.*1 → f k' = None.
Proof.
  apply state_file_roundtrip.
  - apply simple_items_ok. reflexivity.
  - apply (bool_decide_unpack _). vm_compute. exact I.
  - apply (bool_decide_unpack _). vm_compute. exact I.
  - done.
  - reflexivity.
Defined.

(** * What becomes of an escaped value *)

(** [xescape] with a space as its only bad character; then a backslash dropped. *)
Definition special (c : ascii) : bool :=
  (code c <? 32) || (127 <=? code c) || bool_decide (c = backslash) || in_set c [" "%char].
Fixpoint garbled (s : string) : string :=
  match s with
  | EmptyString => ""
  | String c s' =>
      (if special c then String "x" (String (hexchar (Z.shiftr (code c) 4)) (char1 (hexchar (code c))))
       else char1 c) +:+ garbled s'
  end.

Lemma xescape_char_text c w : line_text w → line_text (xescape_char [" "%char] c +:+ w).
Proof.
  intros Hw. destruct c as [[] [] [] [] [] [] [] []]; unfold xescape_char; cbn;
    repeat first [apply text_escape | apply text_plain]; done.
Qed.
Lemma xescape_text s : line_text (xescape s [" "%char]).
Proof. induction s as [|c s IH]; [constructor|]. by apply xescape_char_text. Qed.
Lemma unbackslash_xescape_char c w :
  unbackslash (xescape_char [" "%char] c +:+ w) =
  (if special c then String "x" (String (hexchar (Z.shiftr (code c) 4)) (char1 (hexchar (code c))))
   else char1 c) +:+ unbackslash w.
Proof. destruct c as [[] [] [] [] [] [] [] []]; reflexivity. Qed.
Lemma unbackslash_xescape s : unbackslash (xescape s [" "%char]) = garbled s.
Proof. induction s as [|c s IH]; [done|]. cbn [xescape garbled]. by rewrite unbackslash_xescape_char, IH. Qed.

Definition not_white (s : string) : bool := string_forallb (λ c, negb (is_white c)) s.
Lemma not_white_ends s : not_white s = true → ends_white s = false.
Proof.
  induction s as [|c [|d s] IH]; [done|..].
  - cbn. rewrite andb_true_r. by destruct (is_white c).
  - intros [_ H]%andb_prop. by apply IH.
Qed.
Lemma xescape_not_white s : not_white (xescape s [" "%char]) = true.
Proof.
  induction s as [|c s IH]; [done|]. cbn [xescape]. unfold not_white in *. rewrite string_forallb_app, IH, andb_true_r.
  destruct c as [[] [] [] [] [] [] [] []]; reflexivity.
Qed.
Lemma xescape_head s :
  head_is (λ c, in_set c [squote; dquote]) s = false →
  head_is (λ c, is_white c || in_set c [squote; dquote]) (xescape s [" "%char]) = false.
Proof. destruct s as [|c s]; [done|]. destruct c as [[] [] [] [] [] [] [] []]; done. Qed.
Lemma value_ok_xescape s :
  head_is (λ c, in_set c [squote; dquote]) s = false → value_ok (xescape s [" "%char]).
Proof.
  intros H. split_and!; [apply xescape_text|apply not_white_ends, xescape_not_white|by apply xescape_head].
Qed.

Lemma garbled_no_backslash s : no_backslash (garbled s).
Proof.
  unfold no_backslash. induction s as [|c s IH]; [done|]. cbn [garbled]. rewrite string_forallb_app, IH, andb_true_r.
  destruct c as [[] [] [] [] [] [] [] []]; reflexivity.
Qed.
(** Without a backslash there is nothing to unescape. *)
Lemma cunescape_no_backslash s relax nul : no_backslash s → cunescape s relax nul = Some (inr s).
Proof.
  unfold cunescape, no_backslash. intros H.
  assert (Hf : (String.length s < S (String.length s))%nat) by lia. revert Hf.
  generalize (S (String.length s)). revert H. induction s as [|c s IH]; intros H [|fuel] Hf; cbn in *; try lia; [done|].
  apply andb_prop in H as [Hc H]. destruct (bool_decide (c = backslash)) eqn:E; [done|].
  cbn. rewrite IH; [done|done|lia].
Qed.

(** ASCII is valid UTF-8. *)
Definition ascii_text (s : string) : bool := string_forallb (λ c, (code c <? 128)) s.
Lemma utf8_loop_ascii fuel s : ascii_text s = true → (String.length s ≤ fuel)%nat → utf8_valid_loop fuel s = true.
Proof.
  revert s. induction fuel as [|fuel IH]; intros [|c s] H Hl; cbn in *; try done; [lia|].
  apply andb_prop in H as [Hc H]. rewrite Z.ltb_lt in Hc.
  unfold utf8_encoded_valid_unichar, utf8_encoded_expected_len. cbn.
  rewrite (proj2 (Z.ltb_lt _ _)) by exact Hc. cbn. apply IH; [done|lia].
Qed.
Lemma utf8_ascii s : ascii_text s = true → utf8_is_valid s = true.
Proof. intros H. by apply utf8_loop_ascii. Qed.
Lemma garbled_ascii s : ascii_text (garbled s) = true.
Proof.
  unfold ascii_text. induction s as [|c s IH]; [done|]. cbn [garbled]. rewrite string_forallb_app, IH, andb_true_r.
  destruct c as [[] [] [] [] [] [] [] []]; reflexivity.
Qed.
