(* ===== verification/SdLoginFacts.v ===== *)
(** What the client library reads is what the daemon has saved. *)
From Stdlib Require Import Ascii.
From stdpp Require Import pretty.
From S2P Require Import Prelude Time LoginTypes ActionTypes LoginState LoginEnv Bus Escape Parse EnvFile Words Objects Inhibit WordsFacts EnvFileFacts SdLogin Events Cols Links LinksObjects LinksBus LinksRun LinksBoot Partial Sample Safety.
#[local] Open Scope string_scope.
#[local] Open Scope Z_scope.
#[local] Open Scope list_scope.

(** * The files on disk *)

Definition path_of (o : bus_object) : option string :=
  match o with
  | ManagerObj => None
  | SessionObj id => Some ("/run/systemd/sessions/" +:+ id)
  | SeatObj id => Some ("/run/systemd/seats/" +:+ id)
  | UserObj uid => Some ("/run/systemd/users/" +:+ pretty uid)
  end.
Definition file_text (l : state_file) : string := private_header +:+ items l.
(** The last thing that happened to a file is what is on disk. *)
Definition disk_step (fs : gmap string string) (ev : effect) : gmap string string :=
  match ev with
  | FileSaved o l => match path_of o with Some p => <[p := file_text l]> fs | None => fs end
  | FileRemoved o => match path_of o with Some p => delete p fs | None => fs end
  | _ => fs
  end.
Definition disk (m : manager) (p : string) : Z + string :=
  match foldl disk_step ∅ (m_trace m) !! p with Some t => inr t | None => inl (- ENOENT) end.
Lemma disk_saved m o l p :
  path_of o = Some p → disk (m <| m_trace := m_trace m ++ [FileSaved o l] |>) p = inr (file_text l).
Proof. intros Hp. unfold disk. cbn. rewrite foldl_app. cbn. by rewrite Hp, lookup_insert_eq. Qed.

(** * Values that are read as they are written *)

(** Printing characters other than space, quotes and backslashes. *)
Definition graph (c : ascii) : bool :=
  (33 <=? code c) && (code c <? 127) && negb (in_set c [squote; dquote; backslash]).
Definition graphs (s : string) : bool := string_forallb graph s.
Lemma string_forallb_impl (f g : ascii → bool) s :
  (∀ c, f c = true → g c = true) → string_forallb f s = true → string_forallb g s = true.
Proof. intros H. induction s as [|c s IH]; [done|]. cbn. intros [H1 H2]%andb_prop. by rewrite (H c H1), IH. Qed.
Lemma graph_spec c : graph c = true →
  line_char c ∧ c ≠ backslash ∧ is_white c = false ∧ in_set c [squote; dquote] = false ∧ (code c <? 128) = true.
Proof. destruct c as [[] [] [] [] [] [] [] []]; try done; intros _; (split; [split; done|repeat (split; [done|]); done]). Qed.
Lemma graphs_ends s : graphs s = true → ends_white s = false.
Proof.
  induction s as [|c s IH]; [done|]. cbn [graphs string_forallb]. intros [Hc%graph_spec Hs]%andb_prop.
  destruct s as [|d s]; [apply Hc|]. by apply IH.
Qed.
Lemma graphs_text s : graphs s = true → line_text s ∧ no_backslash s ∧ ascii_text s = true.
Proof.
  unfold no_backslash, ascii_text. induction s as [|c s IH]; [by repeat constructor|].
  cbn [graphs string_forallb]. intros [Hc Hs]%andb_prop. destruct (graph_spec c Hc) as (Hl&Hb&_&_&Ha).
  destruct (IH Hs) as (IH1&IH2&IH3). split_and!; [by apply text_plain| |by rewrite Ha].
  by rewrite bool_decide_false by done.
Qed.
Lemma graphs_head s : graphs s = true → head_is (λ c, is_white c || in_set c [squote; dquote]) s = false.
Proof.
  destruct s as [|c s]; [done|]. cbn. intros [Hc _]%andb_prop. destruct (graph_spec c Hc) as (_&_&->&H&_). exact H.
Qed.

(** A key that the daemon uses. *)
Definition plain_key (k : string) : bool :=
  match k with EmptyString => false | String c _ => negb (in_set c COMMENTS) end
  && string_forallb (λ c, graph c && negb (bool_decide (c = "="%char))) k.
Lemma plain_key_ok k : plain_key k = true → EnvFileFacts.key_ok k ∧ utf8_is_valid k = true.
Proof.
  unfold plain_key. destruct k as [|c k]; [done|]. intros [H1%negb_true_iff H2]%andb_prop. split.
  - exists c, k. split_and!; [done|done|]. apply key_text_simple. revert H2. apply string_forallb_impl.
    intros d [Hd ->]%andb_prop. destruct (graph_spec d Hd) as ([Hn _]&_&->&_&_). by rewrite (proj2 (Z.eqb_neq _ _) Hn).
  - apply utf8_ascii. revert H2. apply string_forallb_impl. intros d [Hd _]%andb_prop. by apply graph_spec.
Qed.
(** A value that a line keeps as it is. *)
Definition kept (v : string) : Prop := value_ok v ∧ no_backslash v ∧ utf8_is_valid v = true.
Lemma graphs_kept v : graphs v = true → kept v.
Proof.
  intros H. destruct (graphs_text v H) as (Ht&Hb&Ha). split_and!; [split_and!|done|by apply utf8_ascii]; [done| |].
  - by apply graphs_ends.
  - by apply graphs_head.
Qed.
Lemma kept_item k v : plain_key k = true → kept v → item_ok (k, v).
Proof.
  intros Hk (Hv&Hb&Hu). destruct (plain_key_ok k Hk). split_and!; [done|done|done|]. by rewrite unbackslash_id.
Qed.
Lemma kept_read v : no_backslash v → v ≠ "" → read_value v = Some v.
Proof. intros Hb Hv. destruct v as [|c v]; [done|]. cbn [read_value]. by rewrite unbackslash_id. Qed.

Lemma digits_graphs s : string_forallb ascii_isdigit s = true → graphs s = true.
Proof. apply string_forallb_impl. intros c. by destruct c as [[] [] [] [] [] [] [] []]. Qed.
Lemma pretty_graphs z : 0 ≤ z → graphs (pretty z) = true ∧ pretty z ≠ "".
Proof. intros Hz. destruct (pretty_digits z Hz) as [Hne Hd]. split; [by apply digits_graphs|done]. Qed.
Lemma session_id_graphs id : session_id_valid id = true → graphs id = true ∧ id ≠ "".
Proof.
  destruct id as [|c id]; [done|]. intros H. split; [|done]. revert H. unfold session_id_valid. apply string_forallb_impl.
  intros d. by destruct d as [[] [] [] [] [] [] [] []].
Qed.

(** Words without a space, joined by one. *)
Lemma graphs_word w : graphs w = true → w ≠ "" → plain_word WHITESPACE w.
Proof.
  intros H Hne. split; [done|]. revert H. apply string_forallb_impl. intros c Hc. destruct (graph_spec c Hc) as (_&Hb&Hw&_).
  unfold plain. rewrite bool_decide_false by done. unfold is_white in Hw. unfold is_separator. by rewrite Hw.
Qed.
Definition spaced (c : ascii) : bool := graph c || bool_decide (c = " "%char).
Lemma spaced_text s : string_forallb spaced s = true → line_text s ∧ no_backslash s ∧ ascii_text s = true.
Proof.
  unfold no_backslash, ascii_text. induction s as [|c s IH]; [by repeat constructor|].
  cbn [string_forallb]. intros [Hc Hs]%andb_prop.
  assert (Hc' : line_char c ∧ c ≠ backslash ∧ (code c <? 128) = true).
  { unfold spaced in Hc. apply orb_prop in Hc as [Hc|Hc]; [destruct (graph_spec c Hc) as (?&?&_&_&?); auto|].
    apply bool_decide_eq_true in Hc as ->. by split_and!. }
  destruct Hc' as (Hl&Hb&Ha). destruct (IH Hs) as (IH1&IH2&IH3). split_and!; [by apply text_plain| |by rewrite Ha].
  by rewrite bool_decide_false by done.
Qed.
Lemma ends_white_app a b : b ≠ "" → ends_white (a +:+ b) = ends_white b.
Proof.
  intros Hb. induction a as [|c a IH]; [done|]. rewrite string_app_cons, ends_white_cons; [done|]. by destruct a.
Qed.
Lemma joined_kept ws : Forall (λ w, graphs w = true ∧ w ≠ "") ws → kept (concat_with " " ws).
Proof.
  intros Hws.
  assert (Hs : string_forallb spaced (concat_with " " ws) = true ∧ ends_white (concat_with " " ws) = false ∧
    head_is (λ c, is_white c || in_set c [squote; dquote]) (concat_with " " ws) = false ∧ (ws ≠ [] → concat_with " " ws ≠ "")).
  { induction Hws as [|w ws [Hw Hne] Hws IH]; [done|]. destruct IH as (IH1&IH2&IH3&IH4).
    assert (Hsp : string_forallb spaced w = true) by (revert Hw; apply string_forallb_impl; intros c; unfold spaced; by intros ->).
    destruct ws as [|w' ws]; cbn [concat_with].
    { split_and!; [done|by apply graphs_ends|by apply graphs_head|done]. }
    rewrite !string_forallb_app, Hsp. split_and!; [done| | |by destruct w].
    - rewrite ends_white_app by done. rewrite ends_white_app by (by apply IH4). done.
    - destruct w as [|c w]; [done|]. by apply (graphs_head (String c w)). }
  destruct Hs as (Hs&He&Hh&_). destruct (spaced_text _ Hs) as (Ht&Hb&Ha). split_and!; [by split_and!|done|by apply utf8_ascii].
Qed.
Lemma split_full_joined flags ws :
  EXTRACT_DONT_COALESCE_SEPARATORS flags = false → EXTRACT_RETAIN_SEPARATORS flags = false →
  EXTRACT_KEEP_QUOTE flags || EXTRACT_UNQUOTE flags = false →
  Forall (λ w, graphs w = true ∧ w ≠ "") ws → ws ≠ [] →
  strv_split_full (concat_with " " ws) WHITESPACE flags = inr ws.
Proof.
  intros H1 H2 H3 Hws Hne. unfold strv_split_full.
  assert (Hp : Forall (plain_word WHITESPACE) ws).
  { eapply Forall_impl; [exact Hws|]. intros w []. by apply graphs_word. }
  assert (Hl : (length ws ≤ S (String.length (concat_with " " ws)))%nat).
  { clear Hne Hp. induction Hws as [|w ws [_ Hw] _ IH]; [cbn; lia|]. destruct ws as [|w' ws]; [cbn; lia|].
    change (concat_with " " (w :: w' :: ws)) with (w +:+ " " +:+ concat_with " " (w' :: ws)). rewrite !string_length_app.
    destruct w; [done|]. cbn in *. lia. }
  pose proof (split_loop_joined WHITESPACE flags H1 H2 H3 eq_refl " "%char ws
    (2 + String.length (concat_with " " ws)) eq_refl Hp ltac:(lia)) as H.
  destruct ws as [|w ws]; [done|]. change (char1 " ") with " " in H. by rewrite H.
Qed.
Lemma split_joined ws :
  Forall (λ w, graphs w = true ∧ w ≠ "") ws → ws ≠ [] → strv_split (concat_with " " ws) WHITESPACE = Some ws.
Proof. intros. unfold strv_split. by rewrite split_full_joined. Qed.
(** The other loops over words go over the words of the split. *)
Lemma contains_loop_split n seps flags words s l :
  split_loop n seps flags s = inr l → contains_loop n seps flags words s = inr (existsb (λ w, in_set w words) l).
Proof.
  revert s l. induction n as [|n IH]; intros s l; [done|]. cbn.
  destruct (extract_first_word seps flags s) as [| |w s']; [done|by intros [= <-]|].
  destruct (split_loop n seps flags s') as [|l'] eqn:El; [done|]. intros [= <-]. cbn.
  destruct (in_set w words); [done|]. by apply IH.
Qed.
Lemma uids_loop_split n room s l uids :
  split_loop n WHITESPACE no_extract_flags s = inr l → Forall2 (λ w u, parse_uid w = inr u) l uids →
  (length l ≤ room)%nat → uids_loop n room s = Some (inr uids).
Proof.
  revert room s l uids. induction n as [|n IH]; intros room s l uids; [done|]. cbn.
  destruct (extract_first_word _ _ s) as [| |w s']; [done| |].
  - intros [= <-] ->%Forall2_nil_inv_l. done.
  - destruct (split_loop n _ _ s') as [|l'] eqn:El; [done|]. intros [= <-].
    intros (u&us&Hu&Hus&->)%Forall2_cons_inv_l Hr. rewrite Hu. cbn in Hr. destruct room as [|room]; [lia|].
    rewrite (IH room s' l' us) by (done || lia). done.
Qed.

(** * The files of the seats *)

Definition valid_uid (uid : Z) : Prop := 0 ≤ uid ≤ UINT_MAX ∧ uid_is_valid uid = true.
#[export] Instance valid_uid_decision uid : Decision (valid_uid uid).
Proof. unfold valid_uid. apply _. Defined.
Definition uids_valid (m : manager) : Prop := map_Forall (λ _ u, valid_uid (ur_uid (u_user_record u))) (m_users m).
Definition uid_of (m : manager) (sid : string) : Z :=
  match s ← m_sessions m !! sid; uid ← s_user s; m_users m !! uid with Some u => ur_uid (u_user_record u) | None => 0 end.

Lemma session_uid_runs m sid s : links_agree m → m_sessions m !! sid = Some s → session_uid sid m = Some (uid_of m sid, m).
Proof.
  intros Hl Hs. destruct (session_has_user _ Hl _ _ Hs) as (uid&u&Hu&Hus&_).
  unfold session_uid, get_session, get_user, bind, gets, uid_of. rewrite Hs. cbn. rewrite Hu. cbn. by rewrite Hus.
Qed.
Lemma uid_of_valid m sid s : links_agree m → uids_valid m → m_sessions m !! sid = Some s → valid_uid (uid_of m sid).
Proof.
  intros Hl Hv Hs. destruct (session_has_user _ Hl _ _ Hs) as (uid&u&Hu&Hus&_).
  unfold uid_of. rewrite Hs. cbn. rewrite Hu. cbn. rewrite Hus. by apply (Hv uid).
Qed.
Lemma map_uids_run m l : links_agree m → Forall (λ sid, is_Some (m_sessions m !! sid)) l →
  map_m session_uid l m = Some (uid_of m <$> l, m).
Proof.
  intros Hl. induction 1 as [|sid l [s Hs] _ IH]; [done|]. cbn. unfold bind at 1.
  rewrite (session_uid_runs m sid s Hl Hs). unfold bind. by rewrite IH.
Qed.
Definition seat_lines (m : manager) (t : seat) (seat0 tty graphical : bool) : state_file :=
  [("IS_SEAT0", one_zero seat0); ("CAN_MULTI_SESSION", "1"); ("CAN_TTY", one_zero tty);
   ("CAN_GRAPHICAL", one_zero graphical)]
  ++ (match se_active t with Some a => [("ACTIVE", a); ("ACTIVE_UID", pretty (uid_of m a))] | None => [] end)
  ++ match se_sessions t with
     | [] => []
     | l => [("SESSIONS", concat_with " " l); ("UIDS", concat_with " " (pretty <$> (uid_of m <$> l)))]
     end.
Lemma graphical_reads k : moves eq (seat_can_graphical k).
Proof. unfold seat_can_graphical, seat_has_master_device, get_seat, get_device. solve_moves. Qed.
Definition can_tty (m : manager) (k : string) : bool :=
  bool_decide (m_seat0 m = Some k) && (0 <=? m_console_active_fd m).
Lemma seat_save_runs k m t graphical :
  links_agree m → m_seats m !! k = Some t → se_started t = true → seat_can_graphical k m = Some (graphical, m) →
  seat_save k m = Some (0, m <| m_trace := m_trace m ++
    [FileSaved (SeatObj k) (seat_lines m t (bool_decide (m_seat0 m = Some k)) (can_tty m k) graphical)] |>).
Proof.
  intros Hl Ht Hst Hg. assert (Hin : Forall (λ sid, is_Some (m_sessions m !! sid)) (se_sessions t)).
  { apply Forall_forall. intros sid Hs. destruct (seat_has_sessions _ Hl _ _ _ Ht Hs) as (s&->&_). by eexists. }
  assert (Hget : get_seat k m = Some (t, m)) by (unfold get_seat, bind, gets; by rewrite Ht).
  unfold seat_save. rewrite (bind_run _ _ _ _ _ Hget), Hst. cbn [negb].
  rewrite (bind_run _ _ _ _ _ (eq_refl : seat_is_seat0 k m = Some (_, m))).
  rewrite (bind_run _ _ _ _ _ (eq_refl : seat_can_tty k m = Some (can_tty m k, m))), (bind_run _ _ _ _ _ Hg).
  unfold seat_lines. destruct (se_active t) as [a|] eqn:Ea.
  - pose proof (seat_active _ Hl _ _ a Ht (or_introl Ea)) as Ha.
    destruct (seat_has_sessions _ Hl _ _ _ Ht Ha) as (s&Hs&_).
    assert (Hgs : get_session a m = Some (s, m)) by (unfold get_session, bind, gets; by rewrite Hs).
    erewrite bind_run; [|rewrite (bind_run _ _ _ _ _ Hgs), (bind_run _ _ _ _ _ (session_uid_runs m a s Hl Hs)); reflexivity].
    rewrite (bind_run _ _ _ _ _ (map_uids_run m _ Hl Hin)). by destruct (se_sessions t).
  - erewrite bind_run; [|reflexivity].
    rewrite (bind_run _ _ _ _ _ (map_uids_run m _ Hl Hin)). by destruct (se_sessions t).
Qed.

Lemma find_one k v (l1 l2 : state_file) : find_item k l1 = None → find_item k (l1 ++ (k, v) :: l2) = Some v.
Proof. intros H. rewrite find_item_app, H. cbn. by rewrite bool_decide_true. Qed.
Lemma one_zero_kept b : kept (one_zero b).
Proof. apply graphs_kept. by destruct b. Qed.
Lemma seat_lines_ok m t b1 b2 b3 :
  (∀ a, se_active t = Some a → session_id_valid a = true ∧ valid_uid (uid_of m a)) →
  Forall (λ sid, session_id_valid sid = true ∧ valid_uid (uid_of m sid)) (se_sessions t) →
  Forall item_ok (seat_lines m t b1 b2 b3) ∧ NoDup (seat_lines m t b1 b2 b3).*1.
Proof.
  intros Ha Hs. unfold seat_lines. split.
  - apply Forall_app. split; [|apply Forall_app; split].
    + repeat (apply Forall_cons; split; [apply kept_item; [done|first [apply one_zero_kept|by apply graphs_kept]]|]).
      constructor.
    + destruct (se_active t) as [a|]; [|constructor]. destruct (Ha a eq_refl) as [Hid [Hu _]].
      apply Forall_cons; split; [|apply Forall_cons; split; [|constructor]]; (apply kept_item; [done|]); apply graphs_kept.
      * by apply session_id_graphs.
      * apply pretty_graphs. lia.
    + assert (Hj : kept (concat_with " " (se_sessions t)) ∧ kept (concat_with " " (pretty <$> (uid_of m <$> se_sessions t)))).
      { split; apply joined_kept.
        - eapply Forall_impl; [exact Hs|]. intros sid [Hid _]. by apply session_id_graphs.
        - rewrite !Forall_fmap. eapply Forall_impl; [exact Hs|]. intros sid [_ [Hu _]]. apply pretty_graphs. lia. }
      destruct (se_sessions t) as [|sid l]; [constructor|].
      apply Forall_cons; split; [|apply Forall_cons; split; [|constructor]]; (apply kept_item; [done|]); apply Hj.
  - destruct (se_active t), (se_sessions t); apply (bool_decide_unpack _); reflexivity.
Qed.
Lemma read_saved m o l p :
  path_of o = Some p → Forall item_ok l ∧ NoDup l.*1 →
  ∃ f, parse_env_file_of (disk (m <| m_trace := m_trace m ++ [FileSaved o l] |>)) p = (0, f) ∧
    ∀ k, f k = find_item k l ≫= read_value.
Proof.
  intros Hp [Hok Hnd]. unfold parse_env_file_of. rewrite (disk_saved m o l p Hp). by apply parse_env_file_finds.
Qed.

(** What a client may ask about a seat. *)
Record seat_is_told (files : string → Z + string) (own : Z + string) (m : manager) (k : string) (t : seat) : Prop := {
  told_sessions : sd_seat_get_sessions files own (Some k) true =
    Some (inr (se_sessions t, match se_sessions t with [] => None | l => Some (uid_of m <$> l) end));
  told_active : sd_seat_get_active files own (Some k) true true =
    match se_active t with Some a => inr (Some a, Some (uid_of m a)) | None => inl (- ENODATA) end;
  told_on_seat : ∀ uid, valid_uid uid →
    sd_uid_is_on_seat files own uid false (Some k) = inr (bool_decide (uid ∈ uid_of m <$> se_sessions t)) ∧
    sd_uid_is_on_seat files own uid true (Some k) = inr (bool_decide (uid_of m <$> se_active t = Some uid));
  told_tty : sd_seat_can_tty files own (Some k) = inr (can_tty m k);
  told_graphical : ∃ b, seat_can_graphical k m = Some (b, m) ∧ sd_seat_can_graphical files own (Some k) = inr b;
}.

Lemma file_of_seat_valid files own k :
  seat_name_is_valid k = true → file_of_seat files own (Some k) = inr ("/run/systemd/seats/" +:+ k).
Proof.
  intros Hk. unfold seat_name_is_valid in Hk. unfold file_of_seat.
  destruct (startswith k "seat") as [[|x r]|] eqn:Es; [done| |done]. apply andb_prop in Hk as [Hc Hl].
  destruct k as [|c k]; [done|].
  assert (Hv : filename_is_valid (String c k) = true).
  { unfold filename_is_valid, dot_or_dot_dot, filename_part_is_valid.
    assert (Hdot : head_is (λ c, bool_decide (c = "."%char)) (String c k) = false).
    { cbn in Hc. apply andb_prop in Hc as [Hc _]. destruct c as [[] [] [] [] [] [] [] []]; done. }
    rewrite !bool_decide_false; [cbn [negb andb]| |done].
    - apply andb_true_intro. split; [|exact Hl]. revert Hc. apply string_forallb_impl.
      intros d. by destruct d as [[] [] [] [] [] [] [] []].
    - by intros [[= -> ->]|[= -> ->]]. }
  rewrite Hv. cbn [negb]. unfold path_join, ends_slash, starts_slash. cbn [head_is].
  rewrite (bool_decide_false (c = _)); [done|]. cbn in Hc. apply andb_prop in Hc as [Hc _]. by intros ->.
Qed.

Lemma parse_uids m l :
  Forall (λ sid, session_id_valid sid = true ∧ valid_uid (uid_of m sid)) l →
  Forall2 (λ w u, parse_uid w = inr u) (pretty <$> (uid_of m <$> l)) (uid_of m <$> l).
Proof.
  induction 1 as [|sid l [_ [Hr Hv]] _ IH]; [constructor|]. cbn. constructor; [|done]. by apply parse_uid_pretty.
Qed.
Lemma uid_words m l :
  Forall (λ sid, session_id_valid sid = true ∧ valid_uid (uid_of m sid)) l →
  Forall (λ w, graphs w = true ∧ w ≠ "") (pretty <$> (uid_of m <$> l)).
Proof.
  rewrite !Forall_fmap. intros H. eapply Forall_impl; [exact H|]. intros sid [_ [Hr _]]. apply pretty_graphs. lia.
Qed.
Lemma id_words m l :
  Forall (λ sid, session_id_valid sid = true ∧ valid_uid (uid_of m sid)) l → Forall (λ w, graphs w = true ∧ w ≠ "") l.
Proof. intros H. eapply Forall_impl; [exact H|]. intros sid [Hid _]. by apply session_id_graphs. Qed.
Lemma existsb_in {A} `{EqDecision A} (x : A) l : existsb (λ w, in_set w [x]) l = bool_decide (x ∈ l).
Proof.
  induction l as [|y l IH]; [done|]. cbn [existsb]. rewrite IH. unfold in_set.
  destruct (decide (y = x)) as [->|Hne].
  - rewrite bool_decide_true by (by left). cbn [orb]. symmetry. apply bool_decide_true. by left.
  - rewrite bool_decide_false; [|by intros ?%list_elem_of_singleton]. cbn. apply bool_decide_ext.
    rewrite elem_of_cons. split; [by right|]. by intros [->|].
Qed.
Lemma pretty_in z l : bool_decide (pretty z ∈ pretty <$> l) = bool_decide (z ∈ (l : list Z)).
Proof.
  apply bool_decide_ext. rewrite list_elem_of_fmap. split; [|by exists z].
  intros (y&Hy&Hin). by apply (inj pretty) in Hy as ->.
Qed.
Lemma contains_joined ws w :
  Forall (λ w, graphs w = true ∧ w ≠ "") ws → ws ≠ [] →
  string_contains_word (concat_with " " ws) None w = inr (bool_decide (w ∈ ws)).
Proof.
  intros Hws Hne. unfold string_contains_word.
  pose proof (split_full_joined no_extract_flags ws eq_refl eq_refl eq_refl Hws Hne) as H.
  pose proof (contains_loop_split _ _ _ [w] _ _ H) as Hc. rewrite existsb_in in Hc. exact Hc.
Qed.

Lemma joined_read ws :
  Forall (λ w, graphs w = true ∧ w ≠ "") ws → ws ≠ [] → read_value (concat_with " " ws) = Some (concat_with " " ws).
Proof.
  intros Hws Hne. apply kept_read; [by apply joined_kept|]. destruct Hws as [|w ws [_ Hw] _]; [done|].
  destruct ws; [done|]. cbn. by destruct w.
Qed.
Lemma one_zero_read b : read_value (one_zero b) = Some (one_zero b) ∧ parse_boolean (one_zero b) = inr b.
Proof. by destruct b. Qed.

(** What the keys of a seat's file hold. *)
Lemma seat_values m t b1 b2 b3 (f : string → option string) :
  (∀ k, f k = find_item k (seat_lines m t b1 b2 b3) ≫= read_value) →
  (∀ a, se_active t = Some a → session_id_valid a = true ∧ valid_uid (uid_of m a)) →
  Forall (λ sid, session_id_valid sid = true ∧ valid_uid (uid_of m sid)) (se_sessions t) →
  f "CAN_TTY" = Some (one_zero b2) ∧ f "CAN_GRAPHICAL" = Some (one_zero b3) ∧
  f "ACTIVE" = se_active t ∧ f "ACTIVE_UID" = (λ a, pretty (uid_of m a)) <$> se_active t ∧
  (se_sessions t = [] → f "SESSIONS" = None ∧ f "UIDS" = None) ∧
  (se_sessions t ≠ [] → f "SESSIONS" = Some (concat_with " " (se_sessions t)) ∧
     f "UIDS" = Some (concat_with " " (pretty <$> (uid_of m <$> se_sessions t)))).
Proof.
  intros Hf Ha Hs. rewrite !Hf. pose proof (id_words m _ Hs) as Hw1. pose proof (uid_words m _ Hs) as Hw2.
  assert (Hact : ∀ a, se_active t = Some a → read_value a = Some a ∧ read_value (pretty (uid_of m a)) = Some (pretty (uid_of m a))).
  { intros a Ea. destruct (Ha a Ea) as [Hid [Hr _]]. destruct (session_id_graphs a Hid) as [H1 H2].
    destruct (pretty_graphs (uid_of m a)) as [H3 H4]; [lia|].
    split; apply kept_read; try done; by apply graphs_kept. }
  pose proof (joined_read _ Hw1) as Hj1. pose proof (joined_read _ Hw2) as Hj2.
  unfold seat_lines. destruct (se_active t) as [a|];
    [destruct (Hact a eq_refl) as [Ha1 Ha2]|]; (destruct (se_sessions t) as [|sid l] eqn:El;
      [|specialize (Hj1 ltac:(done)); specialize (Hj2 ltac:(done))]); split_and!; try done; try (by apply one_zero_read).
Qed.
Lemma told_seat own m k t b :
  seat_name_is_valid k = true → seat_can_graphical k m = Some (b, m) →
  (∀ a, se_active t = Some a → session_id_valid a = true ∧ valid_uid (uid_of m a)) →
  Forall (λ sid, session_id_valid sid = true ∧ valid_uid (uid_of m sid)) (se_sessions t) →
  seat_is_told (disk (m <| m_trace := m_trace m ++
    [FileSaved (SeatObj k) (seat_lines m t (bool_decide (m_seat0 m = Some k)) (can_tty m k) b)] |>)) own m k t.
Proof.
  intros Hk Hg Ha Hs. set (l := seat_lines _ _ _ _ _).
  destruct (read_saved m (SeatObj k) l _ eq_refl
    (seat_lines_ok m t (bool_decide (m_seat0 m = Some k)) (can_tty m k) b Ha Hs)) as (f&Hf&Hv).
  destruct (seat_values m t _ _ _ f Hv Ha Hs) as (Htty&Hgr&Hact&Hau&Hnone&Hsome).
  set (files := disk _) in *.
  assert (Hfile : ∀ A (en : Z + A) g, and_then_file files (file_of_seat files own (Some k)) en g = g f).
  { intros A en g. rewrite file_of_seat_valid by done. unfold and_then_file. by rewrite Hf. }
  pose proof (id_words m _ Hs) as Hw1. pose proof (uid_words m _ Hs) as Hw2.
  constructor.
  - unfold sd_seat_get_sessions. rewrite file_of_seat_valid, Hf by done. cbn.
    destruct (decide (se_sessions t = [])) as [El|Hne]; [destruct (Hnone El) as [-> ->]; by rewrite El|].
    destruct (Hsome Hne) as [-> ->]. rewrite split_joined by done. unfold seat_uids.
    assert (Hne2 : pretty <$> (uid_of m <$> se_sessions t) ≠ []) by by destruct (se_sessions t).
    pose proof (split_full_joined no_extract_flags _ eq_refl eq_refl eq_refl Hw2 Hne2) as Hsp.
    rewrite (uids_loop_split _ (length (se_sessions t)) _ _ _ Hsp (parse_uids m _ Hs)); [|by rewrite !length_fmap].
    rewrite length_fmap, Nat.eqb_refl. by destruct (se_sessions t).
  - unfold sd_seat_get_active. cbn [orb negb]. rewrite Hfile. cbv beta zeta. rewrite Hact, Hau.
    destruct (se_active t) as [a|]; [|done]. cbn. destruct (Ha a eq_refl) as [_ [Hr Hu]]. by rewrite parse_uid_pretty.
  - intros uid [Hr Hu]. unfold sd_uid_is_on_seat. rewrite Hu. cbn [negb]. rewrite !Hfile. cbv beta iota. split.
    + destruct (decide (se_sessions t = [])) as [El|Hne]; [destruct (Hnone El) as [_ ->]; by rewrite El|].
      destruct (Hsome Hne) as [_ ->].
      assert (Hne2 : pretty <$> (uid_of m <$> se_sessions t) ≠ []) by by destruct (se_sessions t).
      rewrite <-pretty_in, <-(contains_joined _ (pretty uid) Hw2 Hne2).
      pose proof (joined_read _ Hw2 Hne2) as Hj. revert Hj. generalize (concat_with " " (pretty <$> (uid_of m <$> se_sessions t))). intros w Hj. by destruct w.
    + rewrite Hau. destruct (se_active t) as [a|]; [|cbn; by rewrite bool_decide_false]. cbn [fmap option_fmap option_map].
      destruct (Ha a eq_refl) as [_ [Hra _]]. destruct (pretty_graphs (uid_of m a)) as [Hg1 Hg2]; [lia|].
      pose proof (contains_joined [pretty (uid_of m a)] (pretty uid) ltac:(by constructor) ltac:(done)) as Hc.
      cbn [concat_with] in Hc. destruct (pretty (uid_of m a)) as [|x y] eqn:Ep; [done|]. rewrite Hc. f_equal.
      rewrite <-Ep. apply bool_decide_ext. rewrite list_elem_of_singleton. split.
      * intros E%(inj pretty). by rewrite E.
      * by intros [= ->].
  - unfold sd_seat_can_tty, seat_get_can. rewrite Hfile, Htty. by destruct (can_tty m k).
  - exists b. split; [done|]. unfold sd_seat_can_graphical, seat_get_can. rewrite Hfile, Hgr. by destruct b.
Qed.

(** C28: the client library tells of a seat what the daemon knows of it: in every
    reachable state, once the seat's file is saved, the sessions it lists, their
    uids, the active session and its user, who is on the seat, and what the seat
    can do are those of the daemon, and no uid is written past the array. *)
Theorem seat_file_is_true c m own k t :
  sane c → reachable c m → uids_valid m →
  m_seats m !! k = Some t → se_started t = true → seat_name_is_valid k = true →
  ∃ m', seat_save k m = Some (0, m') ∧ seat_is_told (disk m') own m k t.
Proof.
  intros Hc Hm Hu Ht Hst Hk. pose proof (reachable_wf c m Hc Hm) as Hwf. pose proof (wf_links_agree m Hwf) as Hl.
  assert (Hin : ∀ sid, sid ∈ se_sessions t → session_id_valid sid = true ∧ valid_uid (uid_of m sid)).
  { intros sid Hsid. destruct (seat_has_sessions _ Hl _ _ _ Ht Hsid) as (s&Hs&_). split.
    - apply (wf_ids _ _ Hwf). eexists. by apply (col_in s_user _ _ _ Hs).
    - by apply (uid_of_valid m sid s). }
  assert (Hh : has_t (cols_of m) k) by (eexists; by apply (col_in se_sessions _ _ _ Ht)).
  destruct (wp_run _ _ _ (soft_seat_has_master_device ex0 (cols_of m) Hwf k Hh m eq_refl)) as (b&m1&Hb&_).
  pose proof (graphical_reads k _ _ _ Hb) as <-.
  eexists. split; [by apply (seat_save_runs k m t b)|]. apply told_seat; [done|done| |by apply Forall_forall].
  intros a Ha. apply Hin. apply (seat_active _ Hl _ _ _ Ht). by left.
Qed.
Lemma sample_uids : uids_valid sample_busy.
Proof. apply (bool_decide_eq_true_1 _). vm_compute. reflexivity. Qed.
Lemma seat_file_is_true_witness :
  ∃ t m', m_seats sample_busy !! "seat0" = Some t ∧ seat_save "seat0" sample_busy = Some (0, m') ∧
    sd_seat_get_sessions (disk m') (inl (- ENODATA)) (Some "seat0") true = Some (inr (["c2"; "c1"], Some [1001; 1000])).
Proof.
  destruct (m_seats sample_busy !! "seat0") as [t|] eqn:Et; [|by vm_compute in Et].
  assert (Hst : se_started t = true ∧ se_sessions t = ["c2"; "c1"]) by (vm_compute in Et; injection Et as <-; done).
  destruct (seat_file_is_true sample_config sample_busy (inl (- ENODATA)) "seat0" t) as (m'&Hs&[Hq _ _ _ _]);
    [done|done|apply sample_uids|done|apply Hst|reflexivity|].
  exists t, m'. split_and!; [done|done|]. rewrite Hq, (proj2 Hst). vm_compute. reflexivity.
Defined.
