(* ===== verification/SdSessionFacts.v ===== *)
(** What the client library reads of a session, and what a controller can make
    it read. *)
From Stdlib Require Import Ascii.
From stdpp Require Import pretty.
From S2P Require Import Prelude Time LoginTypes ActionTypes LoginState LoginEnv Bus Escape Parse EnvFile Words Objects Session SessionBus Inhibit WordsFacts EnvFileFacts SdLogin SdLoginFacts Events Cols Links LinksObjects LinksBus LinksRun LinksBoot Partial Sample Safety.
#[local] Open Scope string_scope.
#[local] Open Scope Z_scope.
#[local] Open Scope list_scope.

(** * The keys of the file *)

Definition session_keys : list string :=
  ["UID"; "USER"; "ACTIVE"; "IS_DISPLAY"; "STATE"; "REMOTE"; "LEADER_FD_SAVED"; "TYPE"; "ORIGINAL_TYPE"; "CLASS";
   "SCOPE"; "FIFO"; "SEAT"; "TTY"; "TTY_VALIDITY"; "DISPLAY"; "REMOTE_HOST"; "REMOTE_USER"; "SERVICE"; "DESKTOP";
   "VTNR"; "POSITION"; "LEADER"; "AUDIT"; "REALTIME"; "MONOTONIC"; "CONTROLLER"; "DEVICES"].
Lemma opt_line_keys k o : (opt_line k o).*1 `sublist_of` [k].
Proof. destruct o; [done|]. apply sublist_nil_l. Qed.
Lemma when_line_keys b k v : (when_line b k v).*1 `sublist_of` [k].
Proof. destruct b; [done|]. apply sublist_nil_l. Qed.
Lemma find_opt k k' o : find_item k (opt_line k' o) = if bool_decide (k' = k) then o else None.
Proof. destruct o; cbn; by case_bool_decide. Qed.
Lemma find_when k b k' v : find_item k (when_line b k' v) = if bool_decide (k' = k) then (if b then Some v else None) else None.
Proof. destruct b; cbn; by case_bool_decide. Qed.

(** Membership of a list that is written out. *)
Ltac in_list := repeat first [left; reflexivity|right].
(** Closed comparisons of keys are evaluated. *)
Ltac eval_keys := repeat match goal with
  | |- context [@bool_decide (?a = ?b) ?d] =>
      let r := eval vm_compute in (@bool_decide (a = b) d) in
      match r with true => idtac | false => idtac end; change (@bool_decide (a = b) d) with r
  end.

(** A device as DEVICES= names it. *)
Definition device_word (d : Z) : string := pretty (dev_major d) +:+ ":" +:+ pretty (dev_minor d).
Lemma device_word_graphs d : graphs (device_word d) = true ∧ device_word d ≠ "".
Proof.
  assert (Ha : 0 ≤ dev_major d) by (unfold dev_major; rewrite Z.lor_nonneg, !Z.shiftr_nonneg, !Z.land_nonneg; lia).
  assert (Hb : 0 ≤ dev_minor d) by (unfold dev_minor; rewrite Z.lor_nonneg, Z.shiftr_nonneg, !Z.land_nonneg; lia).
  unfold device_word. destruct (pretty_graphs _ Ha) as [G1 N1], (pretty_graphs _ Hb) as [G2 N2]. split.
  - unfold graphs in *. by rewrite !string_forallb_app, G1, G2.
  - by destruct (pretty (dev_major d)).
Qed.

Section Lines.
Context {E : Env}.
Context (sid : string) (s : session) (u : user) (active vts : bool) (state : SessionState).

Definition device_words : list string := device_word <$> e_order (fst <$> map_to_list (s_devices s)).
(** The lines without the controller and its devices, and all of them with the
    devices as they are read. *)
Definition session_head : state_file := session_lines sid (s <| s_controller := None |>) u active vts state.
Definition session_items : state_file :=
  session_head ++ match s_controller s with
                  | Some c => ("CONTROLLER", c) :: (match device_words with [] => [] | ws => [("DEVICES", concat_with " " ws)] end)
                  | None => []
                  end.
Lemma devices_spaced l : l ≠ [] →
  foldr (λ d acc, pretty (dev_major d) +:+ ":" +:+ pretty (dev_minor d) +:+ " " +:+ acc) EmptyString l
  = concat_with " " (device_word <$> l) +:+ " ".
Proof.
  induction l as [|d l IH]; [done|]. intros _. destruct l as [|d' l].
  - cbn [foldr fmap list_fmap concat_with]. unfold device_word. by rewrite !string_app_assoc.
  - rewrite fmap_cons.
    change (concat_with " " (device_word d :: (device_word <$> d' :: l)))
      with (device_word d +:+ " " +:+ concat_with " " (device_word <$> d' :: l)).
    cbn [foldr] in IH |- *. rewrite IH by done. unfold device_word at 2. by rewrite !string_app_assoc.
Qed.
Lemma session_lines_items :
  session_lines sid s u active vts state = session_items ∨
  ∃ its v, session_items = its ++ [("DEVICES", v)] ∧ session_lines sid s u active vts state = its ++ [("DEVICES", v +:+ " ")].
Proof.
  assert (H : session_lines sid s u active vts state =
    session_head ++ match s_controller s with Some c => ("CONTROLLER", c) :: session_save_devices s | None => [] end).
  { unfold session_head, session_lines. cbn. by rewrite <-!(assoc_L (++)). }
  unfold session_items, device_words. rewrite H. unfold session_save_devices. destruct (s_controller s) as [c|]; [|by left].
  destruct (e_order _) as [|d l] eqn:Eo; [by left|]. right. rewrite devices_spaced by done.
  exists (session_head ++ [("CONTROLLER", c)]). eexists. rewrite <-!(assoc_L (++)). split; reflexivity.
Qed.

(** Texts that are written as they are, and texts that are escaped. *)
Record session_text_ok : Prop := {
  raw_ok : Forall kept ([ur_name (u_user_record u)] ++ omap id [s_scope s; s_fifo_path s; s_seat s; s_tty s; s_display s; s_controller s]);
  escaped_ok : Forall (λ v, value_ok (cescape v) ∧ utf8_is_valid (unbackslash (cescape v)) = true)
    (omap id [s_remote_host s; s_remote_user s; s_service s; s_desktop s]);
  numbers_ok : Forall (λ z, 0 ≤ z) [ur_uid (u_user_record u); s_vtnr s; s_position s; realtime (s_timestamp s); monotonic (s_timestamp s)];
}.

Lemma items_opt k o : plain_key k = true → (∀ v, o = Some v → kept v) → Forall item_ok (opt_line k o).
Proof. intros Hk Ho. destruct o as [v|]; [|constructor]. constructor; [|constructor]. apply kept_item; auto. Qed.
Lemma items_when b k v : plain_key k = true → (b = true → kept v) → Forall item_ok (when_line b k v).
Proof. intros Hk Ho. destruct b; [|constructor]. constructor; [|constructor]. apply kept_item; auto. Qed.
Lemma items_escaped k o :
  plain_key k = true → (∀ v, o = Some v → value_ok (cescape v) ∧ utf8_is_valid (unbackslash (cescape v)) = true) →
  Forall item_ok (opt_line k (cescape <$> o)).
Proof.
  intros Hk Ho. destruct o as [v|]; [|constructor]. constructor; [|constructor]. destruct (plain_key_ok k Hk).
  destruct (Ho v eq_refl). by split_and!.
Qed.
Lemma number_kept z : 0 ≤ z → kept (pretty z).
Proof. intros Hz. by apply graphs_kept, pretty_graphs. Qed.
Lemma device_words_graphs : Forall (λ w, graphs w = true ∧ w ≠ "") device_words.
Proof.
  unfold device_words. apply Forall_fmap, Forall_forall. intros d _. apply device_word_graphs.
Qed.

Lemma raw_kept o v : session_text_ok → o ∈ [s_scope s; s_fifo_path s; s_seat s; s_tty s; s_display s; s_controller s] →
  o = Some v → kept v.
Proof.
  intros [Hr _ _] Ho ->. apply Forall_app in Hr as [_ Hr]. rewrite Forall_forall in Hr. apply Hr.
  rewrite list_elem_of_omap. by exists (Some v).
Qed.
Lemma escaped_kept o v : session_text_ok → o ∈ [s_remote_host s; s_remote_user s; s_service s; s_desktop s] →
  o = Some v → value_ok (cescape v) ∧ utf8_is_valid (unbackslash (cescape v)) = true.
Proof.
  intros [_ He _] Ho ->. rewrite Forall_forall in He. apply He. rewrite list_elem_of_omap. by exists (Some v).
Qed.
Lemma number_ok z : session_text_ok → z ∈ [ur_uid (u_user_record u); s_vtnr s; s_position s; realtime (s_timestamp s); monotonic (s_timestamp s)] →
  kept (pretty z).
Proof. intros [_ _ Hn] Hz. rewrite Forall_forall in Hn. by apply number_kept, Hn. Qed.

Ltac raw H := apply items_opt; [done|]; intros v Hv; eapply (raw_kept _ v H); [|exact Hv]; in_list.
Ltac escaped H := apply items_escaped; [done|]; intros v Hv; eapply (escaped_kept _ v H); [|exact Hv]; in_list.
Ltac named x := apply items_opt; [done|]; intros v Hv; destruct x; injection Hv as <-; by apply graphs_kept.
Lemma session_head_ok : session_text_ok → Forall item_ok session_head.
Proof.
  intros H. pose proof (number_ok (ur_uid (u_user_record u)) H ltac:(in_list)) as Huid.
  assert (Hname : kept (ur_name (u_user_record u))) by (destruct H as [Hr _ _]; by apply Forall_inv in Hr).
  unfold session_head, session_lines. cbn -[opt_line when_line app one_zero to_string].
  apply Forall_app; split.
  { repeat (apply Forall_cons; split; [apply kept_item; [done|try exact Huid; try exact Hname; try apply one_zero_kept]|]);
      [|constructor]. apply graphs_kept. by destruct state. }
  repeat (apply Forall_app; split); try (by raw H); try (by escaped H).
  - named (s_type s).
  - named (s_original_type s).
  - named (s_class s).
  - apply items_opt; [done|]. intros v Hv. destruct (s_tty_validity s) as [[]|]; try done; injection Hv as <-; by apply graphs_kept.
  - apply items_when; [done|]. intros _. apply (number_ok _ H). in_list.
  - apply items_when; [done|]. intros _. apply (number_ok _ H). in_list.
  - apply items_when; [done|]. intros Hb. unfold pidref_is_set in Hb. apply number_kept. lia.
  - apply items_when; [done|]. intros Hb. unfold audit_session_is_valid in Hb. apply number_kept. lia.
  - destruct (dual_timestamp_is_set _); [|constructor].
    repeat (apply Forall_cons; split; [apply kept_item; [done|apply (number_ok _ H); in_list]|]). constructor.
  - constructor.
Qed.
Lemma session_items_ok : session_text_ok → Forall item_ok session_items.
Proof.
  intros H. apply Forall_app. split; [by apply session_head_ok|]. destruct (s_controller s) as [c|] eqn:Ec; [|constructor].
  constructor.
  - apply kept_item; [done|]. apply (raw_kept (Some c) c H); [rewrite <-Ec; in_list|done].
  - destruct device_words eqn:Ed; [constructor|]. rewrite <-Ed. constructor; [|constructor].
    apply kept_item; [done|]. apply joined_kept, device_words_graphs.
Qed.
Lemma session_items_keys : NoDup session_items.*1.
Proof.
  assert (H : session_items.*1 `sublist_of` session_keys); [|apply (sublist_NoDup _ session_keys); [apply (bool_decide_unpack _); reflexivity|exact H]].
  unfold session_items, session_head, session_lines. rewrite !fmap_app.
  change session_keys with ((["UID"; "USER"; "ACTIVE"; "IS_DISPLAY"; "STATE"; "REMOTE"; "LEADER_FD_SAVED"] ++ ["TYPE"] ++
    ["ORIGINAL_TYPE"] ++ ["CLASS"] ++ ["SCOPE"] ++ ["FIFO"] ++ ["SEAT"] ++ ["TTY"] ++ ["TTY_VALIDITY"] ++ ["DISPLAY"] ++
    ["REMOTE_HOST"] ++ ["REMOTE_USER"] ++ ["SERVICE"] ++ ["DESKTOP"] ++ ["VTNR"] ++ ["POSITION"] ++ ["LEADER"] ++ ["AUDIT"] ++
    ["REALTIME"; "MONOTONIC"] ++ []) ++ ["CONTROLLER"; "DEVICES"]).
  repeat (apply sublist_app; [first [apply opt_line_keys|apply when_line_keys|done|idtac]|]); try done.
  - destruct (dual_timestamp_is_set _); [done|apply sublist_nil_l].
  - destruct (s_controller s); [|apply sublist_nil_l].
    destruct device_words; [apply sublist_skip, sublist_nil_l|done].
Qed.

(** The file as it is read. *)
Lemma session_file_read :
  session_text_ok →
  ∃ f, parse_env_file (file_text (session_lines sid s u active vts state)) = (0, f) ∧
    ∀ k, f k = find_item k session_items ≫= read_value.
Proof.
  intros H. pose proof (session_items_ok H) as Hok. pose proof session_items_keys as Hnd.
  assert (Hp : parse_env_file (file_text (session_lines sid s u active vts state)) =
    (0, λ key, last_value key (reverse (value_read <$> session_items)))).
  { destruct session_lines_items as [->|(its&v&Hi&->)]; [by apply parse_env_file_items|].
    rewrite Hi in *. by apply parse_env_file_space. }
  eexists. split; [exact Hp|]. intros k. by apply last_value_finds.
Qed.

(** What a key of the file holds. *)
Definition session_value (k : string) : option string :=
  match k with
  | "UID" => Some (pretty (ur_uid (u_user_record u))) | "USER" => Some (ur_name (u_user_record u))
  | "ACTIVE" => Some (one_zero active) | "STATE" => to_string state
  | "REMOTE" => Some (one_zero (s_remote s))
  | "IS_DISPLAY" => Some (one_zero (bool_decide (u_display u = Some sid)))
  | "LEADER_FD_SAVED" => Some (one_zero (s_leader_fd_saved s))
  | "TYPE" => to_string (s_type s) | "ORIGINAL_TYPE" => to_string (s_original_type s)
  | "CLASS" => to_string (s_class s) | "SCOPE" => s_scope s | "FIFO" => s_fifo_path s | "SEAT" => s_seat s
  | "TTY" => s_tty s | "TTY_VALIDITY" => s_tty_validity s ≫= to_string | "DISPLAY" => s_display s
  | "REMOTE_HOST" => cescape <$> s_remote_host s | "REMOTE_USER" => cescape <$> s_remote_user s
  | "SERVICE" => cescape <$> s_service s | "DESKTOP" => cescape <$> s_desktop s
  | "VTNR" => if is_some (s_seat s) && vts then Some (pretty (s_vtnr s)) else None
  | "POSITION" => if s_vtnr s =? 0 then Some (pretty (s_position s)) else None
  | "LEADER" => if pidref_is_set (s_leader s) then Some (pretty (p_pid (s_leader s))) else None
  | "AUDIT" => if audit_session_is_valid (s_audit_id s) then Some (pretty (s_audit_id s)) else None
  | "REALTIME" => if dual_timestamp_is_set (s_timestamp s) then Some (pretty (realtime (s_timestamp s))) else None
  | "MONOTONIC" => if dual_timestamp_is_set (s_timestamp s) then Some (pretty (monotonic (s_timestamp s))) else None
  | "CONTROLLER" => s_controller s
  | "DEVICES" => if is_some (s_controller s) then (match device_words with [] => None | ws => Some (concat_with " " ws) end) else None
  | _ => None
  end.
Lemma session_items_value k : k ∈ session_keys → find_item k session_items = session_value k.
Proof.
  intros Hk. unfold session_items, session_head, session_lines. rewrite !find_item_app, !find_opt, !find_when.
  unfold session_keys in Hk. rewrite !elem_of_cons in Hk.
  destruct_or! Hk; try (by apply elem_of_nil in Hk); subst k; cbn [find_item]; eval_keys; cbv iota; cbn [session_value String.eqb].
  all: cbn -[to_string one_zero pretty cescape device_words].
  all: try reflexivity.
  all: destruct (dual_timestamp_is_set _), (s_controller s) as [c|], device_words as [|w ws]; cbn [find_item is_some];
    eval_keys; cbv iota; try reflexivity.
  all: repeat case_match; simplify_eq; try reflexivity.
Qed.

Lemma number_nonneg z : session_text_ok → z ∈ [ur_uid (u_user_record u); s_vtnr s; s_position s; realtime (s_timestamp s); monotonic (s_timestamp s)] →
  0 ≤ z.
Proof. intros [_ _ Hn] Hz. rewrite Forall_forall in Hn. auto. Qed.
Lemma number_read z : 0 ≤ z → read_value (pretty z) = Some (pretty z).
Proof. intros Hz. apply kept_read; [by apply number_kept|by apply pretty_graphs]. Qed.
Lemma not_empty_pretty {A} z r (k : string → Z + A) : 0 ≤ z → not_empty (Some (pretty z)) r k = k (pretty z).
Proof. intros Hz. destruct (pretty_graphs z Hz) as [_ Hn]. by destruct (pretty z). Qed.
Lemma text_read v : kept v → read_value v = match v with EmptyString => None | _ => Some v end.
Proof. intros [_ [Hb _]]. destruct v; [done|]. by apply kept_read. Qed.

(** What a client may ask about the session. *)
Record session_is_told (files : string → Z + string) (own : Z + string) : Prop := {
  told_is_active : sd_session_is_active files own (Some sid) = inr active;
  told_state : Some (sd_session_get_state files own (Some sid)) = inr <$> to_string state;
  told_uid : sd_session_get_uid files own (Some sid) = inr (ur_uid (u_user_record u));
  told_remote : sd_session_is_remote files own (Some sid) = inr (s_remote s);
  told_type : Some (sd_session_get_type files own (Some sid)) = inr <$> to_string (s_type s);
  told_class : Some (sd_session_get_class files own (Some sid)) = inr <$> to_string (s_class s);
  told_texts : ∀ k o, (k, o) ∈ [("USER", Some (ur_name (u_user_record u))); ("SEAT", s_seat s); ("TTY", s_tty s); ("DISPLAY", s_display s)] →
    session_get_string files own (Some sid) k =
      match o with None | Some EmptyString => inl (- ENODATA) | Some v => inr v end;
  told_vt : s_vtnr s ≤ UINT_MAX → sd_session_get_vt files own (Some sid) =
    if is_some (s_seat s) && vts then inr (s_vtnr s) else inl (- ENODATA);
  told_leader : p_pid (s_leader s) < 2 ^ 31 → sd_session_get_leader files own (Some sid) =
    if pidref_is_set (s_leader s) then inr (p_pid (s_leader s)) else inl (- ENODATA);
  told_start : 0 ≤ realtime (s_timestamp s) ≤ UINT64_MAX → sd_session_get_start_time files own (Some sid) =
    if dual_timestamp_is_set (s_timestamp s) then inr (realtime (s_timestamp s)) else inl (- EIO);
}.
Lemma path_of_session own : session_id_valid sid = true →
  file_of_session own (Some sid) = inr ("/run/systemd/sessions/" +:+ sid).
Proof.
  intros Hid. unfold file_of_session. rewrite Hid. cbn [negb]. destruct sid as [|c id]; [done|].
  unfold path_join, ends_slash, starts_slash. cbn [head_is]. rewrite (bool_decide_false (c = _)); [done|].
  cbn in Hid. apply andb_prop in Hid as [Hc _]. by intros ->.
Qed.
Ltac value := match goal with
  |- context [session_value ?k] => let v := eval cbv beta iota delta [session_value] in (session_value k) in change (session_value k) with v
  end.
Ltac number H := apply (number_nonneg _ H); in_list.
Lemma read_session {A} files own text f (en : Z + A) g :
  session_id_valid sid = true → files ("/run/systemd/sessions/" +:+ sid) = inr text → parse_env_file text = (0, f) →
  and_then_file files (file_of_session own (Some sid)) en g = g f.
Proof. intros Hid Hfile Hf. rewrite path_of_session by done. unfold and_then_file, parse_env_file_of. by rewrite Hfile, Hf. Qed.
Lemma told_session files own :
  session_id_valid sid = true → session_text_ok → uid_is_valid (ur_uid (u_user_record u)) = true →
  ur_uid (u_user_record u) ≤ UINT_MAX →
  files ("/run/systemd/sessions/" +:+ sid) = inr (file_text (session_lines sid s u active vts state)) →
  session_is_told files own.
Proof.
  intros Hid Hok Hu Hmax Hfile. destruct (session_file_read Hok) as (f&Hf&Hv).
  assert (Hk : ∀ k, k ∈ session_keys → f k = session_value k ≫= read_value).
  { intros k Hk. by rewrite Hv, session_items_value. }
  assert (Hread : ∀ A (en : Z + A) g, and_then_file files (file_of_session own (Some sid)) en g = g f).
  { intros A en g. by apply (read_session files own _ f _ _ Hid Hfile). }
  constructor.
  - unfold sd_session_is_active. rewrite Hread, Hk by in_list. value. clear. by destruct active.
  - unfold sd_session_get_state. rewrite Hread, Hk by in_list. value. clear. by destruct state.
  - unfold sd_session_get_uid. rewrite Hread, Hk by in_list. value. cbn [mbind option_bind].
    rewrite number_read, not_empty_pretty by number Hok. apply parse_uid_pretty; [|done]. split; [|done]. number Hok.
  - unfold sd_session_is_remote. rewrite Hread, Hk by in_list. value. by destruct (s_remote s).
  - unfold sd_session_get_type, session_get_string. rewrite Hread, Hk by in_list. value. by destruct (s_type s).
  - unfold sd_session_get_class, session_get_string. rewrite Hread, Hk by in_list. value. by destruct (s_class s).
  - intros k o Hko. unfold session_get_string. rewrite Hread.
    assert (Hkk : k ∈ session_keys ∧ session_value k = o ∧ ∀ v, o = Some v → kept v).
    { rewrite !elem_of_cons in Hko. destruct_or! Hko; try (by apply elem_of_nil in Hko); injection Hko as -> ->;
        (split; [in_list|]; split; [by value|]); intros v Hvv; [|by (eapply (raw_kept _ v Hok); [|exact Hvv]; in_list)..].
      injection Hvv as <-. destruct Hok as [Hr _ _]. by apply Forall_inv in Hr. }
    destruct Hkk as (Hin&Hval&Hkept). rewrite Hk, Hval by done. destruct o as [v|]; [|done]. cbn [mbind option_bind].
    rewrite text_read by auto. by destruct v.
  - intros Hmx. unfold sd_session_get_vt, session_get_string. rewrite Hread, Hk by in_list. value.
    destruct (is_some (s_seat s) && vts); [|done]. cbn [mbind option_bind]. rewrite number_read, not_empty_pretty by number Hok.
    apply safe_atou_pretty. split; [number Hok|done].
  - intros Hmx. unfold sd_session_get_leader, session_get_string. rewrite Hread, Hk by in_list. value.
    destruct (pidref_is_set (s_leader s)) eqn:Ep; [|done]. unfold pidref_is_set in Ep. cbn [mbind option_bind].
    rewrite number_read, not_empty_pretty by lia. unfold parse_pid. rewrite safe_atollu_full_pretty; [|unfold UINT64_MAX; lia|by left].
    rewrite (proj2 (Z.ltb_lt 0 _)), (proj2 (Z.ltb_lt _ (2 ^ 31))) by lia. done.
  - intros Hmx. unfold sd_session_get_start_time. rewrite Hread, Hk by in_list. value.
    destruct (dual_timestamp_is_set _); [|done]. cbn [mbind option_bind]. rewrite number_read, not_empty_pretty by number Hok.
    apply safe_atollu_full_pretty; [done|by left].
Qed.
End Lines.

(** * Saving a session *)

Definition session_vts (s : session) : MM bool := match s_seat s with Some k => seat_has_vts k | None => ret false end.
Section Save.
Context {E : Env}.

Lemma session_save_runs m sid s uid u active state vts :
  m_sessions m !! sid = Some s → s_user s = Some uid → m_users m !! uid = Some u → s_started s = true →
  session_is_active sid m = Some (active, m) → session_get_state sid m = Some (state, m) → session_vts s m = Some (vts, m) →
  session_save sid m =
    Some (0, m <| m_trace := m_trace m ++ [FileSaved (SessionObj sid) (session_lines sid s u active vts state)] |>).
Proof.
  intros Hs Hu Hus Hst Ha Hst' Hv. unfold session_save. rewrite (bind_run _ _ _ _ _ (get_session_run m sid s Hs)), Hu, Hst.
  cbn [negb]. assert (Hgu : get_user uid m = Some (u, m)) by (unfold get_user, bind, gets; by rewrite Hus).
  rewrite (bind_run _ _ _ _ _ Hgu), (bind_run _ _ _ _ _ Ha), (bind_run _ _ _ _ _ Hst').
  unfold session_vts in Hv. by rewrite (bind_run _ _ _ _ _ Hv).
Qed.
Lemma active_reads sid : moves eq (session_is_active sid).
Proof. unfold session_is_active, get_session, get_seat. solve_moves. Qed.
Lemma state_reads sid : moves eq (session_get_state sid).
Proof. pose proof (active_reads sid). unfold session_get_state, get_session. solve_moves. Qed.
Lemma vts_reads s : moves eq (session_vts s).
Proof. unfold session_vts, seat_has_vts, seat_is_seat0. solve_moves. Qed.
Lemma session_looks m sid s :
  wf m → m_sessions m !! sid = Some s →
  ∃ active state vts, session_is_active sid m = Some (active, m) ∧ session_get_state sid m = Some (state, m) ∧
    session_vts s m = Some (vts, m).
Proof.
  intros Hwf Hs. assert (Hh : has_s (cols_of m) sid) by (eexists; by apply (col_in s_user _ _ s)).
  destruct (wp_run _ _ _ (soft_session_is_active' ex0 (cols_of m) Hwf sid Hh m eq_refl)) as (a&m1&Ha&_).
  destruct (wp_run _ _ _ (soft_session_get_state ex0 (cols_of m) Hwf sid Hh m eq_refl)) as (st&m2&Hst&_).
  assert (Hv : ∃ vts, session_vts s m = Some (vts, m)).
  { unfold session_vts. destruct (s_seat s) as [k|]; by eexists. }
  destruct Hv as [vts Hv]. exists a, st, vts.
  pose proof (active_reads _ _ _ _ Ha) as <-. by pose proof (state_reads _ _ _ _ Hst) as <-.
Qed.
End Save.

(** C29: the client library tells of a session what the daemon knows of it: in
    every reachable state, once the file of a started session is saved, whether
    it is active, its state, its user, seat, terminal, display, type, class, VT,
    leader and start time are those of the daemon, provided that its texts fit
    on a line. *)
Theorem session_file_is_true c m (E : Env) own sid s uid u :
  sane c → reachable c m → m_sessions m !! sid = Some s → s_started s = true →
  s_user s = Some uid → m_users m !! uid = Some u → valid_uid (ur_uid (u_user_record u)) → session_text_ok s u →
  ∃ active state vts m', session_is_active sid m = Some (active, m) ∧ session_get_state sid m = Some (state, m) ∧
    session_vts s m = Some (vts, m) ∧ session_save sid m = Some (0, m') ∧
    session_is_told sid s u active vts state (disk m') own.
Proof.
  intros Hc Hm Hs Hst Hu Hus [Hr Hv] Hok. pose proof (reachable_wf c m Hc Hm) as Hwf.
  destruct (session_looks m sid s Hwf Hs) as (active&state&vts&Ha&Hstate&Hvts).
  exists active, state, vts. eexists. split_and!; [done..| |].
  - by apply (session_save_runs m sid s uid u).
  - apply told_session; [|done|done|lia|by apply disk_saved].
    apply (wf_ids _ _ Hwf). eexists. by apply (col_in s_user _ _ s).
Qed.

(** * What a controller writes into the file

    The display is written as it is, so the text after a newline in it is read
    as further lines of the file; the last line of a key wins. *)

Lemma last_value_skip k l1 l2 : k ∉ l1.*1 → last_value k (l1 ++ l2) = last_value k l2.
Proof.
  induction l1 as [|[k' v] l1 IH]; [done|]. cbn. rewrite not_elem_of_cons. intros [Hne Hn].
  rewrite bool_decide_false by done. auto.
Qed.
Lemma last_value_here k l1 l2 : k ∈ l1.*1 → last_value k (l1 ++ l2) = last_value k l1.
Proof.
  induction l1 as [|[k' v] l1 IH]; [by intros ?%elem_of_nil|]. cbn. intros Hk. case_bool_decide; [done|].
  apply IH. apply elem_of_cons in Hk as [?|]; [congruence|done].
Qed.
Definition with_lines (v : string) (its : state_file) : string :=
  foldl (λ v kv, v +:+ newline +:+ kv.1 +:+ "=" +:+ kv.2) v its.
Lemma item_with_lines k v its : item (k, with_lines v its) = items ((k, v) :: its).
Proof.
  revert v. induction its as [|[k' v'] its IH]; intros v; [cbn; by rewrite app_empty|]. cbn [with_lines foldl].
  fold (with_lines (v +:+ newline +:+ k' +:+ "=" +:+ v') its). rewrite IH. cbn [items]. unfold item. cbn [fst snd].
  by rewrite !string_app_assoc.
Qed.
Lemma items_app l1 l2 : items (l1 ++ l2) = items l1 +:+ items l2.
Proof. induction l1 as [|kv l1 IH]; [done|]. rewrite <-app_comm_cons. cbn [items]. by rewrite IH, string_app_assoc. Qed.

Section Injection.
Context {E : Env}.
Context (sid : string) (s : session) (u : user) (active vts : bool) (state : SessionState).
Abbreviation shown d := (s <| s_display := Some d |>).

(** The lines before that of the display, and those behind it. *)
Definition lines_before : state_file :=
  [("UID", pretty (ur_uid (u_user_record u))); ("USER", ur_name (u_user_record u)); ("ACTIVE", one_zero active);
   ("IS_DISPLAY", one_zero (bool_decide (u_display u = Some sid))); ("STATE", default EmptyString (to_string state));
   ("REMOTE", one_zero (s_remote s)); ("LEADER_FD_SAVED", one_zero (s_leader_fd_saved s))]
  ++ opt_line "TYPE" (to_string (s_type s)) ++ opt_line "ORIGINAL_TYPE" (to_string (s_original_type s))
  ++ opt_line "CLASS" (to_string (s_class s)) ++ opt_line "SCOPE" (s_scope s) ++ opt_line "FIFO" (s_fifo_path s)
  ++ opt_line "SEAT" (s_seat s) ++ opt_line "TTY" (s_tty s) ++ opt_line "TTY_VALIDITY" (s_tty_validity s ≫= to_string).
Lemma session_lines_shown : ∃ behind, ∀ d,
  session_lines sid (shown d) u active vts state = lines_before ++ ("DISPLAY", d) :: behind.
Proof. eexists. intros d. unfold session_lines, lines_before. rewrite <-!(assoc_L (++)). unfold session_save_devices.
  cbn -[opt_line when_line app pretty cescape e_order]. reflexivity.
Qed.

Definition head_keys : list string := ["UID"; "USER"; "ACTIVE"; "IS_DISPLAY"; "STATE"; "REMOTE"; "LEADER_FD_SAVED"].
(** The lines of the file as they are read, with [its] behind the display's. *)
Lemma injected_items its :
  ∃ behind, session_items sid (shown ":0") u active vts state = lines_before ++ ("DISPLAY", ":0") :: behind ∧
    ∃ text, file_text (session_lines sid (shown (with_lines ":0" its)) u active vts state) = private_header +:+ text ∧
      (Forall item_ok (lines_before ++ (("DISPLAY", ":0") :: its) ++ behind) →
       parse_env_file (private_header +:+ text) =
         (0, λ k, last_value k (reverse (value_read <$> lines_before ++ (("DISPLAY", ":0") :: its) ++ behind)))).
Proof.
  destruct session_lines_shown as [behind Hb].
  assert (Ht : ∀ b, behind = b → items (session_lines sid (shown (with_lines ":0" its)) u active vts state)
    = items (lines_before ++ (("DISPLAY", ":0") :: its) ++ b)).
  { intros b <-. rewrite Hb, !items_app. cbn [items]. rewrite item_with_lines. cbn [items]. by rewrite !string_app_assoc. }
  pose proof (Hb ":0") as H0. destruct (session_lines_items sid (shown ":0") u active vts state) as [E1|(its'&v&E1&E2)].
  - exists behind. split; [by rewrite <-E1, H0|]. eexists. split; [unfold file_text; by rewrite (Ht behind)|].
    by apply parse_env_file_items.
  - rewrite H0 in E2. destruct behind as [|b0 behind0 _] using rev_ind.
    { by apply (app_inj_tail _ _ _ _) in E2 as [_ [=]]. }
    rewrite app_comm_cons, (assoc_L (++)) in E2. apply app_inj_tail in E2 as [<- ->].
    exists (behind0 ++ [("DEVICES", v)]). rewrite E1. split; [by rewrite app_comm_cons, (assoc_L (++))|].
    eexists. split; [unfold file_text; by rewrite (Ht _ eq_refl)|].
    rewrite !(assoc_L (++)). apply parse_env_file_space.
Qed.
Lemma injected_read its :
  session_text_ok (shown ":0") u → Forall item_ok its → NoDup its.*1 →
  ∃ f, parse_env_file (file_text (session_lines sid (shown (with_lines ":0" its)) u active vts state)) = (0, f) ∧
    ∀ k v, (k, v) ∈ its → k ∈ head_keys → f k = read_value v.
Proof.
  intros Hok Hits Hnd. destruct (injected_items its) as (behind&Hi&text&->&Hp).
  pose proof (session_items_ok sid (shown ":0") u active vts state Hok) as Hall.
  pose proof (session_items_keys sid (shown ":0") u active vts state) as Hkeys. rewrite Hi in Hall, Hkeys.
  apply Forall_app in Hall as [Ha [Hd Hb]%Forall_cons]. eexists. split.
  { apply Hp, Forall_app. split; [done|]. rewrite <-app_comm_cons. constructor; [done|]. by apply Forall_app. }
  intros k v Hkv Hk. rewrite !fmap_app, !reverse_app, <-(assoc_L (++)), last_value_skip.
  - rewrite fmap_cons, reverse_cons, <-(assoc_L (++)), last_value_here; [by apply last_value_elem|].
    rewrite fmap_reverse, <-list_fmap_compose, elem_of_reverse. apply list_elem_of_fmap. by exists (k, v).
  - rewrite fmap_reverse, <-list_fmap_compose, elem_of_reverse. rewrite fmap_app in Hkeys.
    apply NoDup_app in Hkeys as (_&Hdis&_). intros Hin. apply (Hdis k); [|by right].
    unfold lines_before. rewrite fmap_app. apply elem_of_app. by left.
Qed.
End Injection.

Section Display.
Context {E : Env}.

(** The display of a session is changed, its file is written, and nothing else happens. *)
Definition displaying (sid : string) (s : session) (d : string) (m : manager) : manager :=
  m <| m_sessions := <[sid := s <| s_display := Some d |>]> (m_sessions m) |>.
Lemma displayed_active m sid s d active :
  m_sessions m !! sid = Some s → session_is_active sid m = Some (active, m) →
  session_is_active sid (displaying sid s d m) = Some (active, displaying sid s d m).
Proof.
  intros Hs. assert (H1 : m_sessions (displaying sid s d m) !! sid = Some (s <| s_display := Some d |>)) by apply lookup_insert_eq.
  unfold session_is_active. rewrite (bind_run _ _ _ _ _ (get_session_run m sid s Hs)), (bind_run _ _ _ _ _ (get_session_run _ _ _ H1)).
  change (s_seat (s <| s_display := Some d |>)) with (s_seat s). destruct (s_seat s) as [k|]; [|intros H; injection H; intros; by subst].
  unfold get_seat, bind, gets, deref. change (m_seats (displaying sid s d m)) with (m_seats m).
  destruct (m_seats m !! k); [|done]. intros H; injection H; intros; by subst.
Qed.
Lemma displayed_state m sid s d state :
  m_sessions m !! sid = Some s → session_get_state sid m = Some (state, m) →
  session_get_state sid (displaying sid s d m) = Some (state, displaying sid s d m).
Proof.
  intros Hs. assert (H1 : m_sessions (displaying sid s d m) !! sid = Some (s <| s_display := Some d |>)) by apply lookup_insert_eq.
  unfold session_get_state. rewrite (bind_run _ _ _ _ _ (get_session_run m sid s Hs)), (bind_run _ _ _ _ _ (get_session_run _ _ _ H1)).
  change (s_stopping (s <| s_display := Some d |>)) with (s_stopping s).
  change (s_timer_event_source (s <| s_display := Some d |>)) with (s_timer_event_source s).
  change (s_leader (s <| s_display := Some d |>)) with (s_leader s). change (s_fifo_fd (s <| s_display := Some d |>)) with (s_fifo_fd s).
  repeat (case_match; [intros H'; injection H'; intros; by subst|]).
  destruct (session_is_active sid m) as [[a m0]|] eqn:Ea; [|by unfold bind at 1; rewrite Ea].
  pose proof (active_reads _ _ _ _ Ea) as <-. rewrite (bind_run _ _ _ _ _ Ea), (bind_run _ _ _ _ _ (displayed_active m sid s d a Hs Ea)).
  intros H'; injection H'; intros; by subst.
Qed.
Lemma session_set_display_runs m sid s uid u active state vts d :
  m_sessions m !! sid = Some s → s_user s = Some uid → m_users m !! uid = Some u → s_started s = true →
  s_display s ≠ Some d →
  session_is_active sid m = Some (active, m) → session_get_state sid m = Some (state, m) → session_vts s m = Some (vts, m) →
  session_set_display sid d m =
    Some (1, displaying sid s d m <| m_trace := m_trace m ++ [FileSaved (SessionObj sid)
      (session_lines sid (s <| s_display := Some d |>) u active vts state); PropertiesChanged (SessionObj sid) ["Display"%string]] |>).
Proof.
  intros Hs Hu Hus Hst Hd Ha Hstate Hv. unfold session_set_display.
  rewrite (bind_run _ _ _ _ _ (get_session_run m sid s Hs)), bool_decide_false by done.
  assert (Hupd : upd_session sid (λ s, s <| s_display := Some d |>) m = Some (tt, displaying sid s d m)).
  { unfold upd_session. by rewrite (bind_run _ _ _ _ _ (get_session_run m sid s Hs)). }
  rewrite (bind_run _ _ _ _ _ Hupd).
  assert (H1 : m_sessions (displaying sid s d m) !! sid = Some (s <| s_display := Some d |>)) by apply lookup_insert_eq.
  pose proof (session_save_runs (displaying sid s d m) sid _ uid u active state vts H1 Hu Hus Hst
    (displayed_active m sid s d active Hs Ha) (displayed_state m sid s d state Hs Hstate)) as Hsave.
  assert (Hv' : session_vts (s <| s_display := Some d |>) (displaying sid s d m) = Some (vts, displaying sid s d m)).
  { unfold session_vts in *. change (s_seat (s <| s_display := Some d |>)) with (s_seat s).
    destruct (s_seat s) as [k|]; [|injection Hv; intros; by subst].
    revert Hv. unfold seat_has_vts, seat_is_seat0, bind, gets, ret. intros H; injection H; intros; by subst. }
  specialize (Hsave Hv'). assert (Hi : ∀ A (c : MM A) m a m', c m = Some (a, m') → ignore c m = Some (tt, m')).
  { intros A c0 m0 a m0' Hc. unfold ignore. by rewrite (bind_run _ _ _ _ _ Hc). }
  rewrite (bind_run _ _ _ _ _ (Hi _ _ _ _ _ Hsave)). unfold session_send_changed, bind at 1.
  match goal with |- context [bind (get_session sid) ?k ?m1] => rewrite (bind_run _ k m1 _ _ (get_session_run m1 sid _ H1)) end.
  change (s_started (s <| s_display := Some d |>)) with (s_started s). rewrite Hst. cbn. by rewrite <-app_assoc.
Qed.
Lemma disk_displayed m o l props p :
  path_of o = Some p → disk (m <| m_trace := m_trace m ++ [FileSaved o l; PropertiesChanged o props] |>) p = inr (file_text l).
Proof. intros Hp. unfold disk. cbn. rewrite foldl_app. cbn. by rewrite Hp, lookup_insert_eq. Qed.
End Display.

(** Two lines behind the display. *)
Definition forged : state_file := [("UID", "0"); ("ACTIVE", "1")].
Lemma forged_told {E : Env} sid s u active vts state files own :
  session_id_valid sid = true → session_text_ok (s <| s_display := Some ":0"%string |>) u →
  files ("/run/systemd/sessions/" +:+ sid) =
    inr (file_text (session_lines sid (s <| s_display := Some (with_lines ":0" forged) |>) u active vts state)) →
  sd_session_is_active files own (Some sid) = inr true ∧ sd_session_get_uid files own (Some sid) = inr 0.
Proof.
  intros Hid Hok Hfile. destruct (injected_read sid s u active vts state forged Hok) as (f&Hf&Hval);
    [apply simple_items_ok; reflexivity|apply (bool_decide_unpack _); vm_compute; exact I|].
  unfold sd_session_is_active, sd_session_get_uid. rewrite !(read_session sid files own _ f _ _ Hid Hfile Hf).
  rewrite (Hval "ACTIVE" "1"), (Hval "UID" "0"); [done|..]; apply (bool_decide_unpack _); vm_compute; exact I.
Qed.
(** C40: the display that a session's controller sets is written to the session's
    file as it is: by a text with newlines in it the controller, which need not
    be privileged, makes the client library tell that the session is active and
    that it is the superuser's, when the daemon knows of no such thing. *)
Theorem display_writes_the_state_file c m (E : Env) own sid s uid u active msg :
  sane c → reachable c m → m_sessions m !! sid = Some s → s_started s = true →
  s_user s = Some uid → m_users m !! uid = Some u →
  SESSION_TYPE_IS_GRAPHICAL (s_type s) = true → s_controller s = Some (msg_sender msg) →
  s_display s ≠ Some (with_lines ":0" forged) → session_text_ok (s <| s_display := Some ":0"%string |>) u →
  session_is_active sid m = Some (active, m) →
  ∃ m', method_set_display sid (with_lines ":0" forged) msg m = Some (Reply, m') ∧
    sd_session_is_active (disk m') own (Some sid) = inr true ∧ sd_session_get_uid (disk m') own (Some sid) = inr 0 ∧
    session_is_active sid m' = Some (active, m') ∧ m_users m' = m_users m ∧
    ∃ s', m_sessions m' !! sid = Some s' ∧ s_user s' = Some uid.
Proof.
  intros Hc Hm Hs Hst Hu Hus Hg Hcon Hd Hok Ha. pose proof (reachable_wf c m Hc Hm) as Hwf.
  destruct (session_looks m sid s Hwf Hs) as (active'&state&vts&Ha'&Hstate&Hvts).
  assert (active' = active) as -> by congruence.
  assert (Hid : session_id_valid sid = true) by (apply (wf_ids _ _ Hwf); eexists; by apply (col_in s_user _ _ s)).
  pose proof (λ files, forged_told sid s u active vts state files own Hid Hok) as Htold. eexists. split; [|split_and!].
  - unfold method_set_display, controller_only, session_is_controller, bind at 1.
    rewrite (bind_run _ _ _ _ _ (get_session_run m sid s Hs)), Hcon. cbn. rewrite bool_decide_true by done. cbn.
    rewrite (bind_run _ _ _ _ _ (get_session_run m sid s Hs)), Hg. cbn.
    by rewrite (bind_run _ _ _ _ _ (session_set_display_runs m sid s uid u active state vts _ Hs Hu Hus Hst Hd Ha Hstate Hvts)).
  - apply Htold, disk_displayed, eq_refl.
  - apply Htold, disk_displayed, eq_refl.
  - apply (displayed_active m sid s (with_lines ":0" forged) active Hs) in Ha. revert Ha. unfold session_is_active, get_session, get_seat.
    unfold bind, gets, deref, ret. cbn. rewrite lookup_insert_eq. cbn. destruct (s_seat s) as [k|]; [|intros H; injection H; intros; by subst].
    cbn. destruct (m_seats m !! k); [|done]. intros H; injection H; intros; by subst.
  - done.
  - eexists. split; [apply lookup_insert_eq|done].
Qed.

(** The owner of the session, without privileges, takes control of it. *)
Definition owner_message : message := sample_message 1001 0 ":1.5".
Definition sample_owned : manager :=
  run (sample_events ++ [SessionMethod "c2" (TakeControl false) owner_message]) sample_started.
Lemma sample_owned_reachable : reachable sample_config sample_owned.
Proof. apply sample_reachable. events_ok. Qed.
(** Texts that are plain words are written as they are. *)
Definition plain_texts (s : session) (u : user) : bool :=
  forallb graphs ([ur_name (u_user_record u)] ++ omap id [s_scope s; s_fifo_path s; s_seat s; s_tty s; s_display s; s_controller s])
  && forallb (λ v, graphs (cescape v)) (omap id [s_remote_host s; s_remote_user s; s_service s; s_desktop s])
  && forallb (Z.leb 0) [ur_uid (u_user_record u); s_vtnr s; s_position s; realtime (s_timestamp s); monotonic (s_timestamp s)].
Lemma plain_texts_ok s u : plain_texts s u = true → session_text_ok s u.
Proof.
  assert (Hall : ∀ A (f : A → bool) (P : A → Prop) l, (∀ x, f x = true → P x) → forallb f l = true → Forall P l).
  { intros A f P l Hf Hl. apply Forall_forall. intros x Hx. apply Hf.
    eapply List.forallb_forall; [exact Hl|]. by apply list_elem_of_In. }
  intros [[H1 H2]%andb_prop H3]%andb_prop. split.
  - by apply (Hall _ graphs); [apply graphs_kept|].
  - eapply Hall; [|exact H2]. cbn. intros v (Hv&Hb&Hu)%graphs_kept. by rewrite unbackslash_id.
  - eapply Hall; [|exact H3]. intros z. apply Z.leb_le.
Qed.
Lemma sample_owned_session : ∃ s u, m_sessions sample_owned !! "c2" = Some s ∧ m_users sample_owned !! 1001 = Some u ∧
  s_user s = Some 1001 ∧ s_started s = true ∧ s_controller s = Some ":1.5" ∧ s_type s = SESSION_X11 ∧
  s_display s = Some ":0" ∧ plain_texts s u = true ∧ ur_uid (u_user_record u) = 1001.
Proof.
  destruct (m_sessions sample_owned !! "c2") as [s|] eqn:Es; [|by vm_compute in Es].
  destruct (m_users sample_owned !! 1001) as [u|] eqn:Eu; [|by vm_compute in Eu].
  vm_compute in Es, Eu. injection Es as <-. injection Eu as <-. eexists _, _. do 7 (split; [reflexivity|]). split; vm_compute; reflexivity.
Qed.
Lemma session_file_is_true_witness :
  ∃ s u active vts state m', m_sessions sample_owned !! "c2" = Some s ∧
    @session_save sample_env "c2" sample_owned = Some (0, m') ∧
    session_is_told "c2" s u active vts state (disk m') (inl (- ENODATA)).
Proof.
  destruct sample_owned_session as (s&u&Es&Eu&Hu&Hst&_&_&_&Hp&Hid).
  destruct (session_file_is_true sample_config sample_owned sample_env (inl (- ENODATA)) "c2" s 1001 u)
    as (active&state&vts&m'&_&_&_&Hsave&Ht);
    [exact sample_sane|exact sample_owned_reachable|exact Es|exact Hst|exact Hu|exact Eu| |exact (plain_texts_ok s u Hp)|].
  - rewrite Hid. split; [unfold UINT_MAX; lia|reflexivity].
  - exists s, u, active, vts, state, m'. exact (conj Es (conj Hsave Ht)).
Defined.
Lemma display_writes_the_state_file_witness :
  ∃ m', @method_set_display sample_env "c2" (with_lines ":0" forged) owner_message sample_owned = Some (Reply, m') ∧
    sd_session_get_uid (disk m') (inl (- ENODATA)) (Some "c2") = inr 0.
Proof.
  destruct sample_owned_session as (s&u&Es&Eu&Hu&Hst&Hc&Ht&Hd&Hp&_).
  destruct (display_writes_the_state_file sample_config sample_owned sample_env (inl (- ENODATA)) "c2" s 1001 u true owner_message)
    as (m'&Hm&_&Hq&_);
    [exact sample_sane|exact sample_owned_reachable|exact Es|exact Hst|exact Hu|exact Eu|by rewrite Ht|exact Hc|by rewrite Hd|
     |vm_compute; reflexivity|exists m'; exact (conj Hm Hq)].
  apply plain_texts_ok. revert Hp. unfold plain_texts. cbn. by rewrite Hd.
Defined.
