(* ===== verification/SdUserFacts.v ===== *)
(** What the client library reads of a user. *)
From Stdlib Require Import Ascii.
From stdpp Require Import pretty.
From S2P Require Import Prelude Time LoginTypes ActionTypes LoginState LoginEnv Bus Escape Parse EnvFile Words Objects User Inhibit WordsFacts EnvFileFacts SdLogin SdLoginFacts SdSessionFacts Events Cols Links LinksObjects LinksBus LinksRun LinksBoot Partial Sample Safety.
#[local] Open Scope string_scope.
#[local] Open Scope Z_scope.
#[local] Open Scope list_scope.

(** * The sessions of a user, as the daemon sees them *)

Definition is_active (m : manager) (sid : string) : bool :=
  match session_is_active sid m with Some (b, _) => b | None => false end.
Definition is_closing (m : manager) (sid : string) : bool :=
  match session_get_state sid m with Some (st, _) => bool_decide (st = SESSION_CLOSING) | None => false end.
Definition seat_of (m : manager) (sid : string) : option string := m_sessions m !! sid ≫= s_seat.
(** Which of them a client asks for: all, those that are active, those that are
    not closing. *)
Definition wanted (m : manager) (require : Z) (sid : string) : bool :=
  if require =? 0 then negb (is_closing m sid) else if 0 <? require then is_active m sid else true.

Section Save.
Context {E : Env}.
Lemma user_session_info_run m sid s :
  wf m → m_sessions m !! sid = Some s →
  user_session_info sid m = Some ((sid, seat_of m sid, is_active m sid, is_closing m sid), m).
Proof.
  intros Hwf Hs. destruct (session_looks m sid s Hwf Hs) as (a&st&v&Ha&Hst&_). unfold user_session_info.
  rewrite (bind_run _ _ _ _ _ (get_session_run m sid s Hs)), (bind_run _ _ _ _ _ Ha), (bind_run _ _ _ _ _ Hst).
  unfold seat_of, is_active, is_closing. by rewrite Hs, Ha, Hst.
Qed.
Lemma user_infos_run m l :
  wf m → Forall (λ sid, is_Some (m_sessions m !! sid)) l →
  map_m user_session_info l m = Some ((λ sid, (sid, seat_of m sid, is_active m sid, is_closing m sid)) <$> l, m).
Proof.
  intros Hwf. induction 1 as [|sid l [s Hs] _ IH]; [done|]. cbn. unfold bind at 1.
  rewrite (user_session_info_run m sid s Hwf Hs). unfold bind. by rewrite IH.
Qed.
Lemma user_state_reads uid : moves eq (user_get_state uid).
Proof.
  assert (Hl : ∀ mode b l, moves eq (user_state_loop mode b l)).
  { intros mode b l. revert b. induction l as [|i l IH]; intros b; cbn [user_state_loop]; [solve_moves|].
    pose proof (state_reads i). unfold get_session. solve_moves; apply IH. }
  pose proof Hl. unfold user_get_state, get_user. solve_moves; apply Hl.
Qed.
Definition kept_ids (m : manager) (r : Z) (l : list string) : list string := filter (wanted m r) l.
Definition kept_seats (m : manager) (r : Z) (l : list string) : list string := omap (seat_of m) (filter (wanted m r) l).
Definition user_lines (m : manager) (u : user) (state : UserState) : state_file :=
  [("NAME", ur_name (u_user_record u)); ("STATE", default EmptyString (to_string state));
   ("STOPPING", yes_no (u_stopping u)); ("GC_MODE", default EmptyString (to_string (u_gc_mode u)));
   ("RUNTIME", "/run/user/" +:+ pretty (ur_uid (u_user_record u)))]
  ++ opt_line "DISPLAY" (u_display u)
  ++ (if dual_timestamp_is_set (u_timestamp u)
      then [("REALTIME", pretty (realtime (u_timestamp u))); ("MONOTONIC", pretty (monotonic (u_timestamp u)))] else [])
  ++ when_line (negb (u_last_session_timestamp u =? USEC_INFINITY)) "LAST_SESSION_TIMESTAMP" (pretty (u_last_session_timestamp u))
  ++ match u_sessions u with
     | [] => []
     | l => [("SESSIONS", concat_with " " (kept_ids m (-1) l)); ("SEATS", concat_with " " (kept_seats m (-1) l));
             ("ACTIVE_SESSIONS", concat_with " " (kept_ids m 1 l)); ("ONLINE_SESSIONS", concat_with " " (kept_ids m 0 l));
             ("ACTIVE_SEATS", concat_with " " (kept_seats m 1 l)); ("ONLINE_SEATS", concat_with " " (kept_seats m 0 l))]
     end.
Lemma infos_kept m r l (f : bool → bool → bool) :
  (∀ i, f (is_active m i) (is_closing m i) = wanted m r i) →
  let infos := (λ sid, (sid, seat_of m sid, is_active m sid, is_closing m sid)) <$> l in
  omap (λ '(i, _, active, closing), if f active closing then Some i else None) infos = kept_ids m r l ∧
  omap (λ '(_, k, active, closing), if f active closing then k else None) infos = kept_seats m r l.
Proof.
  intros Hf. unfold kept_ids, kept_seats. induction l as [|i l [IH1 IH2]]; [done|]. cbn [fmap list_fmap omap list_omap].
  rewrite Hf. destruct (wanted m r i) eqn:Ew.
  - rewrite filter_cons_True by (by rewrite Ew). split; [f_equal; exact IH1|].
    cbn [omap list_omap]. destruct (seat_of m i); [f_equal|]; exact IH2.
  - rewrite filter_cons_False by (rewrite Ew; intros []). by split.
Qed.
Lemma user_save_runs m uid u state :
  wf m → m_users m !! uid = Some u → u_started u = true → user_get_state uid m = Some (state, m) →
  user_save uid m = Some (0, m <| m_trace := m_trace m ++ [FileSaved (UserObj uid) (user_lines m u state)] |>).
Proof.
  intros Hwf Hu Hst Hs. assert (Hgu : get_user uid m = Some (u, m)) by (unfold get_user, bind, gets; by rewrite Hu).
  assert (Hin : Forall (λ sid, is_Some (m_sessions m !! sid)) (u_sessions u)).
  { apply Forall_forall. intros sid Hsid. destruct (user_has_sessions _ (wf_links_agree m Hwf) _ _ _ Hu Hsid) as (s&->&_). by eexists. }
  unfold user_save. rewrite (bind_run _ _ _ _ _ Hgu), Hst. cbn [negb]. unfold user_save_internal.
  rewrite (bind_run _ _ _ _ _ Hgu), (bind_run _ _ _ _ _ Hs), (bind_run _ _ _ _ _ (user_infos_run m _ Hwf Hin)).
  destruct (infos_kept m (-1) (u_sessions u) (λ _ _, true)) as [H1 H2]; [done|].
  destruct (infos_kept m 1 (u_sessions u) (λ a _, a)) as [H3 H4]; [done|].
  destruct (infos_kept m 0 (u_sessions u) (λ _ c, negb c)) as [H5 H6]; [done|].
  cbv zeta. rewrite H1, H2, H3, H4, H5, H6. unfold user_lines. by destruct (u_sessions u).
Qed.
End Save.

(** * The file *)

Record user_text_ok (u : user) : Prop := {
  user_name_ok : kept (ur_name (u_user_record u));
  user_numbers_ok : Forall (λ z, 0 ≤ z ≤ UINT64_MAX)
    [ur_uid (u_user_record u); realtime (u_timestamp u); monotonic (u_timestamp u); u_last_session_timestamp u];
}.
Definition seats_named (m : manager) : Prop := map_Forall (λ k _, seat_name_is_valid k = true) (m_seats m).
#[export] Instance seats_named_decision m : Decision (seats_named m).
Proof. unfold seats_named. apply _. Defined.

Lemma seat_name_graphs k : seat_name_is_valid k = true → graphs k = true ∧ k ≠ "".
Proof.
  unfold seat_name_is_valid. intros H. destruct (startswith k "seat") as [[|x r]|] eqn:Es; [done| |done].
  apply andb_prop in H as [H _]. split; [|by intros ->]. revert H. apply string_forallb_impl.
  intros d. by destruct d as [[] [] [] [] [] [] [] []].
Qed.

Section File.
Context (m : manager) (uid : Z) (u : user) (state : UserState).
Context (Hwf : wf m) (Hseats : seats_named m) (Hu : m_users m !! uid = Some u) (Hok : user_text_ok u).
Definition words (ws : list string) : Prop := Forall (λ w, graphs w = true ∧ w ≠ "") ws.

Lemma ids_words r : words (kept_ids m r (u_sessions u)).
Proof using Hu Hwf.
  apply Forall_forall. intros sid [_ Hin]%list_elem_of_filter.
  destruct (user_has_sessions _ (wf_links_agree m Hwf) _ _ _ Hu Hin) as (s&Hs&_).
  apply session_id_graphs, (wf_ids _ _ Hwf). eexists. by apply (col_in s_user _ _ s).
Qed.
Lemma seats_words r : words (kept_seats m r (u_sessions u)).
Proof using Hwf Hseats.
  apply Forall_forall. intros k (sid&_&Hk)%list_elem_of_omap. unfold seat_of in Hk.
  destruct (m_sessions m !! sid) as [s|] eqn:Es; [|done]. cbn in Hk.
  destruct (session_on_seat _ (wf_links_agree m Hwf) _ _ _ Es Hk) as (t&Ht&_). by apply seat_name_graphs, (Hseats k t).
Qed.
Lemma user_lines_ok : Forall item_ok (user_lines m u state).
Proof using Hwf Hseats Hu Hok.
  destruct Hok as [Hn Hz]. rewrite !Forall_cons in Hz. destruct Hz as (Z1&Z2&Z3&Z4&_).
  pose proof (λ r, joined_kept _ (ids_words r)) as Hi. pose proof (λ r, joined_kept _ (seats_words r)) as Hs.
  pose proof (λ z (H : 0 ≤ z), graphs_kept _ (proj1 (pretty_graphs z H))) as Hp.
  assert (Hd : ∀ v, u_display u = Some v → kept v).
  { intros v Hv. pose proof (user_display _ (wf_links_agree m Hwf) _ _ _ Hu Hv) as Hin.
    destruct (user_has_sessions _ (wf_links_agree m Hwf) _ _ _ Hu Hin) as (s&Hss&_).
    apply graphs_kept, session_id_graphs, (wf_ids _ _ Hwf). eexists. by apply (col_in s_user _ _ s). }
  assert (Hrun : kept ("/run/user/" +:+ pretty (ur_uid (u_user_record u)))).
  { apply graphs_kept. unfold graphs. rewrite string_forallb_app. apply andb_true_intro. split; [done|]. apply pretty_graphs. lia. }
  unfold user_lines. repeat (apply Forall_app; split).
  - repeat (apply Forall_cons; split; [apply kept_item; [done|]|]); [exact Hn|by apply graphs_kept; destruct state|
      by apply graphs_kept; destruct (u_stopping u)|by apply graphs_kept; destruct (u_gc_mode u)|exact Hrun|constructor].
  - by apply items_opt.
  - destruct (dual_timestamp_is_set _); [|constructor].
    repeat (apply Forall_cons; split; [apply kept_item; [done|apply Hp; lia]|]). constructor.
  - apply items_when; [done|]. intros _. apply Hp. lia.
  - destruct (u_sessions u) as [|x l] eqn:El; [constructor|].
    repeat (apply Forall_cons; split; [apply kept_item; [done|auto]|]). constructor.
Qed.
Definition user_keys : list string :=
  ["NAME"; "STATE"; "STOPPING"; "GC_MODE"; "RUNTIME"] ++ ["DISPLAY"] ++ ["REALTIME"; "MONOTONIC"] ++ ["LAST_SESSION_TIMESTAMP"]
  ++ ["SESSIONS"; "SEATS"; "ACTIVE_SESSIONS"; "ONLINE_SESSIONS"; "ACTIVE_SEATS"; "ONLINE_SEATS"].
Lemma user_lines_keys : NoDup (user_lines m u state).*1.
Proof.
  assert (H : (user_lines m u state).*1 `sublist_of` user_keys); [|eapply (sublist_NoDup _ user_keys); [apply (bool_decide_unpack _); reflexivity|exact H]].
  unfold user_lines, user_keys. rewrite !fmap_app.
  repeat (apply sublist_app; [first [apply opt_line_keys|apply when_line_keys|done|idtac]|]).
  - destruct (dual_timestamp_is_set _); [done|apply sublist_nil_l].
  - destruct (u_sessions u); [apply sublist_nil_l|done].
Qed.

(** What a key of the file holds. *)
Definition user_value (k : string) : option string :=
  let sessions f := match u_sessions u with [] => None | l => Some (concat_with " " (f l)) end in
  match k with
  | "STATE" => to_string state | "STOPPING" => Some (yes_no (u_stopping u)) | "GC_MODE" => to_string (u_gc_mode u)
  | "DISPLAY" => u_display u
  | "REALTIME" => if dual_timestamp_is_set (u_timestamp u) then Some (pretty (realtime (u_timestamp u))) else None
  | "MONOTONIC" => if dual_timestamp_is_set (u_timestamp u) then Some (pretty (monotonic (u_timestamp u))) else None
  | "LAST_SESSION_TIMESTAMP" =>
      if negb (u_last_session_timestamp u =? USEC_INFINITY) then Some (pretty (u_last_session_timestamp u)) else None
  | "SESSIONS" => sessions (kept_ids m (-1)) | "ACTIVE_SESSIONS" => sessions (kept_ids m 1) | "ONLINE_SESSIONS" => sessions (kept_ids m 0)
  | "SEATS" => sessions (kept_seats m (-1)) | "ACTIVE_SEATS" => sessions (kept_seats m 1) | "ONLINE_SEATS" => sessions (kept_seats m 0)
  | _ => None
  end.
Definition told_keys : list string :=
  ["STATE"; "STOPPING"; "GC_MODE"; "DISPLAY"; "REALTIME"; "MONOTONIC"; "LAST_SESSION_TIMESTAMP"; "SESSIONS"; "ACTIVE_SESSIONS"; "ONLINE_SESSIONS"; "SEATS"; "ACTIVE_SEATS"; "ONLINE_SEATS"].
Lemma user_lines_value k : k ∈ told_keys → find_item k (user_lines m u state) = user_value k.
Proof.
  intros Hk. unfold user_lines. rewrite !find_item_app, !find_opt, !find_when.
  unfold told_keys in Hk. rewrite !elem_of_cons in Hk. destruct_or! Hk; try (by apply elem_of_nil in Hk); subst k;
    cbn [find_item]; eval_keys; cbv iota; cbn [user_value String.eqb]; cbn -[to_string pretty kept_ids kept_seats dual_timestamp_is_set].
  all: destruct (dual_timestamp_is_set (u_timestamp u)), (u_sessions u); cbn [find_item]; eval_keys; cbv iota; try reflexivity.
  all: repeat case_match; simplify_eq; try reflexivity.
Qed.
End File.

(** What a client may ask about a user. *)
Record user_is_told (files : string → Z + string) (m : manager) (uid : Z) (u : user) (state : UserState) : Prop := {
  told_user_state : Some (sd_uid_get_state files uid) = inr <$> to_string state;
  told_display : sd_uid_get_display files uid = match u_display u with Some d => inr d | None => inl (- ENODATA) end;
  told_user_sessions : ∀ r, sd_uid_get_sessions files uid r = inr (filter (wanted m r) (u_sessions u));
  told_user_seats : ∀ r, ∃ l, sd_uid_get_seats files uid r = inr l ∧ NoDup l ∧
    ∀ k, k ∈ l ↔ ∃ sid, sid ∈ u_sessions u ∧ wanted m r sid ∧ seat_of m sid = Some k;
  told_login_time : sd_uid_get_login_time files uid =
    if negb (dual_timestamp_is_set (u_timestamp u)) then inl (- EIO)
    else if negb (in_set state [USER_ACTIVE; USER_ONLINE]) then inl (- ENXIO) else inr (realtime (u_timestamp u));
}.
Lemma array_read files uid f key (l : list string) ws :
  (∀ A (en : Z + A) g, and_then_file files (file_of_uid uid) en g = g f) →
  words ws → f key = match l with [] => None | _ => Some (concat_with " " ws) ≫= read_value end → (l = [] → ws = []) →
  uid_get_array files uid key = inr (strv_uniq ws).
Proof.
  intros Hread Hw Hf Hl. unfold uid_get_array. rewrite Hread, Hf. destruct l as [|x l]; [by rewrite (Hl eq_refl)|].
  cbn [mbind option_bind]. destruct (decide (ws = [])) as [->|Hne]; [done|].
  rewrite (joined_read ws Hw Hne). destruct (concat_with " " ws) as [|c v] eqn:Ec; [|by rewrite <-Ec, split_joined].
  pose proof (joined_read ws Hw Hne) as H. by rewrite Ec in H.
Qed.
Lemma told_user m uid u state files :
  wf m → seats_named m → m_users m !! uid = Some u → user_text_ok u → uid_is_valid uid = true →
  files ("/run/systemd/users/" +:+ pretty uid) = inr (file_text (user_lines m u state)) →
  user_is_told files m uid u state.
Proof.
  intros Hwf Hseats Hu Hok Hid Hfile.
  destruct (parse_env_file_finds (user_lines m u state)) as (f&Hf&Hv);
    [by apply (user_lines_ok m uid)|apply user_lines_keys|].
  assert (Hk : ∀ k, k ∈ told_keys → f k = user_value m u state k ≫= read_value).
  { intros k Hk. by rewrite Hv, user_lines_value. }
  assert (Hread : ∀ A (en : Z + A) g, and_then_file files (file_of_uid uid) en g = g f).
  { intros A en g. unfold file_of_uid. rewrite Hid. unfold and_then_file, parse_env_file_of. rewrite Hfile.
    unfold file_text. by rewrite Hf. }
  assert (Hsess : ∀ r, uid_get_array files uid (if r =? 0 then "ONLINE_SESSIONS" else if 0 <? r then "ACTIVE_SESSIONS" else "SESSIONS")
    = inr (strv_uniq (kept_ids m r (u_sessions u)))).
  { intros r. apply (array_read _ _ f _ (u_sessions u)); [done|by apply (ids_words m uid)| |by intros ->].
    destruct (r =? 0) eqn:E0; [|destruct (0 <? r) eqn:E1]; (rewrite Hk; [|apply (bool_decide_unpack _); vm_compute; exact I]);
      cbn [user_value]; unfold kept_ids, wanted; rewrite ?E0, ?E1; by destruct (u_sessions u). }
  assert (Hse : ∀ r, sd_uid_get_seats files uid r = inr (strv_uniq (kept_seats m r (u_sessions u)))).
  { intros r. apply (array_read _ _ f _ (u_sessions u)); [done|by apply seats_words| |by intros ->].
    destruct (r =? 0) eqn:E0; [|destruct (0 <? r) eqn:E1]; (rewrite Hk; [|apply (bool_decide_unpack _); vm_compute; exact I]);
      cbn [user_value]; unfold kept_seats, wanted; rewrite ?E0, ?E1; by destruct (u_sessions u). }
  destruct Hok as [_ Hz]. rewrite !Forall_cons in Hz. destruct Hz as (_&Z2&_).
  constructor.
  - unfold sd_uid_get_state. rewrite Hread, Hk by in_list. clear. by destruct state.
  - unfold sd_uid_get_display. rewrite Hread, Hk by in_list. cbn [user_value String.eqb].
    destruct (u_display u) as [d|] eqn:Ed; [|done]. cbn [mbind option_bind].
    pose proof (user_display _ (wf_links_agree m Hwf) _ _ _ Hu Ed) as Hin.
    destruct (user_has_sessions _ (wf_links_agree m Hwf) _ _ _ Hu Hin) as (s&Hs&_).
    assert (Hg : graphs d = true ∧ d ≠ "") by (apply session_id_graphs, (wf_ids _ _ Hwf); eexists; by apply (col_in s_user _ _ s)).
    rewrite text_read by (apply graphs_kept, Hg). destruct d; [by destruct Hg|done].
  - intros r. unfold sd_uid_get_sessions. rewrite Hsess, strv_uniq_id; [done|]. apply NoDup_filter.
    by apply (proj1 (lists_distinct _ (wf_links_agree m Hwf)) uid).
  - intros r. exists (strv_uniq (kept_seats m r (u_sessions u))). split; [apply Hse|].
    destruct (strv_uniq_spec (kept_seats m r (u_sessions u))) as [Hnd Hin]. split; [done|]. intros k. rewrite Hin.
    unfold kept_seats. rewrite list_elem_of_omap. setoid_rewrite list_elem_of_filter.
    split; [intros (sid&[? ?]&?)|intros (sid&?&?&?)]; by exists sid.
  - unfold sd_uid_get_login_time. rewrite Hread, !Hk by in_list. cbn [user_value String.eqb].
    destruct (dual_timestamp_is_set (u_timestamp u)); [|clear; by destruct state]. cbn [negb mbind option_bind].
    assert (Ht : safe_atou64 (pretty (realtime (u_timestamp u))) = inr (realtime (u_timestamp u)))
      by (apply safe_atollu_full_pretty; [done|by left]).
    rewrite number_read by lia. destruct (pretty_graphs (realtime (u_timestamp u)) ltac:(lia)) as [_ Hne].
    revert Ht Hne. generalize (pretty (realtime (u_timestamp u))). clear. intros [|x v] Ht Hne; [done|].
    destruct state; cbn -[safe_atou64]; by rewrite ?Ht.
Qed.

(** C30: the client library tells of a user what the daemon knows of it: in every
    reachable state, once the file of a started user is saved, the user's state,
    display session, login time, its sessions and the seats they are on, all of
    them, the active ones or those that are not closing, are those of the
    daemon. *)
Theorem user_file_is_true c m (E : Env) uid u :
  sane c → reachable c m → seats_named m → m_users m !! uid = Some u → u_started u = true →
  uid_is_valid uid = true → user_text_ok u →
  ∃ state m', user_get_state uid m = Some (state, m) ∧ user_save uid m = Some (0, m') ∧
    user_is_told (disk m') m uid u state.
Proof.
  intros Hc Hm Hseats Hu Hst Hid Hok. pose proof (reachable_wf c m Hc Hm) as Hwf.
  assert (Hh : has_u (cols_of m) uid) by (eexists; by apply (col_in u_sessions _ _ u)).
  destruct (wp_run _ _ _ (soft_user_get_state ex0 (cols_of m) Hwf uid Hh m eq_refl)) as (state&m1&Hstate&_).
  pose proof (user_state_reads uid _ _ _ Hstate) as <-.
  exists state. eexists. split; [done|]. split; [by apply (user_save_runs m uid u state)|].
  apply told_user; [done..|]. by apply disk_saved.
Qed.
Definition plain_user (u : user) : bool :=
  graphs (ur_name (u_user_record u))
  && forallb (λ z, (0 <=? z) && (z <=? UINT64_MAX))
       [ur_uid (u_user_record u); realtime (u_timestamp u); monotonic (u_timestamp u); u_last_session_timestamp u].
Lemma plain_user_ok u : plain_user u = true → user_text_ok u.
Proof.
  intros [H1 H2]%andb_prop. split; [by apply graphs_kept|]. apply Forall_forall. intros z Hz.
  eapply List.forallb_forall in H2; [|by apply list_elem_of_In]. lia.
Qed.
Lemma sample_owned_user : ∃ u, m_users sample_owned !! 1001 = Some u ∧ u_started u = true ∧ plain_user u = true ∧ u_sessions u = ["c2"] ∧
  seats_named sample_owned ∧ is_active sample_owned "c2" = true.
Proof.
  destruct (m_users sample_owned !! 1001) as [u|] eqn:Eu; [|by vm_compute in Eu].
  vm_compute in Eu. injection Eu as <-. eexists. do 4 (split; [reflexivity|]).
  split; [apply (bool_decide_unpack _); vm_compute; exact I|vm_compute; reflexivity].
Qed.
Lemma user_file_is_true_witness :
  ∃ u state m', m_users sample_owned !! 1001 = Some u ∧ @user_save sample_env 1001 sample_owned = Some (0, m') ∧
    user_is_told (disk m') sample_owned 1001 u state.
Proof.
  destruct sample_owned_user as (u&Eu&Hst&Hp&_&Hse&_).
  destruct (user_file_is_true sample_config sample_owned sample_env 1001 u) as (state&m'&_&Hs&Ht);
    [exact sample_sane|exact sample_owned_reachable|exact Hse|exact Eu|exact Hst|reflexivity|exact (plain_user_ok u Hp)|].
  exists u, state, m'. exact (conj Eu (conj Hs Ht)).
Defined.
