(* ===== verification/LoadFacts.v ===== *)
(** What is saved is loaded: a session or a user whose file was written before the
    daemon went down is, once the file is read again, the session or user it was. *)
From Stdlib Require Import Ascii.
From stdpp Require Import pretty.
From S2P Require Import Prelude Time LoginTypes ActionTypes LoginState LoginEnv Bus Escape Parse EnvFile Words Objects SessionDevice Seat Device User Session Lifecycle SessionBus Inhibit Startup Events Cols Links LinksObjects LinksEnumerate LinksLoad LinksRun LinksBoot Partial Sample Safety Identity CreateFacts EnvFileFacts SdLogin SdLoginFacts SdSessionFacts SdUserFacts.
#[local] Open Scope string_scope.
#[local] Open Scope Z_scope.
#[local] Open Scope list_scope.

(** * Names of enumerations *)

(** Every member has a name, and name and member determine each other. *)
Definition names_exact (A : Type) `{StringTable A} : Prop :=
  ∀ i : A, ∃ k, to_string i = Some k ∧ ∀ j, from_string (Some k) = Some j ↔ j = i.

Lemma names_exact_intro {A} `{StringTable A} :
  table_ok = true → (∀ i : A, i ∈ members) → names_exact A.
Proof.
  intros Hok Hm i. pose proof (string_table_roundtrip i Hok (Hm i)) as Hrt.
  assert (Hn : is_some (to_string i) = true).
  { apply andb_prop in Hok as [Hall _]. rewrite forallb_forall in Hall. by apply Hall, list_elem_of_In. }
  destruct (to_string i) as [k|] eqn:Ek; [|done]. exists k. split; [done|]. intros j.
  rewrite Hrt. split; congruence.
Qed.
Ltac names := apply names_exact_intro; [vm_compute; reflexivity|intros []; set_solver].

(** The string tables of the daemon are exact: for each enumeration that is
    written to a state file, read from the configuration or passed over D-Bus,
    every member has a name, and *_from_string() of it gives this member and no
    other. *)
Theorem string_tables_exact :
  names_exact SessionState ∧ names_exact SessionType ∧ names_exact SessionClass ∧
  names_exact KillWhom ∧ names_exact TTYValidity ∧ names_exact UserState ∧ names_exact UserGCMode ∧
  names_exact HandleAction ∧ names_exact SleepOperation ∧ names_exact InhibitMode.
Proof. split_and!; names. Qed.

(** * Numbers *)

(** The integer parsers never deliver a number that does not fit: what
    safe_atou_full() accepts, in any base and with any flags, is an unsigned int,
    what safe_atoi() accepts is an int, and their errors are EINVAL or ERANGE. *)
Theorem parsed_integers_fit s base f :
  match safe_atou_full s base f with
  | inr u => 0 ≤ u ≤ UINT_MAX
  | inl r => r = - EINVAL ∨ r = - ERANGE
  end ∧
  match safe_atoi s with
  | inr i => - 2 ^ 31 ≤ i < 2 ^ 31
  | inl r => r = - EINVAL ∨ r = - ERANGE
  end.
Proof.
  split.
  - apply safe_atou_full_fits.
  - unfold safe_atoi. destruct (mangle_base _ _) as [s' b]. unfold strtol.
    destruct (strto b s') as [[[neg v] rest]|]; [|by left]. set (l := if neg : bool then - v else v).
    destruct (_ || _); [by right|]. destruct (negb _); [by left|].
    destruct (l <? - 2 ^ 31) eqn:E1; [by right|]. destruct (2 ^ 31 - 1 <? l) eqn:E2; [by right|].
    cbn [orb]. lia.
Qed.

(** The VT number is recovered from the name of its terminal, with and
    without /dev/, and no name gives a number above 63. *)
Theorem vtnr_roundtrip n tty :
  0 ≤ n ≤ 63 →
  vtnr_from_tty ("tty" +:+ pretty n) = n ∧ vtnr_from_tty (tty_path n) = n ∧ vtnr_from_tty tty ≤ 63.
Proof.
  intros Hn. destruct (vtnr_from_tty_tty n Hn) as [H1 H2]. split_and!; [done|done|].
  destruct (vtnr_from_tty_range tty); lia.
Qed.
Lemma vtnr_roundtrip_witness :
  vtnr_from_tty ("tty" +:+ pretty 7) = 7 ∧ vtnr_from_tty (tty_path 7) = 7 ∧ vtnr_from_tty "console" ≤ 63.
Proof. apply vtnr_roundtrip. split; vm_compute; congruence. Defined.

(** * Device numbers *)

Lemma high_bits_zero x n : 0 ≤ n → 0 ≤ x < 2 ^ n → ∀ i, n ≤ i → Z.testbit x i = false.
Proof.
  intros Hn Hx i Hi. rewrite <-(Z.mod_small x (2 ^ n)) by done. by apply Z.mod_pow2_bits_high.
Qed.
(** The bits of a mask of [n] ones from bit [k] on. *)
Lemma mask_bits n k i : 0 ≤ n → 0 ≤ k → Z.testbit (Z.shiftl (Z.ones n) k) i = (k <=? i) && (i <? k + n).
Proof.
  intros Hn Hk. destruct (Z.leb_spec k i) as [Hi|Hi].
  - rewrite Z.shiftl_spec by lia. cbn [andb].
    destruct (Z.ltb_spec i (k + n)); rewrite Z.testbit_ones_nonneg by lia; [apply Z.ltb_lt|apply Z.ltb_ge]; lia.
  - destruct (decide (0 ≤ i)); [rewrite Z.shiftl_spec by lia|]; apply Z.testbit_neg_r; lia.
Qed.
(** One bit of a word built from masks and shifts: by cases on where it is. *)
Ltac bit_cases E1 E2 :=
  repeat first [rewrite mask_bits by lia|rewrite Z.lor_spec|rewrite Z.land_spec
               |rewrite Z.shiftr_spec by lia|rewrite Z.shiftl_spec by lia];
  rewrite !andb_orb_distrib_l;
  repeat match goal with |- context [?a <=? ?b] => destruct (Z.leb_spec a b); try lia end;
  repeat match goal with |- context [?a <? ?b] => destruct (Z.ltb_spec a b); try lia end;
  rewrite ?andb_true_r, ?andb_false_r, ?orb_false_r, ?orb_true_r; cbn [andb orb];
  rewrite ?Z.add_simpl_r; first [rewrite ?E1, ?E2 by lia; reflexivity|f_equal; lia].

(** The device numbers that TakeDevice accepts are encoded without loss:
    major() and minor() of makedev() give the numbers back, so two devices never
    share an entry in a session's table. *)
Theorem makedev_roundtrip major minor :
  0 ≤ major → 0 ≤ minor → DEVICE_MAJOR_VALID major = true → DEVICE_MINOR_VALID minor = true →
  dev_major (makedev major minor) = major ∧ dev_minor (makedev major minor) = minor.
Proof.
  unfold DEVICE_MAJOR_VALID, DEVICE_MINOR_VALID. intros H1 H2 H3%Z.ltb_lt H4%Z.ltb_lt.
  change (Z.shiftl 1 12) with (2 ^ 12) in H3. change (Z.shiftl 1 20) with (2 ^ 20) in H4.
  pose proof (high_bits_zero major 12 ltac:(lia) ltac:(lia)) as E1.
  pose proof (high_bits_zero minor 20 ltac:(lia) ltac:(lia)) as E2.
  unfold dev_major, dev_minor, makedev.
  change 0xfff with (Z.shiftl (Z.ones 12) 0). change 0xfffff000 with (Z.shiftl (Z.ones 20) 12).
  change 0xff with (Z.shiftl (Z.ones 8) 0). change 0xffffff00 with (Z.shiftl (Z.ones 24) 8).
  change 0xfff00 with (Z.shiftl (Z.ones 12) 8). change 0xfffff00000000000 with (Z.shiftl (Z.ones 20) 44).
  change 0x00000ffffff00000 with (Z.shiftl (Z.ones 24) 20).
  split; apply Z.bits_inj'; intros i Hi; bit_cases E1 E2.
Qed.
Lemma makedev_roundtrip_witness :
  dev_major (makedev 226 300) = 226 ∧ dev_minor (makedev 226 300) = 300.
Proof. apply makedev_roundtrip; [lia|lia|reflexivity|reflexivity]. Defined.

(** * What loading leaves alone *)

(** The part [q] of the manager stays as it is. *)
Definition same {B} (q : manager → B) (m m' : manager) : Prop := q m' = q m.
#[export] Instance same_preorder {B} (q : manager → B) : PreOrder (same q).
Proof. split; [done|]. unfold same. intros ???. congruence. Qed.
#[export] Hint Extern 2 (moves (same _) (modify _)) => apply moves_modify; intros ?; reflexivity : moves.

(** The seats, and whether there are terminals on them. *)
Definition places (m : manager) : gmap string seat * option string * Z :=
  (m_seats m, m_seat0 m, m_console_active_fd m).
Definition console (m : manager) : option string * Z := (m_seat0 m, m_console_active_fd m).

Section Moves.
Context {E : Env}.
Lemma places_any_pinning l : moves (same places) (any_pinning l).
Proof. induction l as [|i l IH]; simpl; unfold get_session; solve_moves. Qed.
Hint Resolve places_any_pinning : moves.
Lemma places_set_user sid uid : moves (same places) (session_set_user sid uid).
Proof.
  unfold session_set_user, user_update_last_session_timer, user_pinned_by_sessions, user_get_stop_delay, upd_user,
    upd_session, get_user, get_session. solve_moves.
Qed.
Lemma same_get_state {B} (q : manager → B) i : moves (same q) (session_get_state i).
Proof. unfold session_get_state, session_is_active, get_session, get_seat. solve_moves. Qed.
Hint Resolve same_get_state : moves.
Lemma console_find_claimant pos l : moves (same console) (find_claimant pos l).
Proof. induction l as [|i l IH]; simpl; unfold get_session; solve_moves. Qed.
Hint Resolve console_find_claimant : moves.
Lemma console_assign_position k sid : moves (same console) (seat_assign_position k sid).
Proof.
  unfold seat_assign_position, seat_claim_position, seat_evict_position, set_position, seat_has_vts, seat_is_seat0, upd_seat,
    upd_session, get_seat, get_session. solve_moves.
Qed.
End Moves.

Section Idem.
Context {E : Env} (sid : string).
Abbreviation idem c := (moves (keeps restored sid) c).
Lemma idem_queue i : idem (session_add_to_gc_queue i).
Proof. unfold session_add_to_gc_queue. solve_moves. Qed.
Hint Resolve idem_get_sd idem_upd_sd idem_notify idem_open idem_device_start idem_device_stop idem_device_save same_find_claimant
  same_set_position same_send_changed same_seat_send_changed same_seat_save same_apply_acls same_session_user_save
  idem_seat_set_active idem_create_fifo idem_read_active_vt idem_set_leader : moves.
Lemma idem_claim_position k i p : idem (seat_claim_position k i p).
Proof. unfold seat_claim_position, seat_evict_position. solve_moves. Qed.
Lemma same_upd_device d f : moves same_sessions (upd_device d f).
Proof. unfold upd_device. solve_moves. Qed.
Hint Resolve same_upd_device : moves.
Lemma idem_device_free i dev : idem (session_device_free i dev).
Proof. unfold session_device_free. solve_moves. Qed.
Hint Resolve idem_device_free : moves.
Lemma idem_free_devices i : idem (session_free_devices i).
Proof.
  unfold session_free_devices. apply moves_bind; [apply _|solve_moves|]. intros s.
  generalize (size (s_devices s)). intros n. induction n as [|n IH]; simpl; solve_moves.
Qed.
Hint Resolve idem_free_devices : moves.
Lemma idem_release_controller i b : idem (session_release_controller i b).
Proof. unfold session_release_controller. solve_moves. Qed.
Lemma idem_restore_vt i : idem (session_restore_vt i).
Proof. unfold session_restore_vt, session_open_vt. solve_moves. Qed.
Hint Resolve idem_release_controller idem_restore_vt same_session_save : moves.
Lemma idem_set_controller i w : idem (session_set_controller i w false false).
Proof. unfold session_set_controller, session_is_controller. solve_moves. Qed.
Lemma same_seat_queue k : moves same_sessions (seat_add_to_gc_queue k).
Proof. unfold seat_add_to_gc_queue. solve_moves. Qed.
Lemma idem_seat_start k : idem (seat_start k).
Proof. unfold seat_start, seat_send_signal, send_signal. solve_moves. Qed.
Lemma same_add_seat k : moves same_sessions (manager_add_seat k).
Proof. unfold manager_add_seat, seat_new. solve_moves. Qed.
Lemma idem_device_users fuel d : idem (free_device_users fuel d).
Proof. induction fuel; simpl; solve_moves. Qed.
Lemma same_insert_after d l : moves same_sessions (insert_after_masters d l).
Proof. induction l; simpl; solve_moves. Qed.
Lemma same_add_device d b : moves same_sessions (manager_add_device d b).
Proof. unfold manager_add_device, device_new. solve_moves. Qed.
Hint Resolve same_seat_queue idem_seat_start same_add_seat idem_device_users same_insert_after same_add_device : moves.
Lemma idem_process_seat_device d : idem (manager_process_seat_device d).
Proof. unfold manager_process_seat_device, device_free, device_attach, device_detach, seat_has_master_device. solve_moves. Qed.
Hint Resolve idem_process_seat_device : moves.
Lemma idem_device_new i dev : idem (session_device_new i dev false).
Proof. unfold session_device_new, session_device_verify. cbv zeta. solve_moves. Qed.
Hint Resolve idem_set_controller idem_device_new idem_claim_position : moves.
Lemma idem_devices_loop fuel i p r : idem (load_devices_loop fuel i p r).
Proof. revert p r. induction fuel as [|fuel IH]; intros p r; simpl; solve_moves. Qed.
Hint Resolve idem_devices_loop : moves.
Lemma idem_load_controller i f : idem (load_controller i f).
Proof. unfold load_controller, session_load_devices. solve_moves. Qed.
Lemma idem_load_leader i f r : idem (load_leader i f r).
Proof. unfold load_leader. solve_moves. Qed.
Lemma idem_load_display i f : idem (load_display i f).
Proof. unfold load_display. solve_moves. Qed.
Lemma idem_load_fifo i : idem (load_session_fifo i).
Proof. unfold load_session_fifo. solve_moves. Qed.
End Idem.

(** * What loading reads *)

Section Load.
Context {E : Env} (sid : string).
Implicit Types (i : identity_of_session) (r : bool * bool * dual_timestamp).

Lemma field_at {A} (p : session → A) m s x : m_sessions m !! sid = Some s → field p sid m = Some x → p s = x.
Proof. unfold field. intros ->. by intros [= ->]. Qed.

Lemma restored_inv s i r :
  restored s = (i, r) → i = identity s ∧ r = (s_stopping s, s_was_active s, s_timestamp s).
Proof. intros H. by split; [apply (f_equal fst) in H|apply (f_equal snd) in H]. Qed.

(** Fields are set; nothing but the sessions changes. *)
Definition sets (X : identity_of_session * (bool * bool * dual_timestamp)) (m m' : manager) : Prop :=
  field restored sid m' = Some X ∧ places m' = places m ∧ m_users m' = m_users m.
Lemma may_set m X Y g :
  field restored sid m = Some X → (∀ s, restored s = X → restored (g s) = Y) → may (upd_session sid g) (λ _, sets Y m) m.
Proof.
  intros HX Hg. apply may_upd_session. intros s Hs. pose proof (field_at _ _ _ _ Hs HX) as HXs.
  split; [|done]. unfold field; cbn. rewrite lookup_insert_eq. cbn. by rewrite Hg.
Qed.
Ltac set_fields := let s := fresh in let Hs := fresh in let Hi := fresh in let Hr := fresh in
  repeat match goal with x := _ : identity_of_session |- _ => subst x end;
  intros s Hs; destruct (restored_inv _ _ _ Hs) as [Hi Hr]; rewrite ?Hi, ?Hr; reflexivity.
Lemma stored_none (f : string → option string) k : stored f k None = f k.
Proof. unfold stored. by destruct (f k). Qed.

(** The texts. *)
Definition with_texts (f : string → option string) i : identity_of_session :=
  i <| id_tty := f "TTY" |> <| id_display := f "DISPLAY" |> <| id_remote_user := f "REMOTE_USER" |>
    <| id_remote_host := f "REMOTE_HOST" |> <| id_service := f "SERVICE" |> <| id_desktop := f "DESKTOP" |>.
Lemma may_load_texts m f :
  field restored sid m = Some (restored new_session) →
  may (load_texts sid f) (λ _, sets (with_texts f (identity new_session), (false, false, DUAL_TIMESTAMP_NULL)) m) m.
Proof.
  intros Hm. eapply may_set; [exact Hm|]. intros s Hs. unfold restored, identity in *. cbn in *.
  injection Hs as -> -> -> -> -> -> -> -> -> -> -> -> -> -> -> ->. by rewrite !stored_none.
Qed.

(** The user. *)
Lemma may_load_user m i r f text uid :
  field restored sid m = Some (i, r) → id_user i = None → f "UID" = Some text → parse_uid text = inr uid →
  is_Some (m_users m !! uid) →
  may (load_user sid f) (λ k m', k = 0 ∧ field restored sid m' = Some (i <| id_user := Some uid |>, r) ∧ places m' = places m) m.
Proof.
  intros Hm Hi Ht Hu [u Hus]. unfold load_user. apply may_bind, may_get_session. intros s Hs.
  pose proof (field_at _ _ _ _ Hs Hm) as Hr.
  assert (Es : s_user s = None) by (injection Hr as <-; exact Hi). rewrite Es, Ht, Hu.
  apply may_bind, may_gets. rewrite Hus. apply may_bind.
  apply (may_mono _ (λ _ m', field restored sid m' = Some (i <| id_user := Some uid |>, r) ∧ places m' = places m)).
  - intros [] m' H. split; [|exact (places_set_user sid uid _ _ _ H)]. revert H.
    refine ((_ : may _ (λ _ m', field restored sid m' = _) m) tt m').
    unfold session_set_user. apply may_bind, may_get_session. intros s1 Hs1. apply may_bind, may_assert. intros _.
    apply may_bind, may_upd_session. intros x Hx. simplify_eq.
    eapply may_mono; [apply (may_moves same_sessions); solve_moves|].
    { apply CreateFacts.same_last_session_timer. }
    intros ? m1 H1. unfold field. rewrite H1. cbn. rewrite lookup_insert_eq. injection Hr as <- <-. done.
  - intros k m' H. by apply may_ret.
Qed.

(** The seat. *)
Lemma attach_succeeds m k vts :
  seat_has_vts k m = Some (vts, m) → (∀ s, m_sessions m !! sid = Some s → (s_vtnr s =? 0) = negb vts) →
  may (seat_attach_session k sid) (λ a m', a = 0 ∧ (vts = true → console m' = console m)) m.
Proof.
  intros Hv Hs. unfold seat_attach_session. apply may_bind, may_get_session. intros x Hx.
  apply may_bind, may_assert. intros _. apply may_bind. intros b m' H. rewrite Hv in H. injection H as <- <-.
  rewrite (Hs _ Hx), bool_decide_true by done. cbn [negb].
  eapply (may_after (same console)); [unfold upd_session, get_session; solve_moves|]. intros _ m1 H1.
  eapply (may_after (same console)); [unfold upd_seat, get_seat; solve_moves|]. intros _ m2 H2.
  eapply (may_after (same console)); [apply console_assign_position|]. intros _ m3 H3. unfold same in *.
  apply may_bind. destruct vts; cbn [negb when].
  - apply may_ret, may_ret. split; [done|]. congruence.
  - intros _ m4 _. by apply may_ret.
Qed.
Lemma has_vts_console k m m' b : console m' = console m → seat_has_vts k m = Some (b, m) → seat_has_vts k m' = Some (b, m').
Proof. unfold seat_has_vts, seat_is_seat0, console. cbn. intros [= -> ->]. by intros [= <-]. Qed.
Lemma places_console m m' : places m' = places m → console m' = console m.
Proof. by intros [= _ H1 H2]; unfold console; rewrite H1, H2. Qed.

Definition vt_read (f : string → option string) : Z :=
  match safe_atou <$> f "VTNR" with Some (inr v) => v | _ => 0 end.
Lemma may_load_vt m i r f :
  field restored sid m = Some (i, r) → id_vtnr i = 0 →
  may (match safe_atou <$> f "VTNR" with
       | Some (inr v) => upd_session sid (λ s, s <| s_vtnr := v |>)
       | _ => ret tt
       end) (λ _ m', field restored sid m' = Some (i <| id_vtnr := vt_read f |>, r) ∧ places m' = places m) m.
Proof.
  intros Hm Hvt. unfold vt_read. destruct (safe_atou <$> f "VTNR") as [[a|v]|].
  2: { eapply may_mono; [eapply (may_set m _ (i <| id_vtnr := v |>, r)); [exact Hm|set_fields]|].
       intros ? m' (H&P&_). exact (conj H P). }
  all: apply may_ret; split; [rewrite Hm, <-Hvt|done]; by destruct i.
Qed.
(** The session is attached: the seat is there and agrees with the terminal. *)
Lemma may_load_attach m s i r f :
  m_sessions m !! sid = Some s → field restored sid m = Some (i, r) → id_seat i = None → id_vtnr i = vt_read f →
  (∀ k, f "SEAT" = Some k → is_Some (m_seats m !! k) ∧ seat_has_vts k m = Some (negb (vt_read f =? 0), m)) →
  may (match f "SEAT" with
       | Some seat =>
           if is_some (s_seat s) then ret 0
           else
             o <- gets (λ m, m_seats m !! seat) ;;
             (match o with Some _ => seat_attach_session seat sid | None => ret 0 end)
       | None => ret 0
       end)
    (λ a m', a = 0 ∧ field restored sid m' = Some (i <| id_seat := f "SEAT" |>, r) ∧
       (∀ k, f "SEAT" = Some k → vt_read f ≠ 0 → console m' = console m)) m.
Proof.
  intros Hs Hm Hseat Hvt Hk. destruct (restored_inv _ _ _ (field_at _ _ _ _ Hs Hm)) as [Ei _].
  assert (s_seat s = None) as -> by (transitivity (id_seat (identity s)); [done|by rewrite <-Ei]).
  assert (Ev : s_vtnr s = vt_read f) by (transitivity (id_vtnr (identity s)); [done|by rewrite <-Ei]).
  cbn [is_some]. destruct (f "SEAT") as [k|] eqn:Ek.
  - destruct (Hk k eq_refl) as [[t Ht] Hvts]. apply may_bind, may_gets. rewrite Ht.
    intros a m' H. destruct (attach_succeeds m k (negb (vt_read f =? 0)) Hvts
      ltac:(intros x Hx; assert (x = s) as -> by congruence; rewrite Ev; by destruct (vt_read f =? 0)) _ _ H) as [-> Hc].
    split; [done|]. split.
    + rewrite (may_attach_restored sid k m _ _ H), Hm by done. done.
    + intros k' [= <-] Hne. apply Hc. by apply Z.eqb_neq in Hne as ->.
  - apply may_ret. split; [done|]. split; [|done]. rewrite Hm, <-Hseat. by destruct i.
Qed.
(** Whether the seat has terminals; without them the number is dropped. *)
Lemma may_load_has_vts m f :
  (∀ k, f "SEAT" = Some k → vt_read f ≠ 0 → seat_has_vts k m = Some (true, m)) →
  may (match f "SEAT" with Some k => seat_has_vts k | None => ret false end)
    (λ vts m', m' = m ∧ (vts = is_some (f "SEAT") ∨ vt_read f = 0 ∧ is_some (f "SEAT") = true)) m.
Proof.
  intros Hk. destruct (f "SEAT") as [k|]; [|by apply may_ret; split; [|left]]. intros vts m' H.
  destruct (decide (vt_read f = 0)) as [E0|Hne].
  - split; [|by right]. unfold seat_has_vts, seat_is_seat0 in H. by injection H as _ <-.
  - rewrite (Hk k eq_refl Hne) in H. injection H as <- <-. by split; [|left].
Qed.
Lemma may_load_seat m i r f remote :
  field restored sid m = Some (i, r) → id_seat i = None → id_vtnr i = 0 →
  parse_boolean <$> f "REMOTE" = Some (inr remote) →
  (∀ k, f "SEAT" = Some k → is_Some (m_seats m !! k) ∧ seat_has_vts k m = Some (negb (vt_read f =? 0), m)) →
  may (load_seat sid f) (λ a m', a = 0 ∧
    field restored sid m' = Some (i <| id_remote := remote |>
      <| id_vtnr := if is_some (f "SEAT") then vt_read f else 0 |> <| id_seat := f "SEAT" |>, r)) m.
Proof.
  intros Hm Hseat Hvt Hr Hk. unfold load_seat. rewrite Hr. set (i1 := i <| id_remote := remote |>).
  apply may_bind. eapply may_mono; [eapply (may_set m (i, r) (i1, r)); [exact Hm|set_fields]|].
  cbn beta. intros _ m1 (H1&P1&_). apply may_bind.
  eapply may_mono; [by apply (may_load_vt m1 i1 r)|]. cbn beta. intros _ m2 (H2&P2).
  assert (P : places m2 = places m) by congruence. set (i2 := i1 <| id_vtnr := vt_read f |>) in *.
  apply may_bind, may_get_session. intros s Hs. apply may_bind.
  eapply may_mono; [apply (may_load_attach m2 s i2 r f Hs H2); [done|done|]|].
  { intros k Ek. destruct (Hk k Ek) as [Hin Hv]. pose proof (has_vts_console _ _ _ _ (places_console _ _ P) Hv).
    split; [|done]. by injection P as -> _ _. }
  set (i3 := i2 <| id_seat := f "SEAT" |>). intros a m3 (->&H3&Hc3). apply may_bind, may_get_session. intros s3 Hs3.
  destruct (restored_inv _ _ _ (field_at _ _ _ _ Hs3 H3)) as [Ei3 _].
  assert (s_seat s3 = f "SEAT") as -> by (transitivity (id_seat (identity s3)); [done|by rewrite <-Ei3]).
  set (i4 := i1 <| id_vtnr := if is_some (f "SEAT") then vt_read f else 0 |> <| id_seat := f "SEAT" |>).
  apply may_bind. eapply may_mono; [apply (may_load_has_vts m3 f)|].
  { intros k Ek Hne. destruct (Hk k Ek) as [_ Hv]. apply Z.eqb_neq in Hne as E0. rewrite E0 in Hv.
    apply (has_vts_console _ m); [|done]. rewrite (Hc3 k) by done. by apply places_console. }
  cbn beta. intros vts m' [-> Hvts]. apply may_bind.
  apply (may_mono _ (λ _ m', field restored sid m' = Some (i4, r))).
  { assert (E4 : i4 = if (vts : bool) then i3 else i3 <| id_vtnr := 0 |>).
    { subst i4 i3 i2 i1. destruct Hvts as [->|[-> ->]]; [by destruct (is_some _)|by destruct vts]. }
    rewrite E4. destruct vts; cbn [negb when]; [by apply may_ret|].
    eapply may_mono; [eapply (may_set m3 _ (i3 <| id_vtnr := 0 |>, r)); [exact H3|set_fields]|]. by intros ? m' (?&_). }
  intros _ m4 H4. apply may_bind. rewrite <-H4. eapply (may_mono _ (λ _, keeps restored sid m4)).
  { destruct (f "POSITION"), (f "SEAT"); try (by apply may_ret). apply (may_moves (keeps restored sid)), idem_claim_position. }
  intros _ m5 H5. by apply may_ret.
Qed.

(** The enumerations, and the times. *)
Definition named {A} `{StringTable A} (o : option string) : option A := o ≫= λ v, from_string (Some v).
Lemma may_load_kind m i b a t f ty ot cl :
  field restored sid m = Some (i, (b, a, t)) →
  named (f "TYPE") = Some ty → named (f "ORIGINAL_TYPE") = Some ot → named (f "CLASS") = Some cl →
  may (load_kind sid f) (λ _ m', field restored sid m' =
    Some (i <| id_type := ty |> <| id_original_type := ot |> <| id_class := cl |>,
          (bool_decide (f "STATE" = Some "closing") || b, a, t))) m.
Proof.
  intros Hm Ht Ho Hc. unfold named, load_kind in *.
  destruct (f "TYPE") as [vt|]; [|done]. destruct (f "ORIGINAL_TYPE") as [vo|]; [|done]. destruct (f "CLASS") as [vc|]; [|done].
  cbn [mbind option_bind] in *. eapply may_mono.
  - eapply (may_set m _ (i <| id_type := ty |> <| id_original_type := ot |> <| id_class := cl |>,
      (bool_decide (f "STATE" = Some "closing") || b, a, t))); [exact Hm|]. intros s Hs.
    destruct (restored_inv _ _ _ Hs) as [-> [= -> -> ->]]. cbv zeta. rewrite Ht, Ho, Hc. cbn [is_some default from_option id].
    destruct (f "TTY_VALIDITY" ≫= _), (bool_decide (f "STATE" = _)); reflexivity.
  - intros ? m' (H&_). exact H.
Qed.
Definition usec_read (f : string → option string) (key : string) : Z :=
  match deserialize_usec <$> f key with Some (inr t) => t | _ => 0 end.
Lemma may_load_times m i b a f active :
  field restored sid m = Some (i, (b, a, DUAL_TIMESTAMP_NULL)) → parse_boolean <$> f "ACTIVE" = Some (inr active) →
  may (load_times sid f) (λ _ m', field restored sid m' =
    Some (i, (b, active, mkDualTimestamp (usec_read f "REALTIME") (usec_read f "MONOTONIC")))) m.
Proof.
  intros Hm Ha. unfold load_times. rewrite Ha. eapply may_mono.
  - eapply (may_set m _ (i, (b, active, mkDualTimestamp (usec_read f "REALTIME") (usec_read f "MONOTONIC")))); [exact Hm|].
    intros s Hs. destruct (restored_inv _ _ _ Hs) as [-> [= -> _ <-]]. unfold restored. cbn. unfold usec_read.
    by destruct (deserialize_usec <$> f "REALTIME") as [[]|], (deserialize_usec <$> f "MONOTONIC") as [[]|].
  - intros ? m' (H&_). exact H.
Qed.

(** The whole: what a file that is read without an error makes of a new session. *)
Record file_reads (m : manager) (f : string → option string) (uid : Z) (ty ot : SessionType) (cl : SessionClass)
    (remote active : bool) : Prop := {
  reads_user : ∃ text, f "UID" = Some text ∧ parse_uid text = inr uid ∧ is_Some (m_users m !! uid);
  reads_remote : parse_boolean <$> f "REMOTE" = Some (inr remote);
  reads_active : parse_boolean <$> f "ACTIVE" = Some (inr active);
  reads_type : named (f "TYPE") = Some ty;
  reads_original_type : named (f "ORIGINAL_TYPE") = Some ot;
  reads_class : named (f "CLASS") = Some cl;
  reads_seat : ∀ k, f "SEAT" = Some k → is_Some (m_seats m !! k) ∧ seat_has_vts k m = Some (negb (vt_read f =? 0), m);
}.
Definition session_read (f : string → option string) (uid : Z) (ty ot : SessionType) (cl : SessionClass) (remote active : bool) :
    identity_of_session * (bool * bool * dual_timestamp) :=
  (mkIdentity (Some uid) ty ot cl (if is_some (f "SEAT") then vt_read f else 0) remote (f "TTY") (f "DISPLAY")
     (f "REMOTE_USER") (f "REMOTE_HOST") (f "SERVICE") (f "DESKTOP") (f "SEAT"),
   (bool_decide (f "STATE" = Some "closing"), active, mkDualTimestamp (usec_read f "REALTIME") (usec_read f "MONOTONIC"))).
(** What setting the leader with this pid answers: an error only if the process
    is not there, cannot be watched or leads another session. *)
Definition leader_outcome (pid : Z) (saved : bool) (r : Z) : Prop :=
  if saved then r = 0
  else match e_pidref_set_pid pid with
  | inl e => r = e
  | inr _ => r = 0 ∨ r = 1 ∨ r = - EEXIST ∨ r = e_event_add "session-pidfd"
  end.
Definition leader_read (f : string → option string) (r : Z) : Prop :=
  match f "LEADER" with
  | None => r = 0
  | Some v => ∀ pid saved, parse_pid v = inr pid → parse_boolean <$> f "LEADER_FD_SAVED" = Some (inr saved) →
      leader_outcome pid saved r
  end.
Lemma may_set_leader leader m :
  may (session_set_leader_consume sid leader)
    (λ (r : Z) _, r = 0 ∨ r = 1 ∨ r = - EEXIST ∨ r = e_event_add "session-pidfd") m.
Proof.
  unfold session_set_leader_consume, session_watch_pidfd. apply may_bind, may_get_session. intros s _.
  apply may_bind, may_assert. intros _. destruct (pidref_equal _ _); [apply may_ret; auto|].
  apply may_bind. intros _ m1 _. apply may_bind. intros _ m2 _. apply may_bind, may_bind, may_get_session. intros s2 _.
  apply may_bind, may_assert. intros _. apply may_bind, may_assert. intros _.
  assert (Hrest : ∀ (r : Z) m3, r = 0 ∨ (r = e_event_add "session-pidfd") →
    may (if r <? 0 then ret r else
      o <- gets (λ m, m_sessions_by_leader m !! p_pid leader) ;;
      match o with
      | Some other => if bool_decide (other = sid) then crash else ret (- EEXIST)
      | None =>
          modify (λ m, m <| m_sessions_by_leader := <[p_pid leader := sid]> (m_sessions_by_leader m) |>) ;;;
          when ((0 <=? p_fd leader) && (0 <=? e_notify_push_fd (leader_fd_name sid)))
            (emit (FdPushed (leader_fd_name sid)) ;;; upd_session sid (λ s, s <| s_leader_fd_saved := true |>)) ;;;
          (match e_audit_session leader with
           | Some id => upd_session sid (λ s, s <| s_audit_id := id |>) | None => ret tt end) ;;;
          ret 1
      end) (λ (r : Z) _, r = 0 ∨ r = 1 ∨ r = - EEXIST ∨ r = e_event_add "session-pidfd") m3).
  { intros r m3 Hr. destruct (r <? 0); [apply may_ret; tauto|]. apply may_bind, may_gets.
    destruct (_ !! _); [destruct (bool_decide _); [by intros ? ?|apply may_ret; auto]|].
    do 3 (apply may_bind; intros _ ? _). apply may_ret. auto. }
  destruct (_ <? 0); [apply may_ret, Hrest; auto|]. cbv zeta.
  destruct (_ <? 0); [apply may_ret, Hrest; auto|]. apply may_bind. intros _ m3 _. apply may_ret, Hrest. auto.
Qed.
Lemma may_load_leader f m : may (load_leader sid f 0) (λ (r : Z) _, leader_read f r) m.
Proof.
  unfold load_leader, leader_read. destruct (f "LEADER") as [v|]; [|by apply may_ret].
  apply may_bind, may_get_session. intros s _. apply may_bind, may_assert. intros _.
  destruct (parse_pid v) as [e|pid]; [by apply may_ret|]. apply may_bind. intros _ m1 _. cbv zeta.
  assert (Hset : ∀ m, may (match e_pidref_set_pid pid with inl e => ret e | inr p => session_set_leader_consume sid p end)
    (λ (r : Z) _, leader_outcome pid false r) m).
  { intros m'. unfold leader_outcome. destruct (e_pidref_set_pid pid) as [e|p]; [by apply may_ret|apply may_set_leader]. }
  destruct (parse_boolean <$> f "LEADER_FD_SAVED") as [[e|saved]|]; [by apply may_ret| |].
  - apply may_bind. intros _ m2 _. destruct saved; [apply may_ret|eapply may_mono; [apply Hset|]].
    + by intros pid' saved [= <-] [= <-].
    + by intros r m' H pid' saved [= <-] [= <-].
  - eapply may_mono; [apply Hset|]. by intros r m' H pid' saved _ [=].
Qed.
Lemma may_both {A} (c : MM A) P Q m : may c P m → may c Q m → may c (λ a m', P a m' ∧ Q a m') m.
Proof. intros HP HQ a m' H. split; [by apply HP|by apply HQ]. Qed.

Lemma may_session_load m f uid ty ot cl remote active :
  parse_env_file_at ("/run/systemd/sessions/" +:+ sid) = (0, f) →
  field restored sid m = Some (restored new_session) → file_reads m f uid ty ot cl remote active →
  may (session_load sid) (λ (r : Z) m', leader_read f r ∧ field restored sid m' = Some (session_read f uid ty ot cl remote active)) m.
Proof.
  intros Hf Hm [(text&Ht&Hu&Hus) Hr Ha Hty Hot Hcl Hk]. unfold session_load. rewrite Hf.
  apply may_bind. eapply may_mono; [by apply may_load_texts|]. cbn beta. intros _ m1 (H1&P1&U1).
  change (0 <? 0) with false. cbv iota. apply may_bind.
  eapply may_mono; [by eapply (may_load_user m1); [exact H1|..|rewrite U1]|]. cbn beta. intros k m2 (->&H2&P2).
  assert (P : places m2 = places m) by congruence. change (0 <? 0) with false. cbv iota.
  apply may_bind. eapply may_mono; [eapply (may_load_seat m2 _ _ f remote H2); [done|done|done|]|].
  { intros k Ek. destruct (Hk k Ek) as [Hin Hv]. pose proof (has_vts_console _ _ _ _ (places_console _ _ P) Hv).
    split; [|done]. by injection P as -> _ _. }
  cbn beta. intros a m3 (->&H3). apply may_bind.
  eapply may_mono; [by eapply (may_load_kind m3); [exact H3|..]|]. cbn beta. intros _ m4 H4.
  eapply (may_after (keeps restored sid)); [apply idem_load_fifo|]. intros _ m5 H5. unfold keeps in H5. rewrite H4 in H5.
  apply may_bind. eapply may_mono; [by eapply (may_load_times m5); [exact H5|]|]. cbn beta. intros _ m6 H6.
  eapply (may_after (keeps restored sid)); [apply idem_load_display|]. intros _ m7 H7.
  eapply (may_after (keeps restored sid)); [apply idem_load_controller|]. intros _ m8 H8.
  eapply may_mono; [apply may_both; [apply may_load_leader|apply (may_moves (keeps restored sid)), idem_load_leader]|].
  intros r9 m9 [Hr9 H9]. split; [done|]. unfold keeps in *.
  rewrite H9, H8, H7, H6. unfold session_read. by rewrite orb_false_r.
Qed.
End Load.

(** * Device numbers are read as they are written *)

Lemma substring_behind v w : String.substring (String.length v) (String.length w) (v +:+ w) = w.
Proof.
  induction v as [|c v IH]; [|by rewrite string_app_cons].
  cbn. change ("" +:+ w) with w. induction w as [|c w IH]; [done|]. cbn. by rewrite IH.
Qed.
Lemma span_digits_app v w :
  string_forallb ascii_isdigit v = true → head_is ascii_isdigit w = false → span_digits (v +:+ w) = String.length v.
Proof.
  intros Hv Hw. induction v as [|c v IH].
  - change ("" +:+ w) with w. destruct w as [|c w]; [done|]. cbn in *. by rewrite Hw.
  - cbn in Hv. apply andb_prop in Hv as [Hc Hv]. rewrite string_app_cons. cbn. by rewrite Hc, IH.
Qed.
Lemma parse_devnum_written a b :
  0 ≤ a ≤ UINT_MAX → 0 ≤ b ≤ UINT_MAX →
  parse_devnum (pretty a +:+ ":" +:+ pretty b) =
    if DEVICE_MAJOR_VALID a && DEVICE_MINOR_VALID b then inr (makedev a b) else inl (- ERANGE).
Proof.
  intros Ha Hb. destruct (pretty_digits a) as [Hne Hd]; [lia|]. pose proof (pretty_length a) as Hl.
  unfold parse_devnum. rewrite span_digits_app by done.
  assert (Hl' : (String.length (pretty a) ≤ 20)%nat) by (unfold UINT_MAX, UINT64_MAX in *; lia).
  destruct (Nat.eqb_spec (String.length (pretty a)) 0) as [E0|_]; [by destruct (pretty a)|].
  rewrite (proj2 (Nat.ltb_ge _ _)) by (unfold DECIMAL_STR_MAX_dev_t; lia).
  assert (El : (String.length (pretty a +:+ ":" +:+ pretty b) - String.length (pretty a) = String.length (":" +:+ pretty b))%nat)
    by (rewrite string_length_app; lia).
  rewrite El, substring_behind, substring_app, safe_atou_pretty by done.
  change (":" +:+ pretty b) with (String ":" (pretty b)). cbv iota. rewrite safe_atou_pretty by done.
  by destruct (DEVICE_MAJOR_VALID a && DEVICE_MINOR_VALID b).
Qed.
(** The bits of a word built from masks and shifts, on a range that says which
    comparisons hold. *)
Ltac spread :=
  repeat first [rewrite mask_bits by lia|rewrite Z.lor_spec|rewrite Z.land_spec
               |rewrite Z.shiftr_spec by lia|rewrite Z.shiftl_spec by lia];
  repeat match goal with
  | |- context [?a <=? ?b] => first [rewrite (proj2 (Z.leb_le a b)) by lia|rewrite (proj2 (Z.leb_gt a b)) by lia]
  | |- context [?a <? ?b] => first [rewrite (proj2 (Z.ltb_lt a b)) by lia|rewrite (proj2 (Z.ltb_ge a b)) by lia]
  end;
  cbn [andb orb]; rewrite ?andb_true_r, ?andb_false_r, ?orb_false_r; cbn [andb orb].
(** A 64-bit device number is made of its two halves. *)
Lemma makedev_of_dev d : 0 ≤ d < 2 ^ 64 → makedev (dev_major d) (dev_minor d) = d.
Proof.
  intros Hd. pose proof (high_bits_zero d 64 ltac:(lia) Hd) as E.
  unfold dev_major, dev_minor, makedev.
  change 0xfff with (Z.shiftl (Z.ones 12) 0). change 0xfffff000 with (Z.shiftl (Z.ones 20) 12).
  change 0xff with (Z.shiftl (Z.ones 8) 0). change 0xffffff00 with (Z.shiftl (Z.ones 24) 8).
  change 0xfff00 with (Z.shiftl (Z.ones 12) 8). change 0xfffff00000000000 with (Z.shiftl (Z.ones 20) 44).
  change 0x00000ffffff00000 with (Z.shiftl (Z.ones 24) 20).
  apply Z.bits_inj'; intros i Hi.
  assert (H : i < 8 ∨ 8 ≤ i < 20 ∨ 20 ≤ i < 32 ∨ 32 ≤ i < 44 ∨ 44 ≤ i < 64 ∨ 64 ≤ i) by lia.
  destruct_or! H; spread; spread; first [by rewrite E by lia|f_equal; lia].
Qed.
Lemma below_by_bits x n : 0 ≤ n → (∀ i, n ≤ i → Z.testbit x i = false) → 0 ≤ x < 2 ^ n.
Proof.
  intros Hn Hx. assert (x = x mod 2 ^ n) as ->; [|apply Z.mod_pos_bound; lia].
  apply Z.bits_inj'. intros i Hi. destruct (decide (i < n)); [by rewrite Z.mod_pow2_bits_low by lia|].
  rewrite Z.mod_pow2_bits_high by lia. apply Hx. lia.
Qed.
Lemma dev_major_range d : 0 ≤ dev_major d ≤ UINT_MAX.
Proof.
  enough (0 ≤ dev_major d < 2 ^ 32) by (unfold UINT_MAX; lia).
  unfold dev_major. change 0xfff00 with (Z.shiftl (Z.ones 12) 8). change 0xfffff00000000000 with (Z.shiftl (Z.ones 20) 44).
  apply below_by_bits; [lia|]. intros i Hi. by spread.
Qed.
Lemma dev_minor_range d : 0 ≤ dev_minor d ≤ UINT_MAX.
Proof.
  enough (0 ≤ dev_minor d < 2 ^ 32) by (unfold UINT_MAX; lia).
  unfold dev_minor. change 0xff with (Z.shiftl (Z.ones 8) 0). change 0x00000ffffff00000 with (Z.shiftl (Z.ones 24) 20).
  apply below_by_bits; [lia|]. intros i Hi. by spread.
Qed.
Lemma device_numbers_split n p ws :
  split_loop n WHITESPACE no_extract_flags p = inr ws →
  device_numbers n p = ws ≫= λ w, match parse_devnum w with inl _ => [] | inr dev => [dev] end.
Proof.
  revert p ws. induction n as [|n IH]; intros p ws; [done|]. cbn [split_loop device_numbers].
  destruct (extract_first_word _ _ p) as [| |w p']; [done|by intros [= <-]|].
  destruct (split_loop n _ _ p') as [|l] eqn:El; [done|]. intros [= <-]. by rewrite (IH _ _ El).
Qed.
(** The numbers that are read are numbers that were written, in their order. *)
Lemma devices_read l :
  Forall (λ d, 0 ≤ d < 2 ^ 64) l →
  ((device_word <$> l) ≫= λ w, match parse_devnum w with inl _ => [] | inr dev => [dev] end) `sublist_of` l.
Proof.
  induction 1 as [|d l Hd _ IH]; [done|]. cbn [fmap list_fmap mbind list_bind].
  unfold device_word at 1. rewrite parse_devnum_written by (apply dev_major_range || apply dev_minor_range).
  destruct (_ && _); [|by apply sublist_cons]. rewrite makedev_of_dev by done. by apply sublist_skip.
Qed.
Lemma saved_devices_distinct l :
  Forall (λ d, 0 ≤ d < 2 ^ 64) l → NoDup l →
  let text := match device_word <$> l with [] => None | ws => Some (concat_with " " ws) end in
  NoDup (device_numbers (devices_fuel text) text).
Proof.
  intros Hl Hnd text. eapply sublist_NoDup; [exact Hnd|]. destruct l as [|d l]; [apply sublist_nil_l|].
  subst text. cbn [fmap list_fmap]. unfold devices_fuel. cbn [default].
  erewrite device_numbers_split; [by apply (devices_read (d :: l))|].
  refine (split_full_joined no_extract_flags (device_word <$> d :: l) eq_refl eq_refl eq_refl _ _); [|done].
  apply Forall_fmap, Forall_forall. intros x _. apply device_word_graphs.
Qed.

(** * A saved session is that session again *)

Definition nonempty (o : option string) : option string := match o with Some EmptyString => None | _ => o end.
(** Four texts are written with escapes, which the reader drops. *)
Definition reread (o : option string) : option string := (cescape <$> o) ≫= read_value.
Definition as_saved (s : session) (u : user) (active : bool) (state : SessionState) :
    identity_of_session * (bool * bool * dual_timestamp) :=
  (mkIdentity (Some (ur_uid (u_user_record u))) (s_type s) (s_original_type s) (s_class s)
     (if is_some (nonempty (s_seat s)) then s_vtnr s else 0) (s_remote s) (nonempty (s_tty s)) (nonempty (s_display s))
     (reread (s_remote_user s)) (reread (s_remote_host s)) (reread (s_service s)) (reread (s_desktop s)) (nonempty (s_seat s)),
   (bool_decide (state = SESSION_CLOSING), active,
    if dual_timestamp_is_set (s_timestamp s) then s_timestamp s else DUAL_TIMESTAMP_NULL)).

(** The texts of the session fit on a line, its numbers in their types. *)
Record session_fits (s : session) (u : user) : Prop := {
  fits_text : session_text_ok s u;
  fits_uid : valid_uid (ur_uid (u_user_record u));
  fits_times : realtime (s_timestamp s) ≤ UINT64_MAX ∧ monotonic (s_timestamp s) ≤ UINT64_MAX;
  fits_devices : ∀ d, is_Some (s_devices s !! d) → 0 ≤ d < 2 ^ 64;
  fits_leader : p_pid (s_leader s) < 2 ^ 31;
}.
(** What loading answers: the leader is all that can go wrong. *)
Definition leader_back {E : Env} (s : session) (r : Z) : Prop :=
  if pidref_is_set (s_leader s) then leader_outcome (p_pid (s_leader s)) (s_leader_fd_saved s) r else r = 0.
(** The user and the seat are there, and there are terminals on the seat if the
    session has one. *)
Record takes_back (n : manager) (s : session) (u : user) : Prop := {
  takes_user : is_Some (m_users n !! ur_uid (u_user_record u));
  takes_seat : ∀ k, s_seat s = Some k →
    is_Some (m_seats n !! k) ∧ seat_has_vts k n = Some (negb (s_vtnr s =? 0), n);
}.

Ltac value := match goal with
  |- context [session_value ?sid ?s ?u ?a ?v ?st ?k] =>
    let x := eval cbv beta iota delta [session_value] in (session_value sid s u a v st k) in
    change (session_value sid s u a v st k) with x
  end.
Ltac number H := apply (number_nonneg _ _ _ H); in_list.

Section Saved.
Context {E : Env} (sid : string) (s : session) (u : user) (active vts : bool) (state : SessionState).
Context (f : string → option string) (Hfits : session_fits s u).
Context (Hvt : is_Some (s_seat s) → vts = negb (s_vtnr s =? 0) ∧ s_vtnr s < UINT_MAX) (Hpos : s_position s < UINT_MAX).
Context (Hf : ∀ k, k ∈ session_keys → f k = session_value sid s u active vts state k ≫= read_value).

Let Hok : session_text_ok s u := fits_text _ _ Hfits.
Lemma kept_nonempty o : (∀ v, o = Some v → kept v) → o ≫= read_value = nonempty o.
Proof. intros Ho. destruct o as [v|]; [|done]. cbn. rewrite text_read by auto. by destruct v. Qed.
Lemma read_raw k o : k ∈ session_keys → session_value sid s u active vts state k = o →
  o ∈ [s_scope s; s_fifo_path s; s_seat s; s_tty s; s_display s; s_controller s] → f k = nonempty o.
Proof. intros Hk Hv Ho. rewrite Hf, Hv by done. apply kept_nonempty. intros v. by apply (raw_kept s u). Qed.
Lemma read_seat : f "SEAT" = nonempty (s_seat s).
Proof. apply read_raw; [in_list|done|in_list]. Qed.
Lemma read_vt k : nonempty (s_seat s) = Some k → vt_read f = s_vtnr s.
Proof.
  intros Hk. destruct (s_seat s) as [seat|] eqn:Es; [|done]. destruct (Hvt ltac:(by eexists)) as [Hv Hmax].
  assert (H0 : 0 ≤ s_vtnr s) by number Hok. unfold vt_read. rewrite Hf by in_list. value. rewrite Es. cbn [is_some andb].
  rewrite Hv. destruct (s_vtnr s =? 0) eqn:E0; [apply Z.eqb_eq in E0; by rewrite E0|].
  cbn [negb mbind option_bind]. rewrite number_read by done. cbn [fmap option_fmap option_map].
  by rewrite safe_atou_pretty by lia.
Qed.
Lemma read_usec key z : key ∈ session_keys →
  session_value sid s u active vts state key = (if dual_timestamp_is_set (s_timestamp s) then Some (pretty z) else None) →
  0 ≤ z ≤ UINT64_MAX → usec_read f key = if dual_timestamp_is_set (s_timestamp s) then z else 0.
Proof.
  intros Hk Hv Hz. unfold usec_read, deserialize_usec. rewrite Hf, Hv by done. destruct (dual_timestamp_is_set _); [|done].
  cbn [mbind option_bind]. rewrite number_read by lia. cbn [fmap option_fmap option_map]. by rewrite safe_atollu_full_pretty by (done || by left).
Qed.
Lemma saved_is_read : session_read f (ur_uid (u_user_record u)) (s_type s) (s_original_type s) (s_class s) (s_remote s) active
  = as_saved s u active state.
Proof.
  destruct (fits_times _ _ Hfits) as [Hr Hm].
  assert (H1 : 0 ≤ realtime (s_timestamp s)) by number Hok. assert (H2 : 0 ≤ monotonic (s_timestamp s)) by number Hok.
  unfold session_read, as_saved. rewrite read_seat.
  rewrite (read_raw "TTY" (s_tty s)), (read_raw "DISPLAY" (s_display s)) by (done || in_list).
  rewrite (Hf "REMOTE_USER"), (Hf "REMOTE_HOST"), (Hf "SERVICE"), (Hf "DESKTOP"), (Hf "STATE") by in_list.
  rewrite (read_usec "REALTIME" (realtime (s_timestamp s))), (read_usec "MONOTONIC" (monotonic (s_timestamp s)))
    by (done || in_list || lia).
  assert (Ev : (if is_some (nonempty (s_seat s)) then vt_read f else 0) = if is_some (nonempty (s_seat s)) then s_vtnr s else 0).
  { destruct (nonempty (s_seat s)) as [k|] eqn:Ek; [|done]. by apply (read_vt k). }
  rewrite Ev. repeat value. repeat f_equal.
  - by destruct state.
  - by destruct (s_timestamp s), (dual_timestamp_is_set _).
Qed.
Lemma saved_reads n : takes_back n s u →
  file_reads n f (ur_uid (u_user_record u)) (s_type s) (s_original_type s) (s_class s) (s_remote s) active.
Proof.
  intros [Hu Hk]. destruct (fits_uid _ _ Hfits) as [Hr Hval]. assert (H0 : 0 ≤ ur_uid (u_user_record u)) by number Hok.
  constructor.
  - exists (pretty (ur_uid (u_user_record u))). rewrite Hf by in_list. value. cbn [mbind option_bind].
    rewrite number_read by done. split; [done|]. split; [|done]. by apply parse_uid_pretty.
  - rewrite Hf by in_list. value. by destruct (s_remote s).
  - rewrite Hf by in_list. value. clear. by destruct active.
  - rewrite Hf by in_list. value. by destruct (s_type s).
  - rewrite Hf by in_list. value. by destruct (s_original_type s).
  - rewrite Hf by in_list. value. by destruct (s_class s).
  - intros k. rewrite read_seat. intros Ek. rewrite (read_vt k Ek). apply Hk. destruct (s_seat s) as [[]|]; done.
Qed.
Lemma saved_leader {E' : Env} r : @leader_read E' f r → @leader_back E' s r.
Proof.
  unfold leader_read, leader_back. rewrite Hf by in_list. value. rewrite (Hf "LEADER_FD_SAVED") by in_list. value.
  destruct (pidref_is_set (s_leader s)) eqn:Ep; [|done]. unfold pidref_is_set in Ep. cbn [mbind option_bind].
  rewrite number_read by lia. intros H. apply H.
  - unfold parse_pid. rewrite safe_atollu_full_pretty; [|pose proof (fits_leader _ _ Hfits); unfold UINT64_MAX; lia|by left].
    by rewrite (proj2 (Z.ltb_lt 0 _)), (proj2 (Z.ltb_lt _ (2 ^ 31))) by (apply (fits_leader _ _ Hfits) || lia).
  - by destruct (s_leader_fd_saved s).
Qed.
(** What the start takes for granted of the files of sessions holds of the files
    that the daemon writes. *)
Lemma saved_file_ok : (∀ l : list Z, Permutation (e_order l) l) → session_file_ok f.
Proof.
  intros Ho. constructor.
  - intros v z. rewrite Hf by in_list. value. destruct (s_seat s) as [k|] eqn:Es; [|done]. cbn [is_some andb].
    destruct (Hvt ltac:(by eexists)) as [_ Hmax]. assert (H0 : 0 ≤ s_vtnr s) by number Hok.
    destruct vts; [|done]. cbn [mbind option_bind]. rewrite number_read by done. intros [= <-].
    rewrite safe_atou_pretty by lia. by intros [= <-].
  - intros v. rewrite Hf by in_list. value. assert (H0 : 0 ≤ s_position s) by number Hok. destruct (s_vtnr s =? 0); [|done].
    cbn [mbind option_bind]. rewrite number_read by done. intros [= <-]. exists (s_position s).
    by rewrite safe_atou_pretty by lia.
  - set (l := e_order (fst <$> map_to_list (s_devices s))).
    assert (Hd : f "DEVICES" = if is_some (s_controller s) then match device_word <$> l with [] => None | ws => Some (concat_with " " ws) end else None).
    { rewrite Hf by in_list. value. destruct (s_controller s); [|done]. cbn [is_some]. fold (device_words s).
      pose proof (device_words_graphs s) as Hg. change (device_word <$> l) with (device_words s).
      destruct (device_words s) as [|w ws]; [done|]. cbn [mbind option_bind]. by apply joined_read. }
    rewrite Hd. destruct (s_controller s); [|constructor]. cbn [is_some]. apply saved_devices_distinct.
    + apply Forall_forall. intros d Hin. apply (fits_devices _ _ Hfits). unfold l in Hin. rewrite Ho in Hin.
      apply list_elem_of_fmap in Hin as ((d'&x)&->&Hin). apply elem_of_map_to_list in Hin. by eexists.
    + unfold l. rewrite Ho. apply NoDup_fst_map_to_list.
Qed.
End Saved.

(** * Across a restart *)

(** A state of the daemon while it starts. *)
Definition starting (n : manager) : Prop := WF (ex0 (Bt := true)) (cols_of n).
(** What the file refers to. *)
Definition base (m : manager) := (places m, m_users m).
Lemma base_queue sid : moves (same base) (session_add_to_gc_queue sid).
Proof. unfold session_add_to_gc_queue, upd_session, get_session. solve_moves. Qed.
Lemma file_reads_base n n' f uid ty ot cl remote active :
  base n' = base n → file_reads n f uid ty ot cl remote active → file_reads n' f uid ty ot cl remote active.
Proof.
  intros Hb [(text&?&?&Hu) ? ? ? ? ? Hk]. assert (Hp : places n' = places n) by exact (f_equal fst Hb).
  assert (Eu : m_users n' = m_users n) by exact (f_equal snd Hb). constructor; try done.
  - exists text. by rewrite Eu.
  - intros k Ek. destruct (Hk k Ek) as [Hin Hv]. split; [by injection Hp as -> _ _|].
    by apply (has_vts_console _ n); [apply places_console|].
Qed.
Lemma load_session_file_runs {E : Env} {Ok : EnvOk} n sid f uid ty ot cl remote active :
  parse_env_file_at ("/run/systemd/sessions/" +:+ sid) = (0, f) → session_file_ok f →
  starting n → m_sessions n !! sid = None → Z.of_nat (size (m_sessions n)) + 2 < UINT_MAX → session_id_valid sid = true →
  file_reads n f uid ty ot cl remote active →
  ∃ r n', load_session_file sid n = Some (r, n') ∧ starting n' ∧ leader_read f r ∧
    field restored sid n' = Some (session_read f uid ty ot cl remote active).
Proof.
  intros Hf Hfok Hwf Hnew Hroom Hid Hreads.
  assert (Hno : ¬ has_s (cols_of n) sid). { intros [x Hx]. cbn in Hx. by rewrite lookup_fmap, Hnew in Hx. }
  assert (Hsz : size (g_user (cols_of n)) = size (m_sessions n)) by apply map_size_fmap.
  assert (Hw : wp (load_session_file sid) (λ _ n', starting n') n).
  { eapply wp_mono; [apply (hoare_load_session_file (Bt := true) sid (cols_of n)); [done|by rewrite Hf|lia|done|done|apply coh_cols|done]|].
    by intros ? n' [? _]. }
  assert (Hm : may (load_session_file sid) (λ r n', leader_read f r ∧ field restored sid n' = Some (session_read f uid ty ot cl remote active)) n).
  { unfold load_session_file, manager_add_session, session_new. apply may_bind, may_bind, may_gets. rewrite Hnew, Hid.
    cbn [negb]. apply may_bind, may_modify, may_ret. change (0 <? 0) with false. cbv iota.
    set (n1 := n <| m_sessions := _ |>). apply may_bind. intros [] n2 Hq.
    assert (H1 : field restored sid n1 = Some (restored new_session)) by (unfold field, n1; cbn; by rewrite lookup_insert_eq).
    pose proof (idem_queue sid sid _ _ _ Hq) as H2. pose proof (base_queue sid _ _ _ Hq) as B2.
    apply may_session_load; [done|by rewrite H2|]. by apply (file_reads_base n). }
  destruct (wp_may _ _ _ _ Hw Hm) as (r&n'&H&?&?&?). by exists r, n'.
Qed.

(** C26: a session survives a restart of the daemon.  Once its file is saved, in
    any reachable state, a daemon that starts and knows the user and the seat
    reads the file and has the session again: with its user, type, class, seat,
    VT, terminal, display, remote flag and times, closing if it was closing and
    marked as the active one if it was that.  The remote host and user, the service
    and the desktop come back as [reread], that is escaped and with the backslashes
    then dropped, which is the same text only if it needs no escaping.  The numbers
    and texts of the session fit ([session_fits]: its texts are written on one line),
    and it has a VT exactly if its seat has.
    Loading answers with an error only if the leader is no more, cannot be
    watched or leads another session. *)
Theorem session_survives_restart c m (E E' : Env) n sid s uid u :
  sane c → reachable c m → @EnvOk E → @EnvOk E' →
  m_sessions m !! sid = Some s → s_started s = true → s_user s = Some uid → m_users m !! uid = Some u →
  session_fits s u → (∀ k, s_seat s = Some k → seat_has_vts k m = Some (negb (s_vtnr s =? 0), m)) →
  starting n → takes_back n s u → m_sessions n !! sid = None → Z.of_nat (size (m_sessions n)) + 2 < UINT_MAX →
  ∃ active state m', session_is_active sid m = Some (active, m) ∧ session_get_state sid m = Some (state, m) ∧
    @session_save E sid m = Some (0, m') ∧
    (@e_read_file E' ("/run/systemd/sessions/" +:+ sid) = disk m' ("/run/systemd/sessions/" +:+ sid) →
     ∃ r n', @load_session_file E' sid n = Some (r, n') ∧ starting n' ∧ @leader_back E' s r ∧
       field restored sid n' = Some (as_saved s u active state)).
Proof.
  intros Hc Hm Ok Ok' Hs Hst Hu Hus Hfits Hvt Hn Hback Hnew Hroom. pose proof (reachable_wf c m Hc Hm) as Hwf.
  destruct (session_looks m sid s Hwf Hs) as (active&state&vts&Ha&Hstate&Hvts).
  exists active, state. eexists. split_and!; [done|done|by eapply session_save_runs|]. intros Hfile.
  rewrite disk_saved in Hfile by done.
  destruct (@session_file_read E sid s u active vts state (fits_text _ _ Hfits)) as (f&Hf&Hv).
  assert (Hk : ∀ k, k ∈ session_keys → f k = @session_value E sid s u active vts state k ≫= read_value).
  { intros k Hk. by rewrite Hv, session_items_value. }
  assert (Hvtnr : is_Some (s_seat s) → vts = negb (s_vtnr s =? 0) ∧ s_vtnr s < UINT_MAX).
  { intros [k Ek]. split.
    - unfold session_vts in Hvts. rewrite Ek in Hvts. rewrite (Hvt k Ek) in Hvts. by injection Hvts.
    - eapply (wf_vtnr _ _ Hwf sid); [by apply (col_in s_vtnr _ _ s)|by rewrite <-Ek; apply (col_in s_seat _ _ s)]. }
  assert (Hpos : s_position s < UINT_MAX) by (eapply (wf_pos _ _ Hwf sid); by apply (col_in s_position _ _ s)).
  rewrite <-(@saved_is_read E sid s u active vts state f Hfits Hvtnr Hk).
  destruct (@load_session_file_runs E' Ok' n sid f (ur_uid (u_user_record u)) (s_type s) (s_original_type s) (s_class s)
    (s_remote s) active) as (r&n'&?&?&Hr&?); [| |done|done|done| | |].
  5: { exists r, n'. split_and!; [done|done| |done]. by apply (@saved_leader E sid s u active vts state f Hfits Hk). }
  - unfold parse_env_file_at. by rewrite Hfile.
  - apply (@saved_file_ok E sid s u active vts state f); try done. apply (@e_order_ok E Ok).
  - apply (wf_ids _ _ Hwf). eexists. by apply (col_in s_user _ _ s).
  - by apply (@saved_reads E sid s u active vts state f).
Qed.

(** The daemon goes down after a display server took control of a session and of
    the graphics card, and comes back to the files it left. *)
Definition next_directory (path : string) : Z + (list (string * bool) * Z) :=
  if bool_decide (path = "/run/systemd/users") then inr ([("1001", true)], 0) else inl (- ENOENT).
Definition next_env : Env :=
  sample_env_with next_directory (disk (after (@session_save sample_env "c2") sample_taken)).
Definition next_started : manager :=
  after (@manager_enumerate_users next_env) (with_seat0 (@initial_manager next_env sample_config (-1) 3) false []).
Lemma users_starting {E : Env} {Ok : EnvOk} c fd1 fd2 :
  sane c → starting (after manager_enumerate_users (with_seat0 (initial_manager c fd1 fd2) false [])).
Proof.
  intros Hc. set (m0 := initial_manager c fd1 fd2).
  assert (Hwf : starting (with_seat0 m0 false [])) by by apply wf_boot.
  set (g0 := cols_of (with_seat0 m0 false [])) in *.
  assert (Hw : wp (ignore manager_enumerate_users) (λ _ n, starting n) (with_seat0 m0 false [])).
  { eapply wp_mono; [apply (hoare_enumerate_users (Bt := true) (Some seat0_name) g0); [by constructor| |done|done]|].
    - intros uid t' Hn. cbn in Hn. by rewrite lookup_fmap in Hn.
    - by intros ? n [[Hn _ _] _]. }
  apply wp_run in Hw as ([]&n&H&Hn). unfold after.
  unfold ignore, bind in H. destruct (manager_enumerate_users (with_seat0 m0 false [])) as [[r n']|]; [|done]. by injection H as <-.
Qed.
Lemma next_starting : starting next_started.
Proof. exact (@users_starting next_env (sample_env_with_ok _ _) sample_config (-1) 3 sample_sane). Qed.
Lemma sample_taken_session : ∃ s u, m_sessions sample_taken !! "c2" = Some s ∧ m_users sample_taken !! 1001 = Some u ∧
  s_user s = Some 1001 ∧ s_started s = true ∧ session_fits s u ∧
  s_seat s = Some "seat0" ∧ s_vtnr s = 0 ∧ ur_uid (u_user_record u) = 1001.
Proof.
  destruct (m_sessions sample_taken !! "c2") as [s|] eqn:Es; [|by vm_compute in Es].
  destruct (m_users sample_taken !! 1001) as [u|] eqn:Eu; [|by vm_compute in Eu].
  vm_compute in Es, Eu. injection Es as <-. injection Eu as <-. eexists _, _. do 4 (split; [reflexivity|]).
  split; [|vm_compute; auto]. constructor.
  - apply plain_texts_ok. vm_compute. reflexivity.
  - split; [unfold UINT_MAX; cbn; lia|reflexivity].
  - split; vm_compute; discriminate.
  - intros d [x Hx]. revert d x Hx. apply (bool_decide_eq_true_1 (map_Forall (λ d _, 0 ≤ d ∧ d < 2 ^ 64) _)). vm_compute. reflexivity.
  - vm_compute. reflexivity.
Qed.
(** What a restart makes of a text with a character that is escaped. *)
Example reread_loses_escapes : reread (Some "a\b") = Some "a\b" ∧ reread (Some "tab	") = Some "tabt" ∧ reread (Some "gdm") = Some "gdm".
Proof. vm_compute. split_and!; reflexivity. Qed.
Lemma session_survives_restart_witness :
  ∃ s u active state r n', m_sessions sample_taken !! "c2" = Some s ∧
    @load_session_file next_env "c2" next_started = Some (r, n') ∧ @leader_back next_env s r ∧
    field restored "c2" n' = Some (as_saved s u active state).
Proof.
  destruct sample_taken_session as (s&u&Es&Eu&Hu&Hst&Hfits&Hseat&Hvt&Hid).
  destruct (session_survives_restart sample_config sample_taken sample_env next_env next_started "c2" s 1001 u)
    as (active&state&m'&_&_&Hsave&Hload);
    [exact sample_sane|exact sample_taken_reachable|exact sample_env_ok|apply sample_env_with_ok|exact Es|exact Hst|exact Hu|exact Eu
    |exact Hfits| |exact next_starting| |vm_compute; reflexivity|vm_compute; reflexivity|].
  - rewrite Hseat, Hvt. intros k [= <-]. vm_compute. reflexivity.
  - split; [rewrite Hid; vm_compute; by eexists|]. rewrite Hseat, Hvt. intros k [= <-]. split; [vm_compute; by eexists|].
    vm_compute. reflexivity.
  - destruct Hload as (r&n'&Hl&_&Hr&Hf). { unfold next_env, sample_env_with, after. cbn [e_read_file]. by rewrite Hsave. }
    exists s, u, active, state, r, n'. exact (conj Es (conj Hl (conj Hr Hf))).
Defined.

(** * A saved user *)

Definition user_as_saved (u : user) (ur : user_record) : user :=
  (new_user ur) <| u_stopping := u_stopping u |>
    <| u_timestamp := if dual_timestamp_is_set (u_timestamp u) then u_timestamp u else DUAL_TIMESTAMP_NULL |>
    <| u_last_session_timestamp := u_last_session_timestamp u |> <| u_gc_mode := u_gc_mode u |>.
Lemma usec_back z old (b : bool) : 0 ≤ z ≤ UINT64_MAX →
  match deserialize_usec <$> ((if b then Some (pretty z) else None) ≫= read_value) with Some (inr t) => t | _ => old end
  = if b then z else old.
Proof.
  intros Hz. destruct b; [|done]. cbn [mbind option_bind]. rewrite number_read by lia. cbn [fmap option_fmap option_map].
  unfold deserialize_usec. by rewrite safe_atollu_full_pretty by (done || by left).
Qed.
(** C27: a user survives a restart of the daemon.  Once the file of a started user
    is saved, in any reachable state, a daemon that starts and has added the user
    reads from it, without failing, whether the user is stopping, when he came and
    when his last session ended, and by what rule he is to be collected; nothing
    else changes. *)
Theorem user_survives_restart c m (E E' : Env) n uid u ur :
  sane c → reachable c m → seats_named m → m_users m !! uid = Some u → u_started u = true → user_text_ok u →
  m_users n !! uid = Some (new_user ur) →
  ∃ m', @user_save E uid m = Some (0, m') ∧
    (@e_read_file E' ("/run/systemd/users/" +:+ pretty uid) = disk m' ("/run/systemd/users/" +:+ pretty uid) →
     @user_load E' uid n = Some (0, n <| m_users := <[uid := user_as_saved u ur]> (m_users n) |>)).
Proof.
  intros Hc Hm Hseats Hu Hst Hok Hn. pose proof (reachable_wf c m Hc Hm) as Hwf.
  assert (Hh : has_u (cols_of m) uid) by (eexists; by apply (col_in u_sessions _ _ u)).
  destruct (wp_run _ _ _ (soft_user_get_state (E := E) ex0 (cols_of m) Hwf uid Hh m eq_refl)) as (state&m1&Hstate&_).
  pose proof (user_state_reads (E := E) uid _ _ _ Hstate) as <-.
  eexists. split; [by apply (user_save_runs (E := E) m uid u state)|]. intros Hfile. rewrite disk_saved in Hfile by done.
  destruct (parse_env_file_finds (user_lines m u state)) as (f&Hf&Hv); [by apply (user_lines_ok m uid)|apply user_lines_keys|].
  assert (Hk : ∀ k, k ∈ told_keys → f k = user_value m u state k ≫= read_value).
  { intros k Hk. by rewrite Hv, user_lines_value. }
  destruct Hok as [_ Hz]. rewrite !Forall_cons in Hz. destruct Hz as (_&Z2&Z3&Z4&_).
  unfold user_load, parse_env_file_at. rewrite Hfile. unfold file_text. rewrite Hf.
  rewrite (bind_run _ _ _ _ _ (get_user_run n uid _ Hn)). change (0 =? - ENOENT) with false. change (0 <? 0) with false. cbv iota zeta.
  unfold upd_user, bind at 1. rewrite (bind_run _ _ _ _ _ (get_user_run n uid _ Hn)). unfold modify, ret. cbv beta iota.
  f_equal. f_equal. unfold user_as_saved. do 4 f_equal.
  rewrite !Hk by in_list. cbn [user_value String.eqb]. rewrite !usec_back by done.
  assert (default USER_GC_BY_PIN (from_string (to_string (u_gc_mode u) ≫= read_value)) = u_gc_mode u) as ->
    by (by destruct (u_gc_mode u)).
  assert ((if negb (u_last_session_timestamp u =? USEC_INFINITY) then u_last_session_timestamp u else USEC_INFINITY)
    = u_last_session_timestamp u) as El by (by destruct (Z.eqb_spec (u_last_session_timestamp u) USEC_INFINITY)).
  change (u_last_session_timestamp (new_user ur)) with USEC_INFINITY. rewrite El.
  clear. by destruct (u_stopping u), (dual_timestamp_is_set (u_timestamp u)), (u_timestamp u).
Qed.
(** The user of that session, saved once more and added anew. *)
Definition user_env : Env := sample_env_with next_directory (disk (after (@user_save sample_env 1001) sample_taken)).
Definition user_added : manager := after (manager_add_user (sample_record 1001)) sample_initial.
Lemma user_survives_restart_witness :
  ∃ u ur n', m_users sample_taken !! 1001 = Some u ∧ @user_load user_env 1001 user_added = Some (0, n') ∧
    m_users n' !! 1001 = Some (user_as_saved u ur).
Proof.
  destruct (m_users sample_taken !! 1001) as [u|] eqn:Eu; [|by vm_compute in Eu].
  assert (Hok : u_started u = true ∧ plain_user u = true).
  { vm_compute in Eu. injection Eu as <-. split; vm_compute; reflexivity. }
  destruct (user_survives_restart sample_config sample_taken sample_env user_env user_added 1001 u (sample_record 1001))
    as (m'&Hsave&Hload);
    [exact sample_sane|exact sample_taken_reachable| |exact Eu|exact (proj1 Hok)|exact (plain_user_ok u (proj2 Hok))
    |vm_compute; reflexivity|].
  - apply (bool_decide_unpack _). vm_compute. exact I.
  - eexists u, _, _. split; [reflexivity|]. split.
    + apply Hload. unfold user_env, sample_env_with, after. cbn [e_read_file]. by rewrite Hsave.
    + cbn. by rewrite lookup_insert_eq.
Defined.
