(* ===== verification/Queries.v ===== *)
(** What clients ask about the objects: their D-Bus paths
    ([src/src/basic/bus-label.c], the [*_object_find] and [*_bus_path] of
    [src/src/login/logind-session-dbus.c], [logind-seat-dbus.c],
    [logind-user-dbus.c]), the Get and List methods ([logind-dbus.c]) and the
    properties that are computed; and that the answers agree with each other. *)
From Stdlib Require Import Ascii.
From stdpp Require Import pretty.
From S2P Require Import Prelude Time LoginTypes ActionTypes LoginState LoginEnv Bus Escape Parse Objects SessionDevice Seat Device User Session Lifecycle SessionBus ManagerBus Inhibit Buttons Startup Events Cols Links LinksObjects LinksRun LinksBoot Partial Sample Safety.
#[local] Open Scope string_scope.
#[local] Open Scope Z_scope.
#[local] Open Scope list_scope.

(** * Labels of object paths *)

(** A character, as the label holds it: letters and, but for the first, digits
    stand for themselves. *)
Definition label_char (first : bool) (c : ascii) : string :=
  if negb (ascii_isalpha c) && negb (negb first && ascii_isdigit c)
  then String "_" (String (hexchar (Z.shiftr (code c) 4)) (char1 (hexchar (code c))))
  else char1 c.
Fixpoint escape_label (first : bool) (s : string) : string :=
  match s with EmptyString => EmptyString | String c s' => label_char first c +:+ escape_label false s' end.
Definition bus_label_escape (s : string) : string :=
  match s with EmptyString => "_" | _ => escape_label true s end.

(** A NUL that is written out ends the string for all that read it. *)
Fixpoint unescape_label (f : string) : string :=
  match f with
  | EmptyString => EmptyString
  | String c rest =>
      if bool_decide (c = "_"%char) then
        match rest with
        | String x (String y rest') =>
            if (unhexchar x <? 0) || (unhexchar y <? 0) then String "_" (unescape_label rest)
            else
              let c := char_of (Z.lor (Z.shiftl (unhexchar x) 4) (unhexchar y)) in
              if code c =? 0 then EmptyString else String c (unescape_label rest')
        | _ => String "_" (unescape_label rest)
        end
      else String c (unescape_label rest)
  end.
Definition bus_label_unescape (f : string) : string :=
  if bool_decide (f = "_") then EmptyString else unescape_label f.

(** * Paths *)

Definition session_bus_path (sid : string) : string := "/org/freedesktop/login1/session/" +:+ bus_label_escape sid.
Definition seat_bus_path (k : string) : string := "/org/freedesktop/login1/seat/" +:+ bus_label_escape k.
Definition user_bus_path (uid : Z) : string := "/org/freedesktop/login1/user/_" +:+ pretty uid.

Section Queries.
Context {E : Env}.

(** The errors that sd-bus maps to ENXIO (bus-common-errors.c). *)
Definition is_enxio (o : outcome) : bool :=
  match o with
  | Errno r => r =? - ENXIO
  | BusError e => bool_decide (e ∈ [BUS_ERROR_NO_SUCH_SESSION; BUS_ERROR_NO_SESSION_FOR_PID; BUS_ERROR_NO_SUCH_USER;
                                    BUS_ERROR_NO_USER_FOR_PID; BUS_ERROR_NO_SUCH_SEAT])
  | _ => false
  end.
Definition found_or_not {A} (r : outcome + A) : outcome + option A :=
  match r with inr a => inr (Some a) | inl o => if is_enxio o then inr None else inl o end.

Definition session_object_find (path : string) (msg : message) : MM (outcome + option string) :=
  match startswith path "/org/freedesktop/login1/session/" with
  | None => ret (inr None)
  | Some p => r <- manager_get_session_from_creds msg (bus_label_unescape p) ;; ret (found_or_not r)
  end.
Definition seat_object_find (path : string) (msg : message) : MM (outcome + option string) :=
  match startswith path "/org/freedesktop/login1/seat/" with
  | None => ret (inr None)
  | Some p => r <- manager_get_seat_from_creds msg (bus_label_unescape p) ;; ret (found_or_not r)
  end.
Definition user_object_find (path : string) (msg : message) : MM (outcome + option Z) :=
  if bool_decide (path = "/org/freedesktop/login1/user/self") then
    r <- manager_get_user_from_creds msg UID_INVALID ;; ret (found_or_not r)
  else
    match startswith path "/org/freedesktop/login1/user/_" with
    | None => ret (inr None)
    | Some p =>
        match parse_uid p with
        | inl _ => ret (inr None)
        | inr uid => o <- gets (λ m, m_users m !! uid) ;; ret (inr (match o with Some _ => Some uid | None => None end))
        end
    end.

(** [sd_bus_creds_get_session] and [sd_bus_creds_get_owner_uid] of the message; a
    user without a display has none of the sender's sessions. *)
Definition caller_session (msg : message) : MM (option session) :=
  match msg_session msg with
  | inr name => gets (λ m, m_sessions m !! name)
  | inl _ => ret None
  end.
Definition caller_user (msg : message) : MM (option user) :=
  match msg_owner_uid msg with
  | inr uid => gets (λ m, m_users m !! uid)
  | inl _ => ret None
  end.
Definition session_node_enumerator (msg : message) : MM (list string) :=
  l <- gets (λ m, e_order_ids (fst <$> map_to_list (m_sessions m))) ;;
  s <- caller_session msg ;;
  may_auto <- (if is_some s then ret true
               else u <- caller_user msg ;; ret (match u with Some u => is_some (u_display u) | None => false end)) ;;
  ret ((session_bus_path <$> l) ++ (if is_some s then ["/org/freedesktop/login1/session/self"] else [])
       ++ (if may_auto : bool then ["/org/freedesktop/login1/session/auto"] else [])).
Definition seat_node_enumerator (msg : message) : MM (list string) :=
  l <- gets (λ m, e_order_ids (fst <$> map_to_list (m_seats m))) ;;
  s <- caller_session msg ;;
  let seated := match s with Some s => is_some (s_seat s) | None => false end in
  may_auto <- (if seated then ret true
               else
                 u <- caller_user msg ;;
                 match u ≫= u_display with
                 | Some d => s <- get_session d ;; ret (is_some (s_seat s))
                 | None => ret false
                 end) ;;
  ret ((seat_bus_path <$> l) ++ (if seated then ["/org/freedesktop/login1/seat/self"] else [])
       ++ (if may_auto : bool then ["/org/freedesktop/login1/seat/auto"] else [])).
Definition user_node_enumerator (msg : message) : MM (list string) :=
  l <- gets (λ m, e_order (fst <$> map_to_list (m_users m))) ;;
  paths <- map_m (λ uid, u <- get_user uid ;; ret (user_bus_path (ur_uid (u_user_record u)))) l ;;
  u <- caller_user msg ;;
  ret (paths ++ (if is_some u then ["/org/freedesktop/login1/user/self"] else [])).

(** * Get *)

Definition method_get_session (name : string) (msg : message) : MM outcome :=
  try (manager_get_session_from_creds msg name) (λ sid, ret (ReplyString (session_bus_path sid))).
Definition method_get_session_by_pid (pid : Z) (msg : message) : MM outcome :=
  if pid <? 0 then ret (Errno (- EINVAL))
  else if pid =? 0 then
    try (manager_get_session_from_creds msg EmptyString) (λ sid, ret (ReplyString (session_bus_path sid)))
  else
    r <- manager_get_session_by_pidref (mkPidref pid (- EBADF) 0) ;;
    match r with
    | inl r => ret (Errno r)
    | inr None => ret (BusError BUS_ERROR_NO_SESSION_FOR_PID)
    | inr (Some sid) => ret (ReplyString (session_bus_path sid))
    end.
(** The path is that of the user's record. *)
Definition reply_user (uid : Z) : MM outcome :=
  u <- get_user uid ;; ret (ReplyString (user_bus_path (ur_uid (u_user_record u)))).
Definition method_get_user (uid : Z) (msg : message) : MM outcome :=
  try (manager_get_user_from_creds msg uid) reply_user.
(** [m->user_units]: every user is there under the name of a slice. *)
Definition user_slice (u : user) : string := "user-" +:+ pretty (ur_uid (u_user_record u)) +:+ ".slice".
Definition user_of_unit (name : string) (m : manager) : option Z :=
  fst <$> find_first (λ '(_, u), bool_decide (user_slice u = name)) (map_to_list (m_users m)).
Definition manager_get_user_by_pid (pid : Z) : MM (Z + option Z) :=
  if negb (0 <? pid) then ret (inl (- EINVAL))
  else
    u <- (match e_cg_pid_get_session pid with Some name => gets (user_of_unit name) | None => ret None end) ;;
    match u with
    | Some uid => ret (inr (Some uid))
    | None =>
        r <- manager_get_session_by_pidref (mkPidref pid (- EBADF) 0) ;;
        match r with
        | inr (Some sid) =>
            state <- session_get_state sid ;;
            if bool_decide (state = SESSION_CLOSING) then ret (inr None)
            else s <- get_session sid ;; ret (inr (s_user s))
        | _ => ret (inr None)
        end
    end.
Definition method_get_user_by_pid (pid : Z) (msg : message) : MM outcome :=
  if pid <? 0 then ret (Errno (- EINVAL))
  else if pid =? 0 then try (manager_get_user_from_creds msg UID_INVALID) reply_user
  else
    r <- manager_get_user_by_pid pid ;;
    match r with
    | inl r => ret (Errno r)
    | inr None => ret (BusError BUS_ERROR_NO_USER_FOR_PID)
    | inr (Some uid) => reply_user uid
    end.
Definition method_get_seat (name : string) (msg : message) : MM outcome :=
  try (manager_get_seat_from_creds msg name) (λ k, ret (ReplyString (seat_bus_path k))).

(** * List *)

(** The record of the session's user; both pointers are followed. *)
Definition session_user_record (s : session) : MM user_record :=
  uid <- deref (s_user s) ;; u <- get_user uid ;; ret (u_user_record u).
(** (susso): id, uid, name, seat, path. *)
Record session_row := mkSessionRow { row_id : string; row_uid : Z; row_name : string; row_seat_id : string; row_path : string }.
Definition session_entry (sid : string) : MM session_row :=
  s <- get_session sid ;;
  ur <- session_user_record s ;;
  ret (mkSessionRow sid (ur_uid ur) (ur_name ur) (default EmptyString (s_seat s)) (session_bus_path sid)).
Definition method_list_sessions : MM (list session_row) :=
  l <- gets (λ m, e_order_ids (fst <$> map_to_list (m_sessions m))) ;; map_m session_entry l.
(** (sussussbto); the time is left unwritten for a session that cannot idle. *)
Record session_row_ex := mkSessionRowEx {
  ex_row : session_row; ex_leader : Z; ex_class : option string; ex_tty : option string; ex_idle : bool; ex_since : Z }.
Definition session_entry_ex (sid : string) : MM session_row_ex :=
  r <- session_entry sid ;;
  h <- session_get_idle_hint sid e_uninit_timestamp ;;
  s <- get_session sid ;;
  ret (mkSessionRowEx r (p_pid (s_leader s)) (to_string (s_class s)) (s_tty s) (fst h) (monotonic (snd h))).
Definition method_list_sessions_ex : MM (list session_row_ex) :=
  l <- gets (λ m, e_order_ids (fst <$> map_to_list (m_sessions m))) ;; map_m session_entry_ex l.
Definition method_list_users : MM (list (Z * string * string)) :=
  l <- gets (λ m, e_order (fst <$> map_to_list (m_users m))) ;;
  map_m (λ uid, u <- get_user uid ;;
           let ur := u_user_record u in ret (ur_uid ur, ur_name ur, user_bus_path (ur_uid ur))) l.
Definition method_list_seats : MM (list (string * string)) :=
  l <- gets (λ m, e_order_ids (fst <$> map_to_list (m_seats m))) ;; ret ((λ k, (k, seat_bus_path k)) <$> l).
(** (ssssuu): what, who, why, mode, uid, pid. *)
Definition method_list_inhibitors : MM (list (string * string * string * string * Z * Z)) :=
  l <- gets (λ m, e_order_ids (fst <$> map_to_list (m_inhibitors m))) ;;
  map_m (λ id, i <- get_inhibitor id ;;
           ret (default EmptyString (inhibit_what_to_string (i_what i)), default EmptyString (i_who i), default EmptyString (i_why i),
                default EmptyString (i_mode i ≫= to_string), i_uid i, p_pid (i_pid i))) l.

(** * Properties *)

(** Of a session. *)
Definition session_property_get_user (sid : string) : MM (Z * string) :=
  s <- get_session sid ;; ur <- session_user_record s ;; ret (ur_uid ur, user_bus_path (ur_uid ur)).
Definition session_property_get_name (sid : string) : MM string :=
  s <- get_session sid ;; ur <- session_user_record s ;; ret (ur_name ur).
Definition session_property_get_seat (sid : string) : MM (string * string) :=
  s <- get_session sid ;;
  ret (match s_seat s with Some k => (k, seat_bus_path k) | None => (EmptyString, "/") end).
Definition session_property_get_idle_hint (sid : string) : MM bool :=
  h <- session_get_idle_hint sid DUAL_TIMESTAMP_NULL ;; ret (fst h).
Definition session_property_get_idle_since_hint (sid : string) : MM dual_timestamp :=
  h <- session_get_idle_hint sid DUAL_TIMESTAMP_NULL ;; ret (snd h).
(** Of a seat. *)
Definition object_entry (o : option string) : string * string :=
  match o with Some sid => (sid, session_bus_path sid) | None => (EmptyString, "/") end.
Definition seat_property_get_active_session (k : string) : MM (string * string) :=
  t <- get_seat k ;; ret (object_entry (se_active t)).
Definition seat_property_get_sessions (k : string) : MM (list (string * string)) :=
  t <- get_seat k ;; ret ((λ sid, (sid, session_bus_path sid)) <$> se_sessions t).
Definition seat_property_get_idle_hint (k : string) : MM bool := h <- seat_get_idle_hint k ;; ret (fst h).
Definition seat_property_get_idle_since_hint (k : string) : MM dual_timestamp := h <- seat_get_idle_hint k ;; ret (snd h).
(** Of a user. *)
Definition user_property_get_name (uid : Z) : MM string := u <- get_user uid ;; ret (ur_name (u_user_record u)).
Definition user_property_get_display (uid : Z) : MM (string * string) :=
  u <- get_user uid ;; ret (object_entry (u_display u)).
Definition user_property_get_sessions (uid : Z) : MM (list (string * string)) :=
  u <- get_user uid ;; ret ((λ sid, (sid, session_bus_path sid)) <$> u_sessions u).
Definition user_property_get_idle_hint (uid : Z) : MM bool := h <- user_get_idle_hint uid ;; ret (fst h).
Definition user_property_get_idle_since_hint (uid : Z) : MM dual_timestamp := h <- user_get_idle_hint uid ;; ret (snd h).
Definition user_property_get_linger (uid : Z) : MM bool := u <- get_user uid ;; ret (0 <? user_check_linger_file u).
(** Of the manager. *)
Definition manager_property_get_idle_hint : MM bool := h <- manager_get_idle_hint ;; ret (fst h).
Definition manager_property_get_idle_since_hint : MM dual_timestamp := h <- manager_get_idle_hint ;; ret (snd h).
End Queries.

(** * Labels are read as they are written *)

(** A string of C. *)
Definition nul_free (s : string) : bool := string_forallb (λ c, negb (code c =? 0)) s.
Lemma label_char_read first c rest :
  code c ≠ 0 → unescape_label (label_char first c +:+ rest) = String c (unescape_label rest).
Proof. destruct first, c as [[] [] [] [] [] [] [] []]; done. Qed.
Lemma escape_label_read first s : nul_free s = true → unescape_label (escape_label first s) = s.
Proof.
  revert first. induction s as [|c s IH]; intros first Hs; [done|]. cbn [escape_label].
  apply andb_prop in Hs as [Hc%negb_true_iff%Z.eqb_neq Hs]. by rewrite label_char_read, IH.
Qed.
(** bus_label_unescape() gives back what bus_label_escape() wrote, so objects with
    different names have different paths. *)
Theorem bus_label_roundtrip s : nul_free s = true → bus_label_unescape (bus_label_escape s) = s.
Proof.
  intros Hs. unfold bus_label_unescape. destruct s as [|c s]; [done|]. unfold bus_label_escape.
  rewrite bool_decide_false; [by apply escape_label_read|].
  intros H. pose proof (escape_label_read true (String c s) Hs) as Hr. rewrite H in Hr. cbn in Hr. injection Hr as <- <-. done.
Qed.
Lemma session_id_nul_free sid : session_id_valid sid = true → nul_free sid = true.
Proof.
  assert (H : ∀ s, string_forallb (λ c, ascii_isalpha c || ascii_isdigit c) s = true → nul_free s = true).
  { induction s as [|c s IH]; [done|]. cbn. intros [Hc Hs]%andb_prop. apply andb_true_intro. split; [|by apply IH].
    revert Hc. clear. by destruct c as [[] [] [] [] [] [] [] []]. }
  destruct sid; [done|]. apply H.
Qed.
(** A label holds letters, digits and underscores only, and is not empty. *)
Definition path_char (c : ascii) : bool := ascii_isalpha c || ascii_isdigit c || in_set c ["_"%char].
Theorem bus_label_valid s : bus_label_escape s ≠ "" ∧ string_forallb path_char (bus_label_escape s) = true.
Proof.
  assert (Hc : ∀ first c, label_char first c ≠ "" ∧ string_forallb path_char (label_char first c) = true)
    by (by intros [] [[] [] [] [] [] [] [] []]).
  assert (Hl : ∀ s first, string_forallb path_char (escape_label first s) = true).
  { clear s. induction s as [|c s IH]; intros first; [done|]. cbn [escape_label]. rewrite string_forallb_app.
    apply andb_true_intro. split; [apply Hc|apply IH]. }
  destruct s as [|c s]; [done|]. split; [|apply Hl]. unfold bus_label_escape. cbn [escape_label].
  destruct (Hc true c) as [Hne _]. by destruct (label_char true c).
Qed.

Lemma startswith_app p s : startswith (p +:+ s) p = Some s.
Proof.
  induction p as [|c p IH]; [by destruct s|]. change (String c p +:+ s) with (String c (p +:+ s)). cbn [startswith].
  by destruct (ascii_dec c c).
Qed.

(** * What is listed can be found *)

Lemma map_m_run {A B} (f : A → MM B) (g : A → B) m l :
  Forall (λ x, f x m = Some (g x, m)) l → map_m f l m = Some (g <$> l, m).
Proof.
  induction 1 as [|x l Hx _ IH]; [done|]. cbn [map_m fmap list_fmap].
  by rewrite (bind_run _ _ _ _ _ Hx), (bind_run _ _ _ _ _ IH).
Qed.

(** A name that stands for itself, not for the sender's session. *)
Definition plain_name (sid : string) : bool := negb (SESSION_IS_SELF sid) && negb (SESSION_IS_AUTO sid).
Section Found.
Context {E : Env}.
Lemma session_name_found sid s msg m :
  plain_name sid = true → m_sessions m !! sid = Some s → manager_get_session_from_creds msg sid m = Some (inr sid, m).
Proof.
  unfold plain_name, manager_get_session_from_creds. intros [->%negb_true_iff ->%negb_true_iff]%andb_prop Hs.
  unfold bind, gets. by rewrite Hs.
Qed.
Lemma session_path_found sid s msg m :
  nul_free sid = true → plain_name sid = true → m_sessions m !! sid = Some s →
  session_object_find (session_bus_path sid) msg m = Some (inr (Some sid), m) ∧
  method_get_session sid msg m = Some (ReplyString (session_bus_path sid), m).
Proof.
  intros Hsid Hn Hs. pose proof (session_name_found sid s msg m Hn Hs) as Hf. split.
  - unfold session_object_find, session_bus_path. rewrite startswith_app, bus_label_roundtrip by done. by rewrite (bind_run _ _ _ _ _ Hf).
  - unfold method_get_session, try. by rewrite (bind_run _ _ _ _ _ Hf).
Qed.

Lemma session_bus_path_inj x y :
  nul_free x = true → nul_free y = true → session_bus_path x = session_bus_path y → x = y.
Proof.
  unfold session_bus_path. intros Hx Hy H. apply (f_equal (λ p, bus_label_unescape <$> startswith p "/org/freedesktop/login1/session/")) in H.
  rewrite !startswith_app in H. cbn [fmap option_fmap option_map] in H. rewrite !bus_label_roundtrip in H by done. by injection H.
Qed.
Lemma session_ids {Ok : EnvOk} m sid :
  sid ∈ e_order_ids (fst <$> map_to_list (m_sessions m)) ↔ is_Some (m_sessions m !! sid).
Proof.
  rewrite (e_order_ids_ok (EnvOk := Ok)), list_elem_of_fmap. split.
  - intros ([i s]&->&Hi%elem_of_map_to_list). by exists s.
  - intros [s Hs]. exists (sid, s). split; [done|]. by apply elem_of_map_to_list.
Qed.
Lemma session_ids_distinct {Ok : EnvOk} m : NoDup (e_order_ids (fst <$> map_to_list (m_sessions m))).
Proof. rewrite (e_order_ids_ok (EnvOk := Ok)). apply NoDup_fst_map_to_list. Qed.

(** The row the list has for a session. *)
Definition row_of (m : manager) (sid : string) : session_row :=
  let s := m_sessions m !! sid in
  let ur := u_user_record <$> ((s ≫= s_user) ≫= (λ uid, m_users m !! uid)) in
  mkSessionRow sid (from_option ur_uid 0 ur) (from_option ur_name EmptyString ur)
    (default EmptyString (s ≫= s_seat)) (session_bus_path sid).
Lemma session_entry_run m sid s :
  links_agree m → m_sessions m !! sid = Some s → session_entry sid m = Some (row_of m sid, m).
Proof.
  intros Hl Hs. destruct (session_has_user _ Hl _ _ Hs) as (uid&u&Hu&Hm&_).
  unfold session_entry, row_of, session_user_record, get_session, get_user, bind, gets, deref. rewrite Hs. cbn.
  rewrite Hu. cbn. rewrite Hm. done.
Qed.

(** C34: ListSessions names every session once, each with its own path, the name and
    number of its user and the seat it is on, which has it; and the path it gives
    for a session is one under which the object is found, by whoever looks for it,
    and the one GetSession gives for its id - unless the id is one of the two names
    that stand for the sender's session.  No pointer of the rows dangles. *)
Theorem sessions_are_listed_and_found c m msg :
  sane c → reachable c m → EnvOk →
  ∃ l, method_list_sessions m = Some (l, m) ∧ NoDup (row_path <$> l) ∧
    (∀ sid s, m_sessions m !! sid = Some s → sid ∈ row_id <$> l) ∧
    ∀ r, r ∈ l → ∃ s uid u,
      m_sessions m !! row_id r = Some s ∧ s_user s = Some uid ∧ m_users m !! uid = Some u ∧
      row_uid r = ur_uid (u_user_record u) ∧ row_name r = ur_name (u_user_record u) ∧
      row_seat_id r = default EmptyString (s_seat s) ∧
      (∀ k, s_seat s = Some k → ∃ t, m_seats m !! k = Some t ∧ row_id r ∈ se_sessions t) ∧
      (plain_name (row_id r) = true →
       session_object_find (row_path r) msg m = Some (inr (Some (row_id r)), m) ∧
       method_get_session (row_id r) msg m = Some (ReplyString (row_path r), m)).
Proof.
  intros Hc Hm Ok. pose proof (reachable_wf c m Hc Hm) as Hwf. pose proof (wf_links_agree m Hwf) as Hl.
  set (ids := e_order_ids (fst <$> map_to_list (m_sessions m))).
  assert (Hids : ∀ sid, sid ∈ ids ↔ is_Some (m_sessions m !! sid)) by (intros sid; apply session_ids).
  assert (Hnul : ∀ sid, sid ∈ ids → nul_free sid = true).
  { intros sid [s Hs]%Hids. apply session_id_nul_free, (wf_ids _ _ Hwf). eexists. by apply (col_in s_user _ _ s). }
  exists (row_of m <$> ids). split_and!.
  - unfold method_list_sessions, bind at 1, gets. fold ids. apply map_m_run, Forall_forall. intros sid [s Hs]%Hids.
    by apply (session_entry_run m sid s).
  - rewrite <- list_fmap_compose. apply NoDup_fmap_2_strong; [|apply session_ids_distinct].
    intros x y Hx Hy. apply session_bus_path_inj; by apply Hnul.
  - intros sid s Hs. rewrite <- list_fmap_compose. apply list_elem_of_fmap. exists sid. split; [done|]. by apply Hids.
  - intros r (sid&->&[s Hs]%Hids)%list_elem_of_fmap. destruct (session_has_user _ Hl _ _ Hs) as (uid&u&Hu&Hmu&_).
    exists s, uid, u. unfold row_of; cbn [row_id row_uid row_name row_seat_id row_path]. rewrite Hs; cbn. rewrite Hu; cbn. rewrite Hmu; cbn.
    split_and!; [done..| |intros Hp; apply (session_path_found sid s); [apply Hnul, Hids; by exists s|done..]].
    intros k Hk. by apply (session_on_seat _ Hl sid s).
Qed.

(** A finding: for a sender whose session is not known, but whose user has a
    display, the object session/auto is listed, and is not found. *)
Theorem auto_is_listed_but_not_found msg name uid u d m :
  msg_session msg = inr name → m_sessions m !! name = None →
  msg_owner_uid msg = inr uid → m_users m !! uid = Some u → u_display u = Some d →
  let path := "/org/freedesktop/login1/session/auto"%string in
  (∃ l, session_node_enumerator msg m = Some (l, m) ∧ path ∈ l) ∧
  session_object_find path msg m = Some (inr None, m).
Proof.
  intros Hn Hs Hu Hm Hd path. split.
  - unfold session_node_enumerator, caller_session, caller_user, bind, gets, ret. rewrite Hn, Hs. cbn [is_some]. rewrite Hu. cbv iota beta. rewrite Hm. cbn [is_some]. rewrite Hd.
    eexists. split; [reflexivity|]. rewrite !elem_of_app. right. right. by left.
  - unfold session_object_find, path.
    change (startswith _ _) with (Some "auto"%string). cbv iota beta.
    change (bus_label_unescape "auto") with "auto"%string. unfold manager_get_session_from_creds.
    change (SESSION_IS_SELF "auto") with false. change (SESSION_IS_AUTO "auto") with true. cbv iota.
    unfold get_sender_session. rewrite Hn. unfold bind, gets, ret. by rewrite Hs.
Qed.
End Found.

Lemma sessions_are_listed_and_found_witness :
  ∃ l, @method_list_sessions sample_env sample_busy = Some (l, sample_busy) ∧ "c2"%string ∈ row_id <$> l ∧
    ∀ r, r ∈ l → plain_name (row_id r) = true →
      session_object_find (row_path r) root_message sample_busy = Some (inr (Some (row_id r)), sample_busy).
Proof.
  destruct (sessions_are_listed_and_found (E := sample_env) sample_config sample_busy root_message) as (l&Hl&_&Hin&Hr);
    [done|done|apply sample_env_ok|].
  exists l. split; [done|]. split.
  - destruct (m_sessions sample_busy !! "c2"%string) as [s|] eqn:Es; [by apply (Hin _ s)|by vm_compute in Es].
  - intros r (s&uid&u&_&_&_&_&_&_&_&H)%Hr Hp. by apply H.
Defined.
Example sample_rows :
  match @method_list_sessions sample_env sample_busy with
  | Some (l, _) => map (λ r, (row_id r, row_uid r, row_seat_id r, row_path r)) l
  | None => []
  end = [("c1", 1000, "seat0", "/org/freedesktop/login1/session/c1");
         ("c2", 1001, "seat0", "/org/freedesktop/login1/session/c2")]%string.
Proof. vm_compute. reflexivity. Qed.
