(* ===== verification/InhibitFacts.v ===== *)
(** Inhibitors: their names, and what a block means. *)
From Stdlib Require Import Ascii.
From S2P Require Import Prelude Time LoginTypes ActionTypes LoginState LoginEnv Bus Objects ManagerBus Words Inhibit Events LinksBoot Partial Sample Safety.
#[local] Open Scope list_scope.

(** * Names *)

(** [n] is tried for each number below [max]. *)
Lemma check_below (P : Z → bool) (max : nat) :
  forallb P (Z.of_nat <$> seq 0 max) = true → ∀ w, 0 ≤ w < Z.of_nat max → P w = true.
Proof.
  intros H w Hw. rewrite forallb_forall in H. apply H, list_elem_of_In, list_elem_of_fmap.
  exists (Z.to_nat w). split; [lia|]. apply elem_of_seq. lia.
Qed.
Definition what_reads_back (w : Z) : bool :=
  if inhibit_what_is_valid w then
    match inhibit_what_to_string w with Some s => inhibit_what_from_string s =? w | None => false end
  else true.

(** The masks of what is inhibited have names that read back: for every
    valid mask, inhibit_what_from_string() of inhibit_what_to_string() is the
    mask, so the state file of an inhibitor and the BlockInhibited property say
    exactly which operations are meant. *)
Theorem inhibit_what_roundtrip w :
  inhibit_what_is_valid w = true →
  ∃ s, inhibit_what_to_string w = Some s ∧ inhibit_what_from_string s = w.
Proof.
  intros H. pose proof H as Hr. unfold inhibit_what_is_valid, _INHIBIT_WHAT_MAX in Hr.
  assert (Hw : what_reads_back w = true).
  { apply (check_below what_reads_back 256); [vm_compute; reflexivity|].
    change (Z.shiftl 1 8) with 256 in Hr. lia. }
  unfold what_reads_back in Hw. rewrite H in Hw. destruct (inhibit_what_to_string w) as [s|]; [|done].
  exists s. split; [done|]. by apply Z.eqb_eq.
Qed.
Lemma inhibit_what_roundtrip_witness :
  inhibit_what_is_valid (Z.lor INHIBIT_SLEEP INHIBIT_IDLE) = true ∧
  ∃ s, inhibit_what_to_string (Z.lor INHIBIT_SLEEP INHIBIT_IDLE) = Some s ∧
       inhibit_what_from_string s = Z.lor INHIBIT_SLEEP INHIBIT_IDLE.
Proof. split; [reflexivity|]. apply inhibit_what_roundtrip. reflexivity. Defined.

(** C37: the buffer of inhibit_what_to_string() is large enough for every valid
    mask but one: with all eight operations stpcpy() writes its terminating NUL
    one byte past the end of the buffer. *)
Theorem inhibit_what_overflow w :
  inhibit_what_is_valid w = true →
  inhibit_what_written w ≤ inhibit_what_buffer_size + 1 ∧
  (inhibit_what_buffer_size < inhibit_what_written w ↔ w = _INHIBIT_WHAT_MAX - 1).
Proof.
  intros Hr. unfold inhibit_what_is_valid, _INHIBIT_WHAT_MAX in Hr. change (Z.shiftl 1 8) with 256 in Hr.
  assert (Hw : (inhibit_what_written w <=? inhibit_what_buffer_size + 1) &&
    Bool.eqb (inhibit_what_buffer_size <? inhibit_what_written w) (w =? 255) = true).
  { apply (check_below (λ w, (inhibit_what_written w <=? inhibit_what_buffer_size + 1) &&
      Bool.eqb (inhibit_what_buffer_size <? inhibit_what_written w) (w =? 255)) 256); [vm_compute; reflexivity|lia]. }
  apply andb_prop in Hw as [H1%Z.leb_le H2%Bool.eqb_prop]. split; [done|].
  change (_INHIBIT_WHAT_MAX - 1) with 255. rewrite <-Z.ltb_lt, H2. apply Z.eqb_eq.
Qed.
Lemma inhibit_what_overflow_witness :
  inhibit_what_buffer_size < inhibit_what_written (inhibit_what_from_string
    "shutdown:sleep:idle:handle-power-key:handle-suspend-key:handle-hibernate-key:handle-lid-switch:handle-reboot-key").
Proof. apply inhibit_what_overflow; reflexivity. Defined.

(** * Who inhibits *)

(** The inhibitor [i] holds the operation [w] up: it is started, is about [w],
    in the mode that is asked about. *)
Definition holds_up (m : manager) (w : Z) (block : bool) (i : inhibitor) : Prop :=
  (∃ id, m_inhibitors m !! id = Some i) ∧ counts w block i = true.

Section Who.
Context {E : Env}.

(** Whether a process counts as one of an active session: those of no session
    do, and those of a session that is on no seat or in the foreground of its
    seat; those whose leader cannot be verified any more do not. *)
Definition session_in_foreground (m : manager) (sid : string) : bool :=
  match m_sessions m !! sid with
  | Some s => match s_seat s with
              | None => true
              | Some k => bool_decide (m_seats m !! k ≫= se_active = Some sid)
              end
  | None => true
  end.
Definition of_active_session (m : manager) (p : pidref) : bool :=
  pidref_is_set p &&
  match m_sessions_by_leader m !! p_pid p with
  | Some sid => negb (e_pidref_verify p <? 0) && session_in_foreground m sid
  | None => match e_cg_pid_get_session (p_pid p) with
            | Some sid => session_in_foreground m sid
            | None => true
            end
  end.

Lemma session_is_active_run m sid s : links_agree m → m_sessions m !! sid = Some s →
  session_is_active sid m = Some (session_in_foreground m sid, m).
Proof.
  intros Hl Hs. unfold session_is_active, session_in_foreground. rewrite Hs.
  rewrite (bind_run _ _ _ _ _ (get_session_run m sid s Hs)). destruct (s_seat s) as [k|] eqn:Ek; [|done].
  destruct (session_on_seat _ Hl sid s k Hs Ek) as (t&Ht&_). by rewrite (bind_run _ _ _ _ _ (get_seat_run m k t Ht)), Ht.
Qed.
Lemma is_active_session_run m p : links_agree m →
  ∃ r, pidref_is_active_session p m = Some (r, m) ∧ (r <=? 0) = negb (of_active_session m p).
Proof.
  intros Hl. unfold pidref_is_active_session, manager_get_session_by_pidref, of_active_session.
  destruct (pidref_is_set p); [|by eexists]. cbn [negb andb].
  unfold bind at 2, gets at 1. unfold bind at 1.
  assert (Hin : ∀ sid s, m_sessions m !! sid = Some s → ∃ r,
    (b <- session_is_active sid ;; ret (if (b : bool) then 1 else 0)) m = Some (r, m) ∧
    (r <=? 0) = negb (session_in_foreground m sid)).
  { intros sid s Hs. rewrite (bind_run _ _ _ _ _ (session_is_active_run m sid s Hl Hs)).
    eexists. split; [reflexivity|]. by destruct (session_in_foreground m sid). }
  destruct (m_sessions_by_leader m !! p_pid p) as [sid|] eqn:Ep.
  - destruct (e_pidref_verify p <? 0) eqn:Ev; cbn [ret negb andb].
    + eexists. split; [reflexivity|]. lia.
    + destruct (leader_found _ Hl _ _ Ep) as (_&s&Hs&_). eauto.
  - destruct (e_cg_pid_get_session (p_pid p)) as [sid|]; [|by eexists].
    unfold bind, gets, ret. destruct (m_sessions m !! sid) as [s|] eqn:Es; [by eapply Hin|].
    eexists. split; [reflexivity|]. unfold session_in_foreground. by rewrite Es.
Qed.

(** The inhibitors that count for a question: about the operation, in the mode
    asked about, of an active session where others are ignored, and not a weak
    one of the asking user's own where these are ignored. *)
Definition applies (m : manager) (w : Z) (block ignore_inactive ignore_uid : bool) (uid : Z) (i : inhibitor) : bool :=
  counts w block i && (negb ignore_inactive || of_active_session m (i_pid i)) && negb (weak_and_own ignore_uid uid i).
Lemma fold_inhibited w block ignore_inactive ignore_uid uid l acc m :
  (ignore_inactive = true → links_agree m) →
  fold_m (inhibited_step w block ignore_inactive ignore_uid uid) acc l m =
  Some (foldl (λ acc i, if applies m w block ignore_inactive ignore_uid uid i then add_inhibitor acc i else acc) acc l, m).
Proof.
  intros Hl. revert acc. induction l as [|i l IH]; intros acc; [done|]. simpl. unfold bind at 1.
  unfold inhibited_step at 1, applies at 2. destruct (counts w block i); cbn; [|apply IH].
  destruct ignore_inactive; cbn.
  - destruct (is_active_session_run m (i_pid i) (Hl eq_refl)) as (r&Hr&Er).
    rewrite (bind_run _ _ _ _ _ Hr), Er. destruct (of_active_session m (i_pid i)); cbn; [|apply IH].
    destruct (weak_and_own _ _ _); cbn; apply IH.
  - destruct (weak_and_own _ _ _); cbn; apply IH.
Qed.

Definition the_inhibitors (m : manager) : list inhibitor :=
  omap (λ id, m_inhibitors m !! id) (e_order_ids (fst <$> map_to_list (m_inhibitors m))).
Definition inhibition_of (m : manager) (w : Z) (block ignore_inactive ignore_uid : bool) (uid : Z) : inhibition :=
  foldl (λ acc i, if applies m w block ignore_inactive ignore_uid uid i then add_inhibitor acc i else acc) not_inhibited
    (the_inhibitors m).
Lemma is_inhibited_run w block ignore_inactive ignore_uid uid m :
  0 < w < _INHIBIT_WHAT_MAX → (ignore_inactive = true → links_agree m) →
  manager_is_inhibited w block ignore_inactive ignore_uid uid m =
    Some (inhibition_of m w block ignore_inactive ignore_uid uid, m).
Proof.
  intros [H1 H2] Hl. unfold manager_is_inhibited. rewrite (proj2 (Z.ltb_lt _ _) H1), (proj2 (Z.ltb_lt _ _) H2).
  unfold all_inhibitors, gets, bind, assert_se, ret. by apply fold_inhibited.
Qed.

Context {Ok : EnvOk}.
Lemma elem_of_the_inhibitors m i : i ∈ the_inhibitors m ↔ ∃ id, m_inhibitors m !! id = Some i.
Proof.
  unfold the_inhibitors. rewrite list_elem_of_omap. setoid_rewrite e_order_ids_ok. split.
  - intros (id&_&H). eauto.
  - intros [id H]. exists id. split; [|done]. apply list_elem_of_fmap. exists (id, i). split; [done|].
    by apply elem_of_map_to_list.
Qed.

(** What the loop has found after a list: the offender is one of the list, and
    none of it is stronger. *)
Definition found (P : inhibitor → bool) (l : list inhibitor) (x : inhibition) : Prop :=
  (x.1.1 = true ↔ ∃ i, i ∈ l ∧ P i = true) ∧ x.1.1 = is_some x.2 ∧
  ∀ o, x.2 = Some o → o ∈ l ∧ P o = true ∧ ∀ i, i ∈ l → P i = true → mode_index (i_mode o) ≤ mode_index (i_mode i).
Lemma fold_found P l :
  found P l (foldl (λ acc i, if P i then add_inhibitor acc i else acc) not_inhibited l).
Proof.
  induction l as [|i l IH] using rev_ind.
  { split_and!; [|done|done]. split; [done|]. by intros (i&Hi%elem_of_nil&_). }
  rewrite foldl_app. cbn [foldl]. destruct (foldl _ _ l) as [[b ts] off]. destruct IH as (H1&H2&H3).
  cbn [fst snd] in *. destruct (P i) eqn:Pi.
  - cbn. split_and!; [| |].
    + split; [|done]. intros _. exists i. split; [apply elem_of_app; right; left|done].
    + by destruct off as [o|]; cbn; [case_match|].
    + assert (Hi : i ∈ l ++ [i]) by (apply elem_of_app; right; by left).
      intros o Ho. destruct off as [o'|].
      * destruct (H3 o' eq_refl) as (Hin&HP&Hle). assert (Hin' : o' ∈ l ++ [i]) by (apply elem_of_app; auto).
        cbn in Ho; destruct (_ <? _) eqn:E1; injection Ho as <-; (split_and!; [done..|]);
          intros j [Hj|Hj%list_elem_of_singleton]%elem_of_app Pj; subst; try pose proof (Hle j Hj Pj); lia.
      * cbn in Ho. injection Ho as <-. split_and!; [done..|]. intros j [Hj|Hj%list_elem_of_singleton]%elem_of_app Pj; [|by subst].
        cbn in H2. subst b. assert (false = true) by (apply H1; eauto). done.
  - split_and!; [|done|].
    + rewrite H1. split; intros (j&Hj&Pj); exists j; (split; [|done]).
      * apply elem_of_app; auto.
      * apply elem_of_app in Hj as [?|Hj%list_elem_of_singleton]; [done|congruence].
    + intros o Ho. destruct (H3 o Ho) as (Hin&HP&Hle). split_and!; [apply elem_of_app; auto|done|].
      intros j [Hj|Hj%list_elem_of_singleton]%elem_of_app Pj; [auto|congruence].
Qed.

Lemma inhibition_spec w block ignore_inactive ignore_uid uid m :
  0 < w < _INHIBIT_WHAT_MAX → (ignore_inactive = true → links_agree m) →
  ∃ b ts off, manager_is_inhibited w block ignore_inactive ignore_uid uid m = Some ((b, ts, off), m) ∧
    (b = true ↔ ∃ id i, m_inhibitors m !! id = Some i ∧ applies m w block ignore_inactive ignore_uid uid i = true) ∧
    (b = is_some off) ∧
    ∀ o, off = Some o → (∃ id, m_inhibitors m !! id = Some o) ∧ applies m w block ignore_inactive ignore_uid uid o = true ∧
      ∀ id i, m_inhibitors m !! id = Some i → applies m w block ignore_inactive ignore_uid uid i = true →
        mode_index (i_mode o) ≤ mode_index (i_mode i).
Proof.
  intros Hw Hl. rewrite is_inhibited_run by done. unfold inhibition_of.
  destruct (fold_found (applies m w block ignore_inactive ignore_uid uid) (the_inhibitors m)) as (H1&H2&H3).
  destruct (foldl _ _ _) as [[b ts] off]. exists b, ts, off. cbn [fst snd] in *. split_and!; [done| |done|].
  - rewrite H1. setoid_rewrite elem_of_the_inhibitors. naive_solver.
  - intros o Ho. destruct (H3 o Ho) as (Hin&HP&Hle). rewrite elem_of_the_inhibitors in Hin. split_and!; [done..|].
    intros id i Hi. apply Hle, elem_of_the_inhibitors. eauto.
Qed.

(** C31: manager_is_inhibited() answers for all inhibitors: the operation is
    inhibited exactly when some started inhibitor is about it in the mode in
    question - where inactive sessions are ignored, one of a process of an active
    session or of none; where those of the asking user are ignored, not a weak one
    of its own - whatever the order of the hash map; the offender it names is such
    an inhibitor, and none of them is stronger. *)
Theorem is_inhibited_finds_the_strongest w block ignore_inactive ignore_uid uid m :
  0 < w < _INHIBIT_WHAT_MAX → (ignore_inactive = true → links_agree m) →
  ∃ b ts off, manager_is_inhibited w block ignore_inactive ignore_uid uid m = Some ((b, ts, off), m) ∧
    (b = true ↔ ∃ id i, m_inhibitors m !! id = Some i ∧ applies m w block ignore_inactive ignore_uid uid i = true) ∧
    (b = is_some off) ∧
    ∀ o, off = Some o → (∃ id, m_inhibitors m !! id = Some o) ∧ applies m w block ignore_inactive ignore_uid uid o = true ∧
      ∀ id i, m_inhibitors m !! id = Some i → applies m w block ignore_inactive ignore_uid uid i = true →
        mode_index (i_mode o) ≤ mode_index (i_mode i).
Proof. apply inhibition_spec. Qed.
End Who.

(** A backup blocks sleep and shutdown; a program wants to be told before sleep. *)
Definition sample_inhibited : manager :=
  after (@method_inhibit sample_env "sleep" "player" "pause first" "delay" root_message)
    (after (@method_inhibit sample_env "shutdown:sleep" "backup" "running" "block" root_message) sample_started).
Lemma sample_inhibited_links : links_agree sample_inhibited.
Proof.
  assert (Hl : links_agree sample_started)
    by (apply wf_links_agree, (reachable_wf sample_config); [apply sample_sane|apply sample_started_reachable]).
  assert (E1 : m_sessions sample_inhibited = m_sessions sample_started) by (vm_compute; reflexivity).
  assert (E2 : m_users sample_inhibited = m_users sample_started) by (vm_compute; reflexivity).
  assert (E3 : m_seats sample_inhibited = m_seats sample_started) by (vm_compute; reflexivity).
  assert (E4 : m_sessions_by_leader sample_inhibited = m_sessions_by_leader sample_started) by (vm_compute; reflexivity).
  destruct Hl; constructor; rewrite ?E1, ?E2, ?E3, ?E4; assumption.
Qed.
Lemma is_inhibited_finds_the_strongest_witness :
  links_agree sample_inhibited ∧
  ∃ b ts off, @manager_is_inhibited sample_env INHIBIT_SLEEP true true false 0 sample_inhibited =
      Some ((b, ts, off), sample_inhibited) ∧
    (b = true ↔ ∃ id i, m_inhibitors sample_inhibited !! id = Some i ∧
       @applies sample_env sample_inhibited INHIBIT_SLEEP true true false 0 i = true) ∧
    (b = is_some off) ∧
    ∀ o, off = Some o → (∃ id, m_inhibitors sample_inhibited !! id = Some o) ∧
      @applies sample_env sample_inhibited INHIBIT_SLEEP true true false 0 o = true ∧
      ∀ id i, m_inhibitors sample_inhibited !! id = Some i →
        @applies sample_env sample_inhibited INHIBIT_SLEEP true true false 0 i = true →
        mode_index (i_mode o) ≤ mode_index (i_mode i).
Proof.
  split; [apply sample_inhibited_links|].
  apply (is_inhibited_finds_the_strongest (Ok := sample_env_ok)); [split; reflexivity|intros _; apply sample_inhibited_links].
Defined.
Example sample_is_inhibited :
  (λ x, x.1.1.1) <$> @manager_is_inhibited sample_env INHIBIT_SLEEP true false false 0 sample_inhibited = Some true ∧
  (λ x, x.1.1.1) <$> @manager_is_inhibited sample_env INHIBIT_IDLE true false false 0 sample_inhibited = Some false.
Proof. split; vm_compute; reflexivity. Qed.
