(* ===== verification/PowerFacts.v ===== *)
(** Power actions: a block holds, a delay delays, and what is left of an action
    when it is over; with the default settings the Sleep action has nothing to
    choose from. *)
From S2P Require Import Prelude Time LoginTypes ActionTypes LoginState LoginEnv Bus Objects Session SessionBus ManagerBus Inhibit Wall Power Schedule Buttons Startup Events LinksBoot InhibitFacts Sample Safety.
#[local] Open Scope list_scope.

(** * Computations that end and change nothing *)

Definition settles {A} (m : manager) (c : MM A) (P : A → Prop) : Prop := ∃ a, c m = Some (a, m) ∧ P a.

Section Settles.
Context (m : manager).
Lemma settles_ret {A} (a : A) (P : A → Prop) : P a → settles m (ret a) P.
Proof. by exists a. Qed.
Lemma settles_bind {A B} (c : MM A) (k : A → MM B) (P : A → Prop) (Q : B → Prop) :
  settles m c P → (∀ a, P a → settles m (k a) Q) → settles m (bind c k) Q.
Proof. intros (a&Ha&HP) Hk. destruct (Hk a HP) as (b&Hb&HQ). exists b. split; [|done]. unfold bind. by rewrite Ha. Qed.
Lemma settles_gets {A} (f : manager → A) : settles m (gets f) (λ a, a = f m).
Proof. by exists (f m). Qed.
Lemma settles_assert b : b = true → settles m (assert_se b) (λ _, True).
Proof. intros ->. by exists tt. Qed.
Lemma settles_deref {A} (o : option A) a : o = Some a → settles m (deref o) (λ x, x = a).
Proof. intros ->. by exists a. Qed.
Lemma settles_mono {A} (c : MM A) (P Q : A → Prop) : settles m c P → (∀ a, P a → Q a) → settles m c Q.
Proof. intros (a&H&HP) HQ. exists a. auto. Qed.
Lemma settles_polkit msg action k (P : outcome → Prop) :
  (∀ r, r < 0 → P (Errno r)) → P Later → settles m k P → settles m (polkit msg action k) P.
Proof.
  intros H1 H2 Hk. unfold polkit. cbv zeta. destruct (_ <? 0) eqn:E1; [apply settles_ret, H1; lia|].
  destruct (_ =? 0); [by apply settles_ret|done].
Qed.
End Settles.

(** * The actions *)

(** What an inhibitor must block to stop an action that is asked for over D-Bus. *)
Definition kind_of (a : HandleAction) : Z := if HANDLE_ACTION_IS_SHUTDOWN a then INHIBIT_SHUTDOWN else INHIBIT_SLEEP.
Lemma executable_row a : executable a = true →
  let d := handle_action_lookup a in
  hd_inhibit_what d = kind_of a ∧ hd_handle d = a ∧ is_Some (hd_polkit_action d) ∧
  is_Some (hd_polkit_action_multiple_sessions d) ∧ is_Some (hd_polkit_action_ignore_inhibit d).
Proof. destruct a; cbn; intros H; try done; split_and!; try done; by eexists. Qed.
Lemma kind_range a : 0 < kind_of a < _INHIBIT_WHAT_MAX.
Proof. unfold kind_of. by case_match. Qed.

(** Every session has an owner that is there. *)
Definition owned (m : manager) : Prop :=
  ∀ sid s, m_sessions m !! sid = Some s → ∃ uid, s_user s = Some uid ∧ is_Some (m_users m !! uid).
(** A started inhibitor blocks the operation, and not weakly. *)
Definition blocked (m : manager) (w : Z) : Prop :=
  ∃ id i, m_inhibitors m !! id = Some i ∧ i_started i = true ∧ i_mode i = Some INHIBIT_BLOCK ∧
          Z.land (i_what i) w ≠ 0.

Section Power.
Context {E : Env} {Ok : EnvOk}.

Lemma blocked_found m w ignore_uid uid : 0 < w < _INHIBIT_WHAT_MAX → blocked m w →
  settles m (manager_is_inhibited w true false ignore_uid uid)
    (λ x, x.1.1 = true ∧ ∃ o, x.2 = Some o ∧ i_mode o = Some INHIBIT_BLOCK).
Proof.
  intros Hw (id&i&Hi&Hs&Hm&Hb). destruct (inhibition_spec w true false ignore_uid uid m Hw ltac:(done)) as (b&ts&off&H&H1&H2&H3).
  assert (Ha : applies m w true false ignore_uid uid i = true).
  { unfold applies, counts, weak_and_own. rewrite Hs, Hm. cbn. by rewrite (proj2 (Z.eqb_neq _ _) Hb). }
  assert (b = true) as -> by (apply H1; eauto). destruct off as [o|]; [|done].
  exists (true, ts, Some o). split; [exact H|]. split; [done|]. exists o. split; [done|].
  destruct (H3 o eq_refl) as (_&Ho&Hle). pose proof (Hle id i Hi Ha) as Hl. rewrite Hm in Hl. cbn in Hl.
  unfold applies, counts in Ho. destruct (i_mode o) as [[| |]|]; cbn in *; try done; try lia.
  by rewrite !andb_false_r in Ho.
Qed.

Lemma settles_multiple m uid : owned m → settles m (have_multiple_sessions uid) (λ _, True).
Proof.
  intros Ho. unfold have_multiple_sessions. eapply settles_bind; [apply settles_gets|]. intros ids ->.
  assert (Hl : ∀ sid, sid ∈ e_order_ids (fst <$> map_to_list (m_sessions m)) → is_Some (m_sessions m !! sid)).
  { intros sid. rewrite (e_order_ids_ok (EnvOk := Ok)). intros ([i s]&->&Hs)%list_elem_of_fmap.
    apply elem_of_map_to_list in Hs. by exists s. }
  revert Hl. generalize (e_order_ids (fst <$> map_to_list (m_sessions m))). intros l.
  induction l as [|sid l IH]; intros Hl; simpl; [by apply settles_ret|].
  destruct (Hl sid) as [s Hs]; [left|]. destruct (Ho sid s Hs) as (o&Hu&u&Hus).
  eapply (settles_bind _ _ _ (λ x, x = s)); [exists s; split; [unfold get_session, bind, gets; by rewrite Hs|done]|].
  intros ? ->. assert (Hrec : settles m (other_user uid l) (λ _, True)) by (apply IH; intros; apply Hl; by right).
  case_match; [|done]. eapply settles_bind; [by apply settles_deref|]. intros ? ->.
  eapply (settles_bind _ _ _ (λ x, x = u)); [exists u; split; [unfold get_user, bind, gets; by rewrite Hus|done]|].
  intros ? ->. case_match; [by apply settles_ret|done].
Qed.
Lemma settles_verify_blocked m msg a flags k :
  owned m → blocked m (kind_of a) → executable a = true → FLAGS_SET flags SD_LOGIND_SKIP_INHIBITORS = false →
  settles m (verify_shutdown_creds msg a flags k) (λ o, o ≠ Reply).
Proof.
  intros Ho Hb Ha Hf. destruct (executable_row a Ha) as (Hw&_&_&[p Hp]&_).
  unfold verify_shutdown_creds, attempt. cbv zeta. rewrite Hw, Hp.
  destruct (msg_euid msg) as [r|uid]; [by apply settles_ret|].
  eapply settles_bind; [by apply settles_multiple|]. intros multiple _.
  eapply settles_bind; [apply blocked_found; [apply kind_range|done]|]. intros x (Hx&o&Hx2&Hm).
  rewrite Hx, Hx2. cbn [deref].
  assert (Hrefuse : settles m (ret (BusError SD_BUS_ERROR_ACCESS_DENIED)) (λ o, o ≠ Reply)) by by apply settles_ret.
  assert (Hin : settles m (offending <- deref (Some o) ;;
    let weak := bool_decide (i_mode offending = Some INHIBIT_BLOCK_WEAK) in
    if negb (FLAGS_SET flags SD_LOGIND_SKIP_INHIBITORS)
       && (negb weak || ((uid =? 0) && FLAGS_SET flags SD_LOGIND_ROOT_CHECK_INHIBITORS))
    then ret (BusError SD_BUS_ERROR_ACCESS_DENIED)
    else polkit_row_check msg (hd_polkit_action_ignore_inhibit (handle_action_lookup a)) k) (λ o, o ≠ Reply)).
  { eapply settles_bind; [by apply settles_deref|]. intros ? ->. cbv zeta.
    rewrite Hm, bool_decide_false, Hf by done. exact Hrefuse. }
  destruct multiple; [|exact Hin]. unfold polkit_row_check at 1.
  eapply settles_bind; [by apply settles_deref|]. intros ? ->. by apply settles_polkit.
Qed.

(** The action that is chosen is one that can be executed, of the same kind. *)
Definition chosen (action : HandleAction) (r : outcome + HandleAction) : Prop :=
  match r with inl o => o ≠ Reply | inr a => executable a = true ∧ kind_of a = kind_of action end.
Lemma settles_supported m a : executable a = true → HANDLE_ACTION_IS_SLEEP a = true →
  settles m (sleep_supported (hd_sleep_operation (handle_action_lookup a))) (λ _, True).
Proof. destruct a; try done; intros _ _; eexists; done. Qed.
Lemma settles_sleep_select m mask l : (∀ a, a ∈ l → executable a = true ∧ HANDLE_ACTION_IS_SLEEP a = true) →
  settles m (sleep_select mask l) (λ o, ∀ a, o = Some a → executable a = true ∧ HANDLE_ACTION_IS_SLEEP a = true).
Proof.
  induction l as [|a l IH]; intros Hl; simpl; [by apply settles_ret|].
  destruct (Hl a) as [Ha Hs]; [left|]. assert (Hrec := IH (λ b Hb, Hl b (list_elem_of_further b a l Hb))).
  destruct (negb _); [done|]. eapply settles_bind; [by apply settles_supported|]. intros r _.
  destruct (_ <=? 0); [done|]. apply settles_ret. by intros ? [= <-].
Qed.
Lemma settles_select m :
  settles m handle_action_sleep_select
    (λ o, ∀ a, o = Some a → executable a = true ∧ HANDLE_ACTION_IS_SLEEP a = true).
Proof.
  unfold handle_action_sleep_select. eapply settles_bind; [apply settles_gets|]. intros mask _.
  apply settles_sleep_select. intros a Ha. unfold sleep_actions in Ha.
  repeat (apply elem_of_cons in Ha as [->|Ha]; [done|]). by apply elem_of_nil in Ha.
Qed.
Lemma kind_sleep a : HANDLE_ACTION_IS_SLEEP a = true → kind_of a = INHIBIT_SLEEP.
Proof. by destruct a. Qed.
Lemma settles_choose m action flags :
  HANDLE_ACTION_IS_SHUTDOWN action || HANDLE_ACTION_IS_SLEEP action = true →
  settles m (choose_action action flags) (chosen action).
Proof.
  intros Ha. unfold choose_action. case_bool_decide as Es.
  { subst action. eapply settles_bind; [apply settles_select|]. intros [a|] H; apply settles_ret; [|done].
    destruct (H a eq_refl) as [H1 H2]. split; [done|]. by rewrite !kind_sleep. }
  destruct (HANDLE_ACTION_IS_SLEEP action) eqn:Hs.
  - assert (executable action = true) by (unfold executable; rewrite Hs, bool_decide_false by done; apply orb_true_r).
    eapply settles_bind; [by apply settles_supported|]. intros r _. apply settles_ret.
    destruct (_ <? 0); [done|]. by destruct (_ =? 0).
  - rewrite orb_false_r in Ha. apply settles_ret. unfold chosen, executable, kind_of. rewrite Ha.
    destruct (_ && _); [done|]. by rewrite Ha.
Qed.

Lemma settles_execute_blocked m a is_edge :
  blocked m (kind_of a) → executable a = true →
  settles m (handle_action_execute a false is_edge) (λ r, r ≤ 0).
Proof.
  intros Hb Ha. destruct (executable_row a Ha) as (Hw&_).
  unfold handle_action_execute. eapply settles_bind.
  { apply settles_assert. by destruct a. }
  intros _ _. destruct (_ && _); [by apply settles_ret|].
  eapply settles_bind; [apply settles_gets|]. intros s ->.
  destruct (is_some _); [by apply settles_ret|]. cbv zeta. rewrite Hw.
  assert (Hv : inhibit_what_is_valid (kind_of a) = true) by (unfold kind_of; by case_match).
  rewrite Hv. cbn [andb negb]. eapply settles_bind; [apply blocked_found; [apply kind_range|done]|].
  intros x (->&o&->&_). eapply settles_bind; [by apply settles_deref|]. intros _ _.
  apply settles_ret. by destruct is_edge.
Qed.

(** The same for what the keys, the lid and the idle timer call: whichever sleep
    is chosen, it is one that is blocked. *)
Lemma settles_sleep_one_blocked m a is_edge :
  blocked m INHIBIT_SLEEP → executable a = true → HANDLE_ACTION_IS_SLEEP a = true →
  settles m (handle_action_sleep_one a false is_edge) (λ r, r ≤ 0).
Proof.
  intros Hb Ha Hs. unfold handle_action_sleep_one. apply (settles_bind _ _ _ (λ _, True)).
  - unfold handle_action_sleep_supported. apply (settles_bind _ _ _ (λ _, True)).
    { apply settles_assert. by destruct a. }
    intros _ _. eapply settles_bind; [by apply settles_supported|]. intros r _. by apply settles_ret.
  - intros [] _; [apply settles_execute_blocked; [by rewrite kind_sleep|done]|].
    destruct (_ && _); [by apply settles_execute_blocked|by apply settles_ret].
Qed.
Lemma settles_handle_action_blocked m a key is_edge seat :
  links_agree m → blocked m (kind_of a) → HANDLE_ACTION_IS_SHUTDOWN a || HANDLE_ACTION_IS_SLEEP a = true →
  key < _INHIBIT_WHAT_MAX →
  settles m (manager_handle_action key a false is_edge seat) (λ r, r ≤ 0).
Proof.
  intros Hl Hb Ha Hk. unfold manager_handle_action.
  rewrite bool_decide_false by (intros ->; done). eapply settles_bind; [apply settles_gets|]. intros s _.
  destruct (_ && _); [by apply settles_ret|]. apply (settles_bind _ _ _ (λ _, True)).
  { destruct (Z.ltb_spec 0 key); [|by apply settles_ret].
    destruct (inhibition_spec key true true false 0 m ltac:(lia) (λ _, Hl)) as (b&ts&off&H'&_).
    by exists (b, ts, off). }
  intros x _. destruct (x.1.1); [by apply settles_ret|].
  rewrite !bool_decide_false by (intros ->; done).
  destruct (HANDLE_ACTION_IS_SLEEP a) eqn:Es.
  - rewrite kind_sleep in Hb by done. unfold handle_action_sleep_execute.
    apply (settles_bind _ _ _ (λ _, True)); [by apply settles_assert|]. intros _ _. case_bool_decide as E1.
    + eapply settles_bind; [apply settles_select|]. intros [a'|] Ha'; [|by apply settles_ret].
      destruct (Ha' a' eq_refl). by apply settles_sleep_one_blocked.
    + apply settles_sleep_one_blocked; [done| |done]. unfold executable. by rewrite Es, bool_decide_false, orb_true_r.
  - rewrite orb_false_r in Ha. apply settles_execute_blocked; [done|]. unfold executable. by rewrite Ha.
Qed.

Lemma settles_ignore {A} m (c : MM A) P : settles m c P → ignore c m = Some (tt, m).
Proof. intros (a&Ha&_). unfold ignore, bind. by rewrite Ha. Qed.

(** C17: a block holds: while a started inhibitor blocks shutdown (or sleep), no
    such action is executed by a caller that heeds inhibitors, and nothing
    changes: not by manager_handle_action() without ignore_inhibited, as the idle
    timer calls it; not by a key or the lid whose IgnoreInhibited= setting is off
    (for the lid it is on by default, and then the lid passes the block); and a
    D-Bus request of whatever caller, root included, that does not ask to skip
    inhibitors is answered, but not with success. *)
Theorem block_inhibitors_hold m action :
  links_agree m → blocked m (kind_of action) →
  HANDLE_ACTION_IS_SHUTDOWN action || HANDLE_ACTION_IS_SLEEP action = true →
  (∀ key is_edge seat, key < _INHIBIT_WHAT_MAX →
     ∃ r, manager_handle_action key action false is_edge seat m = Some (r, m) ∧ r ≤ 0) ∧
  (∀ k seat, key_ignore_inhibited k (m_conf m) = false → key_action k action seat m = Some (tt, m)) ∧
  (∀ is_edge seat, c_lid_switch_ignore_inhibited (m_conf m) = false → lid_action m = action →
     button_lid_switch_handle_action is_edge seat m = Some (tt, m)) ∧
  (∀ arg flags msg, sleep_flags action arg = inr flags → FLAGS_SET flags SD_LOGIND_SKIP_INHIBITORS = false →
     ∃ o, method_do_shutdown_or_sleep action arg msg m = Some (o, m) ∧ o ≠ Reply).
Proof.
  intros Hl Hb Ha. split_and!.
  - intros key is_edge seat Hk. by apply settles_handle_action_blocked.
  - intros k seat Hi. unfold key_action, bind, gets. rewrite Hi.
    eapply settles_ignore, settles_handle_action_blocked; [done..|]. by destruct k.
  - intros is_edge seat Hi Hact. unfold button_lid_switch_handle_action, bind, gets. rewrite Hi, Hact.
    by eapply settles_ignore, settles_handle_action_blocked.
  - intros arg flags msg Hf Hs. unfold method_do_shutdown_or_sleep.
    apply (settles_bind _ _ _ (λ _, True)); [by apply settles_assert|]. intros _ _. rewrite Hf.
    apply (settles_bind _ _ _ (λ r, r = inr flags)); [by apply settles_ret|]. intros ? ->.
    eapply settles_bind; [by apply settles_choose|]. intros [o|a] Hc; [by apply settles_ret|].
    destruct Hc as [Hx Hk]. apply settles_verify_blocked; [|by rewrite Hk|done..].
    intros sid s Hsid. destruct (session_has_user _ Hl sid s Hsid) as (uid&u&Hu&Hus&_). exists uid. by split.
Qed.

(** * Delays *)

(** A started inhibitor delays the operation. *)
Definition delaying (m : manager) (w : Z) : Prop :=
  ∃ id i, m_inhibitors m !! id = Some i ∧ i_started i = true ∧ i_mode i = Some INHIBIT_DELAY ∧
          Z.land (i_what i) w ≠ 0.
Lemma applies_delay m w i : applies m w false false false 0 i = true ↔
  i_started i = true ∧ i_mode i = Some INHIBIT_DELAY ∧ Z.land (i_what i) w ≠ 0.
Proof.
  unfold applies, counts, weak_and_own. rewrite andb_false_r. cbn. rewrite andb_true_r.
  rewrite !andb_true_iff, negb_true_iff, Z.eqb_neq, bool_decide_eq_true. tauto.
Qed.
Lemma is_delayed_spec m a : executable a = true →
  ∃ b, is_delayed a m = Some (b, m) ∧ (b = true ↔ delaying m (kind_of a)).
Proof.
  intros Ha. destruct (executable_row a Ha) as (Hw&_). unfold is_delayed. rewrite Hw.
  destruct (inhibition_spec (kind_of a) false false false 0 m (kind_range a) ltac:(done)) as (b&ts&off&H&H1&_).
  exists b. split; [unfold bind; by rewrite H|]. rewrite H1. unfold delaying.
  split; intros (id&i&Hi&Hx); exists id, i; (split; [done|]); by apply (applies_delay m).
Qed.
Lemma delay_runs m a :
  0 ≤ e_event_add "inhibit-timeout" → 0 ≤ e_event_set_time → 0 < c_inhibit_delay_max (m_conf m) →
  delay_shutdown_or_sleep a m =
    Some (0, m <| m_act := ((m_act m)
       <| a_inhibit_timeout_source := Some (mkTimer (usec_add e_now_monotonic (c_inhibit_delay_max (m_conf m))) true) |>
       <| a_delayed_action := Some a |>) |>).
Proof.
  intros He Hs Hm. unfold delay_shutdown_or_sleep, bind, gets, event_reset_time_relative, event_reset_time.
  rewrite (proj2 (Z.ltb_lt _ _) Hm). apply Z.ltb_ge in He, Hs. rewrite He, Hs.
  by destruct (a_inhibit_timeout_source (m_act m)).
Qed.
Lemma set_lid_switch_ends m t : ∃ r m', manager_set_lid_switch_ignore t m = Some (r, m') ∧ m_trace m' = m_trace m.
Proof.
  unfold manager_set_lid_switch_ignore, bind, gets. destruct (_ <=? _); [by eexists _, _|].
  destruct (a_lid_switch_ignore_event_source _) as [t'|].
  - destruct (_ <=? _); [by eexists _, _|]. destruct (_ <? 0); by eexists _, _.
  - destruct (_ <? 0); by eexists _, _.
Qed.
(** Without another child the action is executed: its process is forked. *)
Lemma execute_runs m a pid : executable a = true →
  a_action_job (m_act m) = None → a_sleep_fork_action (m_act m) = None →
  e_fork ("e-" +:+ or_null (to_string a)) = inr pid →
  ∃ m', execute_shutdown_or_sleep a m = Some (0, m') ∧ Forked a ∈ m_trace m'.
Proof.
  intros Ha Hj Hf He. destruct (executable_row a Ha) as (Hw&Hh&_). pose proof (kind_range a) as Hk.
  unfold execute_shutdown_or_sleep, elogind_execute_shutdown_or_sleep, bind at 1, gets at 1. rewrite Hj. cbn [is_some negb assert_se].
  unfold bind at 1, ret at 1. rewrite Hf, Hw, Hh. cbn [is_some]. unfold bind at 1.
  rewrite (proj2 (Z.leb_le 0 (kind_of a))), (proj2 (Z.ltb_lt _ _)) by lia.
  cbn [assert_se]. rewrite He.
  destruct (in_set a _); cbn; unfold bind, gets, upd_act, modify, ignore, bind; cbn;
    match goal with |- context [manager_set_lid_switch_ignore ?t ?m0] =>
      destruct (set_lid_switch_ends m0 t) as (r&m'&->&Ht) end;
    (eexists; split; [done|]); rewrite Ht; cbn; apply elem_of_app; right; left.
Qed.

(** The state when the action waits. *)
Definition waiting (m : manager) (a : HandleAction) : Prop :=
  a_delayed_action (m_act m) = Some a ∧ a_action_job (m_act m) = None ∧ a_sleep_fork_action (m_act m) = None.
Lemma announce_ends b m a : executable a = true →
  ∃ m', when b (send_prepare_for a true) m = Some (tt, m') ∧ m_act m' = m_act m ∧ m_conf m' = m_conf m ∧
    m_inhibitors m' = m_inhibitors m ∧ ∀ a', Forked a' ∈ m_trace m' → Forked a' ∈ m_trace m.
Proof.
  intros Ha. destruct b; [|by eexists]. destruct (executable_row a Ha) as (Hw&_). cbn [when].
  unfold send_prepare_for. cbv zeta. rewrite Hw. unfold kind_of.
  destruct (HANDLE_ACTION_IS_SHUTDOWN a); eexists; (split; [reflexivity|]); (split_and!; [done..|]);
    intros a'; cbn; rewrite ?elem_of_app, ?list_elem_of_singleton; intuition congruence.
Qed.

Lemma dispatch_waiting m a b timeout : waiting m a → is_delayed a m = Some (b, m) →
  manager_dispatch_delayed timeout m =
  if b && negb timeout then Some (0, m)
  else (r <- execute_shutdown_or_sleep a ;;
        when (r <? 0) (upd_act (λ s, s <| a_delayed_action := None |>)) ;;; ret 1) m.
Proof.
  intros (W1&W2&_) Hb. unfold manager_dispatch_delayed, bind, gets. rewrite W1, W2. cbn [is_some]. rewrite Hb.
  by destruct (b && negb timeout).
Qed.

(** C18: a delay inhibitor delays, and no longer than it may: while one is
    held, an action that is to be executed is put off - nothing is forked, and
    the timer is set to InhibitDelayMaxSec= - and the main loop leaves it waiting;
    once no such inhibitor is left, or when the timer fires, the action is
    executed. *)
Theorem delay_inhibitors_delay m a interrupts :
  executable a = true → delaying m (kind_of a) → a_action_job (m_act m) = None →
  a_sleep_fork_action (m_act m) = None → 0 < c_inhibit_delay_max (m_conf m) → e_sleep_config = inr interrupts →
  0 ≤ e_event_add "inhibit-timeout" → 0 ≤ e_event_set_time →
  ∃ m1, bus_manager_shutdown_or_sleep_now_or_later a m = Some (0, m1) ∧ waiting m1 a ∧
    a_inhibit_timeout_source (m_act m1) =
      Some (mkTimer (usec_add e_now_monotonic (c_inhibit_delay_max (m_conf m))) true) ∧
    (∀ a', Forked a' ∈ m_trace m1 → Forked a' ∈ m_trace m) ∧
    ∀ m2 timeout, waiting m2 a →
      (timeout = false → delaying m2 (kind_of a) → manager_dispatch_delayed timeout m2 = Some (0, m2)) ∧
      (∀ pid, timeout = true ∨ ¬ delaying m2 (kind_of a) → e_fork ("e-" +:+ or_null (to_string a)) = inr pid →
        ∃ m3, manager_dispatch_delayed timeout m2 = Some (1, m3) ∧ Forked a ∈ m_trace m3).
Proof.
  intros Ha Hd Hj Hf Hm Hc He Hs. destruct interrupts as [p q].
  unfold bus_manager_shutdown_or_sleep_now_or_later, bind at 1, gets at 1. rewrite Hj, Hc. cbn [is_some negb assert_se].
  unfold bind at 1, ret at 1. cbv zeta.
  match goal with |- context [when ?b (send_prepare_for a true)] =>
    destruct (announce_ends b m a Ha) as (m0&E0&A0&C0&I0&T0) end.
  unfold bind at 1. rewrite E0. unfold bind at 1, gets at 1. rewrite C0, (proj2 (Z.ltb_lt _ _) Hm).
  destruct (is_delayed_spec m0 a Ha) as (b&Eb&Hb).
  assert (b = true) as -> by (apply Hb; unfold delaying; by rewrite I0).
  unfold bind at 1. rewrite Eb, delay_runs by (rewrite ?C0; done).
  eexists. split; [done|]. rewrite C0. split_and!; [| |exact T0|].
  { split_and!; [done|by cbn; rewrite A0|by cbn; rewrite A0]. }
  { done. }
  intros m2 timeout W. destruct (is_delayed_spec m2 a Ha) as (b&Eb2&Hb2). rewrite (dispatch_waiting _ _ _ _ W Eb2). split.
  - intros -> H. by rewrite (proj2 Hb2 H).
  - intros pid H Hp. destruct W as (_&W2&W3). destruct (execute_runs m2 a pid Ha W2 W3 Hp) as (m3&E3&T3).
    exists m3. split; [|done]. assert (b && negb timeout = false) as ->.
    { destruct H as [->|H]; [apply andb_false_r|]. destruct b; [|done]. by destruct H; apply Hb2. }
    unfold bind. by rewrite E3.
Qed.

(** * When the child ends *)

(** The action [a] is being executed by a child. *)
Definition executing (m : manager) (a : HandleAction) : Prop :=
  a_delayed_action (m_act m) = Some a ∧ is_Some (a_action_job (m_act m)) ∧
  a_sleep_fork_action (m_act m) = Some a ∧ 0 < a_sleep_fork_pid (m_act m).
Lemma busy_refuses m b is_edge ignored : is_some (a_delayed_action (m_act m)) = true →
  executable b = true → b ≠ HANDLE_KEXEC → handle_action_execute b ignored is_edge m = Some (- EALREADY, m).
Proof.
  intros Hd Hb Hk. unfold handle_action_execute, bind at 1. rewrite bool_decide_false by done.
  assert (in_set b [HANDLE_IGNORE; HANDLE_LOCK; HANDLE_SLEEP] = false) as -> by by destruct b.
  cbn [negb assert_se andb]. unfold ret at 1, bind, gets. by rewrite Hd.
Qed.

Lemma when_upd b f m :
  when b (upd_act f) m = Some (tt, if b then m <| m_act := f (m_act m) |> else m).
Proof. by destruct b. Qed.

(** C36: what SIGCHLD ends: while an action is being executed, the signal ends
    a sleep - its end is announced, and the daemon is ready for the next action,
    whether or not it is the child that ended - but no shutdown: if its child
    gives up, the daemon stays busy and refuses every further action as being in
    progress (kexec apart, whose tool the code looks for first). *)
Theorem sigchld_ends_sleep_only m a :
  executable a = true → executing m a → e_event_finished = false →
  ∃ m', elogind_sigchld_handler m = Some (0, m') ∧
    (HANDLE_ACTION_IS_SLEEP a = true → a_delayed_action (m_act m') = None ∧ a_action_job (m_act m') = None ∧
       a_sleep_fork_action (m_act m') = None ∧ PrepareForSleep false ∈ m_trace m') ∧
    (HANDLE_ACTION_IS_SHUTDOWN a = true → a_delayed_action (m_act m') = Some a ∧
       is_Some (a_action_job (m_act m')) ∧ manager_dispatch_delayed false m' = Some (0, m') ∧
       ∀ b is_edge ignored, executable b = true → b ≠ HANDLE_KEXEC →
         handle_action_execute b ignored is_edge m' = Some (- EALREADY, m')).
Proof.
  intros Ha (Hd&[j Hj]&Hf&Hp) He. unfold elogind_sigchld_handler. rewrite He. unfold bind at 1, gets at 1.
  cbv zeta. unfold bind at 1. rewrite when_upd by done.
  match goal with |- context [if ?b then m <| m_act := _ |> else m] =>
    set (m0 := if b then m <| m_act := (m_act m) <| a_tool_fork_pid := 0 |> |> else m);
    assert (H0 : executing m0 a) by (unfold m0; destruct b; split_and!; try done; by exists j) end.
  clearbody m0. rewrite Hf, (proj2 (Z.ltb_lt _ _) Hp). unfold bind at 1. rewrite when_upd by done.
  match goal with |- context [if ?b then m0 <| m_act := _ |> else m0] =>
    set (m1 := if b then m0 <| m_act := (m_act m0) <| a_sleep_fork_pid := 0 |> |> else m0);
    assert (H1 : a_delayed_action (m_act m1) = Some a ∧ is_Some (a_action_job (m_act m1))
      ∧ a_sleep_fork_action (m_act m1) = Some a)
      by (destruct H0 as (?&?&?&?); unfold m1; destruct b; split_and!; done) end.
  clearbody m1. destruct H1 as (D1&[j' J1]&F1). destruct (executable_row a Ha) as (Hw&_).
  destruct (HANDLE_ACTION_IS_SLEEP a) eqn:Es.
  - assert (is_some (hd_sleep_operation (handle_action_lookup a)) = true) as -> by by destruct a.
    unfold send_prepare_for. rewrite Hw, (kind_sleep a Es). eexists. split; [reflexivity|]. split.
    + intros _. split_and!; [done..|]. cbn. apply elem_of_app. right. by left.
    + by destruct a.
  - assert (is_some (hd_sleep_operation (handle_action_lookup a)) = false) as -> by by destruct a.
    exists m1. split_and!; [done|done|]. intros _. split_and!; [done|by exists j'| |].
    + unfold manager_dispatch_delayed, bind, gets. by rewrite D1, J1.
    + intros b is_edge ignored Hb Hk. apply busy_refuses; [by rewrite D1|done..].
Qed.
End Power.

Lemma sample_blocked : blocked sample_inhibited INHIBIT_SHUTDOWN.
Proof.
  assert (H : match m_inhibitors sample_inhibited !! "1"%string with
    | Some i => i_started i && bool_decide (i_mode i = Some INHIBIT_BLOCK)
                && negb (Z.land (i_what i) INHIBIT_SHUTDOWN =? 0)
    | None => false end = true) by (vm_compute; reflexivity).
  destruct (m_inhibitors sample_inhibited !! "1"%string) as [i|] eqn:Hi; [|done].
  apply andb_prop in H as [[H1 H2]%andb_prop H3]. exists "1"%string, i. split_and!; [done|done| |].
  - by apply bool_decide_eq_true in H2.
  - apply negb_true_iff, Z.eqb_neq in H3. exact H3.
Qed.
Lemma block_inhibitors_hold_witness :
  (∃ r, @manager_handle_action sample_env 0 HANDLE_POWEROFF false true None sample_inhibited = Some (r, sample_inhibited) ∧ r ≤ 0) ∧
  @key_action sample_env PowerKey HANDLE_POWEROFF None sample_inhibited = Some (tt, sample_inhibited) ∧
  (∃ o, @method_do_shutdown_or_sleep sample_env HANDLE_POWEROFF (inr 0) root_message sample_inhibited =
    Some (o, sample_inhibited) ∧ o ≠ Reply).
Proof.
  destruct (block_inhibitors_hold (Ok := sample_env_ok) sample_inhibited HANDLE_POWEROFF) as (H1&H2&_&H4).
  - apply sample_inhibited_links.
  - apply sample_blocked.
  - reflexivity.
  - split_and!; [apply H1; reflexivity|apply H2; vm_compute; reflexivity|by apply (H4 (inr 0) 0)].
Defined.

(** A player delays sleep, nobody blocks it. *)
Definition sample_delayed : manager :=
  after (@method_inhibit sample_env "sleep" "player" "pause first" "delay" root_message) sample_started.
Lemma sample_delaying : delaying sample_delayed INHIBIT_SLEEP.
Proof.
  assert (H : match m_inhibitors sample_delayed !! "1"%string with
    | Some i => i_started i && bool_decide (i_mode i = Some INHIBIT_DELAY)
                && negb (Z.land (i_what i) INHIBIT_SLEEP =? 0)
    | None => false end = true) by (vm_compute; reflexivity).
  destruct (m_inhibitors sample_delayed !! "1"%string) as [i|] eqn:Hi; [|done].
  apply andb_prop in H as [[H1 H2]%andb_prop H3]. exists "1"%string, i. split_and!; [done|done| |].
  - by apply bool_decide_eq_true in H2.
  - apply negb_true_iff, Z.eqb_neq in H3. exact H3.
Qed.
Lemma delay_inhibitors_delay_witness :
  ∃ m1, @bus_manager_shutdown_or_sleep_now_or_later sample_env HANDLE_SUSPEND sample_delayed = Some (0, m1) ∧
    waiting m1 HANDLE_SUSPEND ∧ ∃ m3, @manager_dispatch_delayed sample_env true m1 = Some (1, m3) ∧
    Forked HANDLE_SUSPEND ∈ m_trace m3.
Proof.
  destruct (delay_inhibitors_delay (Ok := sample_env_ok) sample_delayed HANDLE_SUSPEND (false, false))
    as (m1&H1&H2&_&_&H3); [reflexivity|apply sample_delaying|vm_compute; reflexivity..
      |vm_compute; congruence|vm_compute; congruence|].
  exists m1. split_and!; [done|done|]. by apply (proj2 (H3 m1 true H2) 400); [left|].
Defined.

Definition sample_halting : manager :=
  after (@handle_action_execute sample_env HANDLE_HALT true true) sample_started.
Lemma sigchld_ends_sleep_only_witness :
  ∃ m', @elogind_sigchld_handler sample_env sample_halting = Some (0, m') ∧
    a_delayed_action (m_act m') = Some HANDLE_HALT ∧
    @handle_action_execute sample_env HANDLE_POWEROFF true true m' = Some (- EALREADY, m').
Proof.
  destruct (@sigchld_ends_sleep_only sample_env sample_halting HANDLE_HALT) as (m'&H1&_&H2).
  - reflexivity.
  - split_and!; [reflexivity|by eexists|reflexivity|vm_compute; reflexivity].
  - reflexivity.
  - destruct (H2 eq_refl) as (H3&_&_&H4). exists m'. split_and!; [done|done|]. by apply H4.
Defined.

(** * The default settings *)

#[local] Open Scope string_scope.
#[local] Open Scope Z_scope.
Section Defaults.
Context {E : Env}.

(** The settings are in their range after every reset, whatever they were:
    the limits leave room for a position and for an inhibitor, and no key, lid
    or timer is for the action that nothing executes; so the daemon starts and
    is reloaded with settings that the loop can run with. *)
Theorem reset_settings_are_sane c : sane (manager_reset_config c).
Proof. split; [done|split; [|done]]. cbn. set_unfold. intuition discriminate. Qed.

Lemma sleep_select_none l m : Forall (λ a, action_enabled 0 a = false) l → sleep_select 0 l m = Some (None, m).
Proof. induction 1 as [|a l Ha _ IH]; [done|]. cbn [sleep_select]. by rewrite Ha. Qed.
Lemma no_sleep_action m : m_conf m = default_config → handle_action_sleep_select m = Some (None, m).
Proof.
  intros Hm. unfold handle_action_sleep_select, bind, gets. rewrite Hm. apply sleep_select_none.
  apply (bool_decide_unpack _). vm_compute. exact I.
Qed.

(** C39: with the default settings there is no Sleep: whatever the machine
    supports, CanSleep says "na" and Sleep is refused, and reading the settings
    again changes nothing about that, as manager_reset_config() never sets the
    mask of sleep operations. *)
Theorem default_sleep_unsupported m msg test arg flags :
  m_conf m = default_config → sleep_flags HANDLE_SLEEP arg = inr flags →
  method_can_shutdown_or_sleep HANDLE_SLEEP test msg m = Some (ReplyString "na", m) ∧
  method_do_shutdown_or_sleep HANDLE_SLEEP arg msg m = Some (BusError BUS_ERROR_SLEEP_VERB_NOT_SUPPORTED, m) ∧
  manager_reset_config (m_conf m) = m_conf m.
Proof.
  intros Hm Hf. pose proof (no_sleep_action m Hm) as Hs. split_and!.
  - unfold method_can_shutdown_or_sleep. rewrite bool_decide_true by done. unfold bind.
    change (assert_se _ m) with (Some (tt, m)). cbv beta iota. by rewrite Hs.
  - unfold method_do_shutdown_or_sleep, try, choose_action. rewrite Hf, bool_decide_true by done. unfold bind.
    change (assert_se _ m) with (Some (tt, m)). cbv beta iota delta [ret]. by rewrite Hs.
  - rewrite Hm. unfold default_config. by vm_compute.
Qed.
End Defaults.

(** A machine that supports every sleep operation. *)
Lemma default_sleep_unsupported_witness :
  let m := sample_started <| m_conf := @default_config sample_env |> in
  @method_can_shutdown_or_sleep sample_env HANDLE_SLEEP (λ _, (1, false)) root_message m = Some (ReplyString "na", m) ∧
  @method_do_shutdown_or_sleep sample_env HANDLE_SLEEP (inl false) root_message m =
    Some (BusError BUS_ERROR_SLEEP_VERB_NOT_SUPPORTED, m) ∧
  @manager_reset_config sample_env (m_conf m) = m_conf m.
Proof. intros m. by eapply (default_sleep_unsupported m). Defined.
