(* ===== verification/ScheduleFacts.v ===== *)
(** The schedule of a shutdown: what a restarted daemon knows of it, and when
    warnings are given. *)
From Stdlib Require Import Ascii Sorted.
From stdpp Require Import pretty.
From S2P Require Import Prelude Time LoginTypes ActionTypes LoginState LoginEnv Escape Parse EnvFile EnvFileFacts Bus Objects Session SessionBus ManagerBus Inhibit Wall Power Schedule Sample.
#[local] Open Scope string_scope.
#[local] Open Scope Z_scope.
#[local] Open Scope list_scope.

(** * The file *)

(** A file of items without a comment at its head. *)
Lemma parse_env_file_plain its :
  Forall item_ok its →
  parse_env_file (items its) = (0, λ key, last_value key (reverse (value_read <$> its))).
Proof.
  intros H. rewrite <-(parse_env_file_items its H). unfold parse_env_file.
  destruct (env_loop_header (items its)) as (e&->&He).
  assert (He0 : between [] env_parser0) by done.
  assert (Hb : ∀ e, between [] e → between (reverse (value_read <$> its) ++ []) (env_loop (items its) e)).
  { intros e' He'. apply env_loop_items; [|done]. eapply Forall_impl; [exact H|]. by intros kv (?&?&_). }
  destruct (Hb _ He) as (Hs&_&_&Hp), (Hb _ He0) as (Hs0&_&_&Hp0). unfold env_finish. by rewrite Hs, Hs0, Hp, Hp0.
Qed.

Lemma is_digit_plain c : ascii_isdigit c = true →
  (line_charb c && negb (bool_decide (c = backslash)) = true) ∧ is_white c = false ∧
  in_set c [squote; dquote] = false ∧ code c < 128.
Proof. destruct c as [[] [] [] [] [] [] [] []]; done. Qed.
Lemma digits_simple k v :
  simple_item (k, "0") = true → v ≠ "" → string_forallb ascii_isdigit v = true → simple_item (k, v) = true.
Proof.
  unfold simple_item. cbn [fst snd]. intros [[[[[[-> ->]%andb_prop _]%andb_prop _]%andb_prop _]%andb_prop ->]%andb_prop _]%andb_prop.
  cbn [andb]. intros Hne H.
  assert (Hu : utf8_is_valid v = true).
  { apply utf8_ascii. unfold ascii_text. clear Hne. induction v as [|c v IH]; [done|]. cbn in *.
    apply andb_prop in H as [Hc H]. apply is_digit_plain in Hc as (_&_&_&Hc). rewrite (proj2 (Z.ltb_lt _ _) Hc). by apply IH. }
  assert (Hh : head_is (λ c, is_white c || in_set c [squote; dquote]) v = false).
  { destruct v as [|c v]; [done|]. cbn in *. apply andb_prop in H as [(_&->&Hq&_)%is_digit_plain _]. exact Hq. }
  assert (He : string_forallb (λ c, line_charb c && negb (bool_decide (c = backslash))) v = true ∧ not_white v = true).
  { clear Hne Hu Hh. unfold not_white. induction v as [|c v IH]; [done|]. cbn in *.
    apply andb_prop in H as [(->&->&_)%is_digit_plain H]. by apply IH. }
  destruct He as [-> Hw]. by rewrite (not_white_ends v Hw), Hh, Hu.
Qed.
Lemma number_item k z : simple_item (k, "0") = true → 0 ≤ z → item_ok (k, pretty z).
Proof. intros Hk Hz. destruct (pretty_digits z Hz). apply simple_item_ok. by apply digits_simple. Qed.

(** What can be said of a schedule to be saved: numbers in range, a terminal
    name without special characters, a message that does not begin with a quote,
    and no line too long. *)
Record saved_ok (a : actions) : Prop := {
  so_timeout : 0 ≤ a_scheduled_shutdown_timeout a < USEC_INFINITY;
  so_uid : 0 ≤ a_scheduled_shutdown_uid a ≤ UINT_MAX ∧ uid_is_valid (a_scheduled_shutdown_uid a) = true;
  so_tty : ∀ t, a_scheduled_shutdown_tty a = Some t → t ≠ "" ∧ simple_item ("TTY", t) = true ∧
                Z.of_nat (String.length t) < LONG_LINE_MAX - 5;
  so_wall : ∀ w, a_wall_message a = Some w → head_is (λ c, in_set c [squote; dquote]) w = false ∧
                Z.of_nat (String.length (xescape w [" "%char])) < LONG_LINE_MAX - 14;
}.

Lemma serialize_short k v :
  Z.of_nat (String.length v) < LONG_LINE_MAX - Z.of_nat (String.length k) - 1 →
  serialize_item k (Some v) = (1, [(k, v)]).
Proof. intros H. unfold serialize_item. destruct (Z.ltb_spec LONG_LINE_MAX (Z.of_nat (String.length k + 1 + String.length v + 1))); [lia|done]. Qed.

Definition plain_lines (a : actions) (action : HandleAction) : list (string * string) :=
  [("USEC", pretty (a_scheduled_shutdown_timeout a));
   ("WARN_WALL", one_zero (a_enable_wall_messages a));
   ("MODE", or_null (to_string action));
   ("UID", pretty (a_scheduled_shutdown_uid a))].
Definition tty_lines (a : actions) : list (string * string) :=
  match a_scheduled_shutdown_tty a with Some t => [("TTY", t)] | None => [] end.
Definition wall_lines (a : actions) : list (string * string) :=
  if isempty (default "" (a_wall_message a)) then []
  else [("WALL_MESSAGE", xescape (default "" (a_wall_message a)) [" "%char])].
Lemma schedule_lines_eq a action :
  saved_ok a → ∃ r, schedule_lines a action = (r, plain_lines a action ++ tty_lines a ++ wall_lines a) ∧ 0 ≤ r.
Proof.
  intros [Ht [Hu _] Htty Hw]. unfold schedule_lines.
  assert (Hl : ∀ z, 0 ≤ z ≤ UINT64_MAX → Z.of_nat (String.length (pretty z)) < LONG_LINE_MAX - 20).
  { intros z Hz. pose proof (pretty_length z Hz). unfold LONG_LINE_MAX. lia. }
  assert (H1 : serialize_usec "USEC" (a_scheduled_shutdown_timeout a) = (1, [("USEC", pretty (a_scheduled_shutdown_timeout a))])).
  { unfold serialize_usec. destruct (Z.eqb_spec (a_scheduled_shutdown_timeout a) USEC_INFINITY); [lia|].
    apply serialize_short. specialize (Hl (a_scheduled_shutdown_timeout a)). cbn [String.length].
    unfold USEC_INFINITY, UINT64_MAX in *. lia. }
  assert (H2 : serialize_item "UID" (Some (pretty (a_scheduled_shutdown_uid a))) = (1, [("UID", pretty (a_scheduled_shutdown_uid a))])).
  { apply serialize_short. specialize (Hl (a_scheduled_shutdown_uid a)). cbn [String.length].
    unfold UINT_MAX, UINT64_MAX in *. lia. }
  assert (H3 : (serialize_item "TTY" (a_scheduled_shutdown_tty a)).2 = tty_lines a).
  { unfold tty_lines. destruct (a_scheduled_shutdown_tty a) as [t|]; [|done].
    destruct (Htty t eq_refl) as (_&_&?). by rewrite serialize_short by (cbn; lia). }
  assert (H4 : serialize_item "MODE" (Some (or_null (to_string action))) = (1, [("MODE", or_null (to_string action))])).
  { by destruct action. }
  assert (H5 : serialize_item "WARN_WALL" (Some (one_zero (a_enable_wall_messages a))) = (1, [("WARN_WALL", one_zero (a_enable_wall_messages a))])).
  { by destruct (a_enable_wall_messages a). }
  rewrite H1, H2, H3, H4, H5. unfold wall_lines, serialize_item_escaped.
  destruct (a_wall_message a) as [w|] eqn:Ew; [|exists 0; split; [reflexivity|lia]].
  change (default "" (Some w)) with w. destruct (isempty w); [exists 0; split; [reflexivity|lia]|]. destruct (Hw w eq_refl) as [_ Hlen].
  rewrite serialize_short by (cbn [String.length]; lia). exists 1. split; [reflexivity|lia].
Qed.

Lemma schedule_lines_ok a action : saved_ok a → Forall item_ok (plain_lines a action ++ tty_lines a ++ wall_lines a).
Proof.
  intros [Ht [Hu _] Htty Hw]. unfold plain_lines. cbn [app].
  constructor; [apply number_item; [reflexivity|lia]|].
  constructor; [apply simple_item_ok; by destruct (a_enable_wall_messages a)|].
  constructor; [apply simple_item_ok; by destruct action|].
  constructor; [apply number_item; [reflexivity|lia]|]. apply Forall_app. split.
  - unfold tty_lines. destruct (a_scheduled_shutdown_tty a) as [t|]; [|constructor].
    destruct (Htty t eq_refl) as (_&?&_). constructor; [by apply simple_item_ok|constructor].
  - unfold wall_lines. destruct (a_wall_message a) as [w|]; [|constructor]. change (default "" (Some w)) with w.
    destruct (isempty w); constructor; [|constructor]. destruct (Hw w eq_refl) as [Hq _].
    split_and!; [eexists _, _; split_and!; [reflexivity|reflexivity|by apply key_text_simple]|by apply value_ok_xescape|done|].
    cbn [fst snd]. rewrite unbackslash_xescape. apply utf8_ascii, garbled_ascii.
Qed.

(** * Loading it *)

(** What the daemon means to do, and when. *)
Definition plan (a : actions) :=
  (a_scheduled_shutdown_action a, a_scheduled_shutdown_timeout a, a_enable_wall_messages a,
   a_scheduled_shutdown_uid a, a_scheduled_shutdown_tty a, a_wall_message a, a_shutdown_dry_run a).
(** The computation ends, and leaves the plan alone. *)
Definition keeps_plan {A} (c : MM A) : Prop :=
  ∀ m, ∃ a m', c m = Some (a, m') ∧ plan (m_act m') = plan (m_act m).

Lemma keeps_ret {A} (a : A) : keeps_plan (ret a).
Proof. intros m. by exists a, m. Qed.
Lemma keeps_bind {A B} (c : MM A) (k : A → MM B) : keeps_plan c → (∀ a, keeps_plan (k a)) → keeps_plan (bind c k).
Proof.
  intros Hc Hk m. destruct (Hc m) as (a&m1&H1&Hp1), (Hk a m1) as (b&m2&H2&Hp2).
  exists b, m2. split; [unfold bind; by rewrite H1|congruence].
Qed.
Lemma keeps_gets {A} (f : manager → A) : keeps_plan (gets f).
Proof. intros m. by exists (f m), m. Qed.
Lemma keeps_emit ev : keeps_plan (emit ev).
Proof. intros m. by eexists _, _. Qed.
Lemma keeps_upd f : (∀ a, plan (f a) = plan a) → keeps_plan (upd_act f).
Proof. intros H m. eexists _, _. split; [done|]. apply H. Qed.
Lemma keeps_when b (c : MM unit) : keeps_plan c → keeps_plan (when b c).
Proof. destruct b; [done|]. intros _. apply keeps_ret. Qed.
Create HintDb plan.
#[local] Hint Resolve keeps_ret keeps_gets keeps_emit keeps_when : plan.
#[local] Hint Extern 2 (keeps_plan (upd_act _)) => apply keeps_upd; intros; reflexivity : plan.
Ltac keeps :=
  repeat first
    [apply keeps_bind; [|intros]
    |match goal with |- keeps_plan (if ?b then _ else _) => destruct b end
    |match goal with |- keeps_plan (match ?o with Some _ => _ | None => _ end) => destruct o end
    |match goal with |- keeps_plan (let '(_, _) := ?p in _) => destruct p end
    |solve [auto with plan]].

Section Load.
Context {E : Env}.
Lemma keeps_warn_wall n : keeps_plan (warn_wall n).
Proof. unfold warn_wall. keeps. Qed.
#[local] Hint Resolve keeps_warn_wall : plan.
Lemma keeps_wall_timer : keeps_plan manager_setup_wall_message_timer.
Proof. unfold manager_setup_wall_message_timer. keeps. Qed.
Lemma keeps_shutdown_timers : keeps_plan manager_setup_shutdown_timers.
Proof. unfold manager_setup_shutdown_timers. keeps. Qed.

(** The variables after reading the file. *)
Definition file_of (a : actions) (action : HandleAction) (key : string) : option string :=
  last_value key (reverse (value_read <$> plain_lines a action ++ tty_lines a ++ wall_lines a)).
Lemma read_simple k v : v ≠ "" → simple_item (k, v) = true → read_value v = Some v.
Proof.
  intros Hv. unfold simple_item. intros [[[[[_ H]%andb_prop _]%andb_prop _]%andb_prop _]%andb_prop _]%andb_prop.
  destruct (line_text_simple _ H) as [_ Hb]. destruct v; [done|]. cbn [read_value]. by rewrite unbackslash_id.
Qed.
Lemma read_number k z : simple_item (k, "0") = true → 0 ≤ z → read_value (pretty z) = Some (pretty z).
Proof. intros Hk Hz. destruct (pretty_digits z Hz). apply (read_simple k); [done|by apply digits_simple]. Qed.
Lemma schedule_values a action : saved_ok a →
  let f := file_of a action in
  f "MODE" = to_string action ∧ f "USEC" = Some (pretty (a_scheduled_shutdown_timeout a)) ∧
  f "WARN_WALL" = Some (one_zero (a_enable_wall_messages a)) ∧
  f "UID" = Some (pretty (a_scheduled_shutdown_uid a)) ∧ f "TTY" = a_scheduled_shutdown_tty a ∧
  f "WALL_MESSAGE" = (w ← a_wall_message a; if isempty w then None else Some (garbled w)).
Proof.
  intros [Ht [Hu _] Htty Hw]. cbv zeta. unfold file_of.
  assert (Hnd : NoDup ((plain_lines a action ++ tty_lines a ++ wall_lines a).*1)).
  { unfold tty_lines, wall_lines. destruct (a_scheduled_shutdown_tty a), (isempty _);
      apply (bool_decide_unpack _); vm_compute; exact I. }
  assert (Hin : ∀ k v, (k, v) ∈ plain_lines a action → 
    last_value k (reverse (value_read <$> plain_lines a action ++ tty_lines a ++ wall_lines a)) = read_value v).
  { intros k v H. apply last_value_elem; [done|]. apply elem_of_app. by left. }
  split_and!.
  - rewrite (Hin _ (or_null (to_string action))) by (unfold plain_lines; rewrite !elem_of_cons; auto). by destruct action.
  - rewrite (Hin _ (pretty (a_scheduled_shutdown_timeout a))) by (unfold plain_lines; rewrite !elem_of_cons; auto).
    apply (read_number "USEC"); [reflexivity|lia].
  - rewrite (Hin _ (one_zero (a_enable_wall_messages a))) by (unfold plain_lines; rewrite !elem_of_cons; auto).
    by destruct (a_enable_wall_messages a).
  - rewrite (Hin _ (pretty (a_scheduled_shutdown_uid a))) by (unfold plain_lines; rewrite !elem_of_cons; auto).
    apply (read_number "UID"); [reflexivity|lia].
  - destruct (a_scheduled_shutdown_tty a) as [t|] eqn:E1.
    + destruct (Htty t eq_refl) as (Hne&Hs&_). rewrite (last_value_elem _ t); [by apply (read_simple "TTY")|done|].
      unfold tty_lines. rewrite E1, !elem_of_app, list_elem_of_singleton. auto.
    + apply last_value_absent. unfold tty_lines, wall_lines. rewrite E1. destruct (isempty _);
        apply (bool_decide_unpack _); vm_compute; exact I.
  - destruct (a_wall_message a) as [w|] eqn:E1; unfold mbind, option_bind.
    + destruct (isempty w) eqn:Ew.
      * apply last_value_absent. unfold tty_lines, wall_lines. rewrite E1. change (default "" (Some w)) with w. rewrite Ew.
        destruct (a_scheduled_shutdown_tty a); apply (bool_decide_unpack _); vm_compute; exact I.
      * rewrite (last_value_elem _ (xescape w [" "%char])); [|done|unfold wall_lines; rewrite E1; change (default "" (Some w)) with w; rewrite Ew, !elem_of_app, list_elem_of_singleton; auto].
        rewrite <-unbackslash_xescape. destruct w as [|c w]; [done|]. by destruct c as [[] [] [] [] [] [] [] []].
    + apply last_value_absent. unfold tty_lines, wall_lines. rewrite E1.
      destruct (a_scheduled_shutdown_tty a); apply (bool_decide_unpack _); vm_compute; exact I.
Qed.

Lemma shutdown_timers_set m :
  (∀ d, 0 ≤ e_event_add d) → a_scheduled_shutdown_timeout_source (m_act m) = None →
  a_nologin_timeout_source (m_act m) = None →
  ∃ m', manager_setup_shutdown_timers m = Some (0, m') ∧ plan (m_act m') = plan (m_act m).
Proof.
  intros He H1 H2. unfold manager_setup_shutdown_timers, bind, gets. rewrite H1. unfold event_reset_time.
  pose proof (He "scheduled-shutdown-timeout") as Ha. pose proof (He "nologin-timeout") as Hb.
  destruct (Z.ltb_spec (e_event_add "scheduled-shutdown-timeout") 0); [lia|]. cbn. rewrite H2.
  destruct (Z.ltb_spec (e_event_add "nologin-timeout") 0); [lia|]. cbn. by eexists.
Qed.
Lemma update_schedule_keeps m : is_Some (a_scheduled_shutdown_action (m_act m)) →
  ∃ r m', update_schedule_file m = Some (r, m') ∧ plan (m_act m') = plan (m_act m).
Proof.
  intros [h Hh]. unfold update_schedule_file, bind at 1, gets at 1. rewrite Hh. cbn [deref].
  unfold bind at 1, ret at 1. assert (H : keeps_plan (if e_schedule_open <? 0 then ret e_schedule_open else
    let '(r, lines) := schedule_lines (m_act m) h in
    let r := if r <? 0 then r else e_schedule_close in
    if r <? 0 then emit ScheduleRemoved ;;; ret r else emit (ScheduleSaved lines) ;;; ret 0)).
  { cbv zeta. keeps. }
  apply H.
Qed.

Lemma action_name_reads (h : HandleAction) : from_string (to_string h) = Some h.
Proof. by destruct h. Qed.
(** The schedule as it is after a reset: nothing is set, the message and whether
    to warn remain. *)
Lemma reset_ends m : ∃ m', reset_scheduled_shutdown m = Some (tt, m') ∧
  a_scheduled_shutdown_timeout_source (m_act m') = None ∧ a_nologin_timeout_source (m_act m') = None ∧
  plan (m_act m') = (None, USEC_INFINITY, a_enable_wall_messages (m_act m), UID_INVALID, None,
                     a_wall_message (m_act m), false).
Proof.
  unfold reset_scheduled_shutdown, bind at 1, gets at 1.
  by destruct (a_unlink_nologin (m_act m)); eexists.
Qed.
(** The end of load_schedule(): the timers, and the file again. *)
Lemma load_timers_end m :
  (∀ d, 0 ≤ e_event_add d) → a_scheduled_shutdown_timeout_source (m_act m) = None →
  a_nologin_timeout_source (m_act m) = None → is_Some (a_scheduled_shutdown_action (m_act m)) →
  ∃ m', (r <- manager_setup_shutdown_timers ;;
         if r <? 0 then reset_scheduled_shutdown
         else ignore manager_setup_wall_message_timer ;;; ignore update_schedule_file) m = Some (tt, m') ∧
    plan (m_act m') = plan (m_act m).
Proof.
  intros He H1 H2 Ha. destruct (shutdown_timers_set m He H1 H2) as (m1&E1&P1).
  destruct (keeps_wall_timer m1) as (r2&m2&E2&P2).
  destruct (update_schedule_keeps m2) as (r3&m3&E3&P3).
  { rewrite P1 in P2. unfold plan in P2. injection P2 as -> _. done. }
  exists m3. split; [|congruence]. unfold bind at 1. rewrite E1. change (0 <? 0) with false. cbv iota. unfold ignore, bind. rewrite E2.
  unfold ret at 1. rewrite E3. done.
Qed.

Lemma plan_fields a h t w u tty msg dry :
  plan a = (h, t, w, u, tty, msg, dry) →
  a_scheduled_shutdown_action a = h ∧ a_scheduled_shutdown_timeout a = t ∧ a_enable_wall_messages a = w ∧
  a_scheduled_shutdown_uid a = u ∧ a_scheduled_shutdown_tty a = tty ∧ a_wall_message a = msg ∧
  a_shutdown_dry_run a = dry.
Proof. by intros [= -> -> -> -> -> -> ->]. Qed.
Lemma load_fields_sources h usec f a :
  a_scheduled_shutdown_timeout_source (load_fields h usec f a) = a_scheduled_shutdown_timeout_source a ∧
  a_nologin_timeout_source (load_fields h usec f a) = a_nologin_timeout_source a.
Proof. unfold load_fields. repeat case_match; done. Qed.
Lemma load_fields_plan a action m m0 :
  saved_ok a →
  plan (m_act m0) = (None, USEC_INFINITY, a_enable_wall_messages (m_act m), UID_INVALID, None, a_wall_message (m_act m), false) →
  plan (load_fields action (a_scheduled_shutdown_timeout a) (file_of a action) (m_act m0)) =
  (Some action, a_scheduled_shutdown_timeout a, a_enable_wall_messages a, a_scheduled_shutdown_uid a,
   a_scheduled_shutdown_tty a,
   if isempty (default "" (a_wall_message a)) then a_wall_message (m_act m) else garbled <$> a_wall_message a, false).
Proof.
  intros Hok Hp. destruct (schedule_values a action Hok) as (_&_&H3&H4&H5&H6).
  unfold load_fields. rewrite H3, H4, H5, H6. cbn [fmap option_fmap option_map].
  destruct Hok as [_ [Hu Hv] _ _]. rewrite parse_uid_pretty by done.
  assert (parse_boolean (one_zero (a_enable_wall_messages a)) = inr (a_enable_wall_messages a)) as ->
    by by destruct (a_enable_wall_messages a).
  injection Hp as P1 P2 P3 P4 P5 P6 P7. unfold plan.
  assert (Hc : ∀ w, cunescape_value <$> Some (garbled w) = Some (inr (garbled w))).
  { intros w. unfold fmap, option_fmap, option_map, cunescape_value. by rewrite cunescape_no_backslash by apply garbled_no_backslash. }
  destruct (a_wall_message a) as [w|]; unfold mbind, option_bind; [|cbn; by rewrite P6, P7].
  change (default "" (Some w)) with w. destruct (isempty w); [cbn; by rewrite P6, P7|].
  rewrite Hc. cbn. by rewrite P7.
Qed.

(** C22: what a restarted daemon knows of a scheduled shutdown: the file that
    update_schedule_file() writes is read without error, and load_schedule()
    takes up the action, the time, the uid, the terminal and whether to warn as
    they were.  The message loses the backslashes of its escapes, and a dry run
    becomes a real one. *)
Theorem schedule_survives_restart a action m :
  saved_ok a → (∀ d, 0 ≤ e_event_add d) →
  ∃ f m', parse_env_file (items (schedule_lines a action).2) = (0, f) ∧
    load_schedule 0 f m = Some (tt, m') ∧
    a_scheduled_shutdown_action (m_act m') = Some action ∧
    a_scheduled_shutdown_timeout (m_act m') = a_scheduled_shutdown_timeout a ∧
    a_enable_wall_messages (m_act m') = a_enable_wall_messages a ∧
    a_scheduled_shutdown_uid (m_act m') = a_scheduled_shutdown_uid a ∧
    a_scheduled_shutdown_tty (m_act m') = a_scheduled_shutdown_tty a ∧
    a_wall_message (m_act m') =
      (if isempty (default "" (a_wall_message a)) then a_wall_message (m_act m)
       else garbled <$> a_wall_message a) ∧
    a_shutdown_dry_run (m_act m') = false.
Proof.
  intros Hok He. destruct (schedule_lines_eq a action Hok) as (r&Hl&_).
  exists (file_of a action). rewrite Hl. cbn [snd].
  rewrite parse_env_file_plain by by apply schedule_lines_ok.
  destruct (schedule_values a action Hok) as (H1&H2&H3&H4&H5&H6).
  destruct (reset_ends m) as (m0&Er&Hs1&Hs2&Hp).
  assert (Hf : plan (load_fields action (a_scheduled_shutdown_timeout a) (file_of a action) (m_act m0)) =
    (Some action, a_scheduled_shutdown_timeout a, a_enable_wall_messages a, a_scheduled_shutdown_uid a,
     a_scheduled_shutdown_tty a,
     if isempty (default "" (a_wall_message a)) then a_wall_message (m_act m) else garbled <$> a_wall_message a, false)).
  { by apply load_fields_plan. }
  destruct (load_timers_end (m0 <| m_act := load_fields action (a_scheduled_shutdown_timeout a) (file_of a action) (m_act m0) |>))
    as (m'&Em&Pm); [done|by rewrite <-Hs1; apply load_fields_sources|by rewrite <-Hs2; apply load_fields_sources| |].
  { apply plan_fields in Hf as [Hf _]. by eexists. }
  exists m'. split; [done|]. split; [|apply plan_fields; exact (eq_trans Pm Hf)].
  unfold load_schedule, bind at 1. rewrite Er. change (0 <? 0) with false. cbv iota.
  rewrite H1, H2, action_name_reads. cbn [fmap option_fmap option_map].
  destruct Hok as [Ht _ _ _].
  unfold deserialize_usec. rewrite safe_atollu_full_pretty by (unfold USEC_INFINITY, UINT64_MAX in *; auto; lia).
  exact Em.
Qed.
End Load.

(** root schedules a dry run, after setting a message of two words. *)
Definition sample_scheduled : manager :=
  after (@method_schedule_shutdown sample_env "dry-poweroff" 90000000000 root_message)
    (after (method_set_wall_message "hello world" true root_message) sample_started).
Lemma sample_saved_ok : saved_ok (m_act sample_scheduled).
Proof.
  split.
  - split; [vm_compute; congruence|reflexivity].
  - split; [split; vm_compute; congruence|reflexivity].
  - intros t Ht. vm_compute in Ht. discriminate.
  - intros w Hw. assert (w = "hello world") as -> by (vm_compute in Hw; by injection Hw). split; reflexivity.
Qed.
Lemma schedule_survives_restart_witness :
  a_shutdown_dry_run (m_act sample_scheduled) = true ∧
  ∃ f m', parse_env_file (items (schedule_lines (m_act sample_scheduled) HANDLE_POWEROFF).2) = (0, f) ∧
    @load_schedule sample_env 0 f sample_started = Some (tt, m') ∧
    a_scheduled_shutdown_action (m_act m') = Some HANDLE_POWEROFF ∧
    a_scheduled_shutdown_timeout (m_act m') = 90000000000 ∧
    a_wall_message (m_act m') = Some "hellox20world" ∧ a_shutdown_dry_run (m_act m') = false.
Proof.
  split; [vm_compute; reflexivity|].
  destruct (@schedule_survives_restart sample_env (m_act sample_scheduled) HANDLE_POWEROFF sample_started)
    as (f&m'&H1&H2&H3&H4&_&_&_&H7&H8); [apply sample_saved_ok|intros d; apply Z.le_refl|].
  exists f, m'. split_and!; [done|done|done|exact H4| |done].
  rewrite H7. vm_compute. reflexivity.
Defined.

(** * The warnings *)

(** The largest entry of a list that lies before the shutdown by less than the
    time left. *)
Definition last_before (left : Z) (l : list Z) (p : Z) : Prop :=
  p ∈ l ∧ p * USEC_PER_MINUTE < left ∧ ∀ t, t ∈ l → t * USEC_PER_MINUTE < left → t ≤ p.

(** The loop over an ascending list finds it, unless all entries do. *)
Lemma wall_step_cases left prev l :
  StronglySorted Z.lt (prev :: l) → prev * USEC_PER_MINUTE < left →
  (∃ p, last_before left (prev :: l) p ∧ wall_step left prev l = left - p * USEC_PER_MINUTE ∧
        ∃ t, t ∈ l ∧ left ≤ t * USEC_PER_MINUTE) ∨
  ((∀ t, t ∈ l → t * USEC_PER_MINUTE < left) ∧ wall_step left prev l = left mod USEC_PER_HOUR).
Proof.
  revert prev. induction l as [|t l IH]; intros prev [Hs Hlt]%StronglySorted_inv Hp.
  - right. split; [|done]. by intros t ?%elem_of_nil.
  - cbn [wall_step]. rewrite Forall_forall in Hlt. pose proof Hs as [_ Ht]%StronglySorted_inv. rewrite Forall_forall in Ht.
    assert (Hmin : 0 < USEC_PER_MINUTE) by reflexivity.
    destruct (Z.leb_spec left (t * USEC_PER_MINUTE)) as [H|H].
    + left. exists prev. split_and!; [|done|exists t; by split; [left|]]. split_and!; [by left|done|].
      intros t' [->|[->|Hin]%elem_of_cons]%elem_of_cons Hb; [lia|lia|]. specialize (Ht t' Hin). nia.
    + destruct (IH t Hs H) as [(p&(H1&H2&H3)&H4&t'&H5&H6)|[H1 H2]].
      * left. exists p. split_and!; [|done|exists t'; by split; [right|]]. split_and!; [by right|done|].
        intros t'' [->|Hin]%elem_of_cons Hb; [|by apply H3].
        pose proof (H3 t ltac:(by left) H). specialize (Hlt t ltac:(by left)). lia.
      * right. split; [|done]. intros t' [->|Hin]%elem_of_cons; auto.
Qed.

(** C38: the next warning comes at the next of the times to warn at: within the
    last three hours the wait leads to the last of the fixed numbers of minutes
    before the shutdown that is still to come, earlier on to the last full hour
    before it; only at a full number of hours above three the wait is zero, which
    stands for no more warnings, as it does when the time has passed. *)
Theorem warnings_come_on_time n elapse :
  let left := elapse - n in let wait := when_wall n elapse in
  (left ≤ 0 → wait = 0) ∧
  (0 < left ≤ 180 * USEC_PER_MINUTE →
     0 < wait ∧ ∃ t, last_before left wall_timers t ∧ left - wait = t * USEC_PER_MINUTE) ∧
  (180 * USEC_PER_MINUTE < left →
     ∃ h, h * USEC_PER_HOUR ≤ left < (h + 1) * USEC_PER_HOUR ∧ left - wait = h * USEC_PER_HOUR).
Proof.
  cbv zeta. unfold when_wall. destruct (Z.leb_spec elapse n) as [|Hn].
  { split_and!; [done|lia|]. unfold USEC_PER_MINUTE. lia. }
  assert (Hs : StronglySorted Z.lt (0 :: tail wall_timers)) by (repeat constructor).
  pose proof (wall_step_cases (elapse - n) 0 (tail wall_timers) Hs) as Hc.
  destruct Hc as [(p&Hp&->&t&Ht&Hr)|[Hr ->]]; [lia| |].
  - assert (Ht0 : t ≤ 180).
    { assert (HF : Forall (λ t, t ≤ 180) (tail wall_timers)) by (repeat constructor; vm_compute; congruence).
      rewrite Forall_forall in HF. by apply HF. }
    assert (Hmin : 0 < USEC_PER_MINUTE) by reflexivity.
    split_and!; [lia| |nia]. intros _. pose proof Hp as (_&?&_). split; [lia|]. exists p. split; [exact Hp|lia].
  - assert (180 * USEC_PER_MINUTE < elapse - n) by (apply (Hr 180), (bool_decide_unpack _); vm_compute; exact I).
    split_and!; [lia|lia|]. intros _. exists ((elapse - n) / USEC_PER_HOUR).
    assert (Hh : 0 < USEC_PER_HOUR) by reflexivity.
    pose proof (Z.mod_pos_bound (elapse - n) USEC_PER_HOUR Hh). pose proof (Z.div_mod (elapse - n) USEC_PER_HOUR ltac:(lia)).
    lia.
Qed.
Lemma warnings_come_on_time_witness :
  let wait := when_wall 0 (30 * USEC_PER_MINUTE) in
  0 < wait ∧ ∃ t, last_before (30 * USEC_PER_MINUTE) wall_timers t ∧ 30 * USEC_PER_MINUTE - wait = t * USEC_PER_MINUTE.
Proof. apply (warnings_come_on_time 0 (30 * USEC_PER_MINUTE)). split; vm_compute; congruence. Defined.
Example warnings_at_full_hours : when_wall 0 (5 * USEC_PER_HOUR) = 0 ∧ when_wall 0 (30 * USEC_PER_MINUTE) = 5 * USEC_PER_MINUTE.
Proof. by split. Qed.
