(* ===== verification/ButtonFacts.v ===== *)
(** Keys and idleness: the secure attention key is the combination that is held,
    and when the idle action has to wait; and two ways in which a key brings the
    daemon down. *)
From S2P Require Import Prelude Time LoginTypes ActionTypes LoginState LoginEnv Bus Objects User Session Inhibit Wall Power Buttons Partial InhibitFacts UserFacts Sample.
#[local] Open Scope Z_scope.
#[local] Open Scope list_scope.

(** * The keys that are held *)

(** The mask of the modifiers among the keys [held]. *)
Definition keys_mask (held : Z → bool) : Z :=
  foldl (λ mask kv, if held kv.1 then Z.lor mask kv.2 else mask) BUTTON_MODIFIER_NONE keycode_modifier_table.
Definition after_key (held : Z → bool) (ev : input_event) : Z → bool := λ key,
  if key =? ev_code ev then (if 0 <? ev_value ev then true else if ev_value ev =? 0 then false else held key)
  else held key.
(** A Shift, a Ctrl and an Alt key, left or right. *)
Definition complete (held : Z → bool) : bool :=
  (held KEY_LEFTSHIFT || held KEY_RIGHTSHIFT) && (held KEY_LEFTCTRL || held KEY_RIGHTCTRL)
  && (held KEY_LEFTALT || held KEY_RIGHTALT).
(** What is to be signalled for the keys [evs], on the seat [k]. *)
Fixpoint attention (k : string) (held : Z → bool) (evs : list input_event) : list effect :=
  match evs with
  | [] => []
  | ev :: evs' =>
      (if (ev_code ev =? KEY_ESC) && (0 <? ev_value ev) && complete held then [SecureAttentionKey k] else [])
      ++ attention k (after_key held ev) evs'
  end.

(** A key that is not one of those with an action of their own. *)
Definition plain_key (ev : input_event) : Prop :=
  ev_type ev = EV_KEY ∧ 0 < ev_code ev ∧ key_of_code (ev_code ev) = None.

(** The keys of a table of distinct bits. *)
Lemma mask_of_six (a b c d e f : bool) :
  let mask := keys_mask (λ key,
    if key =? KEY_LEFTSHIFT then a else if key =? KEY_RIGHTSHIFT then b
    else if key =? KEY_LEFTCTRL then c else if key =? KEY_RIGHTCTRL then d
    else if key =? KEY_LEFTALT then e else if key =? KEY_RIGHTALT then f else false) in
  BUTTON_MODIFIER_HAS_SHIFT mask = a || b ∧ BUTTON_MODIFIER_HAS_CTRL mask = c || d ∧
  BUTTON_MODIFIER_HAS_ALT mask = e || f.
Proof. by destruct a, b, c, d, e, f. Qed.
Lemma keys_mask_complete held :
  BUTTON_MODIFIER_HAS_SHIFT (keys_mask held) && BUTTON_MODIFIER_HAS_CTRL (keys_mask held)
  && BUTTON_MODIFIER_HAS_ALT (keys_mask held) = complete held.
Proof.
  destruct (mask_of_six (held KEY_LEFTSHIFT) (held KEY_RIGHTSHIFT) (held KEY_LEFTCTRL) (held KEY_RIGHTCTRL)
    (held KEY_LEFTALT) (held KEY_RIGHTALT)) as (H1&H2&H3).
  unfold complete. by rewrite <-H1, <-H2, <-H3.
Qed.

Lemma keys_mask_ext held held' : (∀ key, held key = held' key) → keys_mask held = keys_mask held'.
Proof. intros H. unfold keys_mask. cbn [foldl fst keycode_modifier_table]. by rewrite !H. Qed.
Lemma keys_mask_change held code :
  Z.lor (keys_mask held) (button_get_keycode_modifier_mask code) = keys_mask (λ key, if key =? code then true else held key) ∧
  Z.ldiff (keys_mask held) (button_get_keycode_modifier_mask code) = keys_mask (λ key, if key =? code then false else held key).
Proof.
  assert (H : ∀ v, Forall (λ kv, code ≠ kv.1) keycode_modifier_table →
    button_get_keycode_modifier_mask code = 0 ∧ keys_mask (λ key, if key =? code then v else held key) = keys_mask held).
  { intros v Hn. unfold keycode_modifier_table in Hn. rewrite !Forall_cons in Hn. cbn [fst] in Hn.
    destruct Hn as (H1&H2&H3&H4&H5&H6&_). unfold button_get_keycode_modifier_mask, keys_mask, keycode_modifier_table.
    cbn [find_first foldl fst]. rewrite !(Z.eqb_sym _ code).
    by rewrite (proj2 (Z.eqb_neq _ _) H1), (proj2 (Z.eqb_neq _ _) H2), (proj2 (Z.eqb_neq _ _) H3),
      (proj2 (Z.eqb_neq _ _) H4), (proj2 (Z.eqb_neq _ _) H5), (proj2 (Z.eqb_neq _ _) H6). }
  destruct (decide (Forall (λ kv, code ≠ kv.1) keycode_modifier_table)) as [Hn|Hs].
  { destruct (H true Hn) as [-> ->], (H false Hn) as [_ ->]. by rewrite Z.lor_0_r, Z.ldiff_0_r. }
  clear H. apply not_Forall_Exists in Hs; [|apply _]. apply Exists_exists in Hs as (kv&Hkv&Hc).
  apply dec_stable in Hc. subst code. unfold keys_mask, keycode_modifier_table.
  unfold keycode_modifier_table in Hkv. cbn [foldl fst snd].
  destruct (held KEY_LEFTSHIFT), (held KEY_RIGHTSHIFT), (held KEY_LEFTCTRL), (held KEY_RIGHTCTRL),
    (held KEY_LEFTALT), (held KEY_RIGHTALT);
    (repeat (apply elem_of_cons in Hkv as [->|Hkv]; [by split|])); by apply elem_of_nil in Hkv.
Qed.

(** * The secure attention key *)

Section Keys.
Context {E : Env}.

(** The device delivers the events one after another. *)
Definition feed (name : string) (fd : Z) (evs : list input_event) : MM unit :=
  for_each (λ ev, ignore (button_dispatch name fd (inr (Some ev)))) evs.
Definition with_mask (name : string) (b : button) (held : Z → bool) (m : manager) : manager :=
  m <| m_buttons := <[name := b <| b_modifier_mask := keys_mask held |>]> (m_buttons m) |>.

Lemma get_button_run m name b : m_buttons m !! name = Some b → get_button name m = Some (b, m).
Proof. intros H. unfold get_button, bind, gets. by rewrite H. Qed.
Lemma upd_button_run m name b f :
  m_buttons m !! name = Some b → upd_button name f m = Some (tt, m <| m_buttons := <[name := f b]> (m_buttons m) |>).
Proof. intros H. unfold upd_button, bind. by rewrite (get_button_run m name b H). Qed.
Lemma dispatch_run m name b ev :
  m_buttons m !! name = Some b →
  button_dispatch name (b_fd b) (inr (Some ev)) m = bind (button_event name ev) (λ _, ret 0) m.
Proof.
  intros H. unfold button_dispatch. rewrite (bind_run _ _ _ _ _ (get_button_run m name b H)). by rewrite Z.eqb_refl.
Qed.

Lemma escape_run m b k :
  b_seat b = Some k → is_Some (m_seats m !! k) →
  c_handle_secure_attention_key (m_conf m) = HANDLE_SECURE_ATTENTION_KEY →
  escape_pressed b m = Some (tt, m <| m_trace := m_trace m ++
    (if BUTTON_MODIFIER_HAS_SHIFT (b_modifier_mask b) && BUTTON_MODIFIER_HAS_CTRL (b_modifier_mask b)
        && BUTTON_MODIFIER_HAS_ALT (b_modifier_mask b) then [SecureAttentionKey k] else []) |>).
Proof.
  intros Hk [t Ht] Hc. unfold escape_pressed, bind at 1, gets at 1. rewrite Hc, Hk. cbn [bool_decide].
  assert (Hm : m = m <| m_trace := m_trace m ++ [] |>) by (destruct m; cbn; by rewrite app_nil_r).
  destruct (BUTTON_MODIFIER_HAS_SHIFT _), (BUTTON_MODIFIER_HAS_CTRL _), (BUTTON_MODIFIER_HAS_ALT _);
    cbn [negb orb andb]; rewrite ?bool_decide_false by done; try (cbv [ret]; by rewrite <-Hm).
  unfold manager_handle_action, manager_handle_action_secure_attention_key, emit.
  rewrite !bool_decide_false, bool_decide_true by done. cbn [Z.eqb Z.ltb Z.compare andb negb HANDLE_ACTION_IS_SLEEP].
  cbv beta iota zeta delta [ignore bind gets ret modify not_inhibited fst snd].
  change (match INHIBIT_HANDLE_LID_SWITCH with 0 => true | _ => false end) with false. cbn [andb]. cbv beta. by rewrite Ht.
Qed.

(** A state in which only a button is set to what it is. *)
Lemma with_mask_same m name b held :
  m_buttons m !! name = Some b → b_modifier_mask b = keys_mask held → with_mask name b held m = m.
Proof.
  intros Hb Hm. unfold with_mask. rewrite <-Hm.
  rewrite insert_id; [by destruct m|]. rewrite Hb. by destruct b.
Qed.
Lemma nothing_signalled m : m <| m_trace := m_trace m ++ [] |> = m.
Proof. destruct m. cbn. by rewrite app_nil_r. Qed.
Lemma modifiers_run m name b f code :
  m_buttons m !! name = Some b → 0 < code →
  change_modifiers name code f m =
    Some (tt, m <| m_buttons := <[name := b <| b_modifier_mask := f (b_modifier_mask b) (button_get_keycode_modifier_mask code) |>]> (m_buttons m) |>).
Proof.
  intros Hb Hc. unfold change_modifiers. rewrite (proj2 (Z.ltb_lt _ _) Hc).
  unfold assert_se, bind at 1, ret. by rewrite (upd_button_run m name b).
Qed.

Lemma key_step m name b k held ev :
  m_buttons m !! name = Some b → b_seat b = Some k → is_Some (m_seats m !! k) →
  c_handle_secure_attention_key (m_conf m) = HANDLE_SECURE_ATTENTION_KEY →
  b_modifier_mask b = keys_mask held → plain_key ev →
  button_event name ev m =
    Some (tt, with_mask name b (after_key held ev) m <| m_trace := m_trace m ++ attention k held [ev] |>).
Proof.
  intros Hb Hk Ht Hc Hm (Ety&Hcode&Eplain). unfold button_event.
  rewrite (bind_run _ _ _ _ _ (get_button_run m name b Hb)), Ety, Eplain.
  change (EV_KEY =? EV_KEY) with true. change (EV_KEY =? EV_SW) with false. cbn [andb].
  destruct (keys_mask_change held (ev_code ev)) as [Hset Hreset].
  unfold attention, after_key. rewrite app_nil_r.
  destruct (Z.ltb_spec 0 (ev_value ev)) as [Hv|Hv]; [|destruct (Z.eqb_spec (ev_value ev) 0) as [H0|H0]].
  - destruct (Z.eqb_spec (ev_code ev) KEY_ESC) as [Ee|Ee]; cbn [andb].
    + rewrite (escape_run m b k Hk Ht Hc), Hm, keys_mask_complete.
      rewrite with_mask_same; [done..|]. rewrite <-Hset, Ee, Hm. symmetry. apply Z.lor_0_r.
    + rewrite (modifiers_run m name b Z.lor _ Hb Hcode), Hm, Hset.
      by rewrite nothing_signalled.
  - rewrite andb_false_r. cbn [andb]. rewrite nothing_signalled.
    destruct (Z.eqb_spec (ev_code ev) KEY_ESC) as [Ee|Ee].
    + rewrite with_mask_same; [done..|]. rewrite <-Hreset, Ee, Hm. symmetry. apply Z.ldiff_0_r.
    + by rewrite (modifiers_run m name b Z.ldiff _ Hb Hcode), Hm, Hreset.
  - rewrite andb_false_r. cbn [andb]. rewrite nothing_signalled, with_mask_same; [done..|].
    rewrite Hm. apply keys_mask_ext. intros key. by destruct (key =? ev_code ev).
Qed.

(** C23: the secure attention key. Let HandleSecureAttentionKey= be
    secure-attention-key, as it is by default, and let a keyboard be on a seat.
    However its keys are pressed, repeated and released - the keys with an action
    of their own (power, restart, sleep and suspend), whose settings could also
    name this action, and code 0 apart - and from whichever keys were held when
    the daemon opened it, the daemon signals SecureAttentionKey on the keyboard's
    seat at each press or repetition of Escape at which a Shift, a Ctrl and an Alt
    key are held, the left or the right one, and at no other time; and its mask of
    modifiers is that of the keys held. Nothing else changes. *)
Theorem secure_attention_follows_the_keys name b k held evs m :
  m_buttons m !! name = Some b → b_seat b = Some k → is_Some (m_seats m !! k) →
  c_handle_secure_attention_key (m_conf m) = HANDLE_SECURE_ATTENTION_KEY →
  b_modifier_mask b = keys_mask held → Forall plain_key evs →
  feed name (b_fd b) evs m =
    Some (tt, with_mask name b (foldl after_key held evs) m <| m_trace := m_trace m ++ attention k held evs |>).
Proof.
  intros Hb Hk Ht Hc Hm H. revert m b held Hb Hk Ht Hc Hm.
  induction H as [|ev evs Hev _ IH]; intros m b held Hb Hk Ht Hc Hm.
  { cbn [foldl attention]. by rewrite nothing_signalled, with_mask_same. }
  unfold feed. cbn [for_each]. unfold bind at 1, ignore at 1, bind at 1.
  rewrite (dispatch_run m name b ev Hb). unfold bind at 1. rewrite (key_step m name b k held ev Hb Hk Ht Hc Hm Hev).
  cbv [ret]. fold (feed name (b_fd b) evs).
  specialize (IH (with_mask name b (after_key held ev) m <| m_trace := m_trace m ++ attention k held [ev] |>)
    (b <| b_modifier_mask := keys_mask (after_key held ev) |>) (after_key held ev)).
  cbn [b_fd] in IH. change (b_fd (b <| b_modifier_mask := _ |>)) with (b_fd b) in IH.
  rewrite IH; [|apply lookup_insert_eq|done..].
  cbn [foldl attention]. unfold with_mask. cbn. by rewrite insert_insert_eq, app_nil_r, <-app_assoc.
Qed.
End Keys.

(** * Two ways to bring the daemon down *)

Definition press (code : Z) : input_event := mkInput EV_KEY code 1.
Definition unplugged (name : string) : button_device := mkButtonDevice (Some name) true false None.

Section Crashes.
Context {E : Env}.

Lemma key_timer_set k t a : key_timer k (set_key_timer k t a) = t.
Proof. by destruct k. Qed.

(** A finding: a keyboard that is unplugged while one of its power keys is
    held brings the daemon down. The key press starts the manager's timer with
    the button as its user data; button_free() drops the two event sources of the
    button, but not this one; and when the time is up the handler reads the
    button that is gone. *)
Theorem unplugged_key_brings_down k code name b m :
  key_of_code code = Some k → m_buttons m !! name = Some b →
  key_timer k (m_act m) = None → 0 ≤ e_event_add "long-press" →
  key_long k (m_conf m) ≠ HANDLE_IGNORE → key_long k (m_conf m) ≠ key_short k (m_conf m) →
  ∃ m1 m2 t, button_dispatch name (b_fd b) (inr (Some (press code))) m = Some (0, m1) ∧
    manager_process_button_device (unplugged name) m1 = Some (0, m2) ∧
    key_timer k (m_act m2) = Some (t, name) ∧ long_press_handler k name m2 = None.
Proof.
  intros Hk Hb Ht He Hi Hs. rewrite (dispatch_run m name b _ Hb). unfold button_event.
  set (t := mkTimer (usec_add e_now_monotonic LONG_PRESS_DURATION) true).
  set (m1 := m <| m_act := set_key_timer k (Some (t, name)) (m_act m) |>).
  exists m1, (m1 <| m_buttons := delete name (m_buttons m1) |>), t. split_and!.
  - unfold bind at 1. rewrite (bind_run _ _ _ _ _ (get_button_run m name b Hb)). cbn. rewrite Hk.
    unfold key_pressed, bind, gets. rewrite !bool_decide_false by done. cbn.
    unfold start_long_press, bind, gets. rewrite Ht. cbn. destruct (Z.ltb_spec (e_event_add "long-press") 0); [lia|done].
  - done.
  - apply key_timer_set.
  - unfold long_press_handler, get_button, bind, gets. cbn. by rewrite lookup_delete_eq.
Qed.

Context {Ok : EnvOk}.
Lemma not_inhibited_run w block ignore_inactive ignore_uid uid m :
  0 < w < _INHIBIT_WHAT_MAX → m_inhibitors m = ∅ →
  manager_is_inhibited w block ignore_inactive ignore_uid uid m = Some (not_inhibited, m).
Proof.
  intros [H1 H2] He. unfold manager_is_inhibited. rewrite (proj2 (Z.ltb_lt _ _) H1), (proj2 (Z.ltb_lt _ _) H2).
  unfold all_inhibitors, gets, bind, assert_se, ret. rewrite He, map_to_list_empty. cbn [fmap list_fmap].
  pose proof (e_order_ids_ok (EnvOk := Ok) []) as Hl. by apply Permutation_nil_r in Hl as ->.
Qed.

(** A computation that crashes takes what follows with it. *)
Lemma bind_crash {A B} (c : MM A) (k : A → MM B) m : c m = None → bind c k m = None.
Proof. intros H. unfold bind. by rewrite H. Qed.
Lemma factory_reset_crashes allow m :
  0 < c_inhibit_delay_max (m_conf m) → e_sleep_config = inr allow →
  bus_manager_shutdown_or_sleep_now_or_later HANDLE_FACTORY_RESET m = None.
Proof.
  intros Hmax Hcfg. unfold bus_manager_shutdown_or_sleep_now_or_later, bind at 1, gets at 1. rewrite Hcfg.
  destruct (is_some _); [done|]. destruct allow as [p q].
  unfold bind at 1, assert_se at 1, negb at 1, ret at 1. cbv zeta.
  change (hd_inhibit_what _ =? INHIBIT_SHUTDOWN) with false. change (hd_inhibit_what _ =? INHIBIT_SLEEP) with false.
  cbn [andb orb when]. unfold bind at 1, ret at 1. unfold bind at 1, gets at 1.
  rewrite (proj2 (Z.ltb_lt _ _) Hmax). by apply bind_crash, bind_crash.
Qed.

(** A finding: a key that is set to "factory-reset", which the table of
    actions knows, brings the daemon down. The row of this action has no operation
    that could be inhibited; handle_action_execute() allows for that, but
    bus_manager_shutdown_or_sleep_now_or_later() asks manager_is_inhibited()
    about it, which takes only valid operations. *)
Theorem factory_reset_key_brings_down k name seat allow m :
  key_short k (m_conf m) = HANDLE_FACTORY_RESET → key_long k (m_conf m) = HANDLE_IGNORE →
  m_inhibitors m = ∅ → a_delayed_action (m_act m) = None →
  0 < c_inhibit_delay_max (m_conf m) → e_sleep_config = inr allow →
  from_string (Some "factory-reset"%string) = Some HANDLE_FACTORY_RESET ∧ key_pressed k name seat m = None.
Proof.
  intros Hs Hl He Hd Hmax Hcfg. split; [reflexivity|]. unfold key_pressed, bind at 1, gets at 1.
  rewrite Hl, Hs, bool_decide_true by done. cbn [negb andb].
  unfold key_action, ignore, bind at 1, gets at 1. apply bind_crash.
  unfold manager_handle_action. rewrite bool_decide_false by done. unfold bind at 1, gets at 1.
  assert ((key_inhibit k =? INHIBIT_HANDLE_LID_SWITCH) = false) as -> by by destruct k.
  assert ((0 <? key_inhibit k) = true) as -> by by destruct k. cbn [andb].
  rewrite (bind_run _ _ _ _ _ (not_inhibited_run (key_inhibit k) true true false 0 m ltac:(by destruct k) He)).
  cbn [not_inhibited fst snd]. rewrite !bool_decide_false by done.
  change (HANDLE_ACTION_IS_SLEEP HANDLE_FACTORY_RESET) with false. cbv iota.
  unfold handle_action_execute. rewrite bool_decide_false by done. cbn [andb].
  rewrite (bind_run _ _ m tt m) by done. rewrite (bind_run _ _ m (m_act m) m), Hd by done. cbn [is_some].
  rewrite (bind_run _ _ m not_inhibited m) by done. cbn [not_inhibited fst snd].
  by apply bind_crash, (factory_reset_crashes allow).
Qed.
End Crashes.

(** * When the idle action has to wait *)

(** Somebody asks that the system be taken for busy. *)
Definition idle_inhibited {E : Env} (m : manager) : Prop :=
  ∃ id i, m_inhibitors m !! id = Some i ∧ applies m INHIBIT_IDLE true false false 0 i = true.
Definition all_idle {E : Env} (m : manager) : Prop :=
  ∀ sid b k, idle_of m sid = Some (b, k) → b = true.

Section IdleAction.
Context {E : Env} {Ok : EnvOk}.

(** From "not idle" the loop does not come back. *)
Lemma idle_step_false ts o : (idle_step false ts o).1 = false.
Proof. by destruct o as [[[] k]|]. Qed.
Lemma wp_idle_loop m l idle :
  (∀ sid, sid ∈ l → is_Some (m_sessions m !! sid)) →
  wp (fold_m user_idle_step (idle, DUAL_TIMESTAMP_NULL) l)
    (λ r m', m' = m ∧ if idle then idle_answer m l (fst r) (snd r) else fst r = false) m.
Proof.
  intros Hl.
  set (I := λ (r : bool * dual_timestamp) (rest : list string) (m' : manager),
    m' = m ∧ ∃ pre, l = pre ++ rest ∧ if idle then idle_answer m pre (fst r) (snd r) else fst r = false).
  eapply wp_mono; [apply (wp_fold_m _ I)|].
  - split; [done|]. exists []. split; [done|]. destruct idle; [|done]. by intros ? ? ? ?%elem_of_nil.
  - intros [h t] sid rest m' (->&pre&Epre&Ha). apply wp_user_idle_step.
    + apply Hl. rewrite Epre. apply elem_of_app. right. left.
    + split; [done|]. exists (pre ++ [sid]). split; [by rewrite <-app_assoc|]. destruct idle.
      * pose proof (idle_answer_step m pre h t sid Ha) as Hs. by destruct (idle_step _ _ _).
      * cbn in Ha. subst h. apply idle_step_false.
  - intros r m' (->&pre&Epre&Ha). rewrite app_nil_r in Epre. by subst pre.
Qed.

Lemma idle_of_session m sid x : idle_of m sid = Some x → is_Some (m_sessions m !! sid).
Proof. unfold idle_of. by destruct (m_sessions m !! sid). Qed.
Lemma manager_idle_spec m :
  ∃ idle since, manager_get_idle_hint m = Some ((idle, since), m) ∧
    (idle = true ↔ ¬ idle_inhibited m ∧ all_idle m) ∧
    (idle = true → ∀ sid b k, idle_of m sid = Some (b, k) → monotonic k ≤ monotonic since).
Proof.
  destruct (inhibition_spec INHIBIT_IDLE true false false 0 m) as (b&ts&off&Hi&Hb&_); [done|done|].
  set (ids := e_order_ids (fst <$> map_to_list (m_sessions m))).
  assert (Hids : ∀ sid, sid ∈ ids ↔ is_Some (m_sessions m !! sid)).
  { intros sid. unfold ids. rewrite (e_order_ids_ok (EnvOk := Ok)), list_elem_of_fmap. split.
    - intros ([j s]&->&Hs%elem_of_map_to_list). by exists s.
    - intros [s Hs]. exists (sid, s). split; [done|]. by apply elem_of_map_to_list. }
  assert (Hw := wp_idle_loop m ids (negb b) (λ sid, proj1 (Hids sid))).
  apply wp_run in Hw as ([idle since]&m'&Hrun&->&Ha). exists idle, since.
  split. { unfold manager_get_idle_hint. rewrite (bind_run _ _ _ _ _ Hi). done. }
  assert (Hall : ∀ sid x, idle_of m sid = Some x → sid ∈ ids) by (intros; eapply Hids, idle_of_session; done).
  destruct b; cbn [negb] in Ha; cbn [fst snd] in Ha.
  - subst idle. split; [|done]. split; [done|]. intros [Hn _]. destruct Hn. by apply Hb.
  - assert (Hn : ¬ idle_inhibited m) by (intros H; by apply Hb in H).
    destruct idle; cbn [idle_answer] in Ha.
    + split; [split; [|done]|]; intros _; [split; [done|]|]; intros sid c k Hk; by destruct (Ha sid c k (Hall _ _ Hk) Hk).
    + split; [|done]. split; [done|]. intros [_ Hbusy]. destruct Ha as [(sid&_&Hk) _]. by apply Hbusy in Hk.
Qed.

(** What is left behind when nothing is done. *)
Definition waiting (idle : bool) (next : Z) (m : manager) : manager :=
  m <| m_act := (m_act m) <| a_was_idle := idle && a_was_idle (m_act m) |>
                        <| a_idle_action_event_source := Some (mkTimer next true) |> |>.

(** C24: the idle action waits. The system counts as idle exactly when no
    inhibitor says otherwise and no session that can be idle is busy; since when,
    is no earlier than for any session. While it is not idle, or not yet for
    IdleActionSec=, or the action was taken less than that ago, the timer's handler
    changes nothing but what it remembers, and it sets the timer to a later time
    than now: the daemon does not spin. *)
Theorem idle_action_waits m :
  let c := m_conf m in let n := e_now_monotonic in let last := a_idle_action_not_before_usec (m_act m) in
  c_idle_action c ≠ HANDLE_IGNORE → 0 < c_idle_action_usec c →
  0 ≤ e_event_add "idle-action" → 0 ≤ e_event_set_time → 0 ≤ n → 0 ≤ last →
  ∃ idle since, manager_get_idle_hint m = Some ((idle, since), m) ∧
    (idle = true ↔ ¬ idle_inhibited m ∧ all_idle m) ∧
    (idle = true → ∀ sid b k, idle_of m sid = Some (b, k) → monotonic k ≤ monotonic since) ∧
    (idle && idle_time_has_come n (monotonic since) (c_idle_action_usec c) last = false →
     let next := (if idle then Z.max (monotonic since) last else n) + c_idle_action_usec c in
     0 ≤ monotonic since → next < 2 ^ 64 →
     n < next ∧ manager_dispatch_idle_action m = Some (0, waiting idle next m)).
Proof.
  intros c n last Ha Hu He Hs Hn Hl. destruct (manager_idle_spec m) as (idle&since&Hrun&Hidle&Hlatest).
  exists idle, since. split_and!; [done..|]. intros Hcome next H0 Hnext.
  assert (Hlater : n < next).
  { unfold next. destruct idle; [|lia]. cbn [andb] in Hcome. unfold idle_time_has_come, u64 in Hcome.
    rewrite !Z.mod_small in Hcome by lia. apply andb_false_iff in Hcome as [Hc|Hc].
    - apply Z.leb_gt in Hc. lia.
    - apply orb_false_iff in Hc as [_ Hc%Z.leb_gt]. lia. }
  split; [done|].
  assert (Helapse : idle_elapse n m =
    Some (next, m <| m_act := (m_act m) <| a_was_idle := idle && a_was_idle (m_act m) |> |>)).
  { unfold idle_elapse, bind at 1, gets at 1. fold c. rewrite (bind_run _ _ _ _ _ Hrun). destruct idle; cbn [andb negb] in *.
    - unfold bind at 1, gets at 1. fold last. rewrite Hcome. cbn [when]. unfold bind, gets, ret. cbn. fold last.
      unfold u64. rewrite Z.mod_small by lia. by destruct m as [? ? ? ? ? ? ? ? ? ? ? ? ? ? ? ? ? []].
    - unfold bind, upd_act, modify, ret, u64. cbn. by rewrite Z.mod_small by lia. }
  unfold manager_dispatch_idle_action, bind at 1, gets at 1. fold c.
  rewrite bool_decide_false by done. rewrite (proj2 (Z.leb_gt _ _) Hu). cbn [orb].
  rewrite (bind_run _ _ _ _ _ Helapse). unfold bind at 1, gets at 1.
  destruct (a_idle_action_event_source _);
    [rewrite (proj2 (Z.ltb_ge _ _) Hs)|rewrite (proj2 (Z.ltb_ge _ _) He)]; done.
Qed.
End IdleAction.

(** * On concrete inputs *)

Definition sample_button : button := new_button <| b_seat := Some "seat0"%string |>.
(** A keyboard on seat0, no modifier held. *)
Definition sample_keyboard (c : config) : manager :=
  sample_started <| m_conf := c |> <| m_buttons := {["event3"%string := sample_button]} |>.
(** Left Ctrl, right Alt, Escape too early, right Shift, Escape, and again. *)
Definition sample_keys : list input_event :=
  [press KEY_LEFTCTRL; press KEY_RIGHTALT; press KEY_ESC; press KEY_RIGHTSHIFT; press KEY_ESC;
   mkInput EV_KEY KEY_LEFTCTRL 0; press KEY_ESC].
Lemma secure_attention_follows_the_keys_witness :
  @feed sample_env "event3" (b_fd sample_button) sample_keys (sample_keyboard sample_config) =
    Some (tt, with_mask "event3" sample_button
                (foldl after_key (λ _, false) sample_keys) (sample_keyboard sample_config)
              <| m_trace := m_trace (sample_keyboard sample_config)
                   ++ attention "seat0" (λ _, false) sample_keys |>).
Proof.
  apply (secure_attention_follows_the_keys "event3" sample_button);
    [reflexivity|reflexivity|vm_compute; by eexists|reflexivity|reflexivity|].
  repeat constructor.
Defined.
Example sample_attention : attention "seat0" (λ _, false) sample_keys = [SecureAttentionKey "seat0"].
Proof. reflexivity. Qed.

Definition long_press_config : config := sample_config <| c_handle_power_key_long_press := HANDLE_REBOOT |>.
Lemma unplugged_key_brings_down_witness :
  ∃ m1 m2 t, @button_dispatch sample_env "event3" (b_fd sample_button) (inr (Some (press KEY_POWER))) (sample_keyboard long_press_config) = Some (0, m1) ∧
    @manager_process_button_device sample_env (unplugged "event3") m1 = Some (0, m2) ∧
    key_timer PowerKey (m_act m2) = Some (t, "event3"%string) ∧ @long_press_handler sample_env PowerKey "event3" m2 = None.
Proof.
  apply (unplugged_key_brings_down PowerKey KEY_POWER "event3" sample_button);
    [reflexivity|reflexivity|reflexivity|done|done|done].
Defined.

Definition factory_config : config := sample_config <| c_handle_power_key := HANDLE_FACTORY_RESET |>.
Lemma factory_reset_key_brings_down_witness :
  from_string (Some "factory-reset"%string) = Some HANDLE_FACTORY_RESET ∧
  @key_pressed sample_env PowerKey "event3" (Some "seat0"%string) (sample_keyboard factory_config) = None.
Proof.
  apply (factory_reset_key_brings_down (Ok := sample_env_ok) PowerKey "event3" (Some "seat0"%string) (false, false));
    [reflexivity|reflexivity|reflexivity|reflexivity|reflexivity|reflexivity].
Defined.

(** The screen is to be locked after a minute; nobody is logged in. *)
Definition idle_config : config := sample_config <| c_idle_action := HANDLE_LOCK |> <| c_idle_action_usec := 60000000 |>.
Definition sample_waiting : manager := sample_started <| m_conf := idle_config |>.
Lemma idle_action_waits_witness :
  ∃ idle since, @manager_get_idle_hint sample_env sample_waiting = Some ((idle, since), sample_waiting) ∧
    (idle = true ↔ ¬ @idle_inhibited sample_env sample_waiting ∧ @all_idle sample_env sample_waiting) ∧
    (idle = true → ∀ sid b k, @idle_of sample_env sample_waiting sid = Some (b, k) → monotonic k ≤ monotonic since) ∧
    (idle && idle_time_has_come 1000 (monotonic since) 60000000 1000 = false →
     let next := (if idle then Z.max (monotonic since) 1000 else 1000) + 60000000 in
     0 ≤ monotonic since → next < 2 ^ 64 →
     1000 < next ∧ @manager_dispatch_idle_action sample_env sample_waiting = Some (0, waiting idle next sample_waiting)).
Proof. apply (idle_action_waits (Ok := sample_env_ok) sample_waiting); vm_compute; (reflexivity || discriminate). Defined.
Example sample_idle :
  (λ x, a_idle_action_event_source (m_act x.2)) <$> @manager_dispatch_idle_action sample_env sample_waiting
  = Some (Some (mkTimer 60001000 true)).
Proof. vm_compute. reflexivity. Qed.
